(* ===== verification/_CoqProject ===== *)
-Q . S2P
Prelude.v
Kernel.v
Riscv.v
Kstring.v
Kalloc.v
Vm.v
VmUser.v
VmCopy.v
VmSpace.v
VmFree.v
VmType.v
Sched.v
Sem.v
Shm.v
Spinlock.v
Sleeplock.v
Bytes.v
Bio.v
Log.v
Ring.v
Usr.v
Fs.v
Path.v
Tx.v
FsBlock.v
FsInode.v
FsData.v
FsDir.v
FsTrunc.v
FsLock.v
Pipe.v
Uart.v
Console.v
Printf.v
File.v
Proc.v
ProcMem.v
ProcLife.v
ProcFork.v
ProcWait.v
Exec.v
Sysfile.v
Virtio.v
Syscall.v
Trap.v
Boot.v
Asm.v
Mkfs.v
MkfsOk.v
FsBoot.v
User.v
Ulib.v
Uprintf.v
Grep.v
Umalloc.v
Sh.v
ShParse.v
ShTotal.v
Utils.v
Grind.v
