(* ===== verification/Prelude.v ===== *)
(** * A verification development for the xv6-os-lab kernel

    xv6-os-lab is the xv6 teaching kernel for RISC-V with reference counts in its
    page allocator, counting semaphores and a page of shared memory, its user
    programs, and mkfs, which writes the first image of the file system.  The
    files under kernel/, user/ and mkfs/ are translated function by function; a
    definition has the name of the C function it translates where that name is
    free.  A C loop that is a definition of its own is called [f_loop], the rest
    of a call that gave up the CPU [f_resume].

    ** How C is translated

    - Integers are [Z] at the width of their C type: arithmetic that can leave the
      range is wrapped with [u8] .. [u64], [i8] .. [i64] (this file).  Memory is a
      map from addresses to bytes, little endian; a disk block and an argument
      buffer are lists of bytes; C structs on disk, in ELF files and in the
      trapframe page are read and written at their offsets (Bytes, Usr, Exec).
    - Kernel code is in the monad [K T A] of Kernel: state of a component [T], the
      context [env] (locks held, process table, current process), and the outcomes
      [Ret], [Panic], [Block] (the CPU was given up in [sched]) and [Undef]
      (undefined behaviour in C, or a loop that ran out of fuel).  [zoom] runs the
      code of one component inside the state of another, so the states nest as the
      calls do: allocator, page tables, pipes and files, system calls, traps.
    - User programs are trees of system calls (User), run against any kernel that
      is an instance of the class [Os]; mkfs has a state and error monad (Mkfs).
    - Concurrency is a step relation: harts that interleave between the atomic
      accesses of the spin locks (Spinlock), processes that interleave between the
      points where they give up the CPU (Sem).  A crash stops the disk between any
      two of its writes (Bio, Log).

    ** The parts

    Machine.  Riscv: address and page-table macros of riscv.h and memlayout.h.
    Trap holds the register accessors of riscv.h, trap.c and plic.c; Boot start.c,
    main.c, [kvminit], [kvminithart]; Asm the four assembly files as instructions
    of a hart with registers and translated memory.  [trampoline_roundtrip]:
    [uservec] and [userret] save and restore user registers across the changes of
    page table; [usertrap_timer]: preemption by the clock is transparent.

    Memory.  Kstring (string.c); Kalloc (kalloc.c); Vm (vm.c, with the lemmas on
    [walk] and [mappages]); VmUser, VmCopy, VmSpace, VmFree for growing, copying
    to and from, duplicating and freeing an address space; VmType.  The theorems
    say what user code sees (translations, flags and bytes), which pages leave and
    return to the free list and that each returns once, for success and for every
    failure; [kmem_typed]: all this code keeps memory, free list and counts in
    their types, whatever the arguments.

    Locks and processes.  Kernel gives kernel code the contract of the spin locks,
    which Spinlock (spinlock.c) proves of the code; no two harts hold a lock.
    Sleeplock (sleeplock.c), Sched (sleep, wakeup, kill, the scheduler of proc.c),
    Proc (the life of a process, proc.c), with ProcMem, ProcLife, ProcFork and
    ProcWait for the theorems on [fork] and [wait].  Sem (sem.c): counting, no lost
    wakeup, progress.  Shm (shm.c): two processes see one page; a process that
    exits with the page mapped makes [freewalk] panic.

    Disk and file system.  Bytes; Bio (bio.c), a cache that refines a map from
    blocks to bytes; Log (log.c): a crash at any write leaves all of a transaction
    or nothing, and recovery restores it; Virtio (virtio_disk.c) refines the
    transfer Bio takes for granted; Fs (fs.c); Tx, the view of a transaction the
    file system code works with; FsBlock ([balloc], [bfree]), FsInode ([bmap]),
    FsData ([readi], [writei] against the contents of a file), FsDir ([dirlookup],
    [dirlink] against a list of entries), FsTrunc ([itrunc]), FsLock ([ilock],
    [iunlock], [iput], and a name looked up from the root), Path ([namex] against
    a split at the slashes).  Mkfs and MkfsOk (mkfs.c): the image meets the
    conditions of those theorems, holds the files, and gives their names.  FsBoot
    puts all of these together: the kernel boots on the image of mkfs and reads
    from the path of a file what mkfs was given.

    Files and devices.  Ring: buffers with free-running counters; Pipe (pipe.c),
    Uart (uart.c), Console (console.c): queues of bytes and a terminal with line
    editing; Printf (printf.c); File (file.c); Usr (arguments of system calls and
    user copies); Exec (exec.c); Sysfile (sysfile.c); Syscall (sysproc.c,
    syscall.c), with the ticks [sys_sleep] waits for.

    User programs.  Ulib, Uprintf, Umalloc (ulib.c, printf.c, umalloc.c), Grep,
    Sh, ShParse, ShTotal (sh.c), Utils (the small programs), Grind (grind.c,
    shmtest.c).  [malloc] and [free] keep the blocks apart and inside the heap;
    the shell's parser reads every printed command tree back and ends on every
    line; [grep] prints the lines that match; the generator of grind has the full
    period.

    ** Fuel

    A loop over an index runs on the number of its turns.  Other loops take a fuel
    that the caller computes from its arguments: the bytes or pages of the request,
    the length of the path or the format, the bytes in a ring, 16 for [freewalk]
    (a page table has three levels).  Running out is the outcome [Undef], [None],
    or an error of mkfs, which the theorems exclude: they state the result and do
    not assume that there is one.  Loops that need not end in C (a spinning
    [acquire], the shell, init, grind, loops over the answers of the kernel in user
    programs) take the fuel as an argument of the definition.

    ** Assumed

    The devices: the answers of the UART, the interrupt controller and the
    registers of the disk are inputs; the disk serves requests as the virtio
    specification says ([device] in Virtio, a definition); code addresses the
    linker chooses are parameters.  The host of mkfs is little endian and its
    writes succeed.  The theorems on the data of files are for kernel buffers and
    a file system whose free map is one block, as mkfs makes it, where they say so.

    ** Not modelled

    user/usertests.c: tests of the running system, many of them calls with invalid
    pointers, which promise nothing themselves.  The stubs user/usys.pl generates
    (the calls are the functions [sys_...] of User).  The Makefile, the linker
    scripts and the declarations of kernel/defs.h; the constants of the headers
    are definitions next to the code that uses them.  [procdump] and the messages
    of mkfs only print.  Interleavings of several CPUs are in Spinlock and Sem
    only: elsewhere code runs to the point where it gives up the CPU, as the locks
    it holds allow.  [exec], [exit] and most system call handlers are translated and
    run in the model, but have no theorem of their own. *)

From stdpp Require Import base gmap sets list strings.
From Stdlib Require Import ZArith Lia.

#[global] Open Scope Z_scope.

Create HintDb mem.

(** ** Machine integers

    The C types of [kernel/types.h]: an unsigned w-bit value is an integer in
    [0, 2^w); conversions wrap. *)

Definition uint_wrap (w x : Z) : Z := x mod 2 ^ w.

Definition sint_wrap (w x : Z) : Z := (x + 2 ^ (w - 1)) mod 2 ^ w - 2 ^ (w - 1).

Abbreviation u8 := (uint_wrap 8).
Abbreviation u16 := (uint_wrap 16).
Abbreviation u32 := (uint_wrap 32).
Abbreviation u64 := (uint_wrap 64).
Abbreviation i8 := (sint_wrap 8).
Abbreviation i16 := (sint_wrap 16).
Abbreviation i32 := (sint_wrap 32).
Abbreviation i64 := (sint_wrap 64).

(** Truth value of a C condition on an integer. *)
Definition truth (x : Z) : bool := negb (x =? 0).

(** ** Byte-addressed memory

    Memory is a total map from addresses to bytes; a multi-byte access is
    little endian, as on RISC-V. *)

Definition mem := Z -> Z.

Definition bytes_ok (m : mem) : Prop := forall a, 0 <= m a < 256.

Definition in_range (a n x : Z) : bool := (a <=? x) && (x <? a + n).

Fixpoint load (n : nat) (m : mem) (a : Z) : Z :=
  match n with
  | O => 0
  | S k => m a + 256 * load k m (a + 1)
  end.

Definition store (n : nat) (m : mem) (a v : Z) : mem :=
  fun x => if in_range a (Z.of_nat n) x then u8 (v / 256 ^ (x - a)) else m x.

Abbreviation load8 := (load 1).
Abbreviation store8 := (store 1).
Abbreviation load32 := (load 4).
Abbreviation store32 := (store 4).
Abbreviation load64 := (load 8).
Abbreviation store64 := (store 8).

(** What [memset] and [memmove] do to memory ([Kstring] proves that the C loops
    compute exactly these). *)
Definition mem_fill (m : mem) (a c n : Z) : mem :=
  fun x => if in_range a n x then u8 c else m x.

Definition mem_copy (m : mem) (dst src n : Z) : mem :=
  fun x => if in_range dst n x then m (src + (x - dst)) else m x.

(** The [n] bytes at [a], in order. *)
Definition bytes_at (m : mem) (a : Z) (n : nat) : list Z :=
  map (fun i => m (a + Z.of_nat i)) (seq 0 n).

(** Write a list of bytes at [a] (the effect of a copy from a kernel buffer
    that holds [l]). *)
Definition mem_write (m : mem) (a : Z) (l : list Z) : mem :=
  fun x => if in_range a (Z.of_nat (length l)) x
           then default 0 (l !! Z.to_nat (x - a)) else m x.

(** ** Integer lemmas *)

Lemma uint_wrap_range w x : 0 <= w -> 0 <= uint_wrap w x < 2 ^ w.
Proof. intros. unfold uint_wrap. apply Z.mod_pos_bound. lia. Qed.

Lemma uint_wrap_small w x : 0 <= x < 2 ^ w -> uint_wrap w x = x.
Proof. apply Z.mod_small. Qed.

Lemma uint_wrap_idem w x : uint_wrap w (uint_wrap w x) = uint_wrap w x.
Proof. unfold uint_wrap. apply Zmod_mod. Qed.

Lemma sint_wrap_small w x :
  - 2 ^ (w - 1) <= x < 2 ^ (w - 1) -> 0 < w -> sint_wrap w x = x.
Proof.
  intros H Hw. unfold sint_wrap.
  assert (2 ^ w = 2 * 2 ^ (w - 1)) as E.
  { rewrite <- Z.pow_succ_r by lia. f_equal. lia. }
  rewrite Z.mod_small; lia.
Qed.

Lemma sint_wrap_range w x :
  0 < w -> - 2 ^ (w - 1) <= sint_wrap w x < 2 ^ (w - 1).
Proof.
  intros Hw. unfold sint_wrap.
  assert (2 ^ w = 2 * 2 ^ (w - 1)) as E.
  { rewrite <- Z.pow_succ_r by lia. f_equal. lia. }
  pose proof (Z.mod_pos_bound (x + 2 ^ (w - 1)) (2 ^ w) ltac:(lia)). lia.
Qed.

Lemma truth_true x : truth x = true <-> x <> 0.
Proof. unfold truth. rewrite negb_true_iff, Z.eqb_neq. done. Qed.

Lemma truth_false x : truth x = false <-> x = 0.
Proof. unfold truth. rewrite negb_false_iff, Z.eqb_eq. done. Qed.

(** ** Proof automation *)

(** Turn boolean comparisons into propositions, in hypotheses. *)
Ltac zbool :=
  repeat match goal with
  | H : (_ =? _) = true |- _ => apply Z.eqb_eq in H
  | H : (_ =? _) = false |- _ => apply Z.eqb_neq in H
  | H : (_ <? _) = true |- _ => apply Z.ltb_lt in H
  | H : (_ <? _) = false |- _ => apply Z.ltb_ge in H
  | H : (_ <=? _) = true |- _ => apply Z.leb_le in H
  | H : (_ <=? _) = false |- _ => apply Z.leb_gt in H
  | H : (_ && _) = true |- _ => apply andb_true_iff in H; destruct H
  | H : (_ || _) = false |- _ => apply orb_false_iff in H; destruct H
  | H : negb _ = true |- _ => apply negb_true_iff in H
  | H : negb _ = false |- _ => apply negb_false_iff in H
  | H : truth _ = true |- _ => apply truth_true in H
  | H : truth _ = false |- _ => apply truth_false in H
  | H : bool_decide _ = true |- _ => apply bool_decide_eq_true_1 in H
  | H : bool_decide _ = false |- _ => apply bool_decide_eq_false_1 in H
  end.

(** Case analysis on the scrutinee of a comparison in the goal. *)
Ltac zcase :=
  match goal with
  | |- context [?a =? ?b] => destruct (Z.eqb_spec a b)
  | |- context [?a <? ?b] => destruct (Z.ltb_spec a b)
  | |- context [?a <=? ?b] => destruct (Z.leb_spec a b)
  end.

Ltac zcases := repeat zcase; simpl; try lia.

(** Closed facts, by evaluation. *)
Ltac by_eval :=
  vm_compute; repeat split; first [reflexivity | let H := fresh in intro H; discriminate H].

(** ** Memory lemmas *)

Lemma in_range_true a n x : in_range a n x = true <-> a <= x < a + n.
Proof. unfold in_range. rewrite andb_true_iff, Z.leb_le, Z.ltb_lt. done. Qed.

Lemma in_range_false a n x : in_range a n x = false <-> ~ (a <= x < a + n).
Proof. rewrite <- not_true_iff_false, in_range_true. done. Qed.

Lemma store_in n m a v x :
  a <= x < a + Z.of_nat n -> store n m a v x = u8 (v / 256 ^ (x - a)).
Proof. intros H. unfold store. apply in_range_true in H. by rewrite H. Qed.

Lemma store_out n m a v x :
  ~ (a <= x < a + Z.of_nat n) -> store n m a v x = m x.
Proof. intros H. unfold store. apply in_range_false in H. by rewrite H. Qed.

Lemma mem_fill_in m a c n x : a <= x < a + n -> mem_fill m a c n x = u8 c.
Proof. intros H. unfold mem_fill. apply in_range_true in H. by rewrite H. Qed.

Lemma mem_fill_out m a c n x : ~ (a <= x < a + n) -> mem_fill m a c n x = m x.
Proof. intros H. unfold mem_fill. apply in_range_false in H. by rewrite H. Qed.

Lemma mem_copy_in m d s n x : d <= x < d + n -> mem_copy m d s n x = m (s + (x - d)).
Proof. intros H. unfold mem_copy. apply in_range_true in H. by rewrite H. Qed.

Lemma mem_copy_out m d s n x : ~ (d <= x < d + n) -> mem_copy m d s n x = m x.
Proof. intros H. unfold mem_copy. apply in_range_false in H. by rewrite H. Qed.

Lemma mem_write_out m a l x :
  ~ (a <= x < a + Z.of_nat (length l)) -> mem_write m a l x = m x.
Proof. intros H. unfold mem_write. apply in_range_false in H. by rewrite H. Qed.

Lemma mem_write_in m a l x :
  a <= x < a + Z.of_nat (length l) ->
  mem_write m a l x = default 0 (l !! Z.to_nat (x - a)).
Proof. intros H. unfold mem_write. apply in_range_true in H. by rewrite H. Qed.

(** A load depends only on the bytes it reads. *)
Lemma load_ext n m1 m2 a :
  (forall x, a <= x < a + Z.of_nat n -> m1 x = m2 x) -> load n m1 a = load n m2 a.
Proof.
  revert a. induction n as [|n IH]; intros a H; [done|].
  simpl. rewrite H by lia. f_equal. f_equal. apply IH.
  intros x Hx. apply H. lia.
Qed.

Lemma load_range n m a : bytes_ok m -> 0 <= load n m a < 256 ^ Z.of_nat n.
Proof.
  intros Hm. revert a. induction n as [|n IH]; intros a; [simpl; lia|].
  simpl load. specialize (IH (a + 1)). specialize (Hm a).
  rewrite Nat2Z.inj_succ, Z.pow_succ_r by lia. lia.
Qed.

Lemma load_shift_value n m a v :
  (forall x, a <= x < a + Z.of_nat n -> m x = u8 (v / 256 ^ (x - a))) ->
  load n m a = v mod 256 ^ Z.of_nat n.
Proof.
  revert a v. induction n as [|n IH]; intros a v H.
  { simpl. by rewrite Z.mod_1_r. }
  simpl load. rewrite H by lia.
  rewrite (IH (a + 1) (v / 256)).
  - replace (a - a) with 0 by lia. change (256 ^ 0) with 1. rewrite Z.div_1_r.
    unfold uint_wrap. change (2 ^ 8) with 256.
    rewrite Nat2Z.inj_succ, Z.pow_succ_r by lia.
    rewrite Z.rem_mul_r by lia. lia.
  - intros x Hx. rewrite H by lia. f_equal.
    rewrite Z.div_div by lia. f_equal.
    rewrite <- Z.pow_succ_r by lia. f_equal. lia.
Qed.

(** Reading back what was stored. *)
Lemma load_store n m a v : load n (store n m a v) a = v mod 256 ^ Z.of_nat n.
Proof. apply load_shift_value. intros. by apply store_in. Qed.

Lemma load_store_other n k m a b v :
  b + Z.of_nat n <= a \/ a + Z.of_nat k <= b ->
  load n (store k m a v) b = load n m b.
Proof. intros H. apply load_ext. intros. apply store_out. lia. Qed.

Lemma load_fill_other n m a c k b :
  b + Z.of_nat n <= a \/ a + k <= b -> load n (mem_fill m a c k) b = load n m b.
Proof. intros H. apply load_ext. intros. apply mem_fill_out. lia. Qed.

Lemma load_fill_zero n m a k b :
  a <= b -> b + Z.of_nat n <= a + k -> load n (mem_fill m a 0 k) b = 0.
Proof.
  intros H1 H2. rewrite (load_shift_value n _ b 0).
  - by rewrite Z.mod_0_l by lia.
  - intros x Hx. rewrite mem_fill_in by lia. by rewrite Z.div_0_l by lia.
Qed.

Lemma load_copy_other n m d s k b :
  b + Z.of_nat n <= d \/ d + k <= b -> load n (mem_copy m d s k) b = load n m b.
Proof. intros H. apply load_ext. intros. apply mem_copy_out. lia. Qed.

Lemma load_write_other n m a l b :
  b + Z.of_nat n <= a \/ a + Z.of_nat (length l) <= b ->
  load n (mem_write m a l) b = load n m b.
Proof. intros H. apply load_ext. intros. apply mem_write_out. lia. Qed.

Lemma store_ok n m a v : bytes_ok m -> bytes_ok (store n m a v).
Proof.
  intros Hm x. unfold store. destruct (in_range _ _ _); [|apply Hm].
  apply uint_wrap_range. lia.
Qed.

Lemma mem_fill_ok m a c n : bytes_ok m -> bytes_ok (mem_fill m a c n).
Proof.
  intros Hm x. unfold mem_fill. destruct (in_range _ _ _); [|apply Hm].
  apply uint_wrap_range. lia.
Qed.

Lemma mem_copy_ok m d s n : bytes_ok m -> bytes_ok (mem_copy m d s n).
Proof. intros Hm x. unfold mem_copy. destruct (in_range _ _ _); apply Hm. Qed.

Lemma length_bytes_at m a n : length (bytes_at m a n) = n.
Proof. unfold bytes_at. by rewrite length_map, length_seq. Qed.

Lemma bytes_at_lookup m a n i :
  (i < n)%nat -> bytes_at m a n !! i = Some (m (a + Z.of_nat i)).
Proof.
  intros H. unfold bytes_at. rewrite list_lookup_fmap, lookup_seq_lt by done. done.
Qed.

Lemma bytes_at_ext m1 m2 a1 a2 n :
  (forall i, 0 <= i < Z.of_nat n -> m1 (a1 + i) = m2 (a2 + i)) ->
  bytes_at m1 a1 n = bytes_at m2 a2 n.
Proof.
  intros H. unfold bytes_at. apply map_ext_in. intros i Hi%in_seq. apply H. lia.
Qed.

Lemma bytes_at_app m a n k :
  bytes_at m a (n + k) = bytes_at m a n ++ bytes_at m (a + Z.of_nat n) k.
Proof.
  apply list_eq. intros i. destruct (decide (i < n)%nat) as [Hi|Hi].
  - rewrite lookup_app_l by (rewrite length_bytes_at; lia).
    by rewrite !bytes_at_lookup by lia.
  - rewrite lookup_app_r by (rewrite length_bytes_at; lia).
    rewrite length_bytes_at. destruct (decide (i < n + k)%nat).
    + rewrite !bytes_at_lookup by lia. do 2 f_equal. lia.
    + rewrite !lookup_ge_None_2; rewrite ?length_bytes_at; done || lia.
Qed.

(** Reading back a list of bytes written to memory. *)
Lemma mem_write_bytes m a l : bytes_at (mem_write m a l) a (length l) = l.
Proof.
  apply list_eq. intros i.
  destruct (decide (i < length l)%nat) as [Hi|Hi].
  - rewrite bytes_at_lookup by done. rewrite mem_write_in by lia.
    replace (Z.to_nat _) with i by lia.
    destruct (lookup_lt_is_Some_2 l i Hi) as [x ->]. done.
  - rewrite !lookup_ge_None_2; rewrite ?length_bytes_at; done || lia.
Qed.

#[export] Hint Resolve store_ok mem_fill_ok mem_copy_ok : mem.

#[global] Arguments load : simpl never.
#[global] Arguments store : simpl never.
#[global] Arguments mem_fill : simpl never.
#[global] Arguments mem_copy : simpl never.
#[global] Arguments uint_wrap : simpl never.
#[global] Arguments sint_wrap : simpl never.
