(* ===== verification/Kernel.v ===== *)
(** * The kernel's execution context and the monad kernel code is written in

    Kernel code runs on behalf of a current process, holds spin locks, reads and
    writes the process table, may [panic], and may give up the CPU inside
    [sched].  [env] holds the part every component shares: the locks this CPU
    holds, the lock-protected fields of [struct proc] (kernel/proc.h, "p->lock
    must be held when using these"), the current process, and the globals of
    proc.c.  [K T A] is code that also owns component state [T] and returns [A].

    Operations of kernel/spinlock.c appear here through their contract: the set
    of locks this CPU holds ([Spinlock] proves that the C code refines it). *)

From stdpp Require Import base gmap sets list strings.
From Stdlib Require Import ZArith Lia.
From S2P Require Import Prelude.

Declare Scope kernel_scope.
Delimit Scope kernel_scope with kernel.

(** ** Names of kernel objects *)

Inductive sleeplock_id : Type :=
  | BufLock (i : nat)
  | InodeLock (i : nat).

(** The spin locks of the kernel. *)
Inductive lock : Type :=
  | KmemLock
  | RefcountLock
  | PidLock
  | WaitLock
  | ProcLock (i : nat)
  | TicksLock
  | SemLock (i : nat)
  | ShmLock
  | BcacheLock
  | LogLock
  | ItableLock
  | FtableLock
  | SleepLk (l : sleeplock_id)
  | PipeLock (pi : Z)
  | ConsLock
  | UartTxLock
  | VdiskLock
  | PrLock.

(** The channels processes sleep on: addresses of distinct kernel objects. *)
Inductive channel : Type :=
  | ChanNull
  | ChanProc (i : nat)
  | ChanTicks
  | ChanSem (i : nat)
  | ChanLog
  | ChanSleepLock (l : sleeplock_id)
  | ChanPipeRead (pi : Z)
  | ChanPipeWrite (pi : Z)
  | ChanConsR
  | ChanUartTxR
  | ChanBuf (i : nat)
  | ChanDiskFree.

#[export] Instance sleeplock_id_eq_dec : EqDecision sleeplock_id.
Proof. solve_decision. Defined.

#[export] Instance lock_eq_dec : EqDecision lock.
Proof. solve_decision. Defined.

#[export] Instance channel_eq_dec : EqDecision channel.
Proof. solve_decision. Defined.

Definition lock_code (l : lock) : nat * Z :=
  match l with
  | KmemLock => (0%nat, 0) | RefcountLock => (1%nat, 0) | PidLock => (2%nat, 0)
  | WaitLock => (3%nat, 0) | ProcLock i => (4%nat, Z.of_nat i)
  | TicksLock => (5%nat, 0) | SemLock i => (6%nat, Z.of_nat i)
  | ShmLock => (7%nat, 0) | BcacheLock => (8%nat, 0) | LogLock => (9%nat, 0)
  | ItableLock => (10%nat, 0) | FtableLock => (11%nat, 0)
  | SleepLk (BufLock i) => (12%nat, Z.of_nat i)
  | SleepLk (InodeLock i) => (13%nat, Z.of_nat i)
  | PipeLock pi => (14%nat, pi) | ConsLock => (15%nat, 0)
  | UartTxLock => (16%nat, 0) | VdiskLock => (17%nat, 0)
  | PrLock => (18%nat, 0)
  end.

Definition lock_decode (c : nat * Z) : option lock :=
  match c with
  | (0%nat, _) => Some KmemLock | (1%nat, _) => Some RefcountLock
  | (2%nat, _) => Some PidLock | (3%nat, _) => Some WaitLock
  | (4%nat, i) => Some (ProcLock (Z.to_nat i)) | (5%nat, _) => Some TicksLock
  | (6%nat, i) => Some (SemLock (Z.to_nat i)) | (7%nat, _) => Some ShmLock
  | (8%nat, _) => Some BcacheLock | (9%nat, _) => Some LogLock
  | (10%nat, _) => Some ItableLock | (11%nat, _) => Some FtableLock
  | (12%nat, i) => Some (SleepLk (BufLock (Z.to_nat i)))
  | (13%nat, i) => Some (SleepLk (InodeLock (Z.to_nat i)))
  | (14%nat, pi) => Some (PipeLock pi) | (15%nat, _) => Some ConsLock
  | (16%nat, _) => Some UartTxLock | (17%nat, _) => Some VdiskLock
  | (18%nat, _) => Some PrLock
  | _ => None
  end.

Lemma lock_decode_code l : lock_decode (lock_code l) = Some l.
Proof. destruct l as [| | | |i| |i| | | | | |[i|i]| | | | |]; simpl; by rewrite ?Nat2Z.id. Qed.

#[export] Instance lock_countable : Countable lock :=
  inj_countable lock_code lock_decode lock_decode_code.

(** ** Processes and the execution context *)

Definition NPROC : nat := 64.

(** [enum procstate] *)
Inductive procstate : Type :=
  | UNUSED | USED | SLEEPING | RUNNABLE | RUNNING | ZOMBIE.

#[export] Instance procstate_eq_dec : EqDecision procstate.
Proof. solve_decision. Defined.

(** The fields of [struct proc] guarded by [p->lock], and [p->parent]. *)
Record proc : Type := Proc {
  p_state : procstate;
  p_chan : channel;
  p_killed : Z;
  p_xstate : Z;
  p_pid : Z;
  p_parent : option nat
}.

Record env : Type := Env {
  held : gset lock;          (* spin locks held by this CPU *)
  procs : list proc;         (* proc[NPROC] *)
  cproc : option nat;        (* mycpu()->proc, as an index *)
  nextpid : Z;
  initproc : option nat
}.

Definition set_held (e : env) (h : gset lock) : env :=
  Env h (procs e) (cproc e) (nextpid e) (initproc e).
Definition set_procs (e : env) (ps : list proc) : env :=
  Env (held e) ps (cproc e) (nextpid e) (initproc e).
Definition set_cproc (e : env) (p : option nat) : env :=
  Env (held e) (procs e) p (nextpid e) (initproc e).
Definition set_nextpid (e : env) (n : Z) : env :=
  Env (held e) (procs e) (cproc e) n (initproc e).
Definition set_initproc (e : env) (p : option nat) : env :=
  Env (held e) (procs e) (cproc e) (nextpid e) p.

Definition set_state (st : procstate) (p : proc) : proc :=
  Proc st (p_chan p) (p_killed p) (p_xstate p) (p_pid p) (p_parent p).
Definition set_chan (c : channel) (p : proc) : proc :=
  Proc (p_state p) c (p_killed p) (p_xstate p) (p_pid p) (p_parent p).
Definition set_killed_field (k : Z) (p : proc) : proc :=
  Proc (p_state p) (p_chan p) k (p_xstate p) (p_pid p) (p_parent p).
Definition set_xstate (x : Z) (p : proc) : proc :=
  Proc (p_state p) (p_chan p) (p_killed p) x (p_pid p) (p_parent p).
Definition set_pid (n : Z) (p : proc) : proc :=
  Proc (p_state p) (p_chan p) (p_killed p) (p_xstate p) n (p_parent p).
Definition set_parent (q : option nat) (p : proc) : proc :=
  Proc (p_state p) (p_chan p) (p_killed p) (p_xstate p) (p_pid p) q.

(** ** The monad *)

Inductive outcome (T A : Type) : Type :=
  | Ret (a : A) (e : env) (t : T)      (* the code returned [a] *)
  | Panic (msg : string)               (* [panic(msg)]: never returns *)
  | Block (e : env) (t : T)            (* gave up the CPU in [sched] *)
  | Undef (why : string).              (* undefined behaviour of the C code *)
Arguments Ret {T A} a e t.
Arguments Panic {T A} msg.
Arguments Block {T A} e t.
Arguments Undef {T A} why.

Definition K (T A : Type) : Type := env -> T -> outcome T A.

Definition ret {T A} (a : A) : K T A := fun e t => Ret a e t.
Definition bind {T A B} (m : K T A) (k : A -> K T B) : K T B :=
  fun e t =>
    match m e t with
    | Ret a e' t' => k a e' t'
    | Panic msg => Panic msg
    | Block e' t' => Block e' t'
    | Undef why => Undef why
    end.
Definition panic {T A} (msg : string) : K T A := fun _ _ => Panic msg.
Definition undef {T A} (why : string) : K T A := fun _ _ => Undef why.
Definition get {T} : K T T := fun e t => Ret t e t.
Definition put {T} (t' : T) : K T unit := fun e _ => Ret tt e t'.
Definition modify {T} (f : T -> T) : K T unit := fun e t => Ret tt e (f t).
Definition gets {T A} (f : T -> A) : K T A := fun e t => Ret (f t) e t.
Definition get_env {T} : K T env := fun e t => Ret e e t.
Definition modify_env {T} (f : env -> env) : K T unit := fun e t => Ret tt (f e) t.

Notation "x <- m ;; k" := (bind m (fun x => k))
  (at level 100, m at next level, right associativity) : kernel_scope.
Notation "m ;; k" := (bind m (fun _ => k))
  (at level 100, right associativity) : kernel_scope.
#[global] Open Scope kernel_scope.

Definition when {T} (b : bool) (m : K T unit) : K T unit := if b then m else ret tt.

(** [for (i in l) body] *)
Fixpoint for_each {T A} (l : list A) (body : A -> K T unit) : K T unit :=
  match l with
  | [] => ret tt
  | x :: l' => body x ;; for_each l' body
  end.

(** [for (i in l) { if (body) return r; }]: stops at the first result. *)
Fixpoint for_find {T A R} (l : list A) (body : A -> K T (option R)) : K T (option R) :=
  match l with
  | [] => ret None
  | x :: l' =>
      r <- body x ;;
      match r with
      | Some v => ret (Some v)
      | None => for_find l' body
      end
  end.

(** Run code of a component on its part of a larger state. *)
Class Part (S T : Type) : Type := {
  part_get : S -> T;
  part_put : T -> S -> S;
  part_get_put : forall t s, part_get (part_put t s) = t;
  part_put_get : forall s, part_put (part_get s) s = s;
  part_put_put : forall t t' s, part_put t (part_put t' s) = part_put t s
}.

Definition zoom {S T A} `{Part S T} (m : K T A) : K S A :=
  fun e s =>
    match m e (part_get s) with
    | Ret a e' t' => Ret a e' (part_put t' s)
    | Panic msg => Panic msg
    | Block e' t' => Block e' (part_put t' s)
    | Undef why => Undef why
    end.

(** ** Spin locks, as kernel code sees them

    kernel/spinlock.c, [acquire], [release], [holding]: [held e] is the set of
    locks for which [holding] returns 1 on this CPU. *)

Definition holding {T} (l : lock) : K T bool :=
  fun e t => Ret (bool_decide (l ∈ held e)) e t.

Definition acquire {T} (l : lock) : K T unit :=
  fun e t =>
    if bool_decide (l ∈ held e) then Panic "acquire"
    else Ret tt (set_held e ({[l]} ∪ held e)) t.

Definition release {T} (l : lock) : K T unit :=
  fun e t =>
    if bool_decide (l ∈ held e) then Ret tt (set_held e (held e ∖ {[l]})) t
    else Panic "release".

(** [initlock]: the lock is free. *)
Definition initlock {T} (l : lock) : K T unit :=
  modify_env (fun e => set_held e (held e ∖ {[l]})).

(** ** Lemmas *)

Lemma bind_ret {T A B} (a : A) (k : A -> K T B) e t : bind (ret a) k e t = k a e t.
Proof. done. Qed.

Lemma bind_assoc {T A B C} (m : K T A) (f : A -> K T B) (g : B -> K T C) e t :
  bind (bind m f) g e t = bind m (fun x => bind (f x) g) e t.
Proof. unfold bind. by destruct (m e t). Qed.

(** Sequencing after a call whose result is known. *)
Lemma bind_step {T A B} (m : K T A) (k : A -> K T B) e t a e' t' :
  m e t = Ret a e' t' -> bind m k e t = k a e' t'.
Proof. unfold bind. by intros ->. Qed.

Lemma bind_Ret_inv {T A B} (m : K T A) (k : A -> K T B) e t b e2 t2 :
  bind m k e t = Ret b e2 t2 ->
  exists a e1 t1, m e t = Ret a e1 t1 /\ k a e1 t1 = Ret b e2 t2.
Proof. unfold bind. destruct (m e t); try done. eauto. Qed.

Lemma zoom_Ret {S T A} `{Part S T} (m : K T A) e s a e' t' :
  m e (part_get s) = Ret a e' t' -> zoom m e s = Ret a e' (part_put t' s).
Proof. unfold zoom. by intros ->. Qed.

Lemma set_held_held e : set_held e (held e) = e.
Proof. by destruct e. Qed.

Lemma set_procs_procs e : set_procs e (procs e) = e.
Proof. by destruct e. Qed.

Lemma set_held_set_held e h h' : set_held (set_held e h) h' = set_held e h'.
Proof. done. Qed.

(** The context while holding [l] on top of [e]. *)
Definition locked (l : lock) (e : env) : env := set_held e ({[l]} ∪ held e).

Lemma acquire_free {T} l e (t : T) :
  l ∉ held e -> acquire l e t = Ret tt (locked l e) t.
Proof. intros H. unfold acquire. by rewrite bool_decide_eq_false_2. Qed.

Lemma acquire_held {T} l e (t : T) : l ∈ held e -> acquire l e t = Panic "acquire".
Proof. intros H. unfold acquire. by rewrite bool_decide_eq_true_2. Qed.

Lemma release_locked {T} l e (t : T) :
  l ∉ held e -> release l (locked l e) t = Ret tt e t.
Proof.
  intros H. unfold release, locked. simpl.
  rewrite bool_decide_eq_true_2 by set_solver. rewrite set_held_set_held.
  replace (({[l]} ∪ held e) ∖ {[l]}) with (held e) by set_solver.
  by rewrite set_held_held.
Qed.

Lemma release_not_held {T} l e (t : T) : l ∉ held e -> release l e t = Panic "release".
Proof. intros H. unfold release. by rewrite bool_decide_eq_false_2. Qed.

Lemma held_locked l e : held (locked l e) = {[l]} ∪ held e.
Proof. done. Qed.

Lemma procs_locked l e : procs (locked l e) = procs e.
Proof. done. Qed.

Lemma cproc_locked l e : cproc (locked l e) = cproc e.
Proof. done. Qed.

Lemma not_held_locked l l' e : l ∉ held e -> l <> l' -> l ∉ held (locked l' e).
Proof. rewrite held_locked. set_solver. Qed.

Lemma initlock_free {T} l e (t : T) : l ∉ held e -> initlock l e t = Ret tt e t.
Proof.
  intros H. unfold initlock, modify_env.
  replace (held e ∖ {[l]}) with (held e) by set_solver. by rewrite set_held_held.
Qed.

(** A critical section whose body does not touch the context. *)
Lemma critical_section {T A} l (body : K T A) e t a t' :
  l ∉ held e ->
  body (locked l e) t = Ret a (locked l e) t' ->
  (acquire l ;; x <- body ;; release l ;; ret x) e t = Ret a e t'.
Proof.
  intros Hl Hb. rewrite (bind_step _ _ _ _ _ _ _ (acquire_free l e t Hl)).
  rewrite (bind_step _ _ _ _ _ _ _ Hb).
  by rewrite (bind_step _ _ _ _ _ _ _ (release_locked l e t' Hl)).
Qed.

(** Step through monadic code whose calls are known; side conditions on locks
    are discharged by the hint database. *)
Create HintDb locks.
#[export] Hint Resolve not_held_locked : locks.
#[export] Hint Extern 1 (_ <> _) => discriminate : locks.

Ltac kstep :=
  match goal with
  | |- context [negb true] => change (negb true) with false
  | |- context [negb false] => change (negb false) with true
  | |- context [if true then ?a else ?b] => change (if true then a else b) with a
  | |- context [if false then ?a else ?b] => change (if false then a else b) with b
  | |- context [@when ?T true ?m] => change (@when T true m) with m
  | |- context [@when ?T false ?m] => change (@when T false m) with (@ret T unit tt)
  | |- context [bind (acquire ?l) ?k ?e ?t] =>
      rewrite (bind_step (acquire l) k e t _ _ _ (acquire_free l e t ltac:(eauto with locks)))
  | |- context [bind (release ?l) ?k (locked ?l ?e) ?t] =>
      rewrite (bind_step (release l) k (locked l e) t _ _ _
                 (release_locked l e t ltac:(eauto with locks)))
  | |- context [release ?l (locked ?l ?e) ?t] =>
      rewrite (release_locked l e t ltac:(eauto with locks))
  | |- context [bind (bind ?m ?f) ?g ?e ?t] => rewrite (bind_assoc m f g e t)
  | |- context [bind (ret ?a) ?k ?e ?t] => change (bind (ret a) k e t) with (k a e t); cbv beta
  | |- context [bind (gets ?f) ?k ?e ?t] => change (bind (gets f) k e t) with (k (f t) e t); cbv beta
  | |- context [bind get ?k ?e ?t] => change (bind get k e t) with (k t e t); cbv beta
  | |- context [bind (put ?a) ?k ?e ?t] => change (bind (put a) k e t) with (k tt e a); cbv beta
  | |- context [bind (modify ?f) ?k ?e ?t] =>
      change (bind (modify f) k e t) with (k tt e (f t)); cbv beta
  | |- context [bind (panic ?msg) ?k ?e ?t] =>
      change (bind (panic msg) k e t) with (panic msg e t : outcome _ _)
  end.

Ltac ksteps := repeat kstep.
