(* ===== verification/Riscv.v ===== *)
(** * RISC-V paging and the memory layout

    The macros of kernel/riscv.h (page rounding, page-table entries, page-table
    indices) and kernel/memlayout.h, on 64-bit unsigned integers, with the
    arithmetic facts the page-table code relies on. *)

From stdpp Require Import base list.
From Stdlib Require Import ZArith Lia.
From S2P Require Import Prelude.

(** ** kernel/riscv.h *)

Definition PGSIZE : Z := 4096.
Definition PGSHIFT : Z := 12.
Definition PGROUNDUP (sz : Z) : Z := Z.land (u64 (sz + PGSIZE - 1)) (Z.lnot (PGSIZE - 1)).
Definition PGROUNDDOWN (a : Z) : Z := Z.land a (Z.lnot (PGSIZE - 1)).

Definition PTE_V : Z := Z.shiftl 1 0.
Definition PTE_R : Z := Z.shiftl 1 1.
Definition PTE_W : Z := Z.shiftl 1 2.
Definition PTE_X : Z := Z.shiftl 1 3.
Definition PTE_U : Z := Z.shiftl 1 4.

Definition PA2PTE (pa : Z) : Z := u64 (Z.shiftl (Z.shiftr pa 12) 10).
Definition PTE2PA (pte : Z) : Z := u64 (Z.shiftl (Z.shiftr pte 10) 12).
Definition PTE_FLAGS (pte : Z) : Z := Z.land pte 0x3FF.

Definition PXMASK : Z := 0x1FF.
Definition PXSHIFT (level : Z) : Z := PGSHIFT + 9 * level.
Definition PX (level va : Z) : Z := Z.land (Z.shiftr va (PXSHIFT level)) PXMASK.

Definition MAXVA : Z := Z.shiftl 1 (9 + 9 + 9 + 12 - 1).

(** ** kernel/memlayout.h *)

Definition UART0 : Z := 0x10000000.
Definition VIRTIO0 : Z := 0x10001000.
Definition PLIC : Z := 0x0c000000.
Definition KERNBASE : Z := 0x80000000.
Definition PHYSTOP : Z := KERNBASE + 128 * 1024 * 1024.
Definition TRAMPOLINE : Z := MAXVA - PGSIZE.
Definition KSTACK (p : Z) : Z := TRAMPOLINE - (p + 1) * 2 * PGSIZE.
Definition TRAPFRAME : Z := TRAMPOLINE - PGSIZE.

(** A page-aligned address. *)
Definition page_aligned (a : Z) : Prop := a mod PGSIZE = 0.

(** The virtual page number of an address. *)
Definition vpn (va : Z) : Z := va / PGSIZE.

(** ** Bit arithmetic *)

Lemma lnot_mask_land a n : 0 <= n -> Z.land a (Z.lnot (2 ^ n - 1)) = 2 ^ n * (a / 2 ^ n).
Proof.
  intros Hn. replace (2 ^ n - 1) with (Z.ones n) by (rewrite Z.ones_equiv; lia).
  rewrite <- Z.ldiff_land, Z.ldiff_ones_r by done.
  rewrite Z.shiftr_div_pow2, Z.shiftl_mul_pow2 by done. lia.
Qed.

Lemma land_shifted a b n : 0 <= n -> 0 <= b < 2 ^ n -> Z.land (2 ^ n * a) b = 0.
Proof.
  intros Hn Hb. apply Z.bits_inj'. intros i Hi. rewrite Z.land_spec, Z.bits_0.
  rewrite Z.mul_comm, <- Z.shiftl_mul_pow2, Z.shiftl_spec by done.
  destruct (Z.lt_ge_cases i n).
  - by rewrite (Z.testbit_neg_r a) by lia.
  - rewrite <- (Z.mod_small b (2 ^ n)), Z.mod_pow2_bits_high by lia.
    by rewrite andb_false_r.
Qed.

Lemma lor_add a b n : 0 <= n -> 0 <= b < 2 ^ n -> Z.lor (2 ^ n * a) b = 2 ^ n * a + b.
Proof.
  intros Hn Hb. pose proof (land_shifted a b n Hn Hb).
  by rewrite <- Z.lxor_lor, Z.add_nocarry_lxor.
Qed.

Lemma truth_land_bit x n : 0 <= n -> truth (Z.land x (2 ^ n)) = Z.testbit x n.
Proof.
  intros Hn. destruct (Z.testbit x n) eqn:E.
  - apply truth_true. intros Hz.
    assert (Z.testbit (Z.land x (2 ^ n)) n = true) as H
      by (rewrite Z.land_spec, E, Z.pow2_bits_true by done; done).
    by rewrite Hz, Z.bits_0 in H.
  - apply truth_false. apply Z.bits_inj'. intros i Hi.
    rewrite Z.land_spec, Z.bits_0. destruct (Z.eq_dec i n) as [->|Hne].
    + by rewrite E.
    + rewrite Z.pow2_bits_false by lia. by rewrite andb_false_r.
Qed.

Lemma testbit_add_high a b n i :
  0 <= i < n -> Z.testbit (2 ^ n * a + b) i = Z.testbit b i.
Proof.
  intros H. rewrite <- (Z.mod_pow2_bits_low _ n) by lia.
  rewrite <- (Z.mod_pow2_bits_low b n) by lia. f_equal.
  rewrite Z.add_comm, Z.mul_comm. apply Z_mod_plus_full.
Qed.

(** ** Page rounding *)

Lemma PGROUNDDOWN_spec a : PGROUNDDOWN a = PGSIZE * (a / PGSIZE).
Proof. unfold PGROUNDDOWN. apply (lnot_mask_land a 12). lia. Qed.

Lemma PGROUNDDOWN_bounds a :
  page_aligned (PGROUNDDOWN a) /\ PGROUNDDOWN a <= a < PGROUNDDOWN a + PGSIZE.
Proof.
  rewrite PGROUNDDOWN_spec. unfold page_aligned, PGSIZE.
  rewrite Z.mul_comm, Z_mod_mult. split; [done|].
  pose proof (Z.div_mod a 4096). pose proof (Z.mod_pos_bound a 4096). lia.
Qed.

Lemma PGROUNDDOWN_aligned a : page_aligned a -> PGROUNDDOWN a = a.
Proof.
  unfold page_aligned. intros H. rewrite PGROUNDDOWN_spec. unfold PGSIZE in *.
  pose proof (Z.div_mod a 4096). lia.
Qed.

Lemma PGROUNDUP_spec sz :
  0 <= sz <= 2 ^ 64 - PGSIZE -> PGROUNDUP sz = PGSIZE * ((sz + PGSIZE - 1) / PGSIZE).
Proof.
  intros H. unfold PGROUNDUP. rewrite uint_wrap_small by (unfold PGSIZE in *; lia).
  apply (lnot_mask_land _ 12). lia.
Qed.

(** Rounding up gives the least page boundary not below [sz]. *)
Lemma PGROUNDUP_bounds sz :
  0 <= sz <= 2 ^ 64 - PGSIZE ->
  page_aligned (PGROUNDUP sz) /\ sz <= PGROUNDUP sz < sz + PGSIZE.
Proof.
  intros H. rewrite PGROUNDUP_spec by done. unfold page_aligned, PGSIZE in *.
  rewrite (Z.mul_comm 4096), Z_mod_mult. split; [done|].
  pose proof (Z.div_mod (sz + 4096 - 1) 4096).
  pose proof (Z.mod_pos_bound (sz + 4096 - 1) 4096). lia.
Qed.

Lemma PGROUNDUP_aligned sz :
  0 <= sz <= 2 ^ 64 - PGSIZE -> page_aligned sz -> PGROUNDUP sz = sz.
Proof.
  intros H Ha. destruct (PGROUNDUP_bounds sz H) as [Ha' Hb].
  unfold page_aligned, PGSIZE in *.
  pose proof (Z.div_mod sz 4096). pose proof (Z.div_mod (PGROUNDUP sz) 4096). lia.
Qed.

(** ** Page-table entries *)

Lemma PA2PTE_spec pa : 0 <= pa < 2 ^ 64 -> PA2PTE pa = 1024 * (pa / 4096).
Proof.
  intros H. unfold PA2PTE. rewrite Z.shiftr_div_pow2, Z.shiftl_mul_pow2 by lia.
  change (2 ^ 12) with 4096. change (2 ^ 10) with 1024.
  rewrite uint_wrap_small; [lia|].
  pose proof (Z.div_pos pa 4096). pose proof (Z.div_lt_upper_bound pa 4096 (2 ^ 52)). lia.
Qed.

Lemma PTE_lor pa fl :
  0 <= pa < 2 ^ 64 -> 0 <= fl < 1024 ->
  Z.lor (PA2PTE pa) fl = 1024 * (pa / 4096) + fl.
Proof. intros Hp Hf. rewrite PA2PTE_spec by done. apply (lor_add _ fl 10); lia. Qed.

(** The entry that maps a physical page gives the page back. *)
Lemma PTE2PA_PA2PTE pa fl :
  page_aligned pa -> 0 <= pa < 2 ^ 56 -> 0 <= fl < 1024 ->
  PTE2PA (Z.lor (PA2PTE pa) fl) = pa.
Proof.
  intros Ha Hp Hf. rewrite PTE_lor by lia. unfold PTE2PA.
  rewrite Z.shiftr_div_pow2, Z.shiftl_mul_pow2 by lia.
  change (2 ^ 12) with 4096. change (2 ^ 10) with 1024.
  rewrite (Z.add_comm (1024 * _)), (Z.mul_comm 1024), Z.div_add by lia.
  rewrite Z.div_small by lia. unfold page_aligned, PGSIZE in Ha.
  pose proof (Z.div_mod pa 4096). rewrite uint_wrap_small; lia.
Qed.

(** ... and its permission bits. *)
Lemma PTE_FLAGS_lor pa fl :
  0 <= pa < 2 ^ 64 -> 0 <= fl < 1024 -> PTE_FLAGS (Z.lor (PA2PTE pa) fl) = fl.
Proof.
  intros Hp Hf. rewrite PTE_lor by lia. unfold PTE_FLAGS.
  change 0x3FF with (Z.ones 10). rewrite Z.land_ones by lia.
  change (2 ^ 10) with 1024. rewrite Z.add_comm, Z.mul_comm, Z_mod_plus_full.
  by apply Z.mod_small.
Qed.

Lemma PTE_bit pa fl i :
  0 <= pa < 2 ^ 64 -> 0 <= fl < 1024 -> 0 <= i < 10 ->
  Z.testbit (Z.lor (PA2PTE pa) fl) i = Z.testbit fl i.
Proof. intros Hp Hf Hi. rewrite PTE_lor by lia. apply (testbit_add_high _ fl 10). lia. Qed.

(** ** Page-table indices *)

Lemma PX_spec level va :
  0 <= level -> PX level va = (va / 2 ^ (12 + 9 * level)) mod 512.
Proof.
  intros Hl. unfold PX, PXSHIFT, PGSHIFT, PXMASK. change 0x1FF with (Z.ones 9).
  by rewrite Z.land_ones, Z.shiftr_div_pow2 by lia.
Qed.

Lemma PX_range level va : 0 <= level -> 0 <= PX level va < 512.
Proof. intros Hl. rewrite PX_spec by done. apply Z.mod_pos_bound. lia. Qed.

(** The three indices of an address below MAXVA determine its page number. *)
Lemma PX_vpn va :
  0 <= va < MAXVA -> vpn va = 2 ^ 18 * PX 2 va + 2 ^ 9 * PX 1 va + PX 0 va.
Proof.
  intros H. change MAXVA with (2 ^ 38) in H. rewrite !PX_spec by lia. unfold vpn, PGSIZE.
  change (2 ^ (12 + 9 * 0)) with 4096. change (2 ^ (12 + 9 * 1)) with (4096 * 512).
  change (2 ^ (12 + 9 * 2)) with (4096 * 262144).
  rewrite <- !Z.div_div by lia. set (v := va / 4096).
  assert (0 <= v < 2 ^ 26) as Hv.
  { unfold v. split; [apply Z.div_pos; lia|apply Z.div_lt_upper_bound; lia]. }
  assert (v / 262144 = v / 512 / 512) as -> by (rewrite Z.div_div by lia; done).
  rewrite (Z.mod_small (v / 512 / 512) 512).
  - pose proof (Z.div_mod v 512). pose proof (Z.div_mod (v / 512) 512). lia.
  - split; [do 2 (apply Z.div_pos; [|lia]); lia|].
    rewrite Z.div_div by lia. apply Z.div_lt_upper_bound; lia.
Qed.

Lemma PX_inj va va' :
  0 <= va < MAXVA -> 0 <= va' < MAXVA ->
  PX 2 va = PX 2 va' -> PX 1 va = PX 1 va' -> PX 0 va = PX 0 va' -> vpn va = vpn va'.
Proof. intros. rewrite !PX_vpn by done. lia. Qed.

(** Indices depend on the page number only. *)
Lemma PX_page level va va' : 0 <= level -> vpn va = vpn va' -> PX level va = PX level va'.
Proof.
  intros Hl. unfold vpn, PGSIZE. intros H. rewrite !PX_spec by done.
  rewrite Z.pow_add_r, <- !Z.div_div by lia. change (2 ^ 12) with 4096. by rewrite H.
Qed.
