(* ===== verification/Kstring.v ===== *)
(** * kernel/string.c

    The memory and string routines, as loops over byte-addressed memory, and
    what they compute: [memset] is a fill, [memmove] is a copy of the source as
    it was before the call whatever the overlap, the comparisons decide equality
    of byte ranges, and the string copies stay inside their buffer.

    Lengths are the C arguments converted to a loop count; a length above
    [2^31] would overflow the [int] loop counter of [memset] and is outside the
    model. *)

From stdpp Require Import base list.
From Stdlib Require Import ZArith Lia.
From S2P Require Import Prelude.

(** ** Definitions *)

(** [for(i = 0; i < n; i++) cdst[i] = c;] *)
Fixpoint memset_loop (k : nat) (m : mem) (dst c i : Z) : mem :=
  match k with
  | O => m
  | S k' => memset_loop k' (store8 m (dst + i) c) dst c (i + 1)
  end.

Definition memset (m : mem) (dst c n : Z) : mem := memset_loop (Z.to_nat n) m dst c 0.

(** [while(n-- > 0) { if( *s1 != *s2) return *s1 - *s2; s1++, s2++; } return 0;] *)
Fixpoint memcmp_loop (k : nat) (m : mem) (s1 s2 : Z) : Z :=
  match k with
  | O => 0
  | S k' => if m s1 =? m s2 then memcmp_loop k' m (s1 + 1) (s2 + 1) else m s1 - m s2
  end.

Definition memcmp (m : mem) (v1 v2 n : Z) : Z := memcmp_loop (Z.to_nat n) m v1 v2.

(** [while(n-- > 0) *d++ = *s++;] *)
Fixpoint copy_up (k : nat) (m : mem) (d s : Z) : mem :=
  match k with
  | O => m
  | S k' => copy_up k' (store8 m d (m s)) (d + 1) (s + 1)
  end.

(** [while(n-- > 0) *--d = *--s;] *)
Fixpoint copy_down (k : nat) (m : mem) (d s : Z) : mem :=
  match k with
  | O => m
  | S k' => copy_down k' (store8 m (d - 1) (m (s - 1))) (d - 1) (s - 1)
  end.

Definition memmove (m : mem) (dst src n : Z) : mem :=
  if n =? 0 then m
  else if (src <? dst) && (dst <? src + n)
  then copy_down (Z.to_nat n) m (dst + n) (src + n)
  else copy_up (Z.to_nat n) m dst src.

Definition memcpy (m : mem) (dst src n : Z) : mem := memmove m dst src n.

(** [while(n > 0 && *p && *p == *q) n--, p++, q++;
     if(n == 0) return 0; return ( uchar )*p - ( uchar )*q;] *)
Fixpoint strncmp_loop (k : nat) (m : mem) (p q : Z) : Z :=
  match k with
  | O => 0
  | S k' => if truth (m p) && (m p =? m q) then strncmp_loop k' m (p + 1) (q + 1)
            else m p - m q
  end.

Definition strncmp (m : mem) (p q n : Z) : Z := strncmp_loop (Z.to_nat n) m p q.

(** [while(n-- > 0) *s++ = 0;] *)
Fixpoint zero_loop (k : nat) (m : mem) (s : Z) : mem :=
  match k with
  | O => m
  | S k' => zero_loop k' (store8 m s 0) (s + 1)
  end.

(** [while(n-- > 0 && ( *s++ = *t++ ) != 0) ; while(n-- > 0) *s++ = 0;] *)
Fixpoint strncpy_loop (k : nat) (m : mem) (s t : Z) : mem :=
  match k with
  | O => m
  | S k' => let c := m t in
            let m' := store8 m s c in
            if c =? 0 then zero_loop k' m' (s + 1)
            else strncpy_loop k' m' (s + 1) (t + 1)
  end.

Definition strncpy (m : mem) (s t n : Z) : mem := strncpy_loop (Z.to_nat n) m s t.

(** [while(--n > 0 && ( *s++ = *t++ ) != 0) ; *s = 0;] with [k] = the number of
    times [--n > 0] can hold. *)
Fixpoint safestrcpy_loop (k : nat) (m : mem) (s t : Z) : mem :=
  match k with
  | O => store8 m s 0
  | S k' => let c := m t in
            let m' := store8 m s c in
            if c =? 0 then store8 m' (s + 1) 0
            else safestrcpy_loop k' m' (s + 1) (t + 1)
  end.

Definition safestrcpy (m : mem) (s t n : Z) : mem :=
  if n <=? 0 then m else safestrcpy_loop (Z.to_nat (n - 1)) m s t.

(** [for(n = 0; s[n]; n++) ;] with a bound on the number of bytes examined. *)
Fixpoint strlen_loop (fuel : nat) (m : mem) (s n : Z) : option Z :=
  match fuel with
  | O => None
  | S f => if m (s + n) =? 0 then Some n else strlen_loop f m s (n + 1)
  end.

Definition strlen (fuel : nat) (m : mem) (s : Z) : option Z := strlen_loop fuel m s 0.

(** ** Specifications *)

(** The NUL-terminated string [l] is at [a]. *)
Definition cstring (m : mem) (a : Z) (l : list Z) : Prop :=
  bytes_at m a (length l) = l /\ Forall (fun b => b <> 0) l /\
  m (a + Z.of_nat (length l)) = 0.

(** ** Lemmas *)

Lemma store8_at m a v : store8 m a v a = u8 v.
Proof. rewrite store_in by lia. by rewrite Z.sub_diag, Z.div_1_r. Qed.

Lemma store8_ne m a v x : x <> a -> store8 m a v x = m x.
Proof. intros. apply store_out. lia. Qed.

Lemma byte_small b : 0 <= b < 256 -> u8 b = b.
Proof. intros. by apply uint_wrap_small. Qed.

Lemma memset_loop_spec k : forall m dst c i x,
  memset_loop k m dst c i x = mem_fill m (dst + i) c (Z.of_nat k) x.
Proof.
  induction k as [|k IH]; intros m dst c i x; simpl memset_loop.
  - rewrite mem_fill_out by lia. done.
  - rewrite IH. destruct (Z.eq_dec x (dst + i)) as [->|Hne].
    + rewrite mem_fill_out, mem_fill_in, store8_at by lia. done.
    + destruct (in_range (dst + (i + 1)) (Z.of_nat k) x) eqn:E;
      [apply in_range_true in E; rewrite !mem_fill_in by lia
      |apply in_range_false in E; rewrite !mem_fill_out, store8_ne by lia]; done.
Qed.

Lemma copy_up_spec k : forall m d s x,
  bytes_ok m -> ~ (s < d < s + Z.of_nat k) ->
  copy_up k m d s x = mem_copy m d s (Z.of_nat k) x.
Proof.
  induction k as [|k IH]; intros m d s x Hm Hov; simpl copy_up.
  - rewrite mem_copy_out by lia. done.
  - rewrite IH by (auto with mem; lia).
    destruct (in_range (d + 1) (Z.of_nat k) x) eqn:E;
    [apply in_range_true in E; rewrite !mem_copy_in, store8_ne by lia; f_equal; lia
    |apply in_range_false in E; rewrite mem_copy_out by lia].
    destruct (Z.eq_dec x d) as [->|].
    + rewrite store8_at, mem_copy_in, byte_small by (apply Hm || lia). f_equal. lia.
    + by rewrite store8_ne, mem_copy_out by lia.
Qed.

Lemma copy_down_spec k : forall m d s x,
  bytes_ok m -> s <= d ->
  copy_down k m d s x = mem_copy m (d - Z.of_nat k) (s - Z.of_nat k) (Z.of_nat k) x.
Proof.
  induction k as [|k IH]; intros m d s x Hm Hov; simpl copy_down.
  - rewrite mem_copy_out by lia. done.
  - rewrite IH by (auto with mem; lia).
    destruct (in_range (d - 1 - Z.of_nat k) (Z.of_nat k) x) eqn:E;
    [apply in_range_true in E; rewrite !mem_copy_in, store8_ne by lia; f_equal; lia
    |apply in_range_false in E; rewrite mem_copy_out by lia].
    destruct (Z.eq_dec x (d - 1)) as [->|].
    * rewrite store8_at, mem_copy_in, byte_small by (apply Hm || lia). f_equal. lia.
    * by rewrite store8_ne, mem_copy_out by lia.
Qed.

Lemma zero_loop_spec k : forall m s x,
  zero_loop k m s x = mem_fill m s 0 (Z.of_nat k) x.
Proof.
  induction k as [|k IH]; intros m s x; simpl zero_loop.
  - by rewrite mem_fill_out by lia.
  - rewrite IH. destruct (Z.eq_dec x s) as [->|Hne].
    + rewrite mem_fill_out, mem_fill_in, store8_at by lia. done.
    + destruct (in_range (s + 1) (Z.of_nat k) x) eqn:E;
      [apply in_range_true in E; rewrite !mem_fill_in by lia
      |apply in_range_false in E; rewrite !mem_fill_out, store8_ne by lia]; done.
Qed.

(** A string read through its first byte. *)
Lemma cstring_nil m a : cstring m a [] <-> m a = 0.
Proof.
  unfold cstring. simpl. rewrite Z.add_0_r. split; [by intros (_ & _ & ?)|].
  intros H. by repeat split.
Qed.

Lemma bytes_at_S m a n : bytes_at m a (S n) = m a :: bytes_at m (a + 1) n.
Proof.
  change (S n) with (1 + n)%nat. rewrite bytes_at_app. unfold bytes_at at 1. simpl.
  by rewrite Z.add_0_r.
Qed.

Lemma cstring_cons m a b l :
  cstring m a (b :: l) <-> m a = b /\ b <> 0 /\ cstring m (a + 1) l.
Proof.
  unfold cstring. simpl length. rewrite bytes_at_S, Forall_cons.
  replace (a + Z.of_nat (S (length l))) with (a + 1 + Z.of_nat (length l)) by lia.
  split.
  - intros (Hb & [Hb0 Hl] & Hz). injection Hb as Hb Hb'. by repeat split.
  - intros (<- & Hb0 & Hb' & Hl & Hz). repeat split; try done. by rewrite Hb'.
Qed.

(** A string is not affected by writes elsewhere. *)
Lemma cstring_ext m1 m2 a l :
  (forall x, a <= x <= a + Z.of_nat (length l) -> m1 x = m2 x) ->
  cstring m1 a l -> cstring m2 a l.
Proof.
  intros H (H1 & H2 & H3). split; [|split]; [|done|].
  - rewrite <- H1 at 2. apply bytes_at_ext. intros. rewrite <- H by lia. done.
  - by rewrite <- H by lia.
Qed.

Lemma memcmp_loop_zero k : forall m a b,
  memcmp_loop k m a b = 0 <-> bytes_at m a k = bytes_at m b k.
Proof.
  induction k as [|k IH]; intros m a b; simpl memcmp_loop; [done|].
  rewrite !bytes_at_S. destruct (Z.eqb_spec (m a) (m b)) as [->|Hne].
  - rewrite IH. split; [by intros ->|]. by intros [= ->].
  - split; [lia|]. by intros [= ? _].
Qed.

Lemma strncmp_loop_zero k : forall m p q l1 l2,
  cstring m p l1 -> cstring m q l2 ->
  strncmp_loop k m p q = 0 <-> take k l1 = take k l2.
Proof.
  induction k as [|k IH]; intros m p q l1 l2 H1 H2; simpl strncmp_loop; [done|].
  destruct l1 as [|b1 l1], l2 as [|b2 l2]; rewrite ?cstring_nil, ?cstring_cons in *;
    simpl take.
  - rewrite H1, H2. done.
  - destruct H2 as (H2 & Hb & _). rewrite H1, H2. simpl. split; [lia|done].
  - destruct H1 as (H1 & Hb & _). rewrite H1, H2.
    rewrite (proj2 (Z.eqb_neq b1 0)), andb_false_r by done. split; [lia|done].
  - destruct H1 as (H1 & Hb1 & H1'), H2 as (H2 & Hb2 & H2'). rewrite H1, H2.
    rewrite (proj2 (truth_true b1)) by done. simpl.
    destruct (Z.eqb_spec b1 b2) as [->|Hne].
    + rewrite (IH _ _ _ _ _ H1' H2'). split; [by intros ->|]. by intros [= ->].
    + split; [lia|]. intros [= ? _]. done.
Qed.

(** The bytes [strncpy] leaves in its buffer. *)
Definition padded (n : nat) (l : list Z) : list Z := take n (l ++ replicate n 0).

Lemma bytes_at_fill m a n : bytes_at (mem_fill m a 0 (Z.of_nat n)) a n = replicate n 0.
Proof.
  apply list_eq. intros i. destruct (decide (i < n)%nat).
  - rewrite bytes_at_lookup, mem_fill_in, lookup_replicate_2 by lia. done.
  - rewrite !lookup_ge_None_2; rewrite ?length_bytes_at, ?length_replicate; done || lia.
Qed.

Lemma zero_loop_bytes k m s : bytes_at (zero_loop k m s) s k = replicate k 0.
Proof.
  rewrite <- (bytes_at_fill m s k). apply bytes_at_ext. intros. apply zero_loop_spec.
Qed.

Lemma strncpy_loop_out k : forall m s t x,
  ~ (s <= x < s + Z.of_nat k) -> strncpy_loop k m s t x = m x.
Proof.
  induction k as [|k IH]; intros m s t x Hx; simpl strncpy_loop; [done|].
  destruct (m t =? 0).
  - rewrite zero_loop_spec, mem_fill_out, store8_ne by lia. done.
  - rewrite IH, store8_ne by lia. done.
Qed.

Lemma strncpy_loop_bytes k : forall m s t l,
  bytes_ok m -> cstring m t l ->
  (s + Z.of_nat k <= t \/ t + Z.of_nat (length l) < s) ->
  bytes_at (strncpy_loop k m s t) s k = padded k l.
Proof.
  induction k as [|k IH]; intros m s t l Hm Hl Hd; simpl strncpy_loop; [done|].
  rewrite bytes_at_S. destruct l as [|b l]; unfold padded; simpl.
  - apply cstring_nil in Hl. rewrite Hl. simpl. f_equal.
    + rewrite zero_loop_spec, mem_fill_out, store8_at by lia. done.
    + rewrite zero_loop_bytes, take_ge by (rewrite length_replicate; lia). done.
  - apply cstring_cons in Hl as (Hb & Hb0 & Hl). rewrite Hb.
    rewrite (proj2 (Z.eqb_neq b 0)) by done. f_equal.
    + rewrite strncpy_loop_out, store8_at, byte_small by (rewrite <- ?Hb; apply Hm || lia).
      done.
    + simpl in Hd. rewrite IH with (l := l); [| |eapply cstring_ext; [|done]|lia].
      * unfold padded. change (0 :: replicate k 0) with (replicate (S k) 0).
        rewrite replicate_S_end, app_assoc, (take_app_le (l ++ _) [0]); [done|].
        rewrite length_app, length_replicate. lia.
      * auto with mem.
      * intros x Hx. rewrite store8_ne by lia. done.
Qed.

Lemma safestrcpy_loop_out k : forall m s t x,
  ~ (s <= x <= s + Z.of_nat k) -> safestrcpy_loop k m s t x = m x.
Proof.
  induction k as [|k IH]; intros m s t x Hx; simpl safestrcpy_loop.
  - rewrite store8_ne by lia. done.
  - destruct (m t =? 0); [rewrite !store8_ne by lia; done|].
    rewrite IH, store8_ne by lia. done.
Qed.

Lemma safestrcpy_loop_cstring k : forall m s t l,
  bytes_ok m -> cstring m t l ->
  (s + Z.of_nat k < t \/ t + Z.of_nat (length l) < s) ->
  cstring (safestrcpy_loop k m s t) s (take k l).
Proof.
  induction k as [|k IH]; intros m s t l Hm Hl Hd; simpl safestrcpy_loop.
  - rewrite take_0, cstring_nil, store8_at. done.
  - destruct l as [|b l]; simpl take.
    + apply cstring_nil in Hl. rewrite Hl. simpl.
      rewrite cstring_nil, store8_ne, store8_at by lia. done.
    + apply cstring_cons in Hl as (Hb & Hb0 & Hl). rewrite Hb.
      rewrite (proj2 (Z.eqb_neq b 0)) by done. simpl in Hd. apply cstring_cons. split.
      * rewrite safestrcpy_loop_out, store8_at, byte_small
          by (rewrite <- ?Hb; apply Hm || lia). done.
      * split; [done|]. apply IH; [auto with mem|eapply cstring_ext; [|done]|lia].
        intros x Hx. rewrite store8_ne by lia. done.
Qed.

Lemma strlen_loop_spec : forall l fuel m s n,
  cstring m (s + n) l -> (length l < fuel)%nat ->
  strlen_loop fuel m s n = Some (n + Z.of_nat (length l)).
Proof.
  induction l as [|b l IH]; intros fuel m s n Hl Hf; destruct fuel as [|f];
    simpl in *; try lia.
  - apply cstring_nil in Hl. rewrite Hl. simpl. f_equal. lia.
  - apply cstring_cons in Hl as (Hb & Hb0 & Hl). rewrite Hb.
    rewrite (proj2 (Z.eqb_neq b 0)) by done.
    rewrite IH by (replace (s + (n + 1)) with (s + n + 1) by lia; done || lia).
    f_equal. lia.
Qed.
