(* ===== verification/Kalloc.v ===== *)
(** * kernel/kalloc.c: the physical page allocator with reference counts

    The free pages form a list threaded through the pages themselves (the first
    word of a free page is the address of the next one, 0 at the end), and
    [refcount] counts the references to each page.  [kinv s l] says that [l] is
    the list of free pages of [s]; the theorems give the effect of every
    operation on it. *)

From stdpp Require Import base gmap sets list strings.
From Stdlib Require Import ZArith Lia.
From S2P Require Import Prelude Kernel Riscv.

(** Addresses fixed by kernel/kernel.ld. *)
Class Linker : Type := {
  kend : Z;          (* [end], first address after the kernel *)
  etext : Z;         (* end of the kernel text *)
  trampoline : Z     (* the trampoline page *)
}.

Section Kalloc.
Context {L : Linker}.

(** ** Definitions *)

(** [kmem.freelist], [refcount] and physical memory, where the links of the
    free list live. *)
Record kmem : Type := Kmem {
  kmem_mem : mem;
  freelist : Z;
  refcount : Z -> Z
}.

Definition set_mem (s : kmem) (m : mem) : kmem := Kmem m (freelist s) (refcount s).
Definition set_freelist (s : kmem) (r : Z) : kmem := Kmem (kmem_mem s) r (refcount s).
Definition set_refcount (s : kmem) (i v : Z) : kmem :=
  Kmem (kmem_mem s) (freelist s) (fun j => if j =? i then v else refcount s j).

Definition MAXPAGES : Z := PHYSTOP / PGSIZE.

Definition pa2pageindex (pa : Z) : K kmem Z :=
  let idx := i32 (Z.shiftr pa PGSHIFT) in
  if (idx <? 0) || (MAXPAGES <=? idx) then panic "pa2pageindex: out of range"
  else ret idx.

Definition incref (pa : Z) : K kmem unit :=
  acquire RefcountLock ;;
  idx <- pa2pageindex pa ;;
  modify (fun s => set_refcount s idx (i32 (refcount s idx + 1))) ;;
  release RefcountLock.

Definition decref (pa : Z) : K kmem unit :=
  acquire RefcountLock ;;
  idx <- pa2pageindex pa ;;
  rc <- gets (fun s => refcount s idx) ;;
  if rc <? 0 then panic "decref: refcount underflow"
  else
    modify (fun s => set_refcount s idx (i32 (refcount s idx - 1))) ;;
    release RefcountLock.

Definition getref (pa : Z) : K kmem Z :=
  acquire RefcountLock ;;
  idx <- pa2pageindex pa ;;
  rc <- gets (fun s => refcount s idx) ;;
  release RefcountLock ;;
  ret rc.

Definition kfree (pa : Z) : K kmem unit :=
  if negb (pa mod PGSIZE =? 0) || (pa <? kend) || (PHYSTOP <=? pa) then panic "kfree"
  else
    decref pa ;;
    rc <- getref pa ;;
    if 0 <? rc then ret tt
    else
      modify (fun s => set_mem s (mem_fill (kmem_mem s) pa 1 PGSIZE)) ;;
      acquire KmemLock ;;
      modify (fun s => set_mem s (store64 (kmem_mem s) pa (freelist s))) ;;
      modify (fun s => set_freelist s pa) ;;
      release KmemLock.

Definition kalloc : K kmem Z :=
  acquire KmemLock ;;
  r <- gets freelist ;;
  when (truth r) (modify (fun s => set_freelist s (load64 (kmem_mem s) r))) ;;
  release KmemLock ;;
  when (truth r)
    (modify (fun s => set_mem s (mem_fill (kmem_mem s) r 5 PGSIZE)) ;;
     incref r) ;;
  ret r.

(** [for(; p + PGSIZE <= pa_end; p += PGSIZE) kfree(p);] *)
Fixpoint freerange_loop (fuel : nat) (p pa_end : Z) : K kmem unit :=
  if p + PGSIZE <=? pa_end then
    match fuel with
    | O => undef "fuel"
    | S f => kfree p ;; freerange_loop f (p + PGSIZE) pa_end
    end
  else ret tt.

Definition freerange (pa_start pa_end : Z) : K kmem unit :=
  freerange_loop (Z.to_nat (pa_end / PGSIZE)) (PGROUNDUP pa_start) pa_end.

Definition kinit : K kmem unit :=
  initlock KmemLock ;;
  initlock RefcountLock ;;
  modify (fun s => Kmem (kmem_mem s) (freelist s)
                        (fun i => if in_range 0 MAXPAGES i then 1 else refcount s i)) ;;
  freerange kend PHYSTOP.

(** ** Specification *)

(** A page the allocator manages. *)
Definition kpage (pa : Z) : Prop := page_aligned pa /\ kend <= pa < PHYSTOP.

Definition linker_ok : Prop := 0 < kend <= PHYSTOP.

Definition pageno (pa : Z) : Z := pa / PGSIZE.

(** [l] is the chain of free pages that starts at [a]. *)
Fixpoint free_chain (m : mem) (a : Z) (l : list Z) : Prop :=
  match l with
  | [] => a = 0
  | r :: l' => a = r /\ kpage r /\ free_chain m (load64 m r) l'
  end.

Record kinv (s : kmem) (l : list Z) : Prop := {
  kinv_bytes : bytes_ok (kmem_mem s);
  kinv_chain : free_chain (kmem_mem s) (freelist s) l;
  kinv_nodup : NoDup l;
  kinv_free : forall r, r ∈ l -> refcount s (pageno r) = 0;
  kinv_used : forall pa, kpage pa -> pa ∉ l -> 1 <= refcount s (pageno pa) < 2 ^ 31 - 1
}.

(** The locks the allocator takes are free. *)
Definition kfree_locks (e : env) : Prop := (KmemLock ∉ held e) /\ (RefcountLock ∉ held e).

(** ** Lemmas *)

Context (Hlink : linker_ok).

Lemma kpage_nonzero pa : kpage pa -> 0 < pa.
Proof. unfold kpage, linker_ok in *. lia. Qed.

Lemma kpage_page pa : kpage pa -> pa = PGSIZE * pageno pa /\ 0 <= pageno pa < MAXPAGES.
Proof.
  intros [Ha Hb]. pose proof (kpage_nonzero pa (conj Ha Hb)).
  change MAXPAGES with 557056. unfold page_aligned, pageno, PHYSTOP, KERNBASE, PGSIZE in *.
  pose proof (Z.div_mod pa 4096). split; [lia|].
  split; [apply Z.div_pos; lia|apply Z.div_lt_upper_bound; lia].
Qed.

Lemma kpage_pageno_inj p q : kpage p -> kpage q -> pageno p = pageno q -> p = q.
Proof. intros [Hp _]%kpage_page [Hq _]%kpage_page E. rewrite Hp, Hq, E. done. Qed.

(** Distinct pages are disjoint. *)
Lemma kpage_disjoint p q : kpage p -> kpage q -> p <> q -> p + PGSIZE <= q \/ q + PGSIZE <= p.
Proof. intros [Hp _]%kpage_page [Hq _]%kpage_page Hne. unfold PGSIZE in *. lia. Qed.

Lemma pa2pageindex_kpage pa e s : kpage pa -> pa2pageindex pa e s = Ret (pageno pa) e s.
Proof.
  intros Hp. destruct (kpage_page pa Hp) as [E Hb]. unfold pa2pageindex, PGSHIFT.
  rewrite Z.shiftr_div_pow2 by lia. change (pa / 2 ^ 12) with (pageno pa).
  rewrite sint_wrap_small by (change MAXPAGES with 557056 in Hb; simpl; lia).
  destruct (Z.ltb_spec (pageno pa) 0), (Z.leb_spec MAXPAGES (pageno pa)); done || lia.
Qed.

Lemma refcount_set s i v : refcount (set_refcount s i v) i = v.
Proof. simpl. by rewrite Z.eqb_refl. Qed.

Lemma incref_kpage pa e s :
  kpage pa -> RefcountLock ∉ held e ->
  incref pa e s = Ret tt e (set_refcount s (pageno pa) (i32 (refcount s (pageno pa) + 1))).
Proof.
  intros Hp Hl. unfold incref. kstep.
  rewrite (bind_step _ _ _ _ _ _ _ (pa2pageindex_kpage pa _ _ Hp)). by ksteps.
Qed.

Lemma decref_kpage pa e s :
  kpage pa -> RefcountLock ∉ held e -> 0 <= refcount s (pageno pa) ->
  decref pa e s = Ret tt e (set_refcount s (pageno pa) (i32 (refcount s (pageno pa) - 1))).
Proof.
  intros Hp Hl Hr. unfold decref. kstep.
  rewrite (bind_step _ _ _ _ _ _ _ (pa2pageindex_kpage pa _ _ Hp)). kstep.
  rewrite (proj2 (Z.ltb_ge _ _)) by lia. by ksteps.
Qed.

Lemma getref_kpage pa e s :
  kpage pa -> RefcountLock ∉ held e -> getref pa e s = Ret (refcount s (pageno pa)) e s.
Proof.
  intros Hp Hl. unfold getref. kstep.
  rewrite (bind_step _ _ _ _ _ _ _ (pa2pageindex_kpage pa _ _ Hp)). by ksteps.
Qed.

Lemma kfree_guard pa :
  kpage pa -> (negb (pa mod PGSIZE =? 0) || (pa <? kend) || (PHYSTOP <=? pa)) = false.
Proof.
  intros [Ha Hb]. unfold page_aligned in Ha. rewrite Ha.
  destruct (Z.ltb_spec pa kend), (Z.leb_spec PHYSTOP pa); done || lia.
Qed.

Lemma load64_small m a v : 0 <= v < 2 ^ 64 -> load64 (store64 m a v) a = v.
Proof. intros Hv. rewrite load_store. by apply Z.mod_small. Qed.

(** Memory that differs from [m] at most inside the page [p]. *)
Definition writes_page (p : Z) (m m' : mem) : Prop :=
  forall x, ~ (p <= x < p + PGSIZE) -> m' x = m x.

Lemma writes_page_trans p m1 m2 m3 :
  writes_page p m1 m2 -> writes_page p m2 m3 -> writes_page p m1 m3.
Proof. intros H1 H2 x Hx. by rewrite H2, H1. Qed.

Lemma writes_page_fill p m c : writes_page p m (mem_fill m p c PGSIZE).
Proof. intros x Hx. by rewrite mem_fill_out. Qed.

Lemma writes_page_store64 p m a v :
  p <= a -> a + 8 <= p + PGSIZE -> writes_page p m (store64 m a v).
Proof. intros H1 H2 x Hx. rewrite store_out; [done|lia]. Qed.

Lemma free_chain_kpage m a l : free_chain m a l -> Forall kpage l.
Proof. revert a. induction l as [|r l IH]; intros a; simpl; [done|]. intros (_ & ? & ?); eauto. Qed.

Lemma free_chain_ext m m' a l :
  (forall r, r ∈ l -> load64 m' r = load64 m r) -> free_chain m a l -> free_chain m' a l.
Proof.
  revert a. induction l as [|r l IH]; intros a Hm; simpl; [done|].
  intros (-> & Hr & Hl). split; [done|split; [done|]].
  rewrite Hm by set_solver. apply IH; [|done]. intros. apply Hm. set_solver.
Qed.

Lemma free_chain_other m m' a l p :
  free_chain m a l -> kpage p -> p ∉ l -> writes_page p m m' -> free_chain m' a l.
Proof.
  intros Hc Hp Hn Hw. pose proof (free_chain_kpage _ _ _ Hc) as Hk.
  apply (free_chain_ext m); [|done]. intros r Hr. apply load_ext. intros x Hx. apply Hw.
  rewrite Forall_forall in Hk. destruct (kpage_disjoint p r) as [Hd|Hd];
    unfold PGSIZE in *; try lia; [done|by apply Hk|set_solver].
Qed.

Lemma free_chain_head m a l : free_chain m a l -> l <> [] -> kpage a /\ a ∈ l.
Proof. destruct l; simpl; [done|]. intros (-> & ? & _) _. split; [done|set_solver]. Qed.

Lemma free_chain_nil m a l : free_chain m a l -> a = 0 <-> l = [].
Proof.
  destruct l as [|r l]; simpl; [done|]. intros (-> & Hr & _). split; [|done].
  pose proof (kpage_nonzero r Hr). lia.
Qed.

Lemma free_chain_head_range m a l : free_chain m a l -> 0 <= a < 2 ^ 64.
Proof.
  destruct l as [|r l]; simpl; [lia|]. intros (-> & Hr & _).
  pose proof (kpage_nonzero r Hr). destruct Hr as [_ Hr].
  unfold PHYSTOP, KERNBASE in Hr. lia.
Qed.

(** Code that writes allocated pages keeps the allocator's invariant. *)
Lemma kinv_set_mem s l m' :
  kinv s l -> bytes_ok m' ->
  (forall r x, r ∈ l -> r <= x < r + 8 -> m' x = kmem_mem s x) -> kinv (set_mem s m') l.
Proof.
  intros [Hb Hc Hn Hf Hu] Hb' Hm. split; simpl; try done.
  apply (free_chain_ext (kmem_mem s)); [|done]. intros r Hr. apply load_ext.
  intros x Hx. by apply (Hm r).
Qed.

Lemma kinv_write_page s l p m' :
  kinv s l -> bytes_ok m' -> kpage p -> p ∉ l -> writes_page p (kmem_mem s) m' ->
  kinv (set_mem s m') l.
Proof.
  intros [Hb Hc Hn Hf Hu] Hb' Hp Hl Hw. split; simpl; try done.
  by apply (free_chain_other (kmem_mem s) m' _ _ p).
Qed.

(** The state after the last reference to [pa] is dropped. *)
Definition freed (s : kmem) (pa : Z) : kmem :=
  Kmem (store64 (mem_fill (kmem_mem s) pa 1 PGSIZE) pa (freelist s)) pa
       (refcount (set_refcount s (pageno pa) 0)).

Lemma kfree_last_run e s pa :
  kpage pa -> kfree_locks e -> refcount s (pageno pa) = 1 ->
  kfree pa e s = Ret tt e (freed s pa).
Proof.
  intros Hp [Hk Hr] Hc. unfold kfree. rewrite kfree_guard by done.
  rewrite (bind_step _ _ _ _ _ _ _ (decref_kpage pa e s Hp Hr ltac:(lia))).
  rewrite (bind_step _ _ _ _ _ _ _ (getref_kpage pa e _ Hp Hr)).
  rewrite refcount_set, Hc. change (i32 (1 - 1)) with 0. rewrite Z.ltb_irrefl. by ksteps.
Qed.

Lemma kfree_last_inv s l pa :
  kinv s l -> kpage pa -> pa ∉ l -> kinv (freed s pa) (pa :: l).
Proof.
  intros [Hb Hc Hn Hf Hu] Hp Hl. unfold freed. split; simpl.
  - auto with mem.
  - split; [done|split; [done|]].
    rewrite load64_small by (by apply (free_chain_head_range (kmem_mem s) _ l)).
    apply (free_chain_other (kmem_mem s) _ _ _ pa); try done.
    eapply writes_page_trans; [apply writes_page_fill|].
    apply writes_page_store64; unfold PGSIZE; lia.
  - by constructor.
  - intros r [->|Hr]%elem_of_cons; [by rewrite Z.eqb_refl|].
    destruct (Z.eqb_spec (pageno r) (pageno pa)); [done|by apply Hf].
  - intros q Hq Hql. destruct (Z.eqb_spec (pageno q) (pageno pa)) as [E|E].
    + apply kpage_pageno_inj in E; [set_solver|done|done].
    + apply Hu; [done|set_solver].
Qed.

(** The state after one of several references to [pa] is dropped. *)
Lemma kfree_shared_run e s pa :
  kpage pa -> kfree_locks e -> 1 < refcount s (pageno pa) < 2 ^ 31 ->
  kfree pa e s = Ret tt e (set_refcount s (pageno pa) (refcount s (pageno pa) - 1)).
Proof.
  intros Hp [Hk Hr] Hc. unfold kfree. rewrite kfree_guard by done.
  rewrite (bind_step _ _ _ _ _ _ _ (decref_kpage pa e s Hp Hr ltac:(lia))).
  rewrite (bind_step _ _ _ _ _ _ _ (getref_kpage pa e _ Hp Hr)).
  rewrite refcount_set, sint_wrap_small by (simpl; lia).
  by rewrite (proj2 (Z.ltb_lt _ _)) by lia.
Qed.

(** The state after the free page [r] is handed out. *)
Definition alloced (s : kmem) (r : Z) : kmem :=
  Kmem (mem_fill (kmem_mem s) r 5 PGSIZE) (load64 (kmem_mem s) r)
       (refcount (set_refcount s (pageno r) 1)).

(** [kalloc] on any state whose list head is a page. *)
Lemma kalloc_head_run e s :
  kpage (freelist s) -> kfree_locks e ->
  let r := freelist s in
  kalloc e s = Ret r e
    (Kmem (mem_fill (kmem_mem s) r 5 PGSIZE) (load64 (kmem_mem s) r)
          (refcount (set_refcount s (pageno r) (i32 (refcount s (pageno r) + 1))))).
Proof.
  intros Hp [Hk Hr] r. unfold kalloc. ksteps. fold r.
  rewrite (proj2 (truth_true r)) by (pose proof (kpage_nonzero r Hp); lia).
  ksteps. by rewrite (bind_step _ _ _ _ _ _ _ (incref_kpage r e _ Hp Hr)).
Qed.

Lemma kalloc_run e s r l :
  kinv s (r :: l) -> kfree_locks e -> kalloc e s = Ret r e (alloced s r).
Proof.
  intros [Hb Hc Hn Hf Hu] Hl. simpl in Hc. destruct Hc as (<- & Hp & Hc).
  rewrite kalloc_head_run by done. unfold alloced. by rewrite Hf by set_solver.
Qed.

Lemma kalloc_inv s r l :
  kinv s (r :: l) -> kinv (alloced s r) l.
Proof.
  intros [Hb Hc Hn Hf Hu]. simpl in Hc. destruct Hc as (Er & Hp & Hc).
  apply NoDup_cons in Hn as [Hrl Hn]. unfold alloced. split; simpl.
  - auto with mem.
  - apply (free_chain_other (kmem_mem s) _ _ _ r); try done. apply writes_page_fill.
  - done.
  - intros q Hq. destruct (Z.eqb_spec (pageno q) (pageno r)) as [E|E].
    + apply kpage_pageno_inj in E; [set_solver| |done].
      apply free_chain_kpage in Hc. rewrite Forall_forall in Hc. by apply Hc.
    + apply Hf. set_solver.
  - intros q Hq Hql. destruct (Z.eqb_spec (pageno q) (pageno r)) as [E|E]; [lia|].
    apply Hu; [done|]. intros [->|?]%elem_of_cons; done.
Qed.

Lemma kalloc_empty e s : kinv s [] -> kfree_locks e -> kalloc e s = Ret 0 e s.
Proof.
  intros [Hb Hc Hn Hf Hu] [Hk Hr]. simpl in Hc. unfold kalloc. ksteps. rewrite Hc.
  change (truth 0) with false. by ksteps.
Qed.

Lemma aligned_step p q : page_aligned p -> page_aligned q -> p < q -> p + PGSIZE <= q.
Proof.
  unfold page_aligned, PGSIZE. intros Hp Hq Hlt.
  pose proof (Z.div_mod p 4096). pose proof (Z.div_mod q 4096). lia.
Qed.

Lemma aligned_add p : page_aligned p -> page_aligned (p + PGSIZE).
Proof.
  unfold page_aligned, PGSIZE. intros Hp.
  rewrite <- Z.add_mod_idemp_l, Hp by lia. done.
Qed.

Lemma PHYSTOP_aligned : page_aligned PHYSTOP.
Proof. reflexivity. Qed.

(** Freeing all pages from [p] on: each of them ends up on the free list once. *)
Lemma freerange_loop_run e : forall fuel p s l,
  kfree_locks e -> kinv s l -> page_aligned p -> kend <= p ->
  (forall q, kpage q -> p <= q -> (q ∉ l) /\ refcount s (pageno q) = 1) ->
  PHYSTOP - p <= PGSIZE * Z.of_nat fuel ->
  exists s' l', freerange_loop fuel p PHYSTOP e s = Ret tt e s' /\ kinv s' l' /\
    forall q, q ∈ l' <-> q ∈ l \/ (kpage q /\ p <= q).
Proof.
  induction fuel as [|fuel IH]; intros p s l Hl Hinv Ha Hp Hq Hfuel; simpl freerange_loop;
    destruct (Z.leb_spec (p + PGSIZE) PHYSTOP) as [Hle|Hle].
  - unfold PGSIZE in *. lia.
  - exists s, l. split; [done|split; [done|]]. intros q. split; [by left|].
    intros [?|[[_ Hq'] ?]]; [done|]. unfold PGSIZE in *. lia.
  - assert (kpage p) as Hkp by (unfold kpage, PGSIZE in *; split; [done|lia]).
    destruct (Hq p Hkp ltac:(lia)) as [Hpl Hpc].
    rewrite (bind_step _ _ _ _ _ _ _ (kfree_last_run e s p Hkp Hl Hpc)).
    destruct (IH (p + PGSIZE) (freed s p) (p :: l)) as (s' & l' & Hrun & Hinv' & Hmem).
    + done.
    + by apply kfree_last_inv.
    + by apply aligned_add.
    + unfold PGSIZE. lia.
    + intros q Hkq Hge. assert (q <> p) by (unfold PGSIZE in *; lia).
      destruct (Hq q Hkq) as [Hql Hqc]; [unfold PGSIZE in *; lia|].
      split; [set_solver|]. simpl. destruct (Z.eqb_spec (pageno q) (pageno p)) as [E|E].
      * by apply kpage_pageno_inj in E.
      * done.
    + unfold PGSIZE in *. lia.
    + exists s', l'. split; [done|split; [done|]]. intros q. rewrite Hmem, elem_of_cons. split.
      * intros [[->|?]|[? ?]]; [right; split; [done|lia]|by left|].
        right. split; [done|unfold PGSIZE in *; lia].
      * intros [?|[Hkq Hge]]; [auto|]. destruct (Z.eq_dec q p) as [->|]; [auto|].
        right. split; [done|]. apply aligned_step; [done|apply Hkq|lia].
  - exists s, l. split; [done|split; [done|]]. intros q. split; [by left|].
    intros [?|[[Hqa Hq'] Hge]]; [done|].
    pose proof (aligned_step q PHYSTOP Hqa PHYSTOP_aligned ltac:(lia)). lia.
Qed.

(** ** Properties *)

(** kinit: on a fresh kernel (zeroed [kmem], arbitrary memory contents)
    [kinit] returns, and afterwards the free list holds exactly the pages
    between [end] and [PHYSTOP], each once and with reference count 0. *)
Theorem kinit_correct e s :
  kfree_locks e -> bytes_ok (kmem_mem s) -> freelist s = 0 ->
  exists s' l, kinit e s = Ret tt e s' /\ kinv s' l /\ forall pa, pa ∈ l <-> kpage pa.
Proof.
  intros Hl Hb Hf. destruct Hl as [Hk Hr] eqn:El. clear El.
  unfold kinit. rewrite (bind_step _ _ _ _ _ _ _ (initlock_free KmemLock e s Hk)).
  rewrite (bind_step _ _ _ _ _ _ _ (initlock_free RefcountLock e s Hr)). kstep.
  assert (Hend : 0 <= kend <= 2 ^ 64 - PGSIZE)
    by (unfold linker_ok, PHYSTOP, KERNBASE, PGSIZE in *; lia).
  destruct (PGROUNDUP_bounds kend Hend) as [Hal Hbd].
  set (s0 := Kmem _ _ _).
  assert (Hcount : forall q, kpage q -> refcount s0 (pageno q) = 1).
  { intros q [_ Hq]%kpage_page. simpl.
    by rewrite (proj2 (in_range_true 0 MAXPAGES (pageno q))) by lia. }
  assert (kinv s0 []) as Hinv.
  { split; simpl; try done; [constructor| |].
    - intros r ?%not_elem_of_nil. done.
    - intros pa Hpa _. pose proof (Hcount pa Hpa) as E. simpl in E. lia. }
  destruct (freerange_loop_run e (Z.to_nat (PHYSTOP / PGSIZE)) (PGROUNDUP kend) s0 [])
    as (s' & l' & Hrun & Hinv' & Hmem); try done; [lia| | |].
  - intros q Hq _. split; [set_solver|by apply Hcount].
  - change (PHYSTOP / PGSIZE) with 557056. change PHYSTOP with (4096 * 557056).
    unfold PGSIZE. unfold linker_ok in Hlink. lia.
  - exists s', l'. split; [exact Hrun|split; [done|]]. intros pa. rewrite Hmem. split.
    + intros [?%not_elem_of_nil|[? _]]; done.
    + intros Hpa. right. split; [done|]. destruct Hpa as [Hpa Hpb].
      destruct (Z.lt_ge_cases pa (PGROUNDUP kend)) as [Hlt|]; [|done].
      pose proof (aligned_step pa _ Hpa Hal Hlt). unfold PGSIZE in *. lia.
Qed.

(** [kalloc]: with [l] the free list, an allocation takes its first page,
    which comes back filled with 5s and with reference count 1, leaves every
    other byte of memory unchanged, and leaves the rest of the list free; with
    an empty list it returns 0 and changes nothing. *)
Theorem kalloc_correct e s l :
  kfree_locks e -> kinv s l ->
  exists s', kalloc e s = Ret (default 0 (head l)) e s' /\ kinv s' (tail l) /\
    match l with
    | [] => s' = s
    | r :: _ => kpage r /\ refcount s' (pageno r) = 1 /\
        (forall x, r <= x < r + PGSIZE -> kmem_mem s' x = 5) /\
        writes_page r (kmem_mem s) (kmem_mem s')
    end.
Proof.
  intros Hl Hinv. destruct l as [|r l]; simpl.
  - exists s. split; [by apply kalloc_empty|done].
  - exists (alloced s r). split; [by eapply kalloc_run|]. split; [by apply kalloc_inv|].
    destruct Hinv as [_ (_ & Hp & _) _ _ _]. split; [done|].
    split; [simpl; by rewrite Z.eqb_refl|]. split.
    + intros x Hx. simpl. by rewrite mem_fill_in.
    + apply writes_page_fill.
Qed.


(** (double free): [decref] only panics on a count that is already negative,
    so freeing the page at the head of the free list a second time is accepted;
    afterwards the list is a cycle and two successive allocations return the
    same page. *)
Theorem kfree_double_free e s r l :
  kfree_locks e -> kinv s (r :: l) ->
  exists s1 s2 s3, kfree r e s = Ret tt e s1 /\
    kalloc e s1 = Ret r e s2 /\ kalloc e s2 = Ret r e s3.
Proof.
  intros Hl Hinv. pose proof Hinv as [Hb (Er & Hp & Hc) Hn Hf Hu].
  pose proof (Hf r ltac:(set_solver)) as Hr0. destruct Hl as [Hk Hr] eqn:El. clear El.
  set (m1 := store64 (mem_fill (kmem_mem s) r 1 PGSIZE) r r).
  set (s1 := Kmem m1 r (refcount (set_refcount s (pageno r) (-1)))).
  assert (kfree r e s = Ret tt e s1) as H1.
  { unfold kfree. rewrite kfree_guard by done.
    rewrite (bind_step _ _ _ _ _ _ _ (decref_kpage r e s Hp Hr ltac:(lia))).
    rewrite (bind_step _ _ _ _ _ _ _ (getref_kpage r e _ Hp Hr)).
    rewrite refcount_set, Hr0. change (i32 (0 - 1)) with (-1). change (0 <? -1) with false.
    ksteps. unfold s1, m1. simpl. by rewrite Er. }
  assert (load64 m1 r = r) as Hm1.
  { apply load64_small. apply (free_chain_head_range (kmem_mem s) r (r :: l)). by simpl. }
  eexists s1, _, _. split; [done|]. split.
  - apply (kalloc_head_run e s1); done.
  - change (freelist s1) with r. change (kmem_mem s1) with m1. rewrite Hm1.
    by apply (kalloc_head_run e (Kmem _ r _)).
Qed.

End Kalloc.

(** ** A concrete kernel

    The last ten pages below [PHYSTOP] belong to the allocator; two are in use
    and eight are free.  It shows that the hypotheses of the properties can be
    met together. *)

#[local] Instance demo_linker : Linker :=
  {| kend := PHYSTOP - 10 * PGSIZE; etext := KERNBASE + PGSIZE; trampoline := KERNBASE |}.

Definition demo_env : env := Env ∅ [] None 1 None.
Definition demo_page (i : Z) : Z := PHYSTOP - i * PGSIZE.
Definition demo_free : list Z := demo_page <$> seqZ 1 8.
Definition demo_kmem : kmem :=
  foldr (fun p s => freed s p) (Kmem (fun _ => 0) 0 (fun _ => 1)) demo_free.

Lemma demo_linker_ok : @linker_ok demo_linker.
Proof. split; vm_compute; congruence. Qed.

Lemma demo_locks : kfree_locks demo_env.
Proof. split; apply not_elem_of_empty. Qed.

Lemma demo_kpage i : 1 <= i <= 10 -> kpage (demo_page i).
Proof.
  intros Hi. unfold kpage, page_aligned, demo_page. simpl kend. change PHYSTOP with (557056 * PGSIZE).
  rewrite <- Z.mul_sub_distr_r, Z_mod_mult. unfold PGSIZE. lia.
Qed.

Lemma demo_free_elem q : q ∈ demo_free <-> exists i, 1 <= i <= 8 /\ q = demo_page i.
Proof.
  unfold demo_free. rewrite list_elem_of_fmap. setoid_rewrite elem_of_seqZ.
  split; intros (i & ? & ?); exists i; lia || split; lia || done.
Qed.

Lemma demo_kinv : kinv demo_kmem demo_free.
Proof.
  assert (H0 : kinv (Kmem (fun _ => 0) 0 (fun _ => 1)) []).
  { split; simpl; [intros ?; lia|done|constructor|intros r ?%not_elem_of_nil; done|intros; lia]. }
  assert (Hs : forall p l s, NoDup (p :: l) -> kpage p -> kinv s l -> kinv (freed s p) (p :: l)).
  { intros p l s Hn%NoDup_cons Hp Hk. apply kfree_last_inv; [apply demo_linker_ok|..]; tauto. }
  assert (Hn : NoDup demo_free) by (apply (bool_decide_eq_true_1 _); by vm_compute).
  assert (Hp : Forall kpage demo_free).
  { apply Forall_forall. intros q (i & Hi & ->)%demo_free_elem. apply demo_kpage. lia. }
  unfold demo_kmem. revert Hn Hp. induction demo_free as [|p l IH]; intros Hn Hp; [done|].
  simpl. apply Forall_cons in Hp as [Hp Hl]. pose proof Hn as [_ Hn']%NoDup_cons. auto.
Qed.

Lemma demo_used j : 8 < j -> demo_page j ∉ demo_free.
Proof. intros Hj (i & Hi & E)%demo_free_elem. unfold demo_page, PGSIZE in E. lia. Qed.

Lemma demo_used_zero j x :
  8 < j -> demo_page j <= x < demo_page j + PGSIZE -> kmem_mem demo_kmem x = 0.
Proof.
  intros Hj Hx. assert (forall q, q ∈ demo_free -> ~ (q <= x < q + PGSIZE)) as Hno.
  { intros q (i & Hi & ->)%demo_free_elem. unfold demo_page, PGSIZE in *. lia. }
  unfold demo_kmem. revert Hno. induction demo_free as [|p l IH]; intros Hno; [done|].
  simpl. rewrite store_out, mem_fill_out; [apply IH; set_solver| |].
  - apply Hno. by left.
  - intros Hx'. apply (Hno p); [by left|]. unfold PGSIZE. lia.
Qed.

Lemma kinit_correct_witness :
  exists s' l, kinit demo_env (Kmem (fun _ => 0) 0 (fun _ => 0)) = Ret tt demo_env s' /\
    kinv s' l /\ forall pa, pa ∈ l <-> kpage pa.
Proof.
  apply (kinit_correct demo_linker_ok); [apply demo_locks|intros ?; simpl; lia|reflexivity].
Defined.

Lemma kalloc_correct_witness :
  exists s', kalloc demo_env demo_kmem = Ret (demo_page 1) demo_env s' /\ kinv s' (tail demo_free).
Proof.
  destruct (kalloc_correct demo_linker_ok demo_env demo_kmem demo_free demo_locks demo_kinv)
    as (s' & E & Hk & _). exists s'. split; [exact E|exact Hk].
Defined.


Lemma kfree_double_free_witness :
  exists s1 s2 s3, kfree (demo_page 1) demo_env demo_kmem = Ret tt demo_env s1 /\
    kalloc demo_env s1 = Ret (demo_page 1) demo_env s2 /\
    kalloc demo_env s2 = Ret (demo_page 1) demo_env s3.
Proof.
  apply (kfree_double_free demo_linker_ok demo_env demo_kmem (demo_page 1) (tail demo_free));
    [apply demo_locks|exact demo_kinv].
Defined.
