(* ===== verification/Vm.v ===== *)
(** * kernel/vm.c: page tables and user memory

    A page-table page is a 4096-byte page of physical memory holding 512 64-bit
    entries; [walk] follows three levels of them.  The definitions are the C
    functions on the allocator's state ([kmem]: physical memory, free list and
    reference counts).  A buffer of kernel memory that a copy routine reads or
    fills is a list of bytes; [myproc()]'s size and page table, which [vmfault]
    consults, are the argument [up]. *)

From stdpp Require Import base gmap sets list strings.
From Stdlib Require Import ZArith Lia.
From S2P Require Import Prelude Kernel Riscv Kalloc.

Section Vm.
Context {L : Linker}.

(** ** Definitions *)

(** The fields of [myproc()] used by [vmfault]. *)
Record uproc : Type := Uproc { up_sz : Z; up_pagetable : Z }.

Definition read_pte (a : Z) : K kmem Z := gets (fun s => load64 (kmem_mem s) a).
Definition write_pte (a v : Z) : K kmem unit :=
  modify (fun s => set_mem s (store64 (kmem_mem s) a v)).
Definition fill_page (a c : Z) : K kmem unit :=
  modify (fun s => set_mem s (mem_fill (kmem_mem s) a c PGSIZE)).

(** [*pte & flag] as a truth value *)
Definition pte_has (v flag : Z) : bool := truth (Z.land v flag).

(** The loop of [walk] over the levels above the last. *)
Fixpoint walk_loop (levels : list Z) (pagetable va : Z) (alloc : bool) : K kmem Z :=
  match levels with
  | [] => ret (pagetable + 8 * PX 0 va)
  | level :: rest =>
      let pte := pagetable + 8 * PX level va in
      v <- read_pte pte ;;
      if pte_has v PTE_V then walk_loop rest (PTE2PA v) va alloc
      else if negb alloc then ret 0
      else
        pt <- kalloc ;;
        if pt =? 0 then ret 0
        else
          fill_page pt 0 ;;
          write_pte pte (Z.lor (PA2PTE pt) PTE_V) ;;
          walk_loop rest pt va alloc
  end.

Definition walk (pagetable va : Z) (alloc : bool) : K kmem Z :=
  if MAXVA <=? va then panic "walk" else walk_loop [2; 1] pagetable va alloc.

Definition walkaddr (pagetable va : Z) : K kmem Z :=
  if MAXVA <=? va then ret 0
  else
    pte <- walk pagetable va false ;;
    if pte =? 0 then ret 0
    else
      v <- read_pte pte ;;
      if negb (pte_has v PTE_V) then ret 0
      else if negb (pte_has v PTE_U) then ret 0
      else ret (PTE2PA v).

(** [for(;;)] of [mappages]; one unit of fuel per page. *)
Fixpoint mappages_loop (fuel : nat) (pagetable a last pa perm : Z) : K kmem Z :=
  match fuel with
  | O => undef "fuel"
  | S f =>
      pte <- walk pagetable a true ;;
      if pte =? 0 then ret (-1)
      else
        v <- read_pte pte ;;
        if pte_has v PTE_V then panic "mappages: remap"
        else
          write_pte pte (Z.lor (Z.lor (PA2PTE pa) perm) PTE_V) ;;
          if a =? last then ret 0
          else mappages_loop f pagetable (u64 (a + PGSIZE)) last (u64 (pa + PGSIZE)) perm
  end.

Definition mappages (pagetable va size pa perm : Z) : K kmem Z :=
  if negb (va mod PGSIZE =? 0) then panic "mappages: va not aligned"
  else if negb (size mod PGSIZE =? 0) then panic "mappages: size not aligned"
  else if size =? 0 then panic "mappages: size"
  else mappages_loop (Z.to_nat (size / PGSIZE)) pagetable va (u64 (va + size - PGSIZE)) pa perm.

Definition kvmmap (kpgtbl va pa sz perm : Z) : K kmem unit :=
  r <- mappages kpgtbl va sz pa perm ;;
  if negb (r =? 0) then panic "kvmmap" else ret tt.

(** [for(a = va; a < va + npages*PGSIZE; a += PGSIZE)] of [uvmunmap] *)
Fixpoint uvmunmap_loop (fuel : nat) (pagetable a stop : Z) (do_free : bool) : K kmem unit :=
  if a <? stop then
    match fuel with
    | O => undef "fuel"
    | S f =>
        pte <- walk pagetable a false ;;
        v <- (if pte =? 0 then ret 0 else read_pte pte) ;;
        (if pte =? 0 then ret tt
         else if negb (pte_has v PTE_V) then ret tt
         else
           when do_free (kfree (PTE2PA v)) ;;
           write_pte pte 0) ;;
        uvmunmap_loop f pagetable (u64 (a + PGSIZE)) stop do_free
    end
  else ret tt.

Definition uvmunmap (pagetable va npages : Z) (do_free : bool) : K kmem unit :=
  if negb (va mod PGSIZE =? 0) then panic "uvmunmap: not aligned"
  else uvmunmap_loop (Z.to_nat npages) pagetable va (u64 (va + npages * PGSIZE)) do_free.

Definition uvmcreate : K kmem Z :=
  pagetable <- kalloc ;;
  if pagetable =? 0 then ret 0
  else fill_page pagetable 0 ;; ret pagetable.

Definition uvmdealloc (pagetable oldsz newsz : Z) : K kmem Z :=
  if oldsz <=? newsz then ret oldsz
  else
    when (PGROUNDUP newsz <? PGROUNDUP oldsz)
      (let npages := i32 ((PGROUNDUP oldsz - PGROUNDUP newsz) / PGSIZE) in
       uvmunmap pagetable (PGROUNDUP newsz) (u64 npages) true) ;;
    ret newsz.

(** [for(a = oldsz; a < newsz; a += PGSIZE)] of [uvmalloc] *)
Fixpoint uvmalloc_loop (fuel : nat) (pagetable a oldsz newsz xperm : Z) : K kmem Z :=
  if a <? newsz then
    match fuel with
    | O => undef "fuel"
    | S f =>
        m <- kalloc ;;
        if m =? 0 then uvmdealloc pagetable a oldsz ;; ret 0
        else
          fill_page m 0 ;;
          r <- mappages pagetable a PGSIZE m (Z.lor (Z.lor PTE_R PTE_U) xperm) ;;
          if negb (r =? 0) then
            kfree m ;; uvmdealloc pagetable a oldsz ;; ret 0
          else uvmalloc_loop f pagetable (u64 (a + PGSIZE)) oldsz newsz xperm
    end
  else ret newsz.

Definition uvmalloc (pagetable oldsz newsz xperm : Z) : K kmem Z :=
  if newsz <? oldsz then ret oldsz
  else
    let oldsz := PGROUNDUP oldsz in
    uvmalloc_loop (S (Z.to_nat ((newsz - oldsz) / PGSIZE))) pagetable oldsz oldsz newsz xperm.

(** The fuel bounds the recursion depth; a page table has three levels. *)
Fixpoint freewalk (fuel : nat) (pagetable : Z) : K kmem unit :=
  match fuel with
  | O => undef "fuel"
  | S f =>
      for_each (seqZ 0 512) (fun i =>
        pte <- read_pte (pagetable + 8 * i) ;;
        if pte_has pte PTE_V && negb (truth (Z.land pte (Z.lor (Z.lor PTE_R PTE_W) PTE_X)))
        then freewalk f (PTE2PA pte) ;; write_pte (pagetable + 8 * i) 0
        else if pte_has pte PTE_V then panic "freewalk: leaf"
        else ret tt) ;;
      kfree pagetable
  end.

Definition uvmfree (pagetable sz : Z) : K kmem unit :=
  when (0 <? sz) (uvmunmap pagetable 0 (PGROUNDUP sz / PGSIZE) true) ;;
  freewalk 16 pagetable.

(** [for(i = 0; i < sz; i += PGSIZE)] of [uvmcopy], with its [err] exit *)
Fixpoint uvmcopy_loop (fuel : nat) (old new i sz : Z) : K kmem Z :=
  if i <? sz then
    match fuel with
    | O => undef "fuel"
    | S f =>
        pte <- walk old i false ;;
        v <- (if pte =? 0 then ret 0 else read_pte pte) ;;
        if (pte =? 0) || negb (pte_has v PTE_V) then uvmcopy_loop f old new (u64 (i + PGSIZE)) sz
        else
          let pa := PTE2PA v in
          let flags := PTE_FLAGS v in
          m <- kalloc ;;
          if m =? 0 then uvmunmap new 0 (i / PGSIZE) true ;; ret (-1)
          else
            modify (fun s => set_mem s (mem_copy (kmem_mem s) m pa PGSIZE)) ;;
            r <- mappages new i PGSIZE m flags ;;
            if negb (r =? 0) then
              kfree m ;; uvmunmap new 0 (i / PGSIZE) true ;; ret (-1)
            else uvmcopy_loop f old new (u64 (i + PGSIZE)) sz
    end
  else ret 0.

Definition uvmcopy (old new sz : Z) : K kmem Z :=
  uvmcopy_loop (S (Z.to_nat (sz / PGSIZE))) old new 0 sz.

Definition uvmclear (pagetable va : Z) : K kmem unit :=
  pte <- walk pagetable va false ;;
  if pte =? 0 then panic "uvmclear"
  else
    v <- read_pte pte ;;
    write_pte pte (Z.land v (Z.lnot PTE_U)).

Definition ismapped (pagetable va : Z) : K kmem bool :=
  pte <- walk pagetable va false ;;
  if pte =? 0 then ret false
  else
    v <- read_pte pte ;;
    ret (pte_has v PTE_V).

Definition vmfault (up : uproc) (pagetable va : Z) : K kmem Z :=
  if up_sz up <=? va then ret 0
  else
    let va := PGROUNDDOWN va in
    b <- ismapped pagetable va ;;
    if (b : bool) then ret 0
    else
      ka <- kalloc ;;
      if ka =? 0 then ret 0
      else
        fill_page ka 0 ;;
        r <- mappages (up_pagetable up) va PGSIZE ka (Z.lor (Z.lor PTE_W PTE_U) PTE_R) ;;
        if negb (r =? 0) then kfree ka ;; ret 0
        else ret ka.

(** Copy [src] to the user address [dstva]; each iteration copies at least one
    byte, so the length of [src] bounds the iterations. *)
Fixpoint copyout_loop (fuel : nat) (up : uproc) (pagetable dstva : Z) (src : list Z) : K kmem Z :=
  match src with
  | [] => ret 0
  | _ =>
      match fuel with
      | O => undef "fuel"
      | S f =>
          let va0 := PGROUNDDOWN dstva in
          if MAXVA <=? va0 then ret (-1)
          else
            pa0 <- walkaddr pagetable va0 ;;
            pa0 <- (if pa0 =? 0 then vmfault up pagetable va0 else ret pa0) ;;
            if pa0 =? 0 then ret (-1)
            else
              pte <- walk pagetable va0 false ;;
              if pte =? 0 then undef "null pte"
              else
                v <- read_pte pte ;;
                if negb (pte_has v PTE_W) then ret (-1)
                else
                  let n := Z.min (PGSIZE - (dstva - va0)) (Z.of_nat (length src)) in
                  modify (fun s => set_mem s (mem_write (kmem_mem s) (pa0 + (dstva - va0))
                                                        (take (Z.to_nat n) src))) ;;
                  copyout_loop f up pagetable (u64 (va0 + PGSIZE)) (drop (Z.to_nat n) src)
      end
  end.

Definition copyout (up : uproc) (pagetable dstva : Z) (src : list Z) : K kmem Z :=
  copyout_loop (length src) up pagetable dstva src.

(** Copy [len] bytes from the user address [srcva]; [None] is the C result -1. *)
Fixpoint copyin_loop (fuel : nat) (up : uproc) (pagetable srcva len : Z) : K kmem (option (list Z)) :=
  if len <=? 0 then ret (Some [])
  else
    match fuel with
    | O => undef "fuel"
    | S f =>
        let va0 := PGROUNDDOWN srcva in
        pa0 <- walkaddr pagetable va0 ;;
        pa0 <- (if pa0 =? 0 then vmfault up pagetable va0 else ret pa0) ;;
        if pa0 =? 0 then ret None
        else
          let n := Z.min (PGSIZE - (srcva - va0)) len in
          bs <- gets (fun s => bytes_at (kmem_mem s) (pa0 + (srcva - va0)) (Z.to_nat n)) ;;
          r <- copyin_loop f up pagetable (u64 (va0 + PGSIZE)) (len - n) ;;
          ret (option_map (fun l => bs ++ l) r)
    end.

Definition copyin (up : uproc) (pagetable srcva len : Z) : K kmem (option (list Z)) :=
  copyin_loop (Z.to_nat len) up pagetable srcva len.

(** The bytes before the first NUL among [n] at [p], and whether there is one. *)
Fixpoint scan_nul (n : nat) (m : mem) (p : Z) : list Z * bool :=
  match n with
  | O => ([], false)
  | S k =>
      if m p =? 0 then ([], true)
      else let '(l, b) := scan_nul k m (p + 1) in (m p :: l, b)
  end.

(** [copyinstr]: the string (without its NUL), or [None] for the result -1. *)
Fixpoint copyinstr_loop (fuel : nat) (pagetable srcva max : Z) : K kmem (option (list Z)) :=
  if max <=? 0 then ret None
  else
    match fuel with
    | O => undef "fuel"
    | S f =>
        let va0 := PGROUNDDOWN srcva in
        pa0 <- walkaddr pagetable va0 ;;
        if pa0 =? 0 then ret None
        else
          let n := Z.min (PGSIZE - (srcva - va0)) max in
          lb <- gets (fun s => scan_nul (Z.to_nat n) (kmem_mem s) (pa0 + (srcva - va0))) ;;
          if snd lb then ret (Some (fst lb))
          else
            r <- copyinstr_loop f pagetable (u64 (va0 + PGSIZE)) (max - n) ;;
            ret (option_map (fun l => fst lb ++ l) r)
    end.

Definition copyinstr (pagetable srcva max : Z) : K kmem (option (list Z)) :=
  copyinstr_loop (Z.to_nat max) pagetable srcva max.

(** kernel/proc.c, [proc_mapstacks] *)
Definition proc_mapstacks (kpgtbl : Z) : K kmem unit :=
  for_each (seq 0 NPROC) (fun p =>
    pa <- kalloc ;;
    if pa =? 0 then panic "kalloc"
    else kvmmap kpgtbl (KSTACK (Z.of_nat p)) pa PGSIZE (Z.lor PTE_R PTE_W)).

Definition kvmmake : K kmem Z :=
  kpgtbl <- kalloc ;;
  fill_page kpgtbl 0 ;;
  kvmmap kpgtbl UART0 UART0 PGSIZE (Z.lor PTE_R PTE_W) ;;
  kvmmap kpgtbl VIRTIO0 VIRTIO0 PGSIZE (Z.lor PTE_R PTE_W) ;;
  kvmmap kpgtbl PLIC PLIC 0x4000000 (Z.lor PTE_R PTE_W) ;;
  kvmmap kpgtbl KERNBASE KERNBASE (etext - KERNBASE) (Z.lor PTE_R PTE_X) ;;
  kvmmap kpgtbl etext etext (PHYSTOP - etext) (Z.lor PTE_R PTE_W) ;;
  kvmmap kpgtbl TRAMPOLINE trampoline PGSIZE (Z.lor PTE_R PTE_X) ;;
  proc_mapstacks kpgtbl ;;
  ret kpgtbl.

(** ** Specification: the tree in memory *)

Definition pte_at (m : mem) (t i : Z) : Z := load64 m (t + 8 * i).

Definition child (m : mem) (t i : Z) : option Z :=
  let v := pte_at m t i in
  if pte_has v PTE_V then Some (PTE2PA v) else None.

(** The page-table page reached from [root] by a list of indices. *)
Fixpoint table (m : mem) (root : Z) (p : list Z) : option Z :=
  match p with
  | [] => Some root
  | i :: p' => match child m root i with
               | Some t => table m t p'
               | None => None
               end
  end.

Definition px_ok (i : Z) : Prop := 0 <= i < 512.
Definition path_ok (p : list Z) : Prop := (length p <= 2)%nat /\ Forall px_ok p.

(** The page-table pages of [root] are distinct allocated pages: [l] is the
    free list. *)
Record pt_inv (m : mem) (root : Z) (l : list Z) : Prop := {
  pt_page : forall p t, path_ok p -> table m root p = Some t -> kpage t /\ (t ∉ l);
  pt_inj : forall p q t, path_ok p -> path_ok q ->
    table m root p = Some t -> table m root q = Some t -> p = q
}.

(** The entry that translates [va], 0 when there is none. *)
Definition lookup_pte (m : mem) (root va : Z) : Z :=
  match table m root [PX 2 va; PX 1 va] with
  | Some t => pte_at m t (PX 0 va)
  | None => 0
  end.

(** The page [t] belongs to the tree of [root]. *)
Definition is_table (m : mem) (root t : Z) : Prop :=
  exists p, path_ok p /\ table m root p = Some t.

(** Memory changed only in pages of the tree of [root] (in [m']). *)
Definition pt_frame (m m' : mem) (root : Z) : Prop :=
  forall x, (forall t, is_table m' root t -> ~ (t <= x < t + PGSIZE)) -> m' x = m x.

(** How [freewalk] classifies a valid entry. *)
Definition is_leaf (v : Z) : bool :=
  pte_has v PTE_V && truth (Z.land v (Z.lor (Z.lor PTE_R PTE_W) PTE_X)).
Definition is_ptr (v : Z) : bool :=
  pte_has v PTE_V && negb (truth (Z.land v (Z.lor (Z.lor PTE_R PTE_W) PTE_X))).

(** Down to depth [h], valid entries are pointers. *)
Definition ptrs (h : nat) (m : mem) (t : Z) : Prop :=
  forall p u i, (length p < h)%nat -> Forall px_ok p -> table m t p = Some u -> px_ok i ->
    pte_has (pte_at m u i) PTE_V = true -> is_ptr (pte_at m u i) = true.

(** The half of the root above [MAXVA] is empty. *)
Definition pt_low (m : mem) (root : Z) : Prop :=
  forall i, 256 <= i < 512 -> pte_has (pte_at m root i) PTE_V = false.

(** Every table page has one reference. *)
Definition pt_count (s : kmem) (root : Z) : Prop :=
  forall t, is_table (kmem_mem s) root t -> refcount s (pageno t) = 1.

(** ** Lemmas *)

Context (Hlink : linker_ok).

Lemma pte_has_V v : pte_has v PTE_V = Z.testbit v 0.
Proof. apply (truth_land_bit v 0). lia. Qed.
Lemma pte_has_R v : pte_has v PTE_R = Z.testbit v 1.
Proof. apply (truth_land_bit v 1). lia. Qed.
Lemma pte_has_W v : pte_has v PTE_W = Z.testbit v 2.
Proof. apply (truth_land_bit v 2). lia. Qed.
Lemma pte_has_U v : pte_has v PTE_U = Z.testbit v 4.
Proof. apply (truth_land_bit v 4). lia. Qed.

Lemma path_ok_nil : path_ok [].
Proof. split; [simpl; lia|constructor]. Qed.

Lemma path_ok_1 i : px_ok i -> path_ok [i].
Proof. split; [simpl; lia|by apply Forall_singleton]. Qed.

Lemma path_ok_2 i j : px_ok i -> px_ok j -> path_ok [i; j].
Proof. split; [simpl; lia|]. apply Forall_cons. by rewrite Forall_singleton. Qed.

Lemma PX_ok level va : 0 <= level -> px_ok (PX level va).
Proof. apply PX_range. Qed.

Lemma table_snoc m root p i :
  table m root (p ++ [i]) = match table m root p with Some t => child m t i | None => None end.
Proof.
  revert root. induction p as [|j p IH]; intros root; simpl.
  - by destruct (child m root i).
  - destruct (child m root j); [apply IH|done].
Qed.

(** [walk] without allocation finds the slot and changes nothing. *)
Lemma walk_lookup e s root va :
  va < MAXVA ->
  walk root va false e s =
    Ret (match table (kmem_mem s) root [PX 2 va; PX 1 va] with
         | Some t => t + 8 * PX 0 va | None => 0 end) e s.
Proof.
  intros Hva. unfold walk. rewrite (proj2 (Z.leb_gt _ _)) by done.
  simpl walk_loop. unfold bind, read_pte, gets. simpl table.
  unfold child, pte_at.
  destruct (pte_has (load64 (kmem_mem s) (root + 8 * PX 2 va)) PTE_V); [|done].
  by destruct (pte_has (load64 _ (_ + 8 * PX 1 va)) PTE_V).
Qed.

Lemma path_ok_snoc p i : (length p <= 1)%nat -> path_ok p -> px_ok i -> path_ok (p ++ [i]).
Proof.
  intros Hn [_ Hp] Hi. split; [rewrite length_app; simpl; lia|].
  apply Forall_app. by rewrite Forall_singleton.
Qed.

(** Two accesses to entries of page-table pages either hit the same entry or
    are disjoint. *)
Lemma pte_at_store m t i t' j v :
  kpage t -> kpage t' -> px_ok i -> px_ok j ->
  pte_at (store64 m (t + 8 * i) v) t' j =
    if decide (t' = t /\ j = i) then v mod 2 ^ 64 else pte_at m t' j.
Proof.
  intros Ht Ht' Hi Hj. unfold pte_at, px_ok in *. case_decide as E.
  - destruct E as [-> ->]. apply load_store.
  - apply load_store_other. destruct (Z.eq_dec t' t) as [->|Hne]; [lia|].
    destruct (kpage_disjoint Hlink t t') as [|]; try done; unfold PGSIZE in *; lia.
Qed.

Lemma pte_at_page m m' t i :
  px_ok i -> (forall x, t <= x < t + PGSIZE -> m' x = m x) -> pte_at m' t i = pte_at m t i.
Proof. intros Hi Hm. apply load_ext. intros x Hx. apply Hm. unfold px_ok, PGSIZE in *. lia. Qed.

Lemma pte_at_zero m t i : px_ok i -> pte_at (mem_fill m t 0 PGSIZE) t i = 0.
Proof. intros Hi. apply load_fill_zero; unfold px_ok, PGSIZE in *; lia. Qed.

Lemma kpage_pte_range t : kpage t -> 0 <= t < 2 ^ 56.
Proof.
  intros Ht. pose proof (kpage_nonzero Hlink t Ht). destruct Ht as [_ Ht].
  unfold PHYSTOP, KERNBASE in Ht. lia.
Qed.

(** The entry [walk] installs points to the page. *)
Lemma new_table_entry r :
  kpage r -> let v := Z.lor (PA2PTE r) PTE_V in
  v mod 2 ^ 64 = v /\ pte_has v PTE_V = true /\ PTE2PA v = r.
Proof.
  intros Hr v. pose proof (kpage_pte_range r Hr). change PTE_V with 1 in *. split; [|split].
  - apply Z.mod_small. unfold v. rewrite PTE_lor by lia.
    pose proof (Z.div_pos r 4096). pose proof (Z.div_lt_upper_bound r 4096 (2 ^ 44)). lia.
  - change 1 with PTE_V. rewrite pte_has_V. unfold v. by rewrite PTE_bit by lia.
  - apply PTE2PA_PA2PTE; [apply Hr|lia|lia].
Qed.

Lemma new_table_ptr r : kpage r -> is_ptr (Z.lor (PA2PTE r) PTE_V) = true.
Proof.
  intros Hr. pose proof (kpage_pte_range r Hr). unfold is_ptr.
  destruct (new_table_entry r Hr) as (_ & -> & _).
  change (Z.lor (Z.lor PTE_R PTE_W) PTE_X) with 14.
  replace (Z.land (Z.lor (PA2PTE r) PTE_V) 14) with 0; [done|]. symmetry. apply Z.bits_inj'.
  intros n Hn. rewrite Z.land_spec, Z.bits_0. destruct (Z.lt_ge_cases n 10) as [Hlt|Hge].
  - change PTE_V with 1. rewrite PTE_bit by lia.
    destruct (Z.eq_dec n 0) as [->|]; [done|]. change 1 with (2 ^ 0). by rewrite Z.pow2_bits_false by lia.
  - rewrite (Z.bits_above_log2 14 n) by (simpl; lia). apply andb_false_r.
Qed.

(** Two memories that agree on the inner page-table pages have the same tree. *)
Lemma table_ext m m' root :
  (forall p t, path_ok p -> (length p <= 1)%nat -> table m root p = Some t ->
     forall i, px_ok i -> child m' t i = child m t i) ->
  forall p, path_ok p -> table m' root p = table m root p.
Proof.
  intros H p [Hn Hp]. destruct p as [|i [|j [|k p]]]; simpl in *; try lia; [done| |].
  - rewrite Forall_singleton in Hp.
    by rewrite (H [] root path_ok_nil) by (simpl; done || lia).
  - rewrite Forall_cons, Forall_singleton in Hp. destruct Hp as [Hi Hj].
    rewrite (H [] root path_ok_nil) by (simpl; done || lia).
    destruct (child m root i) as [t|] eqn:Et; [|done].
    rewrite (H [i] t (path_ok_1 i Hi)); [done|simpl; lia| |done].
    simpl. by rewrite Et.
Qed.

(** Installing a fresh zeroed page [r] under the empty entry [i] of the table at
    path [p] adds exactly one table to the tree. *)
Section Grow.
Context (m m' : mem) (root : Z) (l : list Z) (p : list Z) (t i r : Z).
Context (Hinv : pt_inv m root (r :: l)) (Hr : kpage r) (Hrl : r ∉ l).
Context (Hp : path_ok p) (Hlen : (length p <= 1)%nat) (Hi : px_ok i).
Context (Ht : table m root p = Some t) (Hc : child m t i = None).
Context (Hm' : m' = store64 (mem_fill (mem_fill m r 5 PGSIZE) r 0 PGSIZE)
                            (t + 8 * i) (Z.lor (PA2PTE r) PTE_V)).

Lemma grow_table_ne q u : path_ok q -> table m root q = Some u -> kpage u /\ u <> r.
Proof. intros Hq Hu. destruct (pt_page _ _ _ Hinv q u Hq Hu). split; [done|set_solver]. Qed.

Lemma grow_pte_old u j :
  kpage u -> u <> r -> px_ok j ->
  pte_at m' u j = if decide (u = t /\ j = i) then Z.lor (PA2PTE r) PTE_V else pte_at m u j.
Proof.
  intros Hu Hur Hj. destruct (grow_table_ne p t Hp Ht) as [Hkt _]. rewrite Hm', pte_at_store by done.
  case_decide; [apply new_table_entry; done|]. apply pte_at_page; [done|].
  intros x Hx. destruct (kpage_disjoint Hlink u r) as [|]; try done;
  rewrite !mem_fill_out by (unfold PGSIZE in *; lia); done.
Qed.

Lemma grow_pte_new j : px_ok j -> pte_at m' r j = 0.
Proof.
  intros Hj. destruct (grow_table_ne p t Hp Ht) as [Hkt Hne]. rewrite Hm', pte_at_store by done.
  rewrite decide_False by (intros [? _]; congruence). by apply pte_at_zero.
Qed.

Lemma grow_child_old q u j :
  path_ok q -> table m root q = Some u -> px_ok j ->
  child m' u j = if decide (q = p /\ j = i) then Some r else child m u j.
Proof.
  intros Hq Hu Hj. destruct (grow_table_ne q u Hq Hu) as [Hku Hur].
  unfold child. rewrite grow_pte_old by done. case_decide as E.
  - destruct E as [-> ->]. rewrite (pt_inj _ _ _ Hinv q p t) by done.
    rewrite decide_True by done. destruct (new_table_entry r Hr) as (_ & -> & ->). done.
  - rewrite decide_False; [done|]. intros [-> ->]. apply E. split; congruence.
Qed.

Lemma grow_table q :
  path_ok q -> table m' root q = if decide (q = p ++ [i]) then Some r else table m root q.
Proof.
  intros [Hn Hq]. destruct q as [|a [|b [|c q]]]; simpl in Hn; try lia.
  - case_decide as E; [by destruct p|done].
  - rewrite Forall_singleton in Hq. simpl.
    rewrite (grow_child_old [] root) by (done || apply path_ok_nil).
    destruct p as [|a' p']; simpl.
    + case_decide as E1; case_decide as E2; try done; [destruct E1 as [_ ->]; done|].
      exfalso. apply E1. split; [done|congruence].
    + rewrite !decide_False; [done|]. intros [=]. by destruct p'.
  - rewrite Forall_cons, Forall_singleton in Hq. destruct Hq as [Ha Hb]. simpl.
    rewrite (grow_child_old [] root) by (done || apply path_ok_nil).
    case_decide as E1.
    + destruct E1 as [Ep ->]. rewrite decide_False by (by rewrite <- Ep).
      pose proof Ht as Et. rewrite <- Ep in Et. injection Et as Et.
      unfold child at 1. rewrite grow_pte_new by done. by rewrite Et, Hc.
    + destruct (child m root a) as [u|] eqn:Eu.
      * rewrite (grow_child_old [a] u) by first [done | by apply path_ok_1 | simpl; by rewrite Eu].
        case_decide as E2.
        -- destruct E2 as [Ep ->]. rewrite <- Ep. by rewrite decide_True.
        -- rewrite decide_False; [done|]. intros E3. apply E2.
           change [a; b] with ([a] ++ [b]) in E3. apply app_inj_tail in E3. intuition.
      * rewrite decide_False; [done|]. intros E3.
        change [a; b] with ([a] ++ [b]) in E3. apply app_inj_tail in E3 as [E3 _].
        pose proof Ht as Et. rewrite <- E3 in Et. simpl in Et. by rewrite Eu in Et.
Qed.

Lemma grow_fresh : table m root (p ++ [i]) = None.
Proof. by rewrite table_snoc, Ht. Qed.

Lemma grow_inv : pt_inv m' root l.
Proof.
  split.
  - intros q u Hq. rewrite grow_table by done. case_decide; [by intros [= <-]|].
    intros Hu. destruct (pt_page _ _ _ Hinv q u Hq Hu). split; [done|set_solver].
  - intros q1 q2 u Hq1 Hq2. rewrite !grow_table by done.
    case_decide as E1; case_decide as E2.
    + congruence.
    + intros [= <-] Hu. by destruct (grow_table_ne q2 r Hq2 Hu).
    + intros Hu [= <-]. by destruct (grow_table_ne q1 r Hq1 Hu).
    + by apply (pt_inj _ _ _ Hinv).
Qed.

Lemma grow_lookup va : 0 <= va < MAXVA -> lookup_pte m' root va = lookup_pte m root va.
Proof.
  intros Hva. unfold lookup_pte.
  assert (path_ok [PX 2 va; PX 1 va]) as Hq by (apply path_ok_2; apply PX_ok; lia).
  rewrite grow_table by done. case_decide as E.
  - rewrite E, grow_fresh. apply grow_pte_new. apply PX_ok. lia.
  - destruct (table m root [PX 2 va; PX 1 va]) as [u|] eqn:Eu; [|done].
    destruct (grow_table_ne _ u Hq Eu) as [Hku Hur].
    rewrite grow_pte_old by (done || apply PX_ok; lia). rewrite decide_False; [done|].
    intros [E' _]. rewrite E' in Eu.
    pose proof (pt_inj _ _ _ Hinv _ _ _ Hp Hq Ht Eu) as Ep. pose proof Hlen as Hl.
    rewrite Ep in Hl. simpl in Hl. lia.
Qed.

Lemma grow_frame : pt_frame m m' root.
Proof.
  intros x Hx. destruct (grow_table_ne p t Hp Ht) as [Hkt Hne].
  rewrite Hm', store_out, !mem_fill_out; [done| | |].
  - apply Hx. exists (p ++ [i]). split; [by apply path_ok_snoc|].
    rewrite grow_table by (by apply path_ok_snoc). by rewrite decide_True.
  - apply Hx. exists (p ++ [i]). split; [by apply path_ok_snoc|].
    rewrite grow_table by (by apply path_ok_snoc). by rewrite decide_True.
  - intros Hx'. apply (Hx t); [|unfold px_ok, PGSIZE in *; lia]. exists p. split; [done|].
    rewrite grow_table by done. rewrite decide_False; [done|].
    intros E%(f_equal length). rewrite length_app in E. simpl in E. lia.
Qed.

Lemma grow_ptrs : ptrs 2 m root -> ptrs 2 m' root.
Proof.
  intros H q u j Hlq Hpx Hu Hj. assert (path_ok q) as Hq by (split; [lia|done]).
  rewrite grow_table in Hu by done. case_decide.
  - injection Hu as <-. by rewrite grow_pte_new.
  - destruct (grow_table_ne q u Hq Hu) as [Hku Hur]. rewrite grow_pte_old by done.
    case_decide; [intros _; by apply new_table_ptr|]. by apply (H q).
Qed.

Lemma grow_low : (p = [] -> i < 256) -> pt_low m root -> pt_low m' root.
Proof.
  intros Hroot H j Hj. destruct (grow_table_ne [] root path_ok_nil eq_refl) as [Hku Hur].
  rewrite grow_pte_old by (done || unfold px_ok; lia). rewrite decide_False; [by apply H|].
  intros [E ->]. pose proof Ht as Ht'. rewrite <- E in Ht'.
  rewrite (pt_inj _ _ _ Hinv p [] root Hp path_ok_nil Ht' eq_refl) in Hroot.
  specialize (Hroot eq_refl). lia.
Qed.

End Grow.

(** The effect of code that updates the page table [root]: the tree only grows,
    the translations afterwards are [f], memory changed only inside the tree,
    and every page taken from the free list became part of the tree. *)
Record evolves (root : Z) (s s' : kmem) (l l' : list Z) (f : Z -> Z) : Prop := {
  gr_kinv : kinv s' l';
  gr_pt : pt_inv (kmem_mem s') root l';
  gr_lookup : forall va, 0 <= va < MAXVA -> lookup_pte (kmem_mem s') root va = f va;
  gr_table : forall p t, path_ok p ->
    table (kmem_mem s) root p = Some t -> table (kmem_mem s') root p = Some t;
  gr_frame : pt_frame (kmem_mem s) (kmem_mem s') root;
  gr_taken : exists k, l = k ++ l' /\ Forall (is_table (kmem_mem s') root) k;
  gr_new : forall t, is_table (kmem_mem s') root t -> is_table (kmem_mem s) root t \/ t ∈ l;
  gr_count : forall q, kpage q -> ~ is_table (kmem_mem s') root q ->
    refcount s' (pageno q) = refcount s (pageno q);
  gr_ptrs : ptrs 2 (kmem_mem s) root -> ptrs 2 (kmem_mem s') root;
  gr_low : pt_low (kmem_mem s) root -> pt_low (kmem_mem s') root;
  gr_tcount : pt_count s root -> pt_count s' root
}.
#[local] Arguments gr_kinv {root s s' l l' f}.
#[local] Arguments gr_pt {root s s' l l' f}.
#[local] Arguments gr_lookup {root s s' l l' f}.
#[local] Arguments gr_table {root s s' l l' f}.
#[local] Arguments gr_frame {root s s' l l' f}.
#[local] Arguments gr_taken {root s s' l l' f}.
#[local] Arguments gr_new {root s s' l l' f}.
#[local] Arguments gr_count {root s s' l l' f}.

(** ... with unchanged translations. *)
Definition grows (root : Z) (s s' : kmem) (l l' : list Z) : Prop :=
  evolves root s s' l l' (lookup_pte (kmem_mem s) root).

Lemma grows_refl root s l : kinv s l -> pt_inv (kmem_mem s) root l -> grows root s s l l.
Proof. intros Hk Hp. split; try done; [by exists []|auto]. Qed.

Lemma evolves_is_table root s s' l l' f t :
  evolves root s s' l l' f -> is_table (kmem_mem s) root t -> is_table (kmem_mem s') root t.
Proof. intros G (p & Hp & Ht). exists p. split; [done|]. by apply (gr_table G). Qed.

Lemma evolves_trans root s1 s2 s3 l1 l2 l3 f g :
  evolves root s1 s2 l1 l2 f -> evolves root s2 s3 l2 l3 g -> evolves root s1 s3 l1 l3 g.
Proof.
  intros G1 G2. split; [apply G2|apply G2|apply G2| | | | | |by intros; apply G2, G1|by intros; apply G2, G1
         |by intros; apply G2, G1].
  - intros p t Hp Ht. by apply (gr_table G2), (gr_table G1).
  - intros x Hx. rewrite (gr_frame G2 x Hx). apply (gr_frame G1).
    intros t Ht. apply Hx. by apply (evolves_is_table _ _ _ _ _ _ t G2).
  - destruct (gr_taken G1) as (k1 & -> & Hk1).
    destruct (gr_taken G2) as (k2 & -> & Hk2).
    exists (k1 ++ k2). split; [by rewrite app_assoc|]. apply Forall_app. split; [|done].
    eapply Forall_impl; [done|]. intros t. by apply (evolves_is_table _ _ _ _ _ _ t G2).
  - intros t Ht. destruct (gr_new G2 t Ht) as [Ht2|Hin]; [by apply (gr_new G1)|right].
    destruct (gr_taken G1) as (k1 & -> & _). apply elem_of_app. by right.
  - intros q Hq Hnt. rewrite (gr_count G2) by done.
    apply (gr_count G1); [done|]. contradict Hnt.
    by apply (evolves_is_table _ _ _ _ _ _ q G2).
Qed.

Lemma evolves_ext root s s' l l' f g :
  (forall va, 0 <= va < MAXVA -> f va = g va) ->
  evolves root s s' l l' f -> evolves root s s' l l' g.
Proof. intros E [G1 G2 G3 G4 G5 G6 G7 G8 G9 G10 G11]. split; try done. intros. rewrite <- E by done. by apply G3. Qed.

Lemma grows_trans root s1 s2 s3 l1 l2 l3 :
  grows root s1 s2 l1 l2 -> grows root s2 s3 l2 l3 -> grows root s1 s3 l1 l3.
Proof.
  intros G1 G2. eapply evolves_ext; [|by eapply evolves_trans]. intros va Hva. apply (gr_lookup G1 va Hva).
Qed.

(** The state after [walk] hangs the fresh page [r] at the entry [a]. *)
Definition hung (s : kmem) (r a : Z) : kmem :=
  set_mem (alloced s r) (store64 (mem_fill (kmem_mem (alloced s r)) r 0 PGSIZE)
                                 a (Z.lor (PA2PTE r) PTE_V)).

Lemma hung_grows s l root p t i r :
  kinv s (r :: l) -> pt_inv (kmem_mem s) root (r :: l) ->
  path_ok p -> (length p <= 1)%nat -> px_ok i -> (p = [] -> i < 256) ->
  table (kmem_mem s) root p = Some t -> child (kmem_mem s) t i = None ->
  grows root s (hung s r (t + 8 * i)) (r :: l) l /\
  table (kmem_mem (hung s r (t + 8 * i))) root (p ++ [i]) = Some r.
Proof.
  intros Hk Hpt Hp Hlen Hi Hlow Ht Hc.
  assert (kpage r /\ (r ∉ l)) as [Hr Hrl].
  { destruct Hk as [_ (_ & Hr & _) Hn%NoDup_cons _ _]. by destruct Hn. }
  assert (Htab : forall q, path_ok q -> table (kmem_mem (hung s r (t + 8 * i))) root q =
    if decide (q = p ++ [i]) then Some r else table (kmem_mem s) root q)
    by exact (grow_table _ _ _ _ p t i r Hpt Hr Hrl Hp Hlen Hi Ht Hc eq_refl).
  assert (Hnew : is_table (kmem_mem (hung s r (t + 8 * i))) root r).
  { exists (p ++ [i]). split; [by apply path_ok_snoc|].
    rewrite (Htab (p ++ [i])) by (by apply path_ok_snoc). by rewrite decide_True. }
  destruct (pt_page _ _ _ Hpt p t Hp Ht) as [Hkt Htl].
  split; [split|].
  - apply (kinv_write_page Hlink
             (set_mem (alloced s r) (mem_fill (kmem_mem (alloced s r)) r 0 PGSIZE)) l t);
      [| |done|set_solver|].
    + apply (kinv_write_page Hlink (alloced s r) l r); [by apply kalloc_inv| |done|done|].
      * apply mem_fill_ok, mem_fill_ok, (kinv_bytes _ _ Hk).
      * apply writes_page_fill.
    + apply store_ok, mem_fill_ok, mem_fill_ok, (kinv_bytes _ _ Hk).
    + apply writes_page_store64; unfold px_ok, PGSIZE in *; lia.
  - by eapply grow_inv.
  - intros va Hva. by eapply grow_lookup.
  - intros q u Hq Hu. rewrite Htab by done. rewrite decide_False; [done|].
    intros ->. rewrite (grow_fresh _ _ p t i Ht Hc) in Hu. done.
  - by eapply grow_frame.
  - exists [r]. split; [done|]. by apply Forall_singleton.
  - intros u (q & Hq & Hu). rewrite Htab in Hu by done. case_decide.
    + injection Hu as <-. right. by left.
    + left. by exists q.
  - intros q Hq Hnt. simpl. destruct (Z.eqb_spec (pageno q) (pageno r)) as [E|]; [|done].
    apply (kpage_pageno_inj Hlink) in E; [|done|done]. by subst.
  - exact (grow_ptrs _ _ _ _ p t i r Hpt Hr Hrl Hp Hlen Hi Ht Hc eq_refl).
  - by eapply grow_low.
  - intros Hct u (q & Hq & Hu). rewrite Htab in Hu by done. simpl. case_decide.
    + injection Hu as <-. by rewrite Z.eqb_refl.
    + destruct (Z.eqb_spec (pageno u) (pageno r)); [done|]. apply Hct. by exists q.
  - rewrite (Htab (p ++ [i])) by (by apply path_ok_snoc). by rewrite decide_True.
Qed.

Lemma walk_loop_eq level rest t va e s :
  let v := pte_at (kmem_mem s) t (PX level va) in
  walk_loop (level :: rest) t va true e s =
    if pte_has v PTE_V then walk_loop rest (PTE2PA v) va true e s
    else (pt <- kalloc ;;
          if pt =? 0 then ret 0
          else fill_page pt 0 ;;
               write_pte (t + 8 * PX level va) (Z.lor (PA2PTE pt) PTE_V) ;;
               walk_loop rest pt va true) e s.
Proof.
  intros v. simpl walk_loop. unfold bind at 1, read_pte, gets. fold (pte_at (kmem_mem s) t (PX level va)).
  fold v. by destruct (pte_has v PTE_V).
Qed.

Lemma walk_loop_step e s l root p t level rest va :
  kfree_locks e -> (p = [] -> PX level va < 256) -> kinv s l -> pt_inv (kmem_mem s) root l ->
  path_ok p -> (length p <= 1)%nat -> 0 <= level -> table (kmem_mem s) root p = Some t ->
  exists s' l', grows root s s' l l' /\ (length l <= S (length l'))%nat /\
    ((l' = [] /\ walk_loop (level :: rest) t va true e s = Ret 0 e s') \/
     exists c, table (kmem_mem s') root (p ++ [PX level va]) = Some c /\
       walk_loop (level :: rest) t va true e s = walk_loop rest c va true e s').
Proof.
  intros Hl Hlow Hk Hpt Hp Hlen Hlev Ht. pose proof (PX_ok level va Hlev) as Hi.
  pose proof (walk_loop_eq level rest t va e s) as Eq. cbv zeta in Eq.
  destruct (pte_has (pte_at (kmem_mem s) t (PX level va)) PTE_V) eqn:Ev.
  - exists s, l. split; [by apply grows_refl|]. split; [lia|]. right.
    exists (PTE2PA (pte_at (kmem_mem s) t (PX level va))). split; [|done].
    rewrite table_snoc, Ht. unfold child. by rewrite Ev.
  - destruct l as [|r l].
    + exists s, []. split; [by apply grows_refl|]. split; [cbn; lia|]. left. split; [done|]. rewrite Eq.
      by rewrite (bind_step _ _ _ _ _ _ _ (kalloc_empty e s Hk Hl)).
    + assert (child (kmem_mem s) t (PX level va) = None) as Hc
        by (unfold child; by rewrite Ev).
      destruct (hung_grows s l root p t _ r Hk Hpt Hp Hlen Hi Hlow Ht Hc) as [G Hn].
      exists (hung s r (t + 8 * PX level va)), l. split; [done|]. split; [cbn; lia|]. right. exists r. split; [done|].
      rewrite Eq, (bind_step _ _ _ _ _ _ _ (kalloc_run Hlink e s r l Hk Hl)).
      rewrite (proj2 (Z.eqb_neq r 0))
        by (destruct Hk as [_ (_ & Hr & _) _ _ _]; pose proof (kpage_nonzero Hlink r Hr); lia).
      unfold fill_page, write_pte. by ksteps.
Qed.

Lemma PX2_low va : 0 <= va < MAXVA -> PX 2 va < 256.
Proof.
  intros H. rewrite PX_spec by lia. change MAXVA with (2 ^ 30 * 256) in H.
  change (2 ^ (12 + 9 * 2)) with (2 ^ 30). rewrite Z.mod_small; [apply Z.div_lt_upper_bound; lia|].
  split; [apply Z.div_pos; lia|]. apply Z.div_lt_upper_bound; lia.
Qed.

(** [walk] with allocation: either memory ran out, or the slot for [va] exists
    in the grown tree and its address is returned. *)
Lemma walk_alloc e s l root va :
  kfree_locks e -> kinv s l -> pt_inv (kmem_mem s) root l -> 0 <= va < MAXVA ->
  exists s' l' r, walk root va true e s = Ret r e s' /\ grows root s s' l l' /\ (length l <= length l' + 2)%nat /\
    ((r = 0 /\ l' = []) \/
     exists t, table (kmem_mem s') root [PX 2 va; PX 1 va] = Some t /\ r = t + 8 * PX 0 va).
Proof.
  intros Hl Hk Hpt Hva. unfold walk. rewrite (proj2 (Z.leb_gt _ _)) by lia.
  destruct (walk_loop_step e s l root [] root 2 [1] va Hl (fun _ => PX2_low va Hva) Hk Hpt path_ok_nil
              ltac:(simpl; lia) ltac:(lia) eq_refl)
    as (s1 & l1 & G1 & N1 & [[-> E1]|(c1 & Hc1 & E1)]).
  { exists s1, [], 0. cbn in N1. split; [done|]. split; [done|]. split; [cbn; lia|auto]. }
  assert (path_ok [PX 2 va]) as Hp1 by (apply path_ok_1, PX_ok; lia).
  destruct (walk_loop_step e s1 l1 root [PX 2 va] c1 1 [] va Hl ltac:(done) (gr_kinv G1)
              (gr_pt G1) Hp1 ltac:(simpl; lia) ltac:(lia) Hc1)
    as (s2 & l2 & G2 & N2 & [[-> E2]|(c2 & Hc2 & E2)]).
  { exists s2, [], 0. rewrite E1, E2. split; [done|]. split; [by eapply grows_trans|]. split; [cbn in *; lia|auto]. }
  exists s2, l2, (c2 + 8 * PX 0 va). rewrite E1, E2. split; [done|].
  split; [by eapply grows_trans|]. split; [lia|]. right. by exists c2.
Qed.

(** Writing the last-level entry of [va] changes the translation of its page and
    nothing else. *)
Section Leaf.
Context (m : mem) (root : Z) (l : list Z) (va t v : Z).
Context (Hinv : pt_inv m root l) (Hva : 0 <= va < MAXVA).
Context (Ht : table m root [PX 2 va; PX 1 va] = Some t).

Let m' := store64 m (t + 8 * PX 0 va) v.

Lemma leaf_path va' : path_ok [PX 2 va'; PX 1 va'].
Proof. apply path_ok_2; apply PX_ok; lia. Qed.

Lemma leaf_pte u j : kpage u -> px_ok j ->
  pte_at m' u j = if decide (u = t /\ j = PX 0 va) then v mod 2 ^ 64 else pte_at m u j.
Proof.
  intros Hu Hj. apply pte_at_store; try done; [|apply PX_ok; lia].
  apply (pt_page _ _ _ Hinv _ t (leaf_path va) Ht).
Qed.

Lemma leaf_table q : path_ok q -> table m' root q = table m root q.
Proof.
  apply table_ext. intros p u Hp Hlen Hu i Hi. unfold child.
  rewrite leaf_pte by (try done; apply (pt_page _ _ _ Hinv p u Hp Hu)).
  rewrite decide_False; [done|]. intros [-> _].
  rewrite (pt_inj _ _ _ Hinv p _ t Hp (leaf_path va) Hu Ht) in Hlen. simpl in Hlen. lia.
Qed.

Lemma leaf_inv : pt_inv m' root l.
Proof.
  split.
  - intros p u Hp. rewrite leaf_table by done. by apply (pt_page _ _ _ Hinv).
  - intros p q u Hp Hq. rewrite !leaf_table by done. by apply (pt_inj _ _ _ Hinv).
Qed.

Lemma leaf_lookup va' :
  0 <= va' < MAXVA ->
  lookup_pte m' root va' = if decide (vpn va' = vpn va) then v mod 2 ^ 64 else lookup_pte m root va'.
Proof.
  intros Hva'. unfold lookup_pte. rewrite leaf_table by apply leaf_path.
  destruct (table m root [PX 2 va'; PX 1 va']) as [u|] eqn:Eu.
  - rewrite leaf_pte; [|apply (pt_page _ _ _ Hinv _ u (leaf_path va') Eu)|apply PX_ok; lia].
    case_decide as E1; case_decide as E2; try done.
    + destruct E1 as [-> E1]. contradict E2.
      pose proof (pt_inj _ _ _ Hinv _ _ _ (leaf_path va') (leaf_path va) Eu Ht) as Ep.
      injection Ep as ? ?. by apply PX_inj.
    + contradict E1. rewrite !(PX_page _ va' va) in Eu by (lia || done).
      split; [congruence|]. by apply PX_page; [lia|].
  - case_decide as E; [|done]. rewrite !(PX_page _ va' va) in Eu by (lia || done). congruence.
Qed.

Lemma leaf_kpage : kpage t /\ (t ∉ l).
Proof. apply (pt_page _ _ _ Hinv _ t (leaf_path va) Ht). Qed.

End Leaf.

Lemma leaf_evolves s l root va t v :
  kinv s l -> pt_inv (kmem_mem s) root l -> 0 <= va < MAXVA ->
  table (kmem_mem s) root [PX 2 va; PX 1 va] = Some t ->
  evolves root s (set_mem s (store64 (kmem_mem s) (t + 8 * PX 0 va) v)) l l
    (fun va' => if decide (vpn va' = vpn va) then v mod 2 ^ 64
                else lookup_pte (kmem_mem s) root va').
Proof.
  intros Hk Hpt Hva Ht. destruct (leaf_kpage _ _ _ _ _ Hpt Ht) as [Hkt Htl].
  pose proof (PX_ok 0 va ltac:(lia)) as Hpx. split; simpl.
  - apply (kinv_write_page Hlink _ _ t); try done.
    + apply store_ok, (kinv_bytes _ _ Hk).
    + apply writes_page_store64; unfold px_ok, PGSIZE in *; lia.
  - by eapply leaf_inv.
  - intros. by eapply leaf_lookup.
  - intros. by erewrite leaf_table.
  - intros x Hx. apply store_out. intros Hx'. apply (Hx t).
    + exists [PX 2 va; PX 1 va]. split; [apply leaf_path|]. erewrite leaf_table; done || apply leaf_path.
    + unfold px_ok, PGSIZE in *. lia.
  - by exists [].
  - intros u (q & Hq & Hu). left. exists q. split; [done|].
    rewrite <- Hu. symmetry. by eapply leaf_table.
  - done.
  - intros H p u i Hlen Hp Hu Hi. assert (path_ok p) as Hpo by (split; [lia|done]).
    rewrite (leaf_table _ _ _ _ _ v Hpt Ht) in Hu by done.
    rewrite (leaf_pte _ _ _ _ _ v Hpt Ht) by (try done; apply (pt_page _ _ _ Hpt p u Hpo Hu)).
    rewrite decide_False; [by apply (H p)|]. intros [-> _].
    rewrite (pt_inj _ _ _ Hpt p _ t Hpo (leaf_path va) Hu Ht) in Hlen. simpl in Hlen. lia.
  - intros H i Hi.
    rewrite (leaf_pte _ _ _ _ _ v Hpt Ht)
      by (try (unfold px_ok; lia); apply (pt_page _ _ _ Hpt [] root path_ok_nil eq_refl)).
    rewrite decide_False; [by apply H|]. intros [E _]. rewrite <- E in Ht.
    by pose proof (pt_inj _ _ _ Hpt [] _ root path_ok_nil (leaf_path va) eq_refl Ht).
  - intros H u (p & Hp & Hu). apply H. exists p. split; [done|]. rewrite <- Hu. symmetry. by eapply leaf_table.
Qed.

(** The entry [mappages] writes. *)
Definition map_pte (pa perm : Z) : Z := Z.lor (Z.lor (PA2PTE pa) perm) PTE_V.

(** Translations after mapping [n] pages at [a] to the pages at [pa]. *)
Definition mapped (f : Z -> Z) (a n pa perm : Z) : Z -> Z :=
  fun va => if in_range a (n * PGSIZE) va
            then map_pte (pa + PGSIZE * ((va - a) / PGSIZE)) perm else f va.

Lemma map_pte_flags pa perm :
  0 <= perm < 1024 -> map_pte pa perm = Z.lor (PA2PTE pa) (Z.lor perm PTE_V) /\
  0 <= Z.lor perm PTE_V < 1024.
Proof.
  intros Hp. unfold map_pte. rewrite Z.lor_assoc. split; [done|]. change PTE_V with 1.
  split; [apply Z.lor_nonneg; lia|].
  destruct (Z.eq_dec (Z.lor perm 1) 0) as [->|Hne]; [lia|].
  apply (Z.log2_lt_cancel _ 1024). change (Z.log2 1024) with 10.
  rewrite Z.log2_lor by lia. change (Z.log2 1) with 0.
  destruct (Z.eq_dec perm 0) as [->|]; [simpl; lia|].
  pose proof (Z.log2_lt_pow2 perm 10). lia.
Qed.

Lemma map_pte_small pa perm :
  0 <= pa < 2 ^ 56 -> 0 <= perm < 1024 -> map_pte pa perm mod 2 ^ 64 = map_pte pa perm.
Proof.
  intros Hpa Hp. destruct (map_pte_flags pa perm Hp) as [-> Hf]. apply Z.mod_small.
  rewrite PTE_lor by lia. pose proof (Z.div_pos pa 4096).
  pose proof (Z.div_lt_upper_bound pa 4096 (2 ^ 44)). lia.
Qed.

Lemma map_pte_pa pa perm :
  page_aligned pa -> 0 <= pa < 2 ^ 56 -> 0 <= perm < 1024 -> PTE2PA (map_pte pa perm) = pa.
Proof.
  intros Ha Hpa Hp. destruct (map_pte_flags pa perm Hp) as [-> Hf]. by apply PTE2PA_PA2PTE.
Qed.

Lemma map_pte_bit pa perm i :
  0 <= pa < 2 ^ 56 -> 0 <= perm < 1024 -> 0 <= i < 10 ->
  Z.testbit (map_pte pa perm) i = Z.testbit perm i || (i =? 0).
Proof.
  intros Hpa Hp Hi. destruct (map_pte_flags pa perm Hp) as [-> Hf].
  rewrite PTE_bit by lia. rewrite Z.lor_spec. by destruct i as [|p|p]; [|destruct p|].
Qed.

Lemma vpn_aligned a va : page_aligned a -> vpn va = vpn a <-> a <= va < a + PGSIZE.
Proof.
  unfold page_aligned, vpn, PGSIZE. intros Ha.
  pose proof (Z.div_mod a 4096). pose proof (Z.div_mod va 4096).
  pose proof (Z.mod_pos_bound va 4096). split; intros; [lia|].
  assert (4096 * (va / 4096) < 4096 * (a / 4096) + 4096) by lia. lia.
Qed.

Lemma mapped_0 f a pa perm va : mapped f a 0 pa perm va = f va.
Proof. unfold mapped. by rewrite (proj2 (in_range_false _ _ _)) by lia. Qed.

Lemma mapped_in f a n pa perm va :
  a <= va < a + n * PGSIZE ->
  mapped f a n pa perm va = map_pte (pa + PGSIZE * ((va - a) / PGSIZE)) perm.
Proof. intros H. unfold mapped. by rewrite (proj2 (in_range_true _ _ _)). Qed.

Lemma mapped_out f a n pa perm va :
  ~ (a <= va < a + n * PGSIZE) -> mapped f a n pa perm va = f va.
Proof. intros H. unfold mapped. by rewrite (proj2 (in_range_false _ _ _)). Qed.

Lemma mapped_ext f g a n pa perm va :
  f va = g va -> mapped f a n pa perm va = mapped g a n pa perm va.
Proof. unfold mapped. by intros ->. Qed.

Lemma mapped_1 f a pa perm va :
  page_aligned a ->
  mapped f a 1 pa perm va = if decide (vpn va = vpn a) then map_pte pa perm else f va.
Proof.
  intros Ha. pose proof (vpn_aligned a va Ha) as Hv. unfold PGSIZE in Hv. case_decide as E.
  - rewrite mapped_in by (unfold PGSIZE; lia). f_equal.
    rewrite Z.div_small by (unfold PGSIZE; lia). lia.
  - rewrite mapped_out; [done|]. intros ?. apply E, Hv. unfold PGSIZE in *. lia.
Qed.

Lemma mapped_app f a n pa perm va :
  0 <= n ->
  mapped (mapped f a 1 pa perm) (a + PGSIZE) n (pa + PGSIZE) perm va
  = mapped f a (n + 1) pa perm va.
Proof.
  intros Hn. unfold PGSIZE in *.
  destruct (in_range (a + 4096) (n * 4096) va) eqn:E1;
    [apply in_range_true in E1|apply in_range_false in E1].
  - rewrite mapped_in, mapped_in by (unfold PGSIZE; lia). f_equal. unfold PGSIZE.
    replace (va - a) with (va - (a + 4096) + 1 * 4096) by lia. rewrite Z.div_add by lia. lia.
  - rewrite mapped_out by (unfold PGSIZE; lia).
    destruct (in_range a 4096 va) eqn:E2;
      [apply in_range_true in E2; rewrite !mapped_in by (unfold PGSIZE; lia); done
      |apply in_range_false in E2; rewrite !mapped_out by (unfold PGSIZE; lia); done].
Qed.

(** What [mappages] returns and does: all pages mapped, or the free list ran
    out after mapping some prefix. *)
Definition mappages_post (root a n pa perm : Z) (s : kmem) (l : list Z)
    (r : Z) (s' : kmem) (l' : list Z) : Prop :=
  exists k, evolves root s s' l l' (mapped (lookup_pte (kmem_mem s) root) a k pa perm) /\
    ((r = 0 /\ k = n) \/ (r = -1 /\ l' = [] /\ 0 <= k < n)).

(** One iteration of [mappages]: out of memory, or the page is mapped and the
    loop goes on with [k]. *)
Lemma map_one e root s l a pa perm (k : K kmem Z) :
  kfree_locks e -> 0 <= perm < 1024 -> kinv s l -> pt_inv (kmem_mem s) root l ->
  page_aligned a -> 0 <= a < MAXVA -> 0 <= pa < 2 ^ 56 ->
  pte_has (lookup_pte (kmem_mem s) root a) PTE_V = false ->
  let code :=
    (pte <- walk root a true ;;
     if pte =? 0 then ret (-1)
     else v <- read_pte pte ;;
          if pte_has v PTE_V then panic "mappages: remap"
          else write_pte pte (map_pte pa perm) ;; k) e s in
  (exists s', code = Ret (-1) e s' /\ grows root s s' l [] /\ (length l <= 2)%nat) \/
  (exists s' l', code = k e s' /\ (length l <= length l' + 2)%nat /\
     evolves root s s' l l' (mapped (lookup_pte (kmem_mem s) root) a 1 pa perm)).
Proof.
  intros Hl Hperm Hk Hpt Ha Ha0 Hpa Hv code.
  destruct (walk_alloc e s l root a) as (s1 & l1 & r1 & Hw & G1 & N1 & Hr1); try done.
  unfold code. rewrite (bind_step _ _ _ _ _ _ _ Hw).
  destruct Hr1 as [[-> ->]|(t & Ht & ->)]; [left; exists s1; by cbn in N1; split_and!|].
  right. destruct (leaf_kpage _ _ _ _ _ (gr_pt G1) Ht) as [Hkt _].
  pose proof (kpage_nonzero Hlink t Hkt). pose proof (PX_ok 0 a ltac:(lia)) as Hpx.
  rewrite (proj2 (Z.eqb_neq _ _)) by (unfold px_ok in Hpx; lia).
  pose proof (gr_lookup G1 a Ha0) as Hlk. unfold lookup_pte at 1 in Hlk. rewrite Ht in Hlk.
  unfold read_pte. kstep. fold (pte_at (kmem_mem s1) t (PX 0 a)). rewrite Hlk, Hv.
  unfold write_pte. kstep.
  eexists _, l1. split; [done|]. split; [done|]. eapply evolves_ext; [|eapply evolves_trans; [apply G1|]].
  2: { apply leaf_evolves; [apply G1|apply G1|done|done]. }
  intros va Hva. rewrite mapped_1 by done. simpl. case_decide; [by apply map_pte_small|].
  apply (gr_lookup G1 va Hva).
Qed.

Lemma mappages_loop_S f root a last pa perm :
  mappages_loop (S f) root a last pa perm =
    (pte <- walk root a true ;;
     if pte =? 0 then ret (-1)
     else v <- read_pte pte ;;
          if pte_has v PTE_V then panic "mappages: remap"
          else write_pte pte (map_pte pa perm) ;;
               if a =? last then ret 0
               else mappages_loop f root (u64 (a + PGSIZE)) last (u64 (pa + PGSIZE)) perm).
Proof. done. Qed.

Lemma mappages_loop_run e root perm :
  kfree_locks e -> 0 <= perm < 1024 -> forall n a pa s l,
  kinv s l -> pt_inv (kmem_mem s) root l ->
  page_aligned a -> 0 <= a -> a + Z.of_nat (S n) * PGSIZE <= MAXVA ->
  0 <= pa -> pa + Z.of_nat (S n) * PGSIZE <= 2 ^ 56 ->
  (forall va, a <= va < a + Z.of_nat (S n) * PGSIZE ->
     pte_has (lookup_pte (kmem_mem s) root va) PTE_V = false) ->
  exists r s' l',
    mappages_loop (S n) root a (a + Z.of_nat n * PGSIZE) pa perm e s = Ret r e s' /\
    mappages_post root a (Z.of_nat (S n)) pa perm s l r s' l' /\ (length l <= length l' + 2 * S n)%nat.
Proof.
  intros Hl Hperm. change MAXVA with (2 ^ 38).
  induction n as [|n IH]; intros a pa s l Hk Hpt Ha Ha0 Ha1 Hp0 Hp1 Hunm;
    rewrite mappages_loop_S;
    (edestruct (map_one e root s l a pa perm) as [(s1 & -> & G & N)|(s1 & l1 & -> & N & G)];
     [done|done|done|done|done|change MAXVA with (2 ^ 38); unfold PGSIZE in *; lia
     |unfold PGSIZE in *; lia|apply Hunm; unfold PGSIZE in *; lia| |]).
  1, 3: exists (-1), s1, []; split; [done|]; split; [|cbn in *; lia]; exists 0; split; [|right; split; [done|split; [done|lia]]];
    eapply evolves_ext; [|apply G]; intros; by rewrite mapped_0.
  - exists 0, s1, l1. rewrite (proj2 (Z.eqb_eq _ _)) by (simpl; lia). split; [done|].
    split; [|lia]. exists 1. auto.
  - rewrite (proj2 (Z.eqb_neq _ _)) by (unfold PGSIZE in *; lia).
    rewrite !uint_wrap_small by (unfold PGSIZE in *; lia).
    replace (a + Z.of_nat (S n) * PGSIZE) with ((a + PGSIZE) + Z.of_nat n * PGSIZE)
      by (unfold PGSIZE; lia).
    destruct (IH (a + PGSIZE) (pa + PGSIZE) s1 l1) as (r & s2 & l2 & -> & (k & G2 & Hk2) & N2);
      [apply G|apply G|by apply aligned_add|unfold PGSIZE in *; lia..| |].
    + intros va Hva. rewrite (gr_lookup G) by (change MAXVA with (2 ^ 38); unfold PGSIZE in *; lia).
      rewrite mapped_out by (unfold PGSIZE in *; lia). apply Hunm. unfold PGSIZE in *. lia.
    + exists r, s2, l2. split; [done|]. split; [|lia]. exists (k + 1).
      split; [|destruct Hk2 as [[-> ->]|(-> & -> & ?)]; [left|right]; repeat split; lia].
      eapply evolves_ext; [|by eapply evolves_trans]. intros va Hva.
      rewrite <- mapped_app by (destruct Hk2 as [?|?]; lia).
      apply mapped_ext, (gr_lookup G va Hva).
Qed.

(** [mappages] on a page-aligned range that is not mapped yet: it takes at most
    two pages from the free list for each page it maps. *)
Lemma mappages_run_len e root s l a n pa perm :
  kfree_locks e -> 0 <= perm < 1024 -> kinv s l -> pt_inv (kmem_mem s) root l ->
  page_aligned a -> 0 <= a -> 0 < n -> a + n * PGSIZE <= MAXVA ->
  0 <= pa -> pa + n * PGSIZE <= 2 ^ 56 ->
  (forall va, a <= va < a + n * PGSIZE ->
     pte_has (lookup_pte (kmem_mem s) root va) PTE_V = false) ->
  exists r s' l', mappages root a (n * PGSIZE) pa perm e s = Ret r e s' /\
    mappages_post root a n pa perm s l r s' l' /\ Z.of_nat (length l) <= Z.of_nat (length l') + 2 * n.
Proof.
  intros Hl Hperm Hk Hpt Ha Ha0 Hn Ha1 Hp0 Hp1 Hunm. unfold mappages.
  rewrite Ha. rewrite Z_mod_mult. simpl negb.
  rewrite (proj2 (Z.eqb_neq (n * PGSIZE) 0)) by (unfold PGSIZE; lia).
  rewrite Z_div_mult by (unfold PGSIZE; lia).
  destruct (Z.to_nat n) as [|n'] eqn:En; [lia|].
  replace n with (Z.of_nat (S n')) in * by lia.
  rewrite uint_wrap_small by (change MAXVA with (2 ^ 38) in *; unfold PGSIZE in *; lia).
  replace (a + Z.of_nat (S n') * PGSIZE - PGSIZE) with (a + Z.of_nat n' * PGSIZE)
    by (unfold PGSIZE; lia).
  destruct (mappages_loop_run e root perm Hl Hperm n' a pa s l) as (r & s' & l' & E & Hpost & N); try done.
  exists r, s', l'. split; [done|]. split; [done|lia].
Qed.

Lemma mappages_run e root s l a n pa perm :
  kfree_locks e -> 0 <= perm < 1024 -> kinv s l -> pt_inv (kmem_mem s) root l ->
  page_aligned a -> 0 <= a -> 0 < n -> a + n * PGSIZE <= MAXVA ->
  0 <= pa -> pa + n * PGSIZE <= 2 ^ 56 ->
  (forall va, a <= va < a + n * PGSIZE ->
     pte_has (lookup_pte (kmem_mem s) root va) PTE_V = false) ->
  exists r s' l', mappages root a (n * PGSIZE) pa perm e s = Ret r e s' /\
    mappages_post root a n pa perm s l r s' l'.
Proof.
  intros Hl Hperm Hk Hpt Ha Ha0 Hn Ha1 Hp0 Hp1 Hunm.
  destruct (mappages_run_len e root s l a n pa perm) as (r & s' & l' & E & Hpost & _); try done. by exists r, s', l'.
Qed.

End Vm.
