(* ===== verification/VmUser.v ===== *)
(** * User address spaces

    Lemmas and properties of the routines of kernel/vm.c that build, shrink,
    copy and tear down user memory ([uvmunmap], [uvmalloc], [uvmdealloc],
    [uvmcopy], [vmfault]) and move data across the user/kernel boundary
    ([walkaddr], [copyout], [copyin]).

    [uinv s root l B] is the ownership invariant of the user part [0, B) of an
    address space: every valid entry below [B] refers to an allocated page that
    is not a page-table page, is referenced once, and is not mapped twice. *)

From stdpp Require Import base gmap sets list strings.
From Stdlib Require Import ZArith Lia.
From S2P Require Import Prelude Kernel Riscv Kalloc Vm.

Section VmUser.
Context {L : Linker} (Hlink : linker_ok).

(** ** Specification *)

(** The translation of [va] is valid, and the page it names. *)
Definition valid_at (m : mem) (root va : Z) : bool := pte_has (lookup_pte m root va) PTE_V.
Definition page_at (m : mem) (root va : Z) : Z := PTE2PA (lookup_pte m root va).

Record uinv (s : kmem) (root : Z) (l : list Z) (B : Z) : Prop := {
  ui_page : forall va, 0 <= va < B -> valid_at (kmem_mem s) root va = true ->
    kpage (page_at (kmem_mem s) root va) /\ (page_at (kmem_mem s) root va ∉ l) /\
    ~ is_table (kmem_mem s) root (page_at (kmem_mem s) root va);
  ui_ref : forall va, 0 <= va < B -> valid_at (kmem_mem s) root va = true ->
    refcount s (pageno (page_at (kmem_mem s) root va)) = 1;
  ui_inj : forall va va', 0 <= va < B -> 0 <= va' < B ->
    valid_at (kmem_mem s) root va = true -> valid_at (kmem_mem s) root va' = true ->
    page_at (kmem_mem s) root va = page_at (kmem_mem s) root va' -> vpn va = vpn va'
}.

(** Translations after unmapping [n] pages at [a]. *)
Definition unmapped (f : Z -> Z) (a n : Z) : Z -> Z :=
  fun va => if in_range a (n * PGSIZE) va && pte_has (f va) PTE_V then 0 else f va.

(** ** Lemmas *)

Lemma lookup_pte_page m root va va' :
  vpn va = vpn va' -> lookup_pte m root va = lookup_pte m root va'.
Proof.
  intros E. unfold lookup_pte.
  by rewrite (PX_page 2 va va'), (PX_page 1 va va'), (PX_page 0 va va') by (lia || done).
Qed.

Lemma lookup_pte_ext m m' root :
  (forall p t, path_ok p -> table m root p = Some t ->
     forall x, t <= x < t + PGSIZE -> m' x = m x) ->
  (forall p, path_ok p -> table m' root p = table m root p) /\
  (forall va, lookup_pte m' root va = lookup_pte m root va).
Proof.
  intros H.
  assert (Ht : forall p, path_ok p -> table m' root p = table m root p).
  { apply table_ext. intros p t Hp _ Et i Hi. unfold child.
    by rewrite (pte_at_page m m') by (done || by apply (H p)). }
  split; [done|]. intros va. unfold lookup_pte. rewrite Ht by apply leaf_path.
  destruct (table m root [PX 2 va; PX 1 va]) as [t|] eqn:Et; [|done].
  apply pte_at_page; [apply PX_ok; lia|]. by apply (H _ t (leaf_path va)).
Qed.

(** Writing a page that is not part of the tree. *)
Lemma lookup_pte_other m m' root l q :
  pt_inv m root l -> kpage q -> ~ is_table m root q -> writes_page q m m' ->
  (forall p, path_ok p -> table m' root p = table m root p) /\
  (forall va, lookup_pte m' root va = lookup_pte m root va).
Proof.
  intros Hpt Hq Hnt Hw. apply lookup_pte_ext. intros p t Hp Ht x Hx. apply Hw.
  destruct (pt_page _ _ _ Hpt p t Hp Ht) as [Hkt _].
  assert (t <> q) as Hne by (intros ->; apply Hnt; by exists p).
  destruct (kpage_disjoint Hlink t q Hkt Hq Hne); lia.
Qed.

Lemma pt_inv_tables m m' root l l' :
  (forall p, path_ok p -> table m' root p = table m root p) ->
  (forall t, is_table m root t -> t ∉ l') ->
  pt_inv m root l -> pt_inv m' root l'.
Proof.
  intros Ht Hl [H1 H2]. split.
  - intros p t Hp. rewrite Ht by done. intros Et. split; [by apply (H1 p t)|].
    apply Hl. by exists p.
  - intros p q t Hp Hq. rewrite !Ht by done. by apply H2.
Qed.

Lemma is_table_ext m m' root t :
  (forall p, path_ok p -> table m' root p = table m root p) ->
  is_table m' root t <-> is_table m root t.
Proof.
  intros Ht. split; intros (p & Hp & Et); exists p; (split; [done|]);
    [by rewrite <- Ht|by rewrite Ht].
Qed.

(** ** uvmunmap *)

(** The state after the page of [va] is freed and its entry cleared. *)
Definition dropped (s : kmem) (q a : Z) : kmem :=
  set_mem (freed s q) (store64 (kmem_mem (freed s q)) a 0).

Record drop_post (root B : Z) (s s' : kmem) (l l' : list Z) (f : Z -> Z) : Prop := {
  dp_kinv : kinv s' l';
  dp_table : forall p, path_ok p -> table (kmem_mem s') root p = table (kmem_mem s) root p;
  dp_pt : pt_inv (kmem_mem s') root l';
  dp_uinv : uinv s' root l' B;
  dp_lookup : forall va, 0 <= va < MAXVA -> lookup_pte (kmem_mem s') root va = f va;
  dp_sub : forall va, 0 <= va < MAXVA -> f va = 0 \/ f va = lookup_pte (kmem_mem s) root va;
  dp_free : forall q, q ∈ l' -> q ∈ l \/
    exists va, 0 <= va < B /\ valid_at (kmem_mem s) root va = true /\ f va = 0 /\
               q = page_at (kmem_mem s) root va;
  dp_gain : forall va, 0 <= va < B -> valid_at (kmem_mem s) root va = true -> f va = 0 ->
    page_at (kmem_mem s) root va ∈ l';
  dp_keep : forall q, q ∈ l -> q ∈ l';
  dp_mem : forall x, (forall q, q ∈ l' -> q ∉ l -> ~ (q <= x < q + PGSIZE)) ->
    (forall t, is_table (kmem_mem s) root t -> ~ (t <= x < t + PGSIZE)) ->
    kmem_mem s' x = kmem_mem s x;
  dp_count : forall q, kpage q -> q ∉ l' -> refcount s' (pageno q) = refcount s (pageno q);
  dp_upper : forall p t i, path_ok p -> (length p <= 1)%nat -> table (kmem_mem s) root p = Some t ->
    px_ok i -> pte_at (kmem_mem s') t i = pte_at (kmem_mem s) t i
}.

#[local] Arguments dp_kinv {root B s s' l l' f}.
#[local] Arguments dp_table {root B s s' l l' f}.
#[local] Arguments dp_pt {root B s s' l l' f}.
#[local] Arguments dp_uinv {root B s s' l l' f}.
#[local] Arguments dp_lookup {root B s s' l l' f}.
#[local] Arguments dp_sub {root B s s' l l' f}.
#[local] Arguments dp_free {root B s s' l l' f}.
#[local] Arguments dp_gain {root B s s' l l' f}.
#[local] Arguments dp_keep {root B s s' l l' f}.
#[local] Arguments dp_mem {root B s s' l l' f}.
#[local] Arguments dp_count {root B s s' l l' f}.
#[local] Arguments dp_upper {root B s s' l l' f}.

Lemma valid_nonzero v : pte_has v PTE_V = true -> v <> 0.
Proof. intros H ->. done. Qed.

Lemma drop_post_refl root B s l :
  kinv s l -> pt_inv (kmem_mem s) root l -> uinv s root l B ->
  drop_post root B s s l l (lookup_pte (kmem_mem s) root).
Proof.
  intros Hk Hp Hu. split; try done; auto. intros va _ Hv E. by destruct (valid_nonzero _ Hv).
Qed.

Lemma drop_post_ext root B s s' l l' f g :
  (forall va, 0 <= va < MAXVA -> f va = g va) -> B <= MAXVA ->
  drop_post root B s s' l l' f -> drop_post root B s s' l l' g.
Proof.
  intros E HB [H1 H2 H3 H4 H5 H6 H7 H8 H9 H10 H11 H12]. split; try done.
  - intros va Hva. rewrite <- E by done. by apply H5.
  - intros va Hva. rewrite <- E by done. by apply H6.
  - intros q Hq. destruct (H7 q Hq) as [?|(va & Hva & Hv & Hf & ->)]; [by left|right].
    exists va. rewrite <- E by lia. auto.
  - intros va Hva Hv. rewrite <- E by lia. by apply H8.
Qed.

Lemma drop_post_trans root B s1 s2 s3 l1 l2 l3 f g :
  B <= MAXVA -> drop_post root B s1 s2 l1 l2 f -> drop_post root B s2 s3 l2 l3 g ->
  drop_post root B s1 s3 l1 l3 g.
Proof.
  intros HB D1 D2.
  assert (Hback : forall va, 0 <= va < MAXVA -> lookup_pte (kmem_mem s2) root va = 0 \/
            lookup_pte (kmem_mem s2) root va = lookup_pte (kmem_mem s1) root va).
  { intros va Hva. rewrite (dp_lookup D1) by done. by apply (dp_sub D1). }
  split; [apply D2| |apply D2|apply D2|apply D2| | | | | | |].
  - intros p Hp. by rewrite (dp_table D2), (dp_table D1).
  - intros va Hva. destruct (dp_sub D2 va Hva) as [|Eg]; [by left|].
    destruct (Hback va Hva) as [E|E]; rewrite E in Eg; auto.
  - intros q Hq. destruct (dp_free D2 q Hq) as [Hq1|(va & Hva & Hv & Hg & ->)].
    + destruct (dp_free D1 q Hq1) as [?|(va & Hva & Hv & Hf & ->)]; [by left|right].
      exists va. split; [done|split; [done|split; [|done]]].
      destruct (dp_sub D2 va ltac:(lia)) as [|Eg]; [done|].
      by rewrite Eg, (dp_lookup D1) by lia.
    + right. destruct (Hback va ltac:(lia)) as [E|E].
      * unfold valid_at in Hv. rewrite E in Hv. done.
      * exists va. unfold valid_at, page_at in *. rewrite E in *. auto.
  - intros va Hva Hv Hg. destruct (Hback va ltac:(lia)) as [E|E].
    + apply (dp_keep D2), (dp_gain D1); [done|done|]. by rewrite <- (dp_lookup D1) by lia.
    + unfold valid_at, page_at in *. rewrite <- E in Hv |- *. by apply (dp_gain D2).
  - intros q Hq. by apply (dp_keep D2), (dp_keep D1).
  - intros x Hx Ht. rewrite (dp_mem D2), (dp_mem D1); [done| |done| |].
    + intros q Hq Hn. apply Hx; [by apply (dp_keep D2)|done].
    + intros q Hq Hn. apply Hx; [done|]. contradict Hn. by apply (dp_keep D1).
    + intros t Htt. apply Ht. by apply (is_table_ext _ _ _ _ (dp_table D1)).
  - intros q Hq Hn. rewrite (dp_count D2), (dp_count D1); try done.
    contradict Hn. by apply (dp_keep D2).
  - intros p t i Hp Hlen Et Hi. rewrite (dp_upper D2 p t i), (dp_upper D1 p t i); try done.
    by rewrite (dp_table D1).
Qed.

(** Freeing one mapped page and clearing its entry. *)
Lemma drop_one root B s l a t :
  kinv s l -> pt_inv (kmem_mem s) root l -> uinv s root l B -> B <= MAXVA ->
  page_aligned a -> 0 <= a < B -> valid_at (kmem_mem s) root a = true ->
  table (kmem_mem s) root [PX 2 a; PX 1 a] = Some t ->
  let q := page_at (kmem_mem s) root a in
  drop_post root B s (dropped s q (t + 8 * PX 0 a)) l (q :: l)
    (unmapped (lookup_pte (kmem_mem s) root) a 1).
Proof.
  intros Hk Hpt Hu HB Ha Ha0 Hv Ht q.
  destruct (ui_page _ _ _ _ Hu a Ha0 Hv) as (Hq & Hql & Hqt). fold q in Hq, Hql, Hqt.
  destruct (leaf_kpage _ _ _ _ _ Hpt Ht) as [Hkt Htl].
  assert (Htq : t <> q) by (intros E; apply Hqt; rewrite <- E; exists [PX 2 a; PX 1 a];
                            split; [apply leaf_path|done]).
  pose proof (PX_ok 0 a ltac:(lia)) as Hpx.
  assert (Hw : writes_page q (kmem_mem s) (kmem_mem (freed s q))).
  { eapply writes_page_trans; [apply writes_page_fill|].
    apply writes_page_store64; unfold PGSIZE; lia. }
  destruct (lookup_pte_other _ _ root l q Hpt Hq Hqt Hw) as [Htab1 Hlk1].
  assert (Hpt1 : pt_inv (kmem_mem (freed s q)) root (q :: l)).
  { apply (pt_inv_tables (kmem_mem s) _ root l _ Htab1); [|done]. intros u Hut Hin.
    apply elem_of_cons in Hin as [->|Hin]; [done|]. destruct Hut as (p & Hp & Eu).
    by destruct (pt_page _ _ _ Hpt p u Hp Eu). }
  assert (Ht1 : table (kmem_mem (freed s q)) root [PX 2 a; PX 1 a] = Some t)
    by (rewrite Htab1 by apply leaf_path; done).
  pose proof (leaf_evolves Hlink (freed s q) (q :: l) root a t 0
                (kfree_last_inv Hlink s l q Hk Hq Hql) Hpt1 ltac:(lia) Ht1) as G.
  fold (dropped s q (t + 8 * PX 0 a)) in G. set (s' := dropped s q (t + 8 * PX 0 a)) in *.
  assert (Htab : forall p, path_ok p -> table (kmem_mem s') root p = table (kmem_mem s) root p).
  { intros p Hp. rewrite <- Htab1 by done. by apply (leaf_table Hlink _ root (q :: l) a t 0). }
  assert (Hlk : forall va, 0 <= va < MAXVA ->
            lookup_pte (kmem_mem s') root va = unmapped (lookup_pte (kmem_mem s) root) a 1 va).
  { intros va Hva. rewrite (gr_lookup _ _ _ _ _ _ G va Hva), Hlk1. unfold unmapped.
    rewrite Z.mul_1_l. pose proof (vpn_aligned a va Ha) as Hvp.
    destruct (in_range a PGSIZE va) eqn:Er;
      [apply in_range_true in Er|apply in_range_false in Er].
    - rewrite decide_True by (by apply Hvp). rewrite (lookup_pte_page _ _ va a) by (by apply Hvp).
      unfold valid_at in Hv. by rewrite Hv.
    - rewrite decide_False by (rewrite Hvp; done). done. }
  assert (Hcase : forall va, 0 <= va < B -> valid_at (kmem_mem s') root va = true ->
            vpn va <> vpn a /\ lookup_pte (kmem_mem s') root va = lookup_pte (kmem_mem s) root va).
  { intros va Hva Hv'. unfold valid_at in Hv'.
    rewrite (gr_lookup _ _ _ _ _ _ G va ltac:(lia)), Hlk1 in Hv' |- *.
    case_decide; [done|]. done. }
  split; try done; [apply G|apply G| |..].
  - split.
    + intros va Hva Hv'. destruct (Hcase va Hva Hv') as [Hne E].
      unfold valid_at, page_at in *. rewrite E in *.
      destruct (ui_page _ _ _ _ Hu va Hva Hv') as (H1 & H2 & H3).
      split; [done|]. split.
      * intros [Eq|?]%elem_of_cons; [|done]. apply Hne. by apply (ui_inj _ _ _ _ Hu).
      * by rewrite (is_table_ext _ _ _ _ Htab).
    + intros va Hva Hv'. destruct (Hcase va Hva Hv') as [Hne E].
      unfold valid_at, page_at in *. rewrite E in *.
      destruct (ui_page _ _ _ _ Hu va Hva Hv') as (H1 & _).
      simpl. destruct (Z.eqb_spec (pageno (PTE2PA (lookup_pte (kmem_mem s) root va))) (pageno q)) as [Eq|].
      * apply (kpage_pageno_inj Hlink) in Eq; [|done|done].
        destruct Hne. by apply (ui_inj _ _ _ _ Hu).
      * by apply (ui_ref _ _ _ _ Hu).
    + intros va va' Hva Hva' Hv1 Hv2. destruct (Hcase va Hva Hv1) as [_ E1].
      destruct (Hcase va' Hva' Hv2) as [_ E2]. unfold valid_at, page_at in *.
      rewrite E1, E2 in *. by apply (ui_inj _ _ _ _ Hu).
  - intros va _. unfold unmapped. destruct (_ && _); auto.
  - intros u [->|Hin]%elem_of_cons; [right|by left]. exists a. split; [done|split; [done|split; [|done]]].
    unfold unmapped. rewrite (proj2 (in_range_true _ _ _)) by (unfold PGSIZE; lia).
    unfold valid_at in Hv. by rewrite Hv.
  - intros va Hva Hva'. unfold unmapped. destruct (in_range a (1 * PGSIZE) va) eqn:Er; simpl.
    + apply in_range_true in Er. rewrite Z.mul_1_l in Er. apply (vpn_aligned a va Ha) in Er.
      intros _. unfold page_at. rewrite (lookup_pte_page _ _ va a Er). by left.
    + intros E. by destruct (valid_nonzero _ Hva').
  - intros u Hin. apply elem_of_cons. by right.
  - intros x Hx Hxt. unfold s', dropped. simpl. rewrite store_out.
    + apply Hw. apply Hx; [by left|done].
    + intros Hx'. apply (Hxt t); [exists [PX 2 a; PX 1 a]; split; [apply leaf_path|done]|].
      unfold px_ok, PGSIZE in *. lia.
  - intros u Hku Hn. simpl. destruct (Z.eqb_spec (pageno u) (pageno q)) as [Eq|]; [|done].
    apply (kpage_pageno_inj Hlink) in Eq; [|done|done]. subst u. contradict Hn. by left.
  - intros p u i Hp Hlen Eu Hi. destruct (pt_page _ _ _ Hpt p u Hp Eu) as [Hku _].
    unfold s', dropped. cbn [kmem_mem set_mem]. rewrite (leaf_pte Hlink _ _ _ _ _ _ Hpt1 Ht1) by done.
    rewrite decide_False.
    + apply pte_at_page; [done|]. intros x Hx. apply Hw. intros Hqx. apply Hqt.
      destruct (Z.eq_dec u q) as [<-|Hne]; [by exists p|].
      destruct (kpage_disjoint Hlink u q Hku Hq Hne); lia.
    + intros [-> _]. rewrite (pt_inj _ _ _ Hpt _ _ _ Hp (leaf_path a) Eu Ht) in Hlen. simpl in Hlen. lia.
Qed.

Lemma unmapped_0 f a va : unmapped f a 0 va = f va.
Proof. unfold unmapped. by rewrite (proj2 (in_range_false _ _ _)) by lia. Qed.

Lemma unmapped_ext f g a n va : f va = g va -> unmapped f a n va = unmapped g a n va.
Proof. unfold unmapped. by intros ->. Qed.

Lemma unmapped_out f a n va : ~ (a <= va < a + n * PGSIZE) -> unmapped f a n va = f va.
Proof. intros H. unfold unmapped. by rewrite (proj2 (in_range_false _ _ _)). Qed.

Lemma unmapped_invalid f a n va :
  a <= va < a + n * PGSIZE -> pte_has (unmapped f a n va) PTE_V = false.
Proof.
  intros H. unfold unmapped. rewrite (proj2 (in_range_true _ _ _)) by done. simpl.
  by destruct (pte_has (f va) PTE_V) eqn:E.
Qed.

Lemma unmapped_app f a n va :
  0 <= n -> unmapped (unmapped f a 1) (a + PGSIZE) n va = unmapped f a (n + 1) va.
Proof.
  intros Hn. unfold unmapped.
  destruct (in_range a (1 * PGSIZE) va) eqn:E1, (in_range (a + PGSIZE) (n * PGSIZE) va) eqn:E2,
    (in_range a ((n + 1) * PGSIZE) va) eqn:E3;
    rewrite ?in_range_true, ?in_range_false in *; unfold PGSIZE in *; try lia; simpl;
    destruct (pte_has (f va) PTE_V) eqn:E; simpl; rewrite ?E; done.
Qed.

(** A page without a valid translation: unmapping it changes nothing. *)
Lemma unmapped_none m root a va :
  page_aligned a -> valid_at m root a = false ->
  lookup_pte m root va = unmapped (lookup_pte m root) a 1 va.
Proof.
  intros Ha Hv. unfold unmapped. destruct (in_range a (1 * PGSIZE) va) eqn:E; [|done].
  apply in_range_true in E. rewrite Z.mul_1_l in E. apply (vpn_aligned a va Ha) in E.
  unfold valid_at in Hv. simpl. rewrite (lookup_pte_page m root va a E). by rewrite Hv.
Qed.

(** One iteration of the loop of [uvmunmap]. *)
Lemma uvmunmap_step e root B s l n a stop :
  kfree_locks e -> kinv s l -> pt_inv (kmem_mem s) root l -> uinv s root l B -> B <= MAXVA ->
  page_aligned a -> 0 <= a -> a < stop -> a < B ->
  exists s' l',
    uvmunmap_loop (S n) root a stop true e s
    = uvmunmap_loop n root (u64 (a + PGSIZE)) stop true e s' /\
    drop_post root B s s' l l' (unmapped (lookup_pte (kmem_mem s) root) a 1).
Proof.
  intros Hl Hk Hpt Hu HB Ha Ha0 Hst HaB. simpl uvmunmap_loop.
  rewrite (proj2 (Z.ltb_lt a stop)) by done.
  rewrite (bind_step _ _ _ _ _ _ _ (walk_lookup e s root a ltac:(lia))).
  assert (Hskip : valid_at (kmem_mem s) root a = false ->
            drop_post root B s s l l (unmapped (lookup_pte (kmem_mem s) root) a 1)).
  { intros Hv. eapply drop_post_ext; [|done|by apply drop_post_refl].
    intros va _. by apply unmapped_none. }
  destruct (table (kmem_mem s) root [PX 2 a; PX 1 a]) as [t|] eqn:Et.
  - destruct (leaf_kpage _ _ _ _ _ Hpt Et) as [Hkt _].
    pose proof (kpage_nonzero Hlink t Hkt). pose proof (PX_ok 0 a ltac:(lia)) as Hpx.
    rewrite (proj2 (Z.eqb_neq _ _)) by (unfold px_ok in Hpx; lia).
    assert (Hlk : load64 (kmem_mem s) (t + 8 * PX 0 a) = lookup_pte (kmem_mem s) root a)
      by (unfold lookup_pte; by rewrite Et).
    unfold read_pte. kstep. rewrite Hlk.
    destruct (valid_at (kmem_mem s) root a) eqn:Ev; pose proof Ev as Ev'; unfold valid_at in Ev';
      rewrite Ev'; simpl negb; [|exists s, l; auto].
    ksteps. rewrite (bind_step _ _ _ _ _ _ _ (kfree_last_run Hlink e s _
                (proj1 (ui_page _ _ _ _ Hu a (conj Ha0 HaB) Ev)) Hl
                (ui_ref _ _ _ _ Hu a (conj Ha0 HaB) Ev))).
    unfold write_pte. kstep. eexists _, _. split; [done|]. by apply drop_one.
  - assert (valid_at (kmem_mem s) root a = false) as Ev
      by (unfold valid_at, lookup_pte; by rewrite Et).
    exists s, l. auto.
Qed.

Lemma uvmunmap_loop_run e root B :
  kfree_locks e -> B <= MAXVA -> forall n a s l,
  kinv s l -> pt_inv (kmem_mem s) root l -> uinv s root l B ->
  page_aligned a -> 0 <= a -> a + Z.of_nat n * PGSIZE <= B ->
  exists s' l', uvmunmap_loop n root a (a + Z.of_nat n * PGSIZE) true e s = Ret tt e s' /\
    drop_post root B s s' l l' (unmapped (lookup_pte (kmem_mem s) root) a (Z.of_nat n)).
Proof.
  intros Hl HB. induction n as [|n IH]; intros a s l Hk Hpt Hu Ha Ha0 HaB.
  - exists s, l. simpl uvmunmap_loop. rewrite (proj2 (Z.ltb_ge _ _)) by lia. split; [done|].
    eapply drop_post_ext; [|done|by apply drop_post_refl]. intros. by rewrite unmapped_0.
  - destruct (uvmunmap_step e root B s l n a (a + Z.of_nat (S n) * PGSIZE))
      as (s1 & l1 & -> & D1); try done; [unfold PGSIZE in *; lia..|].
    rewrite uint_wrap_small by (change MAXVA with (2 ^ 38) in *; unfold PGSIZE in *; lia).
    replace (a + Z.of_nat (S n) * PGSIZE) with (a + PGSIZE + Z.of_nat n * PGSIZE)
      by (unfold PGSIZE; lia).
    destruct (IH (a + PGSIZE) s1 l1) as (s2 & l2 & -> & D2);
      [apply D1|apply D1|apply D1|by apply aligned_add|unfold PGSIZE in *; lia..|].
    exists s2, l2. split; [done|].
    eapply drop_post_ext; [|done|by eapply drop_post_trans]. intros va Hva.
    replace (Z.of_nat (S n)) with (Z.of_nat n + 1) by lia.
    rewrite <- unmapped_app by lia. apply unmapped_ext, (dp_lookup D1 va Hva).
Qed.

Lemma uvmunmap_run e root B s l a n :
  kfree_locks e -> kinv s l -> pt_inv (kmem_mem s) root l -> uinv s root l B -> B <= MAXVA ->
  page_aligned a -> 0 <= a -> 0 <= n -> a + n * PGSIZE <= B ->
  exists s' l', uvmunmap root a n true e s = Ret tt e s' /\
    drop_post root B s s' l l' (unmapped (lookup_pte (kmem_mem s) root) a n).
Proof.
  intros Hl Hk Hpt Hu HB Ha Ha0 Hn HaB. unfold uvmunmap. rewrite Ha. simpl negb.
  rewrite uint_wrap_small by (change MAXVA with (2 ^ 38) in *; unfold PGSIZE in *; lia).
  destruct (Z_of_nat_complete n Hn) as [k ->]. rewrite Nat2Z.id.
  by apply uvmunmap_loop_run.
Qed.

(** ** Ownership

    A physical page is foreign to the address space [root] when it is neither
    free, nor part of the tree, nor mapped below [B]; [x] is a page the code at
    hand holds privately (0: none). *)
Definition foreign (s : kmem) (root : Z) (l : list Z) (B x q : Z) : Prop :=
  kpage q /\ (q ∉ l) /\ ~ is_table (kmem_mem s) root q /\ q <> x /\
  forall va, 0 <= va < B -> valid_at (kmem_mem s) root va = true ->
    page_at (kmem_mem s) root va <> q.

(** The byte at [a] does not lie in a page this address space may write. *)
Definition untouched (s : kmem) (root : Z) (l : list Z) (B x a : Z) : Prop :=
  forall q, kpage q -> q <= a < q + PGSIZE -> foreign s root l B x q.

Record ust (root B : Z) (s : kmem) (l : list Z) (x : Z) : Prop := {
  us_kinv : kinv s l;
  us_pt : pt_inv (kmem_mem s) root l;
  us_uinv : uinv s root l B;
  us_held : x = 0 \/ (foreign s root l B 0 x /\ refcount s (pageno x) = 1)
}.

(** The shape [freewalk] relies on: upper entries are pointers, the half of the
    root above [MAXVA] is empty, and every table is referenced once. *)
Definition ptree (s : kmem) (root : Z) : Prop :=
  ptrs 2 (kmem_mem s) root /\ pt_low (kmem_mem s) root /\ pt_count s root.

(** A step of code that works on one address space: foreign pages stay foreign
    (nothing is stolen), no page becomes foreign (nothing leaks), foreign memory
    is not written, and the addresses in [Kp] keep translation and contents. *)
Record ustep (root B : Z) (Kp : Z -> Prop) (s : kmem) (l : list Z) (x : Z)
    (s' : kmem) (l' : list Z) (x' : Z) : Prop := {
  us_ust : ust root B s' l' x';
  us_foreign : forall q, foreign s' root l' B x' q <-> foreign s root l B x q;
  us_count : forall q, foreign s root l B x q -> refcount s' (pageno q) = refcount s (pageno q);
  us_mem : forall a, untouched s root l B x a -> kmem_mem s' a = kmem_mem s a;
  us_keep : forall va, 0 <= va < B -> Kp va ->
    lookup_pte (kmem_mem s') root va = lookup_pte (kmem_mem s) root va /\
    (valid_at (kmem_mem s) root va = true ->
     forall a, page_at (kmem_mem s) root va <= a < page_at (kmem_mem s) root va + PGSIZE ->
       kmem_mem s' a = kmem_mem s a);
  us_tree : ptree s root -> ptree s' root
}.
#[local] Arguments us_kinv {root B s l x}.
#[local] Arguments us_pt {root B s l x}.
#[local] Arguments us_uinv {root B s l x}.
#[local] Arguments us_held {root B s l x}.
#[local] Arguments us_ust {root B Kp s l x s' l' x'}.
#[local] Arguments us_foreign {root B Kp s l x s' l' x'}.
#[local] Arguments us_count {root B Kp s l x s' l' x'}.
#[local] Arguments us_mem {root B Kp s l x s' l' x'}.
#[local] Arguments us_keep {root B Kp s l x s' l' x'}.

Lemma ustep_refl root B Kp s l x : ust root B s l x -> ustep root B Kp s l x s l x.
Proof. intros H. split; done. Qed.

Lemma ustep_trans root B Kp s1 l1 x1 s2 l2 x2 s3 l3 x3 :
  ustep root B Kp s1 l1 x1 s2 l2 x2 -> ustep root B Kp s2 l2 x2 s3 l3 x3 ->
  ustep root B Kp s1 l1 x1 s3 l3 x3.
Proof.
  intros U1 U2. split; [apply U2| | | | |by intros; apply U2, U1].
  - intros q. by rewrite (us_foreign U2), (us_foreign U1).
  - intros q Hq. rewrite (us_count U2), (us_count U1); [done|done|]. by apply (us_foreign U1).
  - intros a Ha. rewrite (us_mem U2), (us_mem U1); [done|done|].
    intros q Hq Hqa. apply (us_foreign U1). by apply Ha.
  - intros va Hva Hk. destruct (us_keep U1 va Hva Hk) as [E1 H1].
    destruct (us_keep U2 va Hva Hk) as [E2 H2]. split; [by rewrite E2|].
    intros Hv a Ha. unfold valid_at, page_at in *. rewrite E1 in H2. by rewrite H2, H1.
Qed.

Lemma ustep_weaken root B (Kp Kq : Z -> Prop) s l x s' l' x' :
  (forall va, 0 <= va < B -> Kq va -> Kp va) ->
  ustep root B Kp s l x s' l' x' -> ustep root B Kq s l x s' l' x'.
Proof. intros H [U1 U2 U3 U4 U5 U6]. split; try done. intros va Hva Hk. apply U5; auto. Qed.

(** The shape only depends on the memory and the counts of the tables. *)
Lemma ptree_frame root s s' :
  (forall p t, path_ok p -> table (kmem_mem s) root p = Some t ->
     forall x, t <= x < t + PGSIZE -> kmem_mem s' x = kmem_mem s x) ->
  (forall t, is_table (kmem_mem s) root t -> refcount s' (pageno t) = refcount s (pageno t)) ->
  ptree s root -> ptree s' root.
Proof.
  intros Hm Hc (H1 & H2 & H3). destruct (lookup_pte_ext _ _ _ Hm) as [Htab _].
  assert (Hp : forall p t i, path_ok p -> table (kmem_mem s) root p = Some t -> px_ok i ->
            pte_at (kmem_mem s') t i = pte_at (kmem_mem s) t i)
    by (intros p t i Hp Et Hi; apply pte_at_page; [done|]; by apply (Hm p)).
  split; [|split].
  - intros p u i Hlen Hpx Hu Hi. assert (path_ok p) as Hpo by (split; [lia|done]).
    rewrite Htab in Hu by done. rewrite (Hp p) by done. by apply (H1 p).
  - intros i Hi. rewrite (Hp [] root i path_ok_nil eq_refl) by (unfold px_ok; lia). by apply H2.
  - intros t Ht. rewrite (is_table_ext _ _ _ _ Htab) in Ht. rewrite Hc by done. by apply H3.
Qed.

(** The page of a byte is unique. *)
Lemma page_of_byte q q' a :
  kpage q -> kpage q' -> q <= a < q + PGSIZE -> q' <= a < q' + PGSIZE -> q = q'.
Proof.
  intros Hq Hq' H1 H2. destruct (Z.eq_dec q q') as [|Hne]; [done|].
  destruct (kpage_disjoint Hlink q q' Hq Hq' Hne); lia.
Qed.

Lemma kinv_kpage s l q : kinv s l -> q ∈ l -> kpage q.
Proof.
  intros Hk Hq. pose proof (free_chain_kpage _ _ _ (kinv_chain _ _ Hk)) as H.
  rewrite Forall_forall in H. by apply H.
Qed.

Lemma drop_ustep root B Kp s s' l l' f :
  B <= MAXVA -> ust root B s l 0 -> drop_post root B s s' l l' f ->
  (forall va, 0 <= va < B -> Kp va -> f va = lookup_pte (kmem_mem s) root va) ->
  ustep root B Kp s l 0 s' l' 0.
Proof.
  intros HB U D HK.
  assert (Hlk : forall va, 0 <= va < B -> valid_at (kmem_mem s') root va = true ->
            lookup_pte (kmem_mem s') root va = lookup_pte (kmem_mem s) root va).
  { intros va Hva Hv. destruct (dp_sub D va ltac:(lia)) as [E|E];
      rewrite <- (dp_lookup D) in E by lia; [|done].
    unfold valid_at in Hv. by rewrite E in Hv. }
  assert (Hf : forall q, foreign s' root l' B 0 q <-> foreign s root l B 0 q).
  { intros q. unfold foreign. rewrite (is_table_ext _ _ _ q (dp_table D)).
    split; intros (Hq & Hl & Ht & H0 & Hm); (split; [done|split; [|split; [done|split; [done|]]]]).
    - contradict Hl. by apply (dp_keep D).
    - intros va Hva Hv Eq. destruct (dp_sub D va ltac:(lia)) as [E|E].
      + apply Hl. rewrite <- Eq. by apply (dp_gain D).
      + rewrite <- (dp_lookup D) in E by lia.
        apply (Hm va Hva); unfold valid_at, page_at in *; by rewrite E.
    - intros Hin. destruct (dp_free D q Hin) as [?|(va & Hva & Hv & _ & ->)]; [done|].
      by apply (Hm va).
    - intros va Hva Hv. pose proof (Hlk va Hva Hv) as E. unfold valid_at, page_at in *.
      rewrite E in *. by apply (Hm va). }
  split; [split; [apply D|apply D|apply D|by left]|done| | | |].
  - intros q Hq. apply (dp_count D); [apply Hq|]. apply Hf in Hq. apply Hq.
  - intros a Ha. apply (dp_mem D).
    + intros q Hq _ Hqa. pose proof (Ha q (kinv_kpage _ _ _ (dp_kinv D) Hq) Hqa) as Hfq.
      apply Hf in Hfq as (_ & ? & _). done.
    + intros t Ht Hta. destruct Ht as (p & Hp & Et).
      destruct (pt_page _ _ _ (us_pt U) p t Hp Et) as [Hkt _].
      destruct (Ha t Hkt Hta) as (_ & _ & Hnt & _). apply Hnt. by exists p.
  - intros va Hva Hk. assert (lookup_pte (kmem_mem s') root va = lookup_pte (kmem_mem s) root va) as E
      by (rewrite (dp_lookup D) by lia; auto).
    split; [done|]. intros Hv a Ha. destruct (ui_page _ _ _ _ (us_uinv U) va Hva Hv) as (Hq & _ & Hqt).
    apply (dp_mem D).
    + intros q Hql _ Hqa.
      rewrite <- (page_of_byte _ q a Hq (kinv_kpage _ _ _ (dp_kinv D) Hql) Ha Hqa) in Hql.
      unfold valid_at, page_at in *. rewrite <- E in Hv, Hql.
      by destruct (ui_page _ _ _ _ (dp_uinv D) va Hva Hv) as (_ & ? & _).
    + intros t Ht Hta. apply Hqt. destruct Ht as (p & Hp & Et).
      destruct (pt_page _ _ _ (us_pt U) p t Hp Et) as [Hkt _].
      rewrite (page_of_byte _ t a Hq Hkt Ha Hta). by exists p.
  - intros (H1 & H2 & H3). split; [|split].
    + intros p u i Hlen Hpx Hu Hi. assert (path_ok p) as Hpo by (split; [lia|done]).
      rewrite (dp_table D) in Hu by done. rewrite (dp_upper D p) by (done || lia). by apply (H1 p).
    + intros i Hi. rewrite (dp_upper D [] root) by first [done|apply path_ok_nil|simpl; lia|unfold px_ok; lia].
      by apply H2.
    + intros t (p & Hp & Et). destruct (pt_page _ _ _ (dp_pt D) p t Hp Et) as [Hkt Htl].
      rewrite (dp_count D) by done. apply H3. exists p. split; [done|]. by rewrite <- (dp_table D).
Qed.

(** Taking a page from the free list and filling it. *)
Lemma alloc_ustep root B Kp s l r m1 :
  ust root B s (r :: l) 0 -> bytes_ok m1 -> writes_page r (kmem_mem s) m1 ->
  let s1 := set_mem (alloced s r) m1 in
  ustep root B Kp s (r :: l) 0 s1 l r /\
  (forall va, lookup_pte (kmem_mem s1) root va = lookup_pte (kmem_mem s) root va).
Proof.
  intros [Hk Hpt Hu _] Hm Hw s1.
  assert (kpage r /\ (r ∉ l)) as [Hr Hrl].
  { destruct Hk as [_ (_ & Hr & _) Hn%NoDup_cons _ _]. by destruct Hn. }
  assert (Hrt : ~ is_table (kmem_mem s) root r).
  { intros (p & Hp & Et). destruct (pt_page _ _ _ Hpt p r Hp Et) as [_ Hn]. apply Hn. by left. }
  destruct (lookup_pte_other _ m1 root _ r Hpt Hr Hrt Hw) as [Htab Hlk].
  pose proof (kpage_nonzero Hlink r Hr) as Hr0.
  assert (Hur : forall va, 0 <= va < B -> valid_at (kmem_mem s) root va = true ->
            kpage (page_at (kmem_mem s) root va) /\ page_at (kmem_mem s) root va <> r).
  { intros va Hva Hv. destruct (ui_page _ _ _ _ Hu va Hva Hv) as (Hq & Hql & _).
    split; [done|]. intros E. apply Hql. rewrite E. by left. }
  assert (Hf : forall y q, foreign s1 root l B y q <->
            foreign s root l B y q).
  { intros y q. unfold foreign, valid_at, page_at. simpl.
    rewrite (is_table_ext _ _ _ q Htab).
    split; intros (? & ? & ? & ? & Hm'); (split; [done|split; [done|split; [done|split; [done|]]]]);
      intros va; specialize (Hm' va); rewrite ?Hlk in *; exact Hm'. }
  assert (Hfr : forall q, foreign s root l B r q <-> foreign s root (r :: l) B 0 q).
  { intros q. unfold foreign. rewrite not_elem_of_cons.
    split.
    - intros (Hq & ? & ? & ? & ?). pose proof (kpage_nonzero Hlink q Hq).
      split; [done|split; [done|split; [done|split; [lia|done]]]].
    - intros (Hq & [? ?] & ? & ? & ?). done. }
  split; [split|done].
  - split.
    + apply (kinv_write_page Hlink (alloced s r) l r); try done; [by apply kalloc_inv|].
      intros y Hy. simpl. rewrite mem_fill_out by done. by apply Hw.
    + apply (pt_inv_tables (kmem_mem s) _ root (r :: l) l Htab); [|done].
      intros t (p & Hp & Et) Hin. destruct (pt_page _ _ _ Hpt p t Hp Et) as [_ Hn].
      apply Hn. apply elem_of_cons. by right.
    + split; unfold valid_at, page_at; simpl.
      * intros va Hva. rewrite !Hlk. intros Hv. destruct (ui_page _ _ _ _ Hu va Hva Hv) as (Hq & Hql & Hqt).
        split; [done|]. split; [by apply not_elem_of_cons in Hql as [_ ?]|].
        by rewrite (is_table_ext _ _ _ _ Htab).
      * intros va Hva. rewrite !Hlk. intros Hv. destruct (Hur va Hva Hv) as [Hq Hne].
        destruct (Z.eqb_spec (pageno (PTE2PA (lookup_pte (kmem_mem s) root va))) (pageno r)) as [E|_];
          [destruct Hne; by apply (kpage_pageno_inj Hlink)|]. by apply (ui_ref _ _ _ _ Hu).
      * intros va va'. rewrite !Hlk. apply (ui_inj _ _ _ _ Hu).
    + right. rewrite Hf. split; [|simpl; by rewrite Z.eqb_refl].
      split; [done|split; [done|split; [done|split; [lia|]]]]. intros va Hva Hv. by apply Hur.
  - intros q. by rewrite Hf, Hfr.
  - intros q Hq. simpl. destruct (Z.eqb_spec (pageno q) (pageno r)) as [E|_]; [|done].
    apply (kpage_pageno_inj Hlink) in E; [|apply Hq|done]. subst q.
    destruct Hq as (_ & Hn & _). destruct Hn. by left.
  - intros a Ha. apply Hw. intros Hra. destruct (Ha r Hr Hra) as (_ & Hn & _). apply Hn. by left.
  - intros va Hva _. split; [apply Hlk|]. intros Hv a Ha. apply Hw. intros Hra.
    destruct (Hur va Hva Hv) as [Hq Hne]. apply Hne. by apply (page_of_byte _ _ a).
  - apply ptree_frame.
    + intros p t Hp Et x Hx. apply Hw. intros Hrx. apply Hrt.
      destruct (pt_page _ _ _ Hpt p t Hp Et) as [Hkt _].
      rewrite <- (page_of_byte t r x Hkt Hr Hx Hrx). by exists p.
    + intros t (p & Hp & Et). simpl. destruct (Z.eqb_spec (pageno t) (pageno r)) as [E|]; [|done].
      destruct (pt_page _ _ _ Hpt p t Hp Et) as [Hkt _].
      apply (kpage_pageno_inj Hlink) in E; [|done|done]. destruct Hrt. rewrite <- E. by exists p.
Qed.

(** Pages are neither lost nor stolen while the tree grows. *)
Lemma evolves_owned root s s' l l' f q :
  evolves root s s' l l' f ->
  ((q ∉ l') /\ ~ is_table (kmem_mem s') root q) <-> ((q ∉ l) /\ ~ is_table (kmem_mem s) root q).
Proof.
  intros G. destruct (gr_taken _ _ _ _ _ _ G) as (k & -> & Hk). rewrite Forall_forall in Hk.
  split; intros [Hl Ht]; split.
  - intros [Hin|Hin]%elem_of_app; [by apply Ht, Hk|done].
  - contradict Ht. by apply (evolves_is_table _ _ _ _ _ _ q G).
  - contradict Hl. apply elem_of_app. by right.
  - intros Ht'. destruct (gr_new _ _ _ _ _ _ G q Ht'); done.
Qed.

Lemma evolves_page root s s' l l' f q :
  evolves root s s' l l' f -> kpage q -> (q ∉ l) -> ~ is_table (kmem_mem s) root q ->
  refcount s' (pageno q) = refcount s (pageno q) /\
  (forall a, q <= a < q + PGSIZE -> kmem_mem s' a = kmem_mem s a).
Proof.
  intros G Hq Hl Ht.
  destruct (proj2 (evolves_owned _ _ _ _ _ _ q G) (conj Hl Ht)) as [_ Ht'].
  split; [by apply (gr_count _ _ _ _ _ _ G)|]. intros a Ha. apply (gr_frame _ _ _ _ _ _ G).
  intros t (p & Hp & Et) Hta. destruct (pt_page _ _ _ (gr_pt _ _ _ _ _ _ G) p t Hp Et) as [Hkt _].
  apply Ht'. rewrite (page_of_byte q t a Hq Hkt Ha Hta). by exists p.
Qed.

(** The common part of the steps that only grow the tree: [f] agrees with the
    old translations, except that it may map the held page at [a]. *)
Section Evolve.
Context (root B : Z) (s s' : kmem) (l l' : list Z) (x x' : Z) (f : Z -> Z).
Context (HB : B <= MAXVA) (U : ust root B s l x) (G : evolves root s s' l l' f).
Context (new : Z -> Prop).
Context (Hold : forall va, 0 <= va < B -> ~ new va -> f va = lookup_pte (kmem_mem s) root va).
Context (Hnew : forall va, 0 <= va < B -> new va ->
  valid_at (kmem_mem s) root va = false /\ pte_has (f va) PTE_V = true /\ PTE2PA (f va) = x).
Context (Hdec : forall va, new va \/ ~ new va).
Context (Hone : forall va va', 0 <= va < B -> 0 <= va' < B -> new va -> new va' -> vpn va = vpn va').
Context (Hx : (x' = x /\ forall va, ~ new va) \/ (x' = 0 /\ x <> 0 /\ exists va, 0 <= va < B /\ new va)).

Lemma evolve_old va : 0 <= va < B -> valid_at (kmem_mem s) root va = true ->
  ~ new va /\ lookup_pte (kmem_mem s') root va = lookup_pte (kmem_mem s) root va.
Proof.
  intros Hva Hv. assert (~ new va) as Hn by (intros Hn; destruct (Hnew va Hva Hn); congruence).
  split; [done|]. rewrite (gr_lookup _ _ _ _ _ _ G) by lia. by apply Hold.
Qed.

Lemma evolve_cases va : 0 <= va < B -> valid_at (kmem_mem s') root va = true ->
  (new va /\ page_at (kmem_mem s') root va = x) \/
  (~ new va /\ valid_at (kmem_mem s) root va = true /\
   page_at (kmem_mem s') root va = page_at (kmem_mem s) root va).
Proof.
  intros Hva. unfold valid_at, page_at. rewrite (gr_lookup _ _ _ _ _ _ G) by lia.
  destruct (Hdec va) as [Hn|Hn]; [left; split; [done|by apply (Hnew va)]|].
  rewrite Hold by done. by right.
Qed.

Lemma evolve_x va : 0 <= va < B -> new va -> foreign s root l B 0 x /\ refcount s (pageno x) = 1.
Proof.
  intros Hva Hn. destruct (us_held U) as [E|]; [|done].
  destruct Hx as [[_ H]|(_ & H & _)]; [by destruct (H va)|done].
Qed.

Lemma evolve_foreign q : foreign s' root l' B x' q <-> foreign s root l B x q.
Proof.
  pose proof (evolves_owned _ _ _ _ _ _ q G) as Ho. unfold foreign. split.
  - intros (Hq & Hl & Ht & Hqx & Hm). destruct (proj1 Ho (conj Hl Ht)) as [Hl' Ht'].
    assert (Hm' : forall va, 0 <= va < B -> valid_at (kmem_mem s) root va = true ->
              page_at (kmem_mem s) root va <> q).
    { intros va Hva Hv E. destruct (evolve_old va Hva Hv) as [_ Elk].
      apply (Hm va Hva); unfold valid_at, page_at in *; by rewrite Elk. }
    split; [done|split; [done|split; [done|split; [|done]]]].
    intros Eq. destruct Hx as [[E _]|(_ & _ & va & Hva & Hn)]; [congruence|].
    destruct (Hnew va Hva Hn) as (_ & Hv & Hp).
    apply (Hm va Hva); unfold valid_at, page_at; rewrite (gr_lookup _ _ _ _ _ _ G) by lia;
      congruence.
  - intros (Hq & Hl & Ht & Hqx & Hm). destruct (proj2 Ho (conj Hl Ht)) as [Hl' Ht'].
    split; [done|split; [done|split; [done|split]]].
    + destruct Hx as [[-> _]|(-> & _)]; [done|]. pose proof (kpage_nonzero Hlink q Hq). lia.
    + intros va Hva Hv. destruct (evolve_cases va Hva Hv) as [[_ ->]|(_ & Hv' & ->)]; [done|auto].
Qed.

Lemma evolve_page va : 0 <= va < B -> valid_at (kmem_mem s) root va = true ->
  refcount s' (pageno (page_at (kmem_mem s) root va)) = 1 /\
  (forall a, page_at (kmem_mem s) root va <= a < page_at (kmem_mem s) root va + PGSIZE ->
     kmem_mem s' a = kmem_mem s a).
Proof.
  intros Hva Hv. destruct (ui_page _ _ _ _ (us_uinv U) va Hva Hv) as (Hq & Hl & Ht).
  destruct (evolves_page _ _ _ _ _ _ _ G Hq Hl Ht) as [-> Hm].
  split; [by apply (ui_ref _ _ _ _ (us_uinv U))|done].
Qed.

Lemma evolve_uinv : uinv s' root l' B.
Proof.
  split.
  - intros va Hva Hv. destruct (evolve_cases va Hva Hv) as [[Hn ->]|(Hn & Hv' & ->)].
    + destruct (evolve_x va Hva Hn) as [(Hq & Hl & Ht & _) _].
      by destruct (proj2 (evolves_owned _ _ _ _ _ _ x G) (conj Hl Ht)).
    + destruct (ui_page _ _ _ _ (us_uinv U) va Hva Hv') as (Hq & Hl & Ht).
      by destruct (proj2 (evolves_owned _ _ _ _ _ _ _ G) (conj Hl Ht)).
  - intros va Hva Hv. destruct (evolve_cases va Hva Hv) as [[Hn ->]|(Hn & Hv' & ->)].
    + destruct (evolve_x va Hva Hn) as [(Hq & Hl & Ht & _) Hc].
      by destruct (evolves_page _ _ _ _ _ _ _ G Hq Hl Ht) as [-> _].
    + by apply evolve_page.
  - intros va va' Hva Hva' Hv Hv' E.
    destruct (evolve_cases va Hva Hv) as [[Hn E1]|(Hn & Hv1 & E1)],
      (evolve_cases va' Hva' Hv') as [[Hn' E2]|(Hn' & Hv2 & E2)]; rewrite E1, E2 in E.
    + by apply Hone.
    + destruct (evolve_x va Hva Hn) as [(_ & _ & _ & _ & Hm) _]. by destruct (Hm va' Hva' Hv2).
    + destruct (evolve_x va' Hva' Hn') as [(_ & _ & _ & _ & Hm) _]. by destruct (Hm va Hva Hv1).
    + by apply (ui_inj _ _ _ _ (us_uinv U)).
Qed.

Lemma evolve_ustep : ustep root B (fun va => ~ new va) s l x s' l' x'.
Proof.
  split; [split; [apply G|apply G|apply evolve_uinv|]|apply evolve_foreign| | | |].
  - destruct Hx as [[-> Hno]|(-> & _)]; [|by left].
    destruct (us_held U) as [|[(Hq & Hl & Ht & H0 & Hm) Hc]]; [by left|right].
    destruct (evolves_page _ _ _ _ _ _ _ G Hq Hl Ht) as [-> _].
    destruct (proj2 (evolves_owned _ _ _ _ _ _ x G) (conj Hl Ht)) as [Hl' Ht'].
    split; [|done]. split; [done|split; [done|split; [done|split; [done|]]]]. intros va Hva Hv.
    destruct (evolve_cases va Hva Hv) as [[Hn _]|(_ & Hv' & ->)]; [by destruct (Hno va)|auto].
  - intros q (Hq & Hl & Ht & _). by destruct (evolves_page _ _ _ _ _ _ _ G Hq Hl Ht).
  - intros a Ha. apply (gr_frame _ _ _ _ _ _ G). intros t (p & Hp & Et) Hta.
    destruct (pt_page _ _ _ (gr_pt _ _ _ _ _ _ G) p t Hp Et) as [Hkt _].
    destruct (Ha t Hkt Hta) as (_ & Hl & Ht & _).
    destruct (proj2 (evolves_owned _ _ _ _ _ _ t G) (conj Hl Ht)) as [_ Ht'].
    apply Ht'. by exists p.
  - intros va Hva Hn. split; [|intros; by apply (evolve_page va)].
    rewrite (gr_lookup _ _ _ _ _ _ G) by lia. by apply Hold.
  - intros (H1 & H2 & H3). split; [by apply G|]. split; by apply G.
Qed.

End Evolve.

Lemma grows_ustep root B Kp s s' l l' x :
  B <= MAXVA -> ust root B s l x -> grows root s s' l l' -> ustep root B Kp s l x s' l' x.
Proof.
  intros HB U G.
  eapply ustep_weaken; [|apply (evolve_ustep root B s s' l l' x x _ HB U G (fun _ => False))];
    auto; tauto.
Qed.

(** Mapping the held page [x] at [a]. *)
Lemma map_ustep root B s s' l l' x a perm :
  B <= MAXVA -> ust root B s l x -> x <> 0 -> page_aligned a -> 0 <= a < B ->
  0 <= perm < 1024 -> valid_at (kmem_mem s) root a = false ->
  evolves root s s' l l' (mapped (lookup_pte (kmem_mem s) root) a 1 x perm) ->
  ustep root B (fun va => vpn va <> vpn a) s l x s' l' 0.
Proof.
  intros HB U Hx0 Ha Ha0 Hperm Hv G. destruct (us_held U) as [?|[(Hx & _) _]]; [done|].
  pose proof (kpage_pte_range Hlink x Hx) as Hxr.
  apply (evolve_ustep root B s s' l l' x 0 _ HB U G (fun va => vpn va = vpn a)).
  - intros va Hva Hn. rewrite mapped_1 by done. by rewrite decide_False.
  - intros va Hva Hn. rewrite mapped_1, decide_True by done.
    split; [unfold valid_at in *; by rewrite (lookup_pte_page _ _ va a Hn)|].
    split; [|by apply map_pte_pa; [apply Hx| |]].
    rewrite pte_has_V, map_pte_bit by lia. apply orb_true_r.
  - intros va. destruct (decide (vpn va = vpn a)); auto.
  - intros va va' _ _. congruence.
  - right. split; [done|split; [done|]]. by exists a.
Qed.

(** Giving the held page back. *)
Lemma free_ustep e root B Kp s l x :
  kfree_locks e -> ust root B s l x -> x <> 0 ->
  kfree x e s = Ret tt e (freed s x) /\ ustep root B Kp s l x (freed s x) (x :: l) 0 /\
  (forall va, lookup_pte (kmem_mem (freed s x)) root va = lookup_pte (kmem_mem s) root va).
Proof.
  intros Hl [Hk Hpt Hu Hh] Hx0. destruct Hh as [?|[(Hx & Hxl & Hxt & _ & Hxm) Hc]]; [done|].
  assert (Hw : writes_page x (kmem_mem s) (kmem_mem (freed s x))).
  { eapply writes_page_trans; [apply writes_page_fill|].
    apply writes_page_store64; unfold PGSIZE; lia. }
  destruct (lookup_pte_other _ _ root l x Hpt Hx Hxt Hw) as [Htab Hlk].
  assert (Hne : forall q, kpage q -> q <> x -> (pageno q =? pageno x) = false).
  { intros q Hq Hn. apply Z.eqb_neq. intros E. apply Hn. by apply (kpage_pageno_inj Hlink). }
  split; [by apply kfree_last_run|]. split; [|done]. split.
  - split; [by apply kfree_last_inv| | |by left].
    + apply (pt_inv_tables (kmem_mem s) _ root l _ Htab); [|done]. intros t Ht Hin.
      apply elem_of_cons in Hin as [->|Hin]; [done|]. destruct Ht as (p & Hp & Et).
      by destruct (pt_page _ _ _ Hpt p t Hp Et).
    + split; unfold valid_at, page_at.
      * intros va Hva. rewrite !Hlk. intros Hv. destruct (ui_page _ _ _ _ Hu va Hva Hv) as (Hq & Hql & Hqt).
        split; [done|]. rewrite (is_table_ext _ _ _ _ Htab), not_elem_of_cons.
        split; [split; [by apply Hxm|done]|done].
      * intros va Hva. rewrite !Hlk. intros Hv. destruct (ui_page _ _ _ _ Hu va Hva Hv) as (Hq & _).
        simpl. rewrite Hne; [by apply (ui_ref _ _ _ _ Hu)|done|by apply Hxm].
      * intros va va'. rewrite !Hlk. apply (ui_inj _ _ _ _ Hu).
  - intros q. unfold foreign, valid_at, page_at. rewrite (is_table_ext _ _ _ _ Htab), not_elem_of_cons.
    split.
    + intros (Hq & [Hqx Hql] & Hqt & _ & Hm). split; [done|split; [done|split; [done|split; [done|]]]].
      intros va. specialize (Hm va). by rewrite Hlk in Hm.
    + intros (Hq & Hql & Hqt & Hqx & Hm). pose proof (kpage_nonzero Hlink q Hq).
      split; [done|split; [done|split; [done|split; [lia|]]]].
      intros va. specialize (Hm va). by rewrite Hlk.
  - intros q (Hq & _ & _ & Hqx & _). simpl. by rewrite Hne.
  - intros a Ha. apply Hw. intros Hxa. by destruct (Ha x Hx Hxa) as (_ & _ & _ & ? & _).
  - intros va Hva _. split; [apply Hlk|]. intros Hv a Ha. apply Hw. intros Hxa.
    destruct (ui_page _ _ _ _ Hu va Hva Hv) as (Hq & _).
    apply (Hxm va Hva Hv). by apply (page_of_byte _ _ a).
  - apply ptree_frame.
    + intros p t Hp Et y Hy. apply Hw. intros Hxy. apply Hxt.
      destruct (pt_page _ _ _ Hpt p t Hp Et) as [Hkt _].
      rewrite <- (page_of_byte t x y Hkt Hx Hy Hxy). by exists p.
    + intros t Ht. simpl. rewrite Hne; [done| |by intros ->].
      destruct Ht as (p & Hp & Et). by destruct (pt_page _ _ _ Hpt p t Hp Et).
Qed.

(** The page [w] prepares in a fresh page. *)
Definition prepares (w : Z -> mem -> mem) : Prop :=
  forall r m, bytes_ok m -> bytes_ok (w r m) /\ writes_page r m (w r m).

Lemma MAXVA_page a : page_aligned a -> a < MAXVA -> a + PGSIZE <= MAXVA.
Proof. intros Ha H. apply aligned_step; done. Qed.

(** Allocate a page, prepare its contents and map it at [a]: the common shape of
    [uvmalloc], [uvmcopy] and [vmfault]. *)
Lemma alloc_map e root B s l a perm (w : Z -> mem -> mem) {A} (kA kC : K kmem A) (kD : Z -> K kmem A) :
  kfree_locks e -> B <= MAXVA -> ust root B s l 0 -> page_aligned a -> 0 <= a < B ->
  0 <= perm < 1024 -> valid_at (kmem_mem s) root a = false -> prepares w ->
  let code :=
    (m <- kalloc ;;
     if m =? 0 then kA
     else
       modify (fun s => set_mem s (w m (kmem_mem s))) ;;
       r <- mappages root a PGSIZE m perm ;;
       if negb (r =? 0) then kfree m ;; kC else kD m) e s in
  (l = [] /\ code = kA e s) \/
  (exists s' l', code = kC e s' /\ (length l <= 3)%nat /\ ustep root B (fun _ => True) s l 0 s' l' 0 /\
     forall va, 0 <= va < MAXVA -> lookup_pte (kmem_mem s') root va = lookup_pte (kmem_mem s) root va) \/
  (exists m s' l', code = kD m e s' /\ (length l <= length l' + 3)%nat /\ kpage m /\ m ∈ l /\
     ustep root B (fun va => vpn va <> vpn a) s l 0 s' l' 0 /\
     (forall va, 0 <= va < MAXVA -> lookup_pte (kmem_mem s') root va =
        mapped (lookup_pte (kmem_mem s) root) a 1 m perm va) /\
     forall x, m <= x < m + PGSIZE -> kmem_mem s' x = w m (mem_fill (kmem_mem s) m 5 PGSIZE) x).
Proof.
  intros Hl HB U Ha Ha0 Hperm Hv Hw code. destruct l as [|m l].
  { left. split; [done|]. unfold code.
    by rewrite (bind_step _ _ _ _ _ _ _ (kalloc_empty e s (us_kinv U) Hl)). }
  right. unfold code.
  rewrite (bind_step _ _ _ _ _ _ _ (kalloc_run Hlink e s m l (us_kinv U) Hl)).
  assert (Hm : kpage m) by (apply (kinv_kpage s (m :: l) m (us_kinv U)); by left).
  pose proof (kpage_nonzero Hlink m Hm) as Hm0.
  rewrite (proj2 (Z.eqb_neq m 0)) by lia. kstep.
  destruct (Hw m (kmem_mem (alloced s m))) as [Hb1 Hw1].
  { simpl. apply mem_fill_ok, (kinv_bytes _ _ (us_kinv U)). }
  set (m1 := w m (kmem_mem (alloced s m))) in *.
  destruct (alloc_ustep root B (fun _ => True) s l m m1 U Hb1) as [U1 Hlk1].
  { eapply writes_page_trans; [|apply Hw1]. apply writes_page_fill. }
  set (s1 := set_mem (alloced s m) m1) in *.
  pose proof (MAXVA_page a Ha ltac:(lia)) as Ha1. pose proof (kpage_pte_range Hlink m Hm) as Hmr.
  assert (Hm1 : m + 1 * PGSIZE <= 2 ^ 56)
    by (destruct Hm as [_ Hm]; unfold PHYSTOP, KERNBASE, PGSIZE in *; lia).
  assert (Hun : forall va, a <= va < a + 1 * PGSIZE ->
            pte_has (lookup_pte (kmem_mem s1) root va) PTE_V = false).
  { intros va Hva. rewrite Hlk1. rewrite Z.mul_1_l in Hva. apply (vpn_aligned a va Ha) in Hva.
    by rewrite (lookup_pte_page _ _ va a Hva). }
  destruct (mappages_run_len Hlink e root s1 l a 1 m perm Hl Hperm (us_kinv (us_ust U1))
              (us_pt (us_ust U1)) Ha ltac:(lia) ltac:(lia) ltac:(lia) ltac:(lia) Hm1 Hun)
    as (r & s2 & l2 & Hrun & (k & G & Hr) & N).
  rewrite Z.mul_1_l in Hrun. rewrite (bind_step _ _ _ _ _ _ _ Hrun).
  destruct Hr as [[-> ->]|(-> & -> & Hk)]; simpl negb; cbv iota.
  - right. exists m, s2, l2. split; [done|]. split; [cbn; lia|]. split; [done|]. split; [by left|].
    assert (Hv1 : valid_at (kmem_mem s1) root a = false) by (unfold valid_at; by rewrite Hlk1).
    pose proof (map_ustep root B s1 s2 l l2 m a perm HB (us_ust U1) ltac:(lia) Ha Ha0 Hperm Hv1 G) as U2.
    split; [eapply ustep_trans; [|apply U2]; by eapply ustep_weaken; [|apply U1]|].
    split.
    + intros va Hva. rewrite (gr_lookup _ _ _ _ _ _ G va Hva). by apply mapped_ext.
    + destruct (us_held (us_ust U1)) as [?|[(_ & Hml & Hmt & _) _]]; [lia|].
      by destruct (evolves_page _ _ _ _ _ _ _ G Hm Hml Hmt) as [_ ?].
  - left. change (negb (-1 =? 0)) with true. cbv iota. assert (k = 0) as -> by lia.
    assert (G' : grows root s1 s2 l []) by (eapply evolves_ext; [|apply G]; intros; by rewrite mapped_0).
    pose proof (grows_ustep root B (fun _ => True) _ _ _ _ m HB (us_ust U1) G') as U2.
    destruct (free_ustep e root B (fun _ => True) s2 [] m Hl (us_ust U2) ltac:(lia)) as (Hf & U3 & Hlk3).
    rewrite (bind_step _ _ _ _ _ _ _ Hf). exists (freed s2 m), [m]. split; [done|]. split; [cbn in *; lia|].
    split; [by eapply ustep_trans, ustep_trans|].
    intros va Hva. rewrite Hlk3, (gr_lookup _ _ _ _ _ _ G' va Hva). apply Hlk1.
Qed.

(** ** Growing and shrinking user memory *)

Lemma PGROUNDUP_mono a b : 0 <= a <= b -> b <= 2 ^ 64 - PGSIZE -> PGROUNDUP a <= PGROUNDUP b.
Proof.
  intros H1 H2. destruct (PGROUNDUP_bounds a) as [Aa ?]; [unfold PGSIZE in *; lia|].
  destruct (PGROUNDUP_bounds b) as [Ab ?]; [unfold PGSIZE in *; lia|].
  destruct (Z.le_gt_cases (PGROUNDUP a) (PGROUNDUP b)) as [|Hgt]; [done|].
  pose proof (aligned_step _ _ Ab Aa Hgt). lia.
Qed.

Lemma aligned_diff a b : page_aligned a -> page_aligned b -> b - a = (b - a) / PGSIZE * PGSIZE.
Proof.
  unfold page_aligned, PGSIZE. intros. pose proof (Z.div_mod (b - a) 4096 ltac:(lia)).
  assert ((b - a) mod 4096 = 0) by (rewrite Zminus_mod; by rewrite H, H0). lia.
Qed.

(** The number of pages [uvmdealloc] unmaps. *)
Definition dealloc_pages (oldsz newsz : Z) : Z :=
  if newsz <? oldsz then (PGROUNDUP oldsz - PGROUNDUP newsz) / PGSIZE else 0.

Lemma uvmdealloc_run e root B s l oldsz newsz :
  kfree_locks e -> B <= MAXVA -> ust root B s l 0 ->
  0 <= newsz -> 0 <= oldsz -> PGROUNDUP oldsz <= B ->
  oldsz <= 2 ^ 64 - PGSIZE ->
  exists s' l', uvmdealloc root oldsz newsz e s = Ret (Z.min oldsz newsz) e s' /\
    drop_post root B s s' l l'
      (unmapped (lookup_pte (kmem_mem s) root) (PGROUNDUP newsz) (dealloc_pages oldsz newsz)).
Proof.
  intros Hl HB [Hk Hpt Hu _] Hn Ho HoB Hob. unfold uvmdealloc, dealloc_pages.
  assert (Hnop : exists s' l', Ret (T := kmem) (Z.min oldsz newsz) e s = Ret (Z.min oldsz newsz) e s' /\
            drop_post root B s s' l l' (unmapped (lookup_pte (kmem_mem s) root) (PGROUNDUP newsz) 0)).
  { exists s, l. split; [done|]. eapply drop_post_ext; [|done|by apply drop_post_refl].
    intros. by rewrite unmapped_0. }
  destruct (Z.leb_spec oldsz newsz) as [Hle|Hgt].
  { rewrite (proj2 (Z.ltb_ge _ _)) by lia. rewrite Z.min_l in * by lia. exact Hnop. }
  rewrite (proj2 (Z.ltb_lt newsz oldsz)) by lia. rewrite Z.min_r in * by lia.
  destruct (PGROUNDUP_bounds oldsz ltac:(lia)) as [Ao Bo].
  destruct (PGROUNDUP_bounds newsz ltac:(lia)) as [An Bn].
  pose proof (aligned_diff _ _ An Ao) as Hd. change MAXVA with (2 ^ 38) in *. unfold PGSIZE in Hd, Bn, Bo.
  destruct (Z.ltb_spec (PGROUNDUP newsz) (PGROUNDUP oldsz)) as [Hlt|Hge].
  - unfold when. unfold PGSIZE at 1.
    rewrite sint_wrap_small, uint_wrap_small by (simpl; lia).
    destruct (uvmunmap_run e root B s l (PGROUNDUP newsz)
                ((PGROUNDUP oldsz - PGROUNDUP newsz) / 4096)) as (s' & l' & E & D);
      try done; [lia|lia|unfold PGSIZE; lia|].
    exists s', l'. rewrite (bind_step _ _ _ _ _ _ _ E). split; [done|exact D].
  - assert (PGROUNDUP oldsz - PGROUNDUP newsz = 0) as E
      by (pose proof (PGROUNDUP_mono newsz oldsz); unfold PGSIZE in *; lia).
    rewrite E. exact Hnop.
Qed.

(** The page of [va] is mapped with the permissions [perm] and holds zeroes. *)
Definition user_zero (s : kmem) (root perm va : Z) : Prop :=
  lookup_pte (kmem_mem s) root va = map_pte (page_at (kmem_mem s) root va) perm /\
  kpage (page_at (kmem_mem s) root va) /\
  forall x, page_at (kmem_mem s) root va <= x < page_at (kmem_mem s) root va + PGSIZE ->
    kmem_mem s x = 0.

Lemma map_pte_valid pa perm : 0 <= pa < 2 ^ 56 -> 0 <= perm < 1024 ->
  pte_has (map_pte pa perm) PTE_V = true.
Proof. intros. rewrite pte_has_V, map_pte_bit by lia. apply orb_true_r. Qed.

Lemma user_zero_valid s root perm va :
  0 <= perm < 1024 -> user_zero s root perm va -> valid_at (kmem_mem s) root va = true.
Proof.
  intros Hp (E & Hk & _). unfold valid_at. rewrite E. apply map_pte_valid; [|done].
  by apply kpage_pte_range.
Qed.

Lemma user_zero_keep root B (Kp : Z -> Prop) s l s' l' perm va :
  0 <= perm < 1024 -> ustep root B Kp s l 0 s' l' 0 -> 0 <= va < B -> Kp va ->
  user_zero s root perm va -> user_zero s' root perm va.
Proof.
  intros Hp U Hva Hk Hz. pose proof (user_zero_valid _ _ _ _ Hp Hz) as Hv.
  destruct (us_keep U va Hva Hk) as [E Hm]. destruct Hz as (E1 & H1 & H2).
  unfold user_zero, page_at in *. rewrite E. split; [done|split; [done|]].
  intros x Hx. rewrite Hm by done. by apply H2.
Qed.

Lemma prepares_zero : prepares (fun r m => mem_fill m r 0 PGSIZE).
Proof. intros r m Hm. split; [auto with mem|apply writes_page_fill]. Qed.

(** Outcome of growing from [A0] to [newsz] (rounded up to [A1]): everything
    outside [A0, A1) is kept; on success [A0, A1) is backed by fresh zeroed
    pages, on failure nothing is mapped there.  It fails only if less than three
    pages are free for each page requested. *)
Record uvmalloc_post (root B A0 A1 newsz perm : Z) (s0 : kmem) (l0 : list Z)
    (r : Z) (s' : kmem) (l' : list Z) : Prop := {
  ua_step : ustep root B (fun va => ~ (A0 <= va < A1)) s0 l0 0 s' l' 0;
  ua_lookup : forall va, 0 <= va < MAXVA -> ~ (A0 <= va < A1) ->
    lookup_pte (kmem_mem s') root va = lookup_pte (kmem_mem s0) root va;
  ua_result : (r = newsz /\ forall va, A0 <= va < A1 -> user_zero s' root perm va) \/
              (r = 0 /\ Z.of_nat (length l0) * PGSIZE <= 3 * (A1 - A0) /\
               forall va, A0 <= va < A1 -> valid_at (kmem_mem s') root va = false)
}.

Section Uvmalloc.
Context (e : env) (root B A0 A1 newsz xperm : Z) (s0 : kmem) (l0 : list Z).
Let perm := Z.lor (Z.lor PTE_R PTE_U) xperm.
Context (Hl : kfree_locks e) (HB : B <= MAXVA) (HA : A1 <= B) (HA0 : 0 <= A0).
Context (Al0 : page_aligned A0) (Al1 : page_aligned A1) (Hn : newsz <= A1 < newsz + PGSIZE).
Context (Hperm : 0 <= perm < 1024).
Context (Hfree : forall va, A0 <= va < A1 -> valid_at (kmem_mem s0) root va = false).

(** The state of the loop at address [a]. *)
Definition ua_inv (a : Z) (s : kmem) (l : list Z) : Prop :=
  ustep root B (fun va => ~ (A0 <= va < A1)) s0 l0 0 s l 0 /\
  (forall va, 0 <= va < MAXVA -> ~ (A0 <= va < a) ->
     lookup_pte (kmem_mem s) root va = lookup_pte (kmem_mem s0) root va) /\
  (forall va, A0 <= va < a -> user_zero s root perm va).

(** ... and what it has used *)
Definition ua_used (a : Z) (l : list Z) : Prop :=
  Z.of_nat (length l0) * PGSIZE <= Z.of_nat (length l) * PGSIZE + 3 * (a - A0).

Lemma ua_fail a s l :
  ua_inv a s l -> page_aligned a -> A0 <= a <= A1 -> Z.of_nat (length l0) * PGSIZE <= 3 * (A1 - A0) ->
  exists s' l', (uvmdealloc root a A0 ;; ret 0) e s = Ret 0 e s' /\
    uvmalloc_post root B A0 A1 newsz perm s0 l0 0 s' l'.
Proof.
  intros (U & Hlk & Hz) Ha HaA Hused. change MAXVA with (2 ^ 38) in *.
  destruct (uvmdealloc_run e root B s l a A0) as (s' & l' & E & D); try done;
    [apply U|lia|rewrite PGROUNDUP_aligned by (done || unfold PGSIZE; lia); lia|unfold PGSIZE; lia|].
  rewrite (bind_step _ _ _ _ _ _ _ E). exists s', l'. split; [done|].
  unfold dealloc_pages in D. rewrite !PGROUNDUP_aligned in D by (done || unfold PGSIZE; lia).
  set (n := if A0 <? a then _ else _) in D.
  assert (Hna : A0 + n * PGSIZE = a).
  { unfold n. pose proof (aligned_diff A0 a Al0 Ha). destruct (Z.ltb_spec A0 a); lia. }
  split.
  - eapply ustep_trans; [apply U|]. eapply drop_ustep; [done|apply U|apply D|].
    intros va Hva Hno. apply unmapped_out. lia.
  - intros va Hva Hno. rewrite (dp_lookup D), unmapped_out by (done || lia). apply Hlk; [done|lia].
  - right. split; [done|]. split; [done|]. intros va Hva. unfold valid_at.
    rewrite (dp_lookup D) by (change MAXVA with (2 ^ 38); lia).
    destruct (decide (A0 <= va < a)); [apply unmapped_invalid; lia|].
    rewrite unmapped_out, Hlk by lia. by apply Hfree.
Qed.

Lemma ua_done a s l :
  ua_inv a s l -> page_aligned a -> newsz <= a <= A1 ->
  uvmalloc_post root B A0 A1 newsz perm s0 l0 newsz s l.
Proof.
  intros (U & Hlk & Hz) Ha HaA. assert (A1 <= a).
  { destruct (Z.lt_ge_cases a A1) as [Hlt|]; [|lia]. pose proof (aligned_step a A1 Ha Al1 Hlt). lia. }
  split; [done| |].
  - intros va Hva Hno. apply Hlk; [done|lia].
  - left. split; [done|]. intros va Hva. apply Hz. lia.
Qed.

Lemma ua_next a s l m s' l' :
  ua_inv a s l -> page_aligned a -> A0 <= a -> a + PGSIZE <= A1 -> kpage m ->
  ustep root B (fun va => vpn va <> vpn a) s l 0 s' l' 0 ->
  (forall va, 0 <= va < MAXVA -> lookup_pte (kmem_mem s') root va =
     mapped (lookup_pte (kmem_mem s) root) a 1 m perm va) ->
  (forall x, m <= x < m + PGSIZE ->
     kmem_mem s' x = mem_fill (mem_fill (kmem_mem s) m 5 PGSIZE) m 0 PGSIZE x) ->
  ua_inv (a + PGSIZE) s' l'.
Proof.
  intros (U & Hlk & Hz) Ha HaA Ha1 Hm U' Hlk' Hmem.
  assert (Hvp : forall va, vpn va = vpn a <-> a <= va < a + PGSIZE)
    by (intros; by apply vpn_aligned).
  split; [|split].
  - eapply ustep_trans; [apply U|]. eapply ustep_weaken; [|apply U'].
    intros va Hva Hno E. apply Hvp in E. lia.
  - intros va Hva Hno. rewrite Hlk', mapped_out by (done || unfold PGSIZE in *; lia).
    apply Hlk; [done|]. unfold PGSIZE in *; lia.
  - intros va Hva. destruct (decide (vpn va = vpn a)) as [E|E].
    + assert (lookup_pte (kmem_mem s') root va = map_pte m perm) as Ev.
      { rewrite Hlk', mapped_1, decide_True by (done || unfold PGSIZE in *; lia). done. }
      unfold user_zero, page_at. rewrite Ev, map_pte_pa by first [done|apply Hm|by apply kpage_pte_range].
      split; [done|split; [done|]]. intros x Hx. rewrite Hmem, mem_fill_in by done. done.
    + eapply (user_zero_keep root B _ s l s' l'); [done|apply U'|unfold PGSIZE in *; lia|done|].
      apply Hz. rewrite Hvp in E. lia.
Qed.

Lemma uvmalloc_loop_run n : forall a s l,
  ua_inv a s l -> ua_used a l -> page_aligned a -> A0 <= a <= A1 -> newsz - a <= Z.of_nat n * PGSIZE ->
  exists r s' l', uvmalloc_loop n root a A0 newsz xperm e s = Ret r e s' /\
    uvmalloc_post root B A0 A1 newsz perm s0 l0 r s' l'.
Proof.
  unfold ua_used. induction n as [|n IH]; intros a s l Hi Hus Ha HaA Hfu; simpl uvmalloc_loop;
    (destruct (Z.ltb_spec a newsz) as [Hlt|Hge];
     [|exists newsz, s, l; split; [done|]; apply (ua_done a); [done|done|lia]]); [lia|].
  pose proof (aligned_step a A1 Ha Al1 ltac:(lia)) as Hstep. pose proof Hi as (U & Hlk & Hz).
  assert (Hva : valid_at (kmem_mem s) root a = false).
  { unfold valid_at. rewrite Hlk by lia. apply Hfree. lia. }
  pose proof (alloc_map e root B s l a perm _ (uvmdealloc root a A0 ;; ret 0)
                (uvmdealloc root a A0 ;; ret 0)
                (fun _ => uvmalloc_loop n root (u64 (a + PGSIZE)) A0 newsz xperm)
                Hl HB (us_ust U) Ha ltac:(lia) Hperm Hva prepares_zero) as Hc.
  cbv zeta beta in Hc. unfold fill_page. fold perm.
  destruct Hc as [(-> & ->)|[(s1 & l1 & -> & N & U1 & Hlk1)|(m & s1 & l1 & -> & N & Hm & _ & U1 & Hlk1 & Hmem)]].
  - destruct (ua_fail a s [] Hi Ha HaA) as (s' & l' & E & P); [cbn in *; unfold PGSIZE in *; lia|]. by exists 0, s', l'.
  - destruct (ua_fail a s1 l1) as (s' & l' & E & P); [|done|done|unfold PGSIZE in *; lia|by exists 0, s', l'].
    split; [|split].
    + eapply ustep_trans; [apply U|]. by eapply ustep_weaken; [|apply U1].
    + intros va Hv Hno. rewrite Hlk1 by done. auto.
    + intros va Hv. eapply (user_zero_keep root B _ s l); [done|apply U1|lia|done|auto].
  - rewrite uint_wrap_small by (change MAXVA with (2 ^ 38) in *; unfold PGSIZE in *; lia).
    apply (IH (a + PGSIZE) s1 l1); [|unfold PGSIZE in *; lia|by apply aligned_add|unfold PGSIZE in *; lia..].
    apply (ua_next a s l m); done || lia.
Qed.

End Uvmalloc.

(** ** Empty address spaces *)

(** A page of zeroes is an empty page table. *)
Lemma zero_table s q p t :
  kpage q -> (forall x, q <= x < q + PGSIZE -> kmem_mem s x = 0) ->
  path_ok p -> table (kmem_mem s) q p = Some t -> p = [] /\ t = q.
Proof.
  intros Hq Hz [_ Hp]. destruct p as [|i p]; [by intros [= <-]|].
  apply Forall_cons in Hp as [Hi _]. cbn [table]. unfold child.
  rewrite (pte_at_page (mem_fill (kmem_mem s) q 0 PGSIZE)), pte_at_zero; try done.
  intros x Hx. by rewrite mem_fill_in, Hz.
Qed.

Lemma zero_lookup s q va :
  kpage q -> (forall x, q <= x < q + PGSIZE -> kmem_mem s x = 0) ->
  lookup_pte (kmem_mem s) q va = 0.
Proof.
  intros Hq Hz. unfold lookup_pte. destruct (table _ _ [PX 2 va; PX 1 va]) as [t|] eqn:E; [|done].
  by destruct (zero_table s q _ t Hq Hz (leaf_path va) E).
Qed.

Lemma zero_ust s l q B :
  kinv s l -> kpage q -> (q ∉ l) -> (forall x, q <= x < q + PGSIZE -> kmem_mem s x = 0) ->
  ust q B s l 0.
Proof.
  intros Hk Hq Hql Hz. assert (Hv : forall va, valid_at (kmem_mem s) q va = false)
    by (intros; unfold valid_at; by rewrite zero_lookup).
  split; [done| | |by left].
  - split.
    + intros p t Hp Et. by destruct (zero_table s q p t Hq Hz Hp Et) as [_ ->].
    + intros p p' t Hp Hp' E E'. destruct (zero_table s q p t Hq Hz Hp E) as [-> _].
      by destruct (zero_table s q p' t Hq Hz Hp' E') as [-> _].
  - split; intros va; rewrite Hv; try done.
Qed.

Lemma uvmalloc_run e root B s l oldsz newsz xperm :
  let perm := Z.lor (Z.lor PTE_R PTE_U) xperm in
  kfree_locks e -> ust root B s l 0 -> B <= MAXVA ->
  0 <= oldsz <= newsz -> PGROUNDUP newsz <= B -> newsz <= MAXVA -> 0 <= perm < 1024 ->
  (forall va, PGROUNDUP oldsz <= va < PGROUNDUP newsz -> valid_at (kmem_mem s) root va = false) ->
  exists r s' l', uvmalloc root oldsz newsz xperm e s = Ret r e s' /\
    uvmalloc_post root B (PGROUNDUP oldsz) (PGROUNDUP newsz) newsz perm s l r s' l'.
Proof.
  intros perm Hl U HB Hsz HnB Hn Hperm Hfree. unfold uvmalloc.
  rewrite (proj2 (Z.ltb_ge _ _)) by lia. change MAXVA with (2 ^ 38) in Hn.
  destruct (PGROUNDUP_bounds oldsz) as [Ao Bo]; [unfold PGSIZE; lia|].
  destruct (PGROUNDUP_bounds newsz) as [An Bn]; [unfold PGSIZE; lia|].
  apply uvmalloc_loop_run with (l := l); try done; [lia| | | |].
  - split; [by apply ustep_refl|]. split; [done|]. intros va Hva. lia.
  - unfold ua_used. lia.
  - pose proof (PGROUNDUP_mono oldsz newsz). unfold PGSIZE in *. lia.
  - pose proof (Z.div_mod (newsz - PGROUNDUP oldsz) PGSIZE).
    pose proof (Z.mod_pos_bound (newsz - PGROUNDUP oldsz) PGSIZE). unfold PGSIZE in *. lia.
Qed.

(** ** Properties *)

(** uvmunmap: removing [n] pages at [a] returns, clears exactly the valid
    translations of that range, puts each page that was mapped there on the free
    list, and leaves the rest of the address space, and all memory owned by
    others, untouched. *)
Theorem uvmunmap_correct e root B s l a n :
  kfree_locks e -> ust root B s l 0 -> B <= MAXVA ->
  page_aligned a -> 0 <= a -> 0 <= n -> a + n * PGSIZE <= B ->
  exists s' l', uvmunmap root a n true e s = Ret tt e s' /\
    ustep root B (fun va => ~ (a <= va < a + n * PGSIZE)) s l 0 s' l' 0 /\
    (forall va, 0 <= va < MAXVA ->
       lookup_pte (kmem_mem s') root va = unmapped (lookup_pte (kmem_mem s) root) a n va) /\
    (forall va, a <= va < a + n * PGSIZE -> valid_at (kmem_mem s) root va = true ->
       page_at (kmem_mem s) root va ∈ l').
Proof.
  intros Hl U HB Ha Ha0 Hn HaB.
  destruct (uvmunmap_run e root B s l a n) as (s' & l' & E & D);
    try done; [apply U..|]. exists s', l'. split; [done|]. split.
  - eapply drop_ustep; [done|done|apply D|]. intros va _ Hno. by apply unmapped_out.
  - split; [apply D|]. intros va Hva Hv. apply (dp_gain D); [lia|done|].
    unfold unmapped. rewrite (proj2 (in_range_true _ _ _)) by done.
    unfold valid_at in Hv. by rewrite Hv.
Qed.

(** C15 (uvmalloc): growing an address space from [oldsz] to [newsz] either
    returns [newsz] with the new pages mapped to fresh zeroed pages with the
    requested permissions, or returns 0 with nothing mapped in the new range, and
    this only if fewer than three pages were free for each page requested; in both
    cases the old pages, their contents and memory owned by others are unchanged
    and no page is lost. *)
Theorem uvmalloc_correct e root B s l oldsz newsz xperm :
  let perm := Z.lor (Z.lor PTE_R PTE_U) xperm in
  kfree_locks e -> ust root B s l 0 -> B <= MAXVA ->
  0 <= oldsz <= newsz -> PGROUNDUP newsz <= B -> newsz <= MAXVA -> 0 <= perm < 1024 ->
  (forall va, PGROUNDUP oldsz <= va < PGROUNDUP newsz -> valid_at (kmem_mem s) root va = false) ->
  exists r s' l', uvmalloc root oldsz newsz xperm e s = Ret r e s' /\
    uvmalloc_post root B (PGROUNDUP oldsz) (PGROUNDUP newsz) newsz perm s l r s' l'.
Proof. apply uvmalloc_run. Qed.

End VmUser.

(** ** An empty address space

    In the kernel of [demo_kmem], the page in use is an empty page table. *)

#[local] Existing Instance demo_linker.

Abbreviation demo_root := (demo_page 9).

Lemma demo_ust B : ust demo_root B demo_kmem demo_free 0.
Proof.
  apply zero_ust; [apply demo_kinv|apply demo_kpage; lia|apply demo_used; lia|].
  intros x Hx. by apply (demo_used_zero 9).
Qed.

Lemma demo_lookup va : lookup_pte (kmem_mem demo_kmem) demo_root va = 0.
Proof.
  apply zero_lookup; [apply demo_kpage; lia|].
  intros x Hx. by apply (demo_used_zero 9).
Qed.

Lemma uvmunmap_correct_witness :
  exists s' l', uvmunmap demo_root 0 2 true demo_env demo_kmem = Ret tt demo_env s' /\ kinv s' l'.
Proof.
  destruct (uvmunmap_correct demo_linker_ok demo_env demo_root MAXVA demo_kmem demo_free 0 2
              demo_locks (demo_ust MAXVA)) as (s' & l' & E & U & _);
    [reflexivity|reflexivity|lia|lia|vm_compute; congruence|].
  exists s', l'. split; [exact E|apply U].
Defined.

Lemma uvmalloc_correct_witness :
  exists r s' l', uvmalloc demo_root 0 8192 PTE_W demo_env demo_kmem = Ret r demo_env s' /\
    uvmalloc_post demo_root MAXVA 0 8192 8192 (Z.lor (Z.lor PTE_R PTE_U) PTE_W)
      demo_kmem demo_free r s' l'.
Proof.
  apply (uvmalloc_correct demo_linker_ok demo_env demo_root MAXVA demo_kmem demo_free 0 8192 PTE_W
           demo_locks (demo_ust MAXVA));
    [reflexivity|lia|vm_compute; congruence|vm_compute; congruence|vm_compute; split; congruence|].
  intros va _. unfold valid_at. rewrite demo_lookup. reflexivity.
Defined.
