(* ===== verification/VmCopy.v ===== *)
(** * Moving data across the user/kernel boundary

    Lemmas and properties of [walkaddr], [vmfault], [copyout], [copyin] and
    [uvmcopy] of kernel/vm.c, stated on the bytes user code sees: [ubyte s root B
    va] is the byte at the user address [va] of the address space [root], if that
    address is mapped for user mode. *)

From stdpp Require Import base gmap sets list strings.
From Stdlib Require Import ZArith Lia.
From S2P Require Import Prelude Kernel Riscv Kalloc Vm VmUser.

Section VmCopy.
Context {L : Linker} (Hlink : linker_ok).

#[local] Arguments us_kinv {_ root B s l x}.
#[local] Arguments us_pt {_ root B s l x}.
#[local] Arguments us_uinv {_ root B s l x}.
#[local] Arguments us_held {_ root B s l x}.
#[local] Arguments us_ust {_ root B Kp s l x s' l' x'}.
#[local] Arguments us_foreign {_ root B Kp s l x s' l' x'}.
#[local] Arguments us_count {_ root B Kp s l x s' l' x'}.
#[local] Arguments us_mem {_ root B Kp s l x s' l' x'}.
#[local] Arguments us_keep {_ root B Kp s l x s' l' x'}.

(** ** Specification *)

(** [va] is mapped for user mode. *)
Definition user_at (m : mem) (root va : Z) : bool :=
  valid_at m root va && pte_has (lookup_pte m root va) PTE_U.

(** Its physical address. *)
Definition phys (m : mem) (root va : Z) : Z := page_at m root va + va mod PGSIZE.

(** The byte user code reads at [va]. *)
Definition ubyte (s : kmem) (root B va : Z) : option Z :=
  if in_range 0 B va && user_at (kmem_mem s) root va
  then Some (kmem_mem s (phys (kmem_mem s) root va)) else None.

(** No user mapping at or above [B]. *)
Definition uguard (s : kmem) (root B : Z) : Prop :=
  forall va, B <= va < MAXVA -> user_at (kmem_mem s) root va = false.

(** ** Lemmas *)

Lemma user_at_page m root va va' : vpn va = vpn va' -> user_at m root va = user_at m root va'.
Proof. intros E. unfold user_at, valid_at. by rewrite (lookup_pte_page m root va va' E). Qed.

Lemma vpn_down va : vpn (PGROUNDDOWN va) = vpn va.
Proof.
  destruct (PGROUNDDOWN_bounds va) as [Ha Hb]. symmetry. by apply (vpn_aligned _ va Ha).
Qed.

Lemma down_offset va : va - PGROUNDDOWN va = va mod PGSIZE.
Proof. rewrite PGROUNDDOWN_spec. unfold PGSIZE. pose proof (Z.div_mod va 4096). lia. Qed.

(** Code that looks up the entry of [va] and reads it. *)
Lemma walk_read {A} e s l root va (kA : K kmem A) (k : Z -> Z -> K kmem A) :
  pt_inv (kmem_mem s) root l -> va < MAXVA ->
  (pte <- walk root va false ;;
   if pte =? 0 then kA else v <- read_pte pte ;; k pte v) e s
  = match table (kmem_mem s) root [PX 2 va; PX 1 va] with
    | Some t => k (t + 8 * PX 0 va) (lookup_pte (kmem_mem s) root va) e s
    | None => kA e s
    end.
Proof.
  intros Hpt Hva. rewrite (bind_step _ _ _ _ _ _ _ (walk_lookup e s root va Hva)).
  unfold lookup_pte. destruct (table (kmem_mem s) root [PX 2 va; PX 1 va]) as [t|] eqn:Et; [|done].
  destruct (leaf_kpage _ _ _ _ _ Hpt Et) as [Hkt _].
  pose proof (kpage_nonzero Hlink t Hkt). pose proof (PX_ok 0 va ltac:(lia)) as Hpx.
  by rewrite (proj2 (Z.eqb_neq _ _)) by (unfold px_ok in Hpx; lia).
Qed.

Lemma lookup_none m root va : table m root [PX 2 va; PX 1 va] = None -> lookup_pte m root va = 0.
Proof. intros E. unfold lookup_pte. by rewrite E. Qed.

Lemma walkaddr_run e s l root va :
  pt_inv (kmem_mem s) root l ->
  walkaddr root va e s =
    Ret (if (va <? MAXVA) && user_at (kmem_mem s) root va
         then page_at (kmem_mem s) root va else 0) e s.
Proof.
  intros Hpt. unfold walkaddr. rewrite Z.ltb_antisym. destruct (Z.leb_spec MAXVA va); [done|].
  rewrite (walk_read e s l) by done. unfold user_at, valid_at, page_at.
  destruct (table (kmem_mem s) root [PX 2 va; PX 1 va]) eqn:Et.
  - simpl. destruct (pte_has (lookup_pte (kmem_mem s) root va) PTE_V); [|done].
    by destruct (pte_has (lookup_pte (kmem_mem s) root va) PTE_U).
  - by rewrite (lookup_none _ _ _ Et).
Qed.

Lemma ismapped_run e s l root va :
  pt_inv (kmem_mem s) root l -> va < MAXVA ->
  ismapped root va e s = Ret (valid_at (kmem_mem s) root va) e s.
Proof.
  intros Hpt Hva. unfold ismapped. rewrite (walk_read e s l) by done. unfold valid_at.
  destruct (table (kmem_mem s) root [PX 2 va; PX 1 va]) eqn:Et; [done|].
  by rewrite (lookup_none _ _ _ Et).
Qed.

(** Permissions of a page [vmfault] maps. *)
Definition fault_perm : Z := Z.lor (Z.lor PTE_W PTE_U) PTE_R.

(** [vmfault] maps a zeroed page, or returns 0 and changes no translation. *)
Lemma vmfault_run e root B s l sz va :
  kfree_locks e -> B <= MAXVA -> ust root B s l 0 -> sz <= B -> 0 <= va ->
  (exists s' l', vmfault (Uproc sz root) root va e s = Ret 0 e s' /\
     ustep root B (fun _ => True) s l 0 s' l' 0 /\
     forall va', 0 <= va' < MAXVA ->
       lookup_pte (kmem_mem s') root va' = lookup_pte (kmem_mem s) root va') \/
  (exists ka s' l', vmfault (Uproc sz root) root va e s = Ret ka e s' /\ kpage ka /\
     va < sz /\ valid_at (kmem_mem s) root va = false /\
     ustep root B (fun va' => vpn va' <> vpn va) s l 0 s' l' 0 /\
     (forall va', 0 <= va' < MAXVA -> lookup_pte (kmem_mem s') root va' =
        if decide (vpn va' = vpn va) then map_pte ka fault_perm
        else lookup_pte (kmem_mem s) root va') /\
     forall x, ka <= x < ka + PGSIZE -> kmem_mem s' x = 0).
Proof.
  intros Hl HB U Hsz Hva. unfold vmfault. cbn [up_sz up_pagetable].
  assert (Hsame : exists s' l', Ret (T := kmem) 0 e s = Ret 0 e s' /\
     ustep root B (fun _ => True) s l 0 s' l' 0 /\
     forall va', 0 <= va' < MAXVA ->
       lookup_pte (kmem_mem s') root va' = lookup_pte (kmem_mem s) root va').
  { exists s, l. split; [done|]. split; [by apply ustep_refl|done]. }
  destruct (Z.leb_spec sz va) as [|Hlt]; [left; exact Hsame|].
  destruct (PGROUNDDOWN_bounds va) as [Ha Hb].
  assert (0 <= PGROUNDDOWN va) by (rewrite PGROUNDDOWN_spec; pose proof (Z.div_pos va PGSIZE); unfold PGSIZE in *; lia).
  rewrite (bind_step _ _ _ _ _ _ _ (ismapped_run e s l root (PGROUNDDOWN va) (us_pt U) ltac:(lia))).
  assert (Hv0 : valid_at (kmem_mem s) root (PGROUNDDOWN va) = valid_at (kmem_mem s) root va).
  { unfold valid_at. by rewrite (lookup_pte_page _ _ _ va (vpn_down va)). }
  rewrite Hv0. destruct (valid_at (kmem_mem s) root va) eqn:Ev; [left; exact Hsame|].
  destruct (alloc_map Hlink e root B s l (PGROUNDDOWN va) fault_perm
              (fun r m => mem_fill m r 0 PGSIZE) (ret 0) (ret 0) (fun ka => ret ka)
              Hl HB U Ha ltac:(lia) ltac:(done) Hv0 prepares_zero)
    as [(_ & E)|[(s1 & l1 & E & _ & U1 & Hlk1)|(ka & s1 & l1 & E & _ & Hka & _ & U1 & Hlk1 & Hm1)]];
    cbv zeta beta in E; unfold fill_page; fold fault_perm; rewrite E.
  - left; exact Hsame.
  - left. exists s1, l1. auto.
  - right. exists ka, s1, l1. split; [done|]. split; [done|]. split; [done|]. split; [done|].
    rewrite vpn_down in U1. split; [done|]. split.
    + intros va' Hva'. rewrite Hlk1, mapped_1, vpn_down by done. done.
    + intros x Hx. rewrite Hm1, mem_fill_in by done. done.
Qed.

(** Writing inside a mapped user page. *)
Lemma write_ustep root B s l va m' :
  ust root B s l 0 -> 0 <= va < B -> valid_at (kmem_mem s) root va = true -> bytes_ok m' ->
  writes_page (page_at (kmem_mem s) root va) (kmem_mem s) m' ->
  ustep root B (fun va' => vpn va' <> vpn va) s l 0 (set_mem s m') l 0 /\
  (forall va', lookup_pte m' root va' = lookup_pte (kmem_mem s) root va').
Proof.
  intros [Hk Hpt Hu Hh] Hva Hv Hm' Hw. destruct (ui_page _ _ _ _ Hu va Hva Hv) as (Hq & Hql & Hqt).
  destruct (lookup_pte_other Hlink _ m' root l _ Hpt Hq Hqt Hw) as [Htab Hlk].
  split; [|done].
  assert (Hf : forall q, foreign (set_mem s m') root l B 0 q <-> foreign s root l B 0 q).
  { intros q. unfold foreign, valid_at, page_at. simpl. rewrite (is_table_ext _ _ _ q Htab).
    split; intros (? & ? & ? & ? & Hm); (split; [done|split; [done|split; [done|split; [done|]]]]);
      intros va'; specialize (Hm va'); rewrite ?Hlk in *; exact Hm. }
  split; [split| | | | |].
  - by apply (kinv_write_page Hlink s l _ m' Hk Hm' Hq Hql Hw).
  - apply (pt_inv_tables (kmem_mem s) _ root l _ Htab); [|done].
    intros t (p & Hp & Et). by destruct (pt_page _ _ _ Hpt p t Hp Et).
  - split; unfold valid_at, page_at; simpl.
    + intros va' Hva'. rewrite !Hlk, (is_table_ext _ _ _ _ Htab). by apply (ui_page _ _ _ _ Hu).
    + intros va' Hva'. rewrite !Hlk. by apply (ui_ref _ _ _ _ Hu).
    + intros va' va''. rewrite !Hlk. apply (ui_inj _ _ _ _ Hu).
  - by left.
  - done.
  - done.
  - intros a Ha. apply Hw. intros Hqa. destruct (Ha _ Hq Hqa) as (_ & _ & _ & _ & Hm).
    by apply (Hm va).
  - intros va' Hva' Hne. split; [apply Hlk|]. intros Hv' a Ha. apply Hw. intros Hqa. apply Hne.
    apply (ui_inj _ _ _ _ Hu); try done.
    apply (page_of_byte Hlink _ _ a); [by apply (ui_page _ _ _ _ Hu)|done|done|done].
  - apply ptree_frame; [|done]. intros p t Hp Et x Hx. apply Hw. intros Hqx. apply Hqt.
    destruct (pt_page _ _ _ Hpt p t Hp Et) as [Hkt _].
    rewrite <- (page_of_byte Hlink t _ x Hkt Hq Hx Hqx). by exists p.
Qed.

(** ** Writing user memory *)

(** The effect of code that touches pages of [dst, dst + n) only, where it may
    map zeroed pages, and writes user memory only at addresses in [W]: other
    bytes keep their value, an unmapped address stays unmapped or reads 0. *)
Record uwrite (root B dst n : Z) (W : Z -> Prop) (s : kmem) (l : list Z) (s' : kmem) (l' : list Z) : Prop := {
  uw_step : ustep root B (fun va => forall x, dst <= x < dst + n -> vpn x <> vpn va) s l 0 s' l' 0;
  uw_high : forall va, B <= va < MAXVA ->
    lookup_pte (kmem_mem s') root va = lookup_pte (kmem_mem s) root va;
  uw_valid : forall va, 0 <= va < B -> valid_at (kmem_mem s) root va = true ->
    lookup_pte (kmem_mem s') root va = lookup_pte (kmem_mem s) root va;
  uw_some : forall va b, ~ W va ->
    ubyte s root B va = Some b -> ubyte s' root B va = Some b;
  uw_none : forall va, ~ W va -> ubyte s root B va = None ->
    ubyte s' root B va = None \/ ubyte s' root B va = Some 0
}.
#[local] Arguments uw_step {root B dst n W s l s' l'}.
#[local] Arguments uw_high {root B dst n W s l s' l'}.
#[local] Arguments uw_valid {root B dst n W s l s' l'}.
#[local] Arguments uw_some {root B dst n W s l s' l'}.
#[local] Arguments uw_none {root B dst n W s l s' l'}.

Lemma uguard_high s s' root B :
  (forall va, B <= va < MAXVA -> lookup_pte (kmem_mem s') root va = lookup_pte (kmem_mem s) root va) ->
  uguard s root B -> uguard s' root B.
Proof.
  intros H Hg va Hva. specialize (Hg va Hva). unfold user_at, valid_at in *. by rewrite H.
Qed.

Lemma uwrite_weaken root B dst n (W : Z -> Prop) dst' n' (W' : Z -> Prop) s l s' l' :
  dst' <= dst -> dst + n <= dst' + n' -> (forall va, W va -> W' va) ->
  uwrite root B dst n W s l s' l' -> uwrite root B dst' n' W' s l s' l'.
Proof.
  intros H1 H2 HW [U1 U2 U3 U4 U5]. split; try done.
  - eapply ustep_weaken; [|done]. intros va Hva Hno x Hx. apply Hno. lia.
  - intros va b Hno. apply U4. auto.
  - intros va Hno. apply U5. auto.
Qed.

Lemma uwrite_trans root B dst n W s1 l1 s2 l2 s3 l3 :
  uwrite root B dst n W s1 l1 s2 l2 -> uwrite root B dst n W s2 l2 s3 l3 ->
  uwrite root B dst n W s1 l1 s3 l3.
Proof.
  intros U1 U2. split.
  - eapply ustep_trans; [apply U1|apply U2].
  - intros va Hva. by rewrite (uw_high U2), (uw_high U1).
  - intros va Hva Hv. rewrite (uw_valid U2), (uw_valid U1); try done.
    unfold valid_at. by rewrite (uw_valid U1).
  - intros va b Hno Hb. by apply (uw_some U2), (uw_some U1).
  - intros va Hno Hb. destruct (uw_none U1 va Hno Hb) as [E|E].
    + by apply (uw_none U2).
    + right. by apply (uw_some U2).
Qed.

Lemma uwrite_refl root B dst n W s l : ust root B s l 0 -> uwrite root B dst n W s l s l.
Proof. intros U. split; auto. by apply ustep_refl. Qed.

(** A page that keeps its translation and contents keeps its bytes. *)
Lemma ubyte_same s s' root B va :
  (0 <= va < B ->
   lookup_pte (kmem_mem s') root va = lookup_pte (kmem_mem s) root va /\
   (valid_at (kmem_mem s) root va = true ->
    forall a, page_at (kmem_mem s) root va <= a < page_at (kmem_mem s) root va + PGSIZE ->
      kmem_mem s' a = kmem_mem s a)) ->
  ubyte s' root B va = ubyte s root B va.
Proof.
  intros H. unfold ubyte. destruct (in_range 0 B va) eqn:E; [|done].
  apply in_range_true in E. destruct (H ltac:(lia)) as [E1 Hm].
  unfold user_at, valid_at, phys, page_at in *. rewrite E1. simpl.
  destruct (pte_has _ PTE_V) eqn:Ev; [|done]. simpl. destruct (pte_has _ PTE_U); [|done].
  f_equal. apply Hm; [done|]. pose proof (Z.mod_pos_bound va PGSIZE). unfold PGSIZE in *. lia.
Qed.

(** A step that keeps every mapped page. *)
Lemma uwrite_keep root B s l s' l' dst n W :
  ustep root B (fun _ => True) s l 0 s' l' 0 ->
  (forall va, 0 <= va < MAXVA -> lookup_pte (kmem_mem s') root va = lookup_pte (kmem_mem s) root va) ->
  0 <= B <= MAXVA -> uwrite root B dst n W s l s' l'.
Proof.
  intros U Hlk HB.
  assert (Hb : forall va, ubyte s' root B va = ubyte s root B va).
  { intros va. apply ubyte_same. intros Hva. by apply (us_keep U va). }
  split.
  - by eapply ustep_weaken; [|apply U].
  - intros. apply Hlk. lia.
  - intros. apply Hlk. lia.
  - intros va b _. by rewrite Hb.
  - intros va _. rewrite Hb. auto.
Qed.

(** Mapping a zeroed page at an unmapped address. *)
Lemma uwrite_fault root B s l s' l' dst n W va ka :
  ustep root B (fun va' => vpn va' <> vpn va) s l 0 s' l' 0 -> kpage ka ->
  valid_at (kmem_mem s) root va = false ->
  (forall va', 0 <= va' < MAXVA -> lookup_pte (kmem_mem s') root va' =
     if decide (vpn va' = vpn va) then map_pte ka fault_perm
     else lookup_pte (kmem_mem s) root va') ->
  (forall x, ka <= x < ka + PGSIZE -> kmem_mem s' x = 0) ->
  0 <= B <= MAXVA -> (forall va', B <= va' < MAXVA -> vpn va' <> vpn va) ->
  (exists x, dst <= x < dst + n /\ vpn x = vpn va) -> uwrite root B dst n W s l s' l'.
Proof.
  intros U Hka Hv Hlk Hz HB Hhi (x0 & Hx0 & Ex0).
  assert (Hin : forall va', vpn va' = vpn va -> ubyte s root B va' = None).
  { intros va' E. unfold ubyte, user_at, valid_at in *.
    rewrite (lookup_pte_page _ _ va' va E), Hv. by rewrite andb_false_r. }
  assert (Hout : forall va', vpn va' <> vpn va -> ubyte s' root B va' = ubyte s root B va').
  { intros va' Hne. apply ubyte_same. intros Hva. by apply (us_keep U va'). }
  split.
  - eapply ustep_weaken; [|apply U]. intros va' Hva' Hno E. apply (Hno x0); [done|congruence].
  - intros va' Hva'. rewrite Hlk by lia. by rewrite decide_False by auto.
  - intros va' Hva' Hv'. rewrite Hlk by lia. rewrite decide_False; [done|]. intros E.
    unfold valid_at in *. rewrite (lookup_pte_page _ _ va' va E) in Hv'. congruence.
  - intros va' b _ Hb. destruct (decide (vpn va' = vpn va)) as [E|E].
    + by rewrite Hin in Hb.
    + by rewrite Hout.
  - intros va' _ Hb. destruct (decide (vpn va' = vpn va)) as [E|E]; [|rewrite Hout by done; auto].
    unfold ubyte. destruct (in_range 0 B va' && _) eqn:Eb; [right|by left].
    apply andb_true_iff in Eb as [Er _]. apply in_range_true in Er. f_equal.
    unfold phys, page_at. rewrite Hlk, decide_True by (done || lia).
    rewrite map_pte_pa by first [done|apply Hka|by apply kpage_pte_range].
    apply Hz. pose proof (Z.mod_pos_bound va' PGSIZE). unfold PGSIZE in *. lia.
Qed.

Definition is_byte (b : Z) : Prop := 0 <= b < 256.

Lemma mem_write_ok m a bs : bytes_ok m -> Forall is_byte bs -> bytes_ok (mem_write m a bs).
Proof.
  intros Hm Hb x. destruct (in_range a (Z.of_nat (length bs)) x) eqn:E;
    [apply in_range_true in E|apply in_range_false in E].
  - rewrite mem_write_in by lia. destruct (bs !! Z.to_nat (x - a)) as [b|] eqn:Eb; simpl; [|lia].
    rewrite Forall_lookup in Hb. apply (Hb _ _ Eb).
  - rewrite mem_write_out by lia. apply Hm.
Qed.

(** [d] is an address of the page of [a]. *)
Lemma same_page_mod a d : vpn d = vpn a -> d mod PGSIZE = a mod PGSIZE + (d - a).
Proof. unfold vpn, PGSIZE. pose proof (Z.div_mod a 4096). pose proof (Z.div_mod d 4096). lia. Qed.

Lemma same_page_iff a d n :
  0 < n -> a mod PGSIZE + n <= PGSIZE -> a <= d < a + n -> vpn d = vpn a.
Proof.
  intros Hn Hp Hd. destruct (PGROUNDDOWN_bounds a) as [Ha Hb]. pose proof (down_offset a).
  rewrite <- (vpn_down a). apply (vpn_aligned _ d Ha). lia.
Qed.

Lemma user_page_below s root l B va :
  ust root B s l 0 -> 0 <= va < B -> user_at (kmem_mem s) root va = true ->
  valid_at (kmem_mem s) root va = true /\ kpage (page_at (kmem_mem s) root va).
Proof.
  intros U Hva Hu. apply andb_true_iff in Hu as [Hv _]. split; [done|].
  by apply (ui_page _ _ _ _ (us_uinv U)).
Qed.

Lemma page_below B a d : page_aligned B -> 0 <= a < B -> vpn d = vpn a -> 0 <= d < B.
Proof.
  unfold page_aligned, vpn, PGSIZE. intros HB Ha E. pose proof (Z.div_mod a 4096).
  pose proof (Z.div_mod d 4096). pose proof (Z.div_mod B 4096).
  pose proof (Z.mod_pos_bound d 4096). pose proof (Z.mod_pos_bound a 4096).
  pose proof (Z.div_pos a 4096). lia.
Qed.

(** Writing [bs] at a mapped address, inside one page. *)
Lemma uwrite_bytes root B s l dst bs :
  ust root B s l 0 -> page_aligned B -> 0 <= dst < B -> user_at (kmem_mem s) root dst = true ->
  bs <> [] -> dst mod PGSIZE + Z.of_nat (length bs) <= PGSIZE -> Forall is_byte bs ->
  let s' := set_mem s (mem_write (kmem_mem s) (phys (kmem_mem s) root dst) bs) in
  uwrite root B dst (Z.of_nat (length bs)) (fun va => dst <= va < dst + Z.of_nat (length bs)) s l s' l /\
  (forall i b, bs !! i = Some b -> ubyte s' root B (dst + Z.of_nat i) = Some b).
Proof.
  intros U HB Hd Hu Hne Hlen Hbs s'. destruct (user_page_below s root l B dst U Hd Hu) as [Hv Hq].
  assert (0 < Z.of_nat (length bs)) as Hl by (destruct bs; [done|simpl; lia]).
  pose proof (Z.mod_pos_bound dst PGSIZE ltac:(done)) as Hmod.
  assert (Hw : writes_page (page_at (kmem_mem s) root dst) (kmem_mem s) (kmem_mem s')).
  { intros x Hx. apply mem_write_out. unfold phys. lia. }
  destruct (write_ustep root B s l dst (kmem_mem s') U Hd Hv) as [U' Hlk]; [|done|].
  { apply mem_write_ok; [apply (kinv_bytes _ _ (us_kinv U))|done]. }
  assert (Hsame : forall va, vpn va = vpn dst -> ubyte s' root B va =
            Some (kmem_mem s' (page_at (kmem_mem s) root dst + va mod PGSIZE)) /\
            ubyte s root B va = Some (kmem_mem s (page_at (kmem_mem s) root dst + va mod PGSIZE))).
  { intros va E. unfold ubyte.
    rewrite (proj2 (in_range_true 0 B va)) by (pose proof (page_below B dst va HB Hd E); lia).
    unfold user_at, valid_at, phys, page_at in *. rewrite !Hlk.
    rewrite !(lookup_pte_page _ _ va dst E). by rewrite Hu. }
  assert (Hother : forall va, vpn va <> vpn dst -> ubyte s' root B va = ubyte s root B va).
  { intros va Hn. apply ubyte_same. intros Hva. by apply (us_keep U' va). }
  assert (Hout : forall va, ~ (dst <= va < dst + Z.of_nat (length bs)) ->
            ubyte s' root B va = ubyte s root B va).
  { intros va Hno. destruct (decide (vpn va = vpn dst)) as [E|E]; [|by apply Hother].
    destruct (Hsame va E) as [-> ->]. f_equal. apply mem_write_out. unfold phys.
    rewrite (same_page_mod dst va E). lia. }
  split; [split|].
  - eapply ustep_weaken; [|apply U']. intros va Hva Hno E. apply (Hno dst); [lia|done].
  - intros. apply Hlk.
  - intros. apply Hlk.
  - intros va b Hno. by rewrite Hout.
  - intros va Hno. rewrite Hout by done. auto.
  - intros i b Hi. pose proof (lookup_lt_Some _ _ _ Hi).
    assert (vpn (dst + Z.of_nat i) = vpn dst) as E by (apply (same_page_iff dst _ _ Hl Hlen); lia).
    destruct (Hsame _ E) as [-> _]. f_equal. rewrite (same_page_mod dst _ E).
    replace (dst + Z.of_nat i - dst) with (Z.of_nat i) by lia. rewrite Z.add_assoc.
    change (kmem_mem s') with (mem_write (kmem_mem s) (phys (kmem_mem s) root dst) bs).
    rewrite mem_write_in by (unfold phys; lia). unfold phys.
    replace (Z.to_nat _) with i by lia. by rewrite Hi.
Qed.

(** ** copyout and copyin *)

Section Copy.
Context (e : env) (root B sz : Z).
Context (Hl : kfree_locks e) (HBa : page_aligned B) (HB : 0 <= B <= MAXVA) (Hsz : sz <= B).

(** The start of an iteration of [copyout] and [copyin]: find the page of [va],
    faulting it in if needed. *)
Lemma resolve {A} s l va dst n W (kF : K kmem A) (k : Z -> K kmem A) :
  ust root B s l 0 -> uguard s root B -> 0 <= va ->
  (exists x, dst <= x < dst + n /\ vpn x = vpn va) ->
  let code :=
    (pa0 <- walkaddr root va ;;
     pa0 <- (if pa0 =? 0 then vmfault (Uproc sz root) root va else ret pa0) ;;
     if pa0 =? 0 then kF else k pa0) e s in
  (exists s' l', code = kF e s' /\ uwrite root B dst n W s l s' l' /\
     forall x, vpn x = vpn va -> ubyte s root B x = None) \/
  (exists s' l', code = k (page_at (kmem_mem s') root va) e s' /\ uwrite root B dst n W s l s' l' /\
     va < B /\ user_at (kmem_mem s') root va = true).
Proof.
  intros U Hg Hva Hx code. unfold code.
  rewrite (bind_step _ _ _ _ _ _ _ (walkaddr_run e s l root va (us_pt U))).
  destruct ((va <? MAXVA) && user_at (kmem_mem s) root va) eqn:Eu.
  - apply andb_true_iff in Eu as [Em Eu]. apply Z.ltb_lt in Em.
    assert (va < B) as HvB.
    { destruct (Z.lt_ge_cases va B) as [|Hge]; [done|]. by rewrite (Hg va) in Eu by lia. }
    destruct (user_page_below s root l B va U ltac:(lia) Eu) as [_ Hq].
    pose proof (kpage_nonzero Hlink _ Hq) as Hq0.
    rewrite (proj2 (Z.eqb_neq (page_at (kmem_mem s) root va) 0)) by lia. kstep.
    rewrite (proj2 (Z.eqb_neq (page_at (kmem_mem s) root va) 0)) by lia.
    right. exists s, l. split; [done|]. split; [by apply uwrite_refl|done].
  - assert (Hno : forall x, vpn x = vpn va -> ubyte s root B x = None).
    { intros x E. unfold ubyte. destruct (in_range 0 B x) eqn:Er; [|done]. apply in_range_true in Er.
      pose proof (page_below B x va HBa ltac:(lia) (eq_sym E)).
      rewrite (proj2 (Z.ltb_lt va MAXVA)) in Eu by lia. simpl in Eu.
      by rewrite (user_at_page _ _ x va E), Eu. }
    simpl (0 =? 0). cbv iota.
    destruct (vmfault_run e root B s l sz va Hl ltac:(lia) U Hsz Hva)
      as [(s' & l' & E & U' & Hlk)|(ka & s' & l' & E & Hka & Hlt & Hv & U' & Hlk & Hz)];
      rewrite (bind_step _ _ _ _ _ _ _ E).
    + left. exists s', l'. split; [done|]. split; [by apply uwrite_keep|done].
    + pose proof (kpage_nonzero Hlink _ Hka). rewrite (proj2 (Z.eqb_neq ka 0)) by lia.
      pose proof (kpage_pte_range Hlink ka Hka) as Hkr.
      assert (lookup_pte (kmem_mem s') root va = map_pte ka fault_perm) as Ev
        by (rewrite Hlk, decide_True by (done || lia); done).
      right. exists s', l'. split; [|split; [|split; [lia|]]].
      * unfold page_at. rewrite Ev, map_pte_pa by first [done|apply Hka]. done.
      * apply (uwrite_fault root B s l s' l' dst n W va ka); try done.
        intros va' Hva' E'. pose proof (page_below B va va' HBa ltac:(lia) E'). lia.
      * unfold user_at, valid_at. rewrite Ev. rewrite map_pte_valid by done.
        by rewrite pte_has_U, map_pte_bit by done.
Qed.

Lemma PGROUNDDOWN_nonneg va : 0 <= va -> 0 <= PGROUNDDOWN va.
Proof. intros H. rewrite PGROUNDDOWN_spec. pose proof (Z.div_pos va PGSIZE). unfold PGSIZE in *. lia. Qed.

Lemma copyout_loop_S f up dst src :
  src <> [] ->
  let va0 := PGROUNDDOWN dst in
  let n := Z.min (PGSIZE - (dst - va0)) (Z.of_nat (length src)) in
  copyout_loop (S f) up root dst src =
    if MAXVA <=? va0 then ret (-1)
    else
      pa0 <- walkaddr root va0 ;;
      pa0 <- (if pa0 =? 0 then vmfault up root va0 else ret pa0) ;;
      if pa0 =? 0 then ret (-1)
      else
        pte <- walk root va0 false ;;
        if pte =? 0 then undef "null pte"
        else
          v <- read_pte pte ;;
          if negb (pte_has v PTE_W) then ret (-1)
          else
            modify (fun s => set_mem s (mem_write (kmem_mem s) (pa0 + (dst - va0))
                                                  (take (Z.to_nat n) src))) ;;
            copyout_loop f up root (u64 (va0 + PGSIZE)) (drop (Z.to_nat n) src).
Proof. by destruct src. Qed.

(** One iteration of [copyout]. *)
Lemma copyout_step f s l dst src :
  ust root B s l 0 -> uguard s root B -> 0 <= dst -> src <> [] -> Forall is_byte src ->
  let n := Z.min (PGSIZE - (dst - PGROUNDDOWN dst)) (Z.of_nat (length src)) in
  let W := fun va => dst <= va < dst + n in
  (exists s' l', copyout_loop (S f) (Uproc sz root) root dst src e s = Ret (-1) e s' /\
     uwrite root B dst n W s l s' l') \/
  (exists s' l', copyout_loop (S f) (Uproc sz root) root dst src e s =
       copyout_loop f (Uproc sz root) root (u64 (PGROUNDDOWN dst + PGSIZE)) (drop (Z.to_nat n) src) e s' /\
     uwrite root B dst n W s l s' l' /\ dst < B /\
     forall i b, take (Z.to_nat n) src !! i = Some b -> ubyte s' root B (dst + Z.of_nat i) = Some b).
Proof.
  intros U Hg Hd Hne Hbs n W. destruct (PGROUNDDOWN_bounds dst) as [Ha Hb].
  pose proof (down_offset dst) as Hoff. pose proof (PGROUNDDOWN_nonneg dst Hd) as Hd0.
  assert (0 < n) as Hn by (unfold n; destruct src; [done|]; simpl length; lia).
  assert (Z.of_nat (length (take (Z.to_nat n) src)) = n) as Hlen
    by (rewrite length_take; unfold n in *; lia).
  rewrite copyout_loop_S by done. cbv zeta. fold n.
  destruct (Z.leb_spec MAXVA (PGROUNDDOWN dst)) as [|HM].
  { left. exists s, l. split; [done|]. by apply uwrite_refl. }
  assert (exists x, dst <= x < dst + n /\ vpn x = vpn (PGROUNDDOWN dst)) as Hx
    by (exists dst; rewrite vpn_down; split; [lia|done]).
  edestruct (resolve (A := Z) s l (PGROUNDDOWN dst) dst n W) as [(s1 & l1 & -> & W1 & _)|(s1 & l1 & -> & W1 & HdB & Hu)];
    [done|done|done|done|left; by exists s1, l1|].
  pose proof (us_ust (uw_step W1)) as U1. rewrite (walk_read e s1 l1) by (done || apply U1). cbv beta.
  assert (HdB' : 0 <= dst < B) by (pose proof (page_below B _ dst HBa (conj Hd0 HdB) (eq_sym (vpn_down dst))); lia).
  rewrite (user_at_page _ _ _ dst (vpn_down dst)) in Hu.
  destruct (table (kmem_mem s1) root _) eqn:Et.
  2: { apply lookup_none in Et. rewrite (lookup_pte_page _ _ _ dst (vpn_down dst)) in Et.
       unfold user_at, valid_at in Hu. by rewrite Et in Hu. }
  destruct (pte_has (lookup_pte _ _ _) PTE_W); cbn [negb]; cbv iota;
    [|left; by exists s1, l1]. kstep. right.
  destruct (uwrite_bytes root B s1 l1 dst (take (Z.to_nat n) src) U1 HBa HdB' Hu) as [W2 Hb2].
  - intros E. rewrite E in Hlen. simpl in Hlen. lia.
  - rewrite Hlen. unfold n. lia.
  - by apply Forall_take.
  - rewrite Hlen in W2. unfold phys in W2, Hb2. rewrite <- down_offset in W2, Hb2.
    assert (Ep : page_at (kmem_mem s1) root (PGROUNDDOWN dst) = page_at (kmem_mem s1) root dst)
      by (unfold page_at; by rewrite (lookup_pte_page _ _ _ dst (vpn_down dst))).
    rewrite Ep. eexists _, l1. split; [done|]. split; [by eapply uwrite_trans|].
    split; [lia|done].
Qed.

Lemma copyout_nil f up dst s : copyout_loop f up root dst [] e s = Ret 0 e s.
Proof. by destruct f. Qed.

(** The next iteration starts where this one ended. *)
Lemma next_chunk va len (n := Z.min (PGSIZE - (va - PGROUNDDOWN va)) len) :
  0 < len -> 0 <= va < MAXVA ->
  0 < n <= len /\ (n < len -> u64 (PGROUNDDOWN va + PGSIZE) = va + n) /\
  va mod PGSIZE + n <= PGSIZE.
Proof.
  intros Hlen Hva. destruct (PGROUNDDOWN_bounds va) as [Ha Hb]. pose proof (down_offset va).
  pose proof (PGROUNDDOWN_nonneg va). change MAXVA with (2 ^ 38) in *. unfold n.
  split; [lia|]. split; [|lia]. intros Hlt.
  rewrite uint_wrap_small by (unfold PGSIZE in *; lia). lia.
Qed.

Lemma copyout_loop_run f : forall s l dst src,
  ust root B s l 0 -> uguard s root B -> 0 <= dst -> (length src <= f)%nat -> Forall is_byte src ->
  exists r s' l', copyout_loop f (Uproc sz root) root dst src e s = Ret r e s' /\
    uwrite root B dst (Z.of_nat (length src)) (fun va => dst <= va < dst + Z.of_nat (length src)) s l s' l' /\
    ((r = 0 /\ forall i b, src !! i = Some b -> ubyte s' root B (dst + Z.of_nat i) = Some b) \/ r = -1).
Proof.
  induction f as [|f IH]; intros s l dst src U Hg Hd Hf Hbs;
    (destruct (decide (src = [])) as [->|Hne];
     [exists 0, s, l; rewrite copyout_nil; split; [done|]; split; [by apply uwrite_refl|by left]|]).
  { destruct src; [done|simpl in Hf; lia]. }
  set (len := Z.of_nat (length src)).
  assert (0 < len) as Hlen by (unfold len; destruct src; [done|simpl length; lia]).
  destruct (copyout_step f s l dst src U Hg Hd Hne Hbs) as [(s1 & l1 & -> & W1)|(s1 & l1 & -> & W1 & HdB & Hb1)].
  - exists (-1), s1, l1. split; [done|]. split; [|by right].
    eapply uwrite_weaken; [| | |apply W1]; simpl; lia.
  - destruct (next_chunk dst len Hlen ltac:(lia)) as (Hn & Hnext & _).
    set (n := Z.min (PGSIZE - (dst - PGROUNDDOWN dst)) len) in *. fold len in W1, Hb1. fold n in W1, Hb1.
    fold len. fold n.
    assert (W1' : uwrite root B dst len (fun va => dst <= va < dst + len) s l s1 l1)
      by (eapply uwrite_weaken; [| | |apply W1]; simpl; lia).
    destruct (decide (drop (Z.to_nat n) src = [])) as [Ed|Ed].
    + rewrite Ed. exists 0, s1, l1. rewrite copyout_nil. split; [done|]. split; [done|]. left.
      split; [done|]. intros i b Hi. apply Hb1. by rewrite <- (take_drop (Z.to_nat n) src), Ed, app_nil_r in Hi.
    + assert (n < len) as Hlt.
      { destruct (Z.lt_ge_cases n len); [done|]. destruct Ed. apply drop_ge. unfold len in *. lia. }
      rewrite Hnext by done.
      destruct (IH s1 l1 (dst + n) (drop (Z.to_nat n) src)) as (r & s2 & l2 & -> & W2 & Hr);
        [apply W1|eapply uguard_high; [apply W1|done]|lia|rewrite length_drop; unfold len in *; lia
        |by apply Forall_drop|].
      rewrite length_drop in W2. replace (Z.of_nat (length src - Z.to_nat n)) with (len - n) in W2
        by (unfold len in *; lia).
      exists r, s2, l2. split; [done|]. split.
      * eapply uwrite_trans; [apply W1'|]. eapply uwrite_weaken; [| | |apply W2]; simpl; lia.
      * destruct Hr as [[-> Hb2]|]; [left|by right]. split; [done|]. intros i b Hi.
        destruct (decide (i < Z.to_nat n)%nat) as [Hi'|Hi'].
        -- apply (uw_some W2); [lia|]. apply Hb1. by rewrite lookup_take_lt by done.
        -- replace (dst + Z.of_nat i) with (dst + n + Z.of_nat (i - Z.to_nat n)) by lia.
           apply Hb2. rewrite lookup_drop. by replace (Z.to_nat n + (i - Z.to_nat n))%nat with i by lia.
Qed.

Lemma copyin_loop_S f up src len :
  0 < len ->
  let va0 := PGROUNDDOWN src in
  let n := Z.min (PGSIZE - (src - va0)) len in
  copyin_loop (S f) up root src len =
    (pa0 <- walkaddr root va0 ;;
     pa0 <- (if pa0 =? 0 then vmfault up root va0 else ret pa0) ;;
     if pa0 =? 0 then ret None
     else
       bs <- gets (fun s => bytes_at (kmem_mem s) (pa0 + (src - va0)) (Z.to_nat n)) ;;
       r <- copyin_loop f up root (u64 (va0 + PGSIZE)) (len - n) ;;
       ret (option_map (fun l => bs ++ l) r)).
Proof. intros H. simpl. by rewrite (proj2 (Z.leb_gt _ _)). Qed.

(** The bytes of a mapped page, as [copyin] reads them. *)
Lemma ubyte_page s l va i :
  ust root B s l 0 -> 0 <= va < B -> user_at (kmem_mem s) root va = true ->
  0 <= i -> va mod PGSIZE + i < PGSIZE ->
  ubyte s root B (va + i) = Some (kmem_mem s (phys (kmem_mem s) root va + i)).
Proof.
  intros U Hva Hu Hi Hlt. pose proof (Z.mod_pos_bound va PGSIZE ltac:(done)).
  assert (vpn (va + i) = vpn va) as E by (apply (same_page_iff va _ (i + 1)); lia).
  unfold ubyte. rewrite (proj2 (in_range_true 0 B _)) by (pose proof (page_below B va _ HBa Hva E); lia).
  rewrite (user_at_page _ _ _ va E), Hu. simpl. unfold phys, page_at.
  rewrite (lookup_pte_page _ _ _ va E), (same_page_mod va _ E). do 2 f_equal. lia.
Qed.

Lemma copyin_loop_run f : forall s l src len,
  ust root B s l 0 -> uguard s root B -> 0 <= src -> len <= Z.of_nat f ->
  exists r s' l', copyin_loop f (Uproc sz root) root src len e s = Ret r e s' /\
    uwrite root B src len (fun _ => False) s l s' l' /\
    match r with
    | Some bs => length bs = Z.to_nat len /\
        forall i b, bs !! i = Some b -> ubyte s' root B (src + Z.of_nat i) = Some b
    | None => exists i, 0 <= i < len /\ ubyte s root B (src + i) = None
    end.
Proof.
  induction f as [|f IH]; intros s l src len U Hg Hs Hf;
    (destruct (Z.leb_spec len 0) as [Hle|Hlen];
     [exists (Some []), s, l; split; [simpl; by rewrite (proj2 (Z.leb_le len 0))|];
      split; [by apply uwrite_refl|simpl; split; [lia|done]]|]); [lia|].
  rewrite copyin_loop_S by done. cbv zeta.
  set (n := Z.min (PGSIZE - (src - PGROUNDDOWN src)) len).
  pose proof (PGROUNDDOWN_nonneg src Hs). destruct (PGROUNDDOWN_bounds src) as [Ha Hb].
  edestruct (resolve (A := option (list Z)) s l (PGROUNDDOWN src) src len (fun _ => False))
    as [(s1 & l1 & -> & W1 & Hno)|(s1 & l1 & -> & W1 & HsB & Hu)];
    [done|done|done|exists src; rewrite vpn_down; split; [lia|done]|exists None, s1, l1; split; [done|split; [done|exists 0; split; [lia|]; apply Hno; by rewrite vpn_down, Z.add_0_r]]|].
  rewrite (user_at_page _ _ _ src (vpn_down src)) in Hu.
  assert (HsB' : 0 <= src < B)
    by (pose proof (page_below B _ src HBa (conj H HsB) (eq_sym (vpn_down src))); lia).
  destruct (next_chunk src len Hlen ltac:(lia)) as (Hn & Hnext & Hpg). fold n in Hn, Hnext, Hpg.
  pose proof (us_ust (uw_step W1)) as U1. kstep.
  set (bs := bytes_at _ _ _).
  assert (Hbs : forall i b, bs !! i = Some b -> ubyte s1 root B (src + Z.of_nat i) = Some b).
  { intros i b Hi. pose proof (lookup_lt_Some _ _ _ Hi) as Hlt. unfold bs in *.
    rewrite length_bytes_at in Hlt. rewrite bytes_at_lookup in Hi by done. injection Hi as <-.
    rewrite (ubyte_page s1 l1) by (done || lia). do 2 f_equal. unfold phys, page_at.
    by rewrite down_offset, (lookup_pte_page _ _ _ src (vpn_down src)). }
  assert (Hbl : length bs = Z.to_nat n) by apply length_bytes_at.
  assert (Hrest : exists r s' l', copyin_loop f (Uproc sz root) root (u64 (PGROUNDDOWN src + PGSIZE)) (len - n) e s1
            = Ret r e s' /\ uwrite root B src len (fun _ => False) s1 l1 s' l' /\
            match r with
            | Some bs => length bs = Z.to_nat (len - n) /\
                forall i b, bs !! i = Some b -> ubyte s' root B (src + n + Z.of_nat i) = Some b
            | None => exists i, 0 <= i < len - n /\ ubyte s1 root B (src + n + i) = None
            end).
  { destruct (Z.lt_ge_cases n len) as [Hlt|Hge].
    - rewrite Hnext by done. destruct (IH s1 l1 (src + n) (len - n)) as (r & s2 & l2 & E & W2 & Hr);
        [done|eapply uguard_high; [apply W1|done]|lia|lia|].
      exists r, s2, l2. split; [done|]. split; [|done]. eapply uwrite_weaken; [| | |apply W2]; auto; lia.
    - exists (Some []), s1, l1. split; [destruct f; simpl; by rewrite (proj2 (Z.leb_le _ 0)) by lia|].
      split; [by apply uwrite_refl|]. split; [simpl; lia|done]. }
  destruct Hrest as (r & s2 & l2 & E & W2 & Hr). rewrite (bind_step _ _ _ _ _ _ _ E).
  eexists _, s2, l2. split; [done|]. split; [by eapply uwrite_trans|].
  destruct r as [bs'|]; simpl.
  2: { destruct Hr as (i & Hi & E1). exists (n + i). split; [lia|]. rewrite Z.add_assoc.
       destruct (ubyte s root B (src + n + i)) as [b|] eqn:Eb; [|done].
       apply (uw_some W1) in Eb; [congruence|tauto]. }
  destruct Hr as [Hl' Hr]. rewrite length_app, Hl', Hbl.
  split; [lia|]. intros i b Hi. apply lookup_app_Some in Hi as [Hi|[Hge Hi]].
  - apply (uw_some W2); [tauto|]. by apply Hbs.
  - replace (src + Z.of_nat i) with (src + n + Z.of_nat (i - length bs)) by lia. by apply Hr.
Qed.

End Copy.

(** ** Properties *)



(** The round trip: what [copyout] wrote successfully, [copyin] reads back. *)
Theorem copyin_copyout e root B sz s l dst src s1 :
  kfree_locks e -> page_aligned B -> 0 <= B <= MAXVA -> sz <= B ->
  ust root B s l 0 -> uguard s root B -> 0 <= dst -> Forall is_byte src ->
  copyout (Uproc sz root) root dst src e s = Ret 0 e s1 ->
  exists s2, copyin (Uproc sz root) root dst (Z.of_nat (length src)) e s1 = Ret (Some src) e s2.
Proof.
  intros Hl HBa HB Hsz U Hg Hd Hbs Hout.
  destruct (copyout_loop_run e root B sz Hl HBa HB Hsz (length src) s l dst src U Hg Hd (le_n _) Hbs)
    as (r & s' & l' & E & W & Hr). unfold copyout in Hout. rewrite Hout in E. injection E as <- <-.
  destruct Hr as [[_ Hw]|]; [|done].
  destruct (copyin_loop_run e root B sz Hl HBa HB Hsz (Z.to_nat (Z.of_nat (length src))) s1 l' dst
              (Z.of_nat (length src))) as (r & s2 & l2 & E & W2 & Hr);
    [apply W|eapply uguard_high; [apply W|done]|done|lia|].
  exists s2. unfold copyin. rewrite E. destruct r as [bs|].
  - destruct Hr as [Hlen Hr]. do 2 f_equal. apply list_eq. intros i.
    destruct (decide (i < length src)%nat) as [Hi|Hi].
    + destruct (lookup_lt_is_Some_2 bs i ltac:(lia)) as [b Hb].
      destruct (lookup_lt_is_Some_2 src i Hi) as [c Hc]. rewrite Hb, Hc.
      apply Hr in Hb. apply Hw, (uw_some W2) in Hc; [congruence|tauto].
    + rewrite !lookup_ge_None_2 by lia. done.
  - destruct Hr as (i & Hi & Hn).
    destruct (lookup_lt_is_Some_2 src (Z.to_nat i) ltac:(lia)) as [c Hc].
    apply Hw in Hc. rewrite Z2Nat.id in Hc by lia. congruence.
Qed.

End VmCopy.

(** ** Witnesses *)

#[local] Existing Instance demo_linker.

Lemma demo_guard B : uguard demo_kmem (demo_page 9) B.
Proof. intros va _. unfold user_at, valid_at. by rewrite demo_lookup. Qed.

(** The result and context of a run. *)
Definition result {T A} (o : outcome T A) : option (A * env) :=
  match o with Ret a e _ => Some (a, e) | _ => None end.

Lemma result_inv {T A} (o : outcome T A) a e : result o = Some (a, e) -> exists t, o = Ret a e t.
Proof. destruct o; simpl; intros [=]; subst; eauto. Qed.

Abbreviation demo_up := (Uproc 8192 (demo_page 9)).
Abbreviation demo_bytes := [104; 101; 108; 108; 111].

Lemma demo_is_bytes : Forall is_byte demo_bytes.
Proof. repeat constructor; unfold is_byte; lia. Qed.



Lemma copyin_copyout_witness :
  exists s1 s2, copyout demo_up (demo_page 9) 4094 demo_bytes demo_env demo_kmem = Ret 0 demo_env s1 /\
    copyin demo_up (demo_page 9) 4094 5 demo_env s1 = Ret (Some demo_bytes) demo_env s2.
Proof.
  destruct (result_inv (copyout demo_up (demo_page 9) 4094 demo_bytes demo_env demo_kmem) 0 demo_env)
    as [s1 E1]; [vm_compute; reflexivity|].
  destruct (copyin_copyout demo_linker_ok demo_env (demo_page 9) TRAPFRAME 8192 demo_kmem demo_free 4094
              demo_bytes s1 demo_locks) as [s2 E2];
    [reflexivity|vm_compute; split; congruence|vm_compute; congruence|apply demo_ust|apply demo_guard
    |lia|apply demo_is_bytes|exact E1|].
  exists s1, s2. split; [exact E1|exact E2].
Defined.
