(* ===== verification/VmSpace.v ===== *)
(** * Copying and tearing down address spaces

    Lemmas and properties of [uvmcopy], [freewalk], [uvmfree] and [kvmmake] of
    kernel/vm.c. *)

From stdpp Require Import base gmap sets list strings.
From Stdlib Require Import ZArith Lia.
From S2P Require Import Prelude Kernel Riscv Kalloc Vm VmUser VmCopy.

Section VmSpace.
Context {L : Linker} (Hlink : linker_ok).

#[local] Arguments us_kinv {_ root B s l x}.
#[local] Arguments us_pt {_ root B s l x}.
#[local] Arguments us_uinv {_ root B s l x}.
#[local] Arguments us_ust {_ root B Kp s l x s' l' x'}.
#[local] Arguments us_foreign {_ root B Kp s l x s' l' x'}.
#[local] Arguments us_mem {_ root B Kp s l x s' l' x'}.
#[local] Arguments us_keep {_ root B Kp s l x s' l' x'}.

(** ** Specification *)

(** Another address space [old], none of whose pages below [sz] belongs to the
    one rooted at [root]. *)
Record uother (s : kmem) (root : Z) (l : list Z) (B old sz : Z) : Prop := {
  ot_pt : pt_inv (kmem_mem s) old l;
  ot_table : forall t, is_table (kmem_mem s) old t -> foreign s root l B 0 t;
  ot_page : forall va, 0 <= va < sz -> valid_at (kmem_mem s) old va = true ->
    foreign s root l B 0 (page_at (kmem_mem s) old va)
}.

(** The translation and the contents of [va] in [root] are a copy of those in
    [old]: both are unmapped, or both are mapped with the same flags and the
    pages hold the same bytes. *)
Definition page_copy (s : kmem) (old root va : Z) : Prop :=
  valid_at (kmem_mem s) root va = valid_at (kmem_mem s) old va /\
  (valid_at (kmem_mem s) old va = true ->
   PTE_FLAGS (lookup_pte (kmem_mem s) root va) = PTE_FLAGS (lookup_pte (kmem_mem s) old va) /\
   forall i, 0 <= i < PGSIZE ->
     kmem_mem s (page_at (kmem_mem s) root va + i) = kmem_mem s (page_at (kmem_mem s) old va + i)).

(** ** uvmcopy *)

Lemma foreign_mem root B Kp s l s' l' q :
  ustep root B Kp s l 0 s' l' 0 -> foreign s root l B 0 q ->
  forall a, q <= a < q + PGSIZE -> kmem_mem s' a = kmem_mem s a.
Proof.
  intros U Hq a Ha. apply (us_mem U). intros q' Hq' Ha'.
  rewrite (page_of_byte Hlink q' q a); [done|done|apply Hq|done|done].
Qed.

(** Work on [root] leaves the other address space alone. *)
Lemma uother_step root B Kp s l s' l' old sz :
  ustep root B Kp s l 0 s' l' 0 -> uother s root l B old sz ->
  uother s' root l' B old sz /\
  (forall va, lookup_pte (kmem_mem s') old va = lookup_pte (kmem_mem s) old va) /\
  (forall va, 0 <= va < sz -> valid_at (kmem_mem s) old va = true ->
     forall i, 0 <= i < PGSIZE ->
       kmem_mem s' (page_at (kmem_mem s) old va + i) = kmem_mem s (page_at (kmem_mem s) old va + i)).
Proof.
  intros U [Hpt Ht Hp].
  destruct (lookup_pte_ext (kmem_mem s) (kmem_mem s') old) as [Htab Hlk].
  { intros p t Hpo Et. apply (foreign_mem root B Kp s l s' l' t U). apply Ht. by exists p. }
  split; [split|split; [done|]].
  - apply (pt_inv_tables (kmem_mem s) _ old l _ Htab); [|done]. intros t Ht'.
    apply Ht, (us_foreign U) in Ht'. apply Ht'.
  - intros t Ht'. apply (us_foreign U), Ht. by apply (is_table_ext _ _ _ _ Htab).
  - intros va Hva. unfold valid_at, page_at. rewrite Hlk. intros Hv.
    by apply (us_foreign U), Hp.
  - intros va Hva Hv i Hi. apply (foreign_mem root B Kp s l s' l' _ U (Hp va Hva Hv)). lia.
Qed.

Lemma prepares_copy pa : prepares (fun r m => mem_copy m r pa PGSIZE).
Proof.
  intros r m Hm. split; [auto with mem|]. intros x Hx. by apply mem_copy_out.
Qed.

Lemma PTE_FLAGS_range v : 0 <= PTE_FLAGS v < 1024.
Proof.
  unfold PTE_FLAGS. change 0x3FF with (Z.ones 10). rewrite Z.land_ones by lia.
  apply Z.mod_pos_bound. lia.
Qed.

Lemma map_pte_PTE_FLAGS pa v :
  page_aligned pa -> 0 <= pa < 2 ^ 56 -> pte_has v PTE_V = true ->
  PTE_FLAGS (map_pte pa (PTE_FLAGS v)) = PTE_FLAGS v.
Proof.
  intros Ha Hpa Hv. destruct (map_pte_flags pa _ (PTE_FLAGS_range v)) as [-> Hf].
  rewrite PTE_FLAGS_lor by lia. rewrite pte_has_V in Hv. apply Z.bits_inj'. intros n Hn.
  rewrite Z.lor_spec. destruct (Z.eq_dec n 0) as [->|Hn0].
  - unfold PTE_FLAGS. rewrite Z.land_spec, Hv. done.
  - change PTE_V with (2 ^ 0). rewrite Z.pow2_bits_false by lia. by rewrite orb_false_r.
Qed.

(** Outcome of [uvmcopy] on an address space [new] that was empty below [A1]:
    the other pages are kept and [old] is unchanged; on success [new] is a copy
    of [old] below [A1], on failure it is empty there.  It fails only if less than
    three pages are free for each page of [old]. *)
Record uvmcopy_post (old new B A1 : Z) (s0 : kmem) (l0 : list Z) (r : Z)
    (s' : kmem) (l' : list Z) : Prop := {
  uc_step : ustep new B (fun va => A1 <= va) s0 l0 0 s' l' 0;
  uc_other : uother s' new l' B old A1;
  uc_old : forall va, lookup_pte (kmem_mem s') old va = lookup_pte (kmem_mem s0) old va;
  uc_bytes : forall va, 0 <= va < A1 -> valid_at (kmem_mem s0) old va = true ->
    forall i, 0 <= i < PGSIZE -> kmem_mem s' (page_at (kmem_mem s0) old va + i)
                               = kmem_mem s0 (page_at (kmem_mem s0) old va + i);
  uc_above : forall va, A1 <= va < MAXVA -> lookup_pte (kmem_mem s') new va = lookup_pte (kmem_mem s0) new va;
  uc_result : (r = 0 /\ forall va, 0 <= va < A1 -> page_copy s' old new va) \/
              (r = -1 /\ Z.of_nat (length l0) * PGSIZE <= 3 * A1 /\
               forall va, 0 <= va < A1 -> valid_at (kmem_mem s') new va = false)
}.

Section Uvmcopy.
Context (e : env) (old new B sz A1 : Z) (s0 : kmem) (l0 : list Z).
Context (Hl : kfree_locks e) (HB : B <= MAXVA) (HA : A1 <= B).
Context (Al1 : page_aligned A1) (Hsz : sz <= A1 < sz + PGSIZE) (Hsz0 : 0 <= sz).
Context (Ho0 : uother s0 new l0 B old A1).
Context (Hempty : forall va, 0 <= va < A1 -> valid_at (kmem_mem s0) new va = false).

(** The state of the loop at address [i]. *)
Definition uc_inv (i : Z) (s : kmem) (l : list Z) : Prop :=
  ustep new B (fun va => A1 <= va) s0 l0 0 s l 0 /\
  (forall va, i <= va < A1 -> valid_at (kmem_mem s) new va = false) /\
  (forall va, 0 <= va < i -> page_copy s old new va) /\
  (forall va, A1 <= va < MAXVA -> lookup_pte (kmem_mem s) new va = lookup_pte (kmem_mem s0) new va).

(** Pages copied so far stay copies through a step that keeps them. *)
Lemma page_copy_keep Kp s l s' l' va :
  ustep new B (fun va => A1 <= va) s0 l0 0 s l 0 -> ustep new B Kp s l 0 s' l' 0 ->
  0 <= va < A1 -> Kp va -> page_copy s old new va -> page_copy s' old new va.
Proof.
  intros U0 U Hva Hk [Hv Hc]. destruct (uother_step _ _ _ _ _ _ _ _ _ U0 Ho0) as (Ho & _ & _).
  destruct (uother_step _ _ _ _ _ _ _ _ _ U Ho) as (_ & Hlk & Hm).
  destruct (us_keep U va ltac:(lia) Hk) as [E Hb]. unfold page_copy, valid_at, page_at in *.
  rewrite Hlk, E. split; [done|]. intros Hov. destruct (Hc Hov) as [Hf Hi]. split; [done|].
  intros i Hi'. rewrite Hm, Hb by (done || congruence || lia). by apply Hi.
Qed.

(** What the loop has used *)
Definition uc_used (i : Z) (l : list Z) : Prop :=
  Z.of_nat (length l0) * PGSIZE <= Z.of_nat (length l) * PGSIZE + 3 * i.

Lemma uc_fail i s l :
  uc_inv i s l -> page_aligned i -> 0 <= i <= A1 -> Z.of_nat (length l0) * PGSIZE <= 3 * A1 ->
  exists s' l', (uvmunmap new 0 (i / PGSIZE) true ;; ret (-1)) e s = Ret (-1) e s' /\
    uvmcopy_post old new B A1 s0 l0 (-1) s' l'.
Proof.
  intros (U & Hf & Hc & Hab) Hai Hi Hused.
  assert (Hd : i / PGSIZE * PGSIZE = i)
    by (pose proof (aligned_diff 0 i eq_refl Hai) as E; rewrite Z.sub_0_r in E; lia).
  destruct (uvmunmap_run Hlink e new B s l 0 (i / PGSIZE)) as (s' & l' & E & D);
    try done; [apply U..|apply Z.div_pos; unfold PGSIZE; lia|lia|].
  rewrite (bind_step _ _ _ _ _ _ _ E). exists s', l'. split; [done|].
  assert (U' : ustep new B (fun va => A1 <= va) s l 0 s' l' 0).
  { eapply drop_ustep; [done|done|apply U|apply D|]. intros va Hva Hk. apply unmapped_out. lia. }
  pose proof (ustep_trans _ _ _ _ _ _ _ _ _ _ _ _ U U') as U2.
  destruct (uother_step _ _ _ _ _ _ _ _ _ U2 Ho0) as (Ho & Hlk & Hb).
  split; try done.
  { intros va Hva. rewrite (dp_lookup _ _ _ _ _ _ _ D), unmapped_out by lia. by apply Hab. }
  right. split; [done|]. split; [done|]. intros va Hva. unfold valid_at.
  rewrite (dp_lookup _ _ _ _ _ _ _ D) by lia.
  destruct (Z.lt_ge_cases va i); [apply unmapped_invalid; lia|].
  rewrite unmapped_out by lia. apply Hf. lia.
Qed.

Lemma uc_done i s l :
  uc_inv i s l -> page_aligned i -> sz <= i <= A1 -> uvmcopy_post old new B A1 s0 l0 0 s l.
Proof.
  intros (U & Hf & Hc & Hab) Hai Hi. assert (A1 <= i).
  { destruct (Z.lt_ge_cases i A1) as [Hlt|]; [|lia]. pose proof (aligned_step i A1 Hai Al1 Hlt). lia. }
  destruct (uother_step _ _ _ _ _ _ _ _ _ U Ho0) as (Ho & Hlk & Hb). split; try done.
  left. split; [done|]. intros va Hva. apply Hc. lia.
Qed.

(** A page that is not mapped in [old] is skipped. *)
Lemma uc_skip i s l :
  uc_inv i s l -> page_aligned i -> 0 <= i -> i + PGSIZE <= A1 ->
  valid_at (kmem_mem s) old i = false -> uc_inv (i + PGSIZE) s l.
Proof.
  intros (U & Hf & Hc & Hab) Hai Hi0 Hi Hv. split; [done|]. split; [intros va Hva; apply Hf; unfold PGSIZE in *; lia|].
  split; [|done]. intros va Hva. destruct (Z.lt_ge_cases va i); [apply Hc; lia|].
  assert (vpn va = vpn i) as E by (apply (vpn_aligned i va Hai); lia).
  unfold page_copy. assert (valid_at (kmem_mem s) old va = false) as Hv'
    by (unfold valid_at in *; by rewrite (lookup_pte_page _ _ va i E)).
  rewrite Hv'. split; [|done]. apply Hf. lia.
Qed.

(** The fresh page now mapped at [i] is a copy. *)
Lemma uc_next i s l m s' l' :
  uc_inv i s l -> page_aligned i -> 0 <= i -> i + PGSIZE <= A1 ->
  valid_at (kmem_mem s) old i = true -> kpage m -> m ∈ l ->
  ustep new B (fun va => vpn va <> vpn i) s l 0 s' l' 0 ->
  (forall va, 0 <= va < MAXVA -> lookup_pte (kmem_mem s') new va =
     mapped (lookup_pte (kmem_mem s) new) i 1 m (PTE_FLAGS (lookup_pte (kmem_mem s) old i)) va) ->
  (forall x, m <= x < m + PGSIZE -> kmem_mem s' x =
     mem_copy (mem_fill (kmem_mem s) m 5 PGSIZE) m (page_at (kmem_mem s) old i) PGSIZE x) ->
  uc_inv (i + PGSIZE) s' l'.
Proof.
  intros (U & Hf & Hc & Hab) Hai Hi0 Hi Hv Hm Hml U' Hlk' Hmem.
  assert (Hvp : forall va, vpn va = vpn i <-> i <= va < i + PGSIZE)
    by (intros; by apply vpn_aligned).
  split; [|split; [|split; [|intros va Hva; rewrite Hlk' by (unfold PGSIZE in *; lia); rewrite mapped_out by (unfold PGSIZE in *; lia); by apply Hab]]].
  - eapply ustep_trans; [apply U|]. eapply ustep_weaken; [|apply U']. intros va Hva HA1 E.
    apply Hvp in E. lia.
  - intros va Hva. unfold valid_at. rewrite Hlk' by (unfold PGSIZE in *; lia).
    rewrite mapped_out by (unfold PGSIZE in *; lia). apply Hf. unfold PGSIZE in *. lia.
  - intros va Hva. destruct (decide (vpn va = vpn i)) as [E|E].
    2: { apply (page_copy_keep _ s l s' l' va U U'); [unfold PGSIZE in *; lia|done|].
         apply Hc. rewrite Hvp in E. lia. }
    destruct (uother_step _ _ _ _ _ _ _ _ _ U Ho0) as (Ho & _ & _).
    destruct (uother_step _ _ _ _ _ _ _ _ _ U' Ho) as (_ & Hlko & Hbo).
    pose proof (kpage_pte_range Hlink m Hm) as Hmr.
    assert (Hn : lookup_pte (kmem_mem s') new va = map_pte m (PTE_FLAGS (lookup_pte (kmem_mem s) old i)))
      by (rewrite Hlk', mapped_1, decide_True by (done || unfold PGSIZE in *; lia); done).
    unfold page_copy, valid_at, page_at in *. rewrite Hlko, Hn, (lookup_pte_page _ old va i E), Hv.
    rewrite map_pte_valid by (done || apply PTE_FLAGS_range). split; [done|]. intros _.
    rewrite map_pte_PTE_FLAGS by (done || apply Hm). split; [done|]. intros j Hj.
    rewrite map_pte_pa by (done || apply Hm || apply PTE_FLAGS_range).
    rewrite Hmem, mem_copy_in by lia. rewrite Hbo by (done || unfold PGSIZE in *; lia).
    replace (m + j - m) with j by lia. apply mem_fill_out.
    destruct (ot_page _ _ _ _ _ _ Ho i ltac:(unfold PGSIZE in *; lia) Hv) as (Hq & Hql & _).
    unfold page_at in *. intros Hx. apply Hql. set (pa := PTE2PA _) in *.
    by rewrite (page_of_byte Hlink pa m (pa + j) Hq Hm ltac:(lia) Hx).
Qed.

Lemma uvmcopy_loop_S f i :
  i < sz ->
  uvmcopy_loop (S f) old new i sz =
    (pte <- walk old i false ;;
     v <- (if pte =? 0 then ret 0 else read_pte pte) ;;
     if (pte =? 0) || negb (pte_has v PTE_V) then uvmcopy_loop f old new (u64 (i + PGSIZE)) sz
     else
       m <- kalloc ;;
       if m =? 0 then uvmunmap new 0 (i / PGSIZE) true ;; ret (-1)
       else
         modify (fun s => set_mem s (mem_copy (kmem_mem s) m (PTE2PA v) PGSIZE)) ;;
         r <- mappages new i PGSIZE m (PTE_FLAGS v) ;;
         if negb (r =? 0) then
           kfree m ;; uvmunmap new 0 (i / PGSIZE) true ;; ret (-1)
         else uvmcopy_loop f old new (u64 (i + PGSIZE)) sz).
Proof. intros H. simpl. by rewrite (proj2 (Z.ltb_lt _ _)). Qed.

(** The entry of the current page, as the loop reads it. *)
Lemma uvmcopy_entry {A} s l i (k : Z -> Z -> K kmem A) :
  pt_inv (kmem_mem s) old l -> i < MAXVA ->
  (pte <- walk old i false ;; v <- (if pte =? 0 then ret 0 else read_pte pte) ;; k pte v) e s
  = match table (kmem_mem s) old [PX 2 i; PX 1 i] with
    | Some t => k (t + 8 * PX 0 i) (lookup_pte (kmem_mem s) old i) e s
    | None => k 0 0 e s
    end /\
  (forall t, table (kmem_mem s) old [PX 2 i; PX 1 i] = Some t -> (t + 8 * PX 0 i =? 0) = false).
Proof.
  intros Hpt Hi.
  assert (Hnz : forall t, table (kmem_mem s) old [PX 2 i; PX 1 i] = Some t -> (t + 8 * PX 0 i =? 0) = false).
  { intros t Et. destruct (leaf_kpage _ _ _ _ _ Hpt Et) as [Hkt _].
    pose proof (kpage_nonzero Hlink t Hkt). pose proof (PX_ok 0 i ltac:(lia)) as Hpx.
    apply Z.eqb_neq. unfold px_ok in Hpx. lia. }
  split; [|done]. rewrite (bind_step _ _ _ _ _ _ _ (walk_lookup e s old i Hi)). unfold lookup_pte.
  destruct (table (kmem_mem s) old [PX 2 i; PX 1 i]) as [t|]; [|done]. by rewrite Hnz.
Qed.

Lemma uvmcopy_loop_run f : forall i s l,
  uc_inv i s l -> uc_used i l -> page_aligned i -> 0 <= i <= A1 -> sz - i <= Z.of_nat f * PGSIZE ->
  exists r s' l', uvmcopy_loop f old new i sz e s = Ret r e s' /\
    uvmcopy_post old new B A1 s0 l0 r s' l'.
Proof.
  unfold uc_used. induction f as [|f IH]; intros i s l Hinv Hus Hai Hi Hfu;
    (destruct (Z.lt_ge_cases i sz) as [Hlt|Hge];
     [|exists 0, s, l; split; [simpl; by rewrite (proj2 (Z.ltb_ge i sz))|];
       apply (uc_done i); done || lia]); [lia|].
  pose proof Hinv as (U & Hf & Hc & Hab). pose proof (aligned_step i A1 Hai Al1 ltac:(lia)) as Hstep.
  destruct (uother_step _ _ _ _ _ _ _ _ _ U Ho0) as (Ho & _ & _).
  rewrite uvmcopy_loop_S by done.
  edestruct (uvmcopy_entry (A := Z) s l i) as [-> Hnz]; [apply Ho|lia|]. cbv beta.
  assert (Hu : u64 (i + PGSIZE) = i + PGSIZE)
    by (apply uint_wrap_small; change MAXVA with (2 ^ 38) in *; unfold PGSIZE in *; lia).
  assert (Hskip : valid_at (kmem_mem s) old i = false ->
            exists r s' l', uvmcopy_loop f old new (u64 (i + PGSIZE)) sz e s = Ret r e s' /\
              uvmcopy_post old new B A1 s0 l0 r s' l').
  { intros Hv. rewrite Hu. apply (IH _ s l); [by apply uc_skip; try lia|unfold PGSIZE in *; lia|by apply aligned_add|unfold PGSIZE in *; lia..]. }
  destruct (table (kmem_mem s) old [PX 2 i; PX 1 i]) as [t|] eqn:Et.
  2: { apply Hskip. unfold valid_at. by rewrite (lookup_none _ _ _ Et). }
  rewrite Hnz by done. destruct (valid_at (kmem_mem s) old i) eqn:Ev; pose proof Ev as Ev';
    unfold valid_at in Ev'; rewrite Ev'; cbn [negb orb]; [|by apply Hskip].
  pose proof (alloc_map Hlink e new B s l i (PTE_FLAGS (lookup_pte (kmem_mem s) old i)) _
                (uvmunmap new 0 (i / PGSIZE) true ;; ret (-1))
                (uvmunmap new 0 (i / PGSIZE) true ;; ret (-1))
                (fun _ => uvmcopy_loop f old new (u64 (i + PGSIZE)) sz)
                Hl HB (us_ust U) Hai ltac:(lia) (PTE_FLAGS_range _) (Hf i ltac:(lia))
                (prepares_copy (page_at (kmem_mem s) old i))) as Ha.
  cbv zeta beta in Ha. unfold page_at in Ha.
  destruct Ha as [(-> & ->)|[(s1 & l1 & -> & N & U1 & Hlk1)|(m & s1 & l1 & -> & N & Hm & Hml & U1 & Hlk1 & Hmem)]].
  - destruct (uc_fail i s [] Hinv Hai ltac:(lia)) as (s' & l' & E & P); [cbn in *; unfold PGSIZE in *; lia|]. by exists (-1), s', l'.
  - destruct (uc_fail i s1 l1) as (s' & l' & E & P); [|done|lia|unfold PGSIZE in *; lia|by exists (-1), s', l'].
    split; [|split; [|split; [|intros va Hva; rewrite Hlk1 by lia; by apply Hab]]].
    + eapply ustep_trans; [apply U|]. by eapply ustep_weaken; [|apply U1].
    + intros va Hv. unfold valid_at. rewrite Hlk1 by lia. by apply Hf.
    + intros va Hv. apply (page_copy_keep _ s l s1 l1 va U U1); [lia|done|auto].
  - rewrite Hu. apply (IH (i + PGSIZE) s1 l1); [|unfold PGSIZE in *; lia|by apply aligned_add|unfold PGSIZE in *; lia..].
    by apply (uc_next i s l m); try lia.
Qed.

End Uvmcopy.

(** An empty page table does not share pages with another address space. *)
Lemma zero_uother s l q old B sz :
  ust old B s l 0 -> sz <= B -> foreign s old l B 0 q ->
  (forall x, q <= x < q + PGSIZE -> kmem_mem s x = 0) ->
  uother s q l B old sz.
Proof.
  intros U Hsz (Hq & Hql & Hqt & _ & Hqm) Hz.
  assert (Hf : forall t, kpage t -> (t ∉ l) -> t <> q -> foreign s q l B 0 t).
  { intros t Ht Htl Hne. pose proof (kpage_nonzero Hlink t Ht).
    split; [done|split; [done|split; [|split; [lia|]]]].
    - intros (p & Hp & Et). by destruct (zero_table s q p t Hq Hz Hp Et).
    - intros va _. unfold valid_at. by rewrite zero_lookup. }
  split; [apply U| |].
  - intros t Ht. pose proof Ht as (p & Hp & Et).
    destruct (pt_page _ _ _ (us_pt U) p t Hp Et). apply Hf; try done. congruence.
  - intros va Hva Hv. destruct (ui_page _ _ _ _ (us_uinv U) va ltac:(lia) Hv) as (? & ? & _).
    apply Hf; try done. apply Hqm; [lia|done].
Qed.

Lemma uvmcopy_run e old new B sz s l :
  kfree_locks e -> B <= MAXVA -> ust new B s l 0 ->
  0 <= sz <= MAXVA -> PGROUNDUP sz <= B -> uother s new l B old (PGROUNDUP sz) ->
  (forall va, 0 <= va < PGROUNDUP sz -> valid_at (kmem_mem s) new va = false) ->
  exists r s' l', uvmcopy old new sz e s = Ret r e s' /\
    uvmcopy_post old new B (PGROUNDUP sz) s l r s' l'.
Proof.
  intros Hl HB U Hsz HszB Ho He. change MAXVA with (2 ^ 38) in Hsz.
  destruct (PGROUNDUP_bounds sz) as [Aa Ab]; [unfold PGSIZE; lia|].
  apply uvmcopy_loop_run with (l := l); try done; [|unfold uc_used; lia|lia|].
  - split; [by apply ustep_refl|]. split; [done|]. split; [intros va Hva; lia|done].
  - pose proof (Z.div_mod sz PGSIZE). pose proof (Z.mod_pos_bound sz PGSIZE). unfold PGSIZE in *. lia.
Qed.

(** ** Properties *)

(** C12 (uvmcopy): copying [old] into an address space [new] that is empty below
    [sz] either returns 0 with [new] a page-by-page copy of [old] (same flags,
    same contents, distinct pages), or returns -1 with nothing left mapped in
    [new], and this only if fewer than three pages were free for each page to
    copy; [old] and what is mapped above are unchanged and no page is lost. *)
Theorem uvmcopy_correct e old new B sz s l :
  kfree_locks e -> B <= MAXVA -> ust new B s l 0 ->
  0 <= sz <= MAXVA -> PGROUNDUP sz <= B -> uother s new l B old (PGROUNDUP sz) ->
  (forall va, 0 <= va < PGROUNDUP sz -> valid_at (kmem_mem s) new va = false) ->
  exists r s' l', uvmcopy old new sz e s = Ret r e s' /\
    uvmcopy_post old new B (PGROUNDUP sz) s l r s' l'.
Proof. apply uvmcopy_run. Qed.

End VmSpace.

(** ** Witnesses *)

#[local] Existing Instance demo_linker.
#[local] Arguments us_ust {_ root B Kp s l x s' l' x'}.
#[local] Arguments us_foreign {_ root B Kp s l x s' l' x'}.

(** An address space of two pages, rooted at [demo_page 10], beside the empty one
    at [demo_page 9]. *)
Lemma demo_two_pages :
  exists s1 l1, uvmalloc (demo_page 10) 0 8192 PTE_W demo_env demo_kmem = Ret 8192 demo_env s1 /\
    uvmalloc_post (demo_page 10) TRAPFRAME 0 8192 8192 (Z.lor (Z.lor PTE_R PTE_U) PTE_W)
      demo_kmem demo_free 8192 s1 l1 /\
    ust (demo_page 9) TRAPFRAME s1 l1 0 /\
    uother s1 (demo_page 9) l1 TRAPFRAME (demo_page 10) 8192 /\
    (forall va, lookup_pte (kmem_mem s1) (demo_page 9) va = 0).
Proof.
  assert (U : ust (demo_page 10) TRAPFRAME demo_kmem demo_free 0).
  { apply zero_ust; [apply demo_kinv|apply demo_kpage; lia|apply demo_used; lia|].
    intros x Hx. by apply (demo_used_zero 10). }
  assert (H10 : forall x, demo_page 10 <= x < demo_page 10 + PGSIZE -> kmem_mem demo_kmem x = 0)
    by (intros x Hx; by apply (demo_used_zero 10)).
  assert (K10 : kpage (demo_page 10)) by (apply demo_kpage; lia).
  assert (K9 : kpage (demo_page 9)) by (apply demo_kpage; lia).
  destruct (uvmalloc_run demo_linker_ok demo_env (demo_page 10) TRAPFRAME demo_kmem demo_free 0 8192 PTE_W
              demo_locks U) as (r & s1 & l1 & E & P);
    [by_eval|lia|by_eval|by_eval|by_eval|intros; unfold valid_at; by rewrite zero_lookup|].
  destruct (result_inv (uvmalloc (demo_page 10) 0 8192 PTE_W demo_env demo_kmem) 8192 demo_env)
    as [s2 E2]; [by_eval|]. rewrite E in E2. injection E2 as -> ->.
  assert (F : foreign demo_kmem (demo_page 10) demo_free TRAPFRAME 0 (demo_page 9)).
  { split; [done|]. split; [apply demo_used; lia|]. split; [|split; [by_eval|]].
    - intros (p & Hp & Et). by destruct (zero_table demo_kmem (demo_page 10) p _ K10 H10 Hp Et).
    - intros va _. unfold valid_at. by rewrite zero_lookup. }
  assert (Z9 : forall x, demo_page 9 <= x < demo_page 9 + PGSIZE -> kmem_mem s2 x = 0).
  { intros x Hx. rewrite (foreign_mem demo_linker_ok _ _ _ _ _ _ _ _ (ua_step _ _ _ _ _ _ _ _ _ _ _ P) F x Hx).
    by apply (demo_used_zero 9). }
  pose proof (us_ust (ua_step _ _ _ _ _ _ _ _ _ _ _ P)) as U2.
  apply (us_foreign (ua_step _ _ _ _ _ _ _ _ _ _ _ P)) in F.
  exists s2, l1. split; [done|]. split; [done|]. split; [|split].
  - apply zero_ust; [apply U2|done|apply F|done].
  - by apply (zero_uother demo_linker_ok).
  - intros va. by apply zero_lookup.
Qed.

Lemma uvmcopy_correct_witness :
  exists s1 l1 r s' l',
    uvmalloc (demo_page 10) 0 8192 PTE_W demo_env demo_kmem = Ret 8192 demo_env s1 /\
    uvmcopy (demo_page 10) (demo_page 9) 8192 demo_env s1 = Ret r demo_env s' /\
    uvmcopy_post (demo_page 10) (demo_page 9) TRAPFRAME 8192 s1 l1 r s' l'.
Proof.
  destruct demo_two_pages as (s1 & l1 & E & _ & U & Ho & Hz).
  destruct (uvmcopy_correct demo_linker_ok demo_env (demo_page 10) (demo_page 9) TRAPFRAME 8192 s1 l1
              demo_locks) as (r & s' & l' & E' & P);
    [by_eval|exact U|by_eval|by_eval|exact Ho|intros; unfold valid_at; by rewrite Hz|].
  exists s1, l1, r, s', l'. split; [exact E|]. split; [exact E'|exact P].
Defined.
