(* ===== verification/VmFree.v ===== *)
(** * Tearing down an address space

    Lemmas and properties of [freewalk] and [uvmfree] of kernel/vm.c: freeing an
    address space gives every one of its pages back, provided no leaf mapping is
    left outside the range [uvmfree] unmaps; otherwise [freewalk] panics. *)

From stdpp Require Import base gmap sets list strings.
From Stdlib Require Import ZArith Lia.
From S2P Require Import Prelude Kernel Riscv Kalloc Vm VmUser VmCopy VmSpace.

Section VmFree.
Context {L : Linker} (Hlink : linker_ok).

(** ** Specification *)

(** The page-table pages of a tree of height [h], and whether it has a leaf. *)
Fixpoint tables (h : nat) (m : mem) (t : Z) : list Z :=
  t :: match h with
       | O => []
       | S h' => seqZ 0 512 ≫= fun i =>
           if is_ptr (pte_at m t i) then tables h' m (PTE2PA (pte_at m t i)) else []
       end.

Fixpoint leafy (h : nat) (m : mem) (t : Z) : bool :=
  existsb (fun i => is_leaf (pte_at m t i) ||
    match h with
    | O => false
    | S h' => is_ptr (pte_at m t i) && leafy h' m (PTE2PA (pte_at m t i))
    end) (seqZ 0 512).

(** The last level holds no pointers to further tables. *)
Fixpoint bounded (h : nat) (m : mem) (t : Z) : Prop :=
  forall i, px_ok i -> is_ptr (pte_at m t i) = true ->
    match h with
    | O => False
    | S h' => bounded h' m (PTE2PA (pte_at m t i))
    end.

(** The pages [T] were freed; memory changed only inside the pages [P]. *)
Record fw_post (T P : list Z) (s : kmem) (l : list Z) (s' : kmem) (l' : list Z) : Prop := {
  fw_kinv : kinv s' l';
  fw_list : l' ≡ₚ T ++ l;
  fw_mem : forall x, (forall q, q ∈ P -> ~ (q <= x < q + PGSIZE)) -> kmem_mem s' x = kmem_mem s x;
  fw_count : forall q, kpage q -> q ∉ T -> refcount s' (pageno q) = refcount s (pageno q)
}.

(** The pages of [T] may be freed. *)
Definition freeable (T : list Z) (s : kmem) (l : list Z) : Prop :=
  NoDup T /\ forall q, q ∈ T -> kpage q /\ (q ∉ l) /\ refcount s (pageno q) = 1.

(** ** Lemmas *)

Lemma fw_refl P s l : kinv s l -> fw_post [] P s l s l.
Proof. intros Hk. split; try done. Qed.

Lemma fw_trans T1 P1 T2 P2 s l s1 l1 s2 l2 :
  fw_post T1 P1 s l s1 l1 -> fw_post T2 P2 s1 l1 s2 l2 ->
  fw_post (T1 ++ T2) (P1 ++ P2) s l s2 l2.
Proof.
  intros [K1 L1 M1 C1] [K2 L2 M2 C2]. split; [done| | |].
  - rewrite L2, L1. by rewrite (Permutation_app_comm T1 T2), <- app_assoc.
  - intros x Hx. rewrite M2, M1; [done| |]; intros q Hq; apply Hx; apply elem_of_app; auto.
  - intros q Hq Hn. rewrite C2, C1; try done; contradict Hn; apply elem_of_app; auto.
Qed.

Lemma fw_weaken T P P' s l s' l' :
  (forall q, q ∈ P -> q ∈ P') -> fw_post T P s l s' l' -> fw_post T P' s l s' l'.
Proof. intros H [K1 L1 M1 C1]. split; try done. intros x Hx. apply M1. auto. Qed.

Lemma freeable_app T1 T2 s l : freeable (T1 ++ T2) s l ->
  freeable T1 s l /\ freeable T2 s l /\ (forall q, q ∈ T1 -> q ∉ T2).
Proof.
  intros [Hn Hq]. apply NoDup_app in Hn as (H1 & H2 & H3).
  split; [split; [done|]|split; [split; [done|]|done]]; intros q Hin; apply Hq, elem_of_app; auto.
Qed.

(** Freeing [T1] leaves disjoint pages freeable. *)
Lemma freeable_fw T1 P1 T2 s l s1 l1 :
  fw_post T1 P1 s l s1 l1 -> (forall q, q ∈ T1 -> q ∉ T2) -> freeable T2 s l -> freeable T2 s1 l1.
Proof.
  intros F Hd [Hn Hq]. split; [done|]. intros q Hin. destruct (Hq q Hin) as (Hk & Hl & Hc).
  split; [done|]. split.
  - rewrite (fw_list _ _ _ _ _ _ F), elem_of_app. intros [H|H]; [by apply (Hd q)|done].
  - rewrite (fw_count _ _ _ _ _ _ F); [done|done|]. intros H. by apply (Hd q).
Qed.

Lemma fw_kfree e t s l :
  kfree_locks e -> kinv s l -> freeable [t] s l ->
  kfree t e s = Ret tt e (freed s t) /\ fw_post [t] [t] s l (freed s t) (t :: l).
Proof.
  intros Hl Hk [_ Hf]. destruct (Hf t) as (Ht & Htl & Hc); [by left|].
  split; [by apply kfree_last_run|]. split; [by apply kfree_last_inv|done| |].
  - intros x Hx. specialize (Hx t ltac:(by left)). simpl.
    rewrite store_out, mem_fill_out; [done|done|unfold PGSIZE in *; lia].
  - intros q Hq Hn. simpl. destruct (Z.eqb_spec (pageno q) (pageno t)) as [E|]; [|done].
    apply (kpage_pageno_inj Hlink) in E; [|done|done]. subst. destruct Hn. by left.
Qed.

(** Clearing an entry of the table [t]. *)
Lemma fw_clear e t i s l :
  kinv s l -> kpage t -> t ∉ l -> px_ok i ->
  exists s', write_pte (t + 8 * i) 0 e s = Ret tt e s' /\ fw_post [] [t] s l s' l /\
    forall u j, kpage u -> px_ok j ->
      pte_at (kmem_mem s') u j = if decide (u = t /\ j = i) then 0 else pte_at (kmem_mem s) u j.
Proof.
  intros Hk Ht Htl Hi. eexists. split; [done|]. split.
  - split; [|done| |done].
    + apply (kinv_write_page Hlink _ _ t); try done; [apply store_ok, (kinv_bytes _ _ Hk)|].
      apply writes_page_store64; unfold px_ok, PGSIZE in *; lia.
    + intros x Hx. specialize (Hx t ltac:(by left)). simpl. apply store_out.
      unfold px_ok, PGSIZE in *. lia.
  - intros u j Hu Hj. simpl. rewrite (pte_at_store Hlink) by done. done.
Qed.

Lemma existsb_same {A} (f g : A -> bool) (l : list A) :
  (forall x, x ∈ l -> f x = g x) -> existsb f l = existsb g l.
Proof.
  induction l as [|x l IH]; intros H; [done|]. simpl. rewrite H, IH; [done| |by left].
  intros y Hy. apply H. by right.
Qed.

Lemma bind_same {A B} (f g : A -> list B) (l : list A) :
  (forall x, x ∈ l -> f x = g x) -> l ≫= f = l ≫= g.
Proof.
  induction l as [|x l IH]; intros H; [done|]. csimpl. rewrite H, IH; [done| |by left].
  intros y Hy. apply H. by right.
Qed.

Lemma idx_ok i : i ∈ seqZ 0 512 <-> px_ok i.
Proof. rewrite elem_of_seqZ. unfold px_ok. lia. Qed.

(** Trees only depend on the memory of their tables. *)
Lemma tables_ext h m m' : forall t,
  (forall q, q ∈ tables h m t -> forall x, q <= x < q + PGSIZE -> m' x = m x) ->
  tables h m' t = tables h m t /\ leafy h m' t = leafy h m t /\ (bounded h m t -> bounded h m' t).
Proof.
  induction h as [|h IH]; intros t H;
    (assert (E : forall i, px_ok i -> pte_at m' t i = pte_at m t i)
      by (intros i Hi; apply pte_at_page; [done|]; apply H; by left)).
  - split; [done|]. split.
    + cbn [leafy]. apply existsb_same. intros i Hi%idx_ok. by rewrite E.
    + intros Hb i Hi. rewrite E by done. by apply Hb.
  - assert (Hsub : forall i, px_ok i -> is_ptr (pte_at m t i) = true ->
              tables h m' (PTE2PA (pte_at m t i)) = tables h m (PTE2PA (pte_at m t i)) /\
              leafy h m' (PTE2PA (pte_at m t i)) = leafy h m (PTE2PA (pte_at m t i)) /\
              (bounded h m (PTE2PA (pte_at m t i)) -> bounded h m' (PTE2PA (pte_at m t i)))).
    { intros i Hi Hp. apply IH. intros q Hq. apply H. cbn [tables]. right. apply list_elem_of_bind.
      exists i. rewrite Hp. split; [done|by apply idx_ok]. }
    split; [|split].
    + cbn [tables]. f_equal. apply bind_same. intros i Hi%idx_ok. rewrite E by done.
      destruct (is_ptr (pte_at m t i)) eqn:Ep; [|done]. by apply Hsub.
    + cbn [leafy]. apply existsb_same. intros i Hi%idx_ok. rewrite E by done.
      destruct (is_ptr (pte_at m t i)) eqn:Ep; [|done]. cbn [andb]. f_equal. by apply Hsub.
    + intros Hb i Hi. rewrite E by done. intros Hp. apply Hsub; [done|done|]. by apply Hb.
Qed.

(** ** The loop of freewalk *)

(** What lies under entry [i] of [t], a table of height [h]. *)
Definition sub (h : nat) (m : mem) (t i : Z) : list Z :=
  match h with
  | O => []
  | S h' => if is_ptr (pte_at m t i) then tables h' m (PTE2PA (pte_at m t i)) else []
  end.
Definition leaf_under (h : nat) (m : mem) (t i : Z) : bool :=
  is_leaf (pte_at m t i) ||
  match h with
  | O => false
  | S h' => is_ptr (pte_at m t i) && leafy h' m (PTE2PA (pte_at m t i))
  end.
Definition bounded_under (h : nat) (m : mem) (t i : Z) : Prop :=
  is_ptr (pte_at m t i) = true ->
  match h with
  | O => False
  | S h' => bounded h' m (PTE2PA (pte_at m t i))
  end.

Lemma tables_sub h m t : tables h m t = t :: (seqZ 0 512 ≫= sub h m t).
Proof. destruct h; [reflexivity|done]. Qed.

Lemma leafy_under h m t : leafy h m t = existsb (leaf_under h m t) (seqZ 0 512).
Proof. by destruct h. Qed.

Lemma bounded_sub h m t : bounded h m t <-> forall i, px_ok i -> bounded_under h m t i.
Proof. by destruct h. Qed.

(** One round of the loop. *)
Definition fw_entry (f : nat) (t i : Z) : K kmem unit :=
  pte <- read_pte (t + 8 * i) ;;
  if is_ptr pte then freewalk f (PTE2PA pte) ;; write_pte (t + 8 * i) 0
  else if pte_has pte PTE_V then panic "freewalk: leaf"
  else ret tt.

Lemma freewalk_S f t : freewalk (S f) t = (for_each (seqZ 0 512) (fw_entry f t) ;; kfree t).
Proof. done. Qed.

Lemma not_ptr_valid v : is_ptr v = false -> pte_has v PTE_V = is_leaf v.
Proof. unfold is_ptr, is_leaf. by destruct (pte_has v PTE_V), (truth _). Qed.

Lemma ptr_not_leaf v : is_ptr v = true -> is_leaf v = false.
Proof. unfold is_ptr, is_leaf. by destruct (pte_has v PTE_V), (truth _). Qed.

(** Two memories agree under entry [j]. *)
Lemma sub_ext h m m' t j :
  pte_at m' t j = pte_at m t j ->
  (forall q, q ∈ sub h m t j -> forall x, q <= x < q + PGSIZE -> m' x = m x) ->
  sub h m' t j = sub h m t j /\ leaf_under h m' t j = leaf_under h m t j /\
  (bounded_under h m t j -> bounded_under h m' t j).
Proof.
  unfold sub, leaf_under, bounded_under. intros E H. rewrite E. destruct h as [|h]; [done|].
  destruct (is_ptr (pte_at m t j)); [|done].
  destruct (tables_ext h m m' (PTE2PA (pte_at m t j)) H) as (-> & -> & Hb).
  split; [done|]. split; [done|]. auto.
Qed.

Section Loop.
Context (e : env) (Hl : kfree_locks e) (h f : nat).
Context (IH : forall h', h = S h' -> forall t s l,
  kinv s l -> bounded h' (kmem_mem s) t -> freeable (tables h' (kmem_mem s) t) s l ->
  if leafy h' (kmem_mem s) t then freewalk f t e s = Panic "freewalk: leaf"
  else exists s' l', freewalk f t e s = Ret tt e s' /\
    fw_post (tables h' (kmem_mem s) t) (tables h' (kmem_mem s) t) s l s' l').

Lemma fw_entry_run t i s l :
  px_ok i -> kinv s l -> kpage t -> t ∉ l -> bounded_under h (kmem_mem s) t i ->
  freeable (sub h (kmem_mem s) t i) s l -> t ∉ sub h (kmem_mem s) t i ->
  if leaf_under h (kmem_mem s) t i then fw_entry f t i e s = Panic "freewalk: leaf"
  else exists s' l', fw_entry f t i e s = Ret tt e s' /\
    fw_post (sub h (kmem_mem s) t i) (t :: sub h (kmem_mem s) t i) s l s' l' /\
    forall j, px_ok j -> j <> i -> pte_at (kmem_mem s') t j = pte_at (kmem_mem s) t j.
Proof.
  intros Hi Hk Ht Htl Hb Hf Hn. unfold fw_entry, read_pte. kstep.
  fold (pte_at (kmem_mem s) t i). set (v := pte_at (kmem_mem s) t i).
  destruct (is_ptr v) eqn:Ep.
  - unfold sub, leaf_under, bounded_under in *. fold v in Hb, Hf, Hn |- *. rewrite Ep in *.
    destruct h as [|h']; [by destruct (Hb eq_refl)|].
    specialize (IH h' eq_refl (PTE2PA v) s l Hk (Hb eq_refl) Hf). rewrite ptr_not_leaf by done.
    cbn [orb andb]. destruct (leafy h' (kmem_mem s) (PTE2PA v)).
    + unfold bind. by rewrite IH.
    + destruct IH as (s1 & l1 & E1 & F1). rewrite (bind_step _ _ _ _ _ _ _ E1).
      set (T := tables h' (kmem_mem s) (PTE2PA v)) in *.
      assert (Htl1 : t ∉ l1) by (rewrite (fw_list _ _ _ _ _ _ F1), elem_of_app; tauto).
      destruct (fw_clear e t i s1 l1 (fw_kinv _ _ _ _ _ _ F1) Ht Htl1 Hi) as (s2 & E2 & F2 & Hp2).
      exists s2, l1. split; [done|]. split.
      * pose proof (fw_trans _ _ _ _ _ _ _ _ _ _ F1 F2) as F. rewrite app_nil_r in F.
        eapply fw_weaken; [|apply F]. intros q. rewrite elem_of_app, !elem_of_cons. intros [?|[?|?%not_elem_of_nil]]; tauto.
      * intros j Hj Hne. rewrite Hp2 by done. rewrite decide_False by (intros [_ ?]; done).
        apply pte_at_page; [done|]. intros x Hx. apply (fw_mem _ _ _ _ _ _ F1). intros q Hq Hqx.
        apply Hn. destruct (proj2 Hf q Hq) as (Hkq & _). by rewrite <- (page_of_byte Hlink q t x).
  - rewrite not_ptr_valid by done. unfold sub, leaf_under. fold v. rewrite Ep.
    destruct (is_leaf v) eqn:Ev; [done|].
    destruct h; cbn [orb andb]; exists s, l; (split; [done|split; [by apply fw_refl|done]]).
Qed.

Lemma fw_loop_run t : kpage t -> forall js s l,
  NoDup js -> Forall px_ok js -> kinv s l -> t ∉ l ->
  Forall (bounded_under h (kmem_mem s) t) js ->
  freeable (js ≫= sub h (kmem_mem s) t) s l -> t ∉ (js ≫= sub h (kmem_mem s) t) ->
  if existsb (leaf_under h (kmem_mem s) t) js
  then for_each js (fw_entry f t) e s = Panic "freewalk: leaf"
  else exists s' l', for_each js (fw_entry f t) e s = Ret tt e s' /\
    fw_post (js ≫= sub h (kmem_mem s) t) (t :: (js ≫= sub h (kmem_mem s) t)) s l s' l'.
Proof.
  intros Ht. induction js as [|i js IHl]; intros s l Hnd Hpx Hk Htl Hb Hf Hn.
  { exists s, l. split; [done|by apply fw_refl]. }
  apply NoDup_cons in Hnd as [Hni Hnd]. apply Forall_cons in Hpx as [Hi Hpx].
  apply Forall_cons in Hb as [Hbi Hb]. cbn [existsb for_each].
  change ((i :: js) ≫= sub h (kmem_mem s) t)
    with (sub h (kmem_mem s) t i ++ (js ≫= sub h (kmem_mem s) t)) in *.
  destruct (freeable_app _ _ _ _ Hf) as (Hf1 & Hf2 & Hdis). rewrite not_elem_of_app in Hn.
  pose proof (fw_entry_run t i s l Hi Hk Ht Htl Hbi Hf1 (proj1 Hn)) as He.
  destruct (leaf_under h (kmem_mem s) t i); cbn [orb].
  { unfold bind. by rewrite He. }
  destruct He as (s1 & l1 & E1 & F1 & Hp1).
  assert (Hsub : forall j, j ∈ js -> sub h (kmem_mem s1) t j = sub h (kmem_mem s) t j /\
            leaf_under h (kmem_mem s1) t j = leaf_under h (kmem_mem s) t j /\
            (bounded_under h (kmem_mem s) t j -> bounded_under h (kmem_mem s1) t j)).
  { intros j Hj. rewrite Forall_forall in Hpx. apply sub_ext.
    - apply Hp1; [by apply Hpx|]. by intros ->.
    - intros q Hq x Hx. assert (Hq2 : q ∈ js ≫= sub h (kmem_mem s) t)
        by (apply list_elem_of_bind; by exists j).
      destruct (proj2 Hf2 q Hq2) as (Hkq & _). apply (fw_mem _ _ _ _ _ _ F1).
      intros p [->|Hp]%elem_of_cons Hpx'.
      + apply (proj2 Hn). assert (q = t) as <- by (by apply (page_of_byte Hlink q t x)). done.
      + apply (Hdis p Hp). destruct (proj2 Hf1 p Hp) as (Hkp & _).
        by rewrite (page_of_byte Hlink p q x). }
  assert (Eb : js ≫= sub h (kmem_mem s1) t = js ≫= sub h (kmem_mem s) t)
    by (apply bind_same; intros j Hj; by apply Hsub).
  assert (Ex : existsb (leaf_under h (kmem_mem s1) t) js = existsb (leaf_under h (kmem_mem s) t) js)
    by (apply existsb_same; intros j Hj; by apply Hsub).
  rewrite (bind_step _ _ _ _ _ _ _ E1).
  specialize (IHl s1 l1 Hnd Hpx (fw_kinv _ _ _ _ _ _ F1)). rewrite Eb, Ex in IHl.
  assert (Htl1 : t ∉ l1) by (rewrite (fw_list _ _ _ _ _ _ F1), elem_of_app; tauto).
  assert (Hb1 : Forall (bounded_under h (kmem_mem s1) t) js).
  { rewrite Forall_forall in Hb |- *. intros j Hj. apply Hsub; auto. }
  specialize (IHl Htl1 Hb1 (freeable_fw _ _ _ _ _ _ _ F1 Hdis Hf2) (proj2 Hn)).
  destruct (existsb (leaf_under h (kmem_mem s) t) js); [done|].
  destruct IHl as (s2 & l2 & E2 & F2). exists s2, l2. split; [done|].
  eapply fw_weaken; [|eapply fw_trans; [apply F1|apply F2]].
  intros q. rewrite !elem_of_app, !elem_of_cons, elem_of_app. tauto.
Qed.

End Loop.

Lemma freewalk_run e : kfree_locks e -> forall h f t s l,
  (h < f)%nat -> kinv s l -> bounded h (kmem_mem s) t -> freeable (tables h (kmem_mem s) t) s l ->
  if leafy h (kmem_mem s) t then freewalk f t e s = Panic "freewalk: leaf"
  else exists s' l', freewalk f t e s = Ret tt e s' /\
    fw_post (tables h (kmem_mem s) t) (tables h (kmem_mem s) t) s l s' l'.
Proof.
  intros Hl. induction h as [h IH] using lt_wf_ind. intros f t s l Hf Hk Hb Hfr.
  destruct f as [|f]; [lia|]. rewrite freewalk_S, leafy_under. rewrite tables_sub in *.
  set (sb := sub h (kmem_mem s) t) in *. change (t :: (seqZ 0 512 ≫= sb)) with ([t] ++ (seqZ 0 512 ≫= sb)) in *.
  destruct (freeable_app _ _ _ _ Hfr) as (Hf1 & Hf2 & Hd).
  destruct (proj2 Hf1 t ltac:(by left)) as (Ht & Htl & _).
  assert (Htn : t ∉ (seqZ 0 512 ≫= sb)) by (apply Hd; by left).
  assert (Hloop := fw_loop_run e h f
    (fun h' Eh t' s' l' => IH h' ltac:(lia) f t' s' l' ltac:(lia)) t Ht (seqZ 0 512) s l
    (NoDup_seqZ _ _) ltac:(apply Forall_forall; intros i; apply idx_ok) Hk Htl
    ltac:(apply Forall_forall; intros i Hi%idx_ok; by apply bounded_sub) Hf2 Htn).
  destruct (existsb (leaf_under h (kmem_mem s) t) (seqZ 0 512)).
  { unfold bind. by rewrite Hloop. }
  destruct Hloop as (s1 & l1 & E1 & F1). rewrite (bind_step _ _ _ _ _ _ _ E1).
  assert (Hf1' : freeable [t] s1 l1).
  { eapply freeable_fw; [apply F1| |done]. intros q Hq Hqt. by apply (Hd q). }
  destruct (fw_kfree e t s1 l1 Hl (fw_kinv _ _ _ _ _ _ F1) Hf1') as [E2 F2].
  exists (freed s1 t), (t :: l1). split; [done|].
  destruct (fw_trans _ _ _ _ _ _ _ _ _ _ F1 F2) as [K2 L2 M2 C2]. split; [done| | |].
  - rewrite L2. by rewrite (Permutation_app_comm [t]).
  - intros x Hx. apply M2. intros q [[->|Hq]%elem_of_cons|Hq]%elem_of_app; apply Hx, elem_of_app;
      [left; by left|by right|by left].
  - intros q Hq Hn. apply C2; [done|]. contradict Hn. apply elem_of_app in Hn as [?|?]; apply elem_of_app; auto.
Qed.

(** ** Trees and paths *)

Lemma is_ptr_valid v : is_ptr v = true -> pte_has v PTE_V = true.
Proof. unfold is_ptr. by destruct (pte_has v PTE_V). Qed.

Lemma child_ptr m t i : is_ptr (pte_at m t i) = true -> child m t i = Some (PTE2PA (pte_at m t i)).
Proof. intros H. unfold child. by rewrite is_ptr_valid. Qed.

Lemma ptrs_child h m t i :
  ptrs (S h) m t -> px_ok i -> is_ptr (pte_at m t i) = true -> ptrs h m (PTE2PA (pte_at m t i)).
Proof.
  intros Hp Hi Ht p u j Hlen Hpx Hu. apply (Hp (i :: p) u j); [simpl; lia|by constructor|].
  cbn [table]. by rewrite child_ptr.
Qed.

(** The first step of a path. *)
Lemma path_step h m t i p q :
  ptrs (S h) m t -> px_ok i -> table m t (i :: p) = Some q ->
  is_ptr (pte_at m t i) = true /\ table m (PTE2PA (pte_at m t i)) p = Some q.
Proof.
  intros Hp Hi. cbn [table]. unfold child.
  destruct (pte_has (pte_at m t i) PTE_V) eqn:Ev; [|done]. intros Hq. split; [|done].
  apply (Hp [] t i); try done. simpl. lia.
Qed.

Lemma tables_elem h m q : forall t,
  ptrs h m t ->
  q ∈ tables h m t <-> exists p, (length p <= h)%nat /\ Forall px_ok p /\ table m t p = Some q.
Proof.
  induction h as [|h IH]; intros t Hp; cbn [tables]; rewrite elem_of_cons.
  - split; [intros [->|?%not_elem_of_nil]; [|done]; by exists []|].
    intros ([|] & Hlen & _ & E); [|simpl in Hlen; lia]. injection E as ->. by left.
  - rewrite list_elem_of_bind. split.
    + intros [->|(i & Hq & Hi%idx_ok)]; [exists []; split; [simpl; lia|done]|].
      destruct (is_ptr (pte_at m t i)) eqn:Ep; [|by apply not_elem_of_nil in Hq].
      apply IH in Hq as (p & Hlen & Hpx & E); [|by apply ptrs_child].
      exists (i :: p). split; [simpl; lia|]. split; [by constructor|].
      cbn [table]. by rewrite child_ptr.
    + intros ([|i p] & Hlen & Hpx & E); [injection E as ->; by left|right].
      apply Forall_cons in Hpx as [Hi Hpx]. simpl in Hlen.
      destruct (path_step h m t i p q Hp Hi E) as [Ep E']. exists i. rewrite Ep.
      split; [|by apply idx_ok]. apply IH; [by apply ptrs_child|]. exists p. split; [lia|done].
Qed.

Lemma tables_NoDup h m : forall t,
  ptrs h m t ->
  (forall p p' q, (length p <= h)%nat -> (length p' <= h)%nat -> Forall px_ok p -> Forall px_ok p' ->
     table m t p = Some q -> table m t p' = Some q -> p = p') ->
  NoDup (tables h m t).
Proof.
  induction h as [|h IH]; intros t Hp Hinj; cbn [tables]; [apply NoDup_singleton|].
  assert (Hmem : forall i q, px_ok i -> is_ptr (pte_at m t i) = true ->
            q ∈ tables h m (PTE2PA (pte_at m t i)) ->
            exists p, (length p <= h)%nat /\ Forall px_ok p /\ table m t (i :: p) = Some q).
  { intros i q Hi Ei Hq. apply tables_elem in Hq as (p & Hlen & Hpx & E); [|by apply ptrs_child].
    exists p. split; [done|]. split; [done|]. cbn [table]. by rewrite child_ptr. }
  apply NoDup_cons. split.
  - rewrite list_elem_of_bind. intros (i & Hq & Hi%idx_ok).
    destruct (is_ptr (pte_at m t i)) eqn:Ei; [|by apply not_elem_of_nil in Hq].
    destruct (Hmem i t Hi Ei Hq) as (p & Hlen & Hpx & E).
    assert ([] = i :: p) by (apply (Hinj [] (i :: p) t); [simpl; lia..|done|by constructor|done|done]). done.
  - apply NoDup_bind.
    + intros i j q Hi%idx_ok Hj%idx_ok Hqi Hqj.
      destruct (is_ptr (pte_at m t i)) eqn:Ei; [|by apply not_elem_of_nil in Hqi].
      destruct (is_ptr (pte_at m t j)) eqn:Ej; [|by apply not_elem_of_nil in Hqj].
      destruct (Hmem i q Hi Ei Hqi) as (p & Hlen & Hpx & E).
      destruct (Hmem j q Hj Ej Hqj) as (p' & Hlen' & Hpx' & E').
      assert (i :: p = j :: p') by (apply (Hinj _ _ q); try done; [simpl; lia|simpl; lia|by constructor|by constructor]). congruence.
    + intros i Hi%idx_ok. destruct (is_ptr (pte_at m t i)) eqn:Ei; [|constructor].
      apply IH; [by apply ptrs_child|]. intros p p' q Hl1 Hl2 Hp1 Hp2 E1 E2.
      assert (i :: p = i :: p').
      { apply (Hinj _ _ q); try (simpl; lia); try (by constructor); cbn [table]; by rewrite child_ptr. }
      congruence.
    + apply NoDup_seqZ.
Qed.

Lemma leafy_elem h m : forall t,
  ptrs h m t ->
  leafy h m t = true <->
  exists p u i, (length p <= h)%nat /\ Forall px_ok p /\ table m t p = Some u /\ px_ok i /\
    is_leaf (pte_at m u i) = true.
Proof.
  induction h as [|h IH]; intros t Hp; rewrite leafy_under, existsb_exists; unfold leaf_under.
  - split.
    + intros (i & Hi%list_elem_of_In%idx_ok & Hl). rewrite orb_false_r in Hl. by exists [], t, i.
    + intros ([|] & u & i & Hlen & _ & E & Hi & Hl); [|simpl in Hlen; lia]. injection E as ->.
      exists i. rewrite Hl. split; [by apply list_elem_of_In, idx_ok|done].
  - split.
    + intros (i & Hi%list_elem_of_In%idx_ok & [Hl|Hl]%orb_true_iff).
      * exists [], t, i. split; [simpl; lia|done].
      * apply andb_true_iff in Hl as [Ei Hl].
        apply IH in Hl as (p & u & j & Hlen & Hpx & E & Hj & Hl); [|by apply ptrs_child].
        exists (i :: p), u, j. split; [simpl; lia|]. split; [by constructor|].
        cbn [table]. by rewrite child_ptr.
    + intros ([|i p] & u & j & Hlen & Hpx & E & Hj & Hl).
      * injection E as ->. exists j. rewrite Hl. split; [by apply list_elem_of_In, idx_ok|done].
      * apply Forall_cons in Hpx as [Hi Hpx]. simpl in Hlen.
        destruct (path_step h m t i p u Hp Hi E) as [Ep E'].
        exists i. split; [by apply list_elem_of_In, idx_ok|]. rewrite Ep. apply orb_true_iff. right.
        apply IH; [by apply ptrs_child|]. exists p, u, j. split; [lia|done].
Qed.

Lemma bounded_paths h m : forall t,
  ptrs h m t ->
  (forall p u i, length p = h -> Forall px_ok p -> table m t p = Some u -> px_ok i ->
     is_ptr (pte_at m u i) = false) ->
  bounded h m t.
Proof.
  induction h as [|h IH]; intros t Hp Hb; rewrite bounded_sub; intros i Hi Ep.
  - rewrite (Hb [] t i) in Ep by done. done.
  - apply IH; [by apply ptrs_child|]. intros p u j Hlen Hpx E. apply (Hb (i :: p)); [simpl; lia|by constructor|].
    cbn [table]. by rewrite child_ptr.
Qed.

(** The address translated by entry [k] of the table at path [[i; j]]. *)
Lemma leaf_va i j k :
  0 <= i < 256 -> px_ok j -> px_ok k ->
  let va := ((i * 512 + j) * 512 + k) * PGSIZE in
  0 <= va < MAXVA /\ page_aligned va /\ PX 2 va = i /\ PX 1 va = j /\ PX 0 va = k.
Proof.
  intros Hi Hj Hk va. unfold px_ok in *. change MAXVA with (2 ^ 38). unfold page_aligned.
  rewrite !PX_spec by lia. unfold va, PGSIZE. change (12 + 9 * 2) with (12 + 18).
  change (12 + 9 * 1) with (12 + 9). change (12 + 9 * 0) with (12 + 0).
  rewrite !Z.pow_add_r by lia. change (2 ^ 12) with 4096.
  rewrite <- !Z.div_div by lia. rewrite Z.mod_mul, Z.div_mul by lia.
  change (2 ^ 18) with (512 * 512). change (2 ^ 9) with 512. rewrite <- Z.div_div by lia.
  rewrite (Z.div_add_l (i * 512 + j) 512 k), (Z.div_small k) by lia. rewrite Z.add_0_r.
  rewrite (Z.div_add_l i 512 j), (Z.div_small j) by lia. rewrite Z.add_0_r, Z.div_1_r.
  rewrite (Z.add_comm (i * 512) j), Z.mod_add, (Z.mod_small j) by lia.
  rewrite (Z.add_comm (_ * 512) k), Z.mod_add, (Z.mod_small k), (Z.mod_small i) by lia. lia.
Qed.

(** A user address space, with what [freewalk] relies on: the shape of the tree,
    and that last-level entries are leaves. *)
Record uspace (root B : Z) (s : kmem) (l : list Z) : Prop := {
  sp_ust : ust root B s l 0;
  sp_tree : ptree s root;
  sp_leaf : forall va, 0 <= va < MAXVA -> is_ptr (lookup_pte (kmem_mem s) root va) = false
}.

#[local] Arguments sp_ust {root B s l}.
#[local] Arguments sp_tree {root B s l}.
#[local] Arguments sp_leaf {root B s l}.
#[local] Arguments us_kinv {_ root B s l x}.
#[local] Arguments us_pt {_ root B s l x}.
#[local] Arguments us_uinv {_ root B s l x}.

Lemma sp_ptrs root B s l : uspace root B s l -> ptrs 2 (kmem_mem s) root.
Proof. intros S. apply (sp_tree S). Qed.

Lemma sp_low root B s l : uspace root B s l -> pt_low (kmem_mem s) root.
Proof. intros S. apply (sp_tree S). Qed.

Lemma sp_count root B s l : uspace root B s l -> pt_count s root.
Proof. intros S. apply (sp_tree S). Qed.
#[local] Arguments sp_ptrs {root B s l}.
#[local] Arguments sp_low {root B s l}.
#[local] Arguments sp_count {root B s l}.

(** Last-level entries are translations. *)
Lemma uspace_entry root B s l p u k :
  uspace root B s l -> length p = 2%nat -> Forall px_ok p -> table (kmem_mem s) root p = Some u ->
  px_ok k -> exists va, 0 <= va < MAXVA /\ page_aligned va /\
    pte_at (kmem_mem s) u k = lookup_pte (kmem_mem s) root va.
Proof.
  intros S Hlen Hp Hu Hk. destruct p as [|i [|j [|]]]; try done.
  apply Forall_cons in Hp as [Hi Hp]. rewrite Forall_singleton in Hp.
  assert (0 <= i < 256) as Hi'.
  { unfold px_ok in Hi. destruct (Z.lt_ge_cases i 256); [lia|].
    cbn [table] in Hu. unfold child in Hu at 1. by rewrite (sp_low S) in Hu by lia. }
  destruct (leaf_va i j k Hi' Hp Hk) as (Hva & Hal & E2 & E1 & E0).
  eexists. split; [apply Hva|]. split; [done|]. unfold lookup_pte. by rewrite E2, E1, E0, Hu.
Qed.

Lemma path_ok_2_iff p : path_ok p <-> (length p <= 2)%nat /\ Forall px_ok p.
Proof. done. Qed.

Lemma uspace_tables root B s l q :
  uspace root B s l -> q ∈ tables 2 (kmem_mem s) root <-> is_table (kmem_mem s) root q.
Proof.
  intros S. rewrite (tables_elem 2 _ q root (sp_ptrs S)). unfold is_table, path_ok.
  split; intros (p & H); exists p; tauto.
Qed.

Lemma uspace_freeable root B s l :
  uspace root B s l -> freeable (tables 2 (kmem_mem s) root) s l.
Proof.
  intros S. pose proof (us_pt (sp_ust S)) as Hpt. split.
  - apply tables_NoDup; [apply (sp_ptrs S)|]. intros p p' q Hl Hl' Hp Hp' E E'.
    by apply (pt_inj _ _ _ Hpt p p' q).
  - intros q Hq. rewrite (uspace_tables _ _ _ _ _ S) in Hq. pose proof Hq as (p & Hp & Et).
    destruct (pt_page _ _ _ Hpt p q Hp Et). split; [done|]. split; [done|]. by apply (sp_count S).
Qed.

Lemma uspace_bounded root B s l : uspace root B s l -> bounded 2 (kmem_mem s) root.
Proof.
  intros S. apply bounded_paths; [apply (sp_ptrs S)|]. intros p u k Hlen Hp Hu Hk.
  destruct (uspace_entry root B s l p u k S Hlen Hp Hu Hk) as (va & Hva & _ & ->). by apply (sp_leaf S).
Qed.

Lemma valid_leaf v : is_ptr v = false -> is_leaf v = pte_has v PTE_V.
Proof. intros H. by rewrite not_ptr_valid. Qed.

(** [freewalk] meets a leaf exactly if something is mapped. *)
Lemma uspace_leafy root B s l :
  uspace root B s l ->
  leafy 2 (kmem_mem s) root = true <->
  exists va, 0 <= va < MAXVA /\ valid_at (kmem_mem s) root va = true.
Proof.
  intros S. rewrite (leafy_elem 2 _ root (sp_ptrs S)). split.
  - intros (p & u & k & Hlen & Hp & Hu & Hk & Hleaf).
    destruct (decide (length p = 2%nat)) as [E|E].
    + destruct (uspace_entry root B s l p u k S E Hp Hu Hk) as (va & Hva & _ & Ev).
      exists va. split; [done|]. unfold valid_at. rewrite <- Ev. unfold is_leaf in Hleaf.
      by destruct (pte_has _ PTE_V).
    + exfalso. assert (is_ptr (pte_at (kmem_mem s) u k) = true) as Ep.
      { apply (sp_ptrs S p); try done; [lia|]. unfold is_leaf in Hleaf. by destruct (pte_has _ PTE_V). }
      by rewrite ptr_not_leaf in Hleaf.
  - intros (va & Hva & Hv). pose proof (leaf_path va) as [Hlen Hp].
    unfold valid_at in Hv. pose proof (sp_leaf S va Hva) as Hnp.
    unfold lookup_pte in Hv, Hnp. destruct (table (kmem_mem s) root _) as [u|] eqn:Eu; [|done].
    exists [PX 2 va; PX 1 va], u, (PX 0 va). split; [done|]. split; [done|]. split; [done|].
    split; [apply PX_ok; lia|]. by rewrite valid_leaf.
Qed.

Lemma uspace_step root B Kp s l s' l' :
  uspace root B s l -> ustep root B Kp s l 0 s' l' 0 ->
  (forall va, 0 <= va < MAXVA -> is_ptr (lookup_pte (kmem_mem s') root va) = false) ->
  uspace root B s' l'.
Proof. intros S U H. split; [apply U| |done]. apply U, S. Qed.

Lemma uspace_drop root B s l s' l' f :
  B <= MAXVA -> uspace root B s l -> drop_post root B s s' l l' f -> uspace root B s' l'.
Proof.
  intros HB S D. eapply uspace_step; [done| |].
  - apply (drop_ustep Hlink root B (fun _ => False) s s' l l' f); try done. apply S.
  - intros va Hva. rewrite (dp_lookup _ _ _ _ _ _ _ D) by done.
    destruct (dp_sub _ _ _ _ _ _ _ D va Hva) as [->| ->]; [done|by apply (sp_leaf S)].
Qed.

(** A mapping with some of the R, W, X permissions is a leaf. *)
Lemma map_pte_leaf pa perm b :
  0 <= pa < 2 ^ 56 -> 0 <= perm < 1024 -> 1 <= b <= 3 -> Z.testbit perm b = true ->
  is_ptr (map_pte pa perm) = false.
Proof.
  intros Hpa Hp Hb Ht. unfold is_ptr. change (Z.lor (Z.lor PTE_R PTE_W) PTE_X) with 14.
  rewrite (proj2 (truth_true _)); [by rewrite andb_false_r|]. intros E.
  assert (Z.testbit (Z.land (map_pte pa perm) 14) b = true) as Hbit; [|by rewrite E, Z.bits_0 in Hbit].
  rewrite Z.land_spec, map_pte_bit, Ht by lia.
  assert (b = 1 \/ b = 2 \/ b = 3) as [-> | [-> | ->]] by lia; done.
Qed.

(** A page of zeroes that is referenced once is an empty address space. *)
Lemma zero_uspace s l q B :
  kinv s l -> kpage q -> (q ∉ l) -> refcount s (pageno q) = 1 ->
  (forall x, q <= x < q + PGSIZE -> kmem_mem s x = 0) -> uspace q B s l.
Proof.
  intros Hk Hq Hql Hc Hz.
  assert (Hp : forall i, px_ok i -> pte_at (kmem_mem s) q i = 0).
  { intros i Hi. rewrite (pte_at_page (mem_fill (kmem_mem s) q 0 PGSIZE)), pte_at_zero; try done.
    intros x Hx. by rewrite mem_fill_in, Hz. }
  split; [by apply zero_ust| |].
  - split; [|split].
    + intros p u i Hlen Hpx Hu Hi.
      destruct (zero_table s q p u Hq Hz (conj (Nat.lt_le_incl _ _ Hlen) Hpx) Hu) as [_ ->].
      by rewrite Hp.
    + intros i Hi. by rewrite Hp by (unfold px_ok; lia).
    + intros t (p & Hp' & Et). by destruct (zero_table s q p t Hq Hz Hp' Et) as [_ ->].
  - intros va _. by rewrite zero_lookup.
Qed.

(** [uvmfree], from the two halves of its work. *)
Lemma uvmfree_run e root B s l sz :
  kfree_locks e -> uspace root B s l -> B <= MAXVA -> 0 <= sz <= MAXVA -> PGROUNDUP sz <= B ->
  exists s1 l1, drop_post root B s s1 l l1
      (unmapped (lookup_pte (kmem_mem s) root) 0 (PGROUNDUP sz / PGSIZE)) /\
    uvmfree root sz e s = freewalk 16 root e s1.
Proof.
  intros Hl S HB Hsz HszB. unfold uvmfree. change MAXVA with (2 ^ 38) in Hsz.
  destruct (PGROUNDUP_bounds sz) as [Aa Ab]; [unfold PGSIZE; lia|].
  assert (Hd : PGROUNDUP sz / PGSIZE * PGSIZE = PGROUNDUP sz)
    by (pose proof (aligned_diff 0 _ eq_refl Aa) as E; rewrite Z.sub_0_r in E; lia).
  destruct (sp_ust S) as [Hk Hpt Hu _]. destruct (Z.ltb_spec 0 sz).
  - destruct (uvmunmap_run Hlink e root B s l 0 (PGROUNDUP sz / PGSIZE)) as (s1 & l1 & E & D);
      try done; [apply Z.div_pos; unfold PGSIZE in *; lia|lia|].
    exists s1, l1. split; [done|]. kstep. by rewrite (bind_step _ _ _ _ _ _ _ E).
  - exists s, l. split; [|by kstep]. replace sz with 0 by lia. change (PGROUNDUP 0 / PGSIZE) with 0.
    eapply drop_post_ext; [|done|by apply drop_post_refl]. intros. by rewrite unmapped_0.
Qed.

(** After the unmapping step, exactly the mappings from [sz] up are left. *)
Lemma uvmfree_left root B s l s1 l1 sz :
  uspace root B s l -> 0 <= sz <= MAXVA -> B <= MAXVA ->
  drop_post root B s s1 l l1 (unmapped (lookup_pte (kmem_mem s) root) 0 (PGROUNDUP sz / PGSIZE)) ->
  leafy 2 (kmem_mem s1) root = true <->
  exists va, PGROUNDUP sz <= va < MAXVA /\ valid_at (kmem_mem s) root va = true.
Proof.
  intros S Hsz HB D. rewrite (uspace_leafy root B s1 l1 (uspace_drop _ _ _ _ _ _ _ HB S D)).
  change MAXVA with (2 ^ 38) in Hsz. destruct (PGROUNDUP_bounds sz) as [Aa Ab]; [unfold PGSIZE; lia|].
  assert (Hd : 0 + PGROUNDUP sz / PGSIZE * PGSIZE = PGROUNDUP sz)
    by (pose proof (aligned_diff 0 _ eq_refl Aa) as E; rewrite Z.sub_0_r in E; lia).
  split; intros (va & Hva & Hv).
  - destruct (Z.lt_ge_cases va (PGROUNDUP sz)) as [Hlt|Hge];
      unfold valid_at in *; rewrite (dp_lookup _ _ _ _ _ _ _ D va Hva) in Hv.
    + rewrite unmapped_invalid in Hv by lia. done.
    + exists va. rewrite unmapped_out in Hv by lia. split; [lia|done].
  - exists va. split; [lia|]. unfold valid_at in *.
    by rewrite (dp_lookup _ _ _ _ _ _ _ D va), unmapped_out by lia.
Qed.

(** The pages the unmapping step puts on the free list. *)
Lemma uvmfree_freed root B s l s1 l1 sz q :
  0 <= sz <= MAXVA -> PGROUNDUP sz <= B -> B <= MAXVA ->
  drop_post root B s s1 l l1 (unmapped (lookup_pte (kmem_mem s) root) 0 (PGROUNDUP sz / PGSIZE)) ->
  q ∈ l1 <-> q ∈ l \/ exists va, 0 <= va < PGROUNDUP sz /\ valid_at (kmem_mem s) root va = true /\
                q = page_at (kmem_mem s) root va.
Proof.
  intros Hsz HszB HB D. change MAXVA with (2 ^ 38) in Hsz.
  destruct (PGROUNDUP_bounds sz) as [Aa Ab]; [unfold PGSIZE; lia|].
  assert (Hd : 0 + PGROUNDUP sz / PGSIZE * PGSIZE = PGROUNDUP sz)
    by (pose proof (aligned_diff 0 _ eq_refl Aa) as E; rewrite Z.sub_0_r in E; lia).
  split.
  - intros [?|(va & Hva & Hv & Hz & ->)]%(dp_free _ _ _ _ _ _ _ D); [by left|right].
    exists va. split; [|done]. destruct (Z.lt_ge_cases va (PGROUNDUP sz)); [lia|].
    rewrite unmapped_out in Hz by lia. by destruct (valid_nonzero _ Hv).
  - intros [?|(va & Hva & Hv & ->)]; [by apply (dp_keep _ _ _ _ _ _ _ D)|].
    apply (dp_gain _ _ _ _ _ _ _ D); [lia|done|]. unfold unmapped.
    rewrite (proj2 (in_range_true _ _ _)) by lia. unfold valid_at in Hv. by rewrite Hv.
Qed.

(** When a page is still mapped at or above [sz], [uvmfree] panics. *)
Lemma uvmfree_leaf_panics e root B s l sz va :
  kfree_locks e -> uspace root B s l -> B <= MAXVA -> 0 <= sz <= MAXVA -> PGROUNDUP sz <= B ->
  PGROUNDUP sz <= va < MAXVA -> valid_at (kmem_mem s) root va = true ->
  uvmfree root sz e s = Panic "freewalk: leaf".
Proof.
  intros Hl S HB Hsz HszB Hva Hv.
  destruct (uvmfree_run e root B s l sz Hl S HB Hsz HszB) as (s1 & l1 & D & ->).
  pose proof (uspace_drop _ _ _ _ _ _ _ HB S D) as S1.
  pose proof (freewalk_run e Hl 2 16 root s1 l1 ltac:(lia) (dp_kinv _ _ _ _ _ _ _ D)
                (uspace_bounded _ _ _ _ S1) (uspace_freeable _ _ _ _ S1)) as Hf.
  by rewrite (proj2 (uvmfree_left _ _ _ _ _ _ _ S Hsz HB D)) in Hf by eauto.
Qed.

(** [uvmfree], in full. *)
Lemma uvmfree_all e root B s l sz :
  kfree_locks e -> uspace root B s l -> B <= MAXVA -> 0 <= sz <= MAXVA -> PGROUNDUP sz <= B ->
  (forall va, PGROUNDUP sz <= va < MAXVA -> valid_at (kmem_mem s) root va = false) ->
  exists s' l', uvmfree root sz e s = Ret tt e s' /\ kinv s' l' /\
    (forall q, q ∈ l' <-> q ∈ l \/ is_table (kmem_mem s) root q \/
       exists va, 0 <= va < PGROUNDUP sz /\ valid_at (kmem_mem s) root va = true /\
         q = page_at (kmem_mem s) root va) /\
    (forall q, foreign s root l B 0 q -> refcount s' (pageno q) = refcount s (pageno q) /\
       forall x, q <= x < q + PGSIZE -> kmem_mem s' x = kmem_mem s x).
Proof.
  intros Hl S HB Hsz HszB Hno.
  destruct (uvmfree_run e root B s l sz Hl S HB Hsz HszB) as (s1 & l1 & D & ->).
  pose proof (uspace_drop _ _ _ _ _ _ _ HB S D) as S1.
  pose proof (drop_ustep Hlink root B (fun _ => False) s s1 l l1 _ HB (sp_ust S) D ltac:(tauto)) as U.
  pose proof (freewalk_run e Hl 2 16 root s1 l1 ltac:(lia) (dp_kinv _ _ _ _ _ _ _ D)
                (uspace_bounded _ _ _ _ S1) (uspace_freeable _ _ _ _ S1)) as Hf.
  destruct (leafy 2 (kmem_mem s1) root) eqn:El.
  { apply (uvmfree_left _ _ _ _ _ _ _ S Hsz HB D) in El as (va & Hva & Hv). by rewrite Hno in Hv. }
  destruct Hf as (s2 & l2 & E & F). exists s2, l2. split; [done|]. split; [apply F|].
  assert (Ht : forall q, q ∈ tables 2 (kmem_mem s1) root <-> is_table (kmem_mem s) root q).
  { intros q. rewrite (uspace_tables _ _ _ _ _ S1). apply is_table_ext, (dp_table _ _ _ _ _ _ _ D). }
  split.
  - intros q. rewrite (fw_list _ _ _ _ _ _ F), elem_of_app, Ht.
    rewrite (uvmfree_freed root B s l s1 l1 sz q Hsz HszB HB D). tauto.
  - intros q Hq. assert (q ∉ tables 2 (kmem_mem s1) root) as Hqt by (rewrite Ht; apply Hq).
    split.
    + rewrite (fw_count _ _ _ _ _ _ F) by (done || apply Hq). apply (us_count _ _ _ _ _ _ _ _ _ U q Hq).
    + intros x Hx. rewrite (fw_mem _ _ _ _ _ _ F).
      * by apply (foreign_mem Hlink _ _ _ _ _ _ _ _ U Hq).
      * intros p Hp Hpx. apply Hqt. destruct (proj2 (uspace_freeable _ _ _ _ S1) p Hp) as (Hkp & _).
        by rewrite (page_of_byte Hlink q p x (proj1 Hq) Hkp Hx Hpx).
Qed.

(** ** Properties *)

(** C13 (uvmfree): when nothing is mapped at or above [sz], [uvmfree] returns and
    the free list afterwards consists of the pages that were free before, the
    page-table pages of the address space, and the pages it had mapped; memory
    and reference counts of all other pages are unchanged. *)
Theorem uvmfree_correct e root B s l sz :
  kfree_locks e -> uspace root B s l -> B <= MAXVA -> 0 <= sz <= MAXVA -> PGROUNDUP sz <= B ->
  (forall va, PGROUNDUP sz <= va < MAXVA -> valid_at (kmem_mem s) root va = false) ->
  exists s' l', uvmfree root sz e s = Ret tt e s' /\ kinv s' l' /\
    (forall q, q ∈ l' <-> q ∈ l \/ is_table (kmem_mem s) root q \/
       exists va, 0 <= va < PGROUNDUP sz /\ valid_at (kmem_mem s) root va = true /\
         q = page_at (kmem_mem s) root va) /\
    (forall q, foreign s root l B 0 q -> refcount s' (pageno q) = refcount s (pageno q) /\
       forall x, q <= x < q + PGSIZE -> kmem_mem s' x = kmem_mem s x).
Proof. apply uvmfree_all. Qed.

End VmFree.

(** ** Witnesses *)

#[local] Existing Instance demo_linker.

(** The two-page address space of [demo_two_pages]. *)
Lemma demo_space :
  exists s1 l1, uvmalloc (demo_page 10) 0 8192 PTE_W demo_env demo_kmem = Ret 8192 demo_env s1 /\
    uspace (demo_page 10) TRAPFRAME s1 l1 /\
    (forall va, 0 <= va < 8192 -> valid_at (kmem_mem s1) (demo_page 10) va = true) /\
    (forall va, 8192 <= va < MAXVA -> valid_at (kmem_mem s1) (demo_page 10) va = false).
Proof.
  destruct demo_two_pages as (s1 & l1 & E & [U Hlk Hr] & _).
  exists s1, l1. split; [exact E|]. clear E. destruct Hr as [[_ Hz]|[? _]]; [|done].
  assert (Hz10 : forall x, demo_page 10 <= x < demo_page 10 + PGSIZE -> kmem_mem demo_kmem x = 0)
    by (intros x Hx; by apply (demo_used_zero 10)).
  assert (K10 : kpage (demo_page 10)) by (apply demo_kpage; lia).
  assert (S : uspace (demo_page 10) TRAPFRAME demo_kmem demo_free).
  { apply zero_uspace; [apply demo_kinv|done|apply demo_used; lia|by_eval|done]. }
  split; [|split].
  - apply (uspace_step (demo_page 10) TRAPFRAME _ _ _ _ _ S U). intros va Hva.
    destruct (decide (0 <= va < 8192)) as [Hin|Hout].
    + destruct (Hz va Hin) as (-> & Hk & _).
      apply (map_pte_leaf _ _ 1); [apply (kpage_pte_range demo_linker_ok _ Hk)|by_eval|lia|done].
    + rewrite Hlk, zero_lookup by done. done.
  - intros va Hva. eapply (user_zero_valid demo_linker_ok); [|by apply Hz]. by_eval.
  - intros va Hva. unfold valid_at. rewrite Hlk, zero_lookup by (done || lia). done.
Qed.

Lemma uvmfree_correct_witness :
  exists s1 s' l',
    uvmalloc (demo_page 10) 0 8192 PTE_W demo_env demo_kmem = Ret 8192 demo_env s1 /\
    uvmfree (demo_page 10) 8192 demo_env s1 = Ret tt demo_env s' /\ kinv s' l' /\ demo_page 10 ∈ l'.
Proof.
  destruct demo_space as (s1 & l1 & E & S & _ & Hno).
  destruct (uvmfree_correct demo_linker_ok demo_env (demo_page 10) TRAPFRAME s1 l1 8192 demo_locks S)
    as (s' & l' & E' & Hk & Hl & _); [by_eval|by_eval|by_eval|exact Hno|].
  exists s1, s', l'. split; [exact E|]. split; [exact E'|]. split; [exact Hk|].
  apply Hl. right. left. exists []. split; [apply path_ok_nil|reflexivity].
Defined.
