(* ===== verification/VmType.v ===== *)
(** * Types of the kernel's memory

    A typing discipline for the code on physical memory: a state is typed if every
    cell of memory holds a byte, the head of the free list is a 64-bit word and every
    reference count an [int]; a computation has a result type if it takes typed states
    to typed states and returns values of the type, on every path.

    What the theorem shows: every function of kernel/kalloc.c and kernel/vm.c is typed,
    whatever its arguments, and so is every sequence of calls. *)

From stdpp Require Import base gmap sets list strings.
From Stdlib Require Import ZArith Lia.
From S2P Require Import Prelude Kernel Riscv Kalloc Vm VmUser VmCopy.

Create HintDb typed.

Section Types.
Context {L : Linker}.

(** ** Types *)

Definition word (v : Z) : Prop := 0 <= v < 2 ^ 64.
Definition int (v : Z) : Prop := - 2 ^ 31 <= v < 2 ^ 31.
Definition any {A} (_ : A) : Prop := True.

Record kmem_ty (s : kmem) : Prop := {
  ty_mem : bytes_ok (kmem_mem s);
  ty_free : word (freelist s);
  ty_refs : forall i, int (refcount s i)
}.

Definition typed {A} (R : A -> Prop) (m : K kmem A) : Prop :=
  forall e s, kmem_ty s ->
  match m e s with
  | Ret a _ s' => R a /\ kmem_ty s'
  | Block _ s' => kmem_ty s'
  | Panic _ | Undef _ => True
  end.

(** ** Rules *)

Lemma typed_ret {A} (R : A -> Prop) a : R a -> typed R (ret a).
Proof. by intros H e s Hs. Qed.

Lemma typed_bind {A B} (R : A -> Prop) (Q : B -> Prop) m k : typed R m -> (forall a, R a -> typed Q (k a)) -> typed Q (bind m k).
Proof. intros Hm Hk e s Hs. unfold bind. specialize (Hm e s Hs). destruct (m e s) as [a e' s'| | |]; try done. destruct Hm as [Ha Hs']. exact (Hk a Ha e' s' Hs'). Qed.

Lemma typed_weaken {A} (R Q : A -> Prop) m : typed R m -> (forall a, R a -> Q a) -> typed Q m.
Proof. intros Hm HQ e s Hs. specialize (Hm e s Hs). destruct (m e s); try done. destruct Hm. auto. Qed.

Lemma typed_any {A} (R : A -> Prop) m : typed R m -> typed any m.
Proof. intros H. by apply (typed_weaken R). Qed.

Lemma typed_panic {A} (R : A -> Prop) msg : typed R (panic msg).
Proof. by intros e s Hs. Qed.

Lemma typed_undef {A} (R : A -> Prop) msg : typed R (undef msg).
Proof. by intros e s Hs. Qed.

Lemma typed_gets {A} (R : A -> Prop) f : (forall s, kmem_ty s -> R (f s)) -> typed R (gets f).
Proof. intros H e s Hs. split; [by apply H|done]. Qed.

Lemma typed_modify f : (forall s, kmem_ty s -> kmem_ty (f s)) -> typed any (modify f).
Proof. intros H e s Hs. split; [done|by apply H]. Qed.

Lemma typed_acquire l : typed any (acquire l).
Proof. intros e s Hs. unfold acquire. by case_bool_decide. Qed.

Lemma typed_release l : typed any (release l).
Proof. intros e s Hs. unfold release. by case_bool_decide. Qed.

Lemma typed_initlock l : typed any (initlock l).
Proof. intros e s Hs. unfold initlock, modify_env. done. Qed.

Lemma typed_when b m : typed any m -> typed any (when b m).
Proof. intros H. unfold when. destruct b; [done|by apply typed_ret]. Qed.

Lemma typed_for_each {A} (l : list A) body : (forall x, typed any (body x)) -> typed any (for_each l body).
Proof. intros H. induction l as [|x l IH]; cbn; [by apply typed_ret|]. apply (typed_bind any); [apply H|]. intros _ _. exact IH. Qed.
#[local] Hint Resolve typed_acquire typed_release typed_initlock typed_panic typed_undef : typed.

(** Follow the structure of the code; a call has the type of its lemma. *)
Ltac ty :=
  repeat (cbv zeta; lazymatch goal with
  | |- typed _ (bind _ _) => first [eapply typed_bind; [solve [eauto with typed]|intros ? ?] | apply (typed_bind any); [|intros ? _]]
  | |- typed _ (if ?b then _ else _) => destruct b
  | |- typed _ (match ?o with _ => _ end) => destruct o
  | |- typed _ (when _ _) => apply typed_when
  | |- typed _ (ret _) => apply typed_ret
  | |- typed _ (for_each _ _) => apply typed_for_each; intros ?
  | |- typed any (modify _) => first [solve [eauto with typed] | apply typed_modify; intros ? ?]
  | |- typed _ (gets _) => first [solve [eauto with typed] | apply typed_gets; intros ? ?]
  | |- typed _ _ => first [solve [eauto with typed] | eapply typed_any; solve [eauto with typed]]
  | |- any _ => exact I
  end).

(** ** kernel/kalloc.c *)

Lemma i32_int v : int (i32 v).
Proof. apply (sint_wrap_range 32). lia. Qed.

Lemma set_mem_ty s m : kmem_ty s -> bytes_ok m -> kmem_ty (set_mem s m).
Proof. by intros [H1 H2 H3] H. Qed.

Lemma set_refcount_ty s i v : kmem_ty s -> int v -> kmem_ty (set_refcount s i v).
Proof. intros [H1 H2 H3] H. split; [done|done|]. intros j. cbn. by destruct (j =? i). Qed.

Lemma pa2pageindex_ty pa : typed int (pa2pageindex pa).
Proof. unfold pa2pageindex. ty. apply i32_int. Qed.
#[local] Hint Resolve pa2pageindex_ty : typed.

Lemma incref_ty pa : typed any (incref pa).
Proof. unfold incref. ty. apply set_refcount_ty; [done|apply i32_int]. Qed.

Lemma decref_ty pa : typed any (decref pa).
Proof. unfold decref. ty. apply set_refcount_ty; [done|apply i32_int]. Qed.

Lemma get_refcount_ty i : typed int (gets (fun s => refcount s i)).
Proof. apply typed_gets. intros s Hs. apply Hs. Qed.
#[local] Hint Resolve incref_ty decref_ty get_refcount_ty : typed.

Lemma getref_ty pa : typed int (getref pa).
Proof. unfold getref. ty. done. Qed.
#[local] Hint Resolve getref_ty : typed.

Lemma load64_word m a : bytes_ok m -> word (load64 m a).
Proof. intros H. apply (load_range 8 m a H). Qed.

Hypothesis Hlink : linker_ok.

Lemma kpage_word pa : negb (pa mod PGSIZE =? 0) || (pa <? kend) || (PHYSTOP <=? pa) = false -> word pa.
Proof. intros [[_ H1]%orb_false_iff H2]%orb_false_iff. unfold linker_ok in *. unfold word, PHYSTOP, KERNBASE in *. lia. Qed.

Lemma fill_ty a c n : typed any (modify (fun s => set_mem s (mem_fill (kmem_mem s) a c n))).
Proof. apply typed_modify. intros s Hs. apply set_mem_ty; [done|]. apply mem_fill_ok, Hs. Qed.

Lemma link_ty a : typed any (modify (fun s => set_mem s (store64 (kmem_mem s) a (freelist s)))).
Proof. apply typed_modify. intros s Hs. apply set_mem_ty; [done|]. apply store_ok, Hs. Qed.

Lemma set_freelist_ty r : word r -> typed any (modify (fun s => set_freelist s r)).
Proof. intros Hr. apply typed_modify. intros s [A1 A2 A3]. by split. Qed.

Lemma pop_ty r : typed any (modify (fun s => set_freelist s (load64 (kmem_mem s) r))).
Proof. apply typed_modify. intros s [A1 A2 A3]. split; [done|by apply load64_word|done]. Qed.

Lemma get_freelist_ty : typed word (gets freelist).
Proof. apply typed_gets. intros s Hs. apply Hs. Qed.
#[local] Hint Resolve fill_ty link_ty set_freelist_ty pop_ty get_freelist_ty : typed.

Lemma kfree_ty pa : typed any (kfree pa).
Proof. unfold kfree. destruct (_ || _) eqn:Ec; [ty|]. apply kpage_word in Ec. ty. Qed.

Lemma kalloc_ty : typed word kalloc.
Proof. unfold kalloc. ty. done. Qed.
#[local] Hint Resolve kfree_ty kalloc_ty : typed.

Lemma freerange_ty a b : typed any (freerange a b).
Proof. unfold freerange. generalize (PGROUNDUP a) as p. induction (Z.to_nat (b / PGSIZE)) as [|f IH]; intros p; cbn [freerange_loop]; ty. Qed.
#[local] Hint Resolve freerange_ty : typed.

Lemma kinit_ty : typed any kinit.
Proof. unfold kinit. ty. match goal with Hs : kmem_ty _ |- _ => destruct Hs as [A1 A2 A3] end. split; [done|done|]. intros i. cbn. destruct (in_range _ _ _); [unfold int; lia|done]. Qed.

(** ** kernel/vm.c *)

Lemma read_pte_ty a : typed word (read_pte a).
Proof. apply typed_gets. intros s Hs. apply load64_word, Hs. Qed.

Lemma write_pte_ty a v : typed any (write_pte a v).
Proof. apply typed_modify. intros s Hs. apply set_mem_ty; [done|]. apply store_ok, Hs. Qed.

Lemma fill_page_ty a c : typed any (fill_page a c).
Proof. apply typed_modify. intros s Hs. apply set_mem_ty; [done|]. apply mem_fill_ok, Hs. Qed.
#[local] Hint Resolve read_pte_ty write_pte_ty fill_page_ty : typed.

Lemma walk_ty pt va alloc : typed any (walk pt va alloc).
Proof. unfold walk. destruct (MAXVA <=? va); [ty|]. revert pt. induction [2; 1] as [|l ls IH]; intros pt; cbn [walk_loop]; ty. Qed.
#[local] Hint Resolve walk_ty : typed.

Lemma walkaddr_ty pt va : typed any (walkaddr pt va).
Proof. unfold walkaddr. ty. Qed.

(** 0, or -1 for an error *)
Definition status (r : Z) : Prop := r = 0 \/ r = -1.

Lemma mappages_loop_ty f : forall pt a last pa perm, typed status (mappages_loop f pt a last pa perm).
Proof. induction f as [|f IH]; intros; cbn [mappages_loop]; ty; unfold status; auto. Qed.
#[local] Hint Resolve mappages_loop_ty : typed.

Lemma mappages_ty pt va size pa perm : typed status (mappages pt va size pa perm).
Proof. unfold mappages. ty. Qed.
#[local] Hint Resolve walkaddr_ty mappages_ty : typed.

Lemma kvmmap_ty pt va pa sz perm : typed any (kvmmap pt va pa sz perm).
Proof. unfold kvmmap. ty. Qed.
#[local] Hint Resolve kvmmap_ty : typed.

Lemma uvmunmap_loop_ty f : forall pt a stop b, typed any (uvmunmap_loop f pt a stop b).
Proof. induction f as [|f IH]; intros; cbn [uvmunmap_loop]; ty. Qed.
#[local] Hint Resolve uvmunmap_loop_ty : typed.

Lemma uvmunmap_ty pt va n b : typed any (uvmunmap pt va n b).
Proof. unfold uvmunmap. ty. Qed.
#[local] Hint Resolve uvmunmap_ty : typed.

Lemma uvmcreate_ty : typed word uvmcreate.
Proof. unfold uvmcreate. ty; done. Qed.

Lemma uvmdealloc_ty pt a b : typed any (uvmdealloc pt a b).
Proof. unfold uvmdealloc. ty. Qed.
#[local] Hint Resolve uvmcreate_ty uvmdealloc_ty : typed.

Lemma uvmalloc_loop_ty f : forall pt a b c x, typed any (uvmalloc_loop f pt a b c x).
Proof. induction f as [|f IH]; intros; cbn [uvmalloc_loop]; ty. Qed.
#[local] Hint Resolve uvmalloc_loop_ty : typed.

Lemma uvmalloc_ty pt a b x : typed any (uvmalloc pt a b x).
Proof. unfold uvmalloc. ty. Qed.

Lemma freewalk_ty f : forall pt, typed any (freewalk f pt).
Proof. induction f as [|f IH]; intros; cbn [freewalk]; ty. Qed.
#[local] Hint Resolve uvmalloc_ty freewalk_ty : typed.

Lemma uvmfree_ty pt sz : typed any (uvmfree pt sz).
Proof. unfold uvmfree. ty. Qed.

Lemma copy_page_ty d a n : typed any (modify (fun s => set_mem s (mem_copy (kmem_mem s) d a n))).
Proof. apply typed_modify. intros s Hs. apply set_mem_ty; [done|]. apply mem_copy_ok, Hs. Qed.
#[local] Hint Resolve uvmfree_ty copy_page_ty : typed.

Lemma uvmcopy_loop_ty f : forall old new i sz, typed status (uvmcopy_loop f old new i sz).
Proof. induction f as [|f IH]; intros; cbn [uvmcopy_loop]; ty; unfold status; auto. Qed.
#[local] Hint Resolve uvmcopy_loop_ty : typed.

Lemma uvmcopy_ty old new sz : typed status (uvmcopy old new sz).
Proof. unfold uvmcopy. ty. Qed.

Lemma uvmclear_ty pt va : typed any (uvmclear pt va).
Proof. unfold uvmclear. ty. Qed.

Lemma ismapped_ty pt va : typed any (ismapped pt va).
Proof. unfold ismapped. ty. Qed.
#[local] Hint Resolve uvmcopy_ty uvmclear_ty ismapped_ty : typed.

Lemma vmfault_ty up pt va : typed any (vmfault up pt va).
Proof. unfold vmfault. ty. Qed.
#[local] Hint Resolve vmfault_ty : typed.

Lemma store_bytes_ty a l : Forall is_byte l -> typed any (modify (fun s => set_mem s (mem_write (kmem_mem s) a l))).
Proof. intros Hl. apply typed_modify. intros s Hs. apply set_mem_ty; [done|]. apply mem_write_ok; [apply Hs|done]. Qed.

#[local] Hint Resolve store_bytes_ty Forall_take Forall_drop : typed.

Lemma copyout_loop_ty f : forall up pt va l, Forall is_byte l -> typed status (copyout_loop f up pt va l).
Proof. induction f as [|f IH]; intros up pt va l Hl; destruct l as [|b l]; cbn [copyout_loop]; ty; unfold status; auto. Qed.

Lemma copyout_ty up pt va l : Forall is_byte l -> typed status (copyout up pt va l).
Proof. apply copyout_loop_ty. Qed.

(** The bytes read from user memory *)
Definition opt_bytes (o : option (list Z)) : Prop := match o with Some l => Forall is_byte l | None => True end.

Lemma get_bytes_ty a n : typed (Forall is_byte) (gets (fun s => bytes_at (kmem_mem s) a n)).
Proof. apply typed_gets. intros s Hs. apply Forall_fmap, Forall_forall. intros i _. apply Hs. Qed.

#[local] Hint Resolve get_bytes_ty : typed.

Lemma opt_app_ty (P : Z -> Prop) l o : Forall P l -> match o with Some l => Forall P l | None => True end ->
  match option_map (fun l' => l ++ l') o with Some l => Forall P l | None => True end.
Proof. destruct o; cbn; [|done]. intros. by apply Forall_app. Qed.

Lemma copyin_loop_ty f : forall up pt va n, typed opt_bytes (copyin_loop f up pt va n).
Proof. induction f as [|f IH]; intros; cbn [copyin_loop]; ty; [constructor..|by apply (opt_app_ty is_byte)]. Qed.

Lemma copyin_ty up pt va n : typed opt_bytes (copyin up pt va n).
Proof. apply copyin_loop_ty. Qed.

(** A string read from user memory *)
Definition is_char (b : Z) : Prop := 0 < b < 256.
Definition opt_chars (o : option (list Z)) : Prop := match o with Some l => Forall is_char l | None => True end.

Lemma scan_nul_ty n : forall m a, bytes_ok m -> Forall is_char (fst (scan_nul n m a)).
Proof.
  induction n as [|n IH]; intros m a Hm; cbn [scan_nul]; [constructor|]. destruct (Z.eqb_spec (m a) 0) as [E|E]; [constructor|].
  specialize (IH m (a + 1) Hm). destruct (scan_nul n m (a + 1)) as [l b]. cbn in *. constructor; [|done]. pose proof (Hm a). unfold is_char. lia.
Qed.

Lemma get_scan_ty n a : typed (fun r => Forall is_char (fst r)) (gets (fun s => scan_nul n (kmem_mem s) a)).
Proof. apply typed_gets. intros s Hs. apply scan_nul_ty, Hs. Qed.
#[local] Hint Resolve get_scan_ty : typed.

Lemma copyinstr_loop_ty f : forall pt va n, typed opt_chars (copyinstr_loop f pt va n).
Proof. induction f as [|f IH]; intros; cbn [copyinstr_loop]; ty; try done; by apply (opt_app_ty is_char). Qed.

Lemma copyinstr_ty pt va n : typed opt_chars (copyinstr pt va n).
Proof. apply copyinstr_loop_ty. Qed.

Lemma proc_mapstacks_ty pt : typed any (proc_mapstacks pt).
Proof. unfold proc_mapstacks. ty. Qed.
#[local] Hint Resolve proc_mapstacks_ty : typed.

Lemma kvmmake_ty : typed word kvmmake.
Proof. unfold kvmmake. eapply typed_bind; [apply kalloc_ty|]. intros r Hr. ty. done. Qed.

(** ** Sequences of calls *)

(** The functions of kernel/kalloc.c and kernel/vm.c, with their arguments *)
Inductive memcall : Type :=
  | CIncref (pa : Z) | CDecref (pa : Z) | CGetref (pa : Z) | CKfree (pa : Z) | CKalloc | CFreerange (a b : Z) | CKinit
  | CWalk (pt va : Z) (alloc : bool) | CWalkaddr (pt va : Z) | CMappages (pt va size pa perm : Z) | CKvmmap (pt va pa sz perm : Z)
  | CUvmunmap (pt va n : Z) (do_free : bool) | CUvmcreate | CUvmdealloc (pt a b : Z) | CUvmalloc (pt a b x : Z)
  | CFreewalk (depth : nat) (pt : Z) | CUvmfree (pt sz : Z) | CUvmcopy (old new sz : Z) | CUvmclear (pt va : Z) | CIsmapped (pt va : Z)
  | CVmfault (up : uproc) (pt va : Z) | CCopyout (up : uproc) (pt va : Z) (l : list Z) | CCopyin (up : uproc) (pt va n : Z)
  | CCopyinstr (pt va n : Z) | CMapstacks (pt : Z) | CKvmmake.

(** The results of calls *)
Inductive memval : Type := VUnit | VBool (b : bool) | VInt (v : Z) | VBytes (o : option (list Z)) | VString (o : option (list Z)).

Definition memrun (c : memcall) : K kmem memval :=
  let unit (m : K kmem unit) := m ;; ret VUnit in
  let int (m : K kmem Z) := r <- m ;; ret (VInt r) in
  match c with
  | CIncref pa => unit (incref pa) | CDecref pa => unit (decref pa) | CGetref pa => int (getref pa) | CKfree pa => unit (kfree pa)
  | CKalloc => int kalloc | CFreerange a b => unit (freerange a b) | CKinit => unit kinit
  | CWalk pt va alloc => int (walk pt va alloc) | CWalkaddr pt va => int (walkaddr pt va) | CMappages pt va sz pa perm => int (mappages pt va sz pa perm)
  | CKvmmap pt va pa sz perm => unit (kvmmap pt va pa sz perm) | CUvmunmap pt va n b => unit (uvmunmap pt va n b) | CUvmcreate => int uvmcreate
  | CUvmdealloc pt a b => int (uvmdealloc pt a b) | CUvmalloc pt a b x => int (uvmalloc pt a b x) | CFreewalk d pt => unit (freewalk d pt)
  | CUvmfree pt sz => unit (uvmfree pt sz) | CUvmcopy old new sz => int (uvmcopy old new sz) | CUvmclear pt va => unit (uvmclear pt va)
  | CIsmapped pt va => r <- ismapped pt va ;; ret (VBool r) | CVmfault up pt va => int (vmfault up pt va)
  | CCopyout up pt va l => int (copyout up pt va l) | CCopyin up pt va n => r <- copyin up pt va n ;; ret (VBytes r)
  | CCopyinstr pt va n => r <- copyinstr pt va n ;; ret (VString r) | CMapstacks pt => unit (proc_mapstacks pt) | CKvmmake => int kvmmake
  end.

(** What a caller has to respect: [copyout] is given bytes. *)
Definition args_ty (c : memcall) : Prop := match c with CCopyout _ _ _ l => Forall is_byte l | _ => True end.

(** The type of the result *)
Definition result_ty (c : memcall) (v : memval) : Prop :=
  match c, v with
  | CGetref _, VInt r => int r
  | (CKalloc | CUvmcreate | CKvmmake), VInt r => word r
  | (CMappages _ _ _ _ _ | CUvmcopy _ _ _ | CCopyout _ _ _ _), VInt r => status r
  | (CWalk _ _ _ | CWalkaddr _ _ | CUvmdealloc _ _ _ | CUvmalloc _ _ _ _ | CVmfault _ _ _), VInt _ => True
  | CCopyin _ _ _ _, VBytes o => opt_bytes o
  | CCopyinstr _ _ _, VString o => opt_chars o
  | CIsmapped _ _, VBool _ => True
  | (CIncref _ | CDecref _ | CKfree _ | CFreerange _ _ | CKinit | CKvmmap _ _ _ _ _ | CUvmunmap _ _ _ _ | CFreewalk _ _ | CUvmfree _ _ | CUvmclear _ _ | CMapstacks _), VUnit => True
  | _, _ => False
  end.

Fixpoint memruns (cs : list memcall) : K kmem (list memval) :=
  match cs with
  | [] => ret []
  | c :: cs => v <- memrun c ;; vs <- memruns cs ;; ret (v :: vs)
  end.

Lemma memrun_ty c : args_ty c -> typed (result_ty c) (memrun c).
Proof.
  intros Ha. destruct c; cbn [memrun];
    (eapply typed_bind; [solve [eauto using copyout_ty, copyin_ty, copyinstr_ty, kvmmake_ty, kinit_ty with typed]|intros r Hr; by apply typed_ret]).
Qed.
Lemma memruns_ty cs : Forall args_ty cs -> typed (fun vs => Forall2 result_ty cs vs) (memruns cs).
Proof.
  induction 1 as [|c cs Hc _ IH]; cbn [memruns]; [by apply typed_ret|]. eapply typed_bind; [by apply memrun_ty|]. intros v Hv.
  eapply typed_bind; [exact IH|]. intros vs Hvs. apply typed_ret. by constructor.
Qed.

End Types.

(** ** Witness *)

#[local] Instance demo_tlinker : Linker := {| kend := 0x80021000; etext := 0x80008000; trampoline := 0x80007000 |}.

(** One page is free; the page after it is freed too, and one of them allocated again. *)
Definition demo_tmem : kmem := Kmem (fun _ => 0) 0x80021000 (fun _ => 1).
Definition demo_calls : list memcall := [CKfree 0x80022000; CKalloc; CGetref 0x80022000].

