(* ===== verification/Sched.v ===== *)
(** * kernel/proc.c: sleeping, waking, killing and scheduling

    The operations on the lock-protected fields of the process table, for any
    component state [T].  A process that gives up the CPU in [sched] ends the run
    with [Block]; [sleep_resume] is the part of [sleep] after [swtch] returns.
    The scheduler's loop is split at its [swtch] in the same way:
    [scheduler_scan] finds the next process and hands over the CPU with that
    process's lock held, [scheduler_back] is what it does when the CPU returns. *)

From stdpp Require Import base gmap sets list strings.
From Stdlib Require Import ZArith Lia.
From S2P Require Import Prelude Kernel.

(** ** Definitions *)

Section Sched.
Context {T : Type}.

Definition myproc : K T (option nat) := fun e t => Ret (cproc e) e t.

(** Access to the current process; a null [myproc()] is dereferenced. *)
Definition curproc : K T nat :=
  p <- myproc ;;
  match p with Some i => ret i | None => undef "null proc" end.

Definition getp (i : nat) : K T proc :=
  fun e t =>
    match procs e !! i with
    | Some p => Ret p e t
    | None => Undef "proc index"
    end.

Definition updp (i : nat) (f : proc -> proc) : K T unit :=
  modify_env (fun e => set_procs e (alter f i (procs e))).

(** [for(p = proc; p < &proc[NPROC]; p++)] *)
Definition all_procs : list nat := seq 0 NPROC.

Definition allocpid : K T Z :=
  acquire PidLock ;;
  pid <- (fun e t => Ret (nextpid e) e t) ;;
  modify_env (fun e => set_nextpid e (i32 (nextpid e + 1))) ;;
  release PidLock ;;
  ret pid.

(** [noff] is the number of spin locks held. *)
Definition sched : K T unit :=
  p <- curproc ;;
  h <- holding (ProcLock p) ;;
  if negb h then panic "sched p->lock"
  else
    noff <- (fun e t => Ret (size (held e)) e t) ;;
    if negb (noff =? 1)%nat then panic "sched locks"
    else
      q <- getp p ;;
      if bool_decide (p_state q = RUNNING) then panic "sched RUNNING"
      else fun e t => Block e t.

Definition yield : K T unit :=
  p <- curproc ;;
  acquire (ProcLock p) ;;
  updp p (set_state RUNNABLE) ;;
  sched ;;
  release (ProcLock p).

Definition sleep (chan : channel) (lk : lock) : K T unit :=
  p <- curproc ;;
  acquire (ProcLock p) ;;
  release lk ;;
  updp p (set_chan chan) ;;
  updp p (set_state SLEEPING) ;;
  sched ;;
  updp p (set_chan ChanNull) ;;
  release (ProcLock p) ;;
  acquire lk.

(** What [sleep] does after it is scheduled again. *)
Definition sleep_resume (lk : lock) : K T unit :=
  p <- curproc ;;
  updp p (set_chan ChanNull) ;;
  release (ProcLock p) ;;
  acquire lk.

Definition wakeup (chan : channel) : K T unit :=
  for_each all_procs (fun p =>
    me <- myproc ;;
    if bool_decide (Some p = me) then ret tt
    else
      acquire (ProcLock p) ;;
      q <- getp p ;;
      when (bool_decide (p_state q = SLEEPING) && bool_decide (p_chan q = chan))
        (updp p (set_state RUNNABLE)) ;;
      release (ProcLock p)).

Definition kill (pid : Z) : K T Z :=
  r <- for_find all_procs (fun p =>
    acquire (ProcLock p) ;;
    q <- getp p ;;
    if p_pid q =? pid then
      updp p (set_killed_field 1) ;;
      when (bool_decide (p_state q = SLEEPING)) (updp p (set_state RUNNABLE)) ;;
      release (ProcLock p) ;;
      ret (Some 0)
    else
      release (ProcLock p) ;;
      ret None) ;;
  match r with Some v => ret v | None => ret (-1) end.

Definition setkilled (p : nat) : K T unit :=
  acquire (ProcLock p) ;;
  updp p (set_killed_field 1) ;;
  release (ProcLock p).

Definition killed (p : nat) : K T Z :=
  acquire (ProcLock p) ;;
  q <- getp p ;;
  release (ProcLock p) ;;
  ret (p_killed q).

(** The scheduler's inner loop, from process [ps] on, up to its [swtch]: the
    process to run, whose lock stays held. *)
Definition scheduler_scan (ps : list nat) : K T (option nat) :=
  for_find ps (fun p =>
    acquire (ProcLock p) ;;
    q <- getp p ;;
    if bool_decide (p_state q = RUNNABLE) then
      updp p (set_state RUNNING) ;;
      modify_env (fun e => set_cproc e (Some p)) ;;
      ret (Some p)
    else
      release (ProcLock p) ;;
      ret None).

(** ... and after the process has given the CPU back. *)
Definition scheduler_back (p : nat) : K T unit :=
  modify_env (fun e => set_cproc e None) ;;
  release (ProcLock p).

(** Pass [p]'s abandoned children to init. *)
Definition reparent (p : nat) : K T unit :=
  for_each all_procs (fun pp =>
    q <- getp pp ;;
    if bool_decide (p_parent q = Some p) then
      ip <- (fun e t => Ret (initproc e) e t) ;;
      updp pp (set_parent ip) ;;
      match ip with
      | Some i => wakeup (ChanProc i)
      | None => wakeup ChanNull
      end
    else ret tt).


(** ** Specification *)

(** A process after a wakeup of [chan]. *)
Definition woken (chan : channel) (q : proc) : proc :=
  if bool_decide (p_state q = SLEEPING) && bool_decide (p_chan q = chan)
  then set_state RUNNABLE q else q.

(** The process table after [wakeup chan] by process [cur]. *)
Definition wake_all (cur : option nat) (chan : channel) (ps : list proc) : list proc :=
  imap (fun i q => if bool_decide (Some i = cur) then q else woken chan q) ps.

(** The process table has its size, and no lock of another process is held. *)
Definition procs_ok (e : env) : Prop := length (procs e) = NPROC.
Definition procs_free (e : env) : Prop := forall i, Some i <> cproc e -> ProcLock i ∉ held e.

(** ** Lemmas *)

Lemma getp_run i q e (t : T) : procs e !! i = Some q -> getp i e t = Ret q e t.
Proof. intros H. unfold getp. by rewrite H. Qed.

Lemma updp_run i f e (t : T) : updp i f e t = Ret tt (set_procs e (alter f i (procs e))) t.
Proof. done. Qed.

Lemma set_procs_held e ps : held (set_procs e ps) = held e.
Proof. done. Qed.

Lemma locked_set_procs l e ps : locked l (set_procs e ps) = set_procs (locked l e) ps.
Proof. done. Qed.

Lemma procs_lookup e i : procs_ok e -> (i < NPROC)%nat -> exists q, procs e !! i = Some q.
Proof. intros H Hi. apply lookup_lt_is_Some_2. by rewrite H. Qed.

Lemma alter_alter {A} (f g : A -> A) i (l : list A) :
  alter f i (alter g i l) = alter (fun x => f (g x)) i l.
Proof.
  apply list_eq. intros j. destruct (decide (i = j)) as [<-|Hne].
  - rewrite !list_lookup_alter_eq. by destruct (l !! i).
  - by rewrite !list_lookup_alter_ne.
Qed.

(** Altering by functions that agree on the element. *)
Lemma alter_ext {A} (f g : A -> A) i (l : list A) x :
  l !! i = Some x -> f x = g x -> alter f i l = alter g i l.
Proof.
  intros Hx E. apply list_eq. intros j. destruct (decide (i = j)) as [<-|Hne].
  - rewrite !list_lookup_alter_eq, Hx. simpl. by rewrite E.
  - by rewrite !list_lookup_alter_ne.
Qed.

(** One round of [wakeup]. *)
Lemma wakeup_round chan i e t q :
  Some i <> cproc e -> ProcLock i ∉ held e -> procs e !! i = Some q ->
  (acquire (ProcLock i) ;;
   q <- getp i ;;
   when (bool_decide (p_state q = SLEEPING) && bool_decide (p_chan q = chan))
     (updp i (set_state RUNNABLE)) ;;
   release (ProcLock i)) e t
  = Ret (T := T) tt (set_procs e (alter (woken chan) i (procs e))) t.
Proof.
  intros Hc Hl Hq. kstep.
  rewrite (bind_step _ _ _ _ _ _ _ (getp_run i q (locked (ProcLock i) e) t Hq)).
  assert (Ea : alter (woken chan) i (procs e)
             = if bool_decide (p_state q = SLEEPING) && bool_decide (p_chan q = chan)
               then alter (set_state RUNNABLE) i (procs e) else procs e).
  { apply list_eq. intros j. destruct (decide (i = j)) as [<-|Hne].
    - destruct (_ && _) eqn:E; rewrite ?list_lookup_alter_eq, ?list_lookup_alter, Hq; simpl;
        unfold woken; by rewrite E.
    - destruct (_ && _); by rewrite ?list_lookup_alter_ne. }
  rewrite Ea. destruct (_ && _); ksteps.
  - rewrite (bind_step _ _ _ _ _ _ _ (updp_run i _ (locked (ProcLock i) e) t)).
    rewrite procs_locked, <- locked_set_procs. apply release_locked. done.
  - by rewrite set_procs_procs.
Qed.

Definition wake_list (cur : option nat) (chan : channel) (l : list nat) (ps : list proc) : list proc :=
  foldl (fun ps i => if bool_decide (Some i = cur) then ps else alter (woken chan) i ps) ps l.

Lemma wake_list_length cur chan l ps : length (wake_list cur chan l ps) = length ps.
Proof.
  revert ps. induction l as [|i l IH]; intros ps; [done|]. simpl. rewrite IH.
  case_bool_decide; [done|apply length_alter].
Qed.

Lemma woken_idem chan q : woken chan (woken chan q) = woken chan q.
Proof.
  unfold woken.
  destruct (bool_decide (p_state q = SLEEPING) && bool_decide (p_chan q = chan)) eqn:E; [|by rewrite E].
  by rewrite (bool_decide_eq_false_2 (p_state (set_state RUNNABLE q) = SLEEPING)).
Qed.

Lemma wake_list_cons cur chan i l ps :
  wake_list cur chan (i :: l) ps =
    wake_list cur chan l (if bool_decide (Some i = cur) then ps else alter (woken chan) i ps).
Proof. done. Qed.

Lemma wake_list_lookup cur chan l ps i q :
  ps !! i = Some q ->
  wake_list cur chan l ps !! i =
    Some (if bool_decide (i ∈ l /\ Some i <> cur) then woken chan q else q).
Proof.
  revert ps q. induction l as [|j l IH]; intros ps q Hq.
  - rewrite bool_decide_eq_false_2 by (intros [?%not_elem_of_nil _]; done). done.
  - rewrite wake_list_cons. destruct (bool_decide_reflect (Some j = cur)) as [Hj|Hj].
    + rewrite (IH ps q Hq). erewrite bool_decide_ext; [done|]. rewrite elem_of_cons. naive_solver.
    + destruct (decide (j = i)) as [->|Hne].
      * rewrite (IH _ (woken chan q)) by (rewrite list_lookup_alter_eq, Hq; done).
        rewrite (bool_decide_eq_true_2 (i ∈ i :: l /\ _)) by (split; [by left|done]).
        case_bool_decide; [by rewrite woken_idem|done].
      * rewrite (IH _ q) by (rewrite list_lookup_alter_ne by done; done).
        erewrite bool_decide_ext; [done|]. rewrite elem_of_cons. naive_solver.
Qed.

Lemma wake_list_all cur chan ps : length ps = NPROC -> wake_list cur chan all_procs ps = wake_all cur chan ps.
Proof.
  intros Hn. apply list_eq. intros i. unfold wake_all. rewrite list_lookup_imap.
  destruct (ps !! i) as [q|] eqn:E.
  - rewrite (wake_list_lookup _ _ _ _ _ q E). simpl. apply lookup_lt_Some in E. f_equal.
    assert (i ∈ all_procs) by (apply elem_of_seq; lia). repeat case_bool_decide; naive_solver.
  - apply lookup_ge_None_2. rewrite wake_list_length. by apply lookup_ge_None_1.
Qed.

Lemma wakeup_loop chan l e t :
  procs_ok e -> procs_free e -> Forall (fun i => i < NPROC)%nat l ->
  for_each l (fun p =>
    me <- myproc ;;
    if bool_decide (Some p = me) then ret tt
    else
      acquire (ProcLock p) ;;
      q <- getp p ;;
      when (bool_decide (p_state q = SLEEPING) && bool_decide (p_chan q = chan))
        (updp p (set_state RUNNABLE)) ;;
      release (ProcLock p)) e t
  = Ret (T := T) tt (set_procs e (wake_list (cproc e) chan l (procs e))) t.
Proof.
  revert e. induction l as [|i l IH]; intros e Hok Hfr Hl; [simpl; by rewrite set_procs_procs|].
  apply Forall_cons in Hl as [Hi Hl]. cbn [for_each]. rewrite bind_assoc. unfold myproc at 1.
  unfold bind at 1. rewrite wake_list_cons. case_bool_decide as Hc.
  - kstep. by apply IH.
  - destruct (procs_lookup e i Hok Hi) as [q Hq].
    rewrite (bind_step _ _ _ _ _ _ _ (wakeup_round chan i e t q Hc (Hfr i Hc) Hq)).
    rewrite IH; [done| |done|done]. unfold procs_ok. simpl. by rewrite length_alter.
Qed.

Lemma all_procs_lt : Forall (fun i => i < NPROC)%nat all_procs.
Proof. apply Forall_forall. intros i Hi%elem_of_seq. lia. Qed.

Lemma wakeup_run chan e t :
  procs_ok e -> procs_free e ->
  wakeup chan e t = Ret (T := T) tt (set_procs e (wake_all (cproc e) chan (procs e))) t.
Proof.
  intros Hok Hfr. unfold wakeup. rewrite wakeup_loop by (done || apply all_procs_lt).
  by rewrite wake_list_all.
Qed.

(** Searching loops. *)
Lemma for_find_none {A R} (body : A -> K T (option R)) l e t :
  (forall x, x ∈ l -> body x e t = Ret None e t) -> for_find l body e t = Ret None e t.
Proof.
  induction l as [|x l IH]; intros H; [done|]. cbn [for_find].
  rewrite (bind_step _ _ _ _ _ _ _ (H x ltac:(by left))). apply IH. intros y Hy. apply H. by right.
Qed.

Lemma for_find_some {A R} (body : A -> K T (option R)) l1 x l2 v e t e' t' :
  (forall y, y ∈ l1 -> body y e t = Ret None e t) -> body x e t = Ret (Some v) e' t' ->
  for_find (l1 ++ x :: l2) body e t = Ret (Some v) e' t'.
Proof.
  intros H Hx. induction l1 as [|y l1 IH]; cbn [for_find app].
  - by rewrite (bind_step _ _ _ _ _ _ _ Hx).
  - rewrite (bind_step _ _ _ _ _ _ _ (H y ltac:(by left))). apply IH. intros z Hz. apply H. by right.
Qed.

Lemma all_procs_split i : (i < NPROC)%nat ->
  exists l1 l2, all_procs = l1 ++ i :: l2 /\ forall j, j ∈ l1 <-> (j < i)%nat.
Proof.
  intros Hi. exists (seq 0 i), (seq (S i) (NPROC - S i)). unfold all_procs. split.
  - replace NPROC with (i + S (NPROC - S i))%nat at 1 by lia. by rewrite seq_app.
  - intros j. rewrite elem_of_seq. lia.
Qed.

(** [e] while holding exactly the lock [l]. *)
Lemma release_only l l' e (t : T) :
  held e = {[l; l']} -> l <> l' -> release l e t = Ret tt (set_held e {[l']}) t.
Proof.
  intros Hh Hne. unfold release. rewrite bool_decide_eq_true_2 by (rewrite Hh; set_solver).
  do 2 f_equal. rewrite Hh. set_solver.
Qed.

Lemma curproc_run p e (t : T) : cproc e = Some p -> curproc e t = Ret p e t.
Proof. intros H. unfold curproc, myproc, bind. by rewrite H. Qed.

Lemma sched_run p q e (t : T) :
  cproc e = Some p -> held e = {[ProcLock p]} -> procs e !! p = Some q -> p_state q <> RUNNING ->
  sched e t = Block e t.
Proof.
  intros Hc Hh Hq Hs. unfold sched. rewrite (bind_step _ _ _ _ _ _ _ (curproc_run p e t Hc)).
  unfold holding. unfold bind at 1. rewrite bool_decide_eq_true_2 by (rewrite Hh; set_solver).
  cbn [negb]. unfold bind at 1. rewrite Hh, size_singleton. cbn [negb Nat.eqb].
  rewrite (bind_step _ _ _ _ _ _ _ (getp_run p q e t Hq)). by rewrite bool_decide_eq_false_2.
Qed.

(** A process going to sleep on [chan]. *)
Definition asleep (chan : channel) (q : proc) : proc := set_state SLEEPING (set_chan chan q).

Lemma sleep_run p q chan lk e (t : T) :
  cproc e = Some p -> held e = {[lk]} -> lk <> ProcLock p -> procs e !! p = Some q ->
  sleep chan lk e t =
    Block (set_procs (set_held e {[ProcLock p]}) (alter (asleep chan) p (procs e))) t.
Proof.
  intros Hc Hh Hne Hq. unfold sleep.
  rewrite (bind_step _ _ _ _ _ _ _ (curproc_run p e t Hc)).
  rewrite (bind_step _ _ _ _ _ _ _ (acquire_free (ProcLock p) e t ltac:(rewrite Hh; set_solver))).
  rewrite (bind_step _ _ _ _ _ _ _ (release_only lk (ProcLock p) (locked (ProcLock p) e) t
             ltac:(rewrite held_locked, Hh; set_solver) Hne)).
  rewrite (bind_step _ _ _ _ _ _ _ (updp_run p _ _ t)).
  rewrite (bind_step _ _ _ _ _ _ _ (updp_run p _ _ t)).
  set (e' := set_procs _ _).
  assert (Ee : e' = set_procs (set_held e {[ProcLock p]}) (alter (asleep chan) p (procs e))).
  { unfold e', locked, set_procs, set_held. simpl. by rewrite alter_alter. }
  unfold bind. rewrite Ee.
  rewrite (sched_run p (asleep chan q)); try done.
  simpl. rewrite list_lookup_alter_eq, Hq. done.
Qed.

Lemma sleep_resume_run p lk e (t : T) :
  cproc e = Some p -> held e = {[ProcLock p]} -> lk <> ProcLock p ->
  sleep_resume lk e t =
    Ret tt (set_procs (set_held e {[lk]}) (alter (set_chan ChanNull) p (procs e))) t.
Proof.
  intros Hc Hh Hne. unfold sleep_resume.
  rewrite (bind_step _ _ _ _ _ _ _ (curproc_run p e t Hc)).
  rewrite (bind_step _ _ _ _ _ _ _ (updp_run p _ _ t)).
  set (e1 := set_procs e _).
  assert (Hr : release (ProcLock p) e1 t = Ret tt (set_held e1 ∅) t).
  { unfold release. simpl. rewrite Hh. rewrite bool_decide_eq_true_2 by set_solver.
    do 2 f_equal. set_solver. }
  rewrite (bind_step _ _ _ _ _ _ _ Hr). unfold acquire. simpl.
  rewrite bool_decide_eq_false_2 by set_solver. do 2 f_equal. unfold e1. simpl.
  unfold set_procs, set_held. simpl. f_equal. set_solver.
Qed.

(** [scheduler_scan] when process [i] is the first runnable one. *)
Definition running_as (i : nat) (e : env) : env :=
  set_cproc (set_procs (locked (ProcLock i) e) (alter (set_state RUNNING) i (procs e))) (Some i).

Lemma scheduler_skip i q e (t : T) :
  ProcLock i ∉ held e -> procs e !! i = Some q -> p_state q <> RUNNABLE ->
  (acquire (ProcLock i) ;;
   q <- getp i ;;
   if bool_decide (p_state q = RUNNABLE) then
     updp i (set_state RUNNING) ;;
     modify_env (fun e => set_cproc e (Some i)) ;;
     ret (Some i)
   else release (ProcLock i) ;; ret None) e t = Ret None e t.
Proof.
  intros Hl Hq Hs. kstep.
  rewrite (bind_step _ _ _ _ _ _ _ (getp_run i q (locked (ProcLock i) e) t Hq)).
  rewrite bool_decide_eq_false_2 by done. by ksteps.
Qed.

Lemma scheduler_scan_run i q e (t : T) :
  procs_ok e -> (forall j, ProcLock j ∉ held e) -> procs e !! i = Some q -> p_state q = RUNNABLE ->
  (forall j q', (j < i)%nat -> procs e !! j = Some q' -> p_state q' <> RUNNABLE) ->
  scheduler_scan all_procs e t = Ret (Some i) (running_as i e) t.
Proof.
  intros Hok Hfr Hq Hs Hfirst. pose proof (lookup_lt_Some _ _ _ Hq) as Hi. rewrite Hok in Hi.
  destruct (all_procs_split i Hi) as (l1 & l2 & -> & Hl1). apply for_find_some.
  - intros j Hj%Hl1. destruct (procs_lookup e j Hok ltac:(lia)) as [q' Hq'].
    apply (scheduler_skip j q'); [done|done|]. by apply (Hfirst j).
  - kstep. rewrite (bind_step _ _ _ _ _ _ _ (getp_run i q (locked (ProcLock i) e) t Hq)).
    rewrite bool_decide_eq_true_2 by done. done.
Qed.

Lemma scheduler_scan_none e (t : T) :
  procs_ok e -> (forall j, ProcLock j ∉ held e) ->
  (forall j q, procs e !! j = Some q -> p_state q <> RUNNABLE) ->
  scheduler_scan all_procs e t = Ret None e t.
Proof.
  intros Hok Hfr Hno. apply for_find_none. intros j Hj%elem_of_seq.
  destruct (procs_lookup e j Hok ltac:(lia)) as [q' Hq']. apply (scheduler_skip j q'); eauto.
Qed.

(** [kill]: a process that is marked, and woken up if it sleeps. *)
Definition marked (q : proc) : proc :=
  let q' := set_killed_field 1 q in
  if bool_decide (p_state q = SLEEPING) then set_state RUNNABLE q' else q'.

Lemma kill_run i q pid e (t : T) :
  procs_ok e -> (forall j, ProcLock j ∉ held e) -> procs e !! i = Some q -> p_pid q = pid ->
  (forall j q', (j < i)%nat -> procs e !! j = Some q' -> p_pid q' <> pid) ->
  kill pid e t = Ret 0 (set_procs e (alter marked i (procs e))) t.
Proof.
  intros Hok Hfr Hq Hp Hfirst. pose proof (lookup_lt_Some _ _ _ Hq) as Hi. rewrite Hok in Hi.
  unfold kill. destruct (all_procs_split i Hi) as (l1 & l2 & -> & Hl1).
  erewrite bind_step; [|apply for_find_some].
  - done.
  - intros j Hj%Hl1. destruct (procs_lookup e j Hok ltac:(lia)) as [q' Hq']. kstep.
    rewrite (bind_step _ _ _ _ _ _ _ (getp_run j q' (locked (ProcLock j) e) t Hq')).
    rewrite (proj2 (Z.eqb_neq _ _)) by (by apply (Hfirst j)). by ksteps.
  - kstep. rewrite (bind_step _ _ _ _ _ _ _ (getp_run i q (locked (ProcLock i) e) t Hq)).
    rewrite (proj2 (Z.eqb_eq _ _)) by done.
    rewrite (bind_step _ _ _ _ _ _ _ (updp_run i _ (locked (ProcLock i) e) t)). rewrite procs_locked.
    assert (Em : alter marked i (procs e) =
              if bool_decide (p_state q = SLEEPING)
              then alter (set_state RUNNABLE) i (alter (set_killed_field 1) i (procs e))
              else alter (set_killed_field 1) i (procs e)).
    { case_bool_decide as Hs; [rewrite alter_alter|]; apply (alter_ext _ _ _ _ q Hq); unfold marked;
        [by rewrite bool_decide_eq_true_2|by rewrite bool_decide_eq_false_2]. }
    rewrite Em. case_bool_decide; ksteps.
    + rewrite (bind_step _ _ _ _ _ _ _ (updp_run i _ _ t)). rewrite <- locked_set_procs.
      simpl procs. rewrite <- locked_set_procs. by kstep.
    + rewrite <- locked_set_procs. by kstep.
Qed.

Lemma kill_none pid e (t : T) :
  procs_ok e -> (forall j, ProcLock j ∉ held e) ->
  (forall j q, procs e !! j = Some q -> p_pid q <> pid) -> kill pid e t = Ret (-1) e t.
Proof.
  intros Hok Hfr Hno. unfold kill. erewrite bind_step; [|apply for_find_none]; [done|].
  intros j Hj%elem_of_seq. destruct (procs_lookup e j Hok ltac:(lia)) as [q' Hq']. kstep.
  rewrite (bind_step _ _ _ _ _ _ _ (getp_run j q' (locked (ProcLock j) e) t Hq')).
  rewrite (proj2 (Z.eqb_neq _ _)) by (by apply (Hno j)). by ksteps.
Qed.

(** ** Properties *)

(** C16 (sleep and wakeup): a process that holds only [lk] and sleeps on [chan]
    gives up the CPU with [lk] released and its own lock held; once the
    scheduler has released that lock, a wakeup of [chan] by any other process
    makes it runnable and changes no other process that is not sleeping on
    [chan]; when it runs again [sleep] returns with [lk] held. *)
Theorem sleep_wakeup p q chan lk e (t : T) :
  procs_ok e -> cproc e = Some p -> held e = {[lk]} -> (forall i, lk <> ProcLock i) ->
  procs e !! p = Some q ->
  exists e1 e2, sleep chan lk e t = Block e1 t /\ scheduler_back p e1 t = Ret tt e2 t /\
    held e2 = ∅ /\
    forall r, r <> p -> exists e3, wakeup chan (set_cproc e2 (Some r)) t = Ret tt e3 t /\
      procs e3 !! p = Some (set_state RUNNABLE (set_chan chan q)) /\
      (forall j q', j <> p -> procs e !! j = Some q' ->
         ~ (p_state q' = SLEEPING /\ p_chan q' = chan) -> procs e3 !! j = Some q') /\
      exists e4, sleep_resume lk (running_as p (set_cproc e3 None)) t = Ret tt e4 t /\
        held e4 = {[lk]} /\ procs e4 !! p = Some (set_state RUNNING (set_chan ChanNull q)).
Proof.
  intros Hok Hc Hh Hlk Hq. pose proof (lookup_lt_Some _ _ _ Hq) as Hp.
  eexists _, _. split; [by eapply sleep_run|].
  assert (Hback : forall e', held e' = {[ProcLock p]} ->
            scheduler_back p e' t = Ret tt (set_held (set_cproc e' None) ∅) t).
  { intros e' Hh'. unfold scheduler_back, modify_env, bind, release. simpl. rewrite Hh'.
    rewrite bool_decide_eq_true_2 by set_solver. do 2 f_equal. set_solver. }
  split; [by apply Hback|]. split; [done|]. intros r Hr. eexists. split.
  { apply wakeup_run; [|intros i _; simpl; set_solver]. unfold procs_ok. simpl. by rewrite length_alter. }
  split; [|split].
  - simpl. unfold wake_all. rewrite list_lookup_imap, list_lookup_alter_eq, Hq. simpl.
    rewrite bool_decide_eq_false_2 by congruence. unfold woken, asleep. simpl.
    by rewrite !bool_decide_eq_true_2.
  - intros j q' Hj Hq' Hn. simpl. unfold wake_all.
    rewrite list_lookup_imap, list_lookup_alter_ne, Hq' by done. simpl. case_bool_decide; [done|].
    unfold woken. repeat case_bool_decide; try done. naive_solver.
  - eexists. split; [apply (sleep_resume_run p)|]; [done| |done|].
    { simpl. set_solver. }
    split; [done|]. simpl. rewrite alter_alter, list_lookup_alter_eq. unfold wake_all.
    rewrite list_lookup_imap, list_lookup_alter_eq, Hq. simpl.
    rewrite bool_decide_eq_false_2 by congruence. unfold woken, asleep. simpl.
    by rewrite !bool_decide_eq_true_2.
Qed.


(** kill: the first process with the given pid is marked killed, and woken
    up if it sleeps on any channel; [-1] and no change if there is none. *)
Theorem kill_correct pid e (t : T) :
  procs_ok e -> (forall j, ProcLock j ∉ held e) ->
  match list_find (fun q => p_pid q = pid) (procs e) with
  | Some (i, q) => exists e', kill pid e t = Ret 0 e' t /\ held e' = held e /\
      procs e' = <[i := set_state (if bool_decide (p_state q = SLEEPING) then RUNNABLE else p_state q)
                                  (set_killed_field 1 q)]> (procs e)
  | None => kill pid e t = Ret (-1) e t
  end.
Proof.
  intros Hok Hfr. destruct (list_find _ (procs e)) as [[i q]|] eqn:E.
  - apply list_find_Some in E as (Hq & Hs & Hfirst). eexists.
    split; [apply (kill_run i q); try done|].
    { intros j q' Hj Hq'. by apply (Hfirst j q'). }
    split; [done|]. simpl. apply list_eq. intros j. destruct (decide (i = j)) as [<-|Hne].
    + rewrite list_lookup_alter_eq, Hq, list_lookup_insert_eq by (by apply lookup_lt_Some in Hq).
      simpl. unfold marked. case_bool_decide; [done|]. by destruct q.
    + by rewrite list_lookup_alter_ne, list_lookup_insert_ne.
  - apply list_find_None in E. rewrite Forall_lookup in E. apply kill_none; try done.
Qed.

End Sched.

(** ** Witnesses *)

(** A table with two processes, 0 running and 1 runnable. *)
Definition demo_proc (st : procstate) (pid : Z) : proc := Proc st ChanNull 0 0 pid None.
Definition demo_procs : list proc :=
  [demo_proc RUNNING 1; demo_proc RUNNABLE 2] ++ replicate 62 (demo_proc UNUSED 0).

Lemma sleep_wakeup_witness :
  exists e1 e2, sleep ChanTicks TicksLock (Env {[TicksLock]} demo_procs (Some 0%nat) 3 None) tt = Block e1 tt /\
    scheduler_back 0 e1 tt = Ret tt e2 tt /\
    exists e3, wakeup ChanTicks (set_cproc e2 (Some 1%nat)) tt = Ret tt e3 tt /\
      procs e3 !! 0%nat = Some (set_state RUNNABLE (set_chan ChanTicks (demo_proc RUNNING 1))).
Proof.
  destruct (sleep_wakeup 0 (demo_proc RUNNING 1) ChanTicks TicksLock
              (Env {[TicksLock]} demo_procs (Some 0%nat) 3 None) tt)
    as (e1 & e2 & E1 & E2 & _ & H);
    [reflexivity|reflexivity|reflexivity|discriminate|reflexivity|].
  destruct (H 1%nat ltac:(discriminate)) as (e3 & E3 & Hp & _).
  exists e1, e2. split; [exact E1|]. split; [exact E2|]. exists e3. split; [exact E3|exact Hp].
Defined.


Lemma kill_correct_witness :
  exists e', kill 2 (Env ∅ demo_procs (Some 0%nat) 3 None) tt = Ret 0 e' tt /\
    procs e' = <[1%nat := set_killed_field 1 (demo_proc RUNNABLE 2)]> demo_procs.
Proof.
  pose proof (kill_correct 2 (Env ∅ demo_procs (Some 0%nat) 3 None) tt eq_refl
                (fun j => not_elem_of_empty _)) as H.
  destruct H as (e' & E & _ & Hp). exists e'. split; [exact E|exact Hp].
Defined.
