(* ===== verification/Sem.v ===== *)
(** * kernel/sem.c: counting semaphores

    The semaphore table and its three operations, and a transition system in
    which processes run them concurrently.  A process whose [sem_down] has to
    wait gives up the CPU inside [sleep]; when it is scheduled again it continues
    with [sem_down_resume]: the end of [sleep], and then the test of the loop. *)

From stdpp Require Import base gmap sets list strings.
From Stdlib Require Import ZArith Lia.
From S2P Require Import Prelude Kernel Sched.

(** ** Definitions *)

Record semaphore : Type := Semaphore { sem_count : Z; sem_initialized : Z }.

Definition MAX_SEM : nat := 100.
Abbreviation semaphores := (list semaphore).

Definition get_sem (i : nat) : K semaphores semaphore :=
  fun e t =>
    match t !! i with
    | Some s => Ret s e t
    | None => Undef "semaphore index"
    end.
Definition put_sem (i : nat) (s : semaphore) : K semaphores unit := modify (fun t => <[i := s]> t).

(** [sem_id<0 || sem_id>=MAX_SEM] *)
Definition bad_sem (sem_id : Z) : bool := (sem_id <? 0) || (Z.of_nat MAX_SEM <=? sem_id).

Definition sem_init (sem_id val : Z) : K semaphores Z :=
  if bad_sem sem_id || (val <? 0) then ret (-1)
  else
    let i := Z.to_nat sem_id in
    acquire (SemLock i) ;;
    s <- get_sem i ;;
    if truth (sem_initialized s) then release (SemLock i) ;; ret (-1)
    else
      put_sem i (Semaphore val 1) ;;
      release (SemLock i) ;;
      ret 0.

(** [while(sem->count<=0) sleep(sem, &sem->lock);] and what follows it *)
Definition sem_down_loop (i : nat) : K semaphores Z :=
  s <- get_sem i ;;
  if sem_count s <=? 0 then sleep (ChanSem i) (SemLock i) ;; ret 0
  else
    put_sem i (Semaphore (i32 (sem_count s - 1)) (sem_initialized s)) ;;
    release (SemLock i) ;;
    ret 0.

Definition sem_down (sem_id : Z) : K semaphores Z :=
  if bad_sem sem_id then ret (-1)
  else
    let i := Z.to_nat sem_id in
    acquire (SemLock i) ;;
    s <- get_sem i ;;
    if negb (truth (sem_initialized s)) then release (SemLock i) ;; ret (-1)
    else sem_down_loop i.

(** A process that slept in [sem_down] runs again. *)
Definition sem_down_resume (i : nat) : K semaphores Z :=
  sleep_resume (SemLock i) ;; sem_down_loop i.

Definition sem_up (sem_id : Z) : K semaphores Z :=
  if bad_sem sem_id then ret (-1)
  else
    let i := Z.to_nat sem_id in
    acquire (SemLock i) ;;
    s <- get_sem i ;;
    if negb (truth (sem_initialized s)) then release (SemLock i) ;; ret (-1)
    else
      put_sem i (Semaphore (i32 (sem_count s + 1)) (sem_initialized s)) ;;
      wakeup (ChanSem i) ;;
      release (SemLock i) ;;
      ret 0.

(** ** The system of processes

    [sys_wait] records the processes that are inside the loop of [sem_down].  A
    step is one critical section: a call of an operation by a running process,
    the continuation of a waiting one, a [kill], or a scheduling step of a
    process that is not waiting for a semaphore. *)

Record sys : Type := Sys {
  sys_procs : list proc;
  sys_sems : semaphores;
  sys_wait : gmap nat nat
}.

Inductive event : Type :=
  | EvInit (i : nat) (v : Z)   (* a [sem_init] that returned 0 *)
  | EvDown (i : nat)           (* a [sem_down] that returned 0 *)
  | EvUp (i : nat)             (* a [sem_up] that returned 0 *)
  | EvNone.

(** The context of process [p] entering the kernel. *)
Definition ctx (p : nat) (ps : list proc) : env := Env ∅ ps (Some p) 1 None.

(** The process [p] runs and is not waiting for a semaphore. *)
Definition running (p : nat) (σ : sys) : Prop :=
  sys_wait σ !! p = None /\ exists q, sys_procs σ !! p = Some q /\ p_state q = RUNNING.

Definition ok_event (r : Z) (ev : event) : event := if r =? 0 then ev else EvNone.

Inductive step : sys -> event -> sys -> Prop :=
  | step_init p id v r e' t' σ :
      running p σ -> - 2 ^ 31 <= v < 2 ^ 31 ->
      sem_init id v (ctx p (sys_procs σ)) (sys_sems σ) = Ret r e' t' ->
      step σ (ok_event r (EvInit (Z.to_nat id) v)) (Sys (procs e') t' (sys_wait σ))
  | step_up p id r e' t' σ :
      running p σ ->
      sem_up id (ctx p (sys_procs σ)) (sys_sems σ) = Ret r e' t' ->
      step σ (ok_event r (EvUp (Z.to_nat id))) (Sys (procs e') t' (sys_wait σ))
  | step_down p id r e' t' σ :
      running p σ ->
      sem_down id (ctx p (sys_procs σ)) (sys_sems σ) = Ret r e' t' ->
      step σ (ok_event r (EvDown (Z.to_nat id))) (Sys (procs e') t' (sys_wait σ))
  | step_down_wait p id e' t' σ :
      running p σ ->
      sem_down id (ctx p (sys_procs σ)) (sys_sems σ) = Block e' t' ->
      step σ EvNone (Sys (procs e') t' (<[p := Z.to_nat id]> (sys_wait σ)))
  | step_resume p i q r e' t' σ :
      sys_wait σ !! p = Some i -> sys_procs σ !! p = Some q -> p_state q = RUNNABLE ->
      sem_down_resume i (running_as p (Env ∅ (sys_procs σ) None 1 None)) (sys_sems σ) = Ret r e' t' ->
      step σ (ok_event r (EvDown i)) (Sys (procs e') t' (delete p (sys_wait σ)))
  | step_resume_wait p i q e' t' σ :
      sys_wait σ !! p = Some i -> sys_procs σ !! p = Some q -> p_state q = RUNNABLE ->
      sem_down_resume i (running_as p (Env ∅ (sys_procs σ) None 1 None)) (sys_sems σ) = Block e' t' ->
      step σ EvNone (Sys (procs e') t' (sys_wait σ))
  | step_kill p pid r e' t' σ :
      running p σ ->
      kill pid (ctx p (sys_procs σ)) (sys_sems σ) = Ret r e' t' ->
      step σ EvNone (Sys (procs e') t' (sys_wait σ))
  | step_other p q q' σ :
      sys_wait σ !! p = None -> sys_procs σ !! p = Some q ->
      (forall i, ~ (p_state q' = SLEEPING /\ p_chan q' = ChanSem i)) ->
      step σ EvNone (Sys (<[p := q']> (sys_procs σ)) (sys_sems σ) (sys_wait σ)).

(** Runs, with the events that happened (the latest first). *)
Inductive reachable (σ0 : sys) : list event -> sys -> Prop :=
  | reach_refl : reachable σ0 [] σ0
  | reach_step evs σ ev σ' :
      reachable σ0 evs σ -> step σ ev σ' -> reachable σ0 (ev :: evs) σ'.

(** The kernel at boot: no semaphore is initialised, nobody waits. *)
Definition boot (σ : sys) : Prop :=
  length (sys_procs σ) = NPROC /\ sys_sems σ = replicate MAX_SEM (Semaphore 0 0) /\ sys_wait σ = ∅ /\
  forall p q i, sys_procs σ !! p = Some q -> ~ (p_state q = SLEEPING /\ p_chan q = ChanSem i).

(** ** Lemmas: the operations *)

Lemma get_sem_run i s e (t : semaphores) : t !! i = Some s -> get_sem i e t = Ret s e t.
Proof. intros H. unfold get_sem. by rewrite H. Qed.

Lemma bad_sem_false id : bad_sem id = false <-> (Z.to_nat id < MAX_SEM)%nat /\ 0 <= id.
Proof.
  unfold bad_sem. change (Z.of_nat MAX_SEM) with 100. change MAX_SEM with 100%nat.
  destruct (Z.ltb_spec id 0), (Z.leb_spec 100 id); simpl; (split; [|done || lia]); intros; done || lia.
Qed.

Lemma locked_only l e : held e = ∅ -> held (locked l e) = {[l]}.
Proof. intros H. rewrite held_locked, H. set_solver. Qed.

(** The loop of [sem_down], entered with only the semaphore's lock held. *)
Lemma sem_down_loop_run p q i s e t :
  cproc e = Some p -> procs e !! p = Some q -> held e = ∅ -> t !! i = Some s ->
  sem_down_loop i (locked (SemLock i) e) t =
    if sem_count s <=? 0
    then Block (set_procs (set_held e {[ProcLock p]}) (alter (asleep (ChanSem i)) p (procs e))) t
    else Ret 0 e (<[i := Semaphore (i32 (sem_count s - 1)) (sem_initialized s)]> t).
Proof.
  intros Hc Hq Hh Hs. unfold sem_down_loop.
  rewrite (bind_step _ _ _ _ _ _ _ (get_sem_run i s _ t Hs)).
  destruct (sem_count s <=? 0).
  - unfold bind. rewrite (sleep_run p q); [done|done|by apply locked_only|done|done].
  - unfold put_sem. kstep. by rewrite (bind_step _ _ _ _ _ _ _
      (release_locked (SemLock i) e _ ltac:(rewrite Hh; apply not_elem_of_empty))).
Qed.

Lemma sem_down_run p q id e t :
  cproc e = Some p -> procs e !! p = Some q -> held e = ∅ -> length t = MAX_SEM ->
  sem_down id e t =
    if bad_sem id then Ret (-1) e t
    else match t !! Z.to_nat id with
         | Some s =>
             if truth (sem_initialized s) then sem_down_loop (Z.to_nat id) (locked (SemLock (Z.to_nat id)) e) t
             else Ret (-1) e t
         | None => Undef "semaphore index"
         end.
Proof.
  intros Hc Hq Hh Hlen. unfold sem_down. destruct (bad_sem id) eqn:Eb; [done|].
  apply bad_sem_false in Eb as [Hi _].
  assert (Hf : SemLock (Z.to_nat id) ∉ held e) by (rewrite Hh; apply not_elem_of_empty). kstep.
  destruct (lookup_lt_is_Some_2 t (Z.to_nat id) ltac:(lia)) as [s Hs]. rewrite Hs.
  rewrite (bind_step _ _ _ _ _ _ _ (get_sem_run _ s _ t Hs)).
  destruct (truth (sem_initialized s)); cbn [negb]; [done|]. by kstep.
Qed.

Lemma sem_up_run p id e t :
  cproc e = Some p -> procs_ok e -> held e = ∅ -> length t = MAX_SEM ->
  sem_up id e t =
    if bad_sem id then Ret (-1) e t
    else match t !! Z.to_nat id with
         | Some s =>
             if truth (sem_initialized s)
             then Ret 0 (set_procs e (wake_all (Some p) (ChanSem (Z.to_nat id)) (procs e)))
                      (<[Z.to_nat id := Semaphore (i32 (sem_count s + 1)) (sem_initialized s)]> t)
             else Ret (-1) e t
         | None => Undef "semaphore index"
         end.
Proof.
  intros Hc Hok Hh Hlen. unfold sem_up. destruct (bad_sem id) eqn:Eb; [done|].
  apply bad_sem_false in Eb as [Hi _]. set (i := Z.to_nat id) in *.
  assert (Hf : SemLock i ∉ held e) by (rewrite Hh; apply not_elem_of_empty). kstep.
  destruct (lookup_lt_is_Some_2 t i ltac:(lia)) as [s Hs]. rewrite Hs.
  rewrite (bind_step _ _ _ _ _ _ _ (get_sem_run _ s _ t Hs)).
  destruct (truth (sem_initialized s)); cbn [negb]; [|by kstep].
  unfold put_sem. kstep.
  rewrite (bind_step _ _ _ _ _ _ _ (wakeup_run (ChanSem i) (locked (SemLock i) e) _ Hok
             ltac:(intros j _; rewrite held_locked, Hh; set_solver))).
  rewrite procs_locked, cproc_locked, Hc, <- locked_set_procs. by kstep.
Qed.

Lemma sem_init_run id v e t :
  held e = ∅ -> length t = MAX_SEM ->
  sem_init id v e t =
    if bad_sem id || (v <? 0) then Ret (-1) e t
    else match t !! Z.to_nat id with
         | Some s => if truth (sem_initialized s) then Ret (-1) e t
                     else Ret 0 e (<[Z.to_nat id := Semaphore v 1]> t)
         | None => Undef "semaphore index"
         end.
Proof.
  intros Hh Hlen. unfold sem_init. destruct (bad_sem id) eqn:Eb; [done|]. cbn [orb].
  destruct (v <? 0); [done|]. apply bad_sem_false in Eb as [Hi _]. set (i := Z.to_nat id) in *.
  assert (Hf : SemLock i ∉ held e) by (rewrite Hh; apply not_elem_of_empty). kstep.
  destruct (lookup_lt_is_Some_2 t i ltac:(lia)) as [s Hs]. rewrite Hs.
  rewrite (bind_step _ _ _ _ _ _ _ (get_sem_run _ s _ t Hs)).
  destruct (truth (sem_initialized s)); [by kstep|]. unfold put_sem. by ksteps.
Qed.

(** The context of a waiting process when it has been scheduled and [sleep] has
    returned: only the semaphore's lock is held. *)
Lemma sem_down_resume_run p q i s ps t :
  ps !! p = Some q -> t !! i = Some s ->
  let ps' := alter (fun q => set_chan ChanNull (set_state RUNNING q)) p ps in
  sem_down_resume i (running_as p (Env ∅ ps None 1 None)) t =
    if sem_count s <=? 0
    then Block (Env {[ProcLock p]} (alter (asleep (ChanSem i)) p ps') (Some p) 1 None) t
    else Ret 0 (Env ∅ ps' (Some p) 1 None) (<[i := Semaphore (i32 (sem_count s - 1)) (sem_initialized s)]> t).
Proof.
  intros Hq Hs ps'. unfold sem_down_resume.
  assert (Hr : sleep_resume (SemLock i) (running_as p (Env ∅ ps None 1 None)) t
             = Ret tt (locked (SemLock i) (Env ∅ ps' (Some p) 1 None)) t).
  { rewrite (sleep_resume_run p); [|done| |done].
    - do 2 f_equal. unfold ps', locked, set_procs, set_held. simpl. rewrite alter_alter. f_equal. set_solver.
    - simpl. set_solver. }
  rewrite (bind_step _ _ _ _ _ _ _ Hr).
  rewrite (sem_down_loop_run p (set_chan ChanNull (set_state RUNNING q)) i s); try done.
  simpl. unfold ps'. by rewrite list_lookup_alter_eq, Hq.
Qed.

(** ** The invariant *)

(** The value of semaphore [i] according to the completed operations: the value
    it was initialised with, plus the ups, minus the downs. *)
Fixpoint level (evs : list event) (i : nat) : option Z :=
  match evs with
  | [] => None
  | ev :: evs' =>
      match ev with
      | EvInit j v => if (j =? i)%nat then Some v else level evs' i
      | EvUp j => if (j =? i)%nat then (fun n => n + 1) <$> level evs' i else level evs' i
      | EvDown j => if (j =? i)%nat then (fun n => n - 1) <$> level evs' i else level evs' i
      | EvNone => level evs' i
      end
  end.

(** The value never exceeded the range of an int. *)
Definition in_int (evs : list event) (i : nat) : Prop :=
  forall evs' n, evs' `suffix_of` evs -> level evs' i = Some n -> n < 2 ^ 31.

(** The table agrees with the completed operations. *)
Definition levels (evs : list event) (t : semaphores) : Prop :=
  forall i s, t !! i = Some s ->
    if truth (sem_initialized s)
    then exists n, level evs i = Some n /\ sem_count s = i32 n /\ (in_int evs i -> 0 <= n)
    else level evs i = None.

Record inv (evs : list event) (σ : sys) : Prop := {
  iv_procs : length (sys_procs σ) = NPROC;
  iv_sems : length (sys_sems σ) = MAX_SEM;
  iv_sleep : forall p q i, sys_procs σ !! p = Some q -> p_state q = SLEEPING -> p_chan q = ChanSem i ->
    sys_wait σ !! p = Some i /\ exists s, sys_sems σ !! i = Some s /\ sem_count s <= 0;
  iv_wait : forall p i, sys_wait σ !! p = Some i ->
    exists q s, sys_procs σ !! p = Some q /\ (p_state q = SLEEPING \/ p_state q = RUNNABLE) /\
      p_chan q = ChanSem i /\ sys_sems σ !! i = Some s /\ truth (sem_initialized s) = true;
  iv_level : levels evs (sys_sems σ)
}.

Lemma boot_inv σ : boot σ -> inv [] σ.
Proof.
  intros (H1 & H2 & H3 & H4). split.
  - done.
  - rewrite H2. apply length_replicate.
  - intros p q i Hq Hs Hc. by destruct (H4 p q i Hq).
  - intros p i. rewrite H3. done.
  - intros i s Hs. rewrite H2 in Hs. apply lookup_replicate in Hs as [-> _]. done.
Qed.

Lemma level_none evs i : level (EvNone :: evs) i = level evs i.
Proof. done. Qed.

Lemma in_int_tail ev evs i : in_int (ev :: evs) i -> in_int evs i.
Proof. intros H evs' n Hs. apply H. by apply suffix_cons_r. Qed.

Lemma i32_add n k : i32 (i32 n + k) = i32 (n + k).
Proof.
  unfold sint_wrap. f_equal.
  replace ((n + 2 ^ (32 - 1)) mod 2 ^ 32 - 2 ^ (32 - 1) + k + 2 ^ (32 - 1))
    with ((n + 2 ^ (32 - 1)) mod 2 ^ 32 + k) by lia.
  rewrite Zplus_mod_idemp_l. f_equal. lia.
Qed.

(** Steps that do not touch the semaphores. *)
Lemma levels_none evs t : levels evs t -> levels (EvNone :: evs) t.
Proof.
  intros H i s Hs. specialize (H i s Hs). destruct (truth (sem_initialized s)); [|done].
  destruct H as (n & Hn & Hc & Hp). exists n. split; [done|]. split; [done|].
  intros Hi. apply Hp. by apply in_int_tail in Hi.
Qed.

(** Steps that change the value of semaphore [k] to [c'] with event [ev]. *)
Lemma levels_set evs t ev k s0 c' fl :
  t !! k = Some s0 -> truth fl = true ->
  (forall i, i <> k -> level (ev :: evs) i = level evs i) ->
  (exists n, level (ev :: evs) k = Some n /\ c' = i32 n /\ (in_int (ev :: evs) k -> 0 <= n)) ->
  levels evs t -> levels (ev :: evs) (<[k := Semaphore c' fl]> t).
Proof.
  intros Hk Hfl Hother Hset H i s Hs. destruct (decide (i = k)) as [->|Hne].
  - rewrite list_lookup_insert_eq in Hs by (by apply lookup_lt_Some in Hk). injection Hs as <-.
    simpl. rewrite Hfl. done.
  - rewrite list_lookup_insert_ne in Hs by done. specialize (H i s Hs). rewrite Hother by done.
    destruct (truth (sem_initialized s)); [|done].
    destruct H as (n & Hn & Hc & Hp). exists n. split; [done|]. split; [done|].
    intros Hi. apply Hp. by apply in_int_tail in Hi.
Qed.

Lemma level_other ev evs i k :
  i <> k -> (ev = EvUp k \/ ev = EvDown k \/ exists v, ev = EvInit k v) ->
  level (ev :: evs) i = level evs i.
Proof.
  intros Hne H. assert ((k =? i)%nat = false) as E by (apply Nat.eqb_neq; done).
  destruct H as [-> | [-> | [v ->]]]; simpl; by rewrite E.
Qed.

(** An up, a down that found the semaphore positive, an initialisation. *)
Lemma levels_up evs t k s :
  t !! k = Some s -> truth (sem_initialized s) = true -> levels evs t ->
  levels (EvUp k :: evs) (<[k := Semaphore (i32 (sem_count s + 1)) (sem_initialized s)]> t).
Proof.
  intros Hs Hi H. apply (levels_set _ _ _ _ s); try done; [intros i Hne; apply (level_other _ _ _ k); auto|].
  specialize (H k s Hs). rewrite Hi in H. destruct H as (n & Hn & Hc & Hp).
  exists (n + 1). simpl. rewrite Nat.eqb_refl, Hn. split; [done|]. split; [by rewrite Hc, i32_add|].
  intros Hb. specialize (Hp (in_int_tail _ _ _ Hb)). lia.
Qed.

Lemma levels_down evs t k s :
  t !! k = Some s -> truth (sem_initialized s) = true -> 0 < sem_count s -> levels evs t ->
  levels (EvDown k :: evs) (<[k := Semaphore (i32 (sem_count s - 1)) (sem_initialized s)]> t).
Proof.
  intros Hs Hi Hpos H. apply (levels_set _ _ _ _ s); try done; [intros i Hne; apply (level_other _ _ _ k); auto|].
  specialize (H k s Hs). rewrite Hi in H. destruct H as (n & Hn & Hc & Hp).
  exists (n - 1). simpl. rewrite Nat.eqb_refl, Hn. split; [done|]. split; [by rewrite Hc, <- Z.add_opp_r, i32_add|].
  intros Hb. specialize (Hp (in_int_tail _ _ _ Hb)).
  assert (n < 2 ^ 31) by (apply (in_int_tail _ _ _ Hb evs); [done|done]).
  rewrite Hc, sint_wrap_small in Hpos by (simpl; lia). lia.
Qed.

Lemma levels_init evs t k s v :
  t !! k = Some s -> truth (sem_initialized s) = false -> 0 <= v < 2 ^ 31 -> levels evs t ->
  levels (EvInit k v :: evs) (<[k := Semaphore v 1]> t).
Proof.
  intros Hs Hi Hv H. apply (levels_set _ _ _ _ s); try done; [intros i Hne; apply (level_other _ _ _ k); eauto|].
  exists v. simpl. rewrite Nat.eqb_refl. split; [done|]. split; [|lia]. by rewrite sint_wrap_small by (simpl; lia).
Qed.

(** The semaphores keep their flags and only [k]'s count changes. *)
Lemma insert_sem_lookup (t : semaphores) k c s0 i s :
  t !! k = Some s0 -> <[k := Semaphore c (sem_initialized s0)]> t !! i = Some s ->
  exists s1, t !! i = Some s1 /\ sem_initialized s = sem_initialized s1 /\
    (sem_count s = sem_count s1 \/ (i = k /\ sem_count s = c)).
Proof.
  intros Hk Hs. destruct (decide (i = k)) as [->|Hne].
  - rewrite list_lookup_insert_eq in Hs by (by apply lookup_lt_Some in Hk). injection Hs as <-.
    exists s0. auto.
  - rewrite list_lookup_insert_ne in Hs by done. eauto.
Qed.

Lemma lookup_insert_sem (t : semaphores) k c s0 i s1 :
  t !! k = Some s0 -> t !! i = Some s1 ->
  exists s, <[k := Semaphore c (sem_initialized s0)]> t !! i = Some s /\
    sem_initialized s = sem_initialized s1.
Proof.
  intros Hk Hs. destruct (decide (i = k)) as [->|Hne].
  - rewrite list_lookup_insert_eq by (by apply lookup_lt_Some in Hk). eexists. split; [done|]. simpl. congruence.
  - rewrite list_lookup_insert_ne by done. eauto.
Qed.

Lemma inv_none evs σ : inv evs σ -> inv (EvNone :: evs) σ.
Proof. intros [H1 H2 H3 H4 H5]. split; try done. by apply levels_none. Qed.

Lemma sys_eta σ : Sys (sys_procs σ) (sys_sems σ) (sys_wait σ) = σ.
Proof. by destruct σ. Qed.

(** A completed [sem_down]. *)
Lemma inv_down evs ps t w k s ps' w' :
  inv evs (Sys ps t w) -> t !! k = Some s -> truth (sem_initialized s) = true -> 0 < sem_count s ->
  length ps' = NPROC ->
  (forall p q i, ps' !! p = Some q -> p_state q = SLEEPING -> p_chan q = ChanSem i ->
     ps !! p = Some q /\ w' !! p = w !! p) ->
  (forall p i, w' !! p = Some i -> w !! p = Some i /\ ps' !! p = ps !! p) ->
  inv (EvDown k :: evs) (Sys ps' (<[k := Semaphore (i32 (sem_count s - 1)) (sem_initialized s)]> t) w').
Proof.
  intros I Hs Hi Hpos Hlen Hsl Hw. split; simpl.
  - done.
  - rewrite length_insert. apply I.
  - intros p q i Hq Hst Hch. destruct (Hsl p q i Hq Hst Hch) as [Hq0 ->].
    destruct (iv_sleep _ _ I p q i Hq0 Hst Hch) as (Hwp & s1 & Hs1 & Hc1). split; [done|].
    destruct (decide (i = k)) as [->|Hne].
    + simpl in Hs1. rewrite Hs in Hs1. injection Hs1 as <-. lia.
    + exists s1. by rewrite list_lookup_insert_ne.
  - intros p i Hp. destruct (Hw p i Hp) as [Hp0 E].
    destruct (iv_wait _ _ I p i Hp0) as (q & s1 & Hq & Hst & Hch & Hs1 & Hi1). simpl in *.
    destruct (lookup_insert_sem t k (i32 (sem_count s - 1)) s i s1 Hs Hs1) as (s2 & Hs2 & E2).
    exists q, s2. rewrite E, E2. auto.
  - apply levels_down; try done. apply I.
Qed.

(** A process that goes to sleep in [sem_down]. *)
Lemma inv_block evs ps t w p i s ps' :
  inv evs (Sys ps t w) -> t !! i = Some s -> truth (sem_initialized s) = true -> sem_count s <= 0 ->
  length ps' = NPROC -> (exists q, ps' !! p = Some q /\ p_state q = SLEEPING /\ p_chan q = ChanSem i) ->
  (forall j, j <> p -> ps' !! j = ps !! j) ->
  inv (EvNone :: evs) (Sys ps' t (<[p := i]> w)).
Proof.
  intros I Hs Hi Hc Hlen (qp & Hqp & Hst & Hch) Hother. split; simpl; try done.
  - apply I.
  - intros j q k Hq Hsq Hcq. destruct (decide (j = p)) as [->|Hne].
    + rewrite lookup_insert_eq. assert (k = i) as -> by congruence. split; [done|]. by exists s.
    + rewrite lookup_insert_ne by done. rewrite Hother in Hq by done. by apply (iv_sleep _ _ I j q k).
  - intros j k Hj. destruct (decide (j = p)) as [->|Hne].
    + rewrite lookup_insert_eq in Hj. injection Hj as <-. exists qp, s. auto.
    + rewrite lookup_insert_ne in Hj by done. rewrite Hother by done. by apply (iv_wait _ _ I j k).
  - apply levels_none, I.
Qed.

Lemma kill_cases pid e (t : semaphores) :
  procs_ok e -> held e = ∅ ->
  exists r ps', kill pid e t = Ret r (set_procs e ps') t /\
    (ps' = procs e \/ exists i, ps' = alter marked i (procs e)).
Proof.
  intros Hok Hh. assert (Hf : forall j, ProcLock j ∉ held e) by (intros; rewrite Hh; apply not_elem_of_empty).
  destruct (list_find (fun q => p_pid q = pid) (procs e)) as [[i q]|] eqn:E.
  - apply list_find_Some in E as (Hq & Hp & Hfirst). eexists _, _. split; [|right; by exists i].
    apply (kill_run i q); try done. intros j q' Hj Hq'. by apply (Hfirst j q').
  - apply list_find_None in E. rewrite Forall_lookup in E. exists (-1), (procs e).
    split; [|by left]. rewrite set_procs_procs. apply kill_none; try done.
Qed.

Lemma marked_sleeping q : p_state (marked q) <> SLEEPING.
Proof. unfold marked. case_bool_decide; simpl; congruence. Qed.

Lemma inv_kill evs σ i : inv evs σ ->
  inv (EvNone :: evs) (Sys (alter marked i (sys_procs σ)) (sys_sems σ) (sys_wait σ)).
Proof.
  intros I. split; simpl; [rewrite length_alter; apply I|apply I| | |apply levels_none, I].
  - intros p q k Hq Hs Hc. destruct (decide (i = p)) as [<-|Hne].
    + rewrite list_lookup_alter_eq in Hq. destruct (sys_procs σ !! i); [|done]. injection Hq as <-.
      by destruct (marked_sleeping p).
    + rewrite list_lookup_alter_ne in Hq by done. by apply (iv_sleep _ _ I p q k).
  - intros p k Hp. destruct (iv_wait _ _ I p k Hp) as (q & s & Hq & Hst & Hch & Hs & Hi).
    destruct (decide (i = p)) as [<-|Hne].
    + exists (marked q), s. rewrite list_lookup_alter_eq, Hq. split; [done|].
      unfold marked. case_bool_decide; simpl; split_and!; auto; naive_solver.
    + exists q, s. by rewrite list_lookup_alter_ne.
Qed.

Lemma inv_up evs p σ k s :
  inv evs σ -> running p σ -> sys_sems σ !! k = Some s -> truth (sem_initialized s) = true ->
  inv (EvUp k :: evs) (Sys (wake_all (Some p) (ChanSem k) (sys_procs σ))
    (<[k := Semaphore (i32 (sem_count s + 1)) (sem_initialized s)]> (sys_sems σ)) (sys_wait σ)).
Proof.
  intros I [Hwp (qp & Hqp & Hrun)] Hs Hi.
  assert (Hlk : forall j q', wake_all (Some p) (ChanSem k) (sys_procs σ) !! j = Some q' ->
            exists q, sys_procs σ !! j = Some q /\ q' = if bool_decide (j = p) then q else woken (ChanSem k) q).
  { intros j q'. unfold wake_all. rewrite list_lookup_imap. destruct (sys_procs σ !! j) as [q|]; [|done].
    simpl. intros [= <-]. exists q. split; [done|]. repeat case_bool_decide; congruence. }
  split; simpl; [unfold wake_all; rewrite length_imap; apply I|rewrite length_insert; apply I| | |apply levels_up; try done; apply I].
  - intros j q' i Hq' Hst Hch. destruct (Hlk j q' Hq') as (q & Hq & ->). revert Hst Hch.
    case_bool_decide as Hj; [subst; congruence|]. unfold woken.
    destruct (bool_decide_reflect (p_state q = SLEEPING)); simpl; [|done].
    case_bool_decide as Hk; [done|]. intros Hst Hch.
    destruct (iv_sleep _ _ I j q i Hq Hst Hch) as (Hw & s1 & Hs1 & Hc1). split; [done|].
    exists s1. rewrite list_lookup_insert_ne; [done|]. congruence.
  - intros j i Hj. destruct (iv_wait _ _ I j i Hj) as (q & s1 & Hq & Hst & Hch & Hs1 & Hi1).
    destruct (lookup_insert_sem _ k (i32 (sem_count s + 1)) s i s1 Hs Hs1) as (s2 & Hs2 & E2).
    exists (woken (ChanSem k) q), s2. rewrite E2. split_and!; try done.
    + unfold wake_all. rewrite list_lookup_imap, Hq. simpl.
      rewrite bool_decide_eq_false_2; [done|]. congruence.
    + unfold woken. destruct (_ && _); simpl; auto.
    + unfold woken. by destruct (_ && _).
Qed.

Lemma inv_init evs σ k s v :
  inv evs σ -> sys_sems σ !! k = Some s -> truth (sem_initialized s) = false -> 0 <= v < 2 ^ 31 ->
  inv (EvInit k v :: evs) (Sys (sys_procs σ) (<[k := Semaphore v 1]> (sys_sems σ)) (sys_wait σ)).
Proof.
  intros I Hs Hi Hv. split; simpl; [apply I|rewrite length_insert; apply I| | |apply (levels_init _ _ _ s); try done; apply I].
  - intros p q i Hq Hst Hch. destruct (iv_sleep _ _ I p q i Hq Hst Hch) as (Hw & s1 & Hs1 & Hc1).
    split; [done|]. destruct (iv_wait _ _ I p i Hw) as (_ & s2 & _ & _ & _ & Hs2 & Hi2).
    exists s1. rewrite list_lookup_insert_ne; [done|]. intros <-. congruence.
  - intros p i Hp. destruct (iv_wait _ _ I p i Hp) as (q & s1 & Hq & Hst & Hch & Hs1 & Hi1).
    exists q, s1. rewrite list_lookup_insert_ne; [done|]. intros <-. congruence.
Qed.

Lemma running_lookup p σ : running p σ -> exists q, sys_procs σ !! p = Some q /\ p_state q = RUNNING.
Proof. by intros [_ ?]. Qed.

Lemma inv_failed evs σ r ev ps :
  inv evs σ -> r = -1 -> ps = sys_procs σ -> inv (ok_event r ev :: evs) (Sys ps (sys_sems σ) (sys_wait σ)).
Proof. intros I -> ->. rewrite sys_eta. by apply inv_none. Qed.

Lemma inv_step evs σ ev σ' : inv evs σ -> step σ ev σ' -> inv (ev :: evs) σ'.
Proof.
  intros I Hst. pose proof (iv_sems _ _ I) as Hns. pose proof (iv_procs _ _ I) as Hnp.
  destruct Hst as [p id v r e' t' σ Hr Hv E|p id r e' t' σ Hr E|p id r e' t' σ Hr E|p id e' t' σ Hr E
    |p i q r e' t' σ Hw Hq Hst E|p i q e' t' σ Hw Hq Hst E|p pid r e' t' σ Hr E|p q q' σ Hw Hq Hn].
  - rewrite sem_init_run in E by done. destruct (bad_sem id || (v <? 0)) eqn:Eb.
    { injection E as <- <- <-. by apply inv_failed. }
    apply orb_false_iff in Eb as [_ Hv0]. apply Z.ltb_ge in Hv0.
    destruct (sys_sems σ !! Z.to_nat id) as [s|] eqn:Es; [|done].
    destruct (truth (sem_initialized s)) eqn:Ei; injection E as <- <- <-; [by apply inv_failed|].
    apply (inv_init _ _ _ s); try done; lia.
  - rewrite (sem_up_run p) in E by done. destruct (bad_sem id).
    { injection E as <- <- <-. by apply inv_failed. }
    destruct (sys_sems σ !! Z.to_nat id) as [s|] eqn:Es; [|done].
    destruct (truth (sem_initialized s)) eqn:Ei; injection E as <- <- <-; [|by apply inv_failed].
    by apply inv_up.
  - destruct (running_lookup p σ Hr) as (q & Hq & Hrun). rewrite (sem_down_run p q) in E by done.
    destruct (bad_sem id).
    { injection E as <- <- <-. by apply inv_failed. }
    destruct (sys_sems σ !! Z.to_nat id) as [s|] eqn:Es; [|done].
    destruct (truth (sem_initialized s)) eqn:Ei; [|injection E as <- <- <-; by apply inv_failed].
    rewrite (sem_down_loop_run p q _ s) in E by done.
    destruct (Z.leb_spec (sem_count s) 0); [done|]. injection E as <- <- <-.
    apply (inv_down _ (sys_procs σ) _ (sys_wait σ)); try done. by rewrite sys_eta.
  - destruct (running_lookup p σ Hr) as (q & Hq & Hrun). rewrite (sem_down_run p q) in E by done.
    destruct (bad_sem id); [done|].
    destruct (sys_sems σ !! Z.to_nat id) as [s|] eqn:Es; [|done].
    destruct (truth (sem_initialized s)) eqn:Ei; [|done].
    rewrite (sem_down_loop_run p q _ s) in E by done.
    destruct (Z.leb_spec (sem_count s) 0); [|done]. injection E as <- <-.
    apply (inv_block _ (sys_procs σ) _ _ p _ s); try done; simpl.
    + by rewrite sys_eta.
    + by rewrite length_alter.
    + exists (asleep (ChanSem (Z.to_nat id)) q). by rewrite list_lookup_alter_eq, Hq.
    + intros j Hj. by rewrite list_lookup_alter_ne.
  - destruct (iv_wait _ _ I p i Hw) as (q0 & s & Hq0 & _ & _ & Hs & Hi).
    rewrite (sem_down_resume_run p q i s) in E by done. destruct (Z.leb_spec (sem_count s) 0); [done|].
    injection E as <- <- <-. apply (inv_down _ (sys_procs σ) _ (sys_wait σ)); try done; simpl.
    + by rewrite sys_eta.
    + by rewrite length_alter.
    + intros j q' k Hq' Hsq Hcq. destruct (decide (p = j)) as [<-|Hne].
      * rewrite list_lookup_alter_eq, Hq in Hq'. by injection Hq' as <-.
      * rewrite list_lookup_alter_ne in Hq' by done. by rewrite lookup_delete_ne.
    + intros j k Hj. apply lookup_delete_Some in Hj as [Hne Hj]. by rewrite list_lookup_alter_ne.
  - destruct (iv_wait _ _ I p i Hw) as (q0 & s & Hq0 & _ & _ & Hs & Hi).
    rewrite (sem_down_resume_run p q i s) in E by done. destruct (Z.leb_spec (sem_count s) 0); [|done].
    injection E as <- <-. rewrite <- (insert_id (sys_wait σ) p i Hw).
    apply (inv_block _ (sys_procs σ) _ _ p i s); try done; simpl.
    + by rewrite sys_eta.
    + by rewrite !length_alter.
    + eexists. by rewrite list_lookup_alter_eq, list_lookup_alter_eq, Hq.
    + intros j Hj. by rewrite !list_lookup_alter_ne.
  - destruct (kill_cases pid (ctx p (sys_procs σ)) (sys_sems σ)) as (r' & ps' & E' & H); [done..|].
    rewrite E' in E. injection E as <- <- <-. destruct H as [->|[i ->]]; simpl.
    + rewrite sys_eta. by apply inv_none.
    + by apply inv_kill.
  - split; simpl; [by rewrite length_insert|done| | |apply levels_none, I].
    + intros j q1 k Hq1 Hs1 Hc1. destruct (decide (p = j)) as [<-|Hne].
      * rewrite list_lookup_insert_eq in Hq1 by (by apply lookup_lt_Some in Hq). injection Hq1 as <-.
        by destruct (Hn k).
      * rewrite list_lookup_insert_ne in Hq1 by done. by apply (iv_sleep _ _ I j q1 k).
    + intros j k Hj. rewrite list_lookup_insert_ne by congruence. by apply (iv_wait _ _ I j k).
Qed.

Lemma reachable_inv σ0 evs σ : boot σ0 -> reachable σ0 evs σ -> inv evs σ.
Proof.
  intros Hb H. induction H as [|evs σ ev σ' _ IH Hst]; [by apply boot_inv|]. by eapply inv_step.
Qed.

(** ** Properties *)


(** C26 (counting): the count of a semaphore is its initial value plus the
    completed ups minus the completed downs, and as long as that number stays
    within an int it is never negative, so completed downs never outnumber the
    units made available. *)
Theorem sem_counting σ0 evs σ i n :
  boot σ0 -> reachable σ0 evs σ -> level evs i = Some n -> (i < MAX_SEM)%nat -> in_int evs i ->
  exists s, sys_sems σ !! i = Some s /\ sem_count s = n /\ 0 <= n.
Proof.
  intros Hb H Hl Hi Hint. pose proof (reachable_inv _ _ _ Hb H) as I.
  destruct (lookup_lt_is_Some_2 (sys_sems σ) i) as [s Hs]; [rewrite (iv_sems _ _ I); done|].
  exists s. split; [done|]. pose proof (iv_level _ _ I i s Hs) as HL.
  destruct (truth (sem_initialized s)); [|congruence].
  destruct HL as (n' & Hn' & Hc & Hp). assert (n' = n) as -> by congruence.
  specialize (Hp Hint). split; [|done].
  assert (n < 2 ^ 31) by (by apply (Hint evs)). by rewrite Hc, sint_wrap_small by (simpl; lia).
Qed.


(** A killed waiter: a process that is killed while it waits for a semaphore
    without units goes back to sleep when it is scheduled; [sem_down] never
    looks at [p->killed]. *)
Theorem sem_down_ignores_kill p q i s ps t :
  ps !! p = Some q -> t !! i = Some s -> sem_count s <= 0 ->
  exists e', sem_down_resume i (running_as p (Env ∅ (alter marked p ps) None 1 None)) t = Block e' t /\
    exists q', procs e' !! p = Some q' /\ p_killed q' = 1 /\ p_state q' = SLEEPING /\ p_chan q' = ChanSem i.
Proof.
  intros Hq Hs Hc.
  pose proof (sem_down_resume_run p (marked q) i s (alter marked p ps) t
                ltac:(by rewrite list_lookup_alter_eq, Hq) Hs) as E. cbv zeta in E.
  rewrite (proj2 (Z.leb_le (sem_count s) 0)) in E by lia.
  eexists. split; [exact E|]. simpl.
  rewrite !list_lookup_alter_eq, Hq. eexists. split; [done|]. simpl.
  split_and!; try done. unfold marked. by case_bool_decide.
Qed.

(** ** Witnesses *)

(** Process 0 initialises semaphore 3 with 0 and waits for it; process 1 signals
    it. *)
Definition demo_boot : sys :=
  Sys ([demo_proc RUNNING 1; demo_proc RUNNING 2] ++ replicate 62 (demo_proc UNUSED 0))
      (replicate MAX_SEM (Semaphore 0 0)) ∅.

Definition oenv (o : outcome semaphores Z) : env :=
  match o with Ret _ e _ | Block e _ => e | _ => Env ∅ [] None 0 None end.
Definition ostate (o : outcome semaphores Z) : semaphores :=
  match o with Ret _ _ t | Block _ t => t | _ => [] end.

Definition demo_o1 := sem_init 3 0 (ctx 0 (sys_procs demo_boot)) (sys_sems demo_boot).
Definition demo_1 : sys := Sys (procs (oenv demo_o1)) (ostate demo_o1) (sys_wait demo_boot).
Definition demo_o2 := sem_down 3 (ctx 0 (sys_procs demo_1)) (sys_sems demo_1).
Definition demo_2 : sys :=
  Sys (procs (oenv demo_o2)) (ostate demo_o2) (<[0%nat := Z.to_nat 3]> (sys_wait demo_1)).
Definition demo_o3 := sem_up 3 (ctx 1 (sys_procs demo_2)) (sys_sems demo_2).
Definition demo_3 : sys := Sys (procs (oenv demo_o3)) (ostate demo_o3) (sys_wait demo_2).

Lemma demo_boot_ok : boot demo_boot.
Proof.
  split; [reflexivity|]. split; [reflexivity|]. split; [reflexivity|].
  intros p q i Hq [Hs _]. apply list_elem_of_lookup_2 in Hq.
  apply elem_of_app in Hq as [Hq|Hq].
  - repeat (apply elem_of_cons in Hq as [->|Hq]; [done|]). by apply not_elem_of_nil in Hq.
  - apply elem_of_replicate in Hq as [-> _]. done.
Qed.

Lemma demo_reachable : reachable demo_boot [EvUp 3; EvNone; EvInit 3 0] demo_3.
Proof.
  apply (reach_step _ _ demo_2); [apply (reach_step _ _ demo_1); [apply (reach_step _ _ demo_boot); [constructor|]|]|].
  - apply (step_init 0 3 0 0 (oenv demo_o1) (ostate demo_o1) demo_boot); [|lia|vm_compute; reflexivity].
    split; [reflexivity|]. eexists. split; reflexivity.
  - apply (step_down_wait 0 3 (oenv demo_o2) (ostate demo_o2) demo_1); [|vm_compute; reflexivity].
    split; [reflexivity|]. eexists. split; vm_compute; reflexivity.
  - apply (step_up 1 3 0 (oenv demo_o3) (ostate demo_o3) demo_2); [|vm_compute; reflexivity].
    split; [reflexivity|]. eexists. split; vm_compute; reflexivity.
Qed.


Lemma sem_counting_witness :
  exists s, sys_sems demo_3 !! 3%nat = Some s /\ sem_count s = 1 /\ 0 <= 1.
Proof.
  apply (sem_counting demo_boot [EvUp 3; EvNone; EvInit 3 0] demo_3 3 1);
    [apply demo_boot_ok|apply demo_reachable|reflexivity|apply Nat.ltb_lt; reflexivity|].
  intros evs n [pre Hpre] Hn.
  destruct pre as [|e1 [|e2 [|e3 [|e4 pre]]]]; simplify_eq/=; try lia.
Defined.


Lemma sem_down_ignores_kill_witness :
  exists e', sem_down_resume 3 (running_as 0 (Env ∅ (alter marked 0%nat (sys_procs demo_2)) None 1 None))
               (sys_sems demo_2) = Block e' (sys_sems demo_2) /\
    exists q', procs e' !! 0%nat = Some q' /\ p_killed q' = 1 /\ p_state q' = SLEEPING /\ p_chan q' = ChanSem 3.
Proof.
  apply (sem_down_ignores_kill 0 (Proc SLEEPING (ChanSem 3) 0 0 1 None) 3 (Semaphore 0 1)
           (sys_procs demo_2) (sys_sems demo_2));
    [reflexivity|reflexivity|simpl; lia].
Defined.
