(* ===== verification/Shm.v ===== *)
(** * kernel/shm.c: one page of shared memory

    The page is allocated by the first [shm_get] and mapped at [0x40000000] in
    every process that asks for it. *)

From stdpp Require Import base gmap sets list strings.
From Stdlib Require Import ZArith Lia.
From S2P Require Import Prelude Kernel Riscv Kalloc Vm VmUser VmCopy VmSpace VmFree.

Section Shm.
Context {L : Linker}.

(** ** Definitions *)

(** [struct shm], beside the memory the allocator manages *)
Record shm : Type := Shm {
  shm_kmem : kmem;
  shared_page : Z;
  allocated : Z
}.

#[local] Instance shm_part : Part shm kmem :=
  {| part_get := shm_kmem;
     part_put := fun k s => Shm k (shared_page s) (allocated s);
     part_get_put := fun _ _ => eq_refl;
     part_put_get := fun s => match s with Shm _ _ _ => eq_refl end;
     part_put_put := fun _ _ _ => eq_refl |}.

Definition shm_init : K shm unit :=
  initlock ShmLock ;;
  modify (fun s => Shm (shm_kmem s) 0 0).

Definition SHARED_VA : Z := 0x40000000.

Definition shm_get (pagetable key : Z) : K shm Z :=
  acquire ShmLock ;;
  a <- gets allocated ;;
  ok <- (if negb (truth a) then
           pg <- zoom kalloc ;;
           modify (fun s => Shm (shm_kmem s) pg (allocated s)) ;;
           if pg =? 0 then
             release ShmLock ;;
             ret false
           else
             zoom (fill_page pg 0) ;;
             modify (fun s => Shm (shm_kmem s) (shared_page s) 1) ;;
             ret true
         else ret true) ;;
  if negb ok then ret 0
  else
    release ShmLock ;;
    pg <- gets shared_page ;;
    r <- zoom (mappages pagetable SHARED_VA PGSIZE pg (Z.lor PTE_W PTE_U)) ;;
    if r <? 0 then ret 0 else ret SHARED_VA.

(** ** Lemmas *)

Context (Hlink : linker_ok).

Definition shm_perm : Z := Z.lor PTE_W PTE_U.

(** The locks [shm_get] takes are free. *)
Definition shm_locks (e : env) : Prop := (ShmLock ∉ held e) /\ kfree_locks e.

Lemma shm_kfree_locks e : shm_locks e -> kfree_locks (locked ShmLock e).
Proof. intros [_ [H1 H2]]. split; apply not_held_locked; done. Qed.

(** The last part of [shm_get]: mapping the page. *)
Definition shm_map (pagetable pg : Z) : K shm Z :=
  r <- zoom (mappages pagetable SHARED_VA PGSIZE pg shm_perm) ;;
  if r <? 0 then ret 0 else ret SHARED_VA.

Lemma shm_get_allocated e pagetable key s :
  shm_locks e -> truth (allocated s) = true ->
  shm_get pagetable key e s = shm_map pagetable (shared_page s) e s.
Proof. intros [Hl _] Ha. unfold shm_get. ksteps. rewrite Ha. cbn [negb]. by ksteps. Qed.

(** The page of the first [shm_get], zeroed but not mapped yet. *)
Definition shm_fresh (s : kmem) (r : Z) : kmem :=
  set_mem (alloced s r) (mem_fill (kmem_mem (alloced s r)) r 0 PGSIZE).

Lemma shm_get_first e pagetable key s r l :
  shm_locks e -> truth (allocated s) = false -> kinv (shm_kmem s) (r :: l) ->
  shm_get pagetable key e s = shm_map pagetable r e (Shm (shm_fresh (shm_kmem s) r) r 1).
Proof.
  intros Hl Ha Hk. pose proof (shm_kfree_locks e Hl) as Hkl. destruct Hl as [Hl _].
  unfold shm_get. ksteps. rewrite Ha. cbn [negb]. ksteps.
  pose proof (zoom_Ret kalloc (locked ShmLock e) s r (locked ShmLock e) (alloced (shm_kmem s) r)
                (kalloc_run Hlink _ _ _ _ Hk Hkl)) as E.
  rewrite (bind_step _ _ _ _ _ _ _ E). ksteps.
  assert (kpage r) as Hr by (apply (kinv_kpage _ _ _ Hk); by left).
  pose proof (kpage_nonzero Hlink r Hr). rewrite (proj2 (Z.eqb_neq r 0)) by lia. ksteps.
  rewrite (bind_step _ _ _ _ _ _ _ (zoom_Ret (fill_page r 0) _ _ tt _ _ eq_refl)). by ksteps.
Qed.

Lemma shm_get_full e pagetable key s :
  shm_locks e -> truth (allocated s) = false -> kinv (shm_kmem s) [] ->
  shm_get pagetable key e s = Ret 0 e (Shm (shm_kmem s) 0 (allocated s)).
Proof.
  intros Hl Ha Hk. pose proof (shm_kfree_locks e Hl) as Hkl. destruct Hl as [Hl _].
  unfold shm_get. ksteps. rewrite Ha. cbn [negb]. ksteps.
  pose proof (zoom_Ret kalloc (locked ShmLock e) s 0 (locked ShmLock e) (shm_kmem s)
                (kalloc_empty _ _ Hk Hkl)) as E.
  rewrite (bind_step _ _ _ _ _ _ _ E). ksteps. rewrite Z.eqb_refl. by ksteps.
Qed.

#[local] Arguments us_kinv {_ root B s l x}.
#[local] Arguments us_pt {_ root B s l x}.
#[local] Arguments us_ust {_ root B Kp s l x s' l' x'}.

Lemma SHARED_VA_aligned : page_aligned SHARED_VA.
Proof. reflexivity. Qed.

(** What the first [shm_get] of the system does for the process [root]. *)
Lemma shm_first_run e root B s r l pg0 key :
  shm_locks e -> ust root B s (r :: l) 0 -> SHARED_VA + PGSIZE <= B -> B <= MAXVA ->
  valid_at (kmem_mem s) root SHARED_VA = false ->
  exists v s2 l2, shm_get root key e (Shm s pg0 0) = Ret v e (Shm s2 r 1) /\ kpage r /\
    ((v = SHARED_VA /\ ustep root B (fun va => vpn va <> vpn SHARED_VA) s (r :: l) 0 s2 l2 0 /\
      (forall va, 0 <= va < MAXVA -> lookup_pte (kmem_mem s2) root va =
         mapped (lookup_pte (kmem_mem s) root) SHARED_VA 1 r shm_perm va) /\
      (forall x, r <= x < r + PGSIZE -> kmem_mem s2 x = 0)) \/ (v = 0 /\ kinv s2 [])).
Proof.
  intros Hl U HB1 HB Hv. rewrite (shm_get_first e root key (Shm s pg0 0) r l Hl eq_refl (us_kinv U)).
  assert (Hr : kpage r) by (apply (kinv_kpage s (r :: l) r (us_kinv U)); by left).
  pose proof (kpage_nonzero Hlink r Hr) as Hr0. pose proof (kpage_pte_range Hlink r Hr) as Hrr.
  set (m1 := mem_fill (kmem_mem (alloced s r)) r 0 PGSIZE).
  destruct (alloc_ustep Hlink root B (fun va => vpn va <> vpn SHARED_VA) s l r m1 U) as [U1 Hlk1].
  { unfold m1. simpl. do 2 apply mem_fill_ok. apply (kinv_bytes _ _ (us_kinv U)). }
  { eapply writes_page_trans; [|apply writes_page_fill]. apply writes_page_fill. }
  change (shm_kmem (Shm s pg0 0)) with s. fold (shm_fresh s r) in U1, Hlk1.
  unfold shm_fresh in *. fold m1 in U1, Hlk1 |- *. set (s1 := set_mem (alloced s r) m1) in *.
  destruct (mappages_run Hlink e root s1 l SHARED_VA 1 r shm_perm) as (v & s2 & l2 & E & k & G & Hk);
    try done; [apply Hl|apply (us_ust U1)|apply (us_ust U1)|lia| |..].
  { destruct Hr as [_ Hr]. unfold PHYSTOP, KERNBASE, PGSIZE in *. lia. }
  { intros va Hva. rewrite Hlk1. rewrite Z.mul_1_l in Hva.
    apply (vpn_aligned SHARED_VA va SHARED_VA_aligned) in Hva. unfold valid_at in Hv.
    by rewrite (lookup_pte_page _ _ va SHARED_VA Hva). }
  rewrite Z.mul_1_l in E. unfold shm_map.
  pose proof (zoom_Ret (mappages root SHARED_VA PGSIZE r shm_perm) e (Shm s1 r 1) v e s2 E) as Ez.
  rewrite (bind_step _ _ _ _ _ _ _ Ez).
  destruct Hk as [[-> ->]|(-> & -> & _)].
  - exists SHARED_VA, s2, l2. split; [done|]. split; [done|]. left. split; [done|].
    assert (Hv1 : valid_at (kmem_mem s1) root SHARED_VA = false) by (unfold valid_at; by rewrite Hlk1).
    pose proof (map_ustep Hlink root B s1 s2 l l2 r SHARED_VA shm_perm HB (us_ust U1) ltac:(lia)
                  SHARED_VA_aligned ltac:(unfold SHARED_VA, PGSIZE in *; lia) ltac:(done) Hv1 G) as U2.
    split; [by eapply ustep_trans|]. split.
    + intros va Hva. rewrite (gr_lookup _ _ _ _ _ _ G va Hva). by apply mapped_ext.
    + intros x Hx. destruct (us_held _ _ _ _ _ (us_ust U1)) as [?|[(_ & Hml & Hmt & _) _]]; [lia|].
      destruct (evolves_page Hlink _ _ _ _ _ _ _ G Hr Hml Hmt) as [_ ->]; [|done].
      unfold s1, m1. simpl. by rewrite mem_fill_in.
  - exists 0, s2, []. split; [done|]. split; [done|]. right. split; [done|apply G].
Qed.

(** [walk] on a path that exists. *)
Lemma walk_existing e s root va t alloc :
  va < MAXVA -> table (kmem_mem s) root [PX 2 va; PX 1 va] = Some t ->
  walk root va alloc e s = Ret (t + 8 * PX 0 va) e s.
Proof.
  intros Hva Ht. unfold walk. rewrite (proj2 (Z.leb_gt _ _)) by done. revert Ht. simpl table.
  unfold child, pte_at. simpl walk_loop. unfold bind, read_pte, gets.
  destruct (pte_has (load64 (kmem_mem s) (root + 8 * PX 2 va)) PTE_V); [|done].
  destruct (pte_has (load64 _ (_ + 8 * PX 1 va)) PTE_V); [|done]. by intros [= <-].
Qed.

(** Mapping a page that is mapped already. *)
Lemma mappages_remap e s root l a pa perm :
  pt_inv (kmem_mem s) root l -> page_aligned a -> 0 <= a < MAXVA ->
  valid_at (kmem_mem s) root a = true ->
  mappages root a PGSIZE pa perm e s = Panic "mappages: remap".
Proof.
  intros Hpt Ha Ha0 Hv. unfold mappages. rewrite Ha. change (PGSIZE mod PGSIZE) with 0.
  change (Z.to_nat (PGSIZE / PGSIZE)) with 1%nat. cbn [negb Z.eqb]. rewrite mappages_loop_S.
  unfold valid_at, lookup_pte in Hv.
  destruct (table (kmem_mem s) root [PX 2 a; PX 1 a]) as [t|] eqn:Et; [|done].
  change (negb (0 =? 0)) with false. change (PGSIZE =? 0) with false. cbv iota.
  rewrite (bind_step _ _ _ _ _ _ _ (walk_existing e s root a t true ltac:(lia) Et)).
  destruct (leaf_kpage _ _ _ _ _ Hpt Et) as [Hkt _]. pose proof (kpage_nonzero Hlink t Hkt).
  pose proof (PX_ok 0 a ltac:(lia)) as Hpx.
  rewrite (proj2 (Z.eqb_neq _ _)) by (unfold px_ok in Hpx; lia).
  unfold read_pte. kstep. unfold pte_at in Hv. by rewrite Hv.
Qed.

Lemma mapped_shared f r va :
  SHARED_VA <= va < SHARED_VA + PGSIZE -> mapped f SHARED_VA 1 r shm_perm va = map_pte r shm_perm.
Proof.
  intros Hva. unfold mapped, in_range. rewrite Z.mul_1_l, (proj2 (Z.leb_le _ _)), (proj2 (Z.ltb_lt _ _)) by lia.
  rewrite Z.div_small by lia. simpl andb. f_equal. lia.
Qed.

Lemma shared_valid r : 0 <= r < 2 ^ 56 -> pte_has (map_pte r shm_perm) PTE_V = true.
Proof. intros Hr. by apply map_pte_valid. Qed.

(** The second process: [shm_get] maps the page that is there already and
    leaves the first address space as it is. *)
Lemma shm_second_run e root1 root2 B s r l key :
  shm_locks e -> ust root1 B s l 0 -> uother s root1 l B root2 0 -> SHARED_VA + PGSIZE <= B ->
  lookup_pte (kmem_mem s) root1 SHARED_VA = map_pte r shm_perm -> kpage r ->
  valid_at (kmem_mem s) root2 SHARED_VA = false ->
  exists v s2 l2, shm_get root2 key e (Shm s r 1) = Ret v e (Shm s2 r 1) /\
    ((v = SHARED_VA /\
      (forall va, 0 <= va < MAXVA -> lookup_pte (kmem_mem s2) root2 va =
         mapped (lookup_pte (kmem_mem s) root2) SHARED_VA 1 r shm_perm va) /\
      (forall va, lookup_pte (kmem_mem s2) root1 va = lookup_pte (kmem_mem s) root1 va) /\
      (forall x, r <= x < r + PGSIZE -> kmem_mem s2 x = kmem_mem s x)) \/ (v = 0 /\ kinv s2 l2 /\ l2 = [])).
Proof.
  intros Hl U Ho HB1 Hlk Hr Hv. rewrite shm_get_allocated by done. unfold shm_map.
  pose proof (kpage_pte_range Hlink r Hr) as Hrr.
  assert (Hv1 : valid_at (kmem_mem s) root1 SHARED_VA = true)
    by (unfold valid_at; rewrite Hlk; by apply shared_valid).
  assert (Hpg : page_at (kmem_mem s) root1 SHARED_VA = r)
    by (unfold page_at; rewrite Hlk; apply map_pte_pa; [apply Hr|done|done]).
  destruct (mappages_run Hlink e root2 s l SHARED_VA 1 r shm_perm) as (v & s2 & l2 & E & k & G & Hk);
    try done; [apply Hl|apply U|apply Ho|lia| |..].
  { destruct Hr as [_ Hr]. unfold PHYSTOP, KERNBASE, PGSIZE in *. lia. }
  { intros va Hva. rewrite Z.mul_1_l in Hva.
    apply (vpn_aligned SHARED_VA va SHARED_VA_aligned) in Hva. unfold valid_at in Hv.
    by rewrite (lookup_pte_page _ _ va SHARED_VA Hva). }
  rewrite Z.mul_1_l in E.
  pose proof (zoom_Ret (mappages root2 SHARED_VA PGSIZE r shm_perm) e (Shm s r 1) v e s2 E) as Ez.
  change (shared_page (Shm s r 1)) with r. rewrite (bind_step _ _ _ _ _ _ _ Ez).
  destruct Hk as [[-> ->]|(-> & -> & _)]; [|exists 0, s2, []; split; [done|]; right; split; [done|];
    split; [apply G|done]].
  exists SHARED_VA, s2, l2. split; [done|]. left. split; [done|]. split; [apply (gr_lookup _ _ _ _ _ _ G)|].
  split.
  - apply (lookup_pte_ext (kmem_mem s) (kmem_mem s2) root1). intros p t Hp Et.
    destruct (pt_page _ _ _ (us_pt U) p t Hp Et) as [Hkt Hlt].
    apply (evolves_page Hlink _ _ _ _ _ _ t G Hkt Hlt). intros Ht.
    destruct (ot_table _ _ _ _ _ _ Ho t Ht) as (_ & _ & Hn & _). apply Hn. by exists p.
  - assert (0 <= SHARED_VA < B) as Hin by (unfold SHARED_VA, PGSIZE in *; lia).
    destruct (ui_page _ _ _ _ (us_uinv _ _ _ _ _ U) SHARED_VA Hin Hv1) as (_ & Hrl & _). rewrite Hpg in Hrl.
    apply (evolves_page Hlink _ _ _ _ _ _ r G Hr Hrl). intros Ht.
    destruct (ot_table _ _ _ _ _ _ Ho r Ht) as (_ & _ & _ & _ & Hn). by apply (Hn SHARED_VA Hin Hv1).
Qed.

(** ** The theorems *)

(** C28 The region is shared: when two processes call [shm_get], with any keys,
    each call either fails with the free list exhausted or returns
    [0x40000000]; after both succeeded every address of the region translates,
    in both address spaces, to the same page with the same user-writable entry,
    and that page is all zeroes. *)
Theorem shm_shared e root1 root2 B s r l pg0 key1 key2 :
  shm_locks e -> ust root1 B s (r :: l) 0 -> uother s root1 (r :: l) B root2 0 ->
  SHARED_VA + PGSIZE <= B -> B <= MAXVA ->
  valid_at (kmem_mem s) root1 SHARED_VA = false -> valid_at (kmem_mem s) root2 SHARED_VA = false ->
  exists v1 t1, shm_get root1 key1 e (Shm s pg0 0) = Ret v1 e t1 /\
    ((v1 = 0 /\ kinv (shm_kmem t1) []) \/
     (v1 = SHARED_VA /\ exists v2 t2, shm_get root2 key2 e t1 = Ret v2 e t2 /\
       ((v2 = 0 /\ kinv (shm_kmem t2) []) \/
        (v2 = SHARED_VA /\ forall va, SHARED_VA <= va < SHARED_VA + PGSIZE ->
           lookup_pte (kmem_mem (shm_kmem t2)) root1 va = map_pte r shm_perm /\
           lookup_pte (kmem_mem (shm_kmem t2)) root2 va = map_pte r shm_perm /\
           kmem_mem (shm_kmem t2) (r + (va - SHARED_VA)) = 0)))).
Proof.
  intros Hl U Ho HB1 HB Hv1 Hv2.
  destruct (shm_first_run e root1 B s r l pg0 key1 Hl U HB1 HB Hv1)
    as (v & s1 & l1 & E & Hr & [(-> & U1 & Hlk & Hz)|[-> Hk]]); [|by exists 0, (Shm s1 r 1); eauto].
  exists SHARED_VA, (Shm s1 r 1). split; [exact E|]. right. split; [done|]. clear E.
  destruct (uother_step Hlink _ _ _ _ _ _ _ _ _ U1 Ho) as (Ho1 & Hlk2 & _).
  assert (HM : forall va, SHARED_VA <= va < SHARED_VA + PGSIZE -> 0 <= va < MAXVA)
    by (unfold SHARED_VA, PGSIZE, MAXVA in *; simpl in *; lia).
  destruct (shm_second_run e root1 root2 B s1 r l1 key2 Hl (us_ust U1) Ho1 HB1)
    as (v & s2 & l2 & E & [(-> & Hlk' & Hsame & Hb)|(-> & Hk & ->)]); [| |..|eauto 10]; try done.
  - rewrite Hlk by by_eval. apply mapped_shared. by_eval.
  - unfold valid_at. rewrite Hlk2. exact Hv2.
  - exists SHARED_VA, (Shm s2 r 1). split; [exact E|]. right. split; [done|]. intros va Hva. simpl.
    rewrite Hsame, Hlk, Hlk', !mapped_shared, Hb, Hz by (auto || lia). done.
Qed.

(** A process may call [shm_get] only once: the region has one fixed
    address, and the second call of the same process stops the whole kernel
    with "mappages: remap". *)
Theorem shm_get_twice_panics e root B s r l pg0 key1 key2 t :
  shm_locks e -> ust root B s (r :: l) 0 -> SHARED_VA + PGSIZE <= B -> B <= MAXVA ->
  valid_at (kmem_mem s) root SHARED_VA = false ->
  shm_get root key1 e (Shm s pg0 0) = Ret SHARED_VA e t ->
  shm_get root key2 e t = Panic "mappages: remap".
Proof.
  intros Hl U HB1 HB Hv E0.
  destruct (shm_first_run e root B s r l pg0 key1 Hl U HB1 HB Hv)
    as (v & s1 & l1 & E & Hr & [(-> & U1 & Hlk & _)|[-> _]]); rewrite E in E0; [|done].
  injection E0 as <-. rewrite shm_get_allocated by done. unfold shm_map, bind, zoom. simpl part_get.
  rewrite (mappages_remap e s1 root l1); [done|apply (us_ust U1)|by_eval|by_eval|].
  unfold valid_at. rewrite Hlk, mapped_shared by by_eval.
  by apply shared_valid, (kpage_pte_range Hlink).
Qed.

(** C29 A process that used [shm_get] cannot exit: its size does not cover the
    region (as no allocation of [sbrk] that stays below it does), so [uvmfree]
    leaves the region mapped and stops the kernel with "freewalk: leaf". *)
Theorem shm_exit_panics e root B s r l pg0 key t sz :
  shm_locks e -> uspace root B s (r :: l) -> SHARED_VA + PGSIZE <= B -> B <= MAXVA ->
  valid_at (kmem_mem s) root SHARED_VA = false -> 0 <= sz <= SHARED_VA ->
  shm_get root key e (Shm s pg0 0) = Ret SHARED_VA e t ->
  uvmfree root sz e (shm_kmem t) = Panic "freewalk: leaf".
Proof.
  intros Hl S HB1 HB Hv Hsz E0. pose proof (sp_ust _ _ _ _ S) as U.
  destruct (shm_first_run e root B s r l pg0 key Hl U HB1 HB Hv)
    as (v & s1 & l1 & E & Hr & [(-> & U1 & Hlk & _)|[-> _]]); rewrite E in E0; [|done].
  injection E0 as <-. pose proof (kpage_pte_range Hlink r Hr) as Hrr.
  assert (Hup : PGROUNDUP sz <= SHARED_VA).
  { rewrite <- (PGROUNDUP_aligned SHARED_VA) by by_eval. apply PGROUNDUP_mono; [lia|by_eval]. }
  apply (uvmfree_leaf_panics Hlink e root B s1 l1 sz SHARED_VA); try done.
  - apply Hl.
  - apply (uspace_step root B _ _ _ _ _ S U1). intros va Hva. rewrite Hlk by done. unfold mapped.
    destruct (in_range SHARED_VA (1 * PGSIZE) va) eqn:Ein; [|by apply (sp_leaf _ _ _ _ S)].
    unfold in_range in Ein. apply andb_prop in Ein as [H1 H2]. apply Z.leb_le in H1. apply Z.ltb_lt in H2.
    rewrite Z.div_small by lia. apply (map_pte_leaf _ _ 2); [lia|by_eval|lia|done].
  - assert (SHARED_VA <= MAXVA) by by_eval. lia.
  - unfold PGSIZE in *. lia.
  - unfold valid_at. rewrite Hlk, mapped_shared by by_eval. by apply shared_valid.
Qed.

End Shm.

(** ** Witnesses *)

#[local] Existing Instance demo_linker.

Lemma demo_shm_locks : shm_locks demo_env.
Proof. split; [by_eval|apply demo_locks]. Qed.

Lemma demo_unmapped j va : 8 < j <= 10 -> valid_at (kmem_mem demo_kmem) (demo_page j) va = false.
Proof.
  intros Hj. unfold valid_at. rewrite zero_lookup; [done|apply demo_kpage; lia|].
  intros x Hx. by apply (demo_used_zero j); [lia|].
Qed.

Lemma shm_get_twice_panics_witness :
  exists t, shm_get demo_root 0 demo_env (Shm demo_kmem 0 0) = Ret SHARED_VA demo_env t /\
    shm_get demo_root 7 demo_env t = Panic "mappages: remap".
Proof.
  destruct (result_inv (shm_get demo_root 0 demo_env (Shm demo_kmem 0 0)) SHARED_VA demo_env)
    as [t E]; [by_eval|]. exists t. split; [exact E|].
  apply (shm_get_twice_panics demo_linker_ok demo_env demo_root TRAPFRAME demo_kmem
           (hd 0 demo_free) (tl demo_free) 0 0 7 t demo_shm_locks);
    [exact (demo_ust TRAPFRAME)|by_eval|by_eval|apply demo_unmapped; lia|exact E].
Defined.

Lemma shm_exit_panics_witness :
  exists t, shm_get demo_root 0 demo_env (Shm demo_kmem 0 0) = Ret SHARED_VA demo_env t /\
    uvmfree demo_root 8192 demo_env (shm_kmem t) = Panic "freewalk: leaf".
Proof.
  destruct (result_inv (shm_get demo_root 0 demo_env (Shm demo_kmem 0 0)) SHARED_VA demo_env)
    as [t E]; [by_eval|]. exists t. split; [exact E|].
  apply (shm_exit_panics demo_linker_ok demo_env demo_root TRAPFRAME demo_kmem
           (hd 0 demo_free) (tl demo_free) 0 0 t 8192 demo_shm_locks);
    [|by_eval|by_eval|apply demo_unmapped; lia|by_eval|exact E].
  apply zero_uspace; [apply demo_kinv|apply demo_kpage; lia|apply demo_used; lia|by_eval|].
  intros x Hx. by apply (demo_used_zero 9).
Defined.

(** Two empty address spaces, [demo_page 9] and [demo_page 10]. *)
Lemma demo_uother : uother demo_kmem (demo_page 9) demo_free TRAPFRAME (demo_page 10) 0.
Proof.
  assert (K10 : kpage (demo_page 10)) by (apply demo_kpage; lia).
  assert (Z10 : forall x, demo_page 10 <= x < demo_page 10 + PGSIZE -> kmem_mem demo_kmem x = 0)
    by (intros x Hx; by apply (demo_used_zero 10)).
  apply (zero_uother demo_linker_ok); [|by_eval| |intros x Hx; by apply (demo_used_zero 9)].
  - by apply zero_ust; [apply demo_kinv| |apply demo_used; lia|].
  - split; [apply demo_kpage; lia|]. split; [apply demo_used; lia|]. split; [|split; [by_eval|]].
    + intros (p & Hp & Et). by destruct (zero_table demo_kmem (demo_page 10) p _ K10 Z10 Hp Et).
    + intros va _. by rewrite demo_unmapped by lia.
Qed.

Lemma shm_shared_witness :
  exists t1 t2, shm_get (demo_page 9) 3 demo_env (Shm demo_kmem 0 0) = Ret SHARED_VA demo_env t1 /\
    shm_get (demo_page 10) 4 demo_env t1 = Ret SHARED_VA demo_env t2 /\
    lookup_pte (kmem_mem (shm_kmem t2)) (demo_page 9) SHARED_VA =
    lookup_pte (kmem_mem (shm_kmem t2)) (demo_page 10) SHARED_VA.
Proof.
  destruct (shm_shared demo_linker_ok demo_env (demo_page 9) (demo_page 10) TRAPFRAME demo_kmem
              (hd 0 demo_free) (tl demo_free) 0 3 4 demo_shm_locks)
    as (v1 & t1 & E1 & H);
    [exact (demo_ust TRAPFRAME)|exact demo_uother|by_eval|by_eval|apply demo_unmapped; lia..|].
  destruct (result_inv (shm_get (demo_page 9) 3 demo_env (Shm demo_kmem 0 0)) SHARED_VA demo_env)
    as [t1' E1']; [by_eval|].
  rewrite E1 in E1'. injection E1' as -> <-. destruct H as [[H _]|(_ & v2 & t2 & E2 & H)]; [discriminate H|].
  assert (E : result (match shm_get (demo_page 9) 3 demo_env (Shm demo_kmem 0 0) with
                      | Ret _ e t => shm_get (demo_page 10) 4 e t
                      | o => o end) = Some (SHARED_VA, demo_env)) by by_eval.
  rewrite E1, E2 in E. injection E as ->. destruct H as [[H _]|[_ H]]; [discriminate H|].
  exists t1, t2. split; [exact E1|]. split; [exact E2|].
  destruct (H SHARED_VA) as (-> & -> & _); [by_eval|reflexivity].
Defined.
