(* ===== verification/Spinlock.v ===== *)
(** * kernel/spinlock.c: spin locks on several CPUs

    [Kernel] gives kernel code the contract of spin locks: the set of locks this
    CPU holds.  Here are the lock words, the per-CPU [noff]/[intena] counters and
    the interrupt-enable bit the C code really uses.  [spin_refines_acquire] and
    [spin_refines_release] show that the C functions implement the contract, and
    the transition system at the end runs several CPUs that interleave between
    the atomic accesses to the lock words. *)

From stdpp Require Import base gmap sets list strings.
From Stdlib Require Import ZArith Lia.
From S2P Require Import Prelude Kernel.

(** ** Definitions *)

(** [struct spinlock]: [lk_cpu] is the CPU that holds it, [None] for 0. *)
Record spinlock : Type := Spinlock { lk_locked : Z; lk_cpu : option nat }.

(** The part of [struct cpu] spin locks use, and the CPU's SSTATUS.SIE bit. *)
Record cpu : Type := Cpu { noff : Z; intena : bool; sie : bool }.

Record machine : Type := Machine { lockw : gmap lock spinlock; cpus : list cpu }.

Definition lk (m : machine) (l : lock) : spinlock := default (Spinlock 0 None) (lockw m !! l).
Definition set_lk (l : lock) (s : spinlock) (m : machine) : machine :=
  Machine (<[l := s]> (lockw m)) (cpus m).
Definition set_cpu (h : nat) (c : cpu) (m : machine) : machine :=
  Machine (lockw m) (<[h := c]> (cpus m)).

(** [mycpu()] on hart [h] *)
Definition mycpu (h : nat) : K machine cpu :=
  fun e m => match cpus m !! h with
             | Some c => Ret c e m
             | None => Undef "hart"
             end.
Definition upd_cpu (h : nat) (f : cpu -> cpu) : K machine unit :=
  c <- mycpu h ;; modify (set_cpu h (f c)).

Definition spin_initlock (l : lock) : K machine unit := modify (set_lk l (Spinlock 0 None)).

Definition intr_get (h : nat) : K machine bool := c <- mycpu h ;; ret (sie c).
Definition intr_off (h : nat) : K machine unit :=
  upd_cpu h (fun c => Cpu (noff c) (intena c) false).
Definition intr_on (h : nat) : K machine unit :=
  upd_cpu h (fun c => Cpu (noff c) (intena c) true).

Definition spin_holding (h : nat) (l : lock) : K machine bool :=
  s <- gets (fun m => lk m l) ;;
  ret (truth (lk_locked s) && bool_decide (lk_cpu s = Some h)).

Definition push_off (h : nat) : K machine unit :=
  old <- intr_get h ;;
  intr_off h ;;
  c <- mycpu h ;;
  when (noff c =? 0) (upd_cpu h (fun c => Cpu (noff c) old (sie c))) ;;
  upd_cpu h (fun c => Cpu (noff c + 1) (intena c) (sie c)).

Definition pop_off (h : nat) : K machine unit :=
  i <- intr_get h ;;
  if (i : bool) then panic "pop_off - interruptible"
  else
    c <- mycpu h ;;
    if noff c <? 1 then panic "pop_off"
    else
      upd_cpu h (fun c => Cpu (noff c - 1) (intena c) (sie c)) ;;
      c <- mycpu h ;;
      when ((noff c =? 0) && intena c) (intr_on h).

(** [__sync_lock_test_and_set(&lk->locked, 1)] *)
Definition test_and_set (l : lock) : K machine Z :=
  s <- gets (fun m => lk m l) ;;
  modify (set_lk l (Spinlock 1 (lk_cpu s))) ;;
  ret (lk_locked s).

(** [acquire] up to its spin loop, the loop ([fuel] bounds its turns), and the
    rest. *)
Definition acquire_enter (h : nat) (l : lock) : K machine unit :=
  push_off h ;;
  b <- spin_holding h l ;;
  if (b : bool) then panic "acquire" else ret tt.

Fixpoint acquire_spin (fuel : nat) (l : lock) : K machine unit :=
  match fuel with
  | O => undef "fuel"
  | S f =>
      old <- test_and_set l ;;
      if negb (old =? 0) then acquire_spin f l else ret tt
  end.

Definition acquire_exit (h : nat) (l : lock) : K machine unit :=
  modify (fun m => set_lk l (Spinlock (lk_locked (lk m l)) (Some h)) m).

Definition spin_acquire (fuel : nat) (h : nat) (l : lock) : K machine unit :=
  acquire_enter h l ;;
  acquire_spin fuel l ;;
  acquire_exit h l.

(** [release] up to [__sync_lock_release], and the rest. *)
Definition release_enter (h : nat) (l : lock) : K machine unit :=
  b <- spin_holding h l ;;
  if negb b then panic "release"
  else modify (fun m => set_lk l (Spinlock (lk_locked (lk m l)) None) m).

Definition release_exit (h : nat) (l : lock) : K machine unit :=
  modify (fun m => set_lk l (Spinlock 0 (lk_cpu (lk m l))) m) ;;
  pop_off h.

Definition spin_release (h : nat) (l : lock) : K machine unit :=
  release_enter h l ;;
  release_exit h l.

(** ** The CPUs together

    What hart [h] is doing: nothing with locks, spinning for [l], holding the
    word of [l] but not yet recorded in [lk->cpu], or about to give it back. *)
Inductive pc : Type :=
  | Idle
  | Spinning (l : lock)
  | Entering (l : lock)
  | Leaving (l : lock).

(** [owned] is the set of locks [h] has acquired and not begun to release. *)
Record hart : Type := Hart { hpc : pc; owned : gset lock }.

Record smp : Type := Smp { mach : machine; harts : list hart }.

Definition kenv : env := Env ∅ [] None 1 None.

Inductive smp_step : smp -> smp -> Prop :=
  | smp_acquire h l H e' m' σ :
      harts σ !! h = Some (Hart Idle H) ->
      acquire_enter h l kenv (mach σ) = Ret tt e' m' ->
      smp_step σ (Smp m' (<[h := Hart (Spinning l) H]> (harts σ)))
  | smp_spin h l H old e' m' σ :
      harts σ !! h = Some (Hart (Spinning l) H) ->
      test_and_set l kenv (mach σ) = Ret old e' m' -> old <> 0 ->
      smp_step σ (Smp m' (harts σ))
  | smp_take h l H e' m' σ :
      harts σ !! h = Some (Hart (Spinning l) H) ->
      test_and_set l kenv (mach σ) = Ret 0 e' m' ->
      smp_step σ (Smp m' (<[h := Hart (Entering l) H]> (harts σ)))
  | smp_enter h l H e' m' σ :
      harts σ !! h = Some (Hart (Entering l) H) ->
      acquire_exit h l kenv (mach σ) = Ret tt e' m' ->
      smp_step σ (Smp m' (<[h := Hart Idle ({[l]} ∪ H)]> (harts σ)))
  | smp_release h l H e' m' σ :
      harts σ !! h = Some (Hart Idle H) ->
      release_enter h l kenv (mach σ) = Ret tt e' m' ->
      smp_step σ (Smp m' (<[h := Hart (Leaving l) (H ∖ {[l]})]> (harts σ)))
  | smp_leave h l H e' m' σ :
      harts σ !! h = Some (Hart (Leaving l) H) ->
      release_exit h l kenv (mach σ) = Ret tt e' m' ->
      smp_step σ (Smp m' (<[h := Hart Idle H]> (harts σ)))
  | smp_intr h b e' m' σ :
      harts σ !! h = Some (Hart Idle ∅) ->
      (if (b : bool) then intr_on h else intr_off h) kenv (mach σ) = Ret tt e' m' ->
      smp_step σ (Smp m' (harts σ)).

(** All locks free and no lock counted on any of [n] CPUs. *)
Definition smp_boot (n : nat) : smp :=
  Smp (Machine ∅ (replicate n (Cpu 0 false false))) (replicate n (Hart Idle ∅)).

Inductive smp_reachable (n : nat) : smp -> Prop :=
  | smp_init : smp_reachable n (smp_boot n)
  | smp_next σ σ' : smp_reachable n σ -> smp_step σ σ' -> smp_reachable n σ'.

(** ** Lemmas *)

Definition pushed (c : cpu) : cpu :=
  Cpu (noff c + 1) (if noff c =? 0 then sie c else intena c) false.
Definition popped (c : cpu) : cpu :=
  Cpu (noff c - 1) (intena c) ((noff c - 1 =? 0) && intena c).

Lemma mycpu_run h c e m : cpus m !! h = Some c -> mycpu h e m = Ret c e m.
Proof. intros H. unfold mycpu. by rewrite H. Qed.

Lemma upd_cpu_run h c f e m :
  cpus m !! h = Some c -> upd_cpu h f e m = Ret tt e (set_cpu h (f c) m).
Proof. intros H. unfold upd_cpu. by rewrite (bind_step _ _ _ _ _ _ _ (mycpu_run h c e m H)). Qed.

Lemma set_cpu_lookup h c c' m : cpus m !! h = Some c -> cpus (set_cpu h c' m) !! h = Some c'.
Proof. intros H. simpl. apply list_lookup_insert_eq. by eapply lookup_lt_Some. Qed.

Lemma set_cpu_set_cpu h c c' m : set_cpu h c (set_cpu h c' m) = set_cpu h c m.
Proof. unfold set_cpu. simpl. by rewrite list_insert_insert_eq. Qed.

Lemma push_off_run h c e m :
  cpus m !! h = Some c -> push_off h e m = Ret tt e (set_cpu h (pushed c) m).
Proof.
  intros H. unfold push_off, intr_get, intr_off. kstep.
  rewrite (bind_step _ _ _ _ _ _ _ (mycpu_run h c e m H)). kstep.
  rewrite (bind_step _ _ _ _ _ _ _ (upd_cpu_run h c _ e m H)).
  pose proof (set_cpu_lookup h c (Cpu (noff c) (intena c) false) m H) as H1.
  rewrite (bind_step _ _ _ _ _ _ _ (mycpu_run h _ e _ H1)). simpl noff. unfold pushed.
  destruct (noff c =? 0); ksteps.
  - rewrite (bind_step _ _ _ _ _ _ _ (upd_cpu_run h _ _ e _ H1)).
    erewrite upd_cpu_run by (eapply set_cpu_lookup; done). simpl. by rewrite !set_cpu_set_cpu.
  - rewrite (upd_cpu_run h _ _ e _ H1). simpl. by rewrite set_cpu_set_cpu.
Qed.

Lemma pop_off_run h c e m :
  cpus m !! h = Some c -> sie c = false -> 1 <= noff c ->
  pop_off h e m = Ret tt e (set_cpu h (popped c) m).
Proof.
  intros H Hs Hn. unfold pop_off, intr_get. kstep.
  rewrite (bind_step _ _ _ _ _ _ _ (mycpu_run h c e m H)). kstep. rewrite Hs.
  rewrite (bind_step _ _ _ _ _ _ _ (mycpu_run h c e m H)).
  rewrite (proj2 (Z.ltb_ge _ _)) by lia.
  rewrite (bind_step _ _ _ _ _ _ _ (upd_cpu_run h c _ e m H)).
  pose proof (set_cpu_lookup h c (Cpu (noff c - 1) (intena c) (sie c)) m H) as H1.
  rewrite (bind_step _ _ _ _ _ _ _ (mycpu_run h _ e _ H1)). simpl noff. simpl intena. unfold popped.
  destruct (_ && _) eqn:E; ksteps.
  - unfold intr_on. rewrite (upd_cpu_run h _ _ e _ H1). simpl. by rewrite set_cpu_set_cpu.
  - unfold ret. by rewrite Hs.
Qed.

Lemma lk_set_lk l s m : lk (set_lk l s m) l = s.
Proof. unfold lk. simpl. by rewrite lookup_insert_eq. Qed.

Lemma lk_set_lk_ne l l' s m : l <> l' -> lk (set_lk l s m) l' = lk m l'.
Proof. intros H. unfold lk. simpl. by rewrite lookup_insert_ne. Qed.

Lemma lk_set_cpu h c m l : lk (set_cpu h c m) l = lk m l.
Proof. done. Qed.

Definition holds (m : machine) (h : nat) (l : lock) : bool :=
  truth (lk_locked (lk m l)) && bool_decide (lk_cpu (lk m l) = Some h).

Lemma spin_holding_run h l e m : spin_holding h l e m = Ret (holds m h l) e m.
Proof. done. Qed.

Lemma acquire_enter_run h l c e m :
  cpus m !! h = Some c ->
  acquire_enter h l e m =
    if holds m h l then Panic "acquire" else Ret tt e (set_cpu h (pushed c) m).
Proof.
  intros H. unfold acquire_enter. rewrite (bind_step _ _ _ _ _ _ _ (push_off_run h c e m H)).
  rewrite (bind_step _ _ _ _ _ _ _ (spin_holding_run h l e _)).
  change (holds (set_cpu h (pushed c) m) h l) with (holds m h l). by destruct (holds m h l).
Qed.

Lemma release_enter_run h l e m :
  release_enter h l e m =
    if holds m h l then Ret tt e (set_lk l (Spinlock (lk_locked (lk m l)) None) m) else Panic "release".
Proof.
  unfold release_enter. rewrite (bind_step _ _ _ _ _ _ _ (spin_holding_run h l e m)).
  by destruct (holds m h l).
Qed.

Lemma release_exit_run h l c e m :
  cpus m !! h = Some c -> sie c = false -> 1 <= noff c ->
  release_exit h l e m = Ret tt e (set_cpu h (popped c) (set_lk l (Spinlock 0 (lk_cpu (lk m l))) m)).
Proof. intros H Hs Hn. unfold release_exit. kstep. by apply pop_off_run. Qed.

(** Hart [h] of the machine [m] as the context [e] describes it. *)
Record rep (h : nat) (m : machine) (e : env) : Prop := {
  rp_held : forall l, l ∈ held e <-> holds m h l = true;
  rp_cpu : exists c, cpus m !! h = Some c /\ noff c = Z.of_nat (size (held e)) /\
                     (noff c <> 0 -> sie c = false)
}.

Lemma holds_set_lk m h l l' s :
  holds (set_lk l s m) h l' =
    if bool_decide (l = l') then truth (lk_locked s) && bool_decide (lk_cpu s = Some h) else holds m h l'.
Proof.
  unfold holds. destruct (bool_decide_reflect (l = l')) as [<-|E]; [by rewrite lk_set_lk|by rewrite lk_set_lk_ne].
Qed.

(** Hart [h] after taking [l], and after giving it back. *)
Definition taken (h : nat) (l : lock) (c : cpu) (m : machine) : machine :=
  set_lk l (Spinlock 1 (Some h)) (set_cpu h (pushed c) m).
Definition given (h : nat) (l : lock) (c : cpu) (m : machine) : machine :=
  set_cpu h (popped c) (set_lk l (Spinlock 0 None) m).

Lemma set_lk_set_lk l s s' m : set_lk l s (set_lk l s' m) = set_lk l s m.
Proof. unfold set_lk. simpl. by rewrite insert_insert_eq. Qed.

Lemma spin_acquire_run fuel h l c e m :
  (0 < fuel)%nat -> cpus m !! h = Some c -> lk_locked (lk m l) = 0 ->
  spin_acquire fuel h l e m = Ret tt e (taken h l c m).
Proof.
  intros Hf H Hl. unfold spin_acquire.
  assert (holds m h l = false) as Hh by (unfold holds; by rewrite Hl).
  rewrite (bind_step _ _ _ _ tt e (set_cpu h (pushed c) m))
    by (rewrite (acquire_enter_run h l c e m H); by rewrite Hh).
  destruct fuel as [|f]; [lia|]. cbn [acquire_spin]. unfold test_and_set. ksteps.
  change (lk (set_cpu h (pushed c) m) l) with (lk m l). rewrite Hl. cbn [negb Z.eqb]. ksteps.
  unfold acquire_exit, modify, taken. cbv beta. by rewrite lk_set_lk, set_lk_set_lk.
Qed.

Lemma spin_release_run h l c e m :
  cpus m !! h = Some c -> sie c = false -> 1 <= noff c -> holds m h l = true ->
  spin_release h l e m = Ret tt e (given h l c m).
Proof.
  intros H Hs Hn Hh. unfold spin_release.
  rewrite (bind_step _ _ _ _ tt e (set_lk l (Spinlock (lk_locked (lk m l)) None) m))
    by (rewrite release_enter_run; by rewrite Hh).
  rewrite (release_exit_run h l c) by done. unfold given. by rewrite lk_set_lk, set_lk_set_lk.
Qed.

Lemma rep_taken h l c m e :
  rep h m e -> cpus m !! h = Some c -> l ∉ held e -> rep h (taken h l c m) (locked l e).
Proof.
  intros [Hh (c' & Hc' & Hn & Hs)] Hc Hl. assert (c' = c) as -> by congruence. split.
  - intros l'. unfold taken. rewrite holds_set_lk, held_locked, elem_of_union, elem_of_singleton, Hh.
    destruct (bool_decide_reflect (l = l')) as [<-|E];
      [simpl; rewrite bool_decide_eq_true_2 by done; naive_solver|].
    change (holds (set_cpu h (pushed c) m) h l') with (holds m h l'). naive_solver.
  - exists (pushed c). split; [by eapply set_cpu_lookup|]. split; [|done].
    rewrite held_locked, size_union, size_singleton by set_solver. simpl. lia.
Qed.

Lemma rep_given h l c m e :
  rep h m e -> cpus m !! h = Some c -> l ∈ held e ->
  rep h (given h l c m) (set_held e (held e ∖ {[l]})).
Proof.
  intros [Hh (c' & Hc' & Hn & Hs)] Hc Hl. assert (c' = c) as -> by congruence. split.
  - intros l'. unfold given.
    change (holds (set_cpu h (popped c) ?x) h l') with (holds x h l').
    rewrite holds_set_lk. simpl. rewrite elem_of_difference, elem_of_singleton, Hh.
    destruct (bool_decide_reflect (l = l')) as [<-|E]; naive_solver.
  - exists (popped c). split; [eapply set_cpu_lookup; exact Hc|]. simpl.
    rewrite size_difference by set_solver. rewrite size_singleton.
    assert (size (held e) <> 0)%nat by (apply size_non_empty_iff; set_solver).
    split; [lia|]. intros Hne. by rewrite (proj2 (Z.eqb_neq _ _)).
Qed.

(** ** The invariant of the interleaved system *)

(** The hart has the word of [l] without being recorded in it. *)
Definition mid (x : hart) (l : lock) : Prop := hpc x = Entering l \/ hpc x = Leaving l.
Definition has (x : hart) (l : lock) : Prop := l ∈ owned x \/ mid x l.
Definition pending (p : pc) : Z := match p with Idle => 0 | _ => 1 end.

Definition cpu_ok (x : hart) (c : cpu) : Prop :=
  noff c = Z.of_nat (size (owned x)) + pending (hpc x) /\ (noff c <> 0 -> sie c = false).

Record smp_inv (σ : smp) : Prop := {
  si_len : length (harts σ) = length (cpus (mach σ));
  si_word : forall l, lk (mach σ) l = Spinlock 0 None \/ lk_locked (lk (mach σ) l) = 1;
  si_own : forall h x l, harts σ !! h = Some x -> l ∈ owned x -> lk (mach σ) l = Spinlock 1 (Some h);
  si_mid : forall h x l, harts σ !! h = Some x -> mid x l -> lk (mach σ) l = Spinlock 1 None;
  si_uniq : forall h h' x x' l, harts σ !! h = Some x -> harts σ !! h' = Some x' ->
    has x l -> has x' l -> h = h';
  si_held : forall h l, lk (mach σ) l = Spinlock 1 (Some h) ->
    exists x, harts σ !! h = Some x /\ l ∈ owned x;
  si_cpu : forall h x c, harts σ !! h = Some x -> cpus (mach σ) !! h = Some c -> cpu_ok x c
}.

(** A step of hart [h] that changes at most the word of [l]. *)
Lemma smp_inv_upd σ h x x' c c' l s' m' :
  smp_inv σ -> harts σ !! h = Some x -> cpus (mach σ) !! h = Some c ->
  cpus m' = <[h := c']> (cpus (mach σ)) ->
  (forall l', lk m' l' = if decide (l' = l) then s' else lk (mach σ) l') ->
  (forall l', l' <> l -> l' ∈ owned x' <-> l' ∈ owned x) ->
  (forall l', mid x' l' -> l' = l) ->
  ((s' = lk (mach σ) l /\ (has x' l -> has x l)) \/
   forall h2 x2, h2 <> h -> harts σ !! h2 = Some x2 -> ~ has x2 l) ->
  (s' = Spinlock 0 None \/ lk_locked s' = 1) ->
  (l ∈ owned x' -> s' = Spinlock 1 (Some h)) -> (mid x' l -> s' = Spinlock 1 None) ->
  (forall h2, s' = Spinlock 1 (Some h2) -> (h2 = h /\ l ∈ owned x') \/ (h2 <> h /\ s' = lk (mach σ) l)) ->
  cpu_ok x' c' ->
  smp_inv (Smp m' (<[h := x']> (harts σ))).
Proof.
  intros I Hx Hc Ecpu Elk Hown Hmid Hoth Hw Hl1 Hl2 Hl3 Hcpu.
  pose proof (lookup_lt_Some _ _ _ Hx) as Hlt.
  assert (Hget : forall h2 x2, <[h := x']> (harts σ) !! h2 = Some x2 ->
            (h2 = h /\ x2 = x') \/ (h2 <> h /\ harts σ !! h2 = Some x2)).
  { intros h2 x2 E. apply list_lookup_insert_Some in E as [(-> & <- & _)|[Hne E]]; auto. }
  assert (Hhas : forall l', l' <> l -> has x' l' -> has x l').
  { intros l' Hne [Ho|Hm]; [left; by apply Hown|]. by destruct (Hne (Hmid l' Hm)). }
  assert (Hnot : forall h2 x2, h2 <> h -> harts σ !! h2 = Some x2 -> has x2 l ->
            s' = lk (mach σ) l /\ ~ has x' l).
  { intros h2 x2 Hne E2 H2. destruct Hoth as [(E & Hx')|Hoth]; [|by destruct (Hoth h2 x2 Hne E2)].
    split; [done|]. intros Hx'l. apply Hne, (si_uniq _ I h2 h x2 x l); auto. }
  split; simpl.
  - rewrite length_insert, Ecpu, length_insert. apply I.
  - intros l'. rewrite Elk. destruct (decide (l' = l)); [done|apply I].
  - intros h2 x2 l' E Ho. rewrite Elk. apply Hget in E as [[-> ->]|[Hne E]]; destruct (decide (l' = l)) as [->|Hnl].
    + by apply Hl1.
    + apply (si_own _ I h x l' Hx). by apply Hown.
    + destruct (Hnot h2 x2 Hne E ltac:(by left)) as [-> _]. by apply (si_own _ I h2 x2).
    + by apply (si_own _ I h2 x2).
  - intros h2 x2 l' E Hm. rewrite Elk. apply Hget in E as [[-> ->]|[Hne E]].
    + pose proof (Hmid l' Hm) as ->. rewrite decide_True by done. by apply Hl2.
    + destruct (decide (l' = l)) as [->|Hnl]; [|by apply (si_mid _ I h2 x2)].
      destruct (Hnot h2 x2 Hne E ltac:(by right)) as [-> _]. by apply (si_mid _ I h2 x2).
  - intros h1 h2 x1 x2 l' E1 E2 H1 H2.
    apply Hget in E1 as [[-> ->]|[Hne1 E1]]; apply Hget in E2 as [[-> ->]|[Hne2 E2]]; [done|..].
    + destruct (decide (l' = l)) as [->|Hnl]; [by destruct (Hnot h2 x2 Hne2 E2 H2) as [_ []]|].
      apply (si_uniq _ I h h2 x x2 l'); auto.
    + destruct (decide (l' = l)) as [->|Hnl]; [by destruct (Hnot h1 x1 Hne1 E1 H1) as [_ []]|].
      apply (si_uniq _ I h1 h x1 x l'); auto.
    + by apply (si_uniq _ I h1 h2 x1 x2 l').
  - intros h2 l' E. rewrite Elk in E. destruct (decide (l' = l)) as [->|Hnl].
    + destruct (Hl3 h2 E) as [[-> Ho]|[Hne E']]; [exists x'; split; [by apply list_lookup_insert_eq|done]|].
      rewrite E in E'. destruct (si_held _ I h2 l (eq_sym E')) as (x2 & Ex2 & Ho2).
      exists x2. by rewrite list_lookup_insert_ne.
    + destruct (si_held _ I h2 l' E) as (x2 & Ex2 & Ho2). destruct (decide (h2 = h)) as [->|Hne].
      * exists x'. split; [by apply list_lookup_insert_eq|]. apply Hown; [done|]. by rewrite Hx in Ex2; injection Ex2 as ->.
      * exists x2. by rewrite list_lookup_insert_ne.
  - intros h2 x2 c2 E Ec. rewrite Ecpu in Ec. apply Hget in E as [[-> ->]|[Hne E]].
    + rewrite list_lookup_insert_eq in Ec by (by eapply lookup_lt_Some). by injection Ec as <-.
    + rewrite list_lookup_insert_ne in Ec by done. by apply (si_cpu _ I h2).
Qed.

Lemma smp_inv_boot n : smp_inv (smp_boot n).
Proof.
  assert (Hx : forall h x, replicate n (Hart Idle ∅) !! h = Some x -> x = Hart Idle ∅)
    by (intros h x E; by apply lookup_replicate in E as [-> _]).
  split; simpl.
  - by rewrite !length_replicate.
  - intros l. by left.
  - intros h x l E%Hx. subst. set_solver.
  - intros h x l E%Hx. subst. by intros [?|?].
  - intros h h' x x' l E%Hx. subst. intros _ [?|[?|?]]; [set_solver|done|done].
  - done.
  - intros h x c E%Hx Ec. subst. apply lookup_replicate in Ec as [-> _]. done.
Qed.

Lemma smp_cpu σ h x : smp_inv σ -> harts σ !! h = Some x ->
  exists c, cpus (mach σ) !! h = Some c /\ cpu_ok x c.
Proof.
  intros I Hx. destruct (lookup_lt_is_Some_2 (cpus (mach σ)) h) as [c Hc].
  { rewrite <- (si_len _ I). by eapply lookup_lt_Some. }
  exists c. split; [done|]. by apply (si_cpu _ I h).
Qed.

Lemma holds_spec σ h x l :
  smp_inv σ -> harts σ !! h = Some x -> holds (mach σ) h l = bool_decide (l ∈ owned x).
Proof.
  intros I Hx. unfold holds. destruct (bool_decide_reflect (l ∈ owned x)) as [Hl|Hl].
  - by rewrite (si_own _ I h x l Hx Hl), bool_decide_eq_true_2.
  - destruct (si_word _ I l) as [->|E]; [done|]. destruct (lk (mach σ) l) as [k o] eqn:El. simpl in *. subst.
    rewrite bool_decide_eq_false_2; [by rewrite andb_false_r|]. intros ->.
    destruct (si_held _ I h l El) as (x' & Hx' & Ho). by rewrite Hx in Hx'; injection Hx' as ->.
Qed.

(** No other hart has [l] when its word is free, or when [h] has it. *)
Lemma word_free σ l h x : smp_inv σ -> lk_locked (lk (mach σ) l) = 0 -> harts σ !! h = Some x -> ~ has x l.
Proof.
  intros I Hw Hx [Ho|Hm]; [by rewrite (si_own _ I h x l Hx Ho) in Hw|by rewrite (si_mid _ I h x l Hx Hm) in Hw].
Qed.

Lemma only_me σ l h x : smp_inv σ -> harts σ !! h = Some x -> has x l ->
  forall h2 x2, h2 <> h -> harts σ !! h2 = Some x2 -> ~ has x2 l.
Proof. intros I Hx Hl h2 x2 Hne Hx2 H2. by apply Hne, (si_uniq _ I h2 h x2 x l). Qed.

Lemma lk_case l s m l' : lk (set_lk l s m) l' = if decide (l' = l) then s else lk m l'.
Proof. case_decide; [subst; apply lk_set_lk|by apply lk_set_lk_ne]. Qed.

Lemma lk_same m l l' : lk m l' = if decide (l' = l) then lk m l else lk m l'.
Proof. case_decide; by subst. Qed.

Lemma cpus_same h c m : cpus m !! h = Some c -> cpus m = <[h := c]> (cpus m).
Proof. intros H. by rewrite list_insert_id. Qed.

Lemma smp_acquire_inv σ h l H e' m' :
  smp_inv σ -> harts σ !! h = Some (Hart Idle H) ->
  acquire_enter h l kenv (mach σ) = Ret tt e' m' ->
  smp_inv (Smp m' (<[h := Hart (Spinning l) H]> (harts σ))).
Proof.
  intros I Hx E. destruct (smp_cpu σ h _ I Hx) as (c & Hc & Hn & Hs).
  rewrite (acquire_enter_run h l c _ _ Hc) in E. destruct (holds _ _ _); [done|]. injection E as <- <-.
  eapply (smp_inv_upd σ h _ _ c _ l (lk (mach σ) l) _ I Hx Hc); simpl; try done.
  - intros l'. exact (lk_same (mach σ) _ l').
  - intros l' [?|?]; done.
  - left. split; [done|]. by intros [?|[?|?]]; [left|..].
  - apply I.
  - intros Ho. by apply (si_own _ I h _ l Hx).
  - by intros [?|?].
  - intros h2 E. destruct (decide (h2 = h)) as [->|Hne]; [|by right]. left. split; [done|].
    destruct (si_held _ I h l E) as (x2 & Hx2 & Ho). by rewrite Hx in Hx2; injection Hx2 as <-.
  - split; [|done]. simpl in *. lia.
Qed.

Lemma smp_spin_inv σ h l H old e' m' :
  smp_inv σ -> harts σ !! h = Some (Hart (Spinning l) H) ->
  test_and_set l kenv (mach σ) = Ret old e' m' -> old <> 0 ->
  smp_inv (Smp m' (harts σ)).
Proof.
  intros I Hx E Hold. destruct (smp_cpu σ h _ I Hx) as (c & Hc & Hn & Hs).
  unfold test_and_set, bind, gets, modify, ret in E. simpl in E. injection E as E0 <- <-.
  assert (Ew : lk_locked (lk (mach σ) l) = 1) by (destruct (si_word _ I l) as [E|E]; [by rewrite E in E0|done]).
  replace (harts σ) with (<[h := Hart (Spinning l) H]> (harts σ)) by (by apply list_insert_id).
  assert (Es : Spinlock 1 (lk_cpu (lk (mach σ) l)) = lk (mach σ) l) by (destruct (lk (mach σ) l); simpl in *; congruence).
  eapply (smp_inv_upd σ h _ _ c c l (lk (mach σ) l) _ I Hx Hc); simpl; try done.
  - by apply cpus_same.
  - intros l'. rewrite lk_case. by rewrite Es.
  - by intros l' [?|?].
  - left. done.
  - apply I.
  - intros Ho. by apply (si_own _ I h _ l Hx).
  - by intros [?|?].
  - intros h2 E. destruct (decide (h2 = h)) as [->|Hne]; [|by right]. left. split; [done|].
    destruct (si_held _ I h l E) as (x2 & Hx2 & Ho). by rewrite Hx in Hx2; injection Hx2 as <-.
Qed.

Lemma smp_take_inv σ h l H e' m' :
  smp_inv σ -> harts σ !! h = Some (Hart (Spinning l) H) ->
  test_and_set l kenv (mach σ) = Ret 0 e' m' ->
  smp_inv (Smp m' (<[h := Hart (Entering l) H]> (harts σ))).
Proof.
  intros I Hx E. destruct (smp_cpu σ h _ I Hx) as (c & Hc & Hn & Hs).
  unfold test_and_set, bind, gets, modify, ret in E. simpl in E. injection E as E0 <- <-.
  assert (Ew : lk (mach σ) l = Spinlock 0 None) by (destruct (si_word _ I l) as [E|E]; [done|lia]).
  eapply (smp_inv_upd σ h _ _ c c l (Spinlock 1 None) _ I Hx Hc); simpl; try done.
  - by apply cpus_same.
  - intros l'. rewrite lk_case. by rewrite Ew.
  - by intros l' [E|E]; inversion E.
  - right. intros h2 x2 _ Hx2. by apply (word_free σ l h2).
  - by right.
  - intros Ho. destruct (word_free σ l h _ I E0 Hx). by left.
Qed.

Lemma smp_enter_inv σ h l H e' m' :
  smp_inv σ -> harts σ !! h = Some (Hart (Entering l) H) ->
  acquire_exit h l kenv (mach σ) = Ret tt e' m' ->
  smp_inv (Smp m' (<[h := Hart Idle ({[l]} ∪ H)]> (harts σ))).
Proof.
  intros I Hx E. destruct (smp_cpu σ h _ I Hx) as (c & Hc & Hn & Hs).
  unfold acquire_exit, modify in E. injection E as <- <-.
  assert (Hm : mid (Hart (Entering l) H) l) by (by left).
  pose proof (si_mid _ I h _ l Hx Hm) as Ew. rewrite Ew.
  eapply (smp_inv_upd σ h _ _ c c l (Spinlock 1 (Some h)) _ I Hx Hc); simpl; try done.
  - by apply cpus_same.
  - intros l'. apply lk_case.
  - intros l' Hne. set_solver.
  - by intros l' [?|?].
  - right. apply (only_me σ l h _ I Hx). by right.
  - by right.
  - by intros [?|?].
  - intros h2 [= ->]. left. set_solver.
  - split; [|done]. simpl in *. rewrite size_union, size_singleton; [lia|].
    apply disjoint_singleton_l. intros Ho. by rewrite (si_own _ I h _ l Hx Ho) in Ew.
Qed.

Lemma smp_release_inv σ h l H e' m' :
  smp_inv σ -> harts σ !! h = Some (Hart Idle H) ->
  release_enter h l kenv (mach σ) = Ret tt e' m' ->
  smp_inv (Smp m' (<[h := Hart (Leaving l) (H ∖ {[l]})]> (harts σ))).
Proof.
  intros I Hx E. destruct (smp_cpu σ h _ I Hx) as (c & Hc & Hn & Hs).
  rewrite release_enter_run, (holds_spec σ h _ l I Hx) in E. case_bool_decide as Ho; [|done]. injection E as <- <-.
  simpl in Ho. rewrite (si_own _ I h _ l Hx Ho).
  eapply (smp_inv_upd σ h _ _ c c l (Spinlock 1 None) _ I Hx Hc); simpl; try done.
  - by apply cpus_same.
  - intros l'. apply lk_case.
  - intros l' Hne. set_solver.
  - by intros l' [E|E]; inversion E.
  - right. apply (only_me σ l h _ I Hx). by left.
  - by right.
  - set_solver.
  - split; [|done]. simpl in *. rewrite size_difference by set_solver. rewrite size_singleton.
    assert (size H <> 0)%nat by (apply size_non_empty_iff; set_solver). lia.
Qed.

Lemma smp_leave_inv σ h l H e' m' :
  smp_inv σ -> harts σ !! h = Some (Hart (Leaving l) H) ->
  release_exit h l kenv (mach σ) = Ret tt e' m' ->
  smp_inv (Smp m' (<[h := Hart Idle H]> (harts σ))).
Proof.
  intros I Hx E. destruct (smp_cpu σ h _ I Hx) as (c & Hc & Hn & Hs).
  assert (Hm : mid (Hart (Leaving l) H) l) by (by right).
  pose proof (si_mid _ I h _ l Hx Hm) as Ew. simpl in Hn.
  rewrite (release_exit_run h l c) in E by (done || (apply Hs; lia) || lia). injection E as <- <-. rewrite Ew.
  eapply (smp_inv_upd σ h _ _ c _ l (Spinlock 0 None) _ I Hx Hc); simpl; try done.
  - intros l'. apply lk_case.
  - by intros l' [?|?].
  - right. apply (only_me σ l h _ I Hx). by right.
  - by left.
  - intros Ho. by rewrite (si_own _ I h _ l Hx Ho) in Ew.
  - by intros [?|?].
  - split; [simpl; lia|]. simpl. intros Hne. by rewrite (proj2 (Z.eqb_neq _ _)).
Qed.

Lemma smp_intr_inv σ h (b : bool) e' m' :
  smp_inv σ -> harts σ !! h = Some (Hart Idle ∅) ->
  (if b then intr_on h else intr_off h) kenv (mach σ) = Ret tt e' m' ->
  smp_inv (Smp m' (harts σ)).
Proof.
  intros I Hx E. destruct (smp_cpu σ h _ I Hx) as (c & Hc & Hn & Hs).
  assert (E' : m' = set_cpu h (Cpu (noff c) (intena c) b) (mach σ)).
  { destruct b; unfold intr_on, intr_off in E; rewrite (upd_cpu_run h c _ _ _ Hc) in E; by injection E. }
  subst m'. replace (harts σ) with (<[h := Hart Idle ∅]> (harts σ)) by (by apply list_insert_id).
  eapply (smp_inv_upd σ h _ _ c _ KmemLock (lk (mach σ) KmemLock) _ I Hx Hc); simpl; try done.
  - intros l'. exact (lk_same (mach σ) _ l').
  - by intros l' [?|?].
  - by left.
  - apply I.
  - by intros [?|?].
  - intros h2 E2. destruct (decide (h2 = h)) as [->|Hne]; [|by right]. exfalso.
    destruct (si_held _ I h _ E2) as (x2 & Hx2 & Ho). rewrite Hx in Hx2. injection Hx2 as <-. set_solver.
Qed.

Lemma smp_inv_step σ σ' : smp_inv σ -> smp_step σ σ' -> smp_inv σ'.
Proof.
  intros I S. destruct S;
    eauto using smp_acquire_inv, smp_spin_inv, smp_take_inv, smp_enter_inv, smp_release_inv, smp_leave_inv, smp_intr_inv.
Qed.

Lemma smp_reachable_inv n σ : smp_reachable n σ -> smp_inv σ.
Proof. induction 1; [apply smp_inv_boot|by eapply smp_inv_step]. Qed.

(** ** The theorems *)


(** C11 Mutual exclusion on any number of harts that interleave at every access
    to a lock word: no two harts own the same lock, [holding] is true exactly
    for the locks the hart owns, and a hart that owns or is acquiring or
    releasing a lock has its interrupts disabled, with [noff] the number of its
    locks. *)
Theorem spin_mutex n σ :
  smp_reachable n σ ->
  (forall h h' x x', h <> h' -> harts σ !! h = Some x -> harts σ !! h' = Some x' ->
     owned x ## owned x') /\
  (forall h x c, harts σ !! h = Some x -> cpus (mach σ) !! h = Some c ->
     (forall l e, spin_holding h l e (mach σ) = Ret (bool_decide (l ∈ owned x)) e (mach σ)) /\
     noff c = Z.of_nat (size (owned x)) + pending (hpc x) /\
     (owned x <> ∅ \/ hpc x <> Idle -> sie c = false)).
Proof.
  intros I%smp_reachable_inv. split.
  - intros h h' x x' Hne Hx Hx' l Hl Hl'. apply Hne, (si_uniq _ I h h' x x' l); [done|done|by left|by left].
  - intros h x c Hx Hc. destruct (si_cpu _ I h x c Hx Hc) as [Hn Hs]. split; [|split; [done|]].
    + intros l e. by rewrite spin_holding_run, (holds_spec σ h x l I Hx).
    + intros Hor. apply Hs. rewrite Hn. destruct Hor as [Ho|Hp].
      * assert (size (owned x) <> 0)%nat by (apply size_non_empty_iff; by rewrite leibniz_equiv_iff).
        destruct (hpc x); simpl; lia.
      * destruct (hpc x); simpl; [done|lia..].
Qed.

(** ** Witnesses *)

(** Two harts; hart 0 has taken [KmemLock] and hart 1 spins for it. *)
Definition demo_machine : machine :=
  Machine {[KmemLock := Spinlock 1 (Some 0%nat)]} [Cpu 1 true false; Cpu 1 true false].
Definition demo_state (w : gmap lock spinlock) (n : Z) (x y : hart) : smp :=
  Smp (Machine w [Cpu 1 false false; Cpu n false false]) [x; y].
Definition demo_smp1 : smp := demo_state ∅ 0 (Hart (Spinning KmemLock) ∅) (Hart Idle ∅).
Definition demo_smp2 : smp := demo_state ∅ 1 (Hart (Spinning KmemLock) ∅) (Hart (Spinning KmemLock) ∅).
Definition demo_smp3 : smp :=
  demo_state (<[KmemLock := Spinlock 1 None]> ∅) 1 (Hart (Entering KmemLock) ∅) (Hart (Spinning KmemLock) ∅).
Definition demo_smp : smp :=
  demo_state (<[KmemLock := Spinlock 1 (Some 0%nat)]> (<[KmemLock := Spinlock 1 None]> ∅)) 1
    (Hart Idle ({[KmemLock]} ∪ ∅)) (Hart (Spinning KmemLock) ∅).

Lemma demo_smp_reachable : smp_reachable 2 demo_smp.
Proof.
  apply (smp_next 2 demo_smp3); [apply (smp_next 2 demo_smp2); [apply (smp_next 2 demo_smp1);
    [apply (smp_next 2 (smp_boot 2)); [apply smp_init|]|]|]|].
  - exact (smp_acquire 0 KmemLock ∅ kenv (mach demo_smp1) (smp_boot 2) eq_refl eq_refl).
  - exact (smp_acquire 1 KmemLock ∅ kenv (mach demo_smp2) demo_smp1 eq_refl eq_refl).
  - exact (smp_take 0 KmemLock ∅ kenv (mach demo_smp3) demo_smp2 eq_refl eq_refl).
  - exact (smp_enter 0 KmemLock ∅ kenv (mach demo_smp) demo_smp3 eq_refl eq_refl).
Qed.

Lemma spin_mutex_witness :
  smp_reachable 2 demo_smp /\
  spin_holding 0 KmemLock kenv (mach demo_smp) = Ret true kenv (mach demo_smp) /\
  spin_holding 1 KmemLock kenv (mach demo_smp) = Ret false kenv (mach demo_smp).
Proof.
  split; [apply demo_smp_reachable|].
  destruct (spin_mutex 2 demo_smp demo_smp_reachable) as [_ H]. split.
  - destruct (H 0%nat _ _ eq_refl eq_refl) as [-> _]. reflexivity.
  - destruct (H 1%nat _ _ eq_refl eq_refl) as [-> _]. reflexivity.
Defined.

Lemma demo_rep : rep 0 demo_machine (locked KmemLock kenv).
Proof.
  split; [|exists (Cpu 1 true false); split; [done|split; [by_eval|done]]].
  intros l. rewrite held_locked. simpl. unfold holds, lk. simpl.
  destruct (decide (l = KmemLock)) as [->|Hne].
  - split; [done|set_solver].
  - rewrite lookup_singleton_ne by done. split; [set_solver|done].
Qed.

