(* ===== verification/Sleeplock.v ===== *)
(** * kernel/sleeplock.c: long-term locks

    A sleep lock is a flag and the pid of its holder, guarded by a spin lock;
    waiters sleep on the lock's address.  All sleep locks of the kernel (one per
    buffer and per in-memory inode) are in one table. *)

From stdpp Require Import base gmap sets list strings.
From Stdlib Require Import ZArith Lia.
From S2P Require Import Prelude Kernel Sched.

(** ** Definitions *)

#[export] Instance sleeplock_id_countable : Countable sleeplock_id :=
  inj_countable (fun l => match l with BufLock i => (0%nat, i) | InodeLock i => (1%nat, i) end)
    (fun c => Some match c with (0%nat, i) => BufLock i | (_, i) => InodeLock i end)
    (fun l => match l with BufLock _ | InodeLock _ => eq_refl end).

Record sleeplock : Type := Sleeplock { sl_locked : Z; sl_pid : Z }.

Abbreviation sleeplocks := (gmap sleeplock_id sleeplock).

Definition slock (t : sleeplocks) (l : sleeplock_id) : sleeplock := default (Sleeplock 0 0) (t !! l).
Definition set_slock (l : sleeplock_id) (s : sleeplock) : K sleeplocks unit :=
  modify (fun t => <[l := s]> t).

Definition initsleeplock (l : sleeplock_id) : K sleeplocks unit :=
  initlock (SleepLk l) ;;
  set_slock l (Sleeplock 0 0).

(** [while (lk->locked) sleep(lk, &lk->lk);] and what follows it *)
Definition acquiresleep_loop (l : sleeplock_id) : K sleeplocks unit :=
  s <- gets (fun t => slock t l) ;;
  if truth (sl_locked s) then sleep (ChanSleepLock l) (SleepLk l)
  else
    p <- curproc ;;
    q <- getp p ;;
    set_slock l (Sleeplock 1 (p_pid q)) ;;
    release (SleepLk l).

Definition acquiresleep (l : sleeplock_id) : K sleeplocks unit :=
  acquire (SleepLk l) ;;
  acquiresleep_loop l.

(** A process that slept in [acquiresleep] runs again. *)
Definition acquiresleep_resume (l : sleeplock_id) : K sleeplocks unit :=
  sleep_resume (SleepLk l) ;;
  acquiresleep_loop l.

Definition releasesleep (l : sleeplock_id) : K sleeplocks unit :=
  acquire (SleepLk l) ;;
  set_slock l (Sleeplock 0 0) ;;
  wakeup (ChanSleepLock l) ;;
  release (SleepLk l).

Definition holdingsleep (l : sleeplock_id) : K sleeplocks bool :=
  acquire (SleepLk l) ;;
  s <- gets (fun t => slock t l) ;;
  r <- (if truth (sl_locked s) then
          p <- curproc ;;
          q <- getp p ;;
          ret (sl_pid s =? p_pid q)
        else ret false) ;;
  release (SleepLk l) ;;
  ret r.

(** ** Lemmas *)

(** Process [p] with pid [pid] runs kernel code, and holds no process lock. *)
Record runs (e : env) (p : nat) (pid : Z) : Prop := {
  rn_cur : cproc e = Some p;
  rn_proc : exists q, procs e !! p = Some q /\ p_pid q = pid;
  rn_len : procs_ok e;
  rn_free : forall i, ProcLock i ∉ held e
}.

(** Nobody sleeps on [c]. *)
Definition no_waiter (e : env) (c : channel) : Prop :=
  forall i q, procs e !! i = Some q -> ~ (p_state q = SLEEPING /\ p_chan q = c).

Lemma runs_locked e p pid l : (forall i, l <> ProcLock i) -> runs e p pid -> runs (locked l e) p pid.
Proof.
  intros Hl [Hc Hq Hn Hf]. split; try done. intros i. apply not_held_locked; [done|]. intros E. by apply (Hl i).
Qed.

Lemma wake_none e c : no_waiter e c -> wake_all (cproc e) c (procs e) = procs e.
Proof.
  intros H. unfold wake_all. apply list_eq. intros i. rewrite list_lookup_imap.
  destruct (procs e !! i) as [q|] eqn:Eq; [|done]. simpl. f_equal. case_bool_decide; [done|].
  unfold woken. destruct (bool_decide (p_state q = SLEEPING)) eqn:E1; [|done].
  destruct (bool_decide (p_chan q = c)) eqn:E2; [|done]. zbool. by destruct (H i q Eq).
Qed.

(** A wakeup nobody waits for. *)
Lemma wakeup_idle {T} c e p pid (t : T) :
  runs e p pid -> no_waiter e c -> wakeup c e t = Ret tt e t.
Proof.
  intros R H. rewrite wakeup_run; [by rewrite wake_none, set_procs_procs|apply R|].
  intros i _. apply R.
Qed.

Lemma no_waiter_locked e c l : no_waiter e c -> no_waiter (locked l e) c.
Proof. done. Qed.

#[export] Hint Resolve no_waiter_locked : locks.

Lemma slock_insert t l s : slock (<[l := s]> t) l = s.
Proof. unfold slock. by rewrite lookup_insert_eq. Qed.

Lemma slock_insert_ne t l l' s : l <> l' -> slock (<[l := s]> t) l' = slock t l'.
Proof. intros H. unfold slock. by rewrite lookup_insert_ne. Qed.

Lemma acquiresleep_run l e p pid t :
  runs e p pid -> SleepLk l ∉ held e -> sl_locked (slock t l) = 0 ->
  acquiresleep l e t = Ret tt e (<[l := Sleeplock 1 pid]> t).
Proof.
  intros R Hl Hs. unfold acquiresleep, acquiresleep_loop. ksteps. rewrite Hs. cbn [truth negb Z.eqb].
  destruct (rn_proc _ _ _ R) as (q & Hq & <-).
  rewrite (bind_step _ _ _ _ _ _ _ (curproc_run p (locked (SleepLk l) e) t (rn_cur _ _ _ R))).
  rewrite (bind_step _ _ _ _ _ _ _ (getp_run p q (locked (SleepLk l) e) t Hq)).
  unfold set_slock. by ksteps.
Qed.

Lemma releasesleep_run l e p pid t :
  runs e p pid -> SleepLk l ∉ held e -> no_waiter e (ChanSleepLock l) ->
  releasesleep l e t = Ret tt e (<[l := Sleeplock 0 0]> t).
Proof.
  intros R Hl Hw. unfold releasesleep, set_slock. ksteps.
  rewrite (bind_step _ _ _ _ _ _ _ (wakeup_idle (ChanSleepLock l) (locked (SleepLk l) e) p pid _
             (runs_locked e p pid (SleepLk l) ltac:(done) R) Hw)). by ksteps.
Qed.

Lemma holdingsleep_run l e p pid t :
  runs e p pid -> SleepLk l ∉ held e ->
  holdingsleep l e t = Ret (truth (sl_locked (slock t l)) && (sl_pid (slock t l) =? pid)) e t.
Proof.
  intros R Hl. unfold holdingsleep. ksteps. destruct (rn_proc _ _ _ R) as (q & Hq & <-).
  destruct (truth _); ksteps; [|done].
  rewrite (bind_step _ _ _ _ _ _ _ (curproc_run p (locked (SleepLk l) e) t (rn_cur _ _ _ R))). ksteps.
  rewrite (bind_step _ _ _ _ _ _ _ (getp_run p q (locked (SleepLk l) e) t Hq)). by ksteps.
Qed.
