(* ===== verification/Bytes.v ===== *)
(** * Bytes of disk blocks and of C structs

    A disk block is a list of bytes.  Fields of the structs stored in it are
    little endian, at the offsets the C compiler gives them. *)

From stdpp Require Import base gmap sets list strings.
From Stdlib Require Import ZArith Lia.
From S2P Require Import Prelude.

(** ** Definitions *)

(** The [n] bytes of [v], and the value of a list of bytes. *)
Fixpoint le (n : nat) (v : Z) : list Z :=
  match n with
  | O => []
  | S k => v mod 256 :: le k (v / 256)
  end.
Fixpoint of_le (l : list Z) : Z :=
  match l with
  | [] => 0
  | x :: l' => x + 256 * of_le l'
  end.

(** [n] bytes of [d] from [off] on, and [d] with [l] written at [off]. *)
Definition slice (off n : nat) (d : list Z) : list Z := take n (drop off d).
Definition splice (off : nat) (l d : list Z) : list Z := take off d ++ l ++ drop (off + length l) d.

Definition ld (n off : nat) (d : list Z) : Z := of_le (slice off n d).
Definition st (n off : nat) (v : Z) (d : list Z) : list Z := splice off (le n v) d.

(** ** Lemmas *)

Lemma length_le n v : length (le n v) = n.
Proof. revert v. induction n as [|n IH]; intros v; simpl; [done|]. by rewrite IH. Qed.

Lemma of_le_le n v : of_le (le n v) = v mod 256 ^ Z.of_nat n.
Proof.
  revert v. induction n as [|n IH]; intros v; simpl of_le; [by rewrite Z.mod_1_r|]. rewrite IH.
  rewrite Nat2Z.inj_succ, Z.pow_succ_r by lia. rewrite Z.rem_mul_r by lia. lia.
Qed.

Lemma of_le_range l : Forall (fun x => 0 <= x < 256) l -> 0 <= of_le l < 256 ^ Z.of_nat (length l).
Proof.
  induction 1 as [|x l Hx Hl IH]; simpl of_le; [simpl; lia|]. simpl length.
  rewrite Nat2Z.inj_succ, Z.pow_succ_r by lia. nia.
Qed.

Lemma le_of_le l : Forall (fun x => 0 <= x < 256) l -> le (length l) (of_le l) = l.
Proof.
  induction 1 as [|x l Hx Hl IH]; simpl; [done|]. f_equal.
  - symmetry. apply (Z.mod_unique _ _ (of_le l)); lia.
  - replace ((x + 256 * of_le l) / 256) with (of_le l); [done|]. apply (Z.div_unique _ _ _ x); lia.
Qed.

Lemma le_mod n v : le n (v mod 256 ^ Z.of_nat n) = le n v.
Proof.
  revert v. induction n as [|n IH]; intros v; [done|]. simpl le.
  rewrite Nat2Z.inj_succ, Z.pow_succ_r by lia. rewrite Z.rem_mul_r by lia.
  f_equal.
  - symmetry. apply (Z.mod_unique _ _ ((v / 256) mod 256 ^ Z.of_nat n)); [|lia].
    left. apply Z.mod_pos_bound. lia.
  - rewrite <- (IH (v / 256)). f_equal. symmetry. apply (Z.div_unique _ _ _ (v mod 256)); [|lia].
    left. apply Z.mod_pos_bound. lia.
Qed.

Lemma le_bytes n v : Forall (fun x => 0 <= x < 256) (le n v).
Proof.
  revert v. induction n as [|n IH]; intros v; simpl; [constructor|]. constructor; [apply Z.mod_pos_bound; lia|apply IH].
Qed.

Lemma length_splice off l d : (off + length l <= length d)%nat -> length (splice off l d) = length d.
Proof. intros H. unfold splice. rewrite !length_app, length_take, length_drop. lia. Qed.

Lemma length_st n off v d : (off + n <= length d)%nat -> length (st n off v d) = length d.
Proof. intros H. unfold st. apply length_splice. by rewrite length_le. Qed.

Lemma length_slice off n d : (off + n <= length d)%nat -> length (slice off n d) = n.
Proof. intros H. unfold slice. rewrite length_take, length_drop. lia. Qed.

Lemma lookup_splice off l d i :
  (off + length l <= length d)%nat ->
  splice off l d !! i = if decide (off <= i < off + length l)%nat then l !! (i - off)%nat else d !! i.
Proof.
  intros H. unfold splice. case_decide as Hi.
  - rewrite lookup_app_r by (rewrite length_take; lia). rewrite length_take.
    rewrite lookup_app_l by lia. f_equal. lia.
  - destruct (decide (i < off)%nat) as [Hlt|Hge].
    + rewrite lookup_app_l by (rewrite length_take; lia). by rewrite lookup_take_lt.
    + rewrite lookup_app_r by (rewrite length_take; lia). rewrite length_take.
      rewrite lookup_app_r by lia. rewrite lookup_drop. f_equal. lia.
Qed.

Lemma lookup_slice off n d i : (i < n)%nat -> slice off n d !! i = d !! (off + i)%nat.
Proof. intros H. unfold slice. by rewrite lookup_take_lt, lookup_drop. Qed.

Lemma slice_ext off n d d' :
  (off + n <= length d)%nat -> (off + n <= length d')%nat ->
  (forall i, (off <= i < off + n)%nat -> d !! i = d' !! i) -> slice off n d = slice off n d'.
Proof.
  intros H1 H2 H. apply list_eq. intros i. destruct (decide (i < n)%nat) as [Hi|Hi].
  - rewrite !lookup_slice by done. apply H. lia.
  - rewrite !lookup_ge_None_2; [done|rewrite length_slice; lia..].
Qed.

(** Reading back what was written, and reading elsewhere. *)
Lemma slice_splice off l d :
  (off + length l <= length d)%nat -> slice off (length l) (splice off l d) = l.
Proof.
  intros H. apply list_eq. intros i. destruct (decide (i < length l)%nat) as [Hi|Hi].
  - rewrite lookup_slice, lookup_splice by done. rewrite decide_True by lia. f_equal. lia.
  - rewrite !lookup_ge_None_2; [done|lia|]. rewrite length_slice; [lia|]. by rewrite length_splice.
Qed.

Lemma slice_splice_ne off n off' l d :
  (off' + length l <= length d)%nat -> (off + n <= length d)%nat ->
  (off + n <= off' \/ off' + length l <= off)%nat ->
  slice off n (splice off' l d) = slice off n d.
Proof.
  intros H1 H2 H3. apply slice_ext; [by rewrite length_splice|done|].
  intros i Hi. rewrite lookup_splice by done. rewrite decide_False by lia. done.
Qed.

Lemma ld_st n off v d : (off + n <= length d)%nat -> ld n off (st n off v d) = v mod 256 ^ Z.of_nat n.
Proof.
  intros H. unfold ld, st. rewrite <- (length_le n v) at 1. rewrite slice_splice by (by rewrite length_le).
  apply of_le_le.
Qed.

Lemma ld_st_ne n off n' off' v d :
  (off' + n' <= length d)%nat -> (off + n <= length d)%nat ->
  (off + n <= off' \/ off' + n' <= off)%nat -> ld n off (st n' off' v d) = ld n off d.
Proof. intros H1 H2 H3. unfold ld, st. by rewrite slice_splice_ne by (rewrite ?length_le; done). Qed.

Lemma splice_all l d : length l = length d -> splice 0 l d = l.
Proof. intros H. unfold splice. rewrite Nat.add_0_l, H, drop_all, app_nil_r. done. Qed.

Lemma splice_slice off n d : (off + n <= length d)%nat -> splice off (slice off n d) d = d.
Proof.
  intros H. apply list_eq. intros i. rewrite lookup_splice; rewrite length_slice by done; [|done].
  case_decide as Hi; [|done]. rewrite lookup_slice by lia. f_equal. lia.
Qed.

(** A signed 32-bit field. *)
Definition ld_int (off : nat) (d : list Z) : Z := i32 (ld 4 off d).

Lemma ld_int_st off v d :
  (off + 4 <= length d)%nat -> - 2 ^ 31 <= v < 2 ^ 31 -> ld_int off (st 4 off v d) = v.
Proof.
  intros H Hv. unfold ld_int. rewrite ld_st by done. change (256 ^ Z.of_nat 4) with (2 ^ 32).
  unfold sint_wrap. change (32 - 1) with 31.
  rewrite Zplus_mod_idemp_l. rewrite Z.mod_small; lia.
Qed.

Lemma ld_int_st_ne off n' off' v d :
  (off' + n' <= length d)%nat -> (off + 4 <= length d)%nat ->
  (off + 4 <= off' \/ off' + n' <= off)%nat -> ld_int off (st n' off' v d) = ld_int off d.
Proof. intros H1 H2 H3. unfold ld_int. by rewrite ld_st_ne. Qed.

Create HintDb len.
#[export] Hint Rewrite @length_app @length_take @length_drop @length_fmap @length_replicate
  @length_insert @length_alter @length_reverse length_le : len.
