(* ===== verification/Bio.v ===== *)
(** * kernel/bio.c: the buffer cache

    The buffers are an array, linked in a ring through [prev]/[next] in order of
    use; index [NBUF] is [bcache.head].  The disk is its initial contents and the
    writes that reached it, latest first, so that a crash can be placed between
    any two of them.  [disk_rw] is the contract of the disk driver: the transfer
    has happened when it returns ([Virtio] relates the driver to it). *)

From stdpp Require Import base gmap sets list strings.
From Stdlib Require Import ZArith Lia.
From S2P Require Import Prelude Kernel Sched Sleeplock.

(** ** Definitions *)

Definition NBUF : nat := 30.
Definition BSIZE : Z := 1024.
Abbreviation bsize := 1024%nat.

(** [struct buf] (its sleep lock is [BufLock i] of the lock table) *)
Record buf : Type := Buf {
  b_valid : Z;
  b_dev : Z;
  b_blockno : Z;
  b_refcnt : Z;
  b_prev : nat;
  b_next : nat;
  b_data : list Z
}.

Definition set_valid (v : Z) (b : buf) : buf :=
  Buf v (b_dev b) (b_blockno b) (b_refcnt b) (b_prev b) (b_next b) (b_data b).
Definition set_ident (dev blockno : Z) (b : buf) : buf :=
  Buf (b_valid b) dev blockno (b_refcnt b) (b_prev b) (b_next b) (b_data b).
Definition set_refcnt (r : Z) (b : buf) : buf :=
  Buf (b_valid b) (b_dev b) (b_blockno b) r (b_prev b) (b_next b) (b_data b).
Definition set_prev (p : nat) (b : buf) : buf :=
  Buf (b_valid b) (b_dev b) (b_blockno b) (b_refcnt b) p (b_next b) (b_data b).
Definition set_next (n : nat) (b : buf) : buf :=
  Buf (b_valid b) (b_dev b) (b_blockno b) (b_refcnt b) (b_prev b) n (b_data b).
Definition set_data (d : list Z) (b : buf) : buf :=
  Buf (b_valid b) (b_dev b) (b_blockno b) (b_refcnt b) (b_prev b) (b_next b) d.

(** The disk: block number to contents. *)
Record disk : Type := Disk { d_init : Z -> list Z; d_writes : list (Z * list Z) }.

Definition overlay (ws : list (Z * list Z)) (init : Z -> list Z) (b : Z) : list Z :=
  match find (fun w => fst w =? b) ws with
  | Some w => snd w
  | None => init b
  end.
Definition disk_get (d : disk) (b : Z) : list Z := overlay (d_writes d) (d_init d) b.
Definition disk_put (b : Z) (v : list Z) (d : disk) : disk := Disk (d_init d) ((b, v) :: d_writes d).

Record bio : Type := Bio { bcache : list buf; bio_locks : sleeplocks; bio_disk : disk }.

Definition set_bcache (s : bio) (bs : list buf) : bio := Bio bs (bio_locks s) (bio_disk s).
Definition set_disk (s : bio) (d : disk) : bio := Bio (bcache s) (bio_locks s) d.

#[export] Instance bio_sleeplocks : Part bio sleeplocks :=
  {| part_get := bio_locks;
     part_put := fun t s => Bio (bcache s) t (bio_disk s);
     part_get_put := fun _ _ => eq_refl;
     part_put_get := fun s => match s with Bio _ _ _ => eq_refl end;
     part_put_put := fun _ _ _ => eq_refl |}.

Definition getb (i : nat) : K bio buf :=
  fun e s => match bcache s !! i with
             | Some b => Ret b e s
             | None => Undef "buffer index"
             end.
Definition updb (i : nat) (f : buf -> buf) : K bio unit :=
  modify (fun s => set_bcache s (alter f i (bcache s))).

(** [bcache.head] *)
Definition head : nat := NBUF.

(** [b->next->prev = b->prev; b->prev->next = b->next;] *)
Definition unlink_buf (i : nat) : K bio unit :=
  b <- getb i ;;
  updb (b_next b) (set_prev (b_prev b)) ;;
  updb (b_prev b) (set_next (b_next b)).

(** [b->next = bcache.head.next; b->prev = &bcache.head;
    bcache.head.next->prev = b; bcache.head.next = b;] *)
Definition link_front (i : nat) : K bio unit :=
  h <- getb head ;;
  updb i (set_next (b_next h)) ;;
  updb i (set_prev head) ;;
  h <- getb head ;;
  updb (b_next h) (set_prev i) ;;
  updb head (set_next i).

Definition binit : K bio unit :=
  initlock BcacheLock ;;
  updb head (set_prev head) ;;
  updb head (set_next head) ;;
  for_each (seq 0 NBUF) (fun i =>
    h <- getb head ;;
    updb i (set_next (b_next h)) ;;
    updb i (set_prev head) ;;
    zoom (initsleeplock (BufLock i)) ;;
    h <- getb head ;;
    updb (b_next h) (set_prev i) ;;
    updb head (set_next i)).

(** [for(b = ...; b != &bcache.head; b = link(b)) if(P(b)) ...]: the ring has
    [NBUF] buffers besides the head, which bounds the turns. *)
Fixpoint scan (fuel : nat) (link : buf -> nat) (bs : list buf) (i : nat) (P : buf -> bool) : option nat :=
  match fuel with
  | O => None
  | S f =>
      if (i =? head)%nat then None
      else
        match bs !! i with
        | None => None
        | Some b => if P b then Some i else scan f link bs (link b) P
        end
  end.

Definition bget (dev blockno : Z) : K bio nat :=
  acquire BcacheLock ;;
  h <- getb head ;;
  hit <- gets (fun s => scan (S NBUF) b_next (bcache s) (b_next h)
                          (fun b => (b_dev b =? dev) && (b_blockno b =? blockno))) ;;
  match hit with
  | Some i =>
      updb i (fun b => set_refcnt (u32 (b_refcnt b + 1)) b) ;;
      release BcacheLock ;;
      zoom (acquiresleep (BufLock i)) ;;
      ret i
  | None =>
      lru <- gets (fun s => scan (S NBUF) b_prev (bcache s) (b_prev h) (fun b => b_refcnt b =? 0)) ;;
      match lru with
      | Some i =>
          updb i (set_ident dev blockno) ;;
          updb i (set_valid 0) ;;
          updb i (set_refcnt 1) ;;
          release BcacheLock ;;
          zoom (acquiresleep (BufLock i)) ;;
          ret i
      | None => panic "bget: no buffers"
      end
  end.

(** The contract of [virtio_disk_rw(b, write)]. *)
Definition disk_rw (i : nat) (write : bool) : K bio unit :=
  b <- getb i ;;
  if write then modify (fun s => set_disk s (disk_put (b_blockno b) (b_data b) (bio_disk s)))
  else modify (fun s => set_bcache s (alter (set_data (disk_get (bio_disk s) (b_blockno b))) i (bcache s))).

Definition bread (dev blockno : Z) : K bio nat :=
  i <- bget dev blockno ;;
  b <- getb i ;;
  when (negb (truth (b_valid b)))
    (disk_rw i false ;;
     updb i (set_valid 1)) ;;
  ret i.

Definition bwrite (i : nat) : K bio unit :=
  h <- zoom (holdingsleep (BufLock i)) ;;
  if negb h then panic "bwrite"
  else disk_rw i true.

Definition brelse (i : nat) : K bio unit :=
  h <- zoom (holdingsleep (BufLock i)) ;;
  if negb h then panic "brelse"
  else
    zoom (releasesleep (BufLock i)) ;;
    acquire BcacheLock ;;
    updb i (fun b => set_refcnt (u32 (b_refcnt b - 1)) b) ;;
    b <- getb i ;;
    when (b_refcnt b =? 0) (unlink_buf i ;; link_front i) ;;
    release BcacheLock.

Definition bpin (i : nat) : K bio unit :=
  acquire BcacheLock ;;
  updb i (fun b => set_refcnt (u32 (b_refcnt b + 1)) b) ;;
  release BcacheLock.

Definition bunpin (i : nat) : K bio unit :=
  acquire BcacheLock ;;
  updb i (fun b => set_refcnt (u32 (b_refcnt b - 1)) b) ;;
  release BcacheLock.

(** ** The ring *)

Definition nx (bs : list buf) (i : nat) : nat := default 0%nat (b_next <$> bs !! i).
Definition pv (bs : list buf) (i : nat) : nat := default 0%nat (b_prev <$> bs !! i).

(** From [x] the links go through [l] and back to the head. *)
Fixpoint chain (bs : list buf) (x : nat) (l : list nat) : Prop :=
  match l with
  | [] => nx bs x = head /\ pv bs head = x
  | y :: l' => nx bs x = y /\ pv bs y = x /\ chain bs y l'
  end.

(** The first element of [l ++ [head]], and the last of [x :: l]. *)
Definition fst_of (l : list nat) : nat := List.hd head l.
Fixpoint last_of (x : nat) (l : list nat) : nat :=
  match l with [] => x | y :: l' => last_of y l' end.

Lemma chain_app bs x l1 y l2 :
  chain bs x (l1 ++ y :: l2) ->
  nx bs (last_of x l1) = y /\ pv bs y = last_of x l1 /\ chain bs y l2.
Proof.
  revert x. induction l1 as [|z l1 IH]; intros x; simpl; [tauto|].
  intros (H1 & H2 & H3). exact (IH z H3).
Qed.

(** A chain depends on the [next] of [x] and [l], and the [prev] of [l] and the head. *)
Lemma chain_ext bs bs' x l :
  (forall y, y ∈ x :: l -> nx bs' y = nx bs y) ->
  (forall y, y ∈ head :: l -> pv bs' y = pv bs y) ->
  chain bs x l -> chain bs' x l.
Proof.
  revert x. induction l as [|y l IH]; intros x Hn Hp; simpl.
  - intros [H1 H2]. rewrite Hn, Hp by (by left). done.
  - intros (H1 & H2 & H3). rewrite (Hn x), (Hp y) by set_solver. repeat split; try done.
    apply IH; [intros z Hz; apply Hn; set_solver|intros z Hz; apply Hp; set_solver|done].
Qed.

Lemma chain_next bs x l : chain bs x l -> nx bs x = fst_of l.
Proof. destruct l; simpl; tauto. Qed.

Lemma chain_prev bs x l : chain bs x l -> pv bs head = last_of x l.
Proof.
  revert x. induction l as [|y l IH]; intros x; simpl; [tauto|]. intros (_ & _ & H). exact (IH y H).
Qed.

(** Replacing the end of a chain, where the links inside [x :: l1] stay. *)
Lemma chain_join bs bs' x l1 l2 l2' :
  chain bs x (l1 ++ l2) -> NoDup (x :: l1) ->
  (forall y, y ∈ x :: l1 -> y <> last_of x l1 -> nx bs' y = nx bs y) ->
  (forall y, y ∈ l1 -> pv bs' y = pv bs y) ->
  chain bs' (last_of x l1) l2' ->
  chain bs' x (l1 ++ l2').
Proof.
  revert x. induction l1 as [|z l1 IH]; intros x H Hnd Hn Hp H2; simpl in *; [done|].
  destruct H as (H1 & H3 & H4). apply NoDup_cons in Hnd as [Hx Hnd].
  assert (x <> last_of z l1).
  { intros ->. apply Hx. clear. revert z. induction l1 as [|y l1 IH]; intros z; simpl; [by left|]. right. apply IH. }
  rewrite (Hn x), (Hp z) by (done || by left). split; [done|split; [done|]].
  apply IH; [done|done|intros; apply Hn; set_solver|intros; apply Hp; set_solver|done].
Qed.

Lemma last_of_in x l : last_of x l ∈ x :: l.
Proof. revert x. induction l as [|y l IH]; intros x; simpl; [by left|]. right. apply IH. Qed.

(** Scanning the ring finds the first match in the order of the links. *)
Definition matches (bs : list buf) (P : buf -> bool) (i : nat) : bool :=
  match bs !! i with Some b => P b | None => false end.

Lemma scan_next bs P fuel x l :
  chain bs x l -> (length l < fuel)%nat -> head ∉ l -> Forall (fun i => i < length bs)%nat l ->
  scan fuel b_next bs (fst_of l) P = List.find (matches bs P) l.
Proof.
  revert x fuel. induction l as [|y l IH]; intros x fuel H Hf Hh Hl; destruct fuel as [|f]; simpl in *; try lia.
  - done.
  - destruct H as (_ & _ & H). apply not_elem_of_cons in Hh as [Hy Hh]. apply Forall_cons in Hl as [Hyl Hl].
    rewrite (proj2 (Nat.eqb_neq y head)) by done.
    destruct (lookup_lt_is_Some_2 bs y Hyl) as [b Hb]. unfold matches at 1. rewrite Hb.
    destruct (P b); [done|].
    pose proof (chain_next _ _ _ H) as Hn. unfold nx in Hn. rewrite Hb in Hn. simpl in Hn. rewrite Hn.
    apply (IH y); [done|lia|done|done].
Qed.

Lemma chain_snoc bs x l y : chain bs x (l ++ [y]) -> pv bs y = last_of x l /\ pv bs head = y.
Proof. intros H. apply chain_app in H as (H1 & H2 & H3). simpl in H3. tauto. Qed.

(** [chain] as seen backwards. *)
Lemma scan_prev bs P fuel l l0 :
  chain bs head (l ++ l0) -> (length l < fuel)%nat -> head ∉ l -> Forall (fun i => i < length bs)%nat l ->
  scan fuel b_prev bs (last_of head l) P = List.find (matches bs P) (reverse l).
Proof.
  revert fuel l0. induction l as [|y l IH] using rev_ind; intros fuel l0 H Hf Hh Hl.
  - destruct fuel; [simpl in Hf; lia|]. done.
  - rewrite length_app in Hf. simpl in Hf. destruct fuel as [|f]; [lia|].
    assert (Hlast : last_of head (l ++ [y]) = y).
    { clear. generalize head. induction l as [|z l IH]; intros x; simpl; [done|]. apply IH. }
    rewrite Hlast. rewrite reverse_app. simpl. apply Forall_app in Hl as [Hl Hy]. apply Forall_cons in Hy as [Hy _].
    rewrite (proj2 (Nat.eqb_neq y head)) by set_solver.
    destruct (lookup_lt_is_Some_2 bs y Hy) as [b Hb]. unfold matches at 1. rewrite Hb.
    destruct (P b); [done|].
    rewrite <- app_assoc in H. simpl in H. destruct (chain_app _ _ _ _ _ H) as (_ & Hp & _).
    unfold pv in Hp. rewrite Hb in Hp. simpl in Hp. rewrite Hp.
    apply (IH f (y :: l0)); [done|lia|set_solver|done].
Qed.

Lemma nx_alter f j bs k :
  (forall b, b_next (f b) = b_next b) -> nx (alter f j bs) k = nx bs k.
Proof.
  intros Hf. unfold nx. destruct (decide (j = k)) as [->|Hne]; [|by rewrite list_lookup_alter_ne].
  rewrite list_lookup_alter_eq. destruct (bs !! k); simpl; by rewrite ?Hf.
Qed.

Lemma pv_alter f j bs k :
  (forall b, b_prev (f b) = b_prev b) -> pv (alter f j bs) k = pv bs k.
Proof.
  intros Hf. unfold pv. destruct (decide (j = k)) as [->|Hne]; [|by rewrite list_lookup_alter_ne].
  rewrite list_lookup_alter_eq. destruct (bs !! k); simpl; by rewrite ?Hf.
Qed.

Lemma nx_set v j bs k : (j < length bs)%nat ->
  nx (alter (set_next v) j bs) k = if decide (j = k) then v else nx bs k.
Proof.
  intros Hj. unfold nx. case_decide as E; [subst|by rewrite list_lookup_alter_ne].
  rewrite list_lookup_alter_eq. destruct (lookup_lt_is_Some_2 bs k Hj) as [b ->]. done.
Qed.

Lemma pv_set v j bs k : (j < length bs)%nat ->
  pv (alter (set_prev v) j bs) k = if decide (j = k) then v else pv bs k.
Proof.
  intros Hj. unfold pv. case_decide as E; [subst|by rewrite list_lookup_alter_ne].
  rewrite list_lookup_alter_eq. destruct (lookup_lt_is_Some_2 bs k Hj) as [b ->]. done.
Qed.

(** What [unlink_buf] and [link_front] do to the array. *)
Definition unlinked (i : nat) (bs : list buf) : list buf :=
  alter (set_next (nx bs i)) (pv bs i) (alter (set_prev (pv bs i)) (nx bs i) bs).
Definition fronted (i : nat) (bs : list buf) : list buf :=
  alter (set_next i) head (alter (set_prev i) (nx bs head)
    (alter (set_prev head) i (alter (set_next (nx bs head)) i bs))).

Lemma getb_run i b e s : bcache s !! i = Some b -> getb i e s = Ret b e s.
Proof. intros H. unfold getb. by rewrite H. Qed.

Lemma updb_run i f e s : updb i f e s = Ret tt e (set_bcache s (alter f i (bcache s))).
Proof. done. Qed.

Lemma unlink_run i e s : (i < length (bcache s))%nat ->
  unlink_buf i e s = Ret tt e (set_bcache s (unlinked i (bcache s))).
Proof.
  intros Hi. destruct (lookup_lt_is_Some_2 _ _ Hi) as [b Hb]. unfold unlink_buf.
  rewrite (bind_step _ _ _ _ _ _ _ (getb_run i b e s Hb)).
  rewrite (bind_step _ _ _ _ _ _ _ (updb_run _ _ e s)), updb_run. unfold unlinked, nx, pv. by rewrite Hb.
Qed.

Lemma link_front_run i e s : (head < length (bcache s))%nat -> i <> head ->
  link_front i e s = Ret tt e (set_bcache s (fronted i (bcache s))).
Proof.
  intros Hh Hi. destruct (lookup_lt_is_Some_2 _ _ Hh) as [b Hb]. unfold link_front.
  rewrite (bind_step _ _ _ _ _ _ _ (getb_run head b e s Hb)).
  rewrite (bind_step _ _ _ _ _ _ _ (updb_run _ _ e s)), (bind_step _ _ _ _ _ _ _ (updb_run _ _ e _)).
  set (s2 := set_bcache _ _).
  assert (Hb2 : bcache s2 !! head = Some b) by (simpl; by rewrite !list_lookup_alter_ne).
  rewrite (bind_step _ _ _ _ _ _ _ (getb_run head b e s2 Hb2)).
  rewrite (bind_step _ _ _ _ _ _ _ (updb_run _ _ e s2)), updb_run. unfold fronted, nx. by rewrite Hb.
Qed.

Lemma fst_of_in l : fst_of l ∈ head :: l.
Proof. destruct l; simpl; set_solver. Qed.

Lemma unlinked_chain bs l1 i l2 :
  chain bs head (l1 ++ i :: l2) -> NoDup (head :: l1 ++ i :: l2) ->
  Forall (fun k => k < length bs)%nat (head :: l1 ++ i :: l2) ->
  chain (unlinked i bs) head (l1 ++ l2).
Proof.
  intros H Hnd Hr. destruct (chain_app _ _ _ _ _ H) as (_ & Hp & H2).
  pose proof (chain_next _ _ _ H2) as Hn. rewrite Forall_forall in Hr.
  pose proof (last_of_in head l1) as Hpin. pose proof (fst_of_in l2) as Hnin.
  assert (Hnx : forall k, nx (unlinked i bs) k = if decide (last_of head l1 = k) then fst_of l2 else nx bs k).
  { intros k. unfold unlinked. rewrite Hp, Hn, nx_set by (rewrite length_alter; apply Hr; set_solver).
    case_decide; [done|]. by apply nx_alter. }
  assert (Hpv : forall k, pv (unlinked i bs) k = if decide (fst_of l2 = k) then last_of head l1 else pv bs k).
  { intros k. unfold unlinked. rewrite Hp, Hn, pv_alter by done. rewrite pv_set by (apply Hr; set_solver). done. }
  clear Hr Hp Hn. apply NoDup_cons in Hnd as [Hh Hnd]. apply NoDup_app in Hnd as (Hnd1 & Hd & Hnd2).
  rewrite elem_of_app in Hh. apply Decidable.not_or in Hh as [Hh1 Hh2].
  apply NoDup_cons in Hnd2 as [Hi Hnd2].
  apply (chain_join bs _ head l1 (i :: l2) l2 H).
  - by apply NoDup_cons.
  - intros y Hy Hne. rewrite Hnx. by rewrite decide_False.
  - intros y Hy. rewrite Hpv. rewrite decide_False; [done|]. intros <-.
    apply elem_of_cons in Hnin as [E|Hin]; [by rewrite E in Hy|]. apply (Hd _ Hy). by right.
  - destruct l2 as [|y l2]; simpl; rewrite Hnx, Hpv, !decide_True by done; [done|].
    split; [done|split; [done|]]. simpl in H2. destruct H2 as (_ & _ & H2).
    apply NoDup_cons in Hnd2 as [Hy Hnd2].
    apply (chain_ext bs); [| |done]; intros z Hz.
    + rewrite Hnx, decide_False; [done|]. intros <-. apply elem_of_cons in Hpin as [E|Hin].
      * rewrite E in Hz. apply Hh2. by right.
      * apply (Hd _ Hin). by right.
    + rewrite Hpv, decide_False; [done|]. simpl. intros <-.
      apply elem_of_cons in Hz as [->|Hz]; [|done]. apply Hh2. right. by left.
Qed.

Lemma fronted_chain bs i l :
  chain bs head l -> NoDup (head :: l) -> i ∉ head :: l ->
  Forall (fun k => k < length bs)%nat (i :: head :: l) ->
  chain (fronted i bs) head (i :: l).
Proof.
  intros H Hnd Hi Hr. rewrite Forall_forall in Hr. pose proof (chain_next _ _ _ H) as Hn.
  pose proof (fst_of_in l) as Hf. assert (Hih : i <> head) by set_solver.
  assert (Hnx : forall k, nx (fronted i bs) k =
                  if decide (head = k) then i else if decide (i = k) then fst_of l else nx bs k).
  { intros k. unfold fronted. rewrite Hn. rewrite nx_set by (rewrite !length_alter; apply Hr; set_solver).
    case_decide; [done|]. rewrite nx_alter by done. rewrite nx_alter by done. by rewrite nx_set by (apply Hr; set_solver). }
  assert (Hpv : forall k, pv (fronted i bs) k =
                  if decide (fst_of l = k) then i else if decide (i = k) then head else pv bs k).
  { intros k. unfold fronted. rewrite Hn, pv_alter by done. rewrite pv_set by (rewrite !length_alter; apply Hr; set_solver).
    case_decide; [done|]. rewrite pv_set by (rewrite !length_alter; apply Hr; set_solver).
    case_decide; [done|]. by apply pv_alter. }
  clear Hr Hn. simpl. rewrite Hnx, Hpv, decide_True by done.
  rewrite (decide_False (P := fst_of l = i)) by (intros <-; done).
  rewrite (decide_True (P := i = i)) by done. split; [done|split; [done|]].
  destruct l as [|y l]; simpl.
  - rewrite Hnx, Hpv. rewrite (decide_False (P := head = i)) by done. by rewrite !decide_True.
  - rewrite Hnx, Hpv. rewrite (decide_False (P := head = i)) by done. rewrite !decide_True by done.
    split; [done|split; [done|]]. simpl in H. destruct H as (_ & _ & H).
    rewrite !NoDup_cons in Hnd. destruct Hnd as (Hh & Hy & Hnd).
    apply (chain_ext bs); [| |done]; intros z Hz.
    + rewrite Hnx. rewrite (decide_False (P := head = z)), (decide_False (P := i = z)); [done|..]; intros <-.
      * apply Hi. by right.
      * done.
    + rewrite Hpv. simpl. rewrite (decide_False (P := y = z)), (decide_False (P := i = z)); [done|..]; intros <-.
      * apply Hi. rewrite !elem_of_cons in *. tauto.
      * apply elem_of_cons in Hz as [->|Hz]; [|done]. apply Hh. by left.
Qed.

(** ** What the cache promises

    The contents of every block of the root device as the processes see it and
    as it is on disk, the blocks that are referenced (with their counts) and the
    blocks whose buffer the current process has locked. *)

Definition ROOTDEV : Z := 1.

Record cache : Type := Cache {
  c_ref : gmap Z Z;
  c_blk : Z -> list Z;
  c_disk : Z -> list Z;
  c_held : gset Z
}.

Definition upd {A} (f : Z -> A) (b : Z) (v : A) : Z -> A := fun x => if x =? b then v else f x.

Definition lock_word (pid : Z) (held : bool) (s : sleeplock) : Prop :=
  if held then s = Sleeplock 1 pid else sl_locked s = 0.

(** Buffer [x] with lock [l] in a cache described by [c]. *)
Definition buf_ok (pid : Z) (c : cache) (l : sleeplock) (x : buf) : Prop :=
  (b_dev x = ROOTDEV -> b_valid x <> 0 /\ b_data x = c_blk c (b_blockno x)) /\
  ((b_refcnt x = 0 /\ sl_locked l = 0) \/
   (0 < b_refcnt x < 2 ^ 32 /\ b_dev x = ROOTDEV /\ c_ref c !! b_blockno x = Some (b_refcnt x) /\
    lock_word pid (bool_decide (b_blockno x ∈ c_held c)) l)).

(** Buffer [i] is the one of block [b]. *)
Definition handle (s : bio) (i : nat) (b : Z) : Prop :=
  (i < NBUF)%nat /\ exists x, bcache s !! i = Some x /\ b_dev x = ROOTDEV /\ b_blockno x = b.

Record brep (pid : Z) (s : bio) (c : cache) : Prop := {
  br_len : length (bcache s) = S NBUF;
  br_ring : exists order, chain (bcache s) head order /\ order ≡ₚ seq 0 NBUF;
  br_buf : forall i x, (i < NBUF)%nat -> bcache s !! i = Some x ->
    buf_ok pid c (slock (bio_locks s) (BufLock i)) x;
  br_uniq : forall i j b, handle s i b -> handle s j b -> i = j;
  br_ref : forall b r, c_ref c !! b = Some r ->
    0 < r /\ exists i x, (i < NBUF)%nat /\ bcache s !! i = Some x /\ b_dev x = ROOTDEV /\
                         b_blockno x = b /\ b_refcnt x = r;
  br_clean : forall b, c_ref c !! b = None -> c_blk c b = c_disk c b;
  br_disk : forall b, disk_get (bio_disk s) b = c_disk c b;
  br_size : forall b, length (c_blk c b) = bsize /\ length (c_disk c b) = bsize;
  br_held : forall b, b ∈ c_held c -> is_Some (c_ref c !! b)
}.

(** Handles of referenced blocks stay valid. *)
Definition keeps (s s' : bio) (c' : cache) : Prop :=
  forall i b, handle s i b -> is_Some (c_ref c' !! b) -> handle s' i b.

Lemma brep_lookup pid s c i : brep pid s c -> (i < NBUF)%nat -> exists x, bcache s !! i = Some x.
Proof. intros R Hi. apply lookup_lt_is_Some_2. rewrite (br_len _ _ _ R). lia. Qed.

Lemma handle_ref pid s c i b x :
  brep pid s c -> handle s i b -> bcache s !! i = Some x -> 0 < b_refcnt x ->
  c_ref c !! b = Some (b_refcnt x).
Proof.
  intros R (Hi & x' & Hx' & Hd & Hb) Hx Hr. rewrite Hx in Hx'. injection Hx' as <-.
  destruct (br_buf _ _ _ R i x Hi Hx) as [_ [[H0 _]|(_ & _ & H & _)]]; [lia|]. by rewrite <- Hb.
Qed.

(** A referenced block has its buffer, with that count. *)
Lemma ref_handle pid s c i b r :
  brep pid s c -> handle s i b -> c_ref c !! b = Some r ->
  exists x, bcache s !! i = Some x /\ b_dev x = ROOTDEV /\ b_blockno x = b /\ b_refcnt x = r /\ 0 < r.
Proof.
  intros R H Hr. destruct (br_ref _ _ _ R b r Hr) as (Hpos & j & x & Hj & Hx & Hd & Hb & Hc).
  assert (j = i) as ->; [|by exists x]. apply (br_uniq _ _ _ R j i b); [|done]. split; [done|]. by exists x.
Qed.

(** Changing buffer [i], which is or becomes the one of block [b]. *)
Section Change.
Context (pid : Z) (s : bio) (c : cache) (i : nat) (x : buf) (b : Z) (x' : buf)
  (lk' : sleeplock) (d' : disk) (c' : cache).
Context (R : brep pid s c) (Hi : (i < NBUF)%nat) (Hx : bcache s !! i = Some x)
  (Hold : b_refcnt x = 0 \/ b_blockno x = b)
  (Hp : b_prev x' = b_prev x) (Hn : b_next x' = b_next x)
  (Hdev : b_dev x' = ROOTDEV) (Hb : b_blockno x' = b)
  (Hoth : forall j, j <> i -> ~ handle s j b)
  (Hagree : forall b', b' <> b ->
     c_ref c' !! b' = c_ref c !! b' /\ c_blk c' b' = c_blk c b' /\
     c_disk c' b' = c_disk c b' /\ (b' ∈ c_held c' <-> b' ∈ c_held c))
  (Hok : buf_ok pid c' lk' x')
  (Hzero : b_refcnt x' = 0 -> c_ref c' !! b = None /\ c_blk c' b = c_disk c' b /\ (b ∉ c_held c'))
  (Hd' : forall b', disk_get d' b' = c_disk c' b')
  (Hs1 : length (c_blk c' b) = bsize) (Hs2 : length (c_disk c' b) = bsize).

Let s' : bio := Bio (<[i := x']> (bcache s)) (<[BufLock i := lk']> (bio_locks s)) d'.

Lemma change_get j y :
  bcache s' !! j = Some y -> (j = i /\ y = x') \/ (j <> i /\ bcache s !! j = Some y).
Proof. intros E. apply list_lookup_insert_Some in E as [(-> & <- & _)|[Hne E]]; auto. Qed.

Lemma change_at : bcache s' !! i = Some x'.
Proof. simpl. apply list_lookup_insert_eq. by eapply lookup_lt_Some. Qed.

Lemma change_handle j b' : handle s' j b' <-> (j = i /\ b' = b) \/ (j <> i /\ handle s j b').
Proof.
  split.
  - intros (Hj & y & Hy & Hyd & Hyb). apply change_get in Hy as [[-> ->]|[Hne Hy]]; [left; by subst|].
    right. split; [done|]. split; [done|]. by exists y.
  - intros [[-> ->]|(Hne & Hj & y & Hy & Hyd & Hyb)].
    + split; [done|]. exists x'. by rewrite change_at.
    + split; [done|]. exists y. simpl. by rewrite list_lookup_insert_ne.
Qed.

Lemma change_ring : exists order, chain (bcache s') head order /\ order ≡ₚ seq 0 NBUF.
Proof.
  assert (Hlinks : forall k, nx (bcache s') k = nx (bcache s) k /\ pv (bcache s') k = pv (bcache s) k).
  { intros k. unfold nx, pv. destruct (decide (k = i)) as [->|Hne].
    - rewrite change_at, Hx. simpl. by rewrite Hp, Hn.
    - simpl. by rewrite list_lookup_insert_ne. }
  destruct (br_ring _ _ _ R) as (o & Ho & Hperm). exists o. split; [|done].
  apply (chain_ext (bcache s)); [..|done]; intros; apply Hlinks.
Qed.

Lemma change_buf j y :
  (j < NBUF)%nat -> bcache s' !! j = Some y -> buf_ok pid c' (slock (bio_locks s') (BufLock j)) y.
Proof.
  intros Hj Hy. apply change_get in Hy as [[-> ->]|[Hne Hy]]; simpl; [by rewrite slock_insert|].
  rewrite slock_insert_ne by congruence. destruct (br_buf _ _ _ R j y Hj Hy) as [H1 H2].
  assert (b_dev y = ROOTDEV -> b_blockno y <> b) as Hyb.
  { intros Hyd E. apply (Hoth j Hne). split; [done|]. by exists y. }
  split.
  - intros Hyd. destruct (Hagree _ (Hyb Hyd)) as (_ & -> & _). by apply H1.
  - destruct H2 as [H2|(H2 & Hyd & H3 & H4)]; [by left|right].
    destruct (Hagree _ (Hyb Hyd)) as (-> & _ & _ & Hheld). split; [done|split; [done|split; [done|]]].
    by rewrite (bool_decide_ext _ _ Hheld).
Qed.

Lemma change_cref : (b_refcnt x' = 0 /\ c_ref c' !! b = None) \/ c_ref c' !! b = Some (b_refcnt x').
Proof.
  destruct (decide (b_refcnt x' = 0)) as [E0|E0]; [left; split; [done|by apply Hzero]|right].
  destruct Hok as [_ [[? _]|(_ & _ & H & _)]]; [done|]. by rewrite <- Hb.
Qed.

Lemma change_ref b' r : c_ref c' !! b' = Some r ->
  0 < r /\ exists j y, (j < NBUF)%nat /\ bcache s' !! j = Some y /\ b_dev y = ROOTDEV /\
                       b_blockno y = b' /\ b_refcnt y = r.
Proof.
  intros Hr. destruct (decide (b' = b)) as [->|Hne].
  - destruct change_cref as [[_ E]|E]; rewrite E in Hr; [done|]. injection Hr as <-. split.
    + destruct Hok as [_ [[E0 _]|(H & _)]]; [|lia]. destruct (Hzero E0). congruence.
    + exists i, x'. by rewrite change_at.
  - destruct (Hagree b' Hne) as (E & _). rewrite E in Hr.
    destruct (br_ref _ _ _ R b' r Hr) as (Hpos & j & y & Hj & Hy & Hyd & Hyb & Hyr).
    assert (j <> i). { intros ->. rewrite Hx in Hy. injection Hy as <-. destruct Hold; [lia|congruence]. }
    split; [done|]. exists j, y. simpl. by rewrite list_lookup_insert_ne.
Qed.

Lemma brep_upd : brep pid s' c' /\ keeps s s' c'.
Proof.
  split; [split|].
  - simpl. rewrite length_insert. apply R.
  - apply change_ring.
  - intros j y. apply change_buf.
  - intros j k b' [[-> ->]|[H1 H2]]%change_handle [[-> E]|[H3 H4]]%change_handle; [done|..].
    + by destruct (Hoth k H3).
    + subst. by destruct (Hoth j H1).
    + by apply (br_uniq _ _ _ R j k b').
  - intros b' r. apply change_ref.
  - intros b' Hr. destruct (decide (b' = b)) as [->|Hne].
    + destruct change_cref as [[E0 _]|E]; [by apply Hzero|congruence].
    + destruct (Hagree b' Hne) as (E & -> & -> & _). apply (br_clean _ _ _ R). congruence.
  - done.
  - intros b'. destruct (decide (b' = b)) as [->|Hne]; [done|].
    destruct (Hagree b' Hne) as (_ & -> & -> & _). apply R.
  - intros b' Hb'. destruct (decide (b' = b)) as [->|Hne].
    + destruct change_cref as [[E0 _]|E]; [by destruct (Hzero E0) as (_ & _ & [])|eauto].
    + destruct (Hagree b' Hne) as (-> & _ & _ & Hheld). apply R. by apply Hheld.
  - intros j b' Hj Hr. apply change_handle. destruct (decide (j = i)) as [->|Hne]; [|by right]. left. split; [done|].
    destruct (decide (b' = b)) as [|Hne]; [done|]. exfalso. destruct Hr as [r Hr].
    destruct (Hagree b' Hne) as (E & _). rewrite E in Hr.
    destruct (ref_handle pid s c i b' r R Hj Hr) as (y & Hy & _ & Hyb & Hyr & Hpos).
    rewrite Hx in Hy. injection Hy as <-. destruct Hold; [lia|congruence].
Qed.

End Change.

(** ** The operations on the cache *)

(** Kernel code of process [p] that may use the buffer cache: it holds none of
    the cache's spin locks and nobody waits for a buffer. *)
Record benv (e : env) (p : nat) (pid : Z) : Prop := {
  be_runs : runs e p pid;
  be_cache : BcacheLock ∉ held e;
  be_sleep : forall i, SleepLk (BufLock i) ∉ held e;
  be_wait : forall i, no_waiter e (ChanSleepLock (BufLock i))
}.

Lemma order_facts pid s c order :
  brep pid s c -> order ≡ₚ seq 0 NBUF ->
  (forall i, i ∈ order <-> (i < NBUF)%nat) /\ (length order < S NBUF)%nat /\ (head ∉ order) /\
  NoDup (head :: order) /\ Forall (fun i => i < length (bcache s))%nat (head :: order).
Proof.
  intros R Hp. assert (Hin : forall i, i ∈ order <-> (i < NBUF)%nat).
  { intros i. rewrite Hp, elem_of_seq. lia. }
  assert (head ∉ order) by (rewrite Hin; unfold head; lia). split; [done|]. split; [|split; [done|split]].
  - rewrite Hp, length_seq. lia.
  - apply NoDup_cons. split; [done|]. rewrite Hp. apply NoDup_seq.
  - apply Forall_cons. split; [rewrite (br_len _ _ _ R); unfold head; lia|].
    apply Forall_forall. intros i Hi%Hin. rewrite (br_len _ _ _ R). lia.
Qed.

Lemma head_lookup pid s c : brep pid s c -> exists h, bcache s !! head = Some h.
Proof. intros R. apply lookup_lt_is_Some_2. rewrite (br_len _ _ _ R). unfold head. lia. Qed.

(** The first loop of [bget]: the buffer of the block, if there is one. *)
Lemma scan_hit pid s c h b :
  brep pid s c -> bcache s !! head = Some h ->
  match scan (S NBUF) b_next (bcache s) (b_next h) (fun x => (b_dev x =? ROOTDEV) && (b_blockno x =? b)) with
  | Some i => handle s i b
  | None => forall i, ~ handle s i b
  end.
Proof.
  intros R Hh. destruct (br_ring _ _ _ R) as (o & Ho & Hp).
  destruct (order_facts pid s c o R Hp) as (Hin & Hlen & Hhd & _ & Hrange).
  apply Forall_cons in Hrange as [_ Hrange].
  pose proof (chain_next _ _ _ Ho) as Hn. unfold nx in Hn. rewrite Hh in Hn. simpl in Hn. rewrite Hn.
  rewrite (scan_next _ _ _ head) by done.
  destruct (List.find _ o) as [i|] eqn:E.
  - apply List.find_some in E as [Hi Hm]. apply list_elem_of_In, Hin in Hi.
    unfold matches in Hm. destruct (bcache s !! i) as [x|] eqn:Ex; [|done]. zbool.
    split; [done|]. by exists x.
  - intros i (Hi & x & Hx & Hd & Hb).
    pose proof (List.find_none _ _ E i ltac:(by apply list_elem_of_In, Hin)) as Hm.
    unfold matches in Hm. rewrite Hx, Hd, Hb, !Z.eqb_refl in Hm. done.
Qed.

(** Not all buffers can be referenced when fewer than [NBUF] blocks are. *)
Lemma free_buffer pid s c :
  brep pid s c -> (size (c_ref c) < NBUF)%nat ->
  ~ forall i x, (i < NBUF)%nat -> bcache s !! i = Some x -> b_refcnt x <> 0.
Proof.
  intros R Hsz Hall. set (blk i := default 0 (b_blockno <$> bcache s !! i)).
  assert (Hh : forall i, (i < NBUF)%nat -> handle s i (blk i) /\ is_Some (c_ref c !! blk i)).
  { intros i Hi. destruct (brep_lookup pid s c i R Hi) as [x Hx]. unfold blk. rewrite Hx. simpl.
    destruct (br_buf _ _ _ R i x Hi Hx) as [_ [[H0 _]|(_ & Hd & Hr & _)]]; [by destruct (Hall i x Hi Hx)|].
    split; [|by eexists]. split; [done|]. by exists x. }
  assert (Hnd : NoDup (blk <$> seq 0 NBUF)).
  { apply NoDup_fmap_2_strong; [|apply NoDup_seq]. intros i j Hi Hj E.
    apply elem_of_seq in Hi, Hj. destruct (Hh i ltac:(lia)) as [H1 _]. destruct (Hh j ltac:(lia)) as [H2 _].
    rewrite <- E in H2. by apply (br_uniq _ _ _ R i j (blk i)). }
  assert (Hsub : (list_to_set (blk <$> seq 0 NBUF) : gset Z) ⊆ dom (c_ref c)).
  { intros b Hb. apply elem_of_list_to_set, list_elem_of_fmap in Hb as (i & -> & Hi).
    apply elem_of_seq in Hi. apply elem_of_dom, Hh. lia. }
  apply subseteq_size in Hsub. rewrite size_list_to_set, length_fmap, length_seq, size_dom in Hsub by done. lia.
Qed.

(** The second loop of [bget]: the least recently used free buffer. *)
Lemma scan_lru pid s c h :
  brep pid s c -> bcache s !! head = Some h -> (size (c_ref c) < NBUF)%nat ->
  exists i x, scan (S NBUF) b_prev (bcache s) (b_prev h) (fun x => b_refcnt x =? 0) = Some i /\
    (i < NBUF)%nat /\ bcache s !! i = Some x /\ b_refcnt x = 0.
Proof.
  intros R Hh Hsz. destruct (br_ring _ _ _ R) as (o & Ho & Hp).
  destruct (order_facts pid s c o R Hp) as (Hin & Hlen & Hhd & _ & Hrange).
  apply Forall_cons in Hrange as [_ Hrange].
  pose proof (chain_prev _ _ _ Ho) as Hn. unfold pv in Hn. rewrite Hh in Hn. simpl in Hn. rewrite Hn.
  rewrite (scan_prev _ _ _ o []) by (rewrite ?app_nil_r; done).
  destruct (List.find _ (reverse o)) as [i|] eqn:E.
  - apply List.find_some in E as [Hi Hm]. apply list_elem_of_In in Hi. rewrite elem_of_reverse in Hi. apply Hin in Hi.
    unfold matches in Hm. destruct (bcache s !! i) as [x|] eqn:Ex; [|done]. zbool. by exists i, x.
  - exfalso. apply (free_buffer pid s c R Hsz). intros i x Hi Hx E0.
    pose proof (List.find_none _ _ E i ltac:(by apply list_elem_of_In, elem_of_reverse, Hin)) as Hm.
    unfold matches in Hm. by rewrite Hx, E0 in Hm.
Qed.

Lemma alter_insert {A} (f : A -> A) i (l : list A) x : l !! i = Some x -> alter f i l = <[i := f x]> l.
Proof.
  intros Hx. apply list_eq. intros j. destruct (decide (i = j)) as [<-|Hne].
  - rewrite list_lookup_alter_eq, Hx, list_lookup_insert_eq by (by eapply lookup_lt_Some). done.
  - by rewrite list_lookup_alter_ne, list_lookup_insert_ne.
Qed.

(** The cache after [bread], [brelse] and the other operations on block [b]. *)
Definition ref_of (c : cache) (b : Z) : Z := default 0 (c_ref c !! b).
Definition c_got (c : cache) (b : Z) : cache :=
  Cache (<[b := ref_of c b + 1]> (c_ref c)) (c_blk c) (c_disk c) ({[b]} ∪ c_held c).
Definition dropped (c : cache) (b : Z) : gmap Z Z :=
  if ref_of c b =? 1 then delete b (c_ref c) else <[b := ref_of c b - 1]> (c_ref c).
Definition c_put (c : cache) (b : Z) : cache :=
  Cache (dropped c b) (c_blk c) (c_disk c) (c_held c ∖ {[b]}).
Definition c_pin (c : cache) (b : Z) : cache :=
  Cache (<[b := ref_of c b + 1]> (c_ref c)) (c_blk c) (c_disk c) (c_held c).
Definition c_unpin (c : cache) (b : Z) : cache :=
  Cache (dropped c b) (c_blk c) (c_disk c) (c_held c).
Definition c_set (c : cache) (b : Z) (d : list Z) : cache :=
  Cache (c_ref c) (upd (c_blk c) b d) (c_disk c) (c_held c).
Definition c_flush (c : cache) (b : Z) : cache :=
  Cache (c_ref c) (c_blk c) (upd (c_disk c) b (c_blk c b)) (c_held c).

(** A buffer for [b] can be had. *)
Definition can_get (c : cache) (b : Z) : Prop :=
  (b ∉ c_held c) /\ ref_of c b + 1 < 2 ^ 32 /\ (is_Some (c_ref c !! b) \/ (size (c_ref c) < NBUF)%nat).

Lemma upd_at {A} (f : Z -> A) b v : upd f b v b = v.
Proof. unfold upd. by rewrite Z.eqb_refl. Qed.

Lemma upd_ne {A} (f : Z -> A) b v b' : b' <> b -> upd f b v b' = f b'.
Proof. intros H. unfold upd. by rewrite (proj2 (Z.eqb_neq _ _)). Qed.

Definition is_of (b : Z) (x : buf) : bool := (b_dev x =? ROOTDEV) && (b_blockno x =? b).

(** [bget]: buffer [i], its old contents [x], and the buffer handed out. *)
Lemma bget_run e p pid s c b :
  benv e p pid -> brep pid s c -> can_get c b ->
  exists i x, (i < NBUF)%nat /\ bcache s !! i = Some x /\ (b_refcnt x = 0 \/ b_blockno x = b) /\
    (forall j, j <> i -> ~ handle s j b) /\
    let x' := if is_of b x then set_refcnt (ref_of c b + 1) x
              else set_refcnt 1 (set_valid 0 (set_ident ROOTDEV b x)) in
    bget ROOTDEV b e s =
      Ret i e (Bio (<[i := x']> (bcache s)) (<[BufLock i := Sleeplock 1 pid]> (bio_locks s)) (bio_disk s)).
Proof.
  intros E R (Hheld & Hmax & Hfree). destruct (head_lookup pid s c R) as [h Hh]. unfold bget.
  pose proof (be_cache _ _ _ E) as Hl. kstep.
  rewrite (bind_step _ _ _ _ _ _ _ (getb_run head h (locked BcacheLock e) s Hh)). ksteps.
  pose proof (scan_hit pid s c h b R Hh) as Hscan.
  destruct (scan (S NBUF) b_next _ _ _) as [i|].
  - destruct (id Hscan) as (Hi & x & Hx & Hd & Hb). exists i, x. split; [done|]. split; [done|].
    split; [by right|]. split; [intros j Hne Hj; by apply Hne, (br_uniq _ _ _ R j i b)|].
    unfold is_of. rewrite Hd, Hb, !Z.eqb_refl. cbn [andb]. cbv zeta.
    assert (Hr : ref_of c b = b_refcnt x /\ 0 <= b_refcnt x /\ sl_locked (slock (bio_locks s) (BufLock i)) = 0).
    { destruct (br_buf _ _ _ R i x Hi Hx) as [_ [[H0 H1]|(Hpos & _ & Hr & Hlk)]].
      - unfold ref_of. destruct (c_ref c !! b) as [r|] eqn:Er; [|rewrite H0; auto with lia].
        destruct (ref_handle pid s c i b r R Hscan Er) as (y & Hy & _ & _ & Hyr & Hpos).
        rewrite Hx in Hy. injection Hy as <-. lia.
      - unfold ref_of. rewrite Hb in Hr, Hlk. rewrite Hr. rewrite bool_decide_eq_false_2 in Hlk by done.
        split; [done|]. split; [lia|done]. }
    destruct Hr as (Hr & Hpos & Hlk).
    rewrite (bind_step _ _ _ _ _ _ _ (updb_run _ _ (locked BcacheLock e) s)). kstep.
    set (s1 := set_bcache _ _).
    pose proof (zoom_Ret (acquiresleep (BufLock i)) e s1 tt e _
                  (acquiresleep_run (BufLock i) e p pid _ (be_runs _ _ _ E) (be_sleep _ _ _ E i) Hlk)) as Ez.
    rewrite (bind_step _ _ _ _ _ _ _ Ez). unfold ret, s1, set_bcache. simpl.
    rewrite (alter_insert _ _ _ x Hx). rewrite Hr, uint_wrap_small by lia. done.
  - destruct Hfree as [[r Hr]|Hfree].
    { destruct (br_ref _ _ _ R b r Hr) as (_ & i & x & Hi & Hx & Hd & Hb & _). destruct (Hscan i). split; [done|]. by exists x. }
    destruct (scan_lru pid s c h R Hh Hfree) as (i & x & Es & Hi & Hx & H0). ksteps. rewrite Es.
    exists i, x. split; [done|]. split; [done|]. split; [by left|]. split; [intros j _; apply Hscan|].
    assert (is_of b x = false) as ->.
    { destruct (is_of b x) eqn:Eo; [|done]. unfold is_of in Eo. zbool. destruct (Hscan i). split; [done|]. by exists x. }
    cbv zeta.
    do 3 rewrite (bind_step _ _ _ _ _ _ _ (updb_run _ _ (locked BcacheLock e) _)). kstep.
    set (s1 := set_bcache _ _).
    destruct (br_buf _ _ _ R i x Hi Hx) as [_ [[_ Hlk]|(Hpos & _)]]; [|lia].
    pose proof (zoom_Ret (acquiresleep (BufLock i)) e s1 tt e _
                  (acquiresleep_run (BufLock i) e p pid _ (be_runs _ _ _ E) (be_sleep _ _ _ E i) Hlk)) as Ez.
    rewrite (bind_step _ _ _ _ _ _ _ Ez). unfold ret, s1, set_bcache. simpl.
    rewrite !alter_alter. by rewrite (alter_insert _ _ _ x Hx).
Qed.

Lemma lookup_set_bcache i (x' : buf) (bs : list buf) x : bs !! i = Some x -> <[i := x']> bs !! i = Some x'.
Proof. intros H. apply list_lookup_insert_eq. by eapply lookup_lt_Some. Qed.

(** The buffer [bread] returns. *)
Definition read_buf (s : bio) (c : cache) (b : Z) (x : buf) : buf :=
  if is_of b x then set_refcnt (ref_of c b + 1) x
  else set_valid 1 (set_data (disk_get (bio_disk s) b) (set_refcnt 1 (set_valid 0 (set_ident ROOTDEV b x)))).

Lemma bread_eq e p pid s c b :
  benv e p pid -> brep pid s c -> can_get c b ->
  exists i x, (i < NBUF)%nat /\ bcache s !! i = Some x /\ (b_refcnt x = 0 \/ b_blockno x = b) /\
    (forall j, j <> i -> ~ handle s j b) /\
    bread ROOTDEV b e s =
      Ret i e (Bio (<[i := read_buf s c b x]> (bcache s))
                   (<[BufLock i := Sleeplock 1 pid]> (bio_locks s)) (bio_disk s)).
Proof.
  intros E R Hc. destruct (bget_run e p pid s c b E R Hc) as (i & x & Hi & Hx & Hold & Hoth & Eb).
  exists i, x. do 4 (split; [done|]). cbv zeta in Eb. unfold bread. rewrite (bind_step _ _ _ _ _ _ _ Eb).
  set (s1 := Bio _ _ _). assert (Hx1 : bcache s1 !! i = Some (if is_of b x then set_refcnt (ref_of c b + 1) x
                                      else set_refcnt 1 (set_valid 0 (set_ident ROOTDEV b x))))
    by (by apply (lookup_set_bcache _ _ _ x)).
  rewrite (bind_step _ _ _ _ _ _ _ (getb_run i _ e s1 Hx1)). unfold read_buf.
  destruct (is_of b x) eqn:Eo.
  - unfold is_of in Eo. zbool. destruct (br_buf _ _ _ R i x Hi Hx) as [Hv _]. destruct Hv as [Hv _]; [done|].
    simpl b_valid. rewrite (proj2 (truth_true _) Hv). by ksteps.
  - simpl b_valid. change (negb (truth 0)) with true. ksteps. unfold disk_rw. ksteps.
    rewrite (bind_step _ _ _ _ _ _ _ (getb_run i _ e s1 Hx1)). ksteps.
    rewrite (bind_step _ _ _ _ _ _ _ (updb_run _ _ e _)). unfold ret, s1, set_bcache. simpl.
    rewrite alter_alter. rewrite (alter_insert _ _ _ _ (lookup_set_bcache _ _ _ x Hx)).
    by rewrite list_insert_insert_eq.
Qed.

Lemma bread_run e p pid s c b :
  benv e p pid -> brep pid s c -> can_get c b ->
  exists i s', bread ROOTDEV b e s = Ret i e s' /\ handle s' i b /\
    brep pid s' (c_got c b) /\ keeps s s' (c_got c b).
Proof.
  intros E R Hc. destruct (bread_eq e p pid s c b E R Hc) as (i & x & Hi & Hx & Hold & Hoth & Eb).
  eexists i, _. split; [exact Eb|].
  assert (Hb : b_dev (read_buf s c b x) = ROOTDEV /\ b_blockno (read_buf s c b x) = b /\
               b_refcnt (read_buf s c b x) = ref_of c b + 1 /\ 0 <= ref_of c b /\
               b_valid (read_buf s c b x) <> 0 /\ b_data (read_buf s c b x) = c_blk c b /\
               b_prev (read_buf s c b x) = b_prev x /\ b_next (read_buf s c b x) = b_next x).
  { unfold read_buf. destruct (is_of b x) eqn:Eo.
    - unfold is_of in Eo. zbool. destruct (br_buf _ _ _ R i x Hi Hx) as [Hv Hr]. destruct Hv as [Hv Hdata]; [done|].
      split_and!; try done; [|simpl; congruence].
      unfold ref_of. destruct (c_ref c !! b) as [r|] eqn:Er; [|done]. simpl. by destruct (br_ref _ _ _ R b r Er); lia.
    - assert (Er : c_ref c !! b = None).
      { destruct (c_ref c !! b) as [r|] eqn:Er; [|done]. exfalso.
        destruct (br_ref _ _ _ R b r Er) as (_ & j & y & Hj & Hy & Hd & Hyb & _).
        destruct (decide (j = i)) as [->|Hne]; [|apply (Hoth j Hne); split; [done|]; by exists y].
        rewrite Hx in Hy. injection Hy as <-. unfold is_of in Eo. by rewrite Hd, Hyb, !Z.eqb_refl in Eo. }
      unfold ref_of. rewrite Er. simpl. split_and!; try done.
      rewrite (br_clean _ _ _ R b Er). by rewrite (br_disk _ _ _ R). }
  destruct Hb as (Hd & Hb & Hr & Hr0 & Hv & Hdata & Hprev & Hnext).
  split; [split; [done|]; eexists; simpl; split; [by apply (lookup_set_bcache _ _ _ x)|done]|].
  destruct Hc as (Hheld & Hmax & _).
  apply (brep_upd pid s c i x b); try done.
  - intros b' Hne. simpl. rewrite lookup_insert_ne by done. split; [done|split; [done|split; [done|]]]. set_solver.
  - split; [intros _; split; [done|by rewrite Hb]|]. right. rewrite Hb, Hr. split; [lia|]. split; [done|].
    simpl. rewrite lookup_insert_eq. split; [done|]. by rewrite bool_decide_eq_true_2 by set_solver.
  - rewrite Hr. lia.
  - apply R.
  - apply R.
  - apply R.
Qed.

(** Everything in a buffer but its links. *)
Definition core (x : buf) : Z * Z * Z * Z * list Z := (b_valid x, b_dev x, b_blockno x, b_refcnt x, b_data x).

Lemma core_alter f j (bs : list buf) k :
  (forall x, core (f x) = core x) -> core <$> alter f j bs !! k = core <$> bs !! k.
Proof.
  intros Hf. destruct (decide (j = k)) as [->|Hne]; [|by rewrite list_lookup_alter_ne].
  rewrite list_lookup_alter_eq. destruct (bs !! k); simpl; by rewrite ?Hf.
Qed.

Lemma core_front i (bs : list buf) k : core <$> fronted i (unlinked i bs) !! k = core <$> bs !! k.
Proof. unfold fronted, unlinked. by rewrite !core_alter. Qed.

(** Relinking the ring changes nothing else. *)
Lemma brep_core pid s c bs' :
  brep pid s c -> length bs' = S NBUF -> (forall k, core <$> bs' !! k = core <$> bcache s !! k) ->
  (exists order, chain bs' head order /\ order ≡ₚ seq 0 NBUF) ->
  brep pid (set_bcache s bs') c /\ (forall i b, handle (set_bcache s bs') i b <-> handle s i b).
Proof.
  intros R Hlen Hcore Hring.
  assert (Hget : forall k y, bs' !! k = Some y -> exists x, bcache s !! k = Some x /\ core y = core x).
  { intros k y Hy. specialize (Hcore k). rewrite Hy in Hcore. destruct (bcache s !! k) as [x|]; [|done].
    exists x. split; [done|]. simpl in Hcore. congruence. }
  assert (Hget' : forall k x, bcache s !! k = Some x -> exists y, bs' !! k = Some y /\ core y = core x).
  { intros k x Hx. specialize (Hcore k). rewrite Hx in Hcore. destruct (bs' !! k) as [y|]; [|done].
    exists y. split; [done|]. simpl in Hcore. congruence. }
  assert (Hh : forall i b, handle (set_bcache s bs') i b <-> handle s i b).
  { intros i b. split; intros (Hi & x & Hx & Hd & Hb); (split; [done|]).
    - destruct (Hget i x Hx) as (y & Hy & Ec). injection Ec as Ev Ed Eb Er Ex. exists y. split; [done|]. split; congruence.
    - destruct (Hget' i x Hx) as (y & Hy & Ec). injection Ec as Ev Ed Eb Er Ex. exists y. split; [done|]. split; congruence. }
  split; [|done]. split; try done; try apply R.
  - intros i y Hi Hy. destruct (Hget i y Hy) as (x & Hx & Ec). injection Ec as Ev Ed Eb Er Ex.
    pose proof (br_buf _ _ _ R i x Hi Hx) as H. unfold buf_ok in *. simpl. by rewrite Ev, Ed, Eb, Er, Ex.
  - intros i j b Hi Hj. by apply (br_uniq _ _ _ R i j b); apply Hh.
  - intros b r Hr. destruct (br_ref _ _ _ R b r Hr) as (Hpos & i & x & Hi & Hx & Hd & Hb & Hc).
    destruct (Hget' i x Hx) as (y & Hy & Ec). injection Ec as Ev Ed Eb Er Ex. split; [done|].
    exists i, y. split; [done|]. split; [done|]. split_and!; congruence.
Qed.

Lemma brep_front pid s c i :
  brep pid s c -> (i < NBUF)%nat ->
  brep pid (set_bcache s (fronted i (unlinked i (bcache s)))) c /\
  (forall j b, handle (set_bcache s (fronted i (unlinked i (bcache s)))) j b <-> handle s j b).
Proof.
  intros R Hi. destruct (br_ring _ _ _ R) as (o & Ho & Hp).
  destruct (order_facts pid s c o R Hp) as (Hin & Hlen & Hhd & Hnd & Hr).
  assert (Hlength : forall bs, length (fronted i (unlinked i bs)) = length bs)
    by (intros bs; unfold fronted, unlinked; by rewrite !length_alter).
  apply brep_core; [done|by rewrite Hlength; apply R|apply core_front|].
  destruct (list_elem_of_split o i) as (l1 & l2 & ->); [by apply Hin|].
  exists (i :: l1 ++ l2). split; [|by rewrite <- Hp, Permutation_middle].
  pose proof (unlinked_chain _ _ _ _ Ho Hnd Hr) as Hu.
  assert (Hp' : head :: l1 ++ i :: l2 ≡ₚ i :: head :: l1 ++ l2) by (rewrite <- Permutation_middle; apply Permutation_swap).
  rewrite Hp' in Hnd, Hr. apply NoDup_cons in Hnd as [Hni Hnd].
  apply fronted_chain; [done|done|done|]. unfold unlinked. by rewrite !length_alter.
Qed.

(** The state after one buffer changed. *)
Definition with_buf (s : bio) (i : nat) (x' : buf) (lk : sleeplock) (d : disk) : bio :=
  Bio (<[i := x']> (bcache s)) (<[BufLock i := lk]> (bio_locks s)) d.

Lemma handle_locked e p pid s c i b :
  benv e p pid -> brep pid s c -> handle s i b -> b ∈ c_held c ->
  exists x, bcache s !! i = Some x /\ b_dev x = ROOTDEV /\ b_blockno x = b /\ b_valid x <> 0 /\
    b_data x = c_blk c b /\ b_refcnt x = ref_of c b /\ c_ref c !! b = Some (b_refcnt x) /\
    0 < b_refcnt x < 2 ^ 32 /\ slock (bio_locks s) (BufLock i) = Sleeplock 1 pid /\
    zoom (holdingsleep (BufLock i)) e s = Ret true e s.
Proof.
  intros E R Hh Hheld. destruct (br_held _ _ _ R b Hheld) as [r Hr].
  destruct (ref_handle pid s c i b r R Hh Hr) as (x & Hx & Hd & Hb & Hxr & Hpos).
  destruct Hh as (Hi & _). destruct (br_buf _ _ _ R i x Hi Hx) as [Hv [[H0 _]|(Hlt & _ & Hr' & Hlk)]]; [lia|].
  destruct (Hv Hd) as [Hv1 Hv2]. rewrite Hb in *. rewrite bool_decide_eq_true_2 in Hlk by done. simpl in Hlk.
  exists x. unfold ref_of. rewrite Hr. simpl. split_and!; try done; [congruence|lia|lia|].
  pose proof (holdingsleep_run (BufLock i) e p pid (bio_locks s) (be_runs _ _ _ E) (be_sleep _ _ _ E i)) as Hz.
  rewrite Hlk in Hz. simpl in Hz. rewrite Z.eqb_refl in Hz.
  pose proof (zoom_Ret (holdingsleep (BufLock i)) e s true e (bio_locks s) Hz) as Ez. rewrite Ez. by destruct s.
Qed.

Lemma locks_same (t : sleeplocks) l lk : slock t l = lk -> sl_locked lk <> 0 -> <[l := lk]> t = t.
Proof.
  intros Hl Hne. unfold slock in Hl. destruct (t !! l) eqn:E; simpl in Hl; [subst; by apply insert_id|]. by subst.
Qed.

Lemma handle_other pid s c i b : brep pid s c -> handle s i b -> forall j, j <> i -> ~ handle s j b.
Proof. intros R Hi j Hne Hj. by apply Hne, (br_uniq _ _ _ R j i b). Qed.

(** Modifying the data of a locked buffer. *)
Lemma set_data_run e p pid s c i b d :
  benv e p pid -> brep pid s c -> handle s i b -> b ∈ c_held c -> length d = bsize ->
  exists s', updb i (set_data d) e s = Ret tt e s' /\ bio_disk s' = bio_disk s /\
    brep pid s' (c_set c b d) /\ keeps s s' (c_set c b d).
Proof.
  intros E R Hh Hheld Hd.
  destruct (handle_locked e p pid s c i b E R Hh Hheld) as (x & Hx & Hxd & Hxb & Hv & Hdata & Hr & Hr' & Hpos & Hlk & _).
  exists (with_buf s i (set_data d x) (Sleeplock 1 pid) (bio_disk s)). split; [|split; [done|]].
  - rewrite updb_run. unfold set_bcache. rewrite (alter_insert _ _ _ x Hx). unfold with_buf. by rewrite (locks_same _ _ _ Hlk).
  - apply (brep_upd pid s c i x b); try done; [apply Hh|by right|by apply (handle_other pid s c)|..].
    + intros b' Hne. simpl. by rewrite upd_ne.
    + split; [intros _; split; [done|]; simpl; by rewrite Hxb, upd_at|]. right. simpl. rewrite Hxb.
      split_and!; try done; [lia|lia|]. by rewrite bool_decide_eq_true_2.
    + simpl. lia.
    + apply R.
    + simpl. by rewrite upd_at.
    + apply R.
Qed.

Lemma disk_get_put d b v b' : disk_get (disk_put b v d) b' = upd (disk_get d) b v b'.
Proof. unfold disk_get, overlay, upd. simpl. rewrite (Z.eqb_sym b b'). by destruct (b' =? b). Qed.

Lemma bwrite_run e p pid s c i b :
  benv e p pid -> brep pid s c -> handle s i b -> b ∈ c_held c ->
  exists s', bwrite i e s = Ret tt e s' /\ bio_disk s' = disk_put b (c_blk c b) (bio_disk s) /\
    brep pid s' (c_flush c b) /\ keeps s s' (c_flush c b).
Proof.
  intros E R Hh Hheld.
  destruct (handle_locked e p pid s c i b E R Hh Hheld) as (x & Hx & Hxd & Hxb & Hv & Hdata & Hr & Hr' & Hpos & Hlk & Hz).
  set (d' := disk_put b (c_blk c b) (bio_disk s)).
  exists (with_buf s i x (Sleeplock 1 pid) d'). split; [|split; [done|]].
  - unfold bwrite. rewrite (bind_step _ _ _ _ _ _ _ Hz). cbn [negb]. unfold disk_rw.
    rewrite (bind_step _ _ _ _ _ _ _ (getb_run i x e s Hx)). unfold modify. rewrite Hxb, Hdata. unfold with_buf.
    by rewrite (locks_same _ _ _ Hlk), list_insert_id.
  - apply (brep_upd pid s c i x b); try done; [apply Hh|by right|by apply (handle_other pid s c)|..].
    + intros b' Hne. simpl. by rewrite upd_ne.
    + split; [intros _; split; [done|]; simpl; by rewrite Hxb|]. right. simpl. rewrite Hxb.
      split_and!; try done; [lia|lia|]. by rewrite bool_decide_eq_true_2.
    + lia.
    + intros b'. unfold d'. rewrite disk_get_put. simpl. unfold upd. rewrite (br_disk _ _ _ R). done.
    + apply R.
    + simpl. rewrite upd_at. apply R.
Qed.

Lemma dropped_ne c b b' : b' <> b -> dropped c b !! b' = c_ref c !! b'.
Proof. intros H. unfold dropped. destruct (_ =? 1); [by rewrite lookup_delete_ne|by rewrite lookup_insert_ne]. Qed.

Lemma dropped_eq c b : dropped c b !! b = if ref_of c b =? 1 then None else Some (ref_of c b - 1).
Proof. unfold dropped. destruct (_ =? 1); [by rewrite lookup_delete_eq|by rewrite lookup_insert_eq]. Qed.

(** Dropping a reference to [b]; the last one only when the block is clean. *)
Lemma drop_ref e p pid s c i b x held' lk' :
  benv e p pid -> brep pid s c -> handle s i b -> bcache s !! i = Some x ->
  c_ref c !! b = Some (b_refcnt x) -> 0 < b_refcnt x < 2 ^ 32 ->
  (ref_of c b = 1 -> c_blk c b = c_disk c b /\ sl_locked lk' = 0 /\ (b ∉ held')) ->
  (forall b', b' <> b -> b' ∈ held' <-> b' ∈ c_held c) ->
  lock_word pid (bool_decide (b ∈ held')) lk' ->
  let c' := Cache (dropped c b) (c_blk c) (c_disk c) held' in
  let s' := with_buf s i (set_refcnt (b_refcnt x - 1) x) lk' (bio_disk s) in
  brep pid s' c' /\ keeps s s' c'.
Proof.
  intros E R Hh Hx Hr Hpos Hlast Hheld Hlk c' s'.
  assert (Er : ref_of c b = b_refcnt x) by (unfold ref_of; by rewrite Hr).
  destruct (Hh) as (Hi & x0 & Hx0 & Hd & Hb). rewrite Hx in Hx0. injection Hx0 as <-.
  destruct (br_buf _ _ _ R i x Hi Hx) as [Hv _]. destruct (Hv Hd) as [Hv1 Hv2]. rewrite Hb in Hv2.
  apply (brep_upd pid s c i x b); try done; [by right|by apply (handle_other pid s c)|..].
  - intros b' Hne. unfold c'. simpl. rewrite dropped_ne by done. split_and!; try done; by apply Hheld.
  - split; [intros _; split; [done|]; by unfold c'; simpl; rewrite Hb|]. unfold c'. simpl. rewrite Hb, dropped_eq, Er.
    destruct (Z.eqb_spec (b_refcnt x) 1) as [E1|E1].
    + left. split; [lia|]. rewrite E1 in Er. by apply Hlast.
    + right. split; [lia|]. done.
  - simpl. intros E0. unfold c'. simpl. rewrite dropped_eq, Er, (proj2 (Z.eqb_eq _ _)) by lia.
    destruct Hlast as (? & ? & ?); [lia|done].
  - intros b'. apply R.
  - apply R.
  - apply R.
Qed.

Lemma keeps_iff s s' s'' c : (forall i b, handle s'' i b <-> handle s' i b) -> keeps s s' c -> keeps s s'' c.
Proof. intros H K i b Hi Hr. apply H. by apply K. Qed.

Lemma brelse_run e p pid s c i b :
  benv e p pid -> brep pid s c -> handle s i b -> b ∈ c_held c ->
  (ref_of c b = 1 -> c_blk c b = c_disk c b) ->
  exists s', brelse i e s = Ret tt e s' /\ bio_disk s' = bio_disk s /\
    brep pid s' (c_put c b) /\ keeps s s' (c_put c b).
Proof.
  intros E R Hh Hheld Hclean.
  destruct (handle_locked e p pid s c i b E R Hh Hheld) as (x & Hx & Hxd & Hxb & Hv & Hdata & Hr & Hr' & Hpos & Hlk & Hz).
  set (s1 := with_buf s i (set_refcnt (b_refcnt x - 1) x) (Sleeplock 0 0) (bio_disk s)).
  assert (Hd : brep pid s1 (c_put c b) /\ keeps s s1 (c_put c b)).
  { apply (drop_ref e p pid s c i b x); try done.
    - intros E1. split; [by apply Hclean|]. split; [done|]. set_solver.
    - set_solver.
    - by rewrite bool_decide_eq_false_2 by set_solver. }
  unfold brelse. rewrite (bind_step _ _ _ _ _ _ _ Hz). cbn [negb].
  pose proof (zoom_Ret (releasesleep (BufLock i)) e s tt e _
                (releasesleep_run (BufLock i) e p pid _ (be_runs _ _ _ E) (be_sleep _ _ _ E i) (be_wait _ _ _ E i))) as Er.
  rewrite (bind_step _ _ _ _ _ _ _ Er). pose proof (be_cache _ _ _ E) as Hbl. kstep.
  rewrite (bind_step _ _ _ _ _ _ _ (updb_run _ _ (locked BcacheLock e) _)).
  assert (Es1 : set_bcache (part_put (<[BufLock i := Sleeplock 0 0]> (part_get s)) s)
                  (alter (fun x => set_refcnt (u32 (b_refcnt x - 1)) x) i (bcache (part_put (<[BufLock i := Sleeplock 0 0]> (part_get s)) s)))
                = s1).
  { simpl. unfold s1, with_buf, set_bcache. simpl. rewrite (alter_insert _ _ _ x Hx).
    by rewrite uint_wrap_small by lia. }
  rewrite Es1. clear Es1.
  assert (Hx1 : bcache s1 !! i = Some (set_refcnt (b_refcnt x - 1) x)) by (by apply (lookup_set_bcache _ _ _ x)).
  rewrite (bind_step _ _ _ _ _ _ _ (getb_run i _ (locked BcacheLock e) s1 Hx1)). simpl b_refcnt.
  destruct Hd as [R1 K1]. destruct (b_refcnt x - 1 =? 0).
  - destruct (brep_front pid s1 _ i R1 ltac:(apply Hh)) as [R2 H2]. eexists. split; [|split; [|split; [exact R2|by eapply keeps_iff]]]; [|done].
    ksteps. destruct Hh as [Hi _]. pose proof (br_len _ _ _ R1) as Hlen.
    assert (Hi1 : (i < length (bcache s1))%nat) by (rewrite Hlen; lia).
    assert (Hh1 : (head < length (unlinked i (bcache s1)))%nat)
      by (unfold unlinked; rewrite !length_alter, Hlen; unfold head; lia).
    rewrite (bind_step _ _ _ _ _ _ _ (unlink_run i (locked BcacheLock e) s1 Hi1)).
    rewrite (bind_step _ _ _ _ _ _ _ (link_front_run i (locked BcacheLock e) (set_bcache s1 (unlinked i (bcache s1))) Hh1 ltac:(unfold head; lia))).
    by ksteps.
  - exists s1. ksteps. done.
Qed.

(** A referenced buffer, locked or not. *)
Lemma handle_refd pid s c i b :
  brep pid s c -> handle s i b -> is_Some (c_ref c !! b) ->
  exists x, bcache s !! i = Some x /\ b_dev x = ROOTDEV /\ b_blockno x = b /\ b_valid x <> 0 /\
    b_data x = c_blk c b /\ b_refcnt x = ref_of c b /\ c_ref c !! b = Some (b_refcnt x) /\
    0 < b_refcnt x < 2 ^ 32 /\ lock_word pid (bool_decide (b ∈ c_held c)) (slock (bio_locks s) (BufLock i)).
Proof.
  intros R Hh [r Hr]. destruct (ref_handle pid s c i b r R Hh Hr) as (x & Hx & Hd & Hb & Hxr & Hpos).
  destruct Hh as (Hi & _). destruct (br_buf _ _ _ R i x Hi Hx) as [Hv [[H0 _]|(Hlt & _ & Hr' & Hlk)]]; [lia|].
  destruct (Hv Hd) as [Hv1 Hv2]. rewrite Hb in *.
  exists x. unfold ref_of. rewrite Hr. simpl. split_and!; try done; [congruence|lia|lia].
Qed.

(** Updating the count of buffer [i] leaves its lock as it is. *)
Lemma updb_with i f s x :
  bcache s !! i = Some x ->
  let l := slock (bio_locks s) (BufLock i) in
  exists t, set_bcache s (alter f i (bcache s)) = Bio (<[i := f x]> (bcache s)) t (bio_disk s) /\
    (forall k, slock t k = slock (<[BufLock i := l]> (bio_locks s)) k).
Proof.
  intros Hx l. exists (bio_locks s). split; [by rewrite <- (alter_insert f i _ x Hx)|]. intros k.
  destruct (decide (BufLock i = k)) as [<-|Hne]; [by rewrite slock_insert|by rewrite slock_insert_ne].
Qed.

Lemma brep_locks pid s c t :
  brep pid s c -> (forall k, slock t k = slock (bio_locks s) k) -> brep pid (Bio (bcache s) t (bio_disk s)) c.
Proof.
  intros [] H. split; try done. intros i x Hi Hx. simpl. rewrite H. by auto.
Qed.

(** One critical section of the cache lock that changes the count of a buffer. *)
Lemma count_run e p pid s i x r c' :
  benv e p pid -> bcache s !! i = Some x ->
  brep pid (with_buf s i (set_refcnt r x) (slock (bio_locks s) (BufLock i)) (bio_disk s)) c' ->
  keeps s (with_buf s i (set_refcnt r x) (slock (bio_locks s) (BufLock i)) (bio_disk s)) c' ->
  forall f, f x = set_refcnt r x ->
  exists s', (acquire BcacheLock ;; updb i f ;; release BcacheLock) e s = Ret tt e s' /\
    bio_disk s' = bio_disk s /\ brep pid s' c' /\ keeps s s' c'.
Proof.
  intros E Hx R K f Hf. pose proof (be_cache _ _ _ E) as Hl. eexists. split; [|split; [|split]].
  - kstep. rewrite (bind_step _ _ _ _ _ _ _ (updb_run _ _ (locked BcacheLock e) s)). by kstep.
  - done.
  - destruct (updb_with i f s x Hx) as (t & -> & Ht). rewrite Hf.
    apply (brep_locks pid _ _ t R). intros k. rewrite Ht. done.
  - destruct (updb_with i f s x Hx) as (t & -> & _). rewrite Hf. exact K.
Qed.

Lemma bpin_run e p pid s c i b :
  benv e p pid -> brep pid s c -> handle s i b -> is_Some (c_ref c !! b) -> ref_of c b + 1 < 2 ^ 32 ->
  exists s', bpin i e s = Ret tt e s' /\ bio_disk s' = bio_disk s /\
    brep pid s' (c_pin c b) /\ keeps s s' (c_pin c b).
Proof.
  intros E R Hh Hs Hmax. destruct (handle_refd pid s c i b R Hh Hs) as (x & Hx & Hd & Hb & Hv & Hdata & Hr & Hr' & Hpos & Hlk).
  assert (brep pid (with_buf s i (set_refcnt (b_refcnt x + 1) x) (slock (bio_locks s) (BufLock i)) (bio_disk s)) (c_pin c b) /\
          keeps s (with_buf s i (set_refcnt (b_refcnt x + 1) x) (slock (bio_locks s) (BufLock i)) (bio_disk s)) (c_pin c b))
    as [R1 K1].
  { apply (brep_upd pid s c i x b); try done; [apply Hh|by right|by apply (handle_other pid s c)|..].
    - intros b' Hne. simpl. by rewrite lookup_insert_ne.
    - split; [intros _; simpl; by rewrite Hb|]. right. simpl. rewrite Hb, lookup_insert_eq, Hr. split_and!; try done; lia.
    - simpl. lia.
    - apply R.
    - apply R.
    - apply R. }
  unfold bpin. apply (count_run e p pid s i x (b_refcnt x + 1)); try done.
  by rewrite uint_wrap_small by lia.
Qed.

Lemma bunpin_run e p pid s c i b :
  benv e p pid -> brep pid s c -> handle s i b -> is_Some (c_ref c !! b) ->
  (ref_of c b = 1 -> c_blk c b = c_disk c b /\ (b ∉ c_held c)) ->
  exists s', bunpin i e s = Ret tt e s' /\ bio_disk s' = bio_disk s /\
    brep pid s' (c_unpin c b) /\ keeps s s' (c_unpin c b).
Proof.
  intros E R Hh Hs Hlast. destruct (handle_refd pid s c i b R Hh Hs) as (x & Hx & Hd & Hb & Hv & Hdata & Hr & Hr' & Hpos & Hlk).
  destruct (drop_ref e p pid s c i b x (c_held c) (slock (bio_locks s) (BufLock i)) E R Hh Hx Hr' Hpos) as [R1 K1]; try done.
  { intros E1. destruct (Hlast E1) as [? Hn]. split; [done|]. split; [|done].
    by rewrite bool_decide_eq_false_2 in Hlk. }
  unfold bunpin. apply (count_run e p pid s i x (b_refcnt x - 1)); try done.
  by rewrite uint_wrap_small by lia.
Qed.

(** ** [binit] *)

Definition binit_body (i : nat) : K bio unit :=
  h <- getb head ;;
  updb i (set_next (b_next h)) ;;
  updb i (set_prev head) ;;
  zoom (initsleeplock (BufLock i)) ;;
  h <- getb head ;;
  updb (b_next h) (set_prev i) ;;
  updb head (set_next i).

Lemma binit_body_run e i s :
  (head < length (bcache s))%nat -> i <> head -> SleepLk (BufLock i) ∉ held e ->
  binit_body i e s =
    Ret tt e (Bio (fronted i (bcache s)) (<[BufLock i := Sleeplock 0 0]> (bio_locks s)) (bio_disk s)).
Proof.
  intros Hh Hi Hl. destruct (lookup_lt_is_Some_2 _ _ Hh) as [b Hb]. unfold binit_body.
  rewrite (bind_step _ _ _ _ _ _ _ (getb_run head b e s Hb)).
  do 2 rewrite (bind_step _ _ _ _ _ _ _ (updb_run _ _ e _)).
  set (s2 := set_bcache _ _).
  assert (Ei : initsleeplock (BufLock i) e (bio_locks s2) = Ret tt e (<[BufLock i := Sleeplock 0 0]> (bio_locks s2)))
    by (unfold initsleeplock; by rewrite (bind_step _ _ _ _ _ _ _ (initlock_free _ e _ Hl))).
  pose proof (zoom_Ret (initsleeplock (BufLock i)) e s2 tt e _ Ei) as Ez.
  rewrite (bind_step _ _ _ _ _ _ _ Ez). set (s3 := part_put _ s2).
  assert (Hb3 : bcache s3 !! head = Some b) by (simpl; by rewrite !list_lookup_alter_ne).
  rewrite (bind_step _ _ _ _ _ _ _ (getb_run head b e s3 Hb3)).
  rewrite (bind_step _ _ _ _ _ _ _ (updb_run _ _ e s3)), updb_run. unfold fronted, nx. by rewrite Hb.
Qed.

Lemma core_fronted i (bs : list buf) k : core <$> fronted i bs !! k = core <$> bs !! k.
Proof. unfold fronted. by rewrite !core_alter. Qed.

Lemma binit_loop e n a s :
  (a + n <= NBUF)%nat -> length (bcache s) = S NBUF -> (forall i, SleepLk (BufLock i) ∉ held e) ->
  chain (bcache s) head (reverse (seq 0 a)) ->
  exists s', for_each (seq a n) binit_body e s = Ret tt e s' /\
    length (bcache s') = S NBUF /\ chain (bcache s') head (reverse (seq 0 (a + n))) /\
    (forall k, core <$> bcache s' !! k = core <$> bcache s !! k) /\ bio_disk s' = bio_disk s /\
    (forall i, sl_locked (slock (bio_locks s) (BufLock i)) = 0 \/ (a <= i < a + n)%nat ->
       sl_locked (slock (bio_locks s') (BufLock i)) = 0).
Proof.
  revert a s. induction n as [|n IH]; intros a s Hn Hlen Hl Hc; cbn [seq for_each].
  - exists s. rewrite Nat.add_0_r. repeat (split; [done|]). intros i [H|H]; [done|lia].
  - rewrite (bind_step _ _ _ _ _ _ _ (binit_body_run e a s ltac:(rewrite Hlen; unfold head; lia) ltac:(unfold head; lia) (Hl a))).
    set (s1 := Bio _ _ _).
    assert (Hin : forall k, k ∈ reverse (seq 0 a) <-> (k < a)%nat).
    { intros k. rewrite elem_of_reverse, elem_of_seq. lia. }
    assert (Hc1 : chain (bcache s1) head (reverse (seq 0 (S a)))).
    { rewrite seq_S, reverse_app. simpl. apply fronted_chain; [done|..].
      - apply NoDup_cons. rewrite Hin. split; [unfold head; lia|]. rewrite reverse_Permutation. apply NoDup_seq.
      - rewrite elem_of_cons, Hin. unfold head. lia.
      - apply Forall_forall. intros k. rewrite !elem_of_cons, Hin, Hlen. unfold head. lia. }
    destruct (IH (S a) s1) as (s' & E & H1 & H2 & H3 & H4 & H5); [lia| |done|done|].
    { simpl. unfold fronted. by rewrite !length_alter. }
    exists s'. split; [done|]. split; [done|]. split; [by rewrite Nat.add_succ_r|].
    split; [intros k; rewrite H3; apply core_fronted|]. split; [done|].
    intros i Hi. apply H5. simpl. destruct (decide (i = a)) as [->|Hne]; [left; by rewrite slock_insert|].
    rewrite slock_insert_ne by congruence. destruct Hi; [by left|right; lia].
Qed.

(** The zeroed array of buffers, and the cache that [binit] makes of it. *)
Definition buf0 : buf := Buf 0 0 0 0 0 0 (replicate bsize 0).
Definition bio0 (d : disk) : bio := Bio (replicate (S NBUF) buf0) ∅ d.
Definition cache0 (d : disk) : cache := Cache ∅ (disk_get d) (disk_get d) ∅.

Lemma binit_run e pid d :
  BcacheLock ∉ held e -> (forall i, SleepLk (BufLock i) ∉ held e) ->
  (forall b, length (disk_get d b) = bsize) ->
  exists s, binit e (bio0 d) = Ret tt e s /\ bio_disk s = d /\ brep pid s (cache0 d).
Proof.
  intros Hb Hl Hd. unfold binit. rewrite (bind_step _ _ _ _ _ _ _ (initlock_free _ e _ Hb)).
  do 2 rewrite (bind_step _ _ _ _ _ _ _ (updb_run _ _ e _)).
  set (s1 := set_bcache _ _).
  destruct (binit_loop e NBUF 0 s1) as (s & E & H1 & H2 & H3 & H4 & H5); [lia|done|done|done|].
  exists s. change (for_each _ _ e s1) with (for_each (seq 0 NBUF) binit_body e s1). split; [done|]. split; [done|].
  assert (Hcore : forall i x, bcache s !! i = Some x -> core x = core buf0).
  { intros i x Hx. specialize (H3 i). rewrite Hx in H3.
    assert (E1 : core <$> bcache s1 !! i = core <$> replicate (S NBUF) buf0 !! i)
      by (unfold s1; cbn [bcache set_bcache bio0]; by rewrite !core_alter).
    rewrite E1 in H3. destruct (replicate _ _ !! i) as [y|] eqn:Ey; [|done].
    apply lookup_replicate in Ey as [-> _]. simpl in H3. congruence. }
  assert (Hno : forall i b, ~ handle s i b).
  { intros i b (Hi & x & Hx & Hdv & _). apply Hcore in Hx. injection Hx as _ Ed _ _ _. rewrite Ed in Hdv. done. }
  split.
  - exact H1.
  - exists (reverse (seq 0 NBUF)). split; [exact H2|apply reverse_Permutation].
  - intros i x Hi Hx. apply Hcore in Hx. injection Hx as Ev Ed Eb Er Ex. split.
    + intros Hdv. rewrite Ed in Hdv. discriminate Hdv.
    + left. split; [exact Er|]. apply H5. right. lia.
  - intros i j b Hi. by destruct (Hno i b).
  - intros b r Hr. discriminate Hr.
  - reflexivity.
  - intros b. by rewrite H4.
  - intros b. split; apply Hd.
  - intros b Hb'. exfalso. revert Hb'. apply not_elem_of_empty.
Qed.

(** ** The theorems *)

Lemma not_holding e p pid s c i b :
  benv e p pid -> brep pid s c -> handle s i b -> b ∉ c_held c ->
  zoom (holdingsleep (BufLock i)) e s = Ret false e s.
Proof.
  intros E R (Hi & x & Hx & Hd & Hb) Hn.
  assert (Hlk : sl_locked (slock (bio_locks s) (BufLock i)) = 0).
  { destruct (br_buf _ _ _ R i x Hi Hx) as [_ [[_ H]|(_ & _ & _ & H)]]; [done|].
    by rewrite bool_decide_eq_false_2 in H by congruence. }
  pose proof (holdingsleep_run (BufLock i) e p pid (bio_locks s) (be_runs _ _ _ E) (be_sleep _ _ _ E i)) as Hz.
  rewrite Hlk in Hz. simpl in Hz.
  pose proof (zoom_Ret (holdingsleep (BufLock i)) e s false e (bio_locks s) Hz) as Ez. rewrite Ez. by destruct s.
Qed.

Lemma bread_full e p pid s c b :
  benv e p pid -> brep pid s c -> (forall i, ~ handle s i b) ->
  (forall i x, (i < NBUF)%nat -> bcache s !! i = Some x -> b_refcnt x <> 0) ->
  bread ROOTDEV b e s = Panic "bget: no buffers".
Proof.
  intros E R Hno Hfull. destruct (head_lookup pid s c R) as [h Hh]. unfold bread, bget.
  pose proof (be_cache _ _ _ E) as Hl. ksteps.
  rewrite (bind_step _ _ _ _ _ _ _ (getb_run head h (locked BcacheLock e) s Hh)). ksteps.
  pose proof (scan_hit pid s c h b R Hh) as Hscan.
  destruct (scan (S NBUF) b_next _ _ _) as [i|]; [by destruct (Hno i)|]. ksteps.
  destruct (br_ring _ _ _ R) as (o & Ho & Hp).
  destruct (order_facts pid s c o R Hp) as (Hin & Hlen & Hhd & _ & Hrange).
  apply Forall_cons in Hrange as [_ Hrange].
  pose proof (chain_prev _ _ _ Ho) as Hn. unfold pv in Hn. rewrite Hh in Hn. simpl in Hn. rewrite Hn.
  rewrite (scan_prev _ _ _ o []) by (rewrite ?app_nil_r; done).
  destruct (List.find _ (reverse o)) as [i|] eqn:Ef; [|done].
  apply List.find_some in Ef as [Hi Hm]. apply list_elem_of_In in Hi. rewrite elem_of_reverse in Hi. apply Hin in Hi.
  unfold matches in Hm. destruct (bcache s !! i) as [x|] eqn:Ex; [|done]. zbool. by destruct (Hfull i x Hi Ex).
Qed.

(** C8 The buffer cache implements its contract.  In a state that represents
    the abstract cache [c], [bread] of a block that can be had returns a locked
    buffer with the block's current contents, whether it was cached or had to be
    read into the least recently used free buffer; [bwrite] makes the contents
    durable, [brelse], [bpin] and [bunpin] change the reference count; each
    leaves a state that represents the updated cache.  The error paths panic:
    using a buffer that is not locked, and asking for a block when every buffer
    is referenced. *)
Theorem bcache_refines e p pid s c :
  benv e p pid -> brep pid s c ->
  (forall b, can_get c b ->
     exists i s' x, bread ROOTDEV b e s = Ret i e s' /\ handle s' i b /\
       bcache s' !! i = Some x /\ b_data x = c_blk c b /\ brep pid s' (c_got c b)) /\
  (forall i b, handle s i b -> b ∈ c_held c ->
     (exists s', bwrite i e s = Ret tt e s' /\ brep pid s' (c_flush c b)) /\
     ((ref_of c b = 1 -> c_blk c b = c_disk c b) ->
      exists s', brelse i e s = Ret tt e s' /\ brep pid s' (c_put c b))) /\
  (forall i b, handle s i b -> is_Some (c_ref c !! b) ->
     (ref_of c b + 1 < 2 ^ 32 -> exists s', bpin i e s = Ret tt e s' /\ brep pid s' (c_pin c b)) /\
     (2 <= ref_of c b -> exists s', bunpin i e s = Ret tt e s' /\ brep pid s' (c_unpin c b))) /\
  (forall i b, handle s i b -> b ∉ c_held c ->
     bwrite i e s = Panic "bwrite" /\ brelse i e s = Panic "brelse") /\
  (forall b, (forall i, ~ handle s i b) ->
     (forall i x, (i < NBUF)%nat -> bcache s !! i = Some x -> b_refcnt x <> 0) ->
     bread ROOTDEV b e s = Panic "bget: no buffers").
Proof.
  intros E R. split; [|split; [|split; [|split]]].
  - intros b Hc. destruct (bread_run e p pid s c b E R Hc) as (i & s' & Eb & Hh & R' & _).
    destruct (handle_locked e p pid s' _ i b E R' Hh ltac:(set_solver)) as (x & Hx & _ & _ & _ & Hd & _).
    by exists i, s', x.
  - intros i b Hh Hheld. split.
    + destruct (bwrite_run e p pid s c i b E R Hh Hheld) as (s' & Eb & _ & R' & _). by exists s'.
    + intros Hcl. destruct (brelse_run e p pid s c i b E R Hh Hheld Hcl) as (s' & Eb & _ & R' & _). by exists s'.
  - intros i b Hh Hs. split.
    + intros Hmax. destruct (bpin_run e p pid s c i b E R Hh Hs Hmax) as (s' & Eb & _ & R' & _). by exists s'.
    + intros H2. destruct (bunpin_run e p pid s c i b E R Hh Hs ltac:(lia)) as (s' & Eb & _ & R' & _). by exists s'.
  - intros i b Hh Hn. pose proof (not_holding e p pid s c i b E R Hh Hn) as Ez.
    unfold bwrite, brelse. by rewrite !(bind_step _ _ _ _ _ _ _ Ez).
  - intros b. by apply (bread_full e p pid s c).
Qed.

(** ** Witnesses *)

(** Process 0 runs with pid 7, the rest of the table is unused. *)
Definition demo_runner : proc := Proc RUNNING ChanNull 0 0 7 None.
Definition demo_idle : proc := Proc UNUSED ChanNull 0 0 0 None.
Definition demo_kenv : env := Env ∅ (demo_runner :: replicate 63 demo_idle) (Some 0%nat) 8 None.
Definition demo_disk : disk := Disk (fun b => replicate bsize (u8 b)) [].

Lemma demo_no_waiter c : no_waiter demo_kenv c.
Proof.
  intros [|i] q Hq; simpl in Hq; [by injection Hq as <-; intros [? _]|].
  apply (lookup_replicate_1 63 demo_idle) in Hq as [-> _]. by intros [? _].
Qed.

Lemma demo_runs : runs demo_kenv 0 7.
Proof. split; [done|by exists demo_runner|done|]. intros i. apply not_elem_of_empty. Qed.

Lemma demo_benv : benv demo_kenv 0 7.
Proof.
  split; [apply demo_runs|apply not_elem_of_empty|intros; apply not_elem_of_empty|].
  intros i. apply demo_no_waiter.
Qed.

Lemma demo_disk_size b : length (disk_get demo_disk b) = bsize.
Proof. apply length_replicate. Qed.

Lemma bcache_refines_witness :
  exists s i s' x, binit demo_kenv (bio0 demo_disk) = Ret tt demo_kenv s /\
    bread ROOTDEV 5 demo_kenv s = Ret i demo_kenv s' /\
    bcache s' !! i = Some x /\ b_data x = replicate bsize 5.
Proof.
  destruct (binit_run demo_kenv 7 demo_disk) as (s & E & _ & R);
    [apply not_elem_of_empty|intros; apply not_elem_of_empty|apply demo_disk_size|].
  destruct (bcache_refines demo_kenv 0 7 s (cache0 demo_disk) demo_benv R) as [H _].
  destruct (H 5) as (i & s' & x & Eb & _ & Hx & Hd & _).
  { split; [apply not_elem_of_empty|]. split; [reflexivity|]. right. vm_compute. lia. }
  exists s, i, s', x. split; [exact E|]. split; [exact Eb|]. split; [exact Hx|exact Hd].
Defined.
