(* ===== verification/Log.v ===== *)
(** * kernel/log.c: crash-safe transactions

    A redo log on disk: a commit copies the modified blocks to the log area,
    writes the header block (the commit point), installs the blocks at their home
    locations and erases the header.  Recovery installs whatever the header
    names.  The theorems are about crashes: at every point between two disk
    writes the disk holds all of a transaction or nothing of it. *)

From stdpp Require Import base gmap sets list strings.
From Stdlib Require Import ZArith Lia.
From S2P Require Import Prelude Kernel Sched Sleeplock Bytes Bio.

(** ** Definitions *)

Definition MAXOPBLOCKS : Z := 10.
Definition LOGSIZE : Z := MAXOPBLOCKS * 3.

(** [struct superblock] of fs.h *)
Record superblock : Type := Superblock {
  sb_magic : Z;
  sb_size : Z;
  sb_nblocks : Z;
  sb_ninodes : Z;
  sb_nlog : Z;
  sb_logstart : Z;
  sb_inodestart : Z;
  sb_bmapstart : Z
}.

(** [struct log] with its in-memory header ([l_n], [l_block]), on top of the
    buffer cache *)
Record logst : Type := Logst {
  l_bio : bio;
  l_start : Z;
  l_size : Z;
  l_outstanding : Z;
  l_committing : Z;
  l_dev : Z;
  l_n : Z;
  l_block : list Z
}.

Definition with_bio (s : logst) (b : bio) : logst :=
  Logst b (l_start s) (l_size s) (l_outstanding s) (l_committing s) (l_dev s) (l_n s) (l_block s).
Definition set_geometry (start size dev : Z) (s : logst) : logst :=
  Logst (l_bio s) start size (l_outstanding s) (l_committing s) dev (l_n s) (l_block s).
Definition set_outstanding (o : Z) (s : logst) : logst :=
  Logst (l_bio s) (l_start s) (l_size s) o (l_committing s) (l_dev s) (l_n s) (l_block s).
Definition set_committing (c : Z) (s : logst) : logst :=
  Logst (l_bio s) (l_start s) (l_size s) (l_outstanding s) c (l_dev s) (l_n s) (l_block s).
Definition set_n (n : Z) (s : logst) : logst :=
  Logst (l_bio s) (l_start s) (l_size s) (l_outstanding s) (l_committing s) (l_dev s) n (l_block s).
Definition set_block (bl : list Z) (s : logst) : logst :=
  Logst (l_bio s) (l_start s) (l_size s) (l_outstanding s) (l_committing s) (l_dev s) (l_n s) bl.

#[export] Instance logst_bio : Part logst bio :=
  {| part_get := l_bio;
     part_put := fun b s => with_bio s b;
     part_get_put := fun _ _ => eq_refl;
     part_put_get := fun s => match s with Logst _ _ _ _ _ _ _ _ => eq_refl end;
     part_put_put := fun _ _ _ => eq_refl |}.

(** [log.lh.block[i]]; the array has [LOGSIZE] entries *)
Definition get_block (i : Z) : K logst Z :=
  fun e s => match l_block s !! Z.to_nat i with
             | Some b => Ret b e s
             | None => Undef "lh.block index"
             end.
Definition put_block (i v : Z) : K logst unit :=
  fun e s => if (Z.to_nat i <? length (l_block s))%nat
             then Ret tt e (set_block (<[Z.to_nat i := v]> (l_block s)) s)
             else Undef "lh.block index".

(** [bread(log.dev, b)] *)
Definition log_bread (b : Z) : K logst nat :=
  dev <- gets l_dev ;;
  zoom (bread (u32 dev) (u32 b)).

(** [memmove(to->data, from->data, BSIZE)] *)
Definition copy_buf (to from : nat) : K logst unit :=
  x <- zoom (getb from) ;;
  zoom (updb to (set_data (b_data x))).

Definition install_trans (recovering : bool) : K logst unit :=
  n <- gets l_n ;;
  for_each (seqZ 0 n) (fun tail =>
    start <- gets l_start ;;
    lbuf <- log_bread (start + tail + 1) ;;
    b <- get_block tail ;;
    dbuf <- log_bread b ;;
    copy_buf dbuf lbuf ;;
    zoom (bwrite dbuf) ;;
    when (negb recovering) (zoom (bunpin dbuf)) ;;
    zoom (brelse lbuf) ;;
    zoom (brelse dbuf)).

(** Offsets in [struct logheader]. *)
Definition off_n : nat := 0.
Definition off_block (i : Z) : nat := (4 + 4 * Z.to_nat i)%nat.

Definition read_head : K logst unit :=
  start <- gets l_start ;;
  buf <- log_bread start ;;
  x <- zoom (getb buf) ;;
  modify (set_n (ld_int off_n (b_data x))) ;;
  n <- gets l_n ;;
  for_each (seqZ 0 n) (fun i => put_block i (ld_int (off_block i) (b_data x))) ;;
  zoom (brelse buf).

Definition write_head : K logst unit :=
  start <- gets l_start ;;
  buf <- log_bread start ;;
  n <- gets l_n ;;
  zoom (updb buf (fun x => set_data (st 4 off_n n (b_data x)) x)) ;;
  for_each (seqZ 0 n) (fun i =>
    b <- get_block i ;;
    zoom (updb buf (fun x => set_data (st 4 (off_block i) b (b_data x)) x))) ;;
  zoom (bwrite buf) ;;
  zoom (brelse buf).

Definition recover_from_log : K logst unit :=
  read_head ;;
  install_trans true ;;
  modify (set_n 0) ;;
  write_head.

(** [sizeof(struct logheader)] *)
Definition sizeof_logheader : Z := 4 + 4 * LOGSIZE.

Definition initlog (dev : Z) (sb : superblock) : K logst unit :=
  if BSIZE <=? sizeof_logheader then panic "initlog: too big logheader"
  else
    initlock LogLock ;;
    modify (set_geometry (i32 (sb_logstart sb)) (i32 (sb_nlog sb)) dev) ;;
    recover_from_log.

(** One turn of the loop of [begin_op]; a turn that sleeps ends the run, and is
    repeated when the process runs again. *)
Definition begin_op_loop : K logst unit :=
  s <- get ;;
  if truth (l_committing s) then sleep ChanLog LogLock
  else if LOGSIZE <? l_n s + (l_outstanding s + 1) * MAXOPBLOCKS then sleep ChanLog LogLock
  else
    modify (fun s => set_outstanding (l_outstanding s + 1) s) ;;
    release LogLock.

Definition begin_op : K logst unit :=
  acquire LogLock ;;
  begin_op_loop.

Definition begin_op_resume : K logst unit :=
  sleep_resume LogLock ;;
  begin_op_loop.

Definition write_log : K logst unit :=
  n <- gets l_n ;;
  for_each (seqZ 0 n) (fun tail =>
    start <- gets l_start ;;
    to <- log_bread (start + tail + 1) ;;
    b <- get_block tail ;;
    from <- log_bread b ;;
    copy_buf to from ;;
    zoom (bwrite to) ;;
    zoom (brelse from) ;;
    zoom (brelse to)).

Definition commit : K logst unit :=
  n <- gets l_n ;;
  when (0 <? n)
    (write_log ;;
     write_head ;;
     install_trans false ;;
     modify (set_n 0) ;;
     write_head).

Definition end_op : K logst unit :=
  acquire LogLock ;;
  modify (fun s => set_outstanding (l_outstanding s - 1) s) ;;
  s <- get ;;
  if truth (l_committing s) then panic "log.committing"
  else
    do_commit <- (if l_outstanding s =? 0 then
                    modify (set_committing 1) ;;
                    ret true
                  else
                    wakeup ChanLog ;;
                    ret false) ;;
    release LogLock ;;
    when do_commit
      (commit ;;
       acquire LogLock ;;
       modify (set_committing 0) ;;
       wakeup ChanLog ;;
       release LogLock).

Definition log_write (i : nat) : K logst unit :=
  acquire LogLock ;;
  s <- get ;;
  if (LOGSIZE <=? l_n s) || (l_size s - 1 <=? l_n s) then panic "too big a transaction"
  else if l_outstanding s <? 1 then panic "log_write outside of trans"
  else
    x <- zoom (getb i) ;;
    let k := match list_find (fun b => u32 b = b_blockno x) (take (Z.to_nat (l_n s)) (l_block s)) with
             | Some (k, _) => Z.of_nat k
             | None => l_n s
             end in
    put_block k (i32 (b_blockno x)) ;;
    when (k =? l_n s)
      (zoom (bpin i) ;;
       modify (fun s => set_n (l_n s + 1) s)) ;;
    release LogLock.

(** ** The abstract cache, up to pointwise equality *)

Record ceq (c c' : cache) : Prop := {
  cq_ref : c_ref c = c_ref c';
  cq_held : forall b, b ∈ c_held c <-> b ∈ c_held c';
  cq_blk : forall b, c_blk c b = c_blk c' b;
  cq_disk : forall b, c_disk c b = c_disk c' b
}.

#[export] Instance ceq_equiv : Equivalence ceq.
Proof.
  split.
  - intros c. by split.
  - intros c c' [H1 H2 H3 H4]. by split.
  - intros c1 c2 c3 [H1 H2 H3 H4] [H5 H6 H7 H8]. split; [congruence|..]; intros b;
      [by rewrite H2|by rewrite H3|by rewrite H4].
Qed.

#[export] Instance brep_proper pid s : Proper (ceq ==> iff) (brep pid s).
Proof.
  assert (H : forall c c', ceq c c' -> brep pid s c -> brep pid s c'); [|by intros c c' Hc; split; apply H].
  intros c c' [H1 H2 H3 H4] R. split; try apply R.
  - intros i x Hi Hx. destruct (br_buf _ _ _ R i x Hi Hx) as [Hv Hr]. split; [by rewrite <- H3|].
    rewrite <- H1. by rewrite <- (bool_decide_ext _ _ (H2 (b_blockno x))).
  - rewrite <- H1. apply R.
  - intros b. rewrite <- H1, <- H3, <- H4. apply R.
  - intros b. rewrite <- H4. apply R.
  - intros b. rewrite <- H3, <- H4. apply R.
  - intros b Hb. rewrite <- H1. apply R. by apply H2.
Qed.

(** Counting references: one more, one less. *)
Definition rget (m : gmap Z Z) (b : Z) : gmap Z Z := <[b := default 0 (m !! b) + 1]> m.
Definition rput (m : gmap Z Z) (b : Z) : gmap Z Z :=
  if default 0 (m !! b) =? 1 then delete b m else <[b := default 0 (m !! b) - 1]> m.

Definition refs_pos (m : gmap Z Z) : Prop := forall b r, m !! b = Some r -> 0 < r.

Lemma rput_rget m b : refs_pos m -> rput (rget m b) b = m.
Proof.
  intros Hp. unfold rput, rget. rewrite lookup_insert_eq. simpl.
  destruct (m !! b) as [r|] eqn:E; simpl.
  - pose proof (Hp b r E). rewrite (proj2 (Z.eqb_neq _ _)) by lia. rewrite insert_insert_eq.
    replace (r + 1 - 1) with r by lia. by apply insert_id.
  - by rewrite delete_insert_id.
Qed.

Lemma rget_comm m b b' : b <> b' -> rget (rget m b) b' = rget (rget m b') b.
Proof.
  intros H. unfold rget. rewrite !lookup_insert_ne by done. by apply insert_insert_ne.
Qed.

Lemma rget_pos m b : refs_pos m -> refs_pos (rget m b).
Proof.
  intros Hp b' r. unfold rget. destruct (decide (b = b')) as [<-|Hne].
  - rewrite lookup_insert_eq. intros [= <-]. destruct (m !! b) as [r|] eqn:E; simpl; [|lia]. pose proof (Hp b r E). lia.
  - rewrite lookup_insert_ne by done. apply Hp.
Qed.

Lemma rget_lookup m b : rget m b !! b = Some (default 0 (m !! b) + 1).
Proof. apply lookup_insert_eq. Qed.

Lemma rget_lookup_ne m b b' : b <> b' -> rget m b !! b' = m !! b'.
Proof. intros H. by apply lookup_insert_ne. Qed.

Lemma brep_pos pid s c : brep pid s c -> refs_pos (c_ref c).
Proof. intros R b r Hr. by apply (br_ref _ _ _ R b r). Qed.

(** ** Running cache operations from the log *)

Record lenv (e : env) (p : nat) (pid : Z) : Prop := {
  le_benv : benv e p pid;
  le_lock : LogLock ∉ held e;
  le_wait : no_waiter e ChanLog
}.

Lemma benv_locked e p pid l :
  (forall i, l <> ProcLock i) -> l <> BcacheLock -> (forall i, l <> SleepLk (BufLock i)) ->
  benv e p pid -> benv (locked l e) p pid.
Proof.
  intros H1 H2 H3 [Hr Hb Hs Hw]. split; [by apply runs_locked|by apply not_held_locked|..].
  - intros i. apply not_held_locked; [done|]. intros E. by apply (H3 i).
  - done.
Qed.

Lemma zoom_bio {A} (m : K bio A) e s a b' :
  m e (l_bio s) = Ret a e b' -> zoom m e s = Ret a e (with_bio s b').
Proof. intros H. unfold zoom. simpl. by rewrite H. Qed.

Lemma with_bio_twice s b b' : with_bio (with_bio s b) b' = with_bio s b'.
Proof. done. Qed.

Lemma log_bread_run e p pid s c b :
  lenv e p pid -> brep pid (l_bio s) c -> can_get c b -> l_dev s = ROOTDEV -> 0 <= b < 2 ^ 32 ->
  exists i s', log_bread b e s = Ret i e (with_bio s s') /\ bio_disk s' = bio_disk (l_bio s) /\
    handle s' i b /\ brep pid s' (c_got c b) /\ keeps (l_bio s) s' (c_got c b).
Proof.
  intros E R Hc Hd Hb. unfold log_bread. kstep. rewrite Hd. rewrite (uint_wrap_small 32 b) by done.
  change (u32 ROOTDEV) with ROOTDEV.
  destruct (bread_eq e p pid (l_bio s) c b (le_benv _ _ _ E) R Hc) as (i & x & _ & _ & _ & _ & Eq).
  destruct (bread_run e p pid (l_bio s) c b (le_benv _ _ _ E) R Hc) as (i' & s' & Eb & Hh & R' & K').
  exists i', s'. split; [by apply zoom_bio|]. rewrite Eb in Eq. injection Eq as -> ->. done.
Qed.

(** [memmove] from one locked buffer to another. *)
Lemma copy_buf_run e p pid s c to from bt bf :
  lenv e p pid -> brep pid (l_bio s) c -> handle (l_bio s) to bt -> handle (l_bio s) from bf ->
  bt ∈ c_held c -> bf ∈ c_held c ->
  exists s', copy_buf to from e s = Ret tt e (with_bio s s') /\ bio_disk s' = bio_disk (l_bio s) /\
    brep pid s' (c_set c bt (c_blk c bf)) /\ keeps (l_bio s) s' (c_set c bt (c_blk c bf)).
Proof.
  intros E R Ht Hf Hbt Hbf.
  destruct (handle_locked e p pid _ c from bf (le_benv _ _ _ E) R Hf Hbf) as (x & Hx & _ & _ & _ & Hd & _).
  destruct (set_data_run e p pid _ c to bt (c_blk c bf) (le_benv _ _ _ E) R Ht Hbt) as (s' & Es & Hdk & R' & K').
  { apply R. }
  exists s'. split; [|done]. unfold copy_buf.
  rewrite (bind_step _ _ _ _ _ _ _ (zoom_bio (getb from) e s x (l_bio s) (getb_run from x e _ Hx))).
  replace (with_bio s (l_bio s)) with s by (by destruct s). rewrite Hd. by apply zoom_bio.
Qed.

(** The block written by one turn of [write_log] and [install_trans]. *)
Definition c_logged (c : cache) (m : gmap Z Z) (b : Z) (v : list Z) : cache :=
  Cache m (upd (c_blk c) b v) (upd (c_disk c) b v) ∅.

Lemma get_block_run i b e s : 0 <= i -> l_block s !! Z.to_nat i = Some b -> get_block i e s = Ret b e s.
Proof. intros _ H. unfold get_block. by rewrite H. Qed.

(** Two buffers at once: a log block [lb] and a home block [b]. *)
Lemma two_bufs e p pid s c b1 b2 :
  lenv e p pid -> brep pid (l_bio s) c -> l_dev s = ROOTDEV -> c_held c = ∅ ->
  b1 <> b2 -> 0 <= b1 < 2 ^ 32 -> 0 <= b2 < 2 ^ 32 ->
  can_get c b1 -> can_get (c_got c b1) b2 ->
  exists i1 i2 t1 t2,
    log_bread b1 e s = Ret i1 e (with_bio s t1) /\
    log_bread b2 e (with_bio s t1) = Ret i2 e (with_bio s t2) /\
    bio_disk t2 = bio_disk (l_bio s) /\ handle t2 i1 b1 /\ handle t2 i2 b2 /\
    brep pid t2 (c_got (c_got c b1) b2).
Proof.
  intros E R Hd Hh Hne Hb1 Hb2 Hc1 Hc2.
  destruct (log_bread_run e p pid s c b1 E R Hc1 Hd Hb1) as (i1 & t1 & E1 & D1 & H1 & R1 & K1).
  destruct (log_bread_run e p pid (with_bio s t1) _ b2 E R1 Hc2 Hd Hb2) as (i2 & t2 & E2 & D2 & H2 & R2 & K2).
  exists i1, i2, t1, t2. split; [done|]. split; [done|]. split; [by rewrite D2|]. split; [|done].
  apply (K2 i1 b1 H1). simpl. destruct (decide (b1 = b2)) as [|_]; [done|].
  rewrite lookup_insert_ne by done. rewrite lookup_insert_eq. eauto.
Qed.

(** Both blocks can be had when one of the two is cached and referenced, or when
    two buffers are free. *)
Lemma can_get_two c b1 b2 :
  c_held c = ∅ -> b1 <> b2 -> refs_pos (c_ref c) -> c_ref c !! b1 = None -> ref_of c b2 + 1 < 2 ^ 32 ->
  (is_Some (c_ref c !! b2) /\ (size (c_ref c) < NBUF)%nat) \/ (S (size (c_ref c)) < NBUF)%nat ->
  can_get c b1 /\ can_get (c_got c b1) b2.
Proof.
  intros Hh Hne Hp H1 Hmax Hor. unfold can_get, ref_of. rewrite H1. simpl. rewrite Hh. split.
  - split; [set_solver|]. split; [lia|]. right. lia.
  - split; [set_solver|]. rewrite lookup_insert_ne by done. split; [done|].
    destruct Hor as [[Hs _]|Hs]; [by left|right]. rewrite map_size_insert_None by done. lia.
Qed.

Definition write_log_body (tail : Z) : K logst unit :=
  start <- gets l_start ;;
  to <- log_bread (start + tail + 1) ;;
  b <- get_block tail ;;
  from <- log_bread b ;;
  copy_buf to from ;;
  zoom (bwrite to) ;;
  zoom (brelse from) ;;
  zoom (brelse to).

Lemma write_log_step e p pid s c tail b :
  let lb := l_start s + tail + 1 in
  lenv e p pid -> brep pid (l_bio s) c -> l_dev s = ROOTDEV -> c_held c = ∅ ->
  0 <= tail -> l_block s !! Z.to_nat tail = Some b -> lb <> b -> 0 <= lb < 2 ^ 32 -> 0 <= b < 2 ^ 32 ->
  c_ref c !! lb = None -> is_Some (c_ref c !! b) -> ref_of c b + 1 < 2 ^ 32 -> (size (c_ref c) < NBUF)%nat ->
  exists t, write_log_body tail e s = Ret tt e (with_bio s t) /\
    bio_disk t = disk_put lb (c_blk c b) (bio_disk (l_bio s)) /\
    brep pid t (c_logged c (c_ref c) lb (c_blk c b)).
Proof.
  intros lb E R Hd Hh Ht Hb Hne Hlb Hb0 Hr1 Hr2 Hmax Hsz. pose proof (brep_pos _ _ _ R) as Hpos.
  destruct (can_get_two c lb b Hh Hne Hpos Hr1 Hmax) as [Hc1 Hc2]; [by left|].
  destruct (two_bufs e p pid s c lb b E R Hd Hh Hne Hlb Hb0 Hc1 Hc2) as (i1 & i2 & t1 & t2 & E1 & E2 & D2 & H1 & H2 & R2).
  assert (Hin : forall x : Z, x = lb \/ x = b -> x ∈ {[b]} ∪ ({[lb]} ∪ c_held c)) by set_solver.
  destruct (copy_buf_run e p pid (with_bio s t2) _ i1 i2 lb b E R2 H1 H2) as (t3 & E3 & D3 & R3 & K3); [set_solver..|].
  assert (S1 : is_Some (c_ref (c_set (c_got (c_got c lb) b) lb (c_blk c b)) !! lb))
    by (simpl; rewrite lookup_insert_ne, lookup_insert_eq by done; eauto).
  assert (S2 : c_ref (c_set (c_got (c_got c lb) b) lb (c_blk c b)) !! b = Some (ref_of c b + 1))
    by (simpl; rewrite lookup_insert_eq; unfold ref_of; simpl; by rewrite lookup_insert_ne).
  destruct (bwrite_run e p pid t3 _ i1 lb (le_benv _ _ _ E) R3 (K3 i1 lb H1 S1) ltac:(set_solver)) as (t4 & E4 & D4 & R4 & K4).
  pose proof (K4 i1 lb (K3 i1 lb H1 S1) S1) as H14. pose proof (K4 i2 b (K3 i2 b H2 (mk_is_Some _ _ S2)) (mk_is_Some _ _ S2)) as H24.
  assert (0 < ref_of c b) as Hrb by (unfold ref_of; destruct Hr2 as [r Hr]; rewrite Hr; by apply (Hpos b)).
  destruct (brelse_run e p pid t4 _ i2 b (le_benv _ _ _ E) R4 H24 ltac:(set_solver)) as (t5 & E5 & D5 & R5 & K5).
  { unfold ref_of at 1. simpl c_ref. simpl in S2. rewrite S2. simpl. lia. }
  assert (Hlb5 : ref_of (c_put (c_flush (c_set (c_got (c_got c lb) b) lb (c_blk c b)) lb) b) lb = 1).
  { unfold ref_of. simpl. rewrite dropped_ne by done. simpl. rewrite lookup_insert_ne, lookup_insert_eq by done.
    unfold ref_of. by rewrite Hr1. }
  assert (H15 : handle t5 i1 lb).
  { apply (K5 i1 lb H14). simpl. rewrite dropped_ne by done. exact S1. }
  destruct (brelse_run e p pid t5 _ i1 lb (le_benv _ _ _ E) R5 H15) as (t6 & E6 & D6 & R6 & K6).
  { simpl. set_solver. }
  { intros _. simpl. by rewrite !upd_at. }
  exists t6. split; [|split].
  - unfold write_log_body. kstep. fold lb. rewrite (bind_step _ _ _ _ _ _ _ E1).
    rewrite (bind_step _ _ _ _ _ _ _ (get_block_run tail b e (with_bio s t1) Ht Hb)).
    rewrite (bind_step _ _ _ _ _ _ _ E2), (bind_step _ _ _ _ _ _ _ E3).
    rewrite (bind_step _ _ _ _ _ _ _ (zoom_bio (bwrite i1) e (with_bio s t3) _ _ E4)).
    rewrite (bind_step _ _ _ _ _ _ _ (zoom_bio (brelse i2) e (with_bio s t4) _ _ E5)).
    by apply (zoom_bio (brelse i1) e (with_bio s t5) _ _ E6).
  - rewrite D6, D5, D4, D3. simpl l_bio. rewrite D2. simpl. by rewrite upd_at.
  - eapply brep_proper; [|exact R6]. symmetry. split.
    + change (rput (rput (rget (rget (c_ref c) lb) b) b) lb = c_ref c).
      by rewrite !rput_rget by (try apply rget_pos; done).
    + intros x. simpl. rewrite Hh. set_solver.
    + done.
    + intros x. simpl. unfold upd. by rewrite Z.eqb_refl.
Qed.

Definition install_body (recovering : bool) (tail : Z) : K logst unit :=
  start <- gets l_start ;;
  lbuf <- log_bread (start + tail + 1) ;;
  b <- get_block tail ;;
  dbuf <- log_bread b ;;
  copy_buf dbuf lbuf ;;
  zoom (bwrite dbuf) ;;
  when (negb recovering) (zoom (bunpin dbuf)) ;;
  zoom (brelse lbuf) ;;
  zoom (brelse dbuf).

(** The references after [if(recovering == 0) bunpin(dbuf);] *)
Definition unpinned (recovering : bool) (m : gmap Z Z) (b : Z) : gmap Z Z :=
  if recovering then m else rput m b.

Lemma maybe_unpin e p pid s t c i b recovering :
  lenv e p pid -> brep pid t c -> handle t i b -> b ∈ c_held c ->
  (recovering = false -> 2 <= ref_of c b) ->
  exists t', when (negb recovering) (zoom (bunpin i)) e (with_bio s t) = Ret tt e (with_bio s t') /\
    bio_disk t' = bio_disk t /\
    brep pid t' (Cache (unpinned recovering (c_ref c) b) (c_blk c) (c_disk c) (c_held c)) /\
    (forall j b', handle t j b' -> is_Some (c_ref c !! b') -> handle t' j b').
Proof.
  intros E R Hh Hb Hr. destruct recovering; simpl.
  - exists t. split; [done|]. split; [done|]. split; [by destruct c|done].
  - specialize (Hr eq_refl).
    destruct (bunpin_run e p pid t c i b (le_benv _ _ _ E) R Hh (br_held _ _ _ R b Hb) ltac:(lia)) as (t' & Et & D & R' & K).
    exists t'. split; [by apply (zoom_bio (bunpin i) e (with_bio s t))|]. split; [done|]. split; [exact R'|].
    intros j b' Hj Hs. apply (K j b' Hj). simpl. destruct (decide (b' = b)) as [->|Hne].
    + rewrite dropped_eq, (proj2 (Z.eqb_neq _ _)) by lia. eauto.
    + by rewrite dropped_ne.
Qed.

Lemma unpinned_ne r m b b' : b' <> b -> unpinned r m b !! b' = m !! b'.
Proof.
  intros H. unfold unpinned, rput. destruct r; [done|].
  destruct (_ =? 1); [by rewrite lookup_delete_ne|by rewrite lookup_insert_ne].
Qed.

Lemma rget_rget_put m lb b : lb <> b -> refs_pos m -> rput (rget (rget m lb) b) lb = rget m b.
Proof. intros H Hp. rewrite rget_comm by done. apply rput_rget. by apply rget_pos. Qed.

(** The references at the end of one turn. *)
Lemma install_refs r m lb b :
  lb <> b -> refs_pos m -> rput (rput (unpinned r (rget (rget m lb) b) b) lb) b = unpinned r m b.
Proof.
  intros H Hp. destruct r; simpl.
  - rewrite rget_rget_put by done. by apply rput_rget.
  - by rewrite !rput_rget by (try apply rget_pos; done).
Qed.

Lemma install_step e p pid s c recovering tail b :
  let lb := l_start s + tail + 1 in
  lenv e p pid -> brep pid (l_bio s) c -> l_dev s = ROOTDEV -> c_held c = ∅ ->
  0 <= tail -> l_block s !! Z.to_nat tail = Some b -> lb <> b -> 0 <= lb < 2 ^ 32 -> 0 <= b < 2 ^ 32 ->
  c_ref c !! lb = None -> ref_of c b + 1 < 2 ^ 32 ->
  (recovering = false -> is_Some (c_ref c !! b)) ->
  (if recovering then (S (size (c_ref c)) < NBUF)%nat else (size (c_ref c) < NBUF)%nat) ->
  exists t, install_body recovering tail e s = Ret tt e (with_bio s t) /\
    bio_disk t = disk_put b (c_blk c lb) (bio_disk (l_bio s)) /\
    brep pid t (c_logged c (unpinned recovering (c_ref c) b) b (c_blk c lb)).
Proof.
  intros lb E R Hd Hh Ht Hb Hne Hlb Hb0 Hr1 Hmax Hr2 Hsz. pose proof (brep_pos _ _ _ R) as Hpos.
  destruct (can_get_two c lb b Hh Hne Hpos Hr1 Hmax) as [Hc1 Hc2].
  { destruct recovering; [by right|left; split; [by apply Hr2|done]]. }
  destruct (two_bufs e p pid s c lb b E R Hd Hh Hne Hlb Hb0 Hc1 Hc2) as (i1 & i2 & t1 & t2 & E1 & E2 & D2 & H1 & H2 & R2).
  destruct (copy_buf_run e p pid (with_bio s t2) _ i2 i1 b lb E R2 H2 H1) as (t3 & E3 & D3 & R3 & K3); [set_solver..|].
  assert (S1 : rget (rget (c_ref c) lb) b !! lb = Some 1)
    by (rewrite rget_lookup_ne, rget_lookup, Hr1 by done; done).
  assert (S2 : rget (rget (c_ref c) lb) b !! b = Some (ref_of c b + 1))
    by (rewrite rget_lookup, rget_lookup_ne by done; done).
  pose proof (K3 i1 lb H1 (mk_is_Some _ _ S1)) as H13. pose proof (K3 i2 b H2 (mk_is_Some _ _ S2)) as H23.
  destruct (bwrite_run e p pid t3 _ i2 b (le_benv _ _ _ E) R3 H23 ltac:(set_solver)) as (t4 & E4 & D4 & R4 & K4).
  pose proof (K4 i1 lb H13 (mk_is_Some _ _ S1)) as H14. pose proof (K4 i2 b H23 (mk_is_Some _ _ S2)) as H24.
  destruct (maybe_unpin e p pid s t4 _ i2 b recovering E R4 H24) as (t5 & E5 & D5 & R5 & K5); [set_solver| |].
  { intros Hrec. unfold ref_of at 1. change (2 <= default 0 (rget (rget (c_ref c) lb) b !! b)). rewrite S2. simpl.
    destruct (Hr2 Hrec) as [r Hr]. unfold ref_of. rewrite Hr. simpl. pose proof (Hpos b r Hr). lia. }
  pose proof (K5 i1 lb H14 (mk_is_Some _ _ S1)) as H15. pose proof (K5 i2 b H24 (mk_is_Some _ _ S2)) as H25.
  destruct (brelse_run e p pid t5 _ i1 lb (le_benv _ _ _ E) R5 H15) as (t6 & E6 & D6 & R6 & K6).
  { simpl. set_solver. }
  { intros _. simpl. rewrite !upd_ne by done. by apply (br_clean _ _ _ R). }
  assert (H26 : handle t6 i2 b).
  { apply (K6 i2 b H25). simpl. rewrite dropped_ne by done. apply (br_held _ _ _ R5 b). simpl. set_solver. }
  destruct (brelse_run e p pid t6 _ i2 b (le_benv _ _ _ E) R6 H26) as (t7 & E7 & D7 & R7 & K7).
  { simpl. set_solver. }
  { intros _. simpl. by rewrite !upd_at. }
  exists t7. split; [|split].
  - unfold install_body. kstep. fold lb. rewrite (bind_step _ _ _ _ _ _ _ E1).
    rewrite (bind_step _ _ _ _ _ _ _ (get_block_run tail b e (with_bio s t1) Ht Hb)).
    rewrite (bind_step _ _ _ _ _ _ _ E2), (bind_step _ _ _ _ _ _ _ E3).
    rewrite (bind_step _ _ _ _ _ _ _ (zoom_bio (bwrite i2) e (with_bio s t3) _ _ E4)).
    rewrite (bind_step _ _ _ _ _ _ _ E5).
    rewrite (bind_step _ _ _ _ _ _ _ (zoom_bio (brelse i1) e (with_bio s t5) _ _ E6)).
    by apply (zoom_bio (brelse i2) e (with_bio s t6) _ _ E7).
  - rewrite D7, D6, D5, D4, D3. simpl l_bio. rewrite D2. simpl. by rewrite upd_at.
  - eapply brep_proper; [|exact R7]. symmetry. split.
    + by apply install_refs.
    + intros x. simpl. rewrite Hh. set_solver.
    + done.
    + intros x. simpl. unfold upd. by rewrite Z.eqb_refl.
Qed.

(** ** The header block *)

Definition hdr_n (d : list Z) : Z := ld_int off_n d.
Definition hdr_block (d : list Z) (i : Z) : Z := ld_int (off_block i) d.

(** The header block [d] names the blocks [bl]. *)
Definition hdr_is (d : list Z) (bl : list Z) : Prop :=
  hdr_n d = Z.of_nat (length bl) /\ forall k b, bl !! k = Some b -> hdr_block d (Z.of_nat k) = b.

(** [write_head] fills in the entries [l] of the array [bl]. *)
Definition hdr_fill (bl : list Z) (l : list Z) (d : list Z) : list Z :=
  foldl (fun d i => st 4 (off_block i) (default 0 (bl !! Z.to_nat i)) d) d l.

Definition idx_ok (i : Z) : Prop := 0 <= i < LOGSIZE.

Lemma off_block_fits i : idx_ok i -> (off_block i + 4 <= bsize)%nat.
Proof. unfold idx_ok, off_block, LOGSIZE, MAXOPBLOCKS. lia. Qed.

Lemma off_block_apart i j : idx_ok i -> idx_ok j -> i <> j -> (off_block i + 4 <= off_block j \/ off_block j + 4 <= off_block i)%nat.
Proof. unfold idx_ok, off_block. lia. Qed.

Lemma hdr_fill_length bl l d : length d = bsize -> Forall idx_ok l -> length (hdr_fill bl l d) = bsize.
Proof.
  revert d. induction l as [|i l IH]; intros d Hd Hl; [done|]. apply Forall_cons in Hl as [Hi Hl].
  simpl. apply IH; [|done]. rewrite length_st; [done|]. rewrite Hd. by apply off_block_fits.
Qed.

Lemma hdr_fill_n bl l d : length d = bsize -> Forall idx_ok l -> hdr_n (hdr_fill bl l d) = hdr_n d.
Proof.
  revert d. induction l as [|i l IH]; intros d Hd Hl; [done|]. apply Forall_cons in Hl as [Hi Hl].
  pose proof (off_block_fits i Hi). simpl. rewrite IH; [|by rewrite length_st by lia|done].
  unfold hdr_n, off_n. rewrite ld_int_st_ne; [done|lia|lia|]. unfold off_block. lia.
Qed.

Lemma hdr_fill_block bl l d k :
  length d = bsize -> Forall idx_ok l -> NoDup l -> idx_ok k ->
  (forall i, i ∈ l -> - 2 ^ 31 <= default 0 (bl !! Z.to_nat i) < 2 ^ 31) ->
  hdr_block (hdr_fill bl l d) k = if decide (k ∈ l) then default 0 (bl !! Z.to_nat k) else hdr_block d k.
Proof.
  revert d. induction l as [|i l IH]; intros d Hd Hl Hnd Hk Hr; [by rewrite decide_False by apply not_elem_of_nil|].
  apply Forall_cons in Hl as [Hi Hl]. apply NoDup_cons in Hnd as [Hil Hnd]. pose proof (off_block_fits i Hi) as Hf.
  pose proof (off_block_fits k Hk) as Hfk.
  simpl. rewrite IH; [|by rewrite length_st by lia|done|done|done|intros j Hj; apply Hr; by right].
  destruct (decide (k = i)) as [->|Hne].
  - rewrite (decide_False (P := i ∈ l)), (decide_True (P := i ∈ i :: l)) by (done || by left).
    unfold hdr_block. apply ld_int_st; [lia|]. apply Hr. by left.
  - unfold hdr_block. rewrite ld_int_st_ne by (try lia; by apply off_block_apart).
    destruct (decide (k ∈ l)) as [Hin|Hin]; [rewrite decide_True by (by right); done|].
    rewrite decide_False; [done|]. intros [?|?]%elem_of_cons; done.
Qed.

(** The header [write_head] produces when the first [n] entries are [bl]. *)
Lemma hdr_written blocks n d :
  length d = bsize -> 0 <= n <= LOGSIZE -> length blocks = Z.to_nat LOGSIZE ->
  Forall (fun b => - 2 ^ 31 <= b < 2 ^ 31) blocks ->
  hdr_is (hdr_fill blocks (seqZ 0 n) (st 4 off_n n d)) (take (Z.to_nat n) blocks) /\
  length (hdr_fill blocks (seqZ 0 n) (st 4 off_n n d)) = bsize.
Proof.
  intros Hd Hn Hlen Hb.
  assert (Hl : Forall idx_ok (seqZ 0 n)).
  { apply Forall_forall. intros i Hi%elem_of_seqZ. unfold idx_ok. lia. }
  assert (Hd1 : length (st 4 off_n n d) = bsize) by (rewrite length_st; [done|rewrite Hd; unfold off_n; lia]).
  split; [|by apply hdr_fill_length]. split.
  - rewrite hdr_fill_n by done. unfold hdr_n. rewrite ld_int_st.
    + rewrite length_take, Hlen. unfold LOGSIZE, MAXOPBLOCKS in *. lia.
    + rewrite Hd. unfold off_n. lia.
    + unfold LOGSIZE, MAXOPBLOCKS in *. lia.
  - intros k b Hk. apply lookup_take_Some in Hk as [Hk Hlt].
    rewrite hdr_fill_block; [|done|done|apply NoDup_seqZ|unfold idx_ok, LOGSIZE, MAXOPBLOCKS in *; lia|].
    + rewrite decide_True by (apply elem_of_seqZ; lia). by rewrite Nat2Z.id, Hk.
    + intros i Hi%elem_of_seqZ. destruct (blocks !! Z.to_nat i) as [v|] eqn:Ev; simpl; [|lia].
      by apply (proj1 (Forall_lookup _ _) Hb _ _ Ev).
Qed.

(** Changing the data of a locked buffer as a function of the data. *)
Lemma mod_data_run e p pid s t c i b f :
  lenv e p pid -> brep pid t c -> handle t i b -> b ∈ c_held c -> length (f (c_blk c b)) = bsize ->
  exists t', zoom (updb i (fun x => set_data (f (b_data x)) x)) e (with_bio s t) = Ret tt e (with_bio s t') /\
    bio_disk t' = bio_disk t /\ brep pid t' (c_set c b (f (c_blk c b))) /\ handle t' i b.
Proof.
  intros E R Hh Hb Hl.
  destruct (handle_locked e p pid t c i b (le_benv _ _ _ E) R Hh Hb) as (x & Hx & _ & _ & _ & Hd & _).
  destruct (set_data_run e p pid t c i b _ (le_benv _ _ _ E) R Hh Hb Hl) as (t' & Et & D & R' & K).
  exists t'. split; [|split; [done|split; [done|]]].
  - apply (zoom_bio _ e (with_bio s t)). simpl. rewrite <- Et, !updb_run. do 2 f_equal.
    apply (alter_ext _ _ i _ x Hx). by rewrite Hd.
  - apply (K i b Hh). simpl. by apply (br_held _ _ _ R).
Qed.

Lemma c_set_twice c b d d' : ceq (c_set (c_set c b d) b d') (c_set c b d').
Proof. split; try done. intros x. simpl. unfold upd. by destruct (x =? b). Qed.

Lemma c_set_at c b d : c_blk (c_set c b d) b = d.
Proof. apply upd_at. Qed.

Definition fill_body (buf : nat) (i : Z) : K logst unit :=
  b <- get_block i ;;
  zoom (updb buf (fun x => set_data (st 4 (off_block i) b (b_data x)) x)).

Lemma fill_loop e p pid s t c i b l :
  lenv e p pid -> brep pid t c -> handle t i b -> b ∈ c_held c -> Forall idx_ok l ->
  length (l_block s) = Z.to_nat LOGSIZE ->
  exists t', for_each l (fill_body i) e (with_bio s t) = Ret tt e (with_bio s t') /\
    bio_disk t' = bio_disk t /\ brep pid t' (c_set c b (hdr_fill (l_block s) l (c_blk c b))) /\ handle t' i b.
Proof.
  revert t c. induction l as [|j l IH]; intros t c E R Hh Hb Hl Hlen.
  - exists t. split; [done|]. split; [done|]. split; [|done]. eapply brep_proper; [|exact R].
    split; try done. intros x. simpl. unfold upd. destruct (Z.eqb_spec x b); by subst.
  - apply Forall_cons in Hl as [Hj Hl].
    destruct (lookup_lt_is_Some_2 (l_block s) (Z.to_nat j)) as [v Hv]; [unfold idx_ok in Hj; lia|].
    pose proof (off_block_fits j Hj) as Hf.
    destruct (mod_data_run e p pid s t c i b (st 4 (off_block j) v) E R Hh Hb) as (t1 & E1 & D1 & R1 & H1).
    { rewrite length_st; [apply R|]. rewrite (proj1 (br_size _ _ _ R b)). lia. }
    destruct (IH t1 _ E R1 H1 Hb Hl Hlen) as (t2 & E2 & D2 & R2 & H2). exists t2.
    split; [|split; [by rewrite D2|split; [|done]]].
    + cbn [for_each]. unfold fill_body at 1. rewrite bind_assoc.
      rewrite (bind_step _ _ _ _ _ _ _ (get_block_run j v e (with_bio s t) ltac:(unfold idx_ok in Hj; lia) Hv)).
      by rewrite (bind_step _ _ _ _ _ _ _ E1).
    + eapply brep_proper; [|exact R2]. rewrite c_set_twice, c_set_at. simpl. by rewrite Hv.
Qed.

Lemma write_head_run e p pid s c :
  lenv e p pid -> brep pid (l_bio s) c -> l_dev s = ROOTDEV -> c_held c = ∅ ->
  0 <= l_start s < 2 ^ 32 -> c_ref c !! l_start s = None -> (size (c_ref c) < NBUF)%nat ->
  0 <= l_n s <= LOGSIZE -> length (l_block s) = Z.to_nat LOGSIZE ->
  Forall (fun b => - 2 ^ 31 <= b < 2 ^ 31) (l_block s) ->
  exists t h, write_head e s = Ret tt e (with_bio s t) /\
    bio_disk t = disk_put (l_start s) h (bio_disk (l_bio s)) /\
    hdr_is h (take (Z.to_nat (l_n s)) (l_block s)) /\
    brep pid t (c_logged c (c_ref c) (l_start s) h).
Proof.
  intros E R Hd Hh Hst Hr Hsz Hn Hlen Hbl. pose proof (brep_pos _ _ _ R) as Hpos. set (b := l_start s) in *.
  assert (Hc : can_get c b).
  { unfold can_get, ref_of. rewrite Hr, Hh. simpl. split; [set_solver|]. split; [lia|by right]. }
  destruct (log_bread_run e p pid s c b E R Hc Hd Hst) as (i & t1 & E1 & D1 & H1 & R1 & _).
  destruct (mod_data_run e p pid s t1 _ i b (st 4 off_n (l_n s)) E R1 H1) as (t2 & E2 & D2 & R2 & H2).
  { simpl. set_solver. }
  { rewrite length_st; [apply R1|]. rewrite (proj1 (br_size _ _ _ R1 b)). unfold off_n. lia. }
  assert (Hl : Forall idx_ok (seqZ 0 (l_n s))).
  { apply Forall_forall. intros k Hk%elem_of_seqZ. unfold idx_ok. lia. }
  destruct (fill_loop e p pid s t2 _ i b _ E R2 H2 ltac:(simpl; set_solver) Hl Hlen) as (t3 & E3 & D3 & R3 & H3).
  rewrite c_set_at in R3. set (h := hdr_fill _ _ _) in R3.
  assert (Hs3 : is_Some (c_ref (c_set (c_set (c_got c b) b (st 4 off_n (l_n s) (c_blk (c_got c b) b))) b h) !! b))
    by (simpl; rewrite lookup_insert_eq; eauto).
  destruct (bwrite_run e p pid t3 _ i b (le_benv _ _ _ E) R3 H3 ltac:(simpl; set_solver)) as (t4 & E4 & D4 & R4 & K4).
  destruct (brelse_run e p pid t4 _ i b (le_benv _ _ _ E) R4 (K4 i b H3 Hs3) ltac:(simpl; set_solver)) as (t5 & E5 & D5 & R5 & _).
  { intros _. simpl. by rewrite !upd_at. }
  destruct (hdr_written (l_block s) (l_n s) (c_blk c b)) as [Hhdr _]; [apply R|done|done|done|].
  exists t5, h. split; [|split; [|split; [done|]]].
  - unfold write_head. kstep. fold b. rewrite (bind_step _ _ _ _ _ _ _ E1). kstep.
    rewrite (bind_step _ _ _ _ _ _ _ E2). change (fun i0 : Z => _) with (fill_body i).
    rewrite (bind_step _ _ _ _ _ _ _ E3).
    rewrite (bind_step _ _ _ _ _ _ _ (zoom_bio (bwrite i) e (with_bio s t3) _ _ E4)).
    by apply (zoom_bio (brelse i) e (with_bio s t4) _ _ E5).
  - rewrite D5, D4, D3, D2, D1. simpl. by rewrite upd_at.
  - eapply brep_proper; [|exact R5]. symmetry. split.
    + change (rput (rget (c_ref c) b) b = c_ref c). by apply rput_rget.
    + intros x. simpl. rewrite Hh. set_solver.
    + intros x. simpl. unfold upd. by destruct (x =? b).
    + intros x. simpl. unfold upd. rewrite Z.eqb_refl. by destruct (x =? b).
Qed.

(** ** Disk contents and crashes *)

(** Every disk from [d] to the last one, write by write, satisfies [P]. *)
Inductive dpath (P : disk -> Prop) (d : disk) : disk -> Prop :=
  | dp_here : P d -> dpath P d d
  | dp_put d1 b v : dpath P d d1 -> P (disk_put b v d1) -> dpath P d (disk_put b v d1).

(** [d1] is the disk at some moment between [d] and [d2]. *)
Definition between (d d1 d2 : disk) : Prop :=
  d_init d1 = d_init d /\ (exists w1, d_writes d1 = w1 ++ d_writes d) /\ exists w2, d_writes d2 = w2 ++ d_writes d1.

Lemma dpath_first P d d' : dpath P d d' -> P d.
Proof. by induction 1. Qed.

Lemma dpath_last P d d' : dpath P d d' -> P d'.
Proof. by destruct 1. Qed.

Lemma dpath_trans P d d1 d2 : dpath P d d1 -> dpath P d1 d2 -> dpath P d d2.
Proof. intros H. induction 1; [done|by constructor]. Qed.

Lemma dpath_mono (P Q : disk -> Prop) d d' : (forall x, P x -> Q x) -> dpath P d d' -> dpath Q d d'.
Proof. intros H. induction 1; [constructor; auto|constructor; auto]. Qed.

Lemma dpath_init P d d' : dpath P d d' -> d_init d' = d_init d /\ exists w, d_writes d' = w ++ d_writes d.
Proof.
  induction 1 as [|d1 b v H [IH1 [w IH2]]]; [split; [done|by exists []]|].
  split; [done|]. exists ((b, v) :: w). simpl. by rewrite IH2.
Qed.

Lemma dpath_between P d d1 d2 : dpath P d d2 -> between d d1 d2 -> P d1.
Proof.
  intros H. revert d1. induction H as [Hd|d2 b v H IH HP]; intros d1 (H1 & [w1 H2] & [w2 H3]).
  - assert (w1 = [] /\ w2 = []) as [-> ->].
    { rewrite H2 in H3. apply (f_equal length) in H3. rewrite !length_app in H3. destruct w1, w2; simpl in H3; [done|lia..]. }
    destruct d, d1. simpl in *. by subst.
  - destruct (dpath_init _ _ _ H) as [Hi [w Hw]]. destruct w2 as [|x w2]; simpl in H3.
    + replace d1 with (disk_put b v d2); [done|]. destruct d1, d2. unfold disk_put. simpl in *. f_equal; congruence.
    + injection H3 as _ H3. apply IH. split; [done|]. split; [by exists w1|by exists w2].
Qed.

(** The home blocks of a file system whose log starts at [start]. *)
Definition is_data (start b : Z) : Prop := 0 <= b < 2 ^ 31 /\ (b < start \/ start + LOGSIZE < b).

Definition blocks_ok (start : Z) (bl : list Z) : Prop :=
  NoDup bl /\ Z.of_nat (length bl) <= LOGSIZE /\ Forall (is_data start) bl.

Definition geometry_ok (start : Z) : Prop := 0 < start /\ start + LOGSIZE + 1 < 2 ^ 31.

(** The disk [D] durably holds the contents [new]: the header names blocks [bl]
    whose contents are in the log, all other blocks are at home. *)
Record durable (start : Z) (bl : list Z) (new D : Z -> list Z) : Prop := {
  du_ok : blocks_ok start bl;
  du_hdr : hdr_is (D start) bl;
  du_log : forall k b, bl !! k = Some b -> D (start + 1 + Z.of_nat k) = new b;
  du_home : forall b, is_data start b -> b ∉ bl -> D b = new b;
  du_size : forall b, length (D b) = bsize
}.

Lemma hdr_empty d : hdr_n d = 0 -> hdr_is d [].
Proof. intros H. split; [done|]. intros k b Hk. done. Qed.

Lemma blocks_ok_nil start : blocks_ok start [].
Proof. split; [constructor|]. split; [unfold LOGSIZE, MAXOPBLOCKS; simpl; lia|constructor]. Qed.

Lemma log_not_data start k : 0 <= k < LOGSIZE -> ~ is_data start (start + 1 + k).
Proof. intros Hk [_ [H|H]]; lia. Qed.

Lemma start_not_data start : ~ is_data start start.
Proof. intros [_ [H|H]]; unfold LOGSIZE, MAXOPBLOCKS in *; lia. Qed.

(** The state in which a transaction that logged [bl] is committed. *)
Record trans (pid : Z) (s : logst) (c : cache) (bl : list Z) : Prop := {
  tr_rep : brep pid (l_bio s) c;
  tr_dev : l_dev s = ROOTDEV;
  tr_held : c_held c = ∅;
  tr_n : l_n s = Z.of_nat (length bl);
  tr_blocks : take (length bl) (l_block s) = bl;
  tr_len : length (l_block s) = Z.to_nat LOGSIZE;
  tr_int : Forall (fun b => - 2 ^ 31 <= b < 2 ^ 31) (l_block s);
  tr_geom : geometry_ok (l_start s);
  tr_ok : blocks_ok (l_start s) bl;
  tr_pin : forall b, b ∈ bl -> is_Some (c_ref c !! b);
  tr_max : forall b, ref_of c b + 1 < 2 ^ 32;
  tr_free : forall x, l_start s <= x <= l_start s + LOGSIZE -> c_ref c !! x = None;
  tr_size : (size (c_ref c) < NBUF)%nat;
  tr_hdr : hdr_n (c_disk c (l_start s)) = 0;
  tr_clean : forall b, is_data (l_start s) b -> b ∉ bl -> c_blk c b = c_disk c b
}.

Lemma trans_block pid s c bl k b :
  trans pid s c bl -> bl !! k = Some b -> l_block s !! k = Some b /\ Z.of_nat k < LOGSIZE /\ is_data (l_start s) b.
Proof.
  intros T Hk. destruct (tr_ok _ _ _ _ T) as (_ & Hlen & Hd). split; [|split].
  - rewrite <- (tr_blocks _ _ _ _ T) in Hk. by apply lookup_take_Some in Hk as [? _].
  - apply lookup_lt_Some in Hk. lia.
  - by apply (proj1 (Forall_lookup _ _) Hd k).
Qed.

Lemma hdr_is_ext d d' bl : d = d' -> hdr_is d bl -> hdr_is d' bl.
Proof. by intros ->. Qed.

Lemma durable_ext start bl new D D' : (forall x, D x = D' x) -> durable start bl new D -> durable start bl new D'.
Proof.
  intros H [H1 H2 H3 H4 H5]. split; [done|by rewrite <- H|intros; rewrite <- H; auto..].
Qed.

Lemma seqZ_S k m : 0 < m -> seqZ k m = k :: seqZ (k + 1) (m - 1).
Proof. intros H. rewrite seqZ_cons by lia. by replace (Z.succ k) with (k + 1) by lia; replace (Z.pred m) with (m - 1) by lia. Qed.

Section Phases.
Context (e : env) (p : nat) (pid : Z) (E : lenv e p pid) (s : logst) (bl : list Z).
Context (Hdev : l_dev s = ROOTDEV) (Hgeom : geometry_ok (l_start s)) (Hok : blocks_ok (l_start s) bl)
  (Hblocks : forall k b, bl !! k = Some b -> l_block s !! k = Some b).

Let start := l_start s.
(** The log block of the [k]-th logged block. *)
Let lblock (k : nat) : Z := start + 1 + Z.of_nat k.

Lemma bl_facts k b : bl !! k = Some b ->
  Z.of_nat k < LOGSIZE /\ is_data start b /\ lblock k <> b /\ 0 <= lblock k < 2 ^ 32 /\ 0 <= b < 2 ^ 32 /\
  start <= lblock k <= start + LOGSIZE /\ (forall j b', bl !! j = Some b' -> b' = b -> j = k).
Proof.
  intros Hk. destruct Hok as (Hnd & Hlen & Hd). pose proof (lookup_lt_Some _ _ _ Hk) as Hlt.
  pose proof (proj1 (Forall_lookup _ _) Hd k b Hk) as Hb. destruct Hgeom as [Hg1 Hg2].
  assert (Z.of_nat k < LOGSIZE) by lia. unfold lblock, start in *. destruct Hb as [Hb1 Hb2].
  split; [lia|]. split; [done|]. split; [lia|]. split; [lia|]. split; [lia|]. split; [lia|].
  intros j b' Hj ->. by apply (NoDup_lookup bl j k b).
Qed.

(** *** Writing the log *)

Record logged_upto (c : cache) (k : nat) (t : bio) (ck : cache) : Prop := {
  lu_rep : brep pid t ck;
  lu_ref : c_ref ck = c_ref c;
  lu_held : c_held ck = ∅;
  lu_same : forall x, (forall j, (j < k)%nat -> x <> lblock j) ->
    c_blk ck x = c_blk c x /\ c_disk ck x = c_disk c x;
  lu_log : forall j b, (j < k)%nat -> bl !! j = Some b ->
    c_blk ck (lblock j) = c_blk c b /\ c_disk ck (lblock j) = c_blk c b
}.

Definition old_disk (c : cache) (d : disk) : Prop := durable start [] (c_disk c) (disk_get d).
Definition new_disk (new : Z -> list Z) (d : disk) : Prop := durable start bl new (disk_get d).

Lemma data_not_lblock b j : is_data start b -> Z.of_nat j < LOGSIZE -> b <> lblock j.
Proof. unfold lblock, start. intros [_ [H|H]] Hj; lia. Qed.

Lemma logged_old c k t ck :
  logged_upto c k t ck -> (k <= length bl)%nat -> hdr_n (c_disk c start) = 0 -> old_disk c (bio_disk t).
Proof.
  intros L Hk Hh. unfold old_disk. apply (durable_ext _ _ _ (c_disk ck)).
  { intros x. symmetry. apply (br_disk _ _ _ (lu_rep _ _ _ _ L)). }
  destruct Hok as (_ & Hlen & _). split; [apply blocks_ok_nil| |done| |apply L].
  - apply hdr_empty. destruct (lu_same _ _ _ _ L start) as [_ ->]; [|done]. intros j Hj. unfold lblock. lia.
  - intros b Hb _. destruct (lu_same _ _ _ _ L b) as [_ ->]; [|done].
    intros j Hj. apply data_not_lblock; [done|lia].
Qed.

Lemma write_log_loop c m k t ck :
  (forall b, b ∈ bl -> is_Some (c_ref c !! b)) -> (forall b, ref_of c b + 1 < 2 ^ 32) ->
  (forall x, start <= x <= start + LOGSIZE -> c_ref c !! x = None) -> (size (c_ref c) < NBUF)%nat ->
  hdr_n (c_disk c start) = 0 ->
  (k + m = length bl)%nat -> logged_upto c k t ck ->
  exists t' ck', for_each (seqZ (Z.of_nat k) (Z.of_nat m)) write_log_body e (with_bio s t) = Ret tt e (with_bio s t') /\
    logged_upto c (k + m) t' ck' /\ dpath (old_disk c) (bio_disk t) (bio_disk t').
Proof.
  intros Hpin Hmax Hfree Hsz Hh. revert k t ck. induction m as [|m IH]; intros k t ck Hkm L.
  - exists t, ck. rewrite Nat.add_0_r. split; [done|]. split; [done|]. constructor. apply (logged_old c k t ck); [done|lia|done].
  - destruct (lookup_lt_is_Some_2 bl k) as [b Hb]; [lia|].
    destruct (bl_facts k b Hb) as (Hk & Hd & Hne & Hr1 & Hr2 & Harea & _).
    destruct (write_log_step e p pid (with_bio s t) ck (Z.of_nat k) b E) as (t1 & E1 & D1 & R1).
    { apply L. } { done. } { apply L. } { lia. } { rewrite Nat2Z.id. by apply Hblocks. }
    { simpl. fold start. unfold lblock in Hne. lia. } { simpl. fold start. unfold lblock in Hr1. lia. } { done. }
    { rewrite (lu_ref _ _ _ _ L). apply Hfree. unfold lblock in Harea. simpl. fold start. lia. }
    { rewrite (lu_ref _ _ _ _ L). apply Hpin. by eapply list_elem_of_lookup_2. }
    { unfold ref_of. rewrite (lu_ref _ _ _ _ L). apply Hmax. } { by rewrite (lu_ref _ _ _ _ L). }
    simpl l_start in *. fold start in D1, R1. replace (start + Z.of_nat k + 1) with (lblock k) in * by (unfold lblock; lia).
    assert (L1 : logged_upto c (S k) t1 (c_logged ck (c_ref ck) (lblock k) (c_blk ck b))).
    { assert (Hcb : c_blk ck b = c_blk c b).
      { destruct (lu_same _ _ _ _ L b) as [-> _]; [|done]. intros j Hj. apply data_not_lblock; [done|lia]. }
      split; [done|apply L|done|..].
      - intros x Hx. simpl. rewrite !upd_ne by (apply Hx; lia). apply L. intros j Hj. apply Hx. lia.
      - intros j b' Hj Hb'. simpl. destruct (decide (j = k)) as [->|Hjk].
        + rewrite !upd_at, Hcb. by rewrite Hb in Hb'; injection Hb' as ->.
        + rewrite !upd_ne by (unfold lblock; lia). apply L; [lia|done]. }
    destruct (IH (S k) t1 _ ltac:(lia) L1) as (t' & ck' & E' & L' & P').
    exists t', ck'. split; [|split; [by rewrite Nat.add_succ_r|]].
    + rewrite seqZ_S by lia. cbn [for_each]. rewrite (bind_step _ _ _ _ _ _ _ E1).
      replace (Z.of_nat k + 1) with (Z.of_nat (S k)) by lia. replace (Z.of_nat (S m) - 1) with (Z.of_nat m) by lia. done.
    + apply (dpath_trans _ _ (bio_disk t1)); [|done]. simpl in D1. rewrite D1. constructor.
      * constructor. apply (logged_old c k t ck); [done|lia|done].
      * rewrite <- D1. apply (logged_old c (S k) t1 _ L1); [lia|done].
Qed.

(** *** Installing *)

Record installed_upto (new : Z -> list Z) (m0 : gmap Z Z) (k : nat) (t : bio) (ck : cache) : Prop := {
  in_rep : brep pid t ck;
  in_held : c_held ck = ∅;
  in_ref : forall x, x ∉ take k bl -> c_ref ck !! x = m0 !! x;
  in_size : (size (c_ref ck) <= size m0)%nat;
  in_hdr : hdr_is (c_disk ck start) bl;
  in_log : forall j b, bl !! j = Some b -> c_blk ck (lblock j) = new b /\ c_disk ck (lblock j) = new b;
  in_home : forall b, is_data start b -> b ∈ take k bl \/ b ∉ bl -> c_blk ck b = new b /\ c_disk ck b = new b
}.

Lemma installed_new new m0 k t ck : installed_upto new m0 k t ck -> new_disk new (bio_disk t).
Proof.
  intros I. unfold new_disk. apply (durable_ext _ _ _ (c_disk ck)).
  { intros x. symmetry. apply (br_disk _ _ _ (in_rep _ _ _ _ _ I)). }
  split; [done|apply I|..].
  - intros j b Hb. by apply (in_log _ _ _ _ _ I).
  - intros b Hb Hn. apply (in_home _ _ _ _ _ I); auto.
  - apply I.
Qed.

Lemma take_S_elem k b x : bl !! k = Some b -> x ∈ take (S k) bl <-> x ∈ take k bl \/ x = b.
Proof. intros H. rewrite (take_S_r _ _ _ H). rewrite elem_of_app, list_elem_of_singleton. tauto. Qed.

Lemma rput_size m b : is_Some (m !! b) -> (size (rput m b) <= size m)%nat.
Proof.
  intros H. unfold rput. destruct (_ =? 1).
  - rewrite map_size_delete. destruct H as [r ->]. lia.
  - rewrite map_size_insert_Some by done. lia.
Qed.

Lemma install_loop recovering new m0 m k t ck :
  (recovering = false -> forall b, b ∈ bl -> is_Some (m0 !! b)) -> (forall b, default 0 (m0 !! b) + 1 < 2 ^ 32) ->
  (forall x, start <= x <= start + LOGSIZE -> m0 !! x = None) ->
  (if recovering then (S (size m0) < NBUF)%nat else (size m0 < NBUF)%nat) ->
  (k + m = length bl)%nat -> installed_upto new m0 k t ck ->
  exists t' ck', for_each (seqZ (Z.of_nat k) (Z.of_nat m)) (install_body recovering) e (with_bio s t) = Ret tt e (with_bio s t') /\
    installed_upto new m0 (k + m) t' ck' /\ dpath (new_disk new) (bio_disk t) (bio_disk t').
Proof.
  intros Hpin Hmax Hfree Hsz. revert k t ck. induction m as [|m IH]; intros k t ck Hkm I.
  - exists t, ck. rewrite Nat.add_0_r. split; [done|]. split; [done|]. constructor. by apply (installed_new new m0 k t ck).
  - destruct (lookup_lt_is_Some_2 bl k) as [b Hb]; [lia|].
    destruct (bl_facts k b Hb) as (Hk & Hd & Hne & Hr1 & Hr2 & Harea & Huniq).
    assert (Hbk : b ∉ take k bl).
    { intros (j & Hj)%list_elem_of_lookup. apply lookup_take_Some in Hj as [Hj Hlt].
      pose proof (Huniq j b Hj eq_refl). lia. }
    assert (Hlk : forall x, start <= x <= start + LOGSIZE -> c_ref ck !! x = None).
    { intros x Hx. rewrite (in_ref _ _ _ _ _ I); [by apply Hfree|]. intros (j & Hj)%list_elem_of_lookup.
      apply lookup_take_Some in Hj as [Hj _]. destruct (bl_facts j x Hj) as (_ & [_ Hx'] & _). lia. }
    pose proof (in_size _ _ _ _ _ I) as Hsz'.
    destruct (install_step e p pid (with_bio s t) ck recovering (Z.of_nat k) b E) as (t1 & E1 & D1 & R1).
    { apply I. } { done. } { apply I. } { lia. } { rewrite Nat2Z.id. by apply Hblocks. }
    { simpl. fold start. unfold lblock in Hne. lia. } { simpl. fold start. unfold lblock in Hr1. lia. } { done. }
    { apply Hlk. unfold lblock in Harea. simpl. fold start. lia. }
    { unfold ref_of. rewrite (in_ref _ _ _ _ _ I) by done. apply Hmax. }
    { intros Hrec. rewrite (in_ref _ _ _ _ _ I) by done. apply Hpin; [done|]. by eapply list_elem_of_lookup_2. }
    { destruct recovering; lia. }
    simpl l_start in *. fold start in D1, R1. replace (start + Z.of_nat k + 1) with (lblock k) in * by (unfold lblock; lia).
    destruct (in_log _ _ _ _ _ I k b Hb) as [Hlb _]. rewrite Hlb in D1, R1.
    assert (I1 : installed_upto new m0 (S k) t1 (c_logged ck (unpinned recovering (c_ref ck) b) b (new b))).
    { split; [done|done|..]; simpl.
      - intros x Hx. rewrite (take_S_elem k b) in Hx by done. apply Decidable.not_or in Hx as [Hx1 Hx2].
        rewrite unpinned_ne by done. by apply (in_ref _ _ _ _ _ I).
      - destruct recovering; simpl; [done|]. pose proof (rput_size (c_ref ck) b) as Hrs.
        rewrite (in_ref _ _ _ _ _ I) in Hrs by done.
        specialize (Hrs (Hpin eq_refl b ltac:(by eapply list_elem_of_lookup_2))). lia.
      - rewrite upd_ne; [apply I|]. intros Heq. rewrite <- Heq in Hd. by apply (start_not_data start).
      - intros j b' Hb'. destruct (bl_facts j b' Hb') as (Hj & _ & _ & _ & _ & Hja & _).
        rewrite !upd_ne by (intros Ex; apply (data_not_lblock b j Hd Hj); done). by apply I.
      - intros b' Hb' Hor. destruct (decide (b' = b)) as [->|Hne']; [by rewrite !upd_at|].
        rewrite !upd_ne by done. apply I; [done|]. rewrite (take_S_elem k b) in Hor by done. tauto. }
    destruct (IH (S k) t1 _ ltac:(lia) I1) as (t' & ck' & E' & I' & P').
    exists t', ck'. split; [|split; [by rewrite Nat.add_succ_r|]].
    + rewrite seqZ_S by lia. cbn [for_each]. rewrite (bind_step _ _ _ _ _ _ _ E1).
      replace (Z.of_nat k + 1) with (Z.of_nat (S k)) by lia. replace (Z.of_nat (S m) - 1) with (Z.of_nat m) by lia. done.
    + apply (dpath_trans _ _ (bio_disk t1)); [|done]. simpl in D1. rewrite D1. constructor.
      * constructor. by apply (installed_new new m0 k t ck).
      * rewrite <- D1. by apply (installed_new new m0 (S k) t1 _ I1).
Qed.

End Phases.

(** ** Commit *)

(** A crash leaves the old contents of the disk, or the new ones. *)
Definition old_or_new (start : Z) (old new : Z -> list Z) (d : disk) : Prop :=
  durable start [] old (disk_get d) \/ exists bl, durable start bl new (disk_get d).

(** The cache once everything is on disk. *)
Record settled (pid : Z) (start : Z) (new : Z -> list Z) (t : bio) (c : cache) : Prop := {
  se_rep : brep pid t c;
  se_held : c_held c = ∅;
  se_hdr : hdr_n (c_disk c start) = 0;
  se_home : forall b, is_data start b -> c_blk c b = new b /\ c_disk c b = new b
}.

Lemma settled_durable pid start new t c : settled pid start new t c -> durable start [] new (disk_get (bio_disk t)).
Proof.
  intros S. apply (durable_ext _ _ _ (c_disk c)).
  { intros x. symmetry. apply (br_disk _ _ _ (se_rep _ _ _ _ _ S)). }
  split; [apply blocks_ok_nil|apply hdr_empty, S|done| |apply S]. intros b Hb _. by apply S.
Qed.

Lemma taken_blocks pid s c bl : trans pid s c bl -> forall k b, bl !! k = Some b -> l_block s !! k = Some b.
Proof. intros T k b Hk. by apply (trans_block pid s c bl). Qed.

Lemma write_log_eq e s : write_log e s = for_each (seqZ 0 (l_n s)) write_log_body e s.
Proof. done. Qed.

Lemma install_trans_eq r e s : install_trans r e s = for_each (seqZ 0 (l_n s)) (install_body r) e s.
Proof. done. Qed.

(** Erasing the transaction from the log. *)
Lemma erase_run e p pid s t new m0 bl ck :
  lenv e p pid -> l_dev s = ROOTDEV -> geometry_ok (l_start s) -> length (l_block s) = Z.to_nat LOGSIZE ->
  Forall (fun b => - 2 ^ 31 <= b < 2 ^ 31) (l_block s) ->
  blocks_ok (l_start s) bl ->
  installed_upto pid s bl new m0 (length bl) t ck -> m0 !! l_start s = None -> (size m0 < NBUF)%nat ->
  exists t' c', write_head e (set_n 0 (with_bio s t)) = Ret tt e (set_n 0 (with_bio s t')) /\
    settled pid (l_start s) new t' c' /\ c_ref c' = c_ref ck /\
    dpath (fun d => exists bl', durable (l_start s) bl' new (disk_get d)) (bio_disk t) (bio_disk t').
Proof.
  intros E Hd Hg Hlen Hint Hok I Hm Hsz. pose proof (in_size _ _ _ _ _ _ _ _ I). destruct Hg as [Hg1 Hg2].
  assert (Hr : c_ref ck !! l_start s = None).
  { rewrite (in_ref _ _ _ _ _ _ _ _ I); [done|]. rewrite firstn_all. intros Hin. destruct Hok as (_ & _ & Hd').
    rewrite Forall_forall in Hd'. by apply (start_not_data (l_start s)), Hd'. }
  destruct (write_head_run e p pid (set_n 0 (with_bio s t)) ck) as (t' & h & Ew & Dw & Hh & R);
    [done|apply I|done|apply I|unfold LOGSIZE, MAXOPBLOCKS in *; simpl; lia|done|lia|simpl; unfold LOGSIZE, MAXOPBLOCKS; lia|done|done|].
  simpl in Dw, Hh, R. exists t', (c_logged ck (c_ref ck) (l_start s) h).
  assert (S : settled pid (l_start s) new t' (c_logged ck (c_ref ck) (l_start s) h)).
  { split; simpl; [done|done|rewrite upd_at; apply Hh|]. intros b Hb.
    rewrite !upd_ne by (intros ->; by apply (start_not_data (l_start s))).
    apply I; [done|]. rewrite firstn_all. destruct (decide (b ∈ bl)); auto. }
  split; [done|]. split; [done|]. split; [done|]. rewrite Dw. constructor.
  - constructor. exists bl. exact (installed_new pid s bl Hok new m0 _ t ck I).
  - rewrite <- Dw. exists []. by apply (settled_durable pid _ _ _ _ S).
Qed.

Lemma commit_run e p pid s c bl :
  lenv e p pid -> trans pid s c bl ->
  exists t c', commit e s = Ret tt e (set_n 0 (with_bio s t)) /\
    settled pid (l_start s) (c_blk c) t c' /\
    dpath (old_or_new (l_start s) (c_disk c) (c_blk c)) (bio_disk (l_bio s)) (bio_disk t).
Proof.
  intros E T. unfold commit. kstep. rewrite (tr_n _ _ _ _ T).
  destruct (decide (bl = [])) as [->|Hne].
  { exists (l_bio s), c. assert (S : settled pid (l_start s) (c_blk c) (l_bio s) c).
    { split; [apply T|apply T|apply T|]. intros b Hb. split; [done|]. symmetry. apply (tr_clean _ _ _ _ T); [done|apply not_elem_of_nil]. }
    split; [|split; [done|]].
    - simpl. pose proof (tr_n _ _ _ _ T) as Hn. simpl in Hn. destruct s. simpl in *. by subst.
    - constructor. right. exists []. by apply (settled_durable pid _ _ _ _ S). }
  assert (Hpos : (0 < length bl)%nat) by (destruct bl; [done|simpl; lia]).
  replace (0 <? Z.of_nat (length bl)) with true by (symmetry; apply Z.ltb_lt; lia). cbn [when].
  pose proof (taken_blocks _ _ _ _ T) as Htb. destruct (tr_geom _ _ _ _ T) as [Hg1 Hg2]. unfold LOGSIZE, MAXOPBLOCKS in Hg2.
  assert (L0 : logged_upto pid s bl c 0 (l_bio s) c) by (split; [apply T|done|apply T|done|lia]).
  destruct (write_log_loop e p pid E s bl (tr_dev _ _ _ _ T) (tr_geom _ _ _ _ T) (tr_ok _ _ _ _ T) Htb c (length bl) 0 (l_bio s) c)
    as (t1 & c1 & E1 & L1 & P1); [apply T..|done|done|].
  pose proof (lu_ref _ _ _ _ _ _ _ L1) as Hr1.
  destruct (write_head_run e p pid (with_bio s t1) c1) as (t2 & h & E2 & D2 & H2 & R2);
    [done|apply L1|apply T|apply L1|simpl; lia|rewrite Hr1; apply T; unfold LOGSIZE, MAXOPBLOCKS in *; simpl; lia
    |rewrite Hr1; apply T|simpl; rewrite (tr_n _ _ _ _ T); destruct (tr_ok _ _ _ _ T) as (_ & ? & _); lia|apply T|apply T|].
  simpl in D2, H2, R2. rewrite (tr_n _ _ _ _ T), Nat2Z.id, (tr_blocks _ _ _ _ T) in H2.
  assert (I2 : installed_upto pid s bl (c_blk c) (c_ref c) 0 t2 (c_logged c1 (c_ref c1) (l_start s) h)).
  { split; simpl; [done|done|by rewrite Hr1|by rewrite Hr1|by rewrite upd_at|..].
    - intros j b Hj. pose proof (lookup_lt_Some _ _ _ Hj). rewrite !upd_ne by lia. by apply (lu_log _ _ _ _ _ _ _ L1).
    - intros b Hb [Hin|Hn]; [by apply not_elem_of_nil in Hin|].
      rewrite !upd_ne by (intros ->; by apply (start_not_data (l_start s))).
      destruct (lu_same _ _ _ _ _ _ _ L1 b) as [-> ->]; [|split; [done|]; symmetry; by apply (tr_clean _ _ _ _ T)].
      intros j Hj. apply (data_not_lblock s); [done|]. destruct (tr_ok _ _ _ _ T) as (_ & ? & _). lia. }
  destruct (install_loop e p pid E s bl (tr_dev _ _ _ _ T) (tr_geom _ _ _ _ T) (tr_ok _ _ _ _ T) Htb false (c_blk c) (c_ref c)
    (length bl) 0 t2 (c_logged c1 (c_ref c1) (l_start s) h)) as (t3 & c3 & E3 & I3 & P3); [intros _; apply T|apply T|apply T|apply T|done|exact I2|].
  destruct (erase_run e p pid s t3 (c_blk c) (c_ref c) bl c3) as (t4 & c4 & E4 & S4 & _ & P4);
    [done|apply T|apply T|apply T|apply T|apply T|done|apply T; unfold LOGSIZE, MAXOPBLOCKS; lia|apply T|].
  exists t4, c4. split; [|split; [done|]].
  - assert (W : write_log e s = Ret tt e (with_bio s t1)).
    { rewrite write_log_eq, (tr_n _ _ _ _ T), <- E1. by destruct s. }
    assert (Iw : install_trans false e (with_bio s t2) = Ret tt e (with_bio s t3)).
    { rewrite install_trans_eq. simpl l_n. rewrite (tr_n _ _ _ _ T). exact E3. }
    rewrite (bind_step _ _ _ _ _ _ _ W), (bind_step _ _ _ _ _ _ _ E2). cbn [with_bio].
    rewrite (bind_step _ _ _ _ _ _ _ Iw). kstep. exact E4.
  - eapply dpath_trans; [eapply dpath_mono; [|exact P1]; by left|].
    eapply (dpath_trans _ _ (bio_disk t2)).
    { rewrite D2. constructor; [constructor; left; exact (dpath_last _ _ _ P1)|].
      rewrite <- D2. right. exists bl. exact (dpath_first _ _ _ P3). }
    eapply dpath_trans; [eapply dpath_mono; [|exact P3]; intros x Hx; right; by exists bl|].
    eapply dpath_mono; [|exact P4]. intros x Hx. by right.
Qed.

(** ** Recovery *)

Lemma put_block_run i v e s :
  (Z.to_nat i < length (l_block s))%nat -> put_block i v e s = Ret tt e (set_block (<[Z.to_nat i := v]> (l_block s)) s).
Proof. intros H. unfold put_block. by rewrite (proj2 (Nat.ltb_lt _ _) H). Qed.

(** [read_head]'s loop copies the entries [k], [k+1], ... of the header. *)
Lemma read_loop e (f : Z -> Z) m k s :
  (k + m <= length (l_block s))%nat ->
  exists l, for_each (seqZ (Z.of_nat k) (Z.of_nat m)) (fun i => put_block i (f i)) e s = Ret tt e (set_block l s) /\
    length l = length (l_block s) /\
    forall j, l !! j = if decide (k <= j < k + m)%nat then Some (f (Z.of_nat j)) else l_block s !! j.
Proof.
  revert k s. induction m as [|m IH]; intros k s Hk.
  - exists (l_block s). split; [by destruct s|]. split; [done|]. intros j. by rewrite decide_False by lia.
  - destruct (IH (S k) (set_block (<[k := f (Z.of_nat k)]> (l_block s)) s)) as (l & E & Hlen & Hl).
    { simpl. rewrite length_insert. lia. }
    exists l. split; [|split].
    + rewrite seqZ_S by lia. cbn [for_each].
      rewrite (bind_step _ _ _ _ _ _ _ (put_block_run (Z.of_nat k) (f (Z.of_nat k)) e s ltac:(rewrite Nat2Z.id; lia))).
      rewrite Nat2Z.id. replace (Z.of_nat k + 1) with (Z.of_nat (S k)) by lia.
      replace (Z.of_nat (S m) - 1) with (Z.of_nat m) by lia. exact E.
    + rewrite Hlen. simpl. by rewrite length_insert.
    + intros j. rewrite Hl. simpl. destruct (decide (j = k)) as [->|Hj].
      * rewrite list_lookup_insert_eq by lia. repeat case_decide; (done || lia).
      * rewrite list_lookup_insert_ne by done. repeat case_decide; (done || lia).
Qed.

(** A state whose cache holds no references, on a disk that holds [new]. *)
Record booted (pid : Z) (s : logst) (c : cache) (bl : list Z) (new : Z -> list Z) : Prop := {
  bo_rep : brep pid (l_bio s) c;
  bo_ref : c_ref c = ∅;
  bo_held : c_held c = ∅;
  bo_dev : l_dev s = ROOTDEV;
  bo_geom : geometry_ok (l_start s);
  bo_len : length (l_block s) = Z.to_nat LOGSIZE;
  bo_int : Forall (fun b => - 2 ^ 31 <= b < 2 ^ 31) (l_block s);
  bo_disk : durable (l_start s) bl new (c_disk c)
}.

Lemma read_head_run e p pid s c bl new :
  lenv e p pid -> booted pid s c bl new ->
  exists t l, read_head e s = Ret tt e (set_n (Z.of_nat (length bl)) (set_block l (with_bio s t))) /\
    bio_disk t = bio_disk (l_bio s) /\ brep pid t c /\ length l = Z.to_nat LOGSIZE /\
    Forall (fun b => - 2 ^ 31 <= b < 2 ^ 31) l /\ forall k b, bl !! k = Some b -> l !! k = Some b.
Proof.
  intros E B. pose proof (bo_rep _ _ _ _ _ B) as R. set (b0 := l_start s). destruct (bo_geom _ _ _ _ _ B) as [Hg1 Hg2].
  unfold LOGSIZE, MAXOPBLOCKS in Hg2. destruct (bo_disk _ _ _ _ _ B) as [(_ & Hlen & Hdata) Hh _ _ _].
  assert (Hc : can_get c b0).
  { unfold can_get, ref_of. rewrite (bo_ref _ _ _ _ _ B), (bo_held _ _ _ _ _ B), lookup_empty. simpl.
    split; [apply not_elem_of_empty|]. split; [lia|]. right. unfold NBUF. rewrite map_size_empty. vm_compute. lia. }
  destruct (log_bread_run e p pid s c b0 E R Hc (bo_dev _ _ _ _ _ B)) as (i & t1 & E1 & D1 & H1 & R1 & _); [unfold b0; lia|].
  destruct (handle_locked e p pid t1 _ i b0 (le_benv _ _ _ E) R1 H1) as (x & Hx & _ & _ & _ & Hd & _); [simpl; set_solver|].
  assert (Hdx : b_data x = c_disk c b0).
  { rewrite Hd. simpl. apply R. by rewrite (bo_ref _ _ _ _ _ B). }
  assert (Hn : ld_int off_n (b_data x) = Z.of_nat (length bl)) by (rewrite Hdx; apply Hh).
  set (s2 := set_n (Z.of_nat (length bl)) (with_bio s t1)).
  destruct (read_loop e (fun i => ld_int (off_block i) (b_data x)) (length bl) 0 s2) as (l & E2 & Hll & Hl).
  { simpl. rewrite (bo_len _ _ _ _ _ B). lia. }
  destruct (brelse_run e p pid t1 _ i b0 (le_benv _ _ _ E) R1 H1) as (t3 & E3 & D3 & R3 & _); [simpl; set_solver| |].
  { intros _. simpl. apply R. by rewrite (bo_ref _ _ _ _ _ B). }
  assert (Hbl : forall k b, bl !! k = Some b -> l !! k = Some b).
  { intros k b Hk. rewrite Hl, decide_True by (apply lookup_lt_Some in Hk; lia). f_equal.
    rewrite Hdx. by apply Hh. }
  exists t3, l. split; [|split; [by rewrite D3|split; [|split; [rewrite Hll; apply B|split; [|done]]]]].
  - unfold read_head. kstep. rewrite (bind_step _ _ _ _ _ _ _ E1).
    assert (Eg : zoom (getb i) e (with_bio s t1) = Ret x e (with_bio s t1)).
    { apply (zoom_bio (getb i) e (with_bio s t1)). simpl. unfold getb. by rewrite Hx. }
    rewrite (bind_step _ _ _ _ _ _ _ Eg). ksteps. rewrite Hn. fold s2. change (l_n s2) with (Z.of_nat (length bl)).
    rewrite (bind_step _ _ _ _ _ _ _ E2). by apply (zoom_bio (brelse i) e (set_block l s2) _ _ E3).
  - eapply brep_proper; [|exact R3]. symmetry. split; [|intros y; simpl; rewrite (bo_held _ _ _ _ _ B); set_solver|done..].
    change (rput (rget (c_ref c) b0) b0 = c_ref c). apply rput_rget. by apply (brep_pos _ _ _ R).
  - apply Forall_lookup. intros k b Hk. rewrite Hl in Hk. destruct (decide _) as [Hin|Hin].
    + injection Hk as <-. destruct (lookup_lt_is_Some_2 bl k) as [b Hb]; [lia|].
      pose proof (Hbl k b Hb) as Hlk. rewrite Hl, decide_True in Hlk by lia. injection Hlk as ->. destruct (proj1 (Forall_lookup _ _) Hdata k b Hb) as [? _]. lia.
    + by apply (proj1 (Forall_lookup _ _) (bo_int _ _ _ _ _ B) k).
Qed.

(** Every disk during recovery holds [new], so recovery may itself crash. *)
Lemma recover_run e p pid s c bl new :
  lenv e p pid -> booted pid s c bl new ->
  exists t c' l, recover_from_log e s = Ret tt e (set_n 0 (set_block l (with_bio s t))) /\
    settled pid (l_start s) new t c' /\ (c_ref c' = ∅ /\ length l = Z.to_nat LOGSIZE /\ Forall (fun b => - 2 ^ 31 <= b < 2 ^ 31) l) /\
    dpath (fun d => exists bl', durable (l_start s) bl' new (disk_get d)) (bio_disk (l_bio s)) (bio_disk t).
Proof.
  intros E B. destruct (read_head_run e p pid s c bl new E B) as (t1 & l & E1 & D1 & R1 & Hl & Hint & Hbl).
  set (s1 := set_n (Z.of_nat (length bl)) (set_block l s)).
  pose proof (bo_disk _ _ _ _ _ B) as D. pose proof (du_ok _ _ _ _ D) as Hok.
  assert (Hcl : forall x, c_blk c x = c_disk c x) by (intros x; apply R1; by rewrite (bo_ref _ _ _ _ _ B)).
  assert (I1 : installed_upto pid s1 bl new ∅ 0 t1 c).
  { split; [done|apply B|intros; by rewrite (bo_ref _ _ _ _ _ B)|by rewrite (bo_ref _ _ _ _ _ B)|apply D|..].
    - intros j b Hj. rewrite Hcl. split; by apply D.
    - intros b Hb [Hin|Hin]; [by apply not_elem_of_nil in Hin|]. rewrite Hcl. split; by apply D. }
  destruct (install_loop e p pid E s1 bl (bo_dev _ _ _ _ _ B) (bo_geom _ _ _ _ _ B) Hok Hbl true new ∅ (length bl) 0 t1 c)
    as (t2 & c2 & E2 & I2 & P2); [done|intros; by rewrite lookup_empty|intros; apply lookup_empty
    |rewrite map_size_empty; unfold NBUF; vm_compute; lia|done|done|].
  destruct (erase_run e p pid s1 t2 new ∅ bl c2) as (t3 & c3 & E3 & S3 & Hr3 & P3);
    [done|apply B|apply B|done|done|done|done|apply lookup_empty|rewrite map_size_empty; unfold NBUF; vm_compute; lia|].
  exists t3, c3, l. split; [|split; [done|split]].
  - unfold recover_from_log. rewrite (bind_step _ _ _ _ _ _ _ E1).
    assert (Ei : install_trans true e (with_bio s1 t1) = Ret tt e (with_bio s1 t2)) by (rewrite install_trans_eq; exact E2).
    change (set_n (Z.of_nat (length bl)) (set_block l (with_bio s t1))) with (with_bio s1 t1). rewrite (bind_step _ _ _ _ _ _ _ Ei). kstep. exact E3.
  - split; [|done]. rewrite Hr3. apply map_size_empty_inv. pose proof (in_size _ _ _ _ _ _ _ _ I2) as Hz. rewrite map_size_empty in Hz. lia.
  - eapply dpath_trans; [|exact P3]. rewrite <- D1. eapply dpath_mono; [|exact P2]. intros x Hx. by exists bl.
Qed.

(** ** The end of a transaction *)

Lemma lenv_wakeup {T} e p pid (t : T) : lenv e p pid -> wakeup ChanLog (locked LogLock e) t = Ret tt (locked LogLock e) t.
Proof.
  intros [[Hr _ _ _] _ Hw]. apply (wakeup_idle _ _ p pid); [by apply runs_locked|by apply no_waiter_locked].
Qed.

(** [end_op] of the last operation: the commit runs without the lock. *)
Lemma end_op_last e p pid s t :
  lenv e p pid -> l_outstanding s = 1 -> l_committing s = 0 ->
  commit e (set_committing 1 (set_outstanding 0 s)) = Ret tt e (set_committing 1 t) ->
  end_op e s = Ret tt e (set_committing 0 t).
Proof.
  intros E Ho Hc Hco. pose proof (le_lock _ _ _ E) as Hl. unfold end_op. ksteps. rewrite Ho. cbn [l_committing set_outstanding].
  rewrite Hc. change (truth 0) with false. cbn [l_outstanding set_outstanding]. ksteps. change (1 - 1 =? 0) with true. ksteps.
  change (1 - 1) with 0. rewrite (bind_step _ _ _ _ _ _ _ Hco). ksteps.
  rewrite (bind_step _ _ _ _ _ _ _ (lenv_wakeup e p pid _ E)). ksteps. done.
Qed.

(** With other operations outstanding, [end_op] only wakes the waiters. *)
Lemma end_op_more e p pid s :
  lenv e p pid -> 1 < l_outstanding s -> l_committing s = 0 ->
  end_op e s = Ret tt e (set_outstanding (l_outstanding s - 1) s).
Proof.
  intros E Ho Hc. pose proof (le_lock _ _ _ E) as Hl. unfold end_op. ksteps. cbn [l_committing set_outstanding].
  rewrite Hc. change (truth 0) with false. cbn [l_outstanding set_outstanding].
  rewrite (proj2 (Z.eqb_neq _ _)) by lia. ksteps.
  rewrite (bind_step _ _ _ _ _ _ _ (lenv_wakeup e p pid _ E)). ksteps. done.
Qed.

(** [begin_op] lets an operation in only if the log has room for it, next to
    the other outstanding operations. *)
Lemma begin_op_admits e p pid s :
  lenv e p pid -> l_committing s = 0 -> l_n s + (l_outstanding s + 1) * MAXOPBLOCKS <= LOGSIZE ->
  begin_op e s = Ret tt e (set_outstanding (l_outstanding s + 1) s).
Proof.
  intros E Hc Hr. pose proof (le_lock _ _ _ E) as Hl. unfold begin_op, begin_op_loop. ksteps. rewrite Hc.
  change (truth 0) with false. rewrite (proj2 (Z.ltb_ge _ _)) by lia. ksteps. done.
Qed.

(** The kernel's log state before [initlog], on the disk [d]. *)
Definition log0 (d : disk) : logst := Logst (bio0 d) 0 0 0 0 0 0 (replicate (Z.to_nat LOGSIZE) 0).

(** [main] calls [binit]; the first process calls [fsinit], which calls [initlog]. *)
Definition boot_log (sb : superblock) : K logst unit :=
  zoom binit ;;
  initlog ROOTDEV sb.

Definition holds_data (start : Z) (new : Z -> list Z) (s : logst) : Prop :=
  forall b, is_data start b -> disk_get (bio_disk (l_bio s)) b = new b.

Lemma settled_holds pid start new s c : settled pid start new (l_bio s) c -> holds_data start new s.
Proof.
  intros S b Hb. rewrite (br_disk _ _ _ (se_rep _ _ _ _ _ S)). by apply S.
Qed.

Lemma boot_run e p pid sb d bl new :
  lenv e p pid -> geometry_ok (sb_logstart sb) -> durable (sb_logstart sb) bl new (disk_get d) ->
  exists s', boot_log sb e (log0 d) = Ret tt e s' /\ holds_data (sb_logstart sb) new s' /\ l_n s' = 0 /\
    dpath (fun d => exists bl', durable (sb_logstart sb) bl' new (disk_get d)) d (bio_disk (l_bio s')).
Proof.
  intros E Hg D. destruct (binit_run e pid d) as (t & Et & Dt & Rt);
    [apply (le_benv _ _ _ E)|apply (le_benv _ _ _ E)|apply D|].
  set (s1 := set_geometry (i32 (sb_logstart sb)) (i32 (sb_nlog sb)) ROOTDEV (with_bio (log0 d) t)).
  assert (Hst : l_start s1 = sb_logstart sb).
  { unfold s1. simpl. apply sint_wrap_small; [|lia]. destruct Hg as [H1 H2]. unfold LOGSIZE, MAXOPBLOCKS in H2. lia. }
  destruct (recover_run e p pid s1 (cache0 d) bl new E) as (t2 & c2 & l & E2 & S2 & _ & P2).
  { split; [exact Rt|done|done|done|by rewrite Hst|done| |by rewrite Hst]. apply Forall_forall.
    intros x Hx. apply elem_of_replicate in Hx as [-> _]. lia. }
  rewrite Hst in S2, P2. exists (set_n 0 (set_block l (with_bio s1 t2))). split; [|split; [|split; [done|]]].
  - unfold boot_log. rewrite (bind_step _ _ _ _ _ _ _ (zoom_bio binit e (log0 d) _ _ Et)).
    unfold initlog. change (BSIZE <=? sizeof_logheader) with false. cbv iota.
    rewrite (bind_step _ _ _ _ _ _ _ (initlock_free _ e _ (le_lock _ _ _ E))). kstep. exact E2.
  - apply (settled_holds pid _ _ _ c2). exact S2.
  - rewrite <- Dt. exact P2.
Qed.

(** ** The log's contract *)

(** C5 Transactions are atomic.  When the last operation of a transaction that
    modified the blocks [bl] ends, [end_op] commits it and every modified
    block reaches its home location.  Whatever the disk write at which a crash
    stops it, booting on the disk left behind ([binit], then [initlog])
    succeeds, and leaves either all home blocks as they were before the
    transaction or all of them as the transaction made them. *)
Theorem log_atomic e p pid s c bl sb e2 p2 pid2 :
  lenv e p pid -> trans pid s c bl -> l_outstanding s = 1 -> l_committing s = 0 ->
  sb_logstart sb = l_start s -> lenv e2 p2 pid2 ->
  exists s', end_op e s = Ret tt e s' /\
    (l_outstanding s' = 0 /\ l_committing s' = 0 /\ l_n s' = 0) /\
    holds_data (l_start s) (c_blk c) s' /\
    forall d, between (bio_disk (l_bio s)) d (bio_disk (l_bio s')) ->
      exists s2, boot_log sb e2 (log0 d) = Ret tt e2 s2 /\
        (holds_data (l_start s) (c_disk c) s2 \/ holds_data (l_start s) (c_blk c) s2).
Proof.
  intros E T Ho Hc Hsb E2.
  assert (T1 : trans pid (set_committing 1 (set_outstanding 0 s)) c bl) by (destruct T; by split).
  destruct (commit_run e p pid _ c bl E T1) as (t & c' & Ec & S & P). simpl in S, P.
  exists (set_committing 0 (set_n 0 (with_bio (set_outstanding 0 s) t))).
  split; [by apply (end_op_last e p pid _ _ E Ho Hc)|]. split; [done|].
  split; [by apply (settled_holds pid _ _ _ c')|]. intros d Hd.
  pose proof (tr_geom _ _ _ _ T) as Hg. rewrite <- Hsb in Hg.
  destruct (dpath_between _ _ _ _ P Hd) as [D|[bl' D]]; rewrite <- Hsb in D |- *.
  - destruct (boot_run e2 p2 pid2 sb d _ _ E2 Hg D) as (s2 & B & H & _). exists s2. auto.
  - destruct (boot_run e2 p2 pid2 sb d _ _ E2 Hg D) as (s2 & B & H & _). exists s2. auto.
Qed.

(** C23 Recovery is idempotent.  Booting on a disk that durably holds the contents
    [new] (in the log or at home) installs them: afterwards every home block
    is as in [new] and the log is empty.  If recovery itself is stopped by a
    crash at any of its disk writes, booting again still yields [new]. *)
Theorem log_recovery e p pid sb bl new d :
  lenv e p pid -> geometry_ok (sb_logstart sb) -> durable (sb_logstart sb) bl new (disk_get d) ->
  exists s', boot_log sb e (log0 d) = Ret tt e s' /\ holds_data (sb_logstart sb) new s' /\ l_n s' = 0 /\
    forall d1, between d d1 (bio_disk (l_bio s')) ->
      exists s2, boot_log sb e (log0 d1) = Ret tt e s2 /\ holds_data (sb_logstart sb) new s2.
Proof.
  intros E Hg D. destruct (boot_run e p pid sb d bl new E Hg D) as (s' & B & H & Hn & P).
  exists s'. split; [done|]. split; [done|]. split; [done|]. intros d1 Hd.
  destruct (dpath_between _ _ _ _ P Hd) as [bl' D1].
  destruct (boot_run e p pid sb d1 bl' new E Hg D1) as (s2 & B2 & H2 & _). eauto.
Qed.

(** *** Witnesses *)

Definition demo_sb : superblock := Superblock 270729376 2000 1954 200 31 2 33 46.
Definition zero_disk : disk := Disk (fun _ => replicate bsize 0) [].
Definition ones : list Z := replicate bsize 1.

Lemma demo_lenv : lenv demo_kenv 0 7.
Proof. split; [apply demo_benv|apply not_elem_of_empty|apply demo_no_waiter]. Qed.

(** The cache after block 100 was read, set to [ones], pinned and released. *)
Lemma demo_dirty : exists t, brep 7 t (Cache {[100 := 1]} (upd (disk_get zero_disk) 100 ones) (disk_get zero_disk) ∅).
Proof.
  destruct (binit_run demo_kenv 7 zero_disk) as (t0 & _ & _ & R0);
    [apply not_elem_of_empty|intros; apply not_elem_of_empty|intros; apply length_replicate|].
  destruct (bread_run demo_kenv 0 7 t0 _ 100 demo_benv R0) as (i & t1 & _ & H1 & R1 & _).
  { split; [apply not_elem_of_empty|]. split; [reflexivity|]. right. vm_compute. lia. }
  destruct (set_data_run demo_kenv 0 7 t1 _ i 100 ones demo_benv R1 H1) as (t2 & _ & _ & R2 & K2);
    [simpl; set_solver|apply length_replicate|].
  assert (H2 : handle t2 i 100) by (apply (K2 i 100 H1); eexists; reflexivity).
  destruct (bpin_run demo_kenv 0 7 t2 _ i 100 demo_benv R2 H2) as (t3 & _ & _ & R3 & K3); [eexists; reflexivity|reflexivity|].
  assert (H3 : handle t3 i 100) by (apply (K3 i 100 H2); eexists; reflexivity).
  destruct (brelse_run demo_kenv 0 7 t3 _ i 100 demo_benv R3 H3) as (t4 & _ & _ & R4 & _); [simpl; set_solver|discriminate|].
  exists t4. eapply brep_proper; [|exact R4]. split; [reflexivity|intros x; simpl; set_solver|done|done].
Qed.

Definition demo_log (t : bio) : logst := Logst t 2 31 1 0 ROOTDEV 1 (100 :: replicate 29 0).

Lemma demo_trans t :
  brep 7 t (Cache {[100 := 1]} (upd (disk_get zero_disk) 100 ones) (disk_get zero_disk) ∅) ->
  trans 7 (demo_log t) (Cache {[100 := 1]} (upd (disk_get zero_disk) 100 ones) (disk_get zero_disk) ∅) [100].
Proof.
  intros R. split; simpl; [done|done|done|done|done|done| | | |..].
  - constructor; [lia|]. apply Forall_forall. intros x Hx. apply (elem_of_replicate 29) in Hx as [-> _]. lia.
  - split; vm_compute; done.
  - split; [apply NoDup_singleton|]. split; [vm_compute; done|]. constructor; [|constructor].
    split; [lia|]. right. vm_compute. done.
  - intros b Hb. apply list_elem_of_singleton in Hb as ->. by rewrite lookup_singleton_eq.
  - intros b. unfold ref_of. simpl. destruct (decide (b = 100)) as [->|Hn];
      [rewrite lookup_singleton_eq|rewrite lookup_singleton_ne by done]; simpl; lia.
  - intros x Hx. apply lookup_singleton_ne. unfold LOGSIZE, MAXOPBLOCKS in Hx. lia.
  - rewrite map_size_singleton. unfold NBUF. vm_compute. lia.
  - reflexivity.
  - intros b _ Hb. rewrite upd_ne; [done|]. intros ->. apply Hb. by left.
Qed.

Lemma log_atomic_witness :
  exists s s', end_op demo_kenv s = Ret tt demo_kenv s' /\ disk_get (bio_disk (l_bio s')) 100 = ones /\
    forall d, between (bio_disk (l_bio s)) d (bio_disk (l_bio s')) ->
      exists s2, boot_log demo_sb demo_kenv (log0 d) = Ret tt demo_kenv s2 /\
        (holds_data 2 (disk_get zero_disk) s2 \/ holds_data 2 (upd (disk_get zero_disk) 100 ones) s2).
Proof.
  destruct demo_dirty as [t R].
  destruct (log_atomic demo_kenv 0 7 (demo_log t) _ [100] demo_sb demo_kenv 0 7 demo_lenv (demo_trans t R)
              eq_refl eq_refl eq_refl demo_lenv) as (s' & Ee & _ & Hh & Hd).
  exists (demo_log t), s'. split; [exact Ee|]. split; [|exact Hd].
  rewrite Hh; [apply upd_at|]. split; [lia|]. right. vm_compute. reflexivity.
Defined.

(** A disk left by a crash right after the commit point: the header names block
    100, whose new contents are in the first log block. *)
Definition committed_disk : disk :=
  Disk (fun b => if b =? 2 then st 4 4 100 (st 4 0 1 (replicate bsize 0)) else if b =? 3 then ones
                 else replicate bsize 0) [].

Lemma committed_disk_eq b :
  disk_get committed_disk b =
  if b =? 2 then st 4 4 100 (st 4 0 1 (replicate bsize 0)) else if b =? 3 then ones else replicate bsize 0.
Proof. reflexivity. Qed.

Lemma log_recovery_witness :
  exists s', boot_log demo_sb demo_kenv (log0 committed_disk) = Ret tt demo_kenv s' /\
    disk_get (bio_disk (l_bio s')) 100 = ones /\ l_n s' = 0.
Proof.
  destruct (log_recovery demo_kenv 0 7 demo_sb [100] (upd (disk_get zero_disk) 100 ones) committed_disk demo_lenv)
    as (s' & B & Hh & Hn & _).
  - split; vm_compute; done.
  - split.
    + split; [apply NoDup_singleton|]. split; [vm_compute; done|]. constructor; [|constructor].
      split; [lia|]. right. vm_compute. done.
    + split; [vm_compute; reflexivity|]. intros [|k] b Hk; [|discriminate Hk]. injection Hk as <-. vm_compute. reflexivity.
    + intros [|k] b Hk; [|discriminate Hk]. injection Hk as <-. reflexivity.
    + intros b Hb Hn. rewrite upd_ne by (intros ->; apply Hn; by left). rewrite committed_disk_eq.
      destruct Hb as [_ Hb]. unfold LOGSIZE, MAXOPBLOCKS in Hb. simpl in Hb.
      rewrite (proj2 (Z.eqb_neq b 2)), (proj2 (Z.eqb_neq b 3)) by lia. done.
    + intros b. rewrite committed_disk_eq. destruct (b =? 2); [vm_compute; reflexivity|].
      destruct (b =? 3); vm_compute; reflexivity.
  - exists s'. split; [exact B|]. split; [|exact Hn]. rewrite Hh; [apply upd_at|].
    split; [lia|]. right. vm_compute. reflexivity.
Defined.
