(* ===== verification/Ring.v ===== *)
(** * Ring buffers with free-running counters

    The pipe, the console and the UART driver each keep bytes in an array of
    [size] entries indexed by counters that only grow, modulo the width of the
    counter; [size] divides that modulus.  [ring data r w] is the queue between
    the counters [r] and [w], oldest byte first. *)

From stdpp Require Import base list.
From Stdlib Require Import ZArith Lia Znumtheory.

Section Ring.
Context (size M : Z) (Hs : 0 < size) (HM : (size | M)) (HsM : size < M).

(** The number of bytes between two counters, and the byte at distance [k]. *)
Definition rlen (r w : Z) : Z := (w - r) mod M.
Definition rat (data : list Z) (r k : Z) : Z := default 0 (data !! Z.to_nat ((r + k) mod size)).
Definition ring (data : list Z) (r w : Z) : list Z := rat data r <$> seqZ 0 (rlen r w).

Lemma rlen_bounds r w : 0 <= rlen r w < M.
Proof. apply Z.mod_pos_bound. lia. Qed.

Lemma ring_length data r w : length (ring data r w) = Z.to_nat (rlen r w).
Proof. unfold ring. by rewrite length_fmap, length_seqZ. Qed.

Lemma rlen_same r : rlen r r = 0.
Proof. unfold rlen. by rewrite Z.sub_diag. Qed.

Lemma ring_same data r : ring data r r = [].
Proof. unfold ring. by rewrite rlen_same. Qed.

Lemma rlen_0 r w : 0 <= r < M -> 0 <= w < M -> rlen r w = 0 <-> r = w.
Proof.
  intros Hr Hw. split; [|by intros ->; apply rlen_same]. unfold rlen.
  intros H. apply Z.mod_divide in H as [q Hq]; [|lia].
  assert (q = 0) by nia. nia.
Qed.

Lemma ring_nil data r w : 0 <= r < M -> 0 <= w < M -> ring data r w = [] <-> r = w.
Proof.
  intros Hr Hw. rewrite <- (rlen_0 r w Hr Hw). pose proof (ring_length data r w) as Hl. pose proof (rlen_bounds r w).
  split; intros H'; [rewrite H' in Hl; simpl in Hl; lia|].
  unfold ring. by rewrite H'.
Qed.

(** The test for a full buffer. *)
Lemma rlen_size r w : 0 <= w < M -> rlen r w = size <-> w = (r + size) mod M.
Proof.
  intros Hw. unfold rlen. split; intros E.
  - rewrite <- (Z.mod_small w M) at 1 by lia. rewrite <- E at 1. rewrite Zplus_mod_idemp_r. f_equal. lia.
  - rewrite E, Zminus_mod_idemp_l. replace (r + size - r) with size by lia. apply Z.mod_small. lia.
Qed.

Lemma rlen_put r w : rlen r w + 1 < M -> rlen r ((w + 1) mod M) = rlen r w + 1.
Proof.
  intros H. pose proof (rlen_bounds r w). unfold rlen in *. rewrite Zminus_mod_idemp_l.
  replace (w + 1 - r) with (w - r + 1) by lia. rewrite <- Zplus_mod_idemp_l. apply Z.mod_small. lia.
Qed.

Lemma rlen_skip r w : 0 < rlen r w -> rlen ((r + 1) mod M) w = rlen r w - 1.
Proof.
  intros H. pose proof (rlen_bounds r w). unfold rlen in *. rewrite Zminus_mod_idemp_r.
  replace (w - (r + 1)) with (w - r - 1) by lia. rewrite <- Zminus_mod_idemp_l. apply Z.mod_small. lia.
Qed.

Lemma rlen_unput r w : 0 < rlen r w -> rlen r ((w - 1) mod M) = rlen r w - 1.
Proof.
  intros H. pose proof (rlen_bounds r w). unfold rlen in *. rewrite Zminus_mod_idemp_l.
  replace (w - 1 - r) with (w - r - 1) by lia. rewrite <- Zminus_mod_idemp_l. apply Z.mod_small. lia.
Qed.

(** Index arithmetic survives the wrap of the counters. *)
Lemma mod_M_size a : (a mod M) mod size = a mod size.
Proof. symmetry. by apply Zmod_div_mod; [|lia|]. Qed.

Lemma counter_index r w k : k = rlen r w -> (r + k) mod size = w mod size.
Proof.
  intros ->. unfold rlen. rewrite <- Zplus_mod_idemp_r, mod_M_size, Zplus_mod_idemp_r. f_equal. lia.
Qed.

Lemma index_range a : (Z.to_nat (a mod size) < Z.to_nat size)%nat.
Proof. pose proof (Z.mod_pos_bound a size). lia. Qed.

(** Bytes at different distances below [size] are in different entries. *)
Lemma index_inj r j k : 0 <= j < size -> 0 <= k < size ->
  Z.to_nat ((r + j) mod size) = Z.to_nat ((r + k) mod size) -> j = k.
Proof.
  intros Hj Hk E. apply Z2Nat.inj in E; [|apply Z.mod_pos_bound; lia..].
  assert (D : (j - k) mod size = 0).
  { replace (j - k) with ((r + j) - (r + k)) by lia. rewrite Zminus_mod, E, Z.sub_diag. apply Z.mod_0_l. lia. }
  apply Z.mod_divide in D as [q Hq]; [|lia]. assert (q = 0) by nia. nia.
Qed.

Lemma ring_put data r w c :
  length data = Z.to_nat size -> rlen r w < size ->
  ring (<[Z.to_nat (w mod size) := c]> data) r ((w + 1) mod M) = ring data r w ++ [c].
Proof.
  intros Hd Hn. pose proof (rlen_bounds r w). unfold ring. rewrite rlen_put by lia.
  rewrite seqZ_app, fmap_app by lia. f_equal.
  - apply list_fmap_ext. intros i k Hk. apply lookup_seqZ in Hk as [-> Hi]. unfold rat.
    rewrite list_lookup_insert_ne; [done|]. rewrite <- (counter_index r w _ eq_refl).
    intros E. apply index_inj in E; lia.
  - simpl. f_equal. unfold rat. rewrite (counter_index r w) by lia.
    rewrite list_lookup_insert_eq; [done|]. rewrite Hd. apply index_range.
Qed.

Lemma ring_skip data r w :
  0 < rlen r w -> ring data r w = rat data r 0 :: ring data ((r + 1) mod M) w.
Proof.
  intros Hn. pose proof (rlen_bounds r w). unfold ring. rewrite rlen_skip, seqZ_cons by done. simpl. f_equal.
  change (Z.succ 0) with (1 + 0). rewrite <- fmap_add_seqZ, <- list_fmap_compose.
  replace (Z.pred (rlen r w)) with (rlen r w - 1) by lia.
  apply list_fmap_ext. intros i k _. unfold rat, compose. do 3 f_equal.
  rewrite <- (Zplus_mod_idemp_l ((r + 1) mod M)), mod_M_size, Zplus_mod_idemp_l. f_equal. lia.
Qed.

Lemma ring_unput data r w :
  0 < rlen r w -> ring data r w = ring data r ((w - 1) mod M) ++ [rat data ((w - 1) mod M) 0].
Proof.
  intros Hn. pose proof (rlen_bounds r w). unfold ring. rewrite rlen_unput by done.
  replace (rlen r w) with (rlen r w - 1 + 1) at 1 by lia. rewrite seqZ_app, fmap_app by lia. f_equal.
  simpl. f_equal. unfold rat. do 3 f_equal. rewrite Z.add_0_r, mod_M_size.
  match goal with |- (r + ?k) mod size = _ => replace (r + k) with (r + rlen r w - 1) by lia end.
  by rewrite <- (Zminus_mod_idemp_l (r + rlen r w) 1 size), (counter_index r w _ eq_refl), Zminus_mod_idemp_l.
Qed.

(** The counter [m] splits the queue. *)
Lemma ring_app data r m w :
  rlen r m <= rlen r w -> ring data r w = ring data r m ++ ring data m w.
Proof.
  intros H. pose proof (rlen_bounds r w). pose proof (rlen_bounds r m).
  assert (E : rlen m w = rlen r w - rlen r m).
  { unfold rlen in *. rewrite <- (Z.mod_small ((w - r) mod M - (m - r) mod M) M) by lia.
    rewrite Zminus_mod_idemp_l, Zminus_mod_idemp_r. f_equal. lia. }
  unfold ring. rewrite E. replace (rlen r w) with (rlen r m + (rlen r w - rlen r m)) at 1 by lia.
  rewrite seqZ_app, fmap_app by lia. f_equal.
  change (0 + rlen r m) with (rlen r m). replace (rlen r m) with (rlen r m + 0) at 1 by lia.
  rewrite <- fmap_add_seqZ, <- list_fmap_compose. apply list_fmap_ext. intros i k _. unfold rat, compose.
  do 3 f_equal. replace (r + (rlen r m + k)) with (r + rlen r m + k) by lia.
  by rewrite <- (Zplus_mod_idemp_l (r + rlen r m) k size), (counter_index r m _ eq_refl), Zplus_mod_idemp_l.
Qed.

End Ring.
