(* ===== verification/Usr.v ===== *)
(** * Per-process kernel data and user memory

    kernel/proc.h: the fields of [struct proc] that are private to the process
    and the trapframe; kernel/proc.c: [either_copyout], [either_copyin];
    kernel/syscall.c: fetching system call arguments.

    The trapframe is a page of physical memory, read and written at the offsets
    proc.h gives.  A kernel destination of [either_copyout] is a variable of the
    caller: the bytes it receives are returned to the caller ([ToKernel]); a
    kernel source is the list of bytes it holds ([FromKernel]).  Diagnostic
    output ([printf]) does not touch the state of any component modelled here
    and is written [printk]. *)

From stdpp Require Import base gmap sets list strings.
From Stdlib Require Import ZArith Lia.
From S2P Require Import Prelude Kernel Riscv Kalloc Vm Sched Bytes.

(** ** Definitions *)

Definition NOFILE : nat := 16.

(** The code a context returns to. *)
Inductive code_addr : Type := CodeNull | CodeForkret.

(** The private fields of [struct proc]. *)
Record pdata : Type := Pdata {
  pd_kstack : Z;
  pd_sz : Z;
  pd_pagetable : Z;
  pd_trapframe : Z;
  pd_ra : code_addr;                (* context.ra *)
  pd_sp : Z;                        (* context.sp *)
  pd_ofile : list (option nat);     (* ofile[NOFILE] *)
  pd_cwd : option nat;
  pd_name : list Z                  (* the string in name[16] *)
}.

Definition set_pd_kstack (v : Z) (d : pdata) : pdata :=
  Pdata v (pd_sz d) (pd_pagetable d) (pd_trapframe d) (pd_ra d) (pd_sp d) (pd_ofile d) (pd_cwd d) (pd_name d).
Definition set_pd_sz (v : Z) (d : pdata) : pdata :=
  Pdata (pd_kstack d) v (pd_pagetable d) (pd_trapframe d) (pd_ra d) (pd_sp d) (pd_ofile d) (pd_cwd d) (pd_name d).
Definition set_pd_pagetable (v : Z) (d : pdata) : pdata :=
  Pdata (pd_kstack d) (pd_sz d) v (pd_trapframe d) (pd_ra d) (pd_sp d) (pd_ofile d) (pd_cwd d) (pd_name d).
Definition set_pd_trapframe (v : Z) (d : pdata) : pdata :=
  Pdata (pd_kstack d) (pd_sz d) (pd_pagetable d) v (pd_ra d) (pd_sp d) (pd_ofile d) (pd_cwd d) (pd_name d).
Definition set_pd_context (ra : code_addr) (sp : Z) (d : pdata) : pdata :=
  Pdata (pd_kstack d) (pd_sz d) (pd_pagetable d) (pd_trapframe d) ra sp (pd_ofile d) (pd_cwd d) (pd_name d).
Definition set_pd_ofile (v : list (option nat)) (d : pdata) : pdata :=
  Pdata (pd_kstack d) (pd_sz d) (pd_pagetable d) (pd_trapframe d) (pd_ra d) (pd_sp d) v (pd_cwd d) (pd_name d).
Definition set_pd_cwd (v : option nat) (d : pdata) : pdata :=
  Pdata (pd_kstack d) (pd_sz d) (pd_pagetable d) (pd_trapframe d) (pd_ra d) (pd_sp d) (pd_ofile d) v (pd_name d).
Definition set_pd_name (v : list Z) (d : pdata) : pdata :=
  Pdata (pd_kstack d) (pd_sz d) (pd_pagetable d) (pd_trapframe d) (pd_ra d) (pd_sp d) (pd_ofile d) (pd_cwd d) v.

(** Physical memory with its allocator, and the private data of the processes. *)
Record usr : Type := Usr { u_kmem : kmem; u_pd : list pdata }.

#[export] Instance usr_kmem : Part usr kmem :=
  {| part_get := u_kmem;
     part_put := fun k s => Usr k (u_pd s);
     part_get_put := fun _ _ => eq_refl;
     part_put_get := fun s => match s with Usr _ _ => eq_refl end;
     part_put_put := fun _ _ _ => eq_refl |}.

Definition getpd (i : nat) : K usr pdata :=
  fun e s => match u_pd s !! i with
             | Some d => Ret d e s
             | None => Undef "proc index"
             end.
Definition updpd (i : nat) (f : pdata -> pdata) : K usr unit :=
  modify (fun s => Usr (u_kmem s) (alter f i (u_pd s))).

(** Diagnostic output. *)
Definition printk {T} : K T unit := ret tt.

(** Offsets in [struct trapframe]. *)
Definition tf_kernel_satp : Z := 0.
Definition tf_kernel_sp : Z := 8.
Definition tf_kernel_trap : Z := 16.
Definition tf_epc : Z := 24.
Definition tf_kernel_hartid : Z := 32.
Definition tf_sp : Z := 48.
Definition tf_a (n : Z) : Z := 112 + 8 * n.
(** [sizeof(struct trapframe)] *)
Definition sizeof_trapframe : Z := 288.

(** [p->trapframe->field], and an assignment to it *)
Definition tf_load (p : nat) (off : Z) : K usr Z :=
  d <- getpd p ;;
  gets (fun s => load64 (kmem_mem (u_kmem s)) (pd_trapframe d + off)).
Definition tf_store (p : nat) (off v : Z) : K usr unit :=
  d <- getpd p ;;
  modify (fun s => Usr (set_mem (u_kmem s) (store64 (kmem_mem (u_kmem s)) (pd_trapframe d + off) v)) (u_pd s)).

(** What [vmfault] reads of [myproc()]. *)
Definition uproc_of (d : pdata) : uproc := Uproc (pd_sz d) (pd_pagetable d).

Section Usr.
Context {L : Linker}.

(** [copyin], keeping the bytes stored at the destination when it fails half
    way: the result of the C function and the bytes written. *)
Fixpoint copyin_part_loop (fuel : nat) (up : uproc) (pagetable srcva len : Z) : K kmem (Z * list Z) :=
  if len <=? 0 then ret (0, [])
  else
    match fuel with
    | O => undef "fuel"
    | S f =>
        let va0 := PGROUNDDOWN srcva in
        pa0 <- walkaddr pagetable va0 ;;
        pa0 <- (if pa0 =? 0 then vmfault up pagetable va0 else ret pa0) ;;
        if pa0 =? 0 then ret (-1, [])
        else
          let n := Z.min (PGSIZE - (srcva - va0)) len in
          bs <- gets (fun s => bytes_at (kmem_mem s) (pa0 + (srcva - va0)) (Z.to_nat n)) ;;
          r <- copyin_part_loop f up pagetable (u64 (va0 + PGSIZE)) (len - n) ;;
          ret (fst r, bs ++ snd r)
    end.

Definition copyin_part (up : uproc) (pagetable srcva len : Z) : K kmem (Z * list Z) :=
  copyin_part_loop (Z.to_nat len) up pagetable srcva len.

(** Where [readi] and the device drivers deliver bytes, and where [writei] and
    the drivers take them from. *)
Inductive dest : Type := ToUser (va : Z) | ToKernel.
Inductive source : Type := FromUser (va : Z) | FromKernel (l : list Z).

Definition dest_skip (m : Z) (d : dest) : dest :=
  match d with ToUser va => ToUser (u64 (va + m)) | ToKernel => ToKernel end.
Definition source_skip (m : Z) (s : source) : source :=
  match s with FromUser va => FromUser (u64 (va + m)) | FromKernel l => FromKernel (drop (Z.to_nat m) l) end.

(** The result of the C function, and the bytes moved to a kernel destination. *)
Definition either_copyout (d : dest) (src : list Z) : K usr (Z * list Z) :=
  p <- curproc ;;
  x <- getpd p ;;
  match d with
  | ToUser va =>
      r <- zoom (copyout (uproc_of x) (pd_pagetable x) va src) ;;
      ret (r, [])
  | ToKernel => ret (0, src)
  end.

(** The result of the C function, and the bytes stored at its destination. *)
Definition either_copyin (s : source) (len : Z) : K usr (Z * list Z) :=
  p <- curproc ;;
  x <- getpd p ;;
  match s with
  | FromUser va => zoom (copyin_part (uproc_of x) (pd_pagetable x) va len)
  | FromKernel l => ret (0, take (Z.to_nat len) l)
  end.

(** *** System call arguments *)

(** [fetchaddr]: the word, or [None] for the result -1. *)
Definition fetchaddr (addr : Z) : K usr (option Z) :=
  p <- curproc ;;
  x <- getpd p ;;
  if (pd_sz x <=? addr) || (pd_sz x <? u64 (addr + 8)) then ret None
  else
    r <- zoom (copyin (uproc_of x) (pd_pagetable x) addr 8) ;;
    ret (option_map of_le r).

(** [fetchstr]: the string in [buf] ([strlen(buf)] is the C result), or [None]
    for the result -1. *)
Definition fetchstr (addr max : Z) : K usr (option (list Z)) :=
  p <- curproc ;;
  x <- getpd p ;;
  zoom (copyinstr (pd_pagetable x) addr max).

Definition argraw (n : Z) : K usr Z :=
  p <- curproc ;;
  if (0 <=? n) && (n <=? 5) then tf_load p (tf_a n)
  else panic "argraw".

Definition argint (n : Z) : K usr Z :=
  v <- argraw n ;;
  ret (i32 v).

Definition argaddr (n : Z) : K usr Z := argraw n.

Definition argstr (n max : Z) : K usr (option (list Z)) :=
  addr <- argaddr n ;;
  fetchstr addr max.

(** ** Lemmas *)

(** [copyin_part] computes what [copyin] does. *)
Lemma copyin_part_loop_eq fuel up pt va len e s :
  copyin_loop fuel up pt va len e s =
  match copyin_part_loop fuel up pt va len e s with
  | Ret (r, l) e' s' => Ret (if r =? 0 then Some l else None) e' s'
  | Panic msg => Panic msg
  | Block e' s' => Block e' s'
  | Undef why => Undef why
  end.
Proof.
  revert va len e s. induction fuel as [|f IH]; intros va len e s; simpl.
  - by destruct (len <=? 0).
  - destruct (len <=? 0); [done|]. unfold bind, gets. destruct (walkaddr pt (PGROUNDDOWN va) e s) as [pa e1 s1| | |]; [|done..].
    destruct ((if pa =? 0 then vmfault up pt (PGROUNDDOWN va) else ret pa) e1 s1) as [pa' e2 s2| | |]; [|done..].
    destruct (pa' =? 0); [done|]. rewrite IH.
    destruct (copyin_part_loop _ _ _ _ _ e2 s2) as [[r l] e3 s3| | |]; [|done..]. simpl. by destruct (r =? 0).
Qed.

Lemma copyin_part_eq up pt va len e s :
  copyin up pt va len e s =
  match copyin_part up pt va len e s with
  | Ret (r, l) e' s' => Ret (if r =? 0 then Some l else None) e' s'
  | Panic msg => Panic msg
  | Block e' s' => Block e' s'
  | Undef why => Undef why
  end.
Proof. apply copyin_part_loop_eq. Qed.

End Usr.
