(* ===== verification/Fs.v ===== *)
(** * kernel/fs.c: blocks, inodes, directories and paths

    The file system below the file descriptor layer, every function of fs.c on
    top of the log ([Log]), the buffer cache ([Bio]) and user memory ([Usr]).
    On-disk structures (kernel/fs.h) are byte ranges of a block, read and written
    at their C offsets.  An inode pointer is an index into [itable.inode];
    [option nat] where the C code tests for a null pointer.  A path and a path
    element are the bytes of the C string without its NUL. *)

From stdpp Require Import base gmap sets list strings.
From Stdlib Require Import ZArith Lia.
From S2P Require Import Prelude Kernel Riscv Kstring Kalloc Vm Sched Sleeplock Bytes Bio Log Usr.

(** ** Definitions *)

Definition FSMAGIC : Z := 0x10203040.
Definition ROOTINO : Z := 1.
Definition NINODE : nat := 50.
Definition NDIRECT : Z := 12.
Definition NINDIRECT : Z := BSIZE / 4.
Definition MAXFILE : Z := NDIRECT + NINDIRECT.
Definition DIRSIZ : Z := 14.
Definition T_DIR : Z := 1.
Definition T_FILE : Z := 2.
Definition T_DEVICE : Z := 3.
(** [sizeof(struct dinode)], [sizeof(struct dirent)] *)
Definition sizeof_dinode : Z := 64.
Definition sizeof_dirent : Z := 16.
Definition IPB : Z := BSIZE / sizeof_dinode.
Definition BPB : Z := BSIZE * 8.
Definition IBLOCK (i : Z) (sb : superblock) : Z := u32 (i / IPB + sb_inodestart sb).
Definition BBLOCK (b : Z) (sb : superblock) : Z := u32 (b / BPB + sb_bmapstart sb).

(** [struct inode] without its lock *)
Record inode : Type := Inode {
  i_dev : Z;
  i_inum : Z;
  i_ref : Z;
  i_valid : Z;
  i_type : Z;
  i_major : Z;
  i_minor : Z;
  i_nlink : Z;
  i_size : Z;
  i_addrs : list Z
}.

Definition set_i_ref (r : Z) (x : inode) : inode :=
  Inode (i_dev x) (i_inum x) r (i_valid x) (i_type x) (i_major x) (i_minor x) (i_nlink x) (i_size x) (i_addrs x).
Definition set_i_ident (dev inum : Z) (x : inode) : inode :=
  Inode dev inum 1 0 (i_type x) (i_major x) (i_minor x) (i_nlink x) (i_size x) (i_addrs x).
Definition set_i_valid (v : Z) (x : inode) : inode :=
  Inode (i_dev x) (i_inum x) (i_ref x) v (i_type x) (i_major x) (i_minor x) (i_nlink x) (i_size x) (i_addrs x).
Definition set_i_type (v : Z) (x : inode) : inode :=
  Inode (i_dev x) (i_inum x) (i_ref x) (i_valid x) v (i_major x) (i_minor x) (i_nlink x) (i_size x) (i_addrs x).
Definition set_i_devno (major minor : Z) (x : inode) : inode :=
  Inode (i_dev x) (i_inum x) (i_ref x) (i_valid x) (i_type x) major minor (i_nlink x) (i_size x) (i_addrs x).
Definition set_i_nlink (v : Z) (x : inode) : inode :=
  Inode (i_dev x) (i_inum x) (i_ref x) (i_valid x) (i_type x) (i_major x) (i_minor x) v (i_size x) (i_addrs x).
Definition set_i_size (v : Z) (x : inode) : inode :=
  Inode (i_dev x) (i_inum x) (i_ref x) (i_valid x) (i_type x) (i_major x) (i_minor x) (i_nlink x) v (i_addrs x).
Definition set_i_addr (k v : Z) (x : inode) : inode :=
  Inode (i_dev x) (i_inum x) (i_ref x) (i_valid x) (i_type x) (i_major x) (i_minor x) (i_nlink x) (i_size x)
        (<[Z.to_nat k := v]> (i_addrs x)).

(** The state of the file system: [sb], [itable], and the layers below. *)
Record fs : Type := Fs {
  fs_usr : usr;
  fs_log : logst;
  fs_sb : superblock;
  fs_inode : list inode;
  fs_locks : sleeplocks
}.

Definition with_log (s : fs) (l : logst) : fs := Fs (fs_usr s) l (fs_sb s) (fs_inode s) (fs_locks s).
Definition with_usr (s : fs) (u : usr) : fs := Fs u (fs_log s) (fs_sb s) (fs_inode s) (fs_locks s).
Definition set_sb (sb : superblock) (s : fs) : fs := Fs (fs_usr s) (fs_log s) sb (fs_inode s) (fs_locks s).
Definition set_inodes (l : list inode) (s : fs) : fs := Fs (fs_usr s) (fs_log s) (fs_sb s) l (fs_locks s).

#[export] Instance fs_log_part : Part fs logst :=
  {| part_get := fs_log; part_put := fun l s => with_log s l;
     part_get_put := fun _ _ => eq_refl;
     part_put_get := fun s => match s with Fs _ _ _ _ _ => eq_refl end;
     part_put_put := fun _ _ _ => eq_refl |}.

#[export] Instance fs_usr_part : Part fs usr :=
  {| part_get := fs_usr; part_put := fun u s => with_usr s u;
     part_get_put := fun _ _ => eq_refl;
     part_put_get := fun s => match s with Fs _ _ _ _ _ => eq_refl end;
     part_put_put := fun _ _ _ => eq_refl |}.

#[export] Instance fs_locks_part : Part fs sleeplocks :=
  {| part_get := fs_locks;
     part_put := fun l s => Fs (fs_usr s) (fs_log s) (fs_sb s) (fs_inode s) l;
     part_get_put := fun _ _ => eq_refl;
     part_put_get := fun s => match s with Fs _ _ _ _ _ => eq_refl end;
     part_put_put := fun _ _ _ => eq_refl |}.

(** Code of the buffer cache, run by the file system. *)
Definition on_bio {A} (m : K bio A) : K fs A := zoom (zoom m : K logst A).

Definition fs_bread (dev b : Z) : K fs nat := on_bio (bread (u32 dev) (u32 b)).
Definition fs_brelse (i : nat) : K fs unit := on_bio (brelse i).
Definition fs_log_write (i : nat) : K fs unit := zoom (log_write i).
(** [bp->data], and an assignment to part of it *)
Definition buf_data (i : nat) : K fs (list Z) := x <- on_bio (getb i) ;; ret (b_data x).
Definition buf_update (i : nat) (f : list Z -> list Z) : K fs unit :=
  on_bio (updb i (fun x => set_data (f (b_data x)) x)).

Definition geti (i : nat) : K fs inode :=
  fun e s => match fs_inode s !! i with
             | Some x => Ret x e s
             | None => Undef "inode index"
             end.
Definition updi (i : nat) (f : inode -> inode) : K fs unit :=
  modify (fun s => set_inodes (alter f i (fs_inode s)) s).

(** *** The super block *)

Definition sb_of (d : list Z) : superblock :=
  Superblock (ld 4 0 d) (ld 4 4 d) (ld 4 8 d) (ld 4 12 d) (ld 4 16 d) (ld 4 20 d) (ld 4 24 d) (ld 4 28 d).

Definition readsb (dev : Z) : K fs unit :=
  bp <- fs_bread dev 1 ;;
  d <- buf_data bp ;;
  modify (set_sb (sb_of d)) ;;
  fs_brelse bp.

Definition fsinit (dev : Z) : K fs unit :=
  readsb dev ;;
  sb <- gets fs_sb ;;
  if negb (sb_magic sb =? FSMAGIC) then panic "invalid file system"
  else zoom (initlog dev sb).

(** *** Blocks *)

Definition bzero (dev bno : Z) : K fs unit :=
  bp <- fs_bread dev bno ;;
  buf_update bp (fun _ => replicate (Z.to_nat BSIZE) 0) ;;
  fs_log_write bp ;;
  fs_brelse bp.

(** [bp->data[bi/8] & (1 << (bi % 8))] *)
Definition bit_byte (d : list Z) (bi : Z) : Z := ld 1 (Z.to_nat (bi / 8)) d.
Definition bit_mask (bi : Z) : Z := Z.shiftl 1 (bi mod 8).
Definition bit_clear (d : list Z) (bi : Z) : bool := Z.land (bit_byte d bi) (bit_mask bi) =? 0.

(** The first [bi] of the inner loop of [balloc] whose bit is clear. *)
Definition free_bit (d : list Z) (n : Z) : option Z :=
  snd <$> list_find (fun bi => bit_clear d bi = true) (seqZ 0 n).

Definition balloc (dev : Z) : K fs Z :=
  sb <- gets fs_sb ;;
  r <- for_find (seqZ 0 ((sb_size sb + BPB - 1) / BPB)) (fun k =>
    let b := k * BPB in
    bp <- fs_bread dev (BBLOCK b sb) ;;
    d <- buf_data bp ;;
    match free_bit d (Z.min BPB (sb_size sb - b)) with
    | Some bi =>
        buf_update bp (fun d => st 1 (Z.to_nat (bi / 8)) (Z.lor (bit_byte d bi) (bit_mask bi)) d) ;;
        fs_log_write bp ;;
        fs_brelse bp ;;
        bzero dev (b + bi) ;;
        ret (Some (b + bi))
    | None =>
        fs_brelse bp ;;
        ret None
    end) ;;
  match r with
  | Some b => ret b
  | None => printk ;; ret 0
  end.

Definition bfree (dev b : Z) : K fs unit :=
  sb <- gets fs_sb ;;
  bp <- fs_bread dev (BBLOCK b sb) ;;
  let bi := b mod BPB in
  d <- buf_data bp ;;
  if bit_clear d bi then panic "freeing free block"
  else
    buf_update bp (fun d => st 1 (Z.to_nat (bi / 8)) (Z.land (bit_byte d bi) (Z.lnot (bit_mask bi))) d) ;;
    fs_log_write bp ;;
    fs_brelse bp.

(** *** Inodes *)

Definition iinit : K fs unit :=
  initlock ItableLock ;;
  for_each (seq 0 NINODE) (fun i => zoom (initsleeplock (InodeLock i))).

(** Offsets in [struct dinode]; [dip] is the offset of the inode in its block. *)
Definition dip_off (inum : Z) : nat := Z.to_nat (inum mod IPB * sizeof_dinode).
Definition ld_short (off : nat) (d : list Z) : Z := i16 (ld 2 off d).
Definition off_addr (k : Z) : nat := (12 + 4 * Z.to_nat k)%nat.
Definition addr_slots : list Z := seqZ 0 (NDIRECT + 1).

(** The fields [ilock] copies from the on-disk inode at [o]. *)
Definition dinode_load (d : list Z) (o : nat) (x : inode) : inode :=
  Inode (i_dev x) (i_inum x) (i_ref x) (i_valid x)
        (ld_short o d) (ld_short (o + 2) d) (ld_short (o + 4) d) (ld_short (o + 6) d)
        (ld 4 (o + 8) d) ((fun k => ld 4 (o + off_addr k) d) <$> addr_slots).

(** The assignments of [iupdate] to the on-disk inode at [o]. *)
Definition dinode_store (x : inode) (o : nat) (d : list Z) : list Z :=
  let d := st 2 o (i_type x) d in
  let d := st 2 (o + 2) (i_major x) d in
  let d := st 2 (o + 4) (i_minor x) d in
  let d := st 2 (o + 6) (i_nlink x) d in
  let d := st 4 (o + 8) (i_size x) d in
  foldl (fun d k => st 4 (o + off_addr k) (default 0 (i_addrs x !! Z.to_nat k)) d) d addr_slots.

(** [iget], the scan of the table: the entry of the inode, or the first empty one. *)
Definition iget_match (dev inum : Z) (x : inode) : bool :=
  (0 <? i_ref x) && (i_dev x =? dev) && (i_inum x =? inum).
Definition iget_find (dev inum : Z) (l : list inode) : option nat :=
  fst <$> list_find (fun x => iget_match dev inum x = true) l.
Definition iget_empty (l : list inode) : option nat :=
  fst <$> list_find (fun x => i_ref x = 0) l.

Definition iget (dev inum : Z) : K fs nat :=
  acquire ItableLock ;;
  l <- gets fs_inode ;;
  match iget_find dev inum l with
  | Some i =>
      updi i (fun x => set_i_ref (i_ref x + 1) x) ;;
      release ItableLock ;;
      ret i
  | None =>
      match iget_empty l with
      | None => panic "iget: no inodes"
      | Some i =>
          updi i (set_i_ident dev inum) ;;
          release ItableLock ;;
          ret i
      end
  end.

Definition ialloc (dev type : Z) : K fs (option nat) :=
  sb <- gets fs_sb ;;
  r <- for_find (seqZ 1 (sb_ninodes sb - 1)) (fun inum =>
    bp <- fs_bread dev (IBLOCK inum sb) ;;
    d <- buf_data bp ;;
    let o := dip_off inum in
    if ld_short o d =? 0 then
      buf_update bp (fun d => st 2 o type (splice o (replicate (Z.to_nat sizeof_dinode) 0) d)) ;;
      fs_log_write bp ;;
      fs_brelse bp ;;
      i <- iget dev inum ;;
      ret (Some i)
    else
      fs_brelse bp ;;
      ret None) ;;
  match r with
  | Some i => ret (Some i)
  | None => printk ;; ret None
  end.

Definition iupdate (ip : nat) : K fs unit :=
  sb <- gets fs_sb ;;
  x <- geti ip ;;
  bp <- fs_bread (i_dev x) (IBLOCK (i_inum x) sb) ;;
  buf_update bp (dinode_store x (dip_off (i_inum x))) ;;
  fs_log_write bp ;;
  fs_brelse bp.

Definition idup (ip : nat) : K fs nat :=
  acquire ItableLock ;;
  updi ip (fun x => set_i_ref (i_ref x + 1) x) ;;
  release ItableLock ;;
  ret ip.

(** The part of [ilock] after [acquiresleep]. *)
Definition ilock_load (i : nat) : K fs unit :=
  x <- geti i ;;
  when (i_valid x =? 0)
    (sb <- gets fs_sb ;;
     bp <- fs_bread (i_dev x) (IBLOCK (i_inum x) sb) ;;
     d <- buf_data bp ;;
     updi i (dinode_load d (dip_off (i_inum x))) ;;
     fs_brelse bp ;;
     updi i (set_i_valid 1) ;;
     x <- geti i ;;
     when (i_type x =? 0) (panic "ilock: no type")).

Definition ilock (ip : option nat) : K fs unit :=
  match ip with
  | None => panic "ilock"
  | Some i =>
      x <- geti i ;;
      if i_ref x <? 1 then panic "ilock"
      else
        zoom (acquiresleep (InodeLock i)) ;;
        ilock_load i
  end.

Definition iunlock (ip : option nat) : K fs unit :=
  match ip with
  | None => panic "iunlock"
  | Some i =>
      h <- zoom (holdingsleep (InodeLock i)) ;;
      x <- geti i ;;
      if negb h || (i_ref x <? 1) then panic "iunlock"
      else zoom (releasesleep (InodeLock i))
  end.

Definition itrunc (ip : nat) : K fs unit :=
  for_each (seqZ 0 NDIRECT) (fun i =>
    x <- geti ip ;;
    let a := default 0 (i_addrs x !! Z.to_nat i) in
    when (truth a)
      (bfree (i_dev x) a ;;
       updi ip (set_i_addr i 0))) ;;
  x <- geti ip ;;
  let a := default 0 (i_addrs x !! Z.to_nat NDIRECT) in
  when (truth a)
    (bp <- fs_bread (i_dev x) a ;;
     for_each (seqZ 0 NINDIRECT) (fun j =>
       d <- buf_data bp ;;
       let aj := ld 4 (4 * Z.to_nat j) d in
       when (truth aj) (bfree (i_dev x) aj)) ;;
     fs_brelse bp ;;
     bfree (i_dev x) a ;;
     updi ip (set_i_addr NDIRECT 0)) ;;
  updi ip (set_i_size 0) ;;
  iupdate ip.

Definition iput (ip : nat) : K fs unit :=
  acquire ItableLock ;;
  x <- geti ip ;;
  when ((i_ref x =? 1) && truth (i_valid x) && (i_nlink x =? 0))
    (zoom (acquiresleep (InodeLock ip)) ;;
     release ItableLock ;;
     itrunc ip ;;
     updi ip (set_i_type 0) ;;
     iupdate ip ;;
     updi ip (set_i_valid 0) ;;
     zoom (releasesleep (InodeLock ip)) ;;
     acquire ItableLock) ;;
  updi ip (fun x => set_i_ref (i_ref x - 1) x) ;;
  release ItableLock.

Definition iunlockput (ip : nat) : K fs unit :=
  iunlock (Some ip) ;;
  iput ip.

(** *** Inode content *)

Definition bmap (ip : nat) (bn : Z) : K fs Z :=
  x <- geti ip ;;
  if bn <? NDIRECT then
    let addr := default 0 (i_addrs x !! Z.to_nat bn) in
    if addr =? 0 then
      addr <- balloc (i_dev x) ;;
      if addr =? 0 then ret 0
      else
        updi ip (set_i_addr bn addr) ;;
        ret addr
    else ret addr
  else
    let bn := bn - NDIRECT in
    if bn <? NINDIRECT then
      let addr := default 0 (i_addrs x !! Z.to_nat NDIRECT) in
      addr <- (if addr =? 0 then
                 addr <- balloc (i_dev x) ;;
                 when (negb (addr =? 0)) (updi ip (set_i_addr NDIRECT addr)) ;;
                 ret addr
               else ret addr) ;;
      if addr =? 0 then ret 0
      else
        bp <- fs_bread (i_dev x) addr ;;
        d <- buf_data bp ;;
        let a := ld 4 (4 * Z.to_nat bn) d in
        addr <- (if a =? 0 then
                   addr <- balloc (i_dev x) ;;
                   when (truth addr)
                     (buf_update bp (st 4 (4 * Z.to_nat bn) addr) ;;
                      fs_log_write bp) ;;
                   ret addr
                 else ret a) ;;
        fs_brelse bp ;;
        ret addr
    else panic "bmap: out of range".

(** [struct stat] *)
Record stat : Type := Stat { st_dev : Z; st_ino : Z; st_type : Z; st_nlink : Z; st_size : Z }.

Definition stati (ip : nat) : K fs stat :=
  x <- geti ip ;;
  ret (Stat (i32 (i_dev x)) (i_inum x) (i_type x) (i_nlink x) (i_size x)).

Section Content.
Context {L : Linker}.

(** The number of turns [readi] and [writei] can take for [n] bytes. *)
Definition rw_fuel (n : Z) : nat := Z.to_nat (n / BSIZE + 2).

(** The loop of [readi]; the result of the C function and the bytes delivered to
    a kernel destination. *)
Fixpoint readi_loop (fuel : nat) (ip : nat) (d : dest) (off n tot : Z) (acc : list Z) : K fs (Z * list Z) :=
  if tot <? n then
    match fuel with
    | O => undef "fuel"
    | S f =>
        addr <- bmap ip (off / BSIZE) ;;
        if addr =? 0 then ret (i32 tot, acc)
        else
          x <- geti ip ;;
          bp <- fs_bread (i_dev x) addr ;;
          let m := Z.min (n - tot) (BSIZE - off mod BSIZE) in
          data <- buf_data bp ;;
          r <- zoom (either_copyout d (slice (Z.to_nat (off mod BSIZE)) (Z.to_nat m) data)) ;;
          if fst r =? -1 then
            fs_brelse bp ;;
            ret (-1, acc)
          else
            fs_brelse bp ;;
            readi_loop f ip (dest_skip m d) (u32 (off + m)) n (tot + m) (acc ++ snd r)
    end
  else ret (i32 tot, acc).

Definition readi (ip : nat) (d : dest) (off n : Z) : K fs (Z * list Z) :=
  x <- geti ip ;;
  if (i_size x <? off) || (u32 (off + n) <? off) then ret (0, [])
  else
    let n := if i_size x <? u32 (off + n) then i_size x - off else n in
    readi_loop (rw_fuel n) ip d off n 0 [].

(** The loop of [writei]: the final [tot] and [off]. *)
Fixpoint writei_loop (fuel : nat) (ip : nat) (s : source) (off n tot : Z) : K fs (Z * Z) :=
  if tot <? n then
    match fuel with
    | O => undef "fuel"
    | S f =>
        addr <- bmap ip (off / BSIZE) ;;
        if addr =? 0 then ret (tot, off)
        else
          x <- geti ip ;;
          bp <- fs_bread (i_dev x) addr ;;
          let m := Z.min (n - tot) (BSIZE - off mod BSIZE) in
          r <- zoom (either_copyin s m) ;;
          buf_update bp (splice (Z.to_nat (off mod BSIZE)) (snd r)) ;;
          if fst r =? -1 then
            fs_brelse bp ;;
            ret (tot, off)
          else
            fs_log_write bp ;;
            fs_brelse bp ;;
            writei_loop f ip (source_skip m s) (u32 (off + m)) n (tot + m)
    end
  else ret (tot, off).

Definition writei (ip : nat) (s : source) (off n : Z) : K fs Z :=
  x <- geti ip ;;
  if (i_size x <? off) || (u32 (off + n) <? off) then ret (-1)
  else if MAXFILE * BSIZE <? u32 (off + n) then ret (-1)
  else
    r <- writei_loop (rw_fuel n) ip s off n 0 ;;
    x <- geti ip ;;
    when (i_size x <? snd r) (updi ip (set_i_size (snd r))) ;;
    iupdate ip ;;
    ret (i32 (fst r)).

(** *** Directories *)

(** [strncmp(s, t, DIRSIZ)] on two arrays of [DIRSIZ] bytes *)
Definition namecmp (s t : list Z) : Z :=
  let m := mem_write (mem_write (fun _ => 0) 0 (take (Z.to_nat DIRSIZ) s)) DIRSIZ (take (Z.to_nat DIRSIZ) t) in
  strncmp m 0 DIRSIZ DIRSIZ.

(** [de.inum] and [de.name] of a [struct dirent] *)
Definition de_inum (d : list Z) : Z := ld 2 0 d.
Definition de_name (d : list Z) : list Z := slice 2 (Z.to_nat DIRSIZ) d.

(** The offsets of the entries of a directory of [size] bytes. *)
Definition de_offs (size : Z) : list Z := (fun k => k * sizeof_dirent) <$> seqZ 0 ((size + sizeof_dirent - 1) / sizeof_dirent).

(** [dirlookup]: the inode and the offset of its entry, if there is one. *)
Definition dirlookup (dp : nat) (name : list Z) : K fs (option (nat * Z)) :=
  x <- geti dp ;;
  if negb (i_type x =? T_DIR) then panic "dirlookup not DIR"
  else
    for_find (de_offs (i_size x)) (fun off =>
      r <- readi dp ToKernel off sizeof_dirent ;;
      if negb (fst r =? sizeof_dirent) then panic "dirlookup read"
      else if de_inum (snd r) =? 0 then ret None
      else if namecmp name (de_name (snd r)) =? 0 then
        x <- geti dp ;;
        i <- iget (i_dev x) (de_inum (snd r)) ;;
        ret (Some (i, off))
      else ret None).

(** [strncpy(de.name, name, DIRSIZ); de.inum = inum;] as the bytes of [de] *)
Definition mk_dirent (name : list Z) (inum : Z) : list Z :=
  le 2 inum ++ bytes_at (strncpy (mem_write (fun _ => 0) DIRSIZ (name ++ [0])) 0 DIRSIZ DIRSIZ) 0 (Z.to_nat DIRSIZ).

Definition dirlink (dp : nat) (name : list Z) (inum : Z) : K fs Z :=
  r <- dirlookup dp name ;;
  match r with
  | Some (ip, _) =>
      iput ip ;;
      ret (-1)
  | None =>
      x <- geti dp ;;
      o <- for_find (de_offs (i_size x)) (fun off =>
             r <- readi dp ToKernel off sizeof_dirent ;;
             if negb (fst r =? sizeof_dirent) then panic "dirlink read"
             else if de_inum (snd r) =? 0 then ret (Some off)
             else ret None) ;;
      let off := default (Z.of_nat (length (de_offs (i_size x))) * sizeof_dirent) o in
      r <- writei dp (FromKernel (mk_dirent name inum)) off sizeof_dirent ;;
      if negb (r =? sizeof_dirent) then ret (-1) else ret 0
  end.

(** *** Paths *)

Definition slash : Z := 47.

Fixpoint skip_slashes (path : list Z) : list Z :=
  match path with
  | c :: path' => if c =? slash then skip_slashes path' else path
  | [] => []
  end.

(** The element at the start of [path], and what follows it. *)
Fixpoint span_elem (path : list Z) : list Z * list Z :=
  match path with
  | c :: path' =>
      if c =? slash then ([], path)
      else let '(s, rest) := span_elem path' in (c :: s, rest)
  | [] => ([], [])
  end.

(** The path after the element, and the element ([name], cut to [DIRSIZ]). *)
Definition skipelem (path : list Z) : option (list Z * list Z) :=
  let path := skip_slashes path in
  match path with
  | [] => None
  | _ =>
      let '(s, rest) := span_elem path in
      Some (skip_slashes rest, take (Z.to_nat DIRSIZ) s)
  end.

(** The loop of [namex]; each turn shortens the path.  The result is the inode
    and the last element copied into [name]. *)
Fixpoint namex_loop (fuel : nat) (ip : nat) (path : list Z) (nameiparent : bool) (name : list Z) : K fs (option (nat * list Z)) :=
  match skipelem path with
  | None =>
      if nameiparent then
        iput ip ;;
        ret None
      else ret (Some (ip, name))
  | Some (path, name) =>
      match fuel with
      | O => undef "fuel"
      | S f =>
          ilock (Some ip) ;;
          x <- geti ip ;;
          if negb (i_type x =? T_DIR) then
            iunlockput ip ;;
            ret None
          else if nameiparent && bool_decide (path = []) then
            iunlock (Some ip) ;;
            ret (Some (ip, name))
          else
            next <- dirlookup ip name ;;
            match next with
            | None =>
                iunlockput ip ;;
                ret None
            | Some (next, _) =>
                iunlockput ip ;;
                namex_loop f next path nameiparent name
            end
      end
  end.

(** [idup(myproc()->cwd)] *)
Definition idup_cwd : K fs nat :=
  p <- curproc ;;
  d <- zoom (getpd p) ;;
  match pd_cwd d with
  | Some i => idup i
  | None => undef "null cwd"
  end.

Definition namex (path : list Z) (nameiparent : bool) : K fs (option (nat * list Z)) :=
  ip <- (if bool_decide (path !! 0%nat = Some slash) then iget ROOTDEV ROOTINO else idup_cwd) ;;
  namex_loop (length path) ip path nameiparent [].

Definition namei (path : list Z) : K fs (option nat) :=
  r <- namex path false ;;
  ret (fst <$> r).

Definition nameiparent (path : list Z) : K fs (option (nat * list Z)) := namex path true.

End Content.
