(* ===== verification/Path.v ===== *)
(** * kernel/fs.c: path names

    The loop of [namex], which walks a path with [skipelem], against a reference
    definition: split the path at its slashes, drop the empty pieces, cut each
    name to [DIRSIZ] bytes, and look the names up one after the other. *)

From stdpp Require Import base gmap sets list strings.
From Stdlib Require Import ZArith Lia.
From S2P Require Import Prelude Kernel Riscv Kalloc Vm Sched Sleeplock Bytes Bio Log Usr Fs.

(** ** Specification *)

(** The pieces of a path between its slashes, empty ones included. *)
Fixpoint split_slash (path : list Z) : list (list Z) :=
  match path with
  | [] => [[]]
  | c :: path' =>
      match split_slash path' with
      | [] => [[c]]
      | w :: ws => if c =? slash then [] :: w :: ws else (c :: w) :: ws
      end
  end.

Definition path_elems (path : list Z) : list (list Z) :=
  take (Z.to_nat DIRSIZ) <$> filter (fun w => w <> []) (split_slash path).

(** The path with the given names, each preceded by a slash *)
Definition join_path (names : list (list Z)) : list Z := concat ((fun w => slash :: w) <$> names).

Section Path.
Context {L : Linker}.

(** Look up [names] from the directory [ip] on; [name] is the last name seen. *)
Fixpoint resolve (ip : nat) (names : list (list Z)) (parent : bool) (name : list Z) : K fs (option (nat * list Z)) :=
  match names with
  | [] =>
      if parent then
        iput ip ;;
        ret None
      else ret (Some (ip, name))
  | n :: names' =>
      ilock (Some ip) ;;
      x <- geti ip ;;
      if negb (i_type x =? T_DIR) then
        iunlockput ip ;;
        ret None
      else if parent && bool_decide (names' = []) then
        iunlock (Some ip) ;;
        ret (Some (ip, n))
      else
        next <- dirlookup ip n ;;
        match next with
        | None =>
            iunlockput ip ;;
            ret None
        | Some (next, _) =>
            iunlockput ip ;;
            resolve next names' parent n
        end
  end.

(** ** Lemmas *)

Lemma split_slash_cons path : exists w ws, split_slash path = w :: ws.
Proof.
  destruct path as [|c path]; [by eexists _, _|]. cbn. destruct (split_slash path) as [|w ws]; [by eexists _, _|].
  destruct (c =? slash); by eexists _, _.
Qed.

Lemma split_slash_slash path : split_slash (slash :: path) = [] :: split_slash path.
Proof. cbn. destruct (split_slash_cons path) as (w & ws & ->). done. Qed.

Lemma elems_skip path : path_elems (skip_slashes path) = path_elems path.
Proof.
  induction path as [|c path IH]; [done|]. cbn [skip_slashes]. destruct (Z.eqb_spec c slash) as [->|]; [|done].
  rewrite IH. unfold path_elems. by rewrite split_slash_slash, filter_cons_False by tauto.
Qed.

Lemma skip_slashes_length path : (length (skip_slashes path) <= length path)%nat.
Proof. induction path as [|c path IH]; [done|]. cbn. destruct (c =? slash); cbn; lia. Qed.

Lemma skip_slashes_head path c path' : skip_slashes path = c :: path' -> c <> slash.
Proof. induction path as [|x path IH]; [done|]. cbn. destruct (Z.eqb_spec x slash); [done|]. intros [= <- _]. done. Qed.

(** The element [span_elem] takes is the first piece. *)
Lemma span_split path s rest : span_elem path = (s, rest) ->
  split_slash path = s :: (match rest with [] => [] | _ :: r => split_slash r end) /\
  (length s + length rest)%nat = length path /\ (rest = [] \/ exists r, rest = slash :: r).
Proof.
  revert s rest. induction path as [|c path IH]; intros s rest; [by intros [= <- <-]; auto|].
  cbn [span_elem]. destruct (Z.eqb_spec c slash) as [->|Hc].
  - intros [= <- <-]. split; [apply split_slash_slash|]. split; [done|]. right. by eexists.
  - destruct (span_elem path) as [s' rest'] eqn:E. intros [= <- <-]. destruct (IH s' rest' eq_refl) as (H1 & H2 & H3).
    split; [|split; [cbn; lia|done]]. cbn [split_slash]. rewrite H1. by rewrite (proj2 (Z.eqb_neq c slash) Hc).
Qed.

Lemma elems_nonempty c path : c <> slash -> path_elems (c :: path) <> [].
Proof.
  intros Hc. unfold path_elems. cbn [split_slash]. destruct (split_slash_cons path) as (w & ws & ->).
  rewrite (proj2 (Z.eqb_neq c slash) Hc). by rewrite filter_cons_True.
Qed.

Lemma elems_nil path : path_elems (skip_slashes path) = [] <-> skip_slashes path = [].
Proof.
  split; [|by intros ->]. intros H. destruct (skip_slashes path) as [|c r] eqn:E; [done|].
  exfalso. exact (elems_nonempty c r (skip_slashes_head _ _ _ E) H).
Qed.

(** One step of [skipelem] is one step through the elements. *)
Lemma skipelem_elems path :
  match skipelem path with
  | None => path_elems path = []
  | Some (rest, name) => path_elems path = name :: path_elems rest /\
      (rest = [] <-> path_elems rest = []) /\ (length rest < length path)%nat
  end.
Proof.
  unfold skipelem. rewrite <- (elems_skip path). pose proof (skip_slashes_length path) as Hl.
  destruct (skip_slashes path) as [|c r] eqn:E; [done|]. pose proof (skip_slashes_head _ _ _ E) as Hc.
  destruct (span_elem (c :: r)) as [s rest] eqn:Es. destruct (span_split _ _ _ Es) as (H1 & H2 & H3).
  assert (Hs : exists s', s = c :: s').
  { cbn in Es. rewrite (proj2 (Z.eqb_neq c slash) Hc) in Es. destruct (span_elem r). injection Es as <- _. by eexists. }
  destruct Hs as (s' & ->). split; [|split].
  - unfold path_elems at 1. rewrite H1, filter_cons_True by done. cbn [fmap list_fmap]. f_equal.
    rewrite elems_skip. unfold path_elems. destruct H3 as [->|(r' & ->)]; [done|].
    by rewrite split_slash_slash, filter_cons_False by tauto.
  - by rewrite elems_nil.
  - pose proof (skip_slashes_length rest). cbn in *. lia.
Qed.

Lemma namex_loop_resolve fuel ip path parent name e s : (length path <= fuel)%nat ->
  namex_loop fuel ip path parent name e s = resolve ip (path_elems path) parent name e s.
Proof.
  revert ip path name e s. induction fuel as [|f IH]; intros ip path name e s Hf; cbn [namex_loop];
    pose proof (skipelem_elems path) as H; destruct (skipelem path) as [[rest nm]|].
  - destruct H as (_ & _ & H). lia.
  - by rewrite H.
  - destruct H as (-> & Hr & Hl). cbn [resolve]. unfold bind.
    destruct (ilock (Some ip) e s) as [? e1 s1| | |]; [|done..].
    destruct (geti ip e1 s1) as [x e2 s2| | |]; [|done..].
    destruct (negb (i_type x =? T_DIR)); [done|]. rewrite (bool_decide_ext _ _ Hr).
    destruct (parent && _); [done|]. destruct (dirlookup ip nm e2 s2) as [[[next ?]|] e3 s3| | |]; [|done..].
    destruct (iunlockput ip e3 s3) as [? e4 s4| | |]; [|done..]. apply IH. lia.
  - by rewrite H.
Qed.

Lemma split_app w path : Forall (fun c => c <> slash) w -> split_slash (w ++ slash :: path) = w :: split_slash path.
Proof.
  induction 1 as [|c w Hc _ IH]; [apply split_slash_slash|]. cbn [app split_slash]. rewrite IH.
  by rewrite (proj2 (Z.eqb_neq c slash) Hc).
Qed.

Lemma split_word w : Forall (fun c => c <> slash) w -> split_slash w = [w].
Proof.
  induction 1 as [|c w Hc _ IH]; [done|]. cbn [split_slash]. rewrite IH. by rewrite (proj2 (Z.eqb_neq c slash) Hc).
Qed.

(** A name that can stand in a path: not empty, at most [DIRSIZ] bytes, no slash. *)
Definition name_ok (w : list Z) : Prop :=
  w <> [] /\ (length w <= Z.to_nat DIRSIZ)%nat /\ Forall (fun c => c <> slash) w.

Lemma split_join w names : Forall (fun c => c <> slash) w -> Forall name_ok names ->
  split_slash (w ++ join_path names) = w :: names.
Proof.
  intros Hw Hn. revert w Hw. induction Hn as [|n names (_ & _ & Hs) _ IH]; intros w Hw.
  - cbn. rewrite app_nil_r. by apply split_word.
  - cbn. rewrite split_app by done. f_equal. by apply IH.
Qed.

Lemma elems_join names : Forall name_ok names -> path_elems (join_path names) = names.
Proof.
  intros Hn. unfold path_elems. rewrite <- (app_nil_l (join_path names)), split_join by done.
  rewrite filter_cons_False by tauto. induction Hn as [|n names (Hne & Hl & _) _ IH]; [done|].
  rewrite filter_cons_True by done. cbn. by rewrite take_ge, IH.
Qed.

(** [namex] resolves the path the reference definition resolves: from the root
    directory or the current directory it looks up, in order, the names of the
    path split at its slashes, ignoring empty pieces and cutting each name to
    [DIRSIZ] bytes; in particular its loop always comes to an end.  Splitting is
    the inverse of joining: the path built from names that fit a directory entry
    has exactly these names as its elements. *)
Theorem namex_resolves :
  (forall path parent e s, namex path parent e s =
     (ip <- (if bool_decide (path !! 0%nat = Some slash) then iget ROOTDEV ROOTINO else idup_cwd) ;;
      resolve ip (path_elems path) parent []) e s) /\
  (forall names, Forall name_ok names -> path_elems (join_path names) = names).
Proof.
  split; [|exact elems_join]. intros path parent e s. unfold namex, bind.
  destruct ((if bool_decide (path !! 0%nat = Some slash) then iget ROOTDEV ROOTINO else idup_cwd) e s) as [ip e1 s1| | |]; [|done..].
  by apply namex_loop_resolve.
Qed.

End Path.

(** "/usr/bin" *)
Lemma namex_resolves_witness : path_elems [47; 117; 115; 114; 47; 98; 105; 110] = [[117; 115; 114]; [98; 105; 110]].
Proof.
  apply (proj2 (namex_resolves (L := {| kend := 0; etext := 0; trampoline := 0 |})) [[117; 115; 114]; [98; 105; 110]]).
  repeat (apply Forall_cons_2; [split; [done|split; [apply Nat.leb_le; reflexivity|repeat (apply Forall_cons_2; [done|]); apply Forall_nil_2]]|]).
  apply Forall_nil_2.
Defined.
