(* ===== verification/Tx.v ===== *)
(** * Code that runs inside a file system transaction

    Between [begin_op] and [end_op] the code of kernel/fs.c works on blocks with
    [bread], stores to [bp->data], [log_write] and [brelse].  [tx] describes the
    state during a transaction by what matters to that code: the blocks logged so
    far, the blocks whose buffers are locked, those of them that were changed and
    not yet logged, and the contents of all blocks, in memory and on the disk.
    Each of the four operations is a step from one such description to another;
    a transaction that holds no buffer is one [end_op] can commit. *)

From stdpp Require Import base gmap sets list strings.
From Stdlib Require Import ZArith Lia.
From S2P Require Import Prelude Kernel Riscv Kalloc Vm Sched Sleeplock Bytes Bio Log Usr Fs.

(** ** References *)

(** How often block [b] is referenced: once if it is logged, once if it is held. *)
Definition cnt (bl : list Z) (h : gset Z) (b : Z) : Z :=
  (if bool_decide (b ∈ bl) then 1 else 0) + (if bool_decide (b ∈ h) then 1 else 0).
Definition refs (bl : list Z) (h : gset Z) : gmap Z Z :=
  set_to_map (fun b => (b, cnt bl h b)) (list_to_set bl ∪ h).

Lemma refs_lookup bl h b : refs bl h !! b = if cnt bl h b =? 0 then None else Some (cnt bl h b).
Proof.
  assert (Hi : forall y y', y ∈ (list_to_set bl ∪ h : gset Z) -> y' ∈ (list_to_set bl ∪ h : gset Z) -> y = y' -> y = y') by done.
  destruct (decide (b ∈ (list_to_set bl ∪ h : gset Z))) as [Hb|Hb].
  - assert (refs bl h !! b = Some (cnt bl h b)) as ->.
    { unfold refs. apply lookup_set_to_map; [exact Hi|]. by exists b. }
    rewrite (proj2 (Z.eqb_neq _ _)); [done|]. unfold cnt. apply elem_of_union in Hb as [Hb|Hb].
    + apply elem_of_list_to_set in Hb. rewrite (bool_decide_eq_true_2 (b ∈ bl)) by done. by case_bool_decide.
    + rewrite (bool_decide_eq_true_2 (b ∈ h)) by done. by case_bool_decide.
  - destruct (refs bl h !! b) as [r|] eqn:E.
    { unfold refs in E. apply lookup_set_to_map in E; [|exact Hi]. destruct E as (y & Hy & [= -> _]). done. }
    unfold cnt. rewrite !bool_decide_eq_false_2; [done|set_solver|set_solver].
Qed.

Lemma cnt_range bl h b : 0 <= cnt bl h b <= 2.
Proof. unfold cnt. do 2 case_bool_decide; lia. Qed.

Lemma refs_default bl h b : default 0 (refs bl h !! b) = cnt bl h b.
Proof. rewrite refs_lookup. destruct (Z.eqb_spec (cnt bl h b) 0) as [->|]; done. Qed.

Lemma size_list_le (l : list Z) : (size (list_to_set l : gset Z) <= length l)%nat.
Proof.
  induction l as [|x l IH]; [by rewrite list_to_set_nil, size_empty|].
  rewrite list_to_set_cons, size_union_alt, size_singleton.
  pose proof (subseteq_size (list_to_set l ∖ {[x]} : gset Z) (list_to_set l) ltac:(set_solver)). simpl. lia.
Qed.

Lemma refs_size bl h : (size (refs bl h) <= length bl + size h)%nat.
Proof.
  assert (size (refs bl h) <= size (list_to_set bl ∪ h : gset Z))%nat as H1.
  { rewrite <- size_dom. apply subseteq_size. intros b Hb. apply elem_of_dom in Hb as [r Hr].
    rewrite refs_lookup in Hr. unfold cnt in Hr. do 2 (case_bool_decide; [set_solver|]). done. }
  assert (size (list_to_set bl ∪ h : gset Z) <= size (list_to_set bl : gset Z) + size h)%nat as H2.
  { rewrite size_union_alt. pose proof (subseteq_size (h ∖ list_to_set bl) h ltac:(set_solver)). lia. }
  pose proof (size_list_le bl). lia.
Qed.

(** ** Transactions *)

Record tx (pid : Z) (s : logst) (bl : list Z) (h D : gset Z) (blk dsk : Z -> list Z) : Prop := {
  tx_rep : brep pid (l_bio s) (Cache (refs bl h) blk dsk h);
  tx_dev : l_dev s = ROOTDEV;
  tx_n : l_n s = Z.of_nat (length bl);
  tx_blocks : take (length bl) (l_block s) = bl;
  tx_len : length (l_block s) = Z.to_nat LOGSIZE;
  tx_int : Forall (fun b => - 2 ^ 31 <= b < 2 ^ 31) (l_block s);
  tx_geom : geometry_ok (l_start s);
  tx_ok : blocks_ok (l_start s) bl;
  tx_room : LOGSIZE < l_size s;
  tx_open : 1 <= l_outstanding s;
  tx_hdr : hdr_n (dsk (l_start s)) = 0;
  tx_clean : forall b, b ∉ bl -> b ∉ D -> blk b = dsk b;
  tx_dirty : D ⊆ h;
  tx_log : forall x, l_start s <= x <= l_start s + LOGSIZE -> x ∉ h
}.

(** Handles of held blocks stay valid. *)
Definition hkeep (h : gset Z) (t t' : bio) : Prop := forall i b, b ∈ h -> handle t i b -> handle t' i b.

Lemma hkeep_refl h t : hkeep h t t.
Proof. by intros i b. Qed.

Lemma hkeep_trans h t1 t2 t3 : hkeep h t1 t2 -> hkeep h t2 t3 -> hkeep h t1 t3.
Proof. intros H1 H2 i b Hb Hh. apply H2; [done|]. by apply H1. Qed.

Lemma hkeep_sub h h' t t' : h' ⊆ h -> hkeep h t t' -> hkeep h' t t'.
Proof. intros Hs H i b Hb. apply H. set_solver. Qed.

(** The block list after logging [b]. *)
Definition log_add (b : Z) (bl : list Z) : list Z := if bool_decide (b ∈ bl) then bl else bl ++ [b].

Lemma cnt_held bl h b : b ∈ h -> 0 < cnt bl h b.
Proof. intros H. unfold cnt. rewrite (bool_decide_eq_true_2 (b ∈ h)) by done. case_bool_decide; lia. Qed.

Lemma held_ref bl h b : b ∈ h -> is_Some (refs bl h !! b).
Proof. intros H. rewrite refs_lookup. pose proof (cnt_held bl h b H). rewrite (proj2 (Z.eqb_neq _ _)) by lia. eauto. Qed.

Lemma cnt_same bl bl' h h' b : (b ∈ bl <-> b ∈ bl') -> (b ∈ h <-> b ∈ h') -> cnt bl h b = cnt bl' h' b.
Proof. intros H1 H2. unfold cnt. by rewrite (bool_decide_ext _ _ H1), (bool_decide_ext _ _ H2). Qed.

(** A map that agrees with the counts is [refs]. *)
Lemma refs_insert bl h bl' h' b v : v = cnt bl' h' b -> v <> 0 ->
  (forall x, x <> b -> cnt bl' h' x = cnt bl h x) -> <[b := v]> (refs bl h) = refs bl' h'.
Proof.
  intros -> Hv Ho. apply map_eq. intros x. destruct (decide (x = b)) as [->|Hne].
  - by rewrite lookup_insert_eq, refs_lookup, (proj2 (Z.eqb_neq _ _) Hv).
  - rewrite lookup_insert_ne by done. by rewrite !refs_lookup, Ho.
Qed.

Lemma refs_delete bl h bl' h' b : cnt bl' h' b = 0 ->
  (forall x, x <> b -> cnt bl' h' x = cnt bl h x) -> delete b (refs bl h) = refs bl' h'.
Proof.
  intros Hv Ho. apply map_eq. intros x. destruct (decide (x = b)) as [->|Hne].
  - by rewrite lookup_delete_eq, refs_lookup, Hv.
  - rewrite lookup_delete_ne by done. by rewrite !refs_lookup, Ho.
Qed.

Section Steps.
Context (e : env) (p : nat) (pid : Z) (E : lenv e p pid).

(** [bread] *)
Lemma tx_bread s bl h D blk dsk b : tx pid s bl h D blk dsk -> b ∉ h -> is_data (l_start s) b ->
  (length bl + size h < NBUF)%nat ->
  exists i t, zoom (bread (u32 ROOTDEV) (u32 b)) e s = Ret i e (with_bio s t) /\
    tx pid (with_bio s t) bl ({[b]} ∪ h) D blk dsk /\ handle t i b /\ hkeep h (l_bio s) t.
Proof.
  intros T Hb [Hr Hd] Hn. set (c := Cache (refs bl h) blk dsk h).
  assert (Hc : can_get c b).
  { split; [done|]. unfold ref_of. cbn [c_ref c]. rewrite refs_default. pose proof (cnt_range bl h b).
    split; [lia|]. right. pose proof (refs_size bl h). lia. }
  destruct (bread_run e p pid (l_bio s) c b (le_benv _ _ _ E) (tx_rep _ _ _ _ _ _ _ T) Hc) as (i & t & Et & Hh & R & K).
  exists i, t. rewrite (uint_wrap_small 32 b) by lia. change (u32 ROOTDEV) with ROOTDEV.
  split; [by apply zoom_bio|]. split; [|split; [done|]].
  - assert (Er : <[b := ref_of c b + 1]> (refs bl h) = refs bl ({[b]} ∪ h)).
    { apply refs_insert; [|unfold ref_of; cbn [c_ref c]; rewrite refs_default; pose proof (cnt_range bl h b); lia|].
      - unfold ref_of. cbn [c_ref c]. rewrite refs_default. unfold cnt. rewrite (bool_decide_eq_false_2 (b ∈ h)) by done.
        rewrite (bool_decide_eq_true_2 (b ∈ {[b]} ∪ h)) by set_solver. lia.
      - intros x Hx. apply cnt_same; [done|set_solver]. }
    destruct T. split; try done; cbn [l_bio with_bio]; [unfold c_got in R; cbn in R; rewrite Er in R; exact R|set_solver|].
    intros x Hx [->%elem_of_singleton|Hx']%elem_of_union; [cbn in Hx; lia|]. by apply (tx_log0 x Hx).
  - intros j x Hx Hj. apply (K j x Hj). cbn. destruct (decide (x = b)) as [->|]; [by rewrite lookup_insert_eq; eauto|].
    rewrite lookup_insert_ne by done. by apply held_ref.
Qed.

(** The data of a locked buffer *)
Lemma tx_data s bl h D blk dsk b i : tx pid s bl h D blk dsk -> b ∈ h -> handle (l_bio s) i b ->
  exists x, bcache (l_bio s) !! i = Some x /\ b_data x = blk b /\ b_blockno x = b.
Proof.
  intros T Hb Hh.
  destruct (handle_locked e p pid (l_bio s) _ i b (le_benv _ _ _ E) (tx_rep _ _ _ _ _ _ _ T) Hh Hb)
    as (x & Hx & _ & Hxb & _ & Hd & _). by exists x.
Qed.

(** A store to [bp->data] *)
Lemma tx_update s bl h D blk dsk b i f : tx pid s bl h D blk dsk -> b ∈ h -> handle (l_bio s) i b ->
  length (f (blk b)) = bsize ->
  exists t, zoom (updb i (fun x => set_data (f (b_data x)) x)) e s = Ret tt e (with_bio s t) /\
    tx pid (with_bio s t) bl h ({[b]} ∪ D) (upd blk b (f (blk b))) dsk /\ hkeep h (l_bio s) t.
Proof.
  intros T Hb Hh Hl. destruct (tx_data s bl h D blk dsk b i T Hb Hh) as (x & Hx & Hd & _).
  destruct (set_data_run e p pid (l_bio s) _ i b _ (le_benv _ _ _ E) (tx_rep _ _ _ _ _ _ _ T) Hh Hb Hl) as (t & Et & _ & R & K).
  exists t. split; [|split].
  - apply zoom_bio. rewrite <- Et, !updb_run. do 2 f_equal. apply (alter_ext _ _ i _ x Hx). by rewrite Hd.
  - destruct T. split; try done; [|set_solver]. intros b' Hb1 Hb2. rewrite upd_ne by set_solver. apply tx_clean0; set_solver.
  - intros j b' Hb' Hj. apply (K j b' Hj). cbn. by apply held_ref.
Qed.

(** [brelse] *)
Lemma tx_brelse s bl h D blk dsk b i : tx pid s bl h D blk dsk -> b ∈ h -> b ∉ D -> handle (l_bio s) i b ->
  exists t, zoom (brelse i) e s = Ret tt e (with_bio s t) /\
    tx pid (with_bio s t) bl (h ∖ {[b]}) D blk dsk /\ hkeep (h ∖ {[b]}) (l_bio s) t.
Proof.
  intros T Hb HD Hh. set (c := Cache (refs bl h) blk dsk h).
  assert (Hr : ref_of c b = cnt bl h b) by (unfold ref_of; apply refs_default).
  destruct (brelse_run e p pid (l_bio s) c i b (le_benv _ _ _ E) (tx_rep _ _ _ _ _ _ _ T) Hh Hb) as (t & Et & _ & R & K).
  { rewrite Hr. intros H1. apply (tx_clean _ _ _ _ _ _ _ T); [|done]. unfold cnt in H1.
    rewrite (bool_decide_eq_true_2 (b ∈ h)) in H1 by done. case_bool_decide; [lia|done]. }
  assert (Er : dropped c b = refs bl (h ∖ {[b]})).
  { unfold dropped. rewrite Hr. assert (Hc : cnt bl (h ∖ {[b]}) b = cnt bl h b - 1).
    { unfold cnt. rewrite (bool_decide_eq_true_2 (b ∈ h)) by done. rewrite (bool_decide_eq_false_2 (b ∈ h ∖ _)) by set_solver. lia. }
    destruct (Z.eqb_spec (cnt bl h b) 1) as [H1|H1].
    - apply refs_delete; [lia|]. intros x Hx. apply cnt_same; [done|set_solver].
    - apply refs_insert; [lia|pose proof (cnt_held bl h b Hb); lia|]. intros x Hx. apply cnt_same; [done|set_solver]. }
  exists t. split; [by apply zoom_bio|]. unfold c_put in R, K. cbn in R, K. rewrite Er in R, K. split.
  - destruct T. split; try done; [set_solver|]. intros x Hx Hin. apply (tx_log0 x Hx). set_solver.
  - intros j x Hx Hj. apply (K j x Hj). by apply held_ref.
Qed.


(** [log_write] *)
Lemma logged_find s bl h D blk dsk b : tx pid s bl h D blk dsk -> is_data (l_start s) b ->
  match list_find (fun x => u32 x = b) bl with
  | Some (k, _) => bl !! k = Some b
  | None => b ∉ bl
  end.
Proof.
  intros T Hd. destruct (tx_ok _ _ _ _ _ _ _ T) as (_ & _ & Ha).
  assert (Hu : forall x, x ∈ bl -> u32 x = x).
  { intros x Hx. apply uint_wrap_small. destruct (proj1 (Forall_forall _ _) Ha x Hx) as [? _]. lia. }
  destruct (list_find _ bl) as [[k x]|] eqn:Ef.
  - apply list_find_Some in Ef as (Hk & Hx & _). rewrite Hk. f_equal. rewrite <- Hx. symmetry. apply Hu. by eapply list_elem_of_lookup_2.
  - apply list_find_None in Ef. intros Hin. apply (proj1 (Forall_forall _ _) Ef b Hin). by apply Hu.
Qed.

Lemma log_add_elem b bl x : x ∈ log_add b bl <-> x = b \/ x ∈ bl.
Proof. unfold log_add. case_bool_decide; [set_solver|]. rewrite elem_of_app, list_elem_of_singleton. tauto. Qed.

Lemma tx_log_write_old s bl h D blk dsk b i : tx pid s bl h D blk dsk -> b ∈ h -> handle (l_bio s) i b ->
  is_data (l_start s) b -> Z.of_nat (length bl) < LOGSIZE -> b ∈ bl ->
  log_write i e s = Ret tt e s /\ tx pid s bl h (D ∖ {[b]}) blk dsk.
Proof.
  intros T Hb Hh Hd Hn Hin. destruct (tx_data s bl h D blk dsk b i T Hb Hh) as (x & Hx & _ & Hxb).
  pose proof (logged_find s bl h D blk dsk b T Hd) as Hf. split.
  - unfold log_write. rewrite (bind_step _ _ _ _ _ _ _ (acquire_free LogLock e s (le_lock _ _ _ E))). kstep.
    pose proof (tx_room _ _ _ _ _ _ _ T). pose proof (tx_open _ _ _ _ _ _ _ T). rewrite (tx_n _ _ _ _ _ _ _ T).
    rewrite (proj2 (Z.leb_gt _ _)), (proj2 (Z.leb_gt _ _)), (proj2 (Z.ltb_ge _ _)) by lia. cbn [orb].
    rewrite (bind_step (zoom (getb i)) _ _ s x (locked LogLock e) s).
    2: { unfold zoom. cbn. rewrite (getb_run i x _ _ Hx). by destruct s. }
    rewrite Nat2Z.id, (tx_blocks _ _ _ _ _ _ _ T), Hxb.
    destruct (list_find (fun z => u32 z = b) bl) as [[k y]|]; [|done]. cbv zeta.
    pose proof (lookup_lt_Some _ _ _ Hf) as Hk.
    assert (Hkb : l_block s !! k = Some b).
    { rewrite <- (tx_blocks _ _ _ _ _ _ _ T) in Hf. by apply lookup_take_Some in Hf as [? _]. }
    destruct Hd as [Hr _].
    rewrite (bind_step (put_block (Z.of_nat k) (i32 b)) _ _ s tt (locked LogLock e) s).
    2: { unfold put_block. rewrite Nat2Z.id. rewrite (proj2 (Nat.ltb_lt _ _)) by (by eapply lookup_lt_Some).
         rewrite (sint_wrap_small 32 b) by lia. unfold set_block. rewrite list_insert_id by done. by destruct s. }
    rewrite (proj2 (Z.eqb_neq _ _)) by lia. cbn [when]. kstep. apply release_locked. apply E.
  - destruct T. split; try done; [|set_solver]. intros b' Hb1 Hb2. apply tx_clean0; [done|]. set_solver.
Qed.

Lemma tx_appended s t bl h D blk dsk b : tx pid s bl h D blk dsk -> b ∈ h ->
  is_data (l_start s) b -> Z.of_nat (length bl) < LOGSIZE -> b ∉ bl ->
  brep pid t (Cache (refs (bl ++ [b]) h) blk dsk h) ->
  tx pid (set_n (l_n s + 1) (with_bio (set_block (<[length bl := i32 b]> (l_block s)) s) t)) (bl ++ [b]) h (D ∖ {[b]}) blk dsk.
Proof.
  intros T Hb Hd Hn Hin R. pose proof T as []. assert (Hi : i32 b = b) by (destruct Hd as [Hr _]; rewrite (sint_wrap_small 32 b) by lia; done).
  assert (Hlen : (length bl < length (l_block s))%nat) by (rewrite tx_len0; unfold LOGSIZE, MAXOPBLOCKS in *; lia).
  destruct tx_ok0 as (Ha & Hl & Hf). split; try done; cbn.
  - rewrite length_app. cbn. lia.
  - rewrite length_app, Hi. cbn. replace (length bl + 1)%nat with (S (length bl)) by lia.
    rewrite (take_S_r _ _ b) by (by rewrite list_lookup_insert_eq). by rewrite take_insert_ge, tx_blocks0.
  - by rewrite length_insert.
  - apply Forall_insert; [done|]. rewrite Hi. destruct Hd. lia.
  - split; [|split].
    + apply NoDup_app. split; [done|]. split; [set_solver|apply NoDup_singleton].
    + rewrite length_app. cbn. lia.
    + apply Forall_app. split; [done|by apply Forall_singleton].
  - intros b' Hb1 Hb2. apply tx_clean0; set_solver.
  - set_solver.
Qed.

Lemma tx_log_write_new s bl h D blk dsk b i : tx pid s bl h D blk dsk -> b ∈ h -> handle (l_bio s) i b ->
  is_data (l_start s) b -> Z.of_nat (length bl) < LOGSIZE -> b ∉ bl ->
  exists s', log_write i e s = Ret tt e s' /\ tx pid s' (bl ++ [b]) h (D ∖ {[b]}) blk dsk /\
    hkeep h (l_bio s) (l_bio s') /\ l_start s' = l_start s.
Proof.
  intros T Hb Hh Hd Hn Hin. destruct (tx_data s bl h D blk dsk b i T Hb Hh) as (x & Hx & _ & Hxb).
  pose proof (logged_find s bl h D blk dsk b T Hd) as Hf.
  set (c := Cache (refs bl h) blk dsk h). set (el := locked LogLock e).
  assert (Bl : benv el p pid) by (apply benv_locked; [done|done|done|apply E]).
  assert (Hr : ref_of c b = cnt bl h b) by (unfold ref_of; apply refs_default).
  pose proof (cnt_range bl h b) as Hc2.
  destruct (bpin_run el p pid (l_bio s) c i b Bl (tx_rep _ _ _ _ _ _ _ T) Hh (held_ref bl h b Hb)) as (t & Et & _ & R & K);
    [rewrite Hr; lia|].
  set (l' := <[length bl := i32 b]> (l_block s)).
  set (s' := set_n (l_n s + 1) (with_bio (set_block l' s) t)).
  assert (Hlen : (length bl < length (l_block s))%nat) by (rewrite (tx_len _ _ _ _ _ _ _ T); unfold LOGSIZE, MAXOPBLOCKS in *; lia).
  exists s'. split; [|split; [|split; [|done]]].
  - unfold log_write. rewrite (bind_step _ _ _ _ _ _ _ (acquire_free LogLock e s (le_lock _ _ _ E))). kstep.
    pose proof (tx_room _ _ _ _ _ _ _ T). pose proof (tx_open _ _ _ _ _ _ _ T). rewrite (tx_n _ _ _ _ _ _ _ T).
    rewrite (proj2 (Z.leb_gt _ _)), (proj2 (Z.leb_gt _ _)), (proj2 (Z.ltb_ge _ _)) by lia. cbn [orb]. fold el.
    rewrite (bind_step (zoom (getb i)) _ _ s x el s).
    2: { unfold zoom. cbn. rewrite (getb_run i x _ _ Hx). by destruct s. }
    rewrite Nat2Z.id, (tx_blocks _ _ _ _ _ _ _ T), Hxb.
    destruct (list_find (fun z => u32 z = b) bl) as [[k y]|]; [by apply list_elem_of_lookup_2 in Hf|]. cbv zeta.
    rewrite (bind_step (put_block (Z.of_nat (length bl)) (i32 b)) _ _ s tt el (set_block l' s)).
    2: { unfold put_block. rewrite Nat2Z.id. by rewrite (proj2 (Nat.ltb_lt _ _)). }
    rewrite Z.eqb_refl. cbn [when]. ksteps.
    rewrite (bind_step _ _ _ _ _ _ _ (zoom_bio (bpin i) el (set_block l' s) tt t Et)). ksteps.
    rewrite <- (release_locked LogLock e) by apply E. done.
  - apply (tx_appended s t bl h D blk dsk b); [done..|].
    unfold c_pin in R. cbn in R. rewrite Hr in R. rewrite (refs_insert bl h (bl ++ [b]) h b) in R; [done| |lia|].
    + unfold cnt. rewrite (bool_decide_eq_false_2 (b ∈ bl)) by done.
      rewrite (bool_decide_eq_true_2 (b ∈ bl ++ [b])) by set_solver. lia.
    + intros y Hy. apply cnt_same; [set_solver|done].
  - intros j y Hy Hj. apply (K j y Hj). cbn. destruct (decide (y = b)) as [->|]; [by rewrite lookup_insert_eq; eauto|].
    rewrite lookup_insert_ne by done. by apply held_ref.
Qed.

Lemma tx_log_write s bl h D blk dsk b i : tx pid s bl h D blk dsk -> b ∈ h -> handle (l_bio s) i b ->
  is_data (l_start s) b -> Z.of_nat (length bl) < LOGSIZE ->
  exists s', log_write i e s = Ret tt e s' /\ tx pid s' (log_add b bl) h (D ∖ {[b]}) blk dsk /\
    hkeep h (l_bio s) (l_bio s') /\ l_start s' = l_start s.
Proof.
  intros T Hb Hh Hd Hn. unfold log_add. destruct (bool_decide_reflect (b ∈ bl)) as [Hin|Hin].
  - destruct (tx_log_write_old s bl h D blk dsk b i T Hb Hh Hd Hn Hin) as [El T'].
    exists s. split; [done|]. split; [done|]. split; [apply hkeep_refl|done].
  - by apply tx_log_write_new.
Qed.

(** A transaction that holds no buffer can be committed. *)
Lemma tx_trans s bl blk dsk : tx pid s bl ∅ ∅ blk dsk -> (length bl < NBUF)%nat ->
  trans pid s (Cache (refs bl ∅) blk dsk ∅) bl.
Proof.
  intros T Hn. pose proof T as []. split; try done; cbn.
  - intros b Hb. rewrite refs_lookup. unfold cnt. rewrite (bool_decide_eq_true_2 (b ∈ bl)) by done.
    case_bool_decide; cbn; eauto.
  - intros b. unfold ref_of. cbn. rewrite refs_default. pose proof (cnt_range bl ∅ b). lia.
  - intros x Hx. rewrite refs_lookup. unfold cnt. rewrite !bool_decide_eq_false_2; [done|set_solver|].
    intros Hin. destruct tx_ok0 as (_ & _ & Ha). destruct (proj1 (Forall_forall _ _) Ha x Hin) as [_ [H|H]]; lia.
  - pose proof (refs_size bl ∅) as H. rewrite size_empty in H. lia.
  - intros b _ Hb. apply tx_clean0; [done|set_solver].
Qed.

End Steps.

(** A transaction that has just begun on a quiet disk *)
Lemma tx_begin pid t start sz blk lb : brep pid t (Cache ∅ blk blk ∅) -> geometry_ok start -> LOGSIZE < sz ->
  hdr_n (blk start) = 0 -> length lb = Z.to_nat LOGSIZE -> Forall (fun b => - 2 ^ 31 <= b < 2 ^ 31) lb ->
  tx pid (Logst t start sz 1 0 ROOTDEV 0 lb) [] ∅ ∅ blk blk.
Proof.
  intros R Hg Hs Hh Hl Hf. split; try done.
  apply blocks_ok_nil.
Qed.
