(* ===== verification/FsBlock.v ===== *)
(** * kernel/fs.c: block allocation

    The steps of Tx.v for the file system, and the correctness of [bzero],
    [balloc] and [bfree]: the free map is a set of bits, one for each block. *)

From stdpp Require Import base gmap sets list strings.
From Stdlib Require Import ZArith Lia.
From S2P Require Import Prelude Kernel Riscv Kalloc Vm Sched Sleeplock Bytes Bio Log Usr Fs Tx.

(** ** Transactions of the file system *)

(** Everything but the log and the buffer cache is the same. *)
Definition frame (s s' : fs) : Prop := s' = with_log s (fs_log s') /\ l_start (fs_log s') = l_start (fs_log s).

Lemma frame_refl s : frame s s.
Proof. by destruct s. Qed.

Lemma frame_trans s1 s2 s3 : frame s1 s2 -> frame s2 s3 -> frame s1 s3.
Proof. intros [H1 H2] [H3 H4]. split; [|congruence]. rewrite H3, H1. done. Qed.

Lemma frame_sb s s' : frame s s' -> fs_sb s' = fs_sb s.
Proof. intros [-> _]. done. Qed.

Definition fbio (s : fs) : bio := l_bio (fs_log s).

(** Result of a step: the new state describes [bl' h' D' blk'], and the buffers in
    [k] keep their handles. *)
Definition moved (pid : Z) (s s' : fs) (k : gset Z) (bl : list Z) (h D : gset Z) (blk dsk : Z -> list Z) : Prop :=
  tx pid (fs_log s') bl h D blk dsk /\ frame s s' /\ hkeep k (fbio s) (fbio s').

Lemma moved_trans pid s1 s2 s3 k k' bl h D blk dsk : frame s1 s2 -> hkeep k (fbio s1) (fbio s2) -> k' ⊆ k ->
  moved pid s2 s3 k' bl h D blk dsk -> moved pid s1 s3 k' bl h D blk dsk.
Proof.
  intros F K Hk (T & F' & K'). split; [done|]. split; [by apply (frame_trans _ s2)|].
  apply (hkeep_trans _ _ (fbio s2)); [|done]. by apply (hkeep_sub k).
Qed.

Lemma moved_same pid s bl h D blk dsk k : tx pid (fs_log s) bl h D blk dsk -> moved pid s s k bl h D blk dsk.
Proof. intros T. split; [done|]. split; [apply frame_refl|apply hkeep_refl]. Qed.

Lemma bind_assoc_3 {T A} (m1 m2 m3 : K T unit) (k : K T A) e t :
  ((m1 ;; m2 ;; m3) ;; k) e t = (m1 ;; m2 ;; m3 ;; k) e t.
Proof.
  unfold bind. destruct (m1 e t) as [? e1 t1| | |]; [|done..]. destruct (m2 e1 t1) as [? e2 t2| | |]; [|done..].
  by destruct (m3 e2 t2).
Qed.

Section Block.
Context (e : env) (p : nat) (pid : Z) (E : lenv e p pid).

Lemma fs_bread_run s bl h D blk dsk b : tx pid (fs_log s) bl h D blk dsk -> b ∉ h -> is_data (l_start (fs_log s)) b ->
  (length bl + size h < NBUF)%nat ->
  exists i s', fs_bread ROOTDEV b e s = Ret i e s' /\ moved pid s s' h bl ({[b]} ∪ h) D blk dsk /\ handle (fbio s') i b.
Proof.
  intros T Hb Hd Hn. destruct (tx_bread e p pid E (fs_log s) bl h D blk dsk b T Hb Hd Hn) as (i & t & Et & T' & Hh & K).
  exists i, (with_log s (with_bio (fs_log s) t)). split; [|by split].
  unfold fs_bread, on_bio. unfold zoom at 1. cbn [part_get fs_log_part]. by rewrite Et.
Qed.

Lemma buf_data_run s bl h D blk dsk b i : tx pid (fs_log s) bl h D blk dsk -> b ∈ h -> handle (fbio s) i b ->
  buf_data i e s = Ret (blk b) e s.
Proof.
  intros T Hb Hh. destruct (tx_data e p pid E (fs_log s) bl h D blk dsk b i T Hb Hh) as (x & Hx & Hd & _).
  unfold buf_data, on_bio, bind, zoom. cbn. rewrite (getb_run i x _ _ Hx), Hd. by destruct s as [? [] ? ? ?].
Qed.

Lemma buf_update_run s bl h D blk dsk b i f : tx pid (fs_log s) bl h D blk dsk -> b ∈ h -> handle (fbio s) i b ->
  length (f (blk b)) = bsize ->
  exists s', buf_update i f e s = Ret tt e s' /\ moved pid s s' h bl h ({[b]} ∪ D) (upd blk b (f (blk b))) dsk.
Proof.
  intros T Hb Hh Hl. destruct (tx_update e p pid E (fs_log s) bl h D blk dsk b i f T Hb Hh Hl) as (t & Et & T' & K).
  exists (with_log s (with_bio (fs_log s) t)). split; [|by split].
  unfold buf_update, on_bio. unfold zoom at 1. cbn [part_get fs_log_part]. by rewrite Et.
Qed.

Lemma fs_brelse_run s bl h D blk dsk b i : tx pid (fs_log s) bl h D blk dsk -> b ∈ h -> b ∉ D -> handle (fbio s) i b ->
  exists s', fs_brelse i e s = Ret tt e s' /\ moved pid s s' (h ∖ {[b]}) bl (h ∖ {[b]}) D blk dsk.
Proof.
  intros T Hb HD Hh. destruct (tx_brelse e p pid E (fs_log s) bl h D blk dsk b i T Hb HD Hh) as (t & Et & T' & K).
  exists (with_log s (with_bio (fs_log s) t)). split; [|by split].
  unfold fs_brelse, on_bio. unfold zoom at 1. cbn [part_get fs_log_part]. by rewrite Et.
Qed.

Lemma fs_log_write_run s bl h D blk dsk b i : tx pid (fs_log s) bl h D blk dsk -> b ∈ h -> handle (fbio s) i b ->
  is_data (l_start (fs_log s)) b -> Z.of_nat (length bl) < LOGSIZE ->
  exists s', fs_log_write i e s = Ret tt e s' /\ moved pid s s' h (log_add b bl) h (D ∖ {[b]}) blk dsk.
Proof.
  intros T Hb Hh Hd Hn. destruct (tx_log_write e p pid E (fs_log s) bl h D blk dsk b i T Hb Hh Hd Hn) as (l & El & T' & K & Hs).
  exists (with_log s l). split; [|by split]. unfold fs_log_write, zoom. cbn [part_get fs_log_part]. by rewrite El.
Qed.

(** Store, log and release: the usual end of a change to block [b]. *)
Lemma change_block s bl h D blk dsk b i f : tx pid (fs_log s) bl h D blk dsk -> b ∈ h -> b ∉ D -> handle (fbio s) i b ->
  length (f (blk b)) = bsize -> is_data (l_start (fs_log s)) b -> Z.of_nat (length bl) < LOGSIZE ->
  exists s', (buf_update i f ;; fs_log_write i ;; fs_brelse i) e s = Ret tt e s' /\
    moved pid s s' (h ∖ {[b]}) (log_add b bl) (h ∖ {[b]}) D (upd blk b (f (blk b))) dsk.
Proof.
  intros T Hb HD Hh Hl Hd Hn.
  destruct (buf_update_run s bl h D blk dsk b i f T Hb Hh Hl) as (s1 & E1 & T1 & F1 & K1).
  assert (H1 : handle (fbio s1) i b) by (by apply K1).
  destruct (fs_log_write_run s1 _ _ _ _ _ b i T1 Hb H1) as (s2 & E2 & T2 & F2 & K2); [by rewrite (proj2 F1)|done|].
  assert (H2 : handle (fbio s2) i b) by (by apply K2).
  destruct (fs_brelse_run s2 _ _ _ _ _ b i T2 Hb ltac:(set_solver) H2) as (s3 & E3 & M3). exists s3. split.
  - by rewrite (bind_step _ _ _ _ _ _ _ E1), (bind_step _ _ _ _ _ _ _ E2).
  - apply (moved_trans _ _ s1 _ h); [done|done|set_solver|]. apply (moved_trans _ _ s2 _ h); [done|done|set_solver|].
    replace (({[b]} ∪ D) ∖ {[b]}) with D in M3 by set_solver. done.
Qed.

(** ** [bzero] *)

Definition zeros : list Z := replicate bsize 0.

Lemma bzero_run s bl h D blk dsk b : tx pid (fs_log s) bl h D blk dsk -> b ∉ h -> is_data (l_start (fs_log s)) b ->
  (length bl + size h < NBUF)%nat -> Z.of_nat (length bl) < LOGSIZE ->
  exists s', bzero ROOTDEV b e s = Ret tt e s' /\ moved pid s s' h (log_add b bl) h D (upd blk b zeros) dsk.
Proof.
  intros T Hb Hd Hn Hl. destruct (fs_bread_run s bl h D blk dsk b T Hb Hd Hn) as (i & s1 & E1 & (T1 & F1 & K1) & Hh).
  pose proof (tx_dirty _ _ _ _ _ _ _ T) as HD.
  destruct (change_block s1 bl _ D blk dsk b i (fun _ => zeros) T1) as (s2 & E2 & M2);
    [set_solver|set_solver|done|apply length_replicate|by rewrite (proj2 F1)|done|].
  exists s2. split; [unfold bzero; rewrite (bind_step _ _ _ _ _ _ _ E1); exact E2|].
  replace (({[b]} ∪ h) ∖ {[b]}) with h in M2 by set_solver. by apply (moved_trans _ _ s1 _ h).
Qed.

(** ** The free map *)

(** [d] with bit [bi] set, and with it cleared *)
Definition set_bit (bi : Z) (d : list Z) : list Z := st 1 (Z.to_nat (bi / 8)) (Z.lor (bit_byte d bi) (bit_mask bi)) d.
Definition clr_bit (bi : Z) (d : list Z) : list Z :=
  st 1 (Z.to_nat (bi / 8)) (Z.land (bit_byte d bi) (Z.lnot (bit_mask bi))) d.

Lemma bit_index bi : 0 <= bi < BPB -> (Z.to_nat (bi / 8) + 1 <= bsize)%nat.
Proof.
  intros H. unfold BPB, BSIZE in *. assert (bi / 8 < 1024) by (apply Z.div_lt_upper_bound; lia).
  assert (0 <= bi / 8) by (apply Z.div_pos; lia). lia.
Qed.

Lemma bit_clear_test d bi : 0 <= bi -> bit_clear d bi = negb (Z.testbit (bit_byte d bi) (bi mod 8)).
Proof.
  intros H. unfold bit_clear, bit_mask. pose proof (Z.mod_pos_bound bi 8 ltac:(done)) as Hm.
  rewrite Z.shiftl_mul_pow2, Z.mul_1_l by lia.
  destruct (Z.testbit (bit_byte d bi) (bi mod 8)) eqn:Et; cbn.
  - apply Z.eqb_neq. intros H0. assert (Z.testbit 0 (bi mod 8) = true) as Hb; [|by rewrite Z.bits_0 in Hb].
    rewrite <- H0, Z.land_spec, Et, Z.pow2_bits_true by lia. done.
  - apply Z.eqb_eq. apply Z.bits_inj'. intros n Hn. rewrite Z.land_spec, Z.bits_0, Z.pow2_bits_eqb by lia.
    destruct (Z.eqb_spec (bi mod 8) n) as [<-|]; [by rewrite Et|by rewrite andb_false_r].
Qed.

(** Changing the byte of bit [bi] to [v] *)
Lemma bit_after d bi bj v : length d = bsize -> 0 <= bi < BPB -> 0 <= bj < BPB ->
  bit_clear (st 1 (Z.to_nat (bi / 8)) v d) bj =
    if bi / 8 =? bj / 8 then negb (Z.testbit v (bj mod 8)) else bit_clear d bj.
Proof.
  intros Hl Hi Hj. pose proof (bit_index bi Hi). pose proof (bit_index bj Hj).
  rewrite !bit_clear_test by lia. unfold bit_byte. destruct (Z.eqb_spec (bi / 8) (bj / 8)) as [Eq|Ne].
  - rewrite <- Eq, ld_st by lia. f_equal. change (256 ^ Z.of_nat 1) with (2 ^ 8).
    pose proof (Z.mod_pos_bound bj 8 ltac:(done)). by rewrite Z.mod_pow2_bits_low by lia.
  - rewrite ld_st_ne; [done|lia|lia|]. assert (Z.to_nat (bi / 8) <> Z.to_nat (bj / 8)); [|lia].
    pose proof (Z.div_pos bi 8 ltac:(lia) ltac:(lia)). pose proof (Z.div_pos bj 8 ltac:(lia) ltac:(lia)). lia.
Qed.

Lemma mask_bit bi n : 0 <= n -> Z.testbit (bit_mask bi) n = (bi mod 8 =? n).
Proof.
  intros Hn. unfold bit_mask. pose proof (Z.mod_pos_bound bi 8 ltac:(done)).
  rewrite Z.shiftl_mul_pow2, Z.mul_1_l by lia. apply Z.pow2_bits_eqb. lia.
Qed.

Lemma same_bit bi bj : bi / 8 = bj / 8 -> bi mod 8 = bj mod 8 -> bi = bj.
Proof. intros H1 H2. rewrite (Z.div_mod bi 8), (Z.div_mod bj 8) by done. congruence. Qed.

Lemma set_bit_clear d bi bj : length d = bsize -> 0 <= bi < BPB -> 0 <= bj < BPB ->
  bit_clear (set_bit bi d) bj = bit_clear d bj && negb (bi =? bj).
Proof.
  intros Hl Hi Hj. unfold set_bit. rewrite bit_after by done.
  pose proof (Z.mod_pos_bound bj 8 ltac:(done)) as Hm. destruct (Z.eqb_spec (bi / 8) (bj / 8)) as [Eq|Ne].
  - rewrite Z.lor_spec, mask_bit by lia. rewrite bit_clear_test by lia. unfold bit_byte. rewrite Eq.
    destruct (Z.eqb_spec (bi mod 8) (bj mod 8)) as [Em|Em].
    + rewrite (same_bit bi bj Eq Em), Z.eqb_refl. by rewrite orb_true_r, andb_false_r.
    + rewrite orb_false_r. rewrite (proj2 (Z.eqb_neq bi bj)) by congruence. by rewrite andb_true_r.
  - rewrite (proj2 (Z.eqb_neq bi bj)) by congruence. by rewrite andb_true_r.
Qed.

Lemma clr_bit_clear d bi bj : length d = bsize -> 0 <= bi < BPB -> 0 <= bj < BPB ->
  bit_clear (clr_bit bi d) bj = bit_clear d bj || (bi =? bj).
Proof.
  intros Hl Hi Hj. unfold clr_bit. rewrite bit_after by done.
  pose proof (Z.mod_pos_bound bj 8 ltac:(done)) as Hm. destruct (Z.eqb_spec (bi / 8) (bj / 8)) as [Eq|Ne].
  - rewrite Z.land_spec, Z.lnot_spec, mask_bit by lia. rewrite bit_clear_test by lia. unfold bit_byte. rewrite Eq.
    destruct (Z.eqb_spec (bi mod 8) (bj mod 8)) as [Em|Em].
    + rewrite (same_bit bi bj Eq Em), Z.eqb_refl. by rewrite andb_false_r, orb_true_r.
    + rewrite (proj2 (Z.eqb_neq bi bj)) by congruence. by rewrite andb_true_r, orb_false_r.
  - rewrite (proj2 (Z.eqb_neq bi bj)) by congruence. by rewrite orb_false_r.
Qed.

Lemma set_bit_length bi d : length d = bsize -> 0 <= bi < BPB -> length (set_bit bi d) = bsize.
Proof. intros Hl Hi. unfold set_bit. rewrite length_st; [done|]. pose proof (bit_index bi Hi). lia. Qed.

Lemma clr_bit_length bi d : length d = bsize -> 0 <= bi < BPB -> length (clr_bit bi d) = bsize.
Proof. intros Hl Hi. unfold clr_bit. rewrite length_st; [done|]. pose proof (bit_index bi Hi). lia. Qed.

(** Block [b] of the file system is free according to the map in [blk]. *)
Definition is_free (sb : superblock) (blk : Z -> list Z) (b : Z) : Prop :=
  0 <= b < sb_size sb /\ bit_clear (blk (BBLOCK b sb)) (b mod BPB) = true.

(** The first free bit of a block of the map *)
Lemma free_bit_spec d n : match free_bit d n with
  | Some bi => 0 <= bi < n /\ bit_clear d bi = true /\ (forall bj, 0 <= bj < bi -> bit_clear d bj = false)
  | None => forall bj, 0 <= bj < n -> bit_clear d bj = false
  end.
Proof.
  unfold free_bit. destruct (list_find _ (seqZ 0 n)) as [[k bi]|] eqn:Ef; cbn.
  - apply list_find_Some in Ef as (Hk & Hb & Hlt). apply lookup_seqZ in Hk as [-> Hk]. split; [lia|]. split; [done|].
    intros bj Hj. apply not_true_is_false. apply (Hlt (Z.to_nat bj) bj); [apply lookup_seqZ; lia|lia].
  - apply list_find_None in Ef. intros bj Hj. apply not_true_is_false.
    apply (proj1 (Forall_forall _ _) Ef bj). apply elem_of_seqZ. lia.
Qed.

(** The map lies among the home blocks, no buffer of it is held, and a free block
    is a home block outside the map that nobody holds. *)
Record map_ok (start : Z) (sb : superblock) (blk : Z -> list Z) (h : gset Z) : Prop := {
  mo_size : 0 < sb_size sb < 2 ^ 31;
  mo_map : forall b, 0 <= b < sb_size sb -> is_data start (BBLOCK b sb) /\ BBLOCK b sb ∉ h;
  mo_free : forall b, is_free sb blk b ->
    is_data start b /\ (b ∉ h) /\ forall b', 0 <= b' < sb_size sb -> b <> BBLOCK b' sb
}.

Lemma BBLOCK_same sb k bi : 0 <= bi < BPB -> BBLOCK (k * BPB + bi) sb = BBLOCK (k * BPB) sb.
Proof.
  intros H. unfold BBLOCK. do 2 f_equal. rewrite Z.div_add_l by (unfold BPB, BSIZE; lia).
  rewrite (Z.div_small bi) by done. rewrite Z.div_mul by (unfold BPB, BSIZE; lia). lia.
Qed.

Lemma block_bit k bi : 0 <= bi < BPB -> (k * BPB + bi) mod BPB = bi.
Proof. intros H. rewrite Z.add_comm, Z.mod_add by (unfold BPB, BSIZE; lia). by apply Z.mod_small. Qed.

(** The contents after block [b] was allocated *)
Definition allocated_blk (sb : superblock) (blk : Z -> list Z) (b : Z) : Z -> list Z :=
  upd (upd blk (BBLOCK b sb) (set_bit (b mod BPB) (blk (BBLOCK b sb)))) b zeros.

Lemma log_add_length b bl : (length (log_add b bl) <= length bl + 1)%nat.
Proof. unfold log_add. case_bool_decide; [lia|]. rewrite length_app. cbn. lia. Qed.

Definition balloc_body (sb : superblock) (k : Z) : K fs (option Z) :=
  let b := k * BPB in
  bp <- fs_bread ROOTDEV (BBLOCK b sb) ;;
  d <- buf_data bp ;;
  match free_bit d (Z.min BPB (sb_size sb - b)) with
  | Some bi =>
      buf_update bp (fun d => st 1 (Z.to_nat (bi / 8)) (Z.lor (bit_byte d bi) (bit_mask bi)) d) ;;
      fs_log_write bp ;;
      fs_brelse bp ;;
      bzero ROOTDEV (b + bi) ;;
      ret (Some (b + bi))
  | None =>
      fs_brelse bp ;;
      ret None
  end.

(** One block of the map *)
Lemma balloc_body_run s bl h D blk dsk sb k : tx pid (fs_log s) bl h D blk dsk ->
  map_ok (l_start (fs_log s)) sb blk h -> (length bl + size h + 1 < NBUF)%nat -> 0 <= k -> k * BPB < sb_size sb ->
  exists r s', balloc_body sb k e s = Ret r e s' /\
    match r with
    | Some b => k * BPB <= b /\ is_free sb blk b /\ (forall b', k * BPB <= b' < b -> ~ is_free sb blk b') /\
        moved pid s s' h (log_add b (log_add (BBLOCK b sb) bl)) h D (allocated_blk sb blk b) dsk
    | None => (forall b', k * BPB <= b' < (k + 1) * BPB -> ~ is_free sb blk b') /\ moved pid s s' h bl h D blk dsk
    end.
Proof.
  intros T M Hn Hk Hks. set (bb := BBLOCK (k * BPB) sb).
  assert (HkB : 0 <= k * BPB) by (unfold BPB, BSIZE; lia).
  destruct (mo_map _ _ _ _ M (k * BPB)) as [Hbd Hbh]; [done|].
  destruct (fs_bread_run s bl h D blk dsk bb T Hbh Hbd) as (i & s1 & E1 & (T1 & F1 & K1) & Hh); [lia|].
  assert (Hbi : forall bi, 0 <= bi < Z.min BPB (sb_size sb - k * BPB) -> bit_clear (blk bb) bi = true -> is_free sb blk (k * BPB + bi)).
  { intros bi Hbi Hc. split; [lia|]. by rewrite BBLOCK_same, block_bit by lia. }
  assert (Hnb : forall bi, 0 <= bi < BPB -> bit_clear (blk bb) bi = false -> ~ is_free sb blk (k * BPB + bi)).
  { intros bi Hbi' Hc [_ Hc']. rewrite BBLOCK_same, block_bit in Hc' by lia. fold bb in Hc'. congruence. }
  pose proof (tx_dirty _ _ _ _ _ _ _ T) as HD. pose proof (free_bit_spec (blk bb) (Z.min BPB (sb_size sb - k * BPB))) as Hf.
  unfold balloc_body. fold bb. rewrite (bind_step _ _ _ _ _ _ _ E1).
  rewrite (bind_step _ _ _ _ _ _ _ (buf_data_run s1 _ _ _ _ _ bb i T1 ltac:(set_solver) Hh)).
  destruct (free_bit (blk bb) _) as [bi|].
  - destruct Hf as (Hr & Hc & Hlt). set (b := k * BPB + bi). pose proof (Hbi bi Hr Hc) as Hfree. fold b in Hfree.
    destruct (mo_free _ _ _ _ M b Hfree) as (Hd & Hnh & Hm).
    destruct (change_block s1 bl _ D blk dsk bb i (set_bit bi) T1) as (s2 & E2 & T2 & F2 & K2);
      [set_solver|set_solver|done|apply set_bit_length; [apply (br_size _ _ _ (tx_rep _ _ _ _ _ _ _ T))|lia]
      |by rewrite (proj2 F1)|unfold LOGSIZE, MAXOPBLOCKS; unfold NBUF in Hn; lia|].
    replace (({[bb]} ∪ h) ∖ {[bb]}) with h in T2, K2 by set_solver.
    pose proof (log_add_length bb bl) as Hll.
    destruct (bzero_run s2 _ _ _ _ _ b T2 Hnh) as (s3 & E3 & M3);
      [by rewrite (proj2 F2), (proj2 F1)|lia|unfold LOGSIZE, MAXOPBLOCKS; unfold NBUF in Hn; lia|].
    assert (Hbb : BBLOCK b sb = bb) by (apply BBLOCK_same; lia).
    exists (Some b), s3. split; [|split; [unfold b; lia|split; [done|split]]].
    + rewrite <- bind_assoc_3. rewrite (bind_step _ _ _ _ _ _ _ E2). fold b. by rewrite (bind_step _ _ _ _ _ _ _ E3).
    + intros b' Hb'. replace b' with (k * BPB + (b' - k * BPB)) by lia. unfold b in Hb'. apply Hnb; [lia|]. apply Hlt. lia.
    + unfold allocated_blk. rewrite Hbb, (block_bit k bi ltac:(lia) : b mod BPB = bi).
      apply (moved_trans _ _ s1 _ h); [done|done|done|]. by apply (moved_trans _ _ s2 _ h).
  - destruct (fs_brelse_run s1 _ _ _ _ _ bb i T1 ltac:(set_solver) ltac:(set_solver) Hh) as (s2 & E2 & M2).
    exists None, s2. split; [by rewrite (bind_step _ _ _ _ _ _ _ E2)|]. split.
    + intros b' Hb' Hfr. pose proof (proj1 Hfr) as Hr. replace b' with (k * BPB + (b' - k * BPB)) in Hfr by lia.
      apply (Hnb (b' - k * BPB)) in Hfr; [done|lia|]. apply Hf. lia.
    + replace (({[bb]} ∪ h) ∖ {[bb]}) with h in M2 by set_solver. by apply (moved_trans _ _ s1 _ h).
Qed.

(** The blocks of the map from [k0] on *)
Lemma balloc_loop bl h D blk dsk sb n k0 s : tx pid (fs_log s) bl h D blk dsk ->
  map_ok (l_start (fs_log s)) sb blk h -> (length bl + size h + 1 < NBUF)%nat -> 0 <= k0 ->
  (n = 0%nat \/ (k0 + Z.of_nat n - 1) * BPB < sb_size sb) ->
  exists r s', for_find (seqZ k0 (Z.of_nat n)) (balloc_body sb) e s = Ret r e s' /\
    match r with
    | Some b => is_free sb blk b /\ (forall b', k0 * BPB <= b' < b -> ~ is_free sb blk b') /\
        moved pid s s' h (log_add b (log_add (BBLOCK b sb) bl)) h D (allocated_blk sb blk b) dsk
    | None => (forall b', k0 * BPB <= b' < (k0 + Z.of_nat n) * BPB -> ~ is_free sb blk b') /\ moved pid s s' h bl h D blk dsk
    end.
Proof.
  intros T M Hn. revert k0 s T M. induction n as [|n IH]; intros k0 s T M Hk Hlast.
  { exists None, s. split; [done|]. split; [intros b' Hb'; lia|by apply moved_same]. }
  rewrite seqZ_cons by lia. cbn [for_find]. assert (Hk0 : k0 * BPB < sb_size sb) by (unfold BPB, BSIZE in *; lia).
  destruct (balloc_body_run s bl h D blk dsk sb k0 T M Hn Hk Hk0) as (r & s1 & E1 & H1).
  rewrite (bind_step _ _ _ _ _ _ _ E1). destruct r as [b|].
  - exists (Some b), s1. split; [done|]. destruct H1 as (_ & H1 & H2 & H3). by split_and!.
  - destruct H1 as (Hno & T1 & F1 & K1). replace (Z.pred (Z.of_nat (S n))) with (Z.of_nat n) by lia.
    destruct (IH (Z.succ k0) s1 T1) as (r & s2 & E2 & H2); [by rewrite (proj2 F1)|lia| |].
    { destruct n; [by left|]. right. unfold BPB, BSIZE in *. lia. }
    exists r, s2. split; [done|]. destruct r as [b|].
    + destruct H2 as (Hf & Hlt & M2). split; [done|]. split; [|by apply (moved_trans _ _ s1 _ h)].
      intros b' Hb'. destruct (Z.lt_ge_cases b' (Z.succ k0 * BPB)); [apply Hno; unfold BPB, BSIZE in *; lia|apply Hlt; lia].
    + destruct H2 as (Hno2 & M2). split; [|by apply (moved_trans _ _ s1 _ h)].
      intros b' Hb'. destruct (Z.lt_ge_cases b' (Z.succ k0 * BPB)); [apply Hno; unfold BPB, BSIZE in *; lia|].
      apply Hno2. unfold BPB, BSIZE in *. lia.
Qed.

(** The number of blocks of the map *)
Lemma map_blocks sb : 0 < sb_size sb -> let n := (sb_size sb + BPB - 1) / BPB in
  0 < n /\ (n - 1) * BPB < sb_size sb <= n * BPB.
Proof.
  intros H n. unfold n. assert (HB : 0 < BPB) by (unfold BPB, BSIZE; lia).
  pose proof (Z.div_mod (sb_size sb + BPB - 1) BPB ltac:(lia)) as Hd.
  pose proof (Z.mod_pos_bound (sb_size sb + BPB - 1) BPB HB) as Hm. unfold BPB, BSIZE in *. lia.
Qed.

Lemma balloc_run s bl h D blk dsk : tx pid (fs_log s) bl h D blk dsk ->
  map_ok (l_start (fs_log s)) (fs_sb s) blk h -> (length bl + size h + 1 < NBUF)%nat ->
  exists r s', balloc ROOTDEV e s = Ret r e s' /\
    ((is_free (fs_sb s) blk r /\ (forall b, 0 <= b < r -> ~ is_free (fs_sb s) blk b) /\
      moved pid s s' h (log_add r (log_add (BBLOCK r (fs_sb s)) bl)) h D (allocated_blk (fs_sb s) blk r) dsk) \/
     (r = 0 /\ (forall b, ~ is_free (fs_sb s) blk b) /\ moved pid s s' h bl h D blk dsk)).
Proof.
  intros T M Hn. set (sb := fs_sb s) in *. destruct (map_blocks sb (proj1 (mo_size _ _ _ _ M))) as (Hp & Hlo & Hhi).
  set (n := (sb_size sb + BPB - 1) / BPB) in *.
  destruct (balloc_loop bl h D blk dsk sb (Z.to_nat n) 0 s T M Hn) as (r & s1 & E1 & H1);
    [lia|right; rewrite Z2Nat.id by lia; exact Hlo|]. rewrite Z2Nat.id in E1, H1 by lia.
  unfold balloc. kstep. fold sb n.
  match goal with |- context [for_find _ ?f] => change f with (balloc_body sb) end. rewrite (bind_step _ _ _ _ _ _ _ E1). destruct r as [b|].
  - exists b, s1. split; [done|]. left. exact H1.
  - exists 0, s1. split; [done|]. right. split; [done|]. destruct H1 as [Hno M1]. split; [|done].
    intros b Hf. apply (Hno b); [|done]. pose proof (proj1 Hf). lia.
Qed.

Lemma bfree_run s bl h D blk dsk b : tx pid (fs_log s) bl h D blk dsk ->
  map_ok (l_start (fs_log s)) (fs_sb s) blk h -> (length bl + size h < NBUF)%nat -> 0 <= b < sb_size (fs_sb s) ->
  ~ is_free (fs_sb s) blk b ->
  exists s', bfree ROOTDEV b e s = Ret tt e s' /\
    moved pid s s' h (log_add (BBLOCK b (fs_sb s)) bl) h D
      (upd blk (BBLOCK b (fs_sb s)) (clr_bit (b mod BPB) (blk (BBLOCK b (fs_sb s))))) dsk.
Proof.
  intros T M Hn Hb Hnf. set (sb := fs_sb s) in *. set (bb := BBLOCK b sb).
  destruct (mo_map _ _ _ _ M b Hb) as [Hbd Hbh]. fold sb bb in Hbd, Hbh. pose proof (tx_dirty _ _ _ _ _ _ _ T) as HD.
  destruct (fs_bread_run s bl h D blk dsk bb T Hbh Hbd Hn) as (i & s1 & E1 & (T1 & F1 & K1) & Hh).
  pose proof (Z.mod_pos_bound b BPB ltac:(unfold BPB, BSIZE; lia)) as Hm.
  destruct (change_block s1 bl _ D blk dsk bb i (clr_bit (b mod BPB)) T1) as (s2 & E2 & M2);
    [set_solver|set_solver|done|apply clr_bit_length; [apply (br_size _ _ _ (tx_rep _ _ _ _ _ _ _ T))|lia]
    |by rewrite (proj2 F1)|unfold LOGSIZE, MAXOPBLOCKS; unfold NBUF in Hn; lia|].
  exists s2. split.
  - unfold bfree. kstep. fold sb bb. rewrite (bind_step _ _ _ _ _ _ _ E1). cbv zeta.
    rewrite (bind_step _ _ _ _ _ _ _ (buf_data_run s1 _ _ _ _ _ bb i T1 ltac:(set_solver) Hh)).
    destruct (bit_clear (blk bb) (b mod BPB)) eqn:Ec; [by destruct Hnf|]. exact E2.
  - replace (({[bb]} ∪ h) ∖ {[bb]}) with h in M2 by set_solver. by apply (moved_trans _ _ s1 _ h).
Qed.

End Block.

(** ** What the map says *)

Lemma BBLOCK_inj sb b b' : 0 <= b < 2 ^ 31 -> 0 <= b' < 2 ^ 31 ->
  BBLOCK b sb = BBLOCK b' sb -> b mod BPB = b' mod BPB -> b = b'.
Proof.
  intros Hb Hb' H Hm. assert (HB : 0 < BPB) by (unfold BPB, BSIZE; lia).
  assert (b / BPB = b' / BPB) as Hd; [|rewrite (Z.div_mod b BPB), (Z.div_mod b' BPB) by lia; congruence].
  assert (0 <= b / BPB < 2 ^ 31 /\ 0 <= b' / BPB < 2 ^ 31) as [H1 H2].
  { split; (split; [apply Z.div_pos; lia|apply Z.div_lt_upper_bound; [lia|unfold BPB, BSIZE; lia]]). }
  unfold BBLOCK, uint_wrap in H. set (x := sb_bmapstart sb) in H.
  pose proof (Z.div_mod (b / BPB + x) (2 ^ 32) ltac:(lia)). pose proof (Z.div_mod (b' / BPB + x) (2 ^ 32) ltac:(lia)). lia.
Qed.

Lemma allocated_free start sb blk h r b : map_ok start sb blk h -> (forall x, length (blk x) = bsize) -> is_free sb blk r ->
  is_free sb (allocated_blk sb blk r) b <-> is_free sb blk b /\ b <> r.
Proof.
  intros M Hl Hr. pose proof (mo_size _ _ _ _ M) as Hs. unfold is_free, allocated_blk.
  assert (HB : 0 < BPB) by (unfold BPB, BSIZE; lia).
  pose proof (Z.mod_pos_bound b BPB HB) as Hbm. pose proof (Z.mod_pos_bound r BPB HB) as Hrm.
  destruct (mo_free _ _ _ _ M r Hr) as (_ & _ & Hmap).
  destruct (decide (0 <= b < sb_size sb)) as [Hb|]; [|tauto]. pose proof (proj1 Hr) as Hrr.
  rewrite upd_ne by (intros Heq; by apply (Hmap b Hb)).
  destruct (decide (BBLOCK b sb = BBLOCK r sb)) as [Eq|Ne].
  - rewrite Eq, upd_at, set_bit_clear by (done || apply Hl). rewrite andb_true_iff, negb_true_iff, Z.eqb_neq.
    split; [intros (_ & Hc & Hne); split; [by split|congruence]|]. intros [[_ Hc] Hne]. split; [done|]. split; [done|].
    intros Hm. apply Hne. apply (BBLOCK_inj sb); [lia|lia|done|done].
  - rewrite upd_ne by done. split; [intros [_ Hc]; split; [by split|congruence]|tauto].
Qed.

Lemma freed_free start sb blk h r b : map_ok start sb blk h -> (forall x, length (blk x) = bsize) -> 0 <= r < sb_size sb ->
  is_free sb (upd blk (BBLOCK r sb) (clr_bit (r mod BPB) (blk (BBLOCK r sb)))) b <-> is_free sb blk b \/ b = r.
Proof.
  intros M Hl Hr. pose proof (mo_size _ _ _ _ M) as Hs. unfold is_free.
  assert (HB : 0 < BPB) by (unfold BPB, BSIZE; lia).
  pose proof (Z.mod_pos_bound b BPB HB) as Hbm. pose proof (Z.mod_pos_bound r BPB HB) as Hrm.
  destruct (decide (BBLOCK b sb = BBLOCK r sb)) as [Eq|Ne].
  - rewrite Eq, upd_at, clr_bit_clear by (done || apply Hl). rewrite orb_true_iff, Z.eqb_eq. split.
    + intros (Hb & [Hc|Hm]); [by left|]. right. symmetry in Hm. apply (BBLOCK_inj sb); [lia|lia|done|done].
    + intros [[Hb Hc]| ->]; [by auto|]. by auto.
  - rewrite upd_ne by done. split; [by left|]. intros [H| ->]; [done|by destruct Ne].
Qed.

Lemma allocated_map_ok start sb blk h r : map_ok start sb blk h -> (forall x, length (blk x) = bsize) -> is_free sb blk r ->
  map_ok start sb (allocated_blk sb blk r) h.
Proof.
  intros M Hl Hr. split; [apply M|apply M|]. intros b Hb. apply (allocated_free start sb blk h r b M Hl Hr) in Hb as [Hb _].
  by apply M.
Qed.

(** Block allocation, in a transaction with room for two more blocks.  If the
    free map has a free block, [balloc] returns the lowest one, marks it used in
    the logged map and fills it with zeros; no other block changes its status and
    no block but this one and its block of the map changes its contents.  If there
    is none, [balloc] returns 0 and changes nothing.  [bfree] undoes the
    allocation: afterwards exactly the same blocks are free as before. *)
Theorem balloc_correct e p pid s bl blk dsk : lenv e p pid -> tx pid (fs_log s) bl ∅ ∅ blk dsk ->
  map_ok (l_start (fs_log s)) (fs_sb s) blk ∅ -> (length bl + 2 < NBUF)%nat ->
  exists r s', balloc ROOTDEV e s = Ret r e s' /\ fs_sb s' = fs_sb s /\ fs_inode s' = fs_inode s /\
    ((exists blk' bl', tx pid (fs_log s') bl' ∅ ∅ blk' dsk /\
      is_free (fs_sb s) blk r /\ (forall b, 0 <= b < r -> ~ is_free (fs_sb s) blk b) /\
      blk' r = zeros /\ (forall b, is_free (fs_sb s) blk' b <-> is_free (fs_sb s) blk b /\ b <> r) /\
      (forall x, x <> r -> x <> BBLOCK r (fs_sb s) -> blk' x = blk x) /\
      exists s'' blk'' bl'', bfree ROOTDEV r e s' = Ret tt e s'' /\ tx pid (fs_log s'') bl'' ∅ ∅ blk'' dsk /\
        (forall b, is_free (fs_sb s) blk'' b <-> is_free (fs_sb s) blk b)) \/
     (r = 0 /\ (forall b, ~ is_free (fs_sb s) blk b) /\ tx pid (fs_log s') bl ∅ ∅ blk dsk)).
Proof.
  intros E T M Hn. assert (Hl : forall x, length (blk x) = bsize) by (intros x; apply (br_size _ _ _ (tx_rep _ _ _ _ _ _ _ T))).
  destruct (balloc_run e p pid E s bl ∅ ∅ blk dsk T M) as (r & s' & Eb & H); [rewrite size_empty; lia|].
  exists r, s'. split; [done|].
  destruct H as [(Hf & Hlow & T' & F & _)|(-> & Hno & T' & F & _)];
    (split; [by rewrite (frame_sb _ _ F)|split; [by rewrite (proj1 F)|]]); [left|by right].
  set (blk' := allocated_blk (fs_sb s) blk r) in *. set (bl' := log_add r _) in *.
  exists blk', bl'. pose proof (allocated_free _ _ _ _ r r M Hl Hf) as Hrf.
  assert (Hl' : forall x, length (blk' x) = bsize) by (intros x; apply (br_size _ _ _ (tx_rep _ _ _ _ _ _ _ T'))).
  do 3 (split; [done|]). split; [apply upd_at|]. split; [intros b; by apply (allocated_free (l_start (fs_log s)) _ _ ∅)|].
  split; [intros x H1 H2; unfold blk', allocated_blk; by rewrite !upd_ne by done|].
  assert (M' : map_ok (l_start (fs_log s')) (fs_sb s') blk' ∅).
  { rewrite (frame_sb _ _ F), (proj2 F). by apply allocated_map_ok. }
  assert (Hlen : (length bl' <= length bl + 2)%nat).
  { unfold bl'. pose proof (log_add_length r (log_add (BBLOCK r (fs_sb s)) bl)). pose proof (log_add_length (BBLOCK r (fs_sb s)) bl). lia. }
  destruct (bfree_run e p pid E s' bl' ∅ ∅ blk' dsk r T' M') as (s'' & Ef & T'' & _);
    [rewrite size_empty; lia|rewrite (frame_sb _ _ F); apply Hf|rewrite (frame_sb _ _ F); fold blk' in Hrf; tauto|].
  rewrite (frame_sb _ _ F) in T''. eexists s'', _, _. split; [done|]. split; [exact T''|].
  intros b. rewrite (frame_sb _ _ F) in M'. rewrite (freed_free _ _ _ _ r b M' Hl' (proj1 Hf)).
  unfold blk'. rewrite (allocated_free _ _ _ _ r b M Hl Hf). split; [intros [[? _]| ->]; done|].
  intros Hb. destruct (decide (b = r)); [by right|by left].
Qed.

(** ** Witness *)

(** A file system of 100 blocks: the log at block 2, the map in block 45 with the
    blocks up to 46 in use, entries of a directory in block 44 *)
Definition demo_map : list Z := replicate 5 255 ++ [127] ++ replicate 1018 0.
Definition demo_entries : list Z := [3; 0; 97] ++ replicate 1021 0.
Definition demo_fdisk : disk := Disk (fun b => if b =? 45 then demo_map else if b =? 44 then demo_entries else zeros) [].
Definition demo_fsb : superblock := Superblock FSMAGIC 100 50 10 31 2 33 45.
Definition demo_fs (t : bio) : fs :=
  Fs (Usr (Kmem (fun _ => 0) 0 (fun _ => 0)) []) (Logst t 2 31 1 0 ROOTDEV 0 (replicate (Z.to_nat LOGSIZE) 0)) demo_fsb [] ∅.

Lemma demo_fdisk_get b : disk_get demo_fdisk b = if b =? 45 then demo_map else if b =? 44 then demo_entries else zeros.
Proof. reflexivity. Qed.

Lemma demo_free_bits : forallb (fun b => implb (bit_clear demo_map b) (47 <=? b)) (seqZ 0 100) = true.
Proof. vm_compute. reflexivity. Qed.

Lemma demo_bblock b : 0 <= b < 100 -> BBLOCK b demo_fsb = 45.
Proof. intros Hb. unfold BBLOCK. rewrite Z.div_small by (unfold BPB, BSIZE; lia). reflexivity. Qed.

Lemma demo_free b : is_free demo_fsb (disk_get demo_fdisk) b -> 47 <= b < 100.
Proof.
  intros [Hb Hc]. change (sb_size demo_fsb) with 100 in *. rewrite demo_bblock in Hc by done.
  change (disk_get demo_fdisk 45) with demo_map in Hc. rewrite Z.mod_small in Hc by (unfold BPB, BSIZE; lia).
  pose proof (proj1 (forallb_forall _ _) demo_free_bits b) as H. cbv beta in H. rewrite Hc in H. cbn [implb] in H.
  split; [|lia]. apply Z.leb_le, H, list_elem_of_In, elem_of_seqZ. lia.
Qed.

Lemma demo_data b : 33 <= b < 100 -> is_data 2 b.
Proof. intros Hb. split; [lia|right; unfold LOGSIZE, MAXOPBLOCKS; lia]. Qed.

Lemma demo_map_ok : map_ok 2 demo_fsb (disk_get demo_fdisk) ∅.
Proof.
  split; [done| |].
  - intros b Hb. rewrite demo_bblock by exact Hb. split; [by apply demo_data|apply not_elem_of_empty].
  - intros b Hf%demo_free. split; [apply demo_data; lia|]. split; [apply not_elem_of_empty|].
    intros b' Hb'. rewrite demo_bblock by done. lia.
Qed.

Lemma demo_fs_tx : exists t, tx 7 (fs_log (demo_fs t)) [] ∅ ∅ (disk_get demo_fdisk) (disk_get demo_fdisk).
Proof.
  destruct (binit_run demo_kenv 7 demo_fdisk) as (t & _ & _ & R);
    [apply not_elem_of_empty|intros; apply not_elem_of_empty|intros b; rewrite demo_fdisk_get; by destruct (b =? 45), (b =? 44)|].
  exists t. apply tx_begin; [exact R|split; vm_compute; done|vm_compute; done|vm_compute; done|apply length_replicate|].
  apply Forall_forall. intros x Hx. apply elem_of_replicate in Hx as [-> _]. lia.
Qed.

Lemma balloc_correct_witness : exists s s' r, balloc ROOTDEV demo_kenv s = Ret r demo_kenv s' /\
  fs_sb s' = demo_fsb /\ (r = 0 \/ is_free demo_fsb (disk_get demo_fdisk) r).
Proof.
  destruct demo_fs_tx as (t & T).
  destruct (balloc_correct demo_kenv 0 7 (demo_fs t) [] (disk_get demo_fdisk) (disk_get demo_fdisk) demo_lenv T demo_map_ok)
    as (r & s' & Eb & Hsb & _ & H); [apply Nat.ltb_lt; reflexivity|].
  exists (demo_fs t), s', r. split; [exact Eb|]. split; [exact Hsb|].
  destruct H as [(blk' & bl' & _ & Hf & _)|(H0 & _)]; [right; exact Hf|left; exact H0].
Defined.
