(* ===== verification/FsInode.v ===== *)
(** * kernel/fs.c: the blocks of a file

    [bmap] against a view of an inode as a table of block numbers: slots 0 to 267
    are the data blocks of the file, slot 268 is the indirect block.  A file is
    well formed when the blocks in its slots are different and in use. *)

From stdpp Require Import base gmap sets list strings.
From Stdlib Require Import ZArith Lia.
From S2P Require Import Prelude Kernel Riscv Kalloc Vm Sched Sleeplock Bytes Bio Log Usr Fs Tx FsBlock.

(** ** Specification *)

(** The slot of the indirect block *)
Definition IND : Z := NDIRECT + NINDIRECT.

Definition addr (x : inode) (k : Z) : Z := default 0 (i_addrs x !! Z.to_nat k).
Definition ind_entry (blk : Z -> list Z) (a bn : Z) : Z := ld 4 (4 * Z.to_nat bn) (blk a).

(** The block number in slot [k], 0 if there is none. *)
Definition slot (x : inode) (blk : Z -> list Z) (k : Z) : Z :=
  if k <? NDIRECT then addr x k
  else if k =? IND then addr x NDIRECT
  else if addr x NDIRECT =? 0 then 0
  else ind_entry blk (addr x NDIRECT) (k - NDIRECT).

(** Block [a] is in use for data: allocated, a home block outside the map. *)
Definition in_use (start : Z) (sb : superblock) (blk : Z -> list Z) (a : Z) : Prop :=
  0 < a < sb_size sb /\ is_data start a /\ ~ is_free sb blk a /\ forall b, 0 <= b < sb_size sb -> a <> BBLOCK b sb.

Record file_ok (start : Z) (sb : superblock) (blk : Z -> list Z) (x : inode) : Prop := {
  fo_len : length (i_addrs x) = 13%nat;
  fo_dev : i_dev x = ROOTDEV;
  fo_map : map_ok start sb blk ∅;
  fo_boot : ~ is_free sb blk 0;
  fo_size : forall b, length (blk b) = bsize;
  fo_used : forall k, 0 <= k <= IND -> slot x blk k <> 0 -> in_use start sb blk (slot x blk k);
  fo_inj : forall j k, 0 <= j <= IND -> 0 <= k <= IND -> slot x blk j <> 0 -> slot x blk j = slot x blk k -> j = k
}.

(** Only the block table of the inode may differ. *)
Definition same_file (x x' : inode) : Prop :=
  x' = Inode (i_dev x) (i_inum x) (i_ref x) (i_valid x) (i_type x) (i_major x) (i_minor x) (i_nlink x) (i_size x) (i_addrs x').

(** What [bmap] may do to a file: slots and blocks in use stay, a slot that is
    filled gets a zeroed block, and no slot but [bn] and the indirect one changes. *)
Record grown (start : Z) (sb : superblock) (bn : Z) (x : inode) (blk : Z -> list Z) (x' : inode) (blk' : Z -> list Z) : Prop := {
  gr_ok : file_ok start sb blk' x';
  gr_same : same_file x x';
  gr_keep : forall k, 0 <= k <= IND -> slot x blk k <> 0 -> slot x' blk' k = slot x blk k;
  gr_other : forall k, 0 <= k < IND -> k <> bn -> slot x' blk' k = slot x blk k;
  gr_data : forall k, 0 <= k < IND -> slot x blk k <> 0 -> blk' (slot x blk k) = blk (slot x blk k);
  gr_new : forall k, 0 <= k < IND -> slot x blk k = 0 -> slot x' blk' k <> 0 -> blk' (slot x' blk' k) = zeros;
  gr_fresh : forall k, 0 <= k <= IND -> slot x blk k = 0 -> slot x' blk' k <> 0 -> is_free sb blk (slot x' blk' k);
  gr_free : forall b, is_free sb blk' b -> is_free sb blk b;
  gr_meta : forall b, 0 <= b -> ~ is_free sb blk b -> (forall k, 0 <= k <= IND -> slot x blk k <> b) ->
     (forall b', 0 <= b' < sb_size sb -> b <> BBLOCK b' sb) -> blk' b = blk b
}.

(** ** Slots *)

Lemma IND_eq : IND = 268.
Proof. reflexivity. Qed.
Lemma NIND_eq : NINDIRECT = 256.
Proof. reflexivity. Qed.

(** Arithmetic with the constants of the block table *)
Ltac clia := pose proof IND_eq; pose proof NIND_eq; unfold NDIRECT in *; lia.

Lemma same_file_refl x : same_file x x.
Proof. by destruct x. Qed.

Lemma same_file_trans x y z : same_file x y -> same_file y z -> same_file x z.
Proof. intros H1 H2. rewrite H2, H1. done. Qed.

Lemma addr_set x k v j : length (i_addrs x) = 13%nat -> 0 <= k < 13 -> 0 <= j ->
  addr (set_i_addr k v x) j = if j =? k then v else addr x j.
Proof.
  intros Hl Hk Hj. unfold addr. cbn. destruct (Z.eqb_spec j k) as [->|Hne].
  - rewrite list_lookup_insert_eq by lia. done.
  - rewrite list_lookup_insert_ne by lia. done.
Qed.

Section File.
Context (start : Z) (sb : superblock).

(** A free block is in no slot. *)
Lemma free_not_slot blk x r k : file_ok start sb blk x -> is_free sb blk r -> 0 <= k <= IND -> slot x blk k <> r.
Proof.
  intros F Hr Hk Heq. destruct (decide (slot x blk k = 0)) as [H0|H0].
  - apply (fo_boot _ _ _ _ F). by rewrite <- H0, Heq.
  - destruct (fo_used _ _ _ _ F k Hk H0) as (_ & _ & Hn & _). by rewrite Heq in Hn.
Qed.

Lemma slot_IND x blk : slot x blk IND = addr x NDIRECT.
Proof. reflexivity. Qed.

Lemma slot_direct x blk k : 0 <= k < NDIRECT -> slot x blk k = addr x k.
Proof. intros H. unfold slot. by rewrite (proj2 (Z.ltb_lt _ _)) by lia. Qed.

Lemma slot_indirect x blk k : NDIRECT <= k < IND -> slot x blk k =
  if addr x NDIRECT =? 0 then 0 else ind_entry blk (addr x NDIRECT) (k - NDIRECT).
Proof. intros H. unfold slot. rewrite (proj2 (Z.ltb_ge _ _)), (proj2 (Z.eqb_neq _ _)) by lia. done. Qed.

(** The slots depend on the table and the indirect block only. *)
Lemma slot_blk x blk blk' k : (addr x NDIRECT <> 0 -> blk' (addr x NDIRECT) = blk (addr x NDIRECT)) ->
  slot x blk' k = slot x blk k.
Proof.
  intros H. unfold slot, ind_entry. destruct (k <? NDIRECT); [done|]. destruct (k =? IND); [done|].
  destruct (Z.eqb_spec (addr x NDIRECT) 0); [done|]. by rewrite H.
Qed.

(** [allocated_blk] changes the new block and its map block only. *)
Lemma alloc_used blk r a : is_free sb blk r -> in_use start sb blk a -> allocated_blk sb blk r a = blk a.
Proof.
  intros Hr (Hr1 & _ & Hn & Hm). unfold allocated_blk.
  rewrite !upd_ne; [done|apply Hm; apply Hr|]. intros ->. done.
Qed.

Lemma alloc_slot blk x r k : file_ok start sb blk x -> is_free sb blk r ->
  slot x (allocated_blk sb blk r) k = slot x blk k.
Proof.
  intros F Hr. apply slot_blk. intros H0. apply alloc_used; [done|].
  apply (fo_used _ _ _ _ F IND); [clia|done].
Qed.

Lemma alloc_in_use blk r a : map_ok start sb blk ∅ -> (forall b, length (blk b) = bsize) -> is_free sb blk r ->
  in_use start sb blk a -> in_use start sb (allocated_blk sb blk r) a.
Proof.
  intros M Hl Hr (H1 & H2 & H3 & H4). split; [done|]. split; [done|]. split; [|done].
  intros Hf. apply H3. by apply (allocated_free start sb blk ∅ r a M Hl Hr) in Hf as [? _].
Qed.

Lemma alloc_length blk r : (forall b, length (blk b) = bsize) -> is_free sb blk r ->
  forall b, length (allocated_blk sb blk r b) = bsize.
Proof.
  intros Hl Hr b. unfold allocated_blk, upd. destruct (b =? r); [apply length_replicate|]. destruct (b =? _); [|done].
  apply set_bit_length; [done|]. apply Z.mod_pos_bound. unfold BPB, BSIZE. lia.
Qed.

(** The new block is in use afterwards. *)
Lemma alloc_new blk x r : file_ok start sb blk x -> is_free sb blk r -> in_use start sb (allocated_blk sb blk r) r.
Proof.
  intros F Hr. destruct (mo_free _ _ _ _ (fo_map _ _ _ _ F) r Hr) as (H1 & _ & H2).
  split; [|split; [done|split; [|done]]].
  - pose proof (proj1 Hr). assert (r <> 0); [|lia]. intros ->. by apply (fo_boot _ _ _ _ F).
  - intros Hf. apply (allocated_free start sb blk ∅ r r) in Hf; [|apply F|apply F|done]. tauto.
Qed.

Lemma grown_refl bn blk x : file_ok start sb blk x -> grown start sb bn x blk x blk.
Proof. intros F. split; try done; [apply same_file_refl|intros; by destruct H1..]. Qed.

Lemma grown_trans bn x blk x1 blk1 x2 blk2 :
  grown start sb bn x blk x1 blk1 -> grown start sb bn x1 blk1 x2 blk2 -> grown start sb bn x blk x2 blk2.
Proof.
  intros G1 G2. pose proof (fun k => gr_keep _ _ _ _ _ _ _ G1 k) as K1. split.
  - apply G2.
  - apply (same_file_trans _ x1); [apply G1|apply G2].
  - intros k Hk H0. rewrite (gr_keep _ _ _ _ _ _ _ G2 k Hk); [by apply K1|by rewrite K1].
  - intros k Hk Hne. by rewrite (gr_other _ _ _ _ _ _ _ G2 k Hk Hne), (gr_other _ _ _ _ _ _ _ G1 k Hk Hne).
  - intros k Hk H0. assert (E1 : slot x1 blk1 k = slot x blk k) by (apply K1; [lia|done]).
    rewrite <- (gr_data _ _ _ _ _ _ _ G1 k Hk H0), <- E1. apply (gr_data _ _ _ _ _ _ _ G2 k Hk). by rewrite E1.
  - intros k Hk H0 H2. destruct (decide (slot x1 blk1 k = 0)) as [H1|H1]; [by apply (gr_new _ _ _ _ _ _ _ G2)|].
    rewrite (gr_keep _ _ _ _ _ _ _ G2 k) by (lia || done). rewrite (gr_data _ _ _ _ _ _ _ G2 k Hk H1).
    by apply (gr_new _ _ _ _ _ _ _ G1).
  - intros k Hk H0 H2. destruct (decide (slot x1 blk1 k = 0)) as [H1|H1].
    + apply (gr_free _ _ _ _ _ _ _ G1). by apply (gr_fresh _ _ _ _ _ _ _ G2).
    + rewrite (gr_keep _ _ _ _ _ _ _ G2 k Hk H1). by apply (gr_fresh _ _ _ _ _ _ _ G1).
  - intros b Hb. apply (gr_free _ _ _ _ _ _ _ G1). by apply (gr_free _ _ _ _ _ _ _ G2).
  - intros b Hb0 Hb Hs Hm. rewrite <- (gr_meta _ _ _ _ _ _ _ G1 b Hb0 Hb Hs Hm). apply (gr_meta _ _ _ _ _ _ _ G2); try done.
    + intros Hf. apply Hb. by apply (gr_free _ _ _ _ _ _ _ G1).
    + intros k Hk Heq. destruct (decide (slot x blk k = 0)) as [H0|H0].
      * destruct (decide (slot x1 blk1 k = 0)) as [H1|H1]; [apply (Hs k Hk); congruence|].
        apply Hb. rewrite <- Heq. by apply (gr_fresh _ _ _ _ _ _ _ G1).
      * apply (Hs k Hk). by rewrite <- (K1 k Hk H0).
Qed.

(** Filling slot [j] with the free block [r] *)
Lemma grown_fill bn j r x blk x' blk' : file_ok start sb blk x -> is_free sb blk r -> 0 <= j <= IND -> (j = bn \/ j = IND) ->
  slot x blk j = 0 -> (forall k, 0 <= k <= IND -> slot x' blk' k = if k =? j then r else slot x blk k) ->
  same_file x x' -> length (i_addrs x') = 13%nat -> (forall b, length (blk' b) = bsize) ->
  (forall b, is_free sb blk' b <-> is_free sb blk b /\ b <> r) -> (j < IND -> blk' r = zeros) ->
  (forall b, b <> r -> (forall b', 0 <= b' < sb_size sb -> b <> BBLOCK b' sb) -> b <> slot x blk IND -> blk' b = blk b) ->
  grown start sb bn x blk x' blk'.
Proof.
  intros F Hr Hj Hjb Hj0 Hs Hsame Hlen Hsz Hfree Hz Hkeep.
  assert (Hns : forall k, 0 <= k <= IND -> slot x blk k <> r) by (intros k Hk; by apply free_not_slot).
  assert (Hs' : forall k, 0 <= k <= IND -> slot x blk k <> 0 -> slot x' blk' k = slot x blk k).
  { intros k Hk H0. rewrite Hs by done. destruct (Z.eqb_spec k j); [congruence|done]. }
  assert (Hu : forall k, 0 <= k <= IND -> slot x blk k <> 0 -> in_use start sb blk' (slot x blk k)).
  { intros k Hk H0. destruct (fo_used _ _ _ _ F k Hk H0) as (H1 & H2 & H3 & H4). split; [done|]. split; [done|]. split; [|done].
    intros Hf. apply Hfree in Hf. tauto. }
  assert (Hok : file_ok start sb blk' x').
  { destruct (mo_free _ _ _ _ (fo_map _ _ _ _ F) r Hr) as (Hd & _ & Hm). split; try done.
    - rewrite Hsame. apply F.
    - split; [apply F|apply F|]. intros b Hb. apply Hfree in Hb as [Hb _]. by apply F.
    - intros H0. apply Hfree in H0 as [H0 _]. by apply (fo_boot _ _ _ _ F).
    - intros k Hk. rewrite Hs by done. destruct (Z.eqb_spec k j); [|by apply Hu]. intros _.
      split; [|split; [done|split; [|done]]].
      + pose proof (proj1 Hr). assert (r <> 0); [|lia]. intros ->. by apply (fo_boot _ _ _ _ F).
      + intros Hf. apply Hfree in Hf. tauto.
    - intros k1 k2 Hk1 Hk2. rewrite !Hs by done.
      destruct (Z.eqb_spec k1 j) as [->|], (Z.eqb_spec k2 j) as [->|]; [done| | |by apply F].
      + intros _ Heq. symmetry in Heq. by apply Hns in Heq.
      + intros _ Heq. by apply Hns in Heq. }
  split; [done|done|done| | | | | |].
  - intros k Hk Hne. rewrite Hs by lia. destruct (Z.eqb_spec k j); [lia|done].
  - intros k Hk H0. destruct (fo_used _ _ _ _ F k ltac:(lia) H0) as (_ & _ & _ & Hm). apply Hkeep; [apply Hns; lia|done|].
    intros Heq. apply (fo_inj _ _ _ _ F) in Heq; [lia|lia|clia|done].
  - intros k Hk H0. rewrite Hs by lia. destruct (Z.eqb_spec k j) as [->|]; [intros _; apply Hz; lia|congruence].
  - intros k Hk H0. rewrite Hs by lia. destruct (Z.eqb_spec k j) as [->|]; [done|congruence].
  - intros b Hb. by apply Hfree in Hb as [? _].
  - intros b Hb0 Hb Hsl Hm. apply Hkeep; [congruence|done|]. intros ->. apply (Hsl IND); [clia|done].
Qed.

(** The blocks [allocated_blk] leaves alone *)
Lemma alloc_other blk r b : is_free sb blk r -> b <> r -> (forall b', 0 <= b' < sb_size sb -> b <> BBLOCK b' sb) ->
  allocated_blk sb blk r b = blk b.
Proof. intros Hr H1 H2. unfold allocated_blk. rewrite !upd_ne; [done|apply H2; apply Hr|done]. Qed.

Lemma same_file_addr x k v : same_file x (set_i_addr k v x).
Proof. done. Qed.

Lemma addrs_length k v x : length (i_addrs (set_i_addr k v x)) = length (i_addrs x).
Proof. cbn. by rewrite length_insert. Qed.

(** A direct block is allocated. *)
Lemma grown_direct bn r x blk : file_ok start sb blk x -> is_free sb blk r -> 0 <= bn < NDIRECT -> addr x bn = 0 ->
  grown start sb bn x blk (set_i_addr bn r x) (allocated_blk sb blk r).
Proof.
  intros F Hr Hbn H0. pose proof (fo_len _ _ _ _ F) as Hl.
  apply (grown_fill bn bn r); [done|done|clia|by left|by rewrite slot_direct| |done|by rewrite addrs_length|
    apply alloc_length; [apply F|done]|intros b; by apply (allocated_free start sb blk ∅); [apply F|apply F|]|
    intros _; apply upd_at|intros b H1 H2 _; by apply alloc_other].
  intros k Hk. rewrite <- (alloc_slot blk x r k F Hr). unfold slot, ind_entry.
  rewrite !addr_set by clia. rewrite (proj2 (Z.eqb_neq NDIRECT bn)) by lia.
  destruct (Z.ltb_spec k NDIRECT); [done|]. by rewrite (proj2 (Z.eqb_neq k bn)) by lia.
Qed.

(** The indirect block is allocated. *)
Lemma ind_zeros a bn : (4 * Z.to_nat bn + 4 <= bsize)%nat -> forall blk, blk a = zeros -> ind_entry blk a bn = 0.
Proof.
  intros Hb blk Hz. unfold ind_entry, ld, slice. rewrite Hz. unfold zeros.
  rewrite drop_replicate, take_replicate, Nat.min_l by lia. reflexivity.
Qed.

Lemma grown_indirect bn r x blk : file_ok start sb blk x -> is_free sb blk r -> addr x NDIRECT = 0 ->
  grown start sb bn x blk (set_i_addr NDIRECT r x) (allocated_blk sb blk r).
Proof.
  intros F Hr H0. pose proof (fo_len _ _ _ _ F) as Hl.
  assert (Hr0 : r <> 0) by (intros ->; by apply (fo_boot _ _ _ _ F)).
  apply (grown_fill bn IND r); [done|done|clia|by right|done| |done|by rewrite addrs_length|
    apply alloc_length; [apply F|done]|intros b; by apply (allocated_free start sb blk ∅); [apply F|apply F|]|lia|
    intros b H1 H2 _; by apply alloc_other].
  intros k Hk. unfold slot. rewrite !addr_set by clia. change (NDIRECT =? NDIRECT) with true. cbv iota. rewrite H0.
  destruct (Z.ltb_spec k NDIRECT).
  - by rewrite (proj2 (Z.eqb_neq k IND)), (proj2 (Z.eqb_neq k NDIRECT)) by clia.
  - destruct (Z.eqb_spec k IND); [done|]. rewrite (proj2 (Z.eqb_neq r 0)) by done. cbn [Z.eqb].
    apply ind_zeros; [clia|apply upd_at].
Qed.

(** An entry of the indirect block is filled. *)
Definition filled_ind (blk : Z -> list Z) (a bn r : Z) : Z -> list Z :=
  upd blk a (st 4 (4 * Z.to_nat bn) r (blk a)).

Lemma ind_entry_filled blk a bn r k : length (blk a) = bsize -> 0 <= r < 2 ^ 32 -> 0 <= bn < NINDIRECT -> 0 <= k < NINDIRECT ->
  ind_entry (filled_ind blk a bn r) a k = if k =? bn then r else ind_entry blk a k.
Proof.
  intros Hl Hr Hbn Hk. unfold ind_entry, filled_ind. rewrite upd_at. destruct (Z.eqb_spec k bn) as [->|Hne].
  - rewrite ld_st by clia. by apply Z.mod_small.
  - rewrite ld_st_ne; [done|clia..].
Qed.

Lemma grown_entry bn r x blk : file_ok start sb blk x -> is_free sb blk r -> NDIRECT <= bn < IND ->
  addr x NDIRECT <> 0 -> slot x blk bn = 0 ->
  grown start sb bn x blk x (filled_ind (allocated_blk sb blk r) (addr x NDIRECT) (bn - NDIRECT) r).
Proof.
  intros F Hr Hbn Hi H0. set (ind := addr x NDIRECT) in *. set (blk1 := allocated_blk sb blk r).
  assert (Hu : in_use start sb blk ind) by (apply (fo_used _ _ _ _ F IND); [clia|done]).
  assert (Hl1 : forall b, length (blk1 b) = bsize) by (apply alloc_length; [apply F|done]).
  assert (Hne : ind <> r) by (intros ->; by destruct Hu as (_ & _ & ? & _)).
  pose proof (mo_size _ _ _ _ (fo_map _ _ _ _ F)) as Hsz. pose proof (proj1 Hr) as Hrr.
  assert (Hin : forall b', 0 <= b' < sb_size sb -> BBLOCK b' sb <> ind) by (intros b' Hb' Heq; by destruct Hu as (_ & _ & _ & H); apply (H b')).
  apply (grown_fill bn bn r); [done|done|clia|by left|done| |apply same_file_refl|apply F| | | |].
  - intros k Hk. rewrite <- (alloc_slot blk x r k F Hr). fold blk1. unfold slot. fold ind.
    destruct (Z.ltb_spec k NDIRECT); [by rewrite (proj2 (Z.eqb_neq k bn)) by lia|].
    destruct (Z.eqb_spec k IND); [by rewrite (proj2 (Z.eqb_neq k bn)) by lia|].
    rewrite (proj2 (Z.eqb_neq ind 0)) by done. rewrite ind_entry_filled by (done || clia).
    destruct (Z.eqb_spec k bn) as [->|]; [by rewrite Z.eqb_refl|]. by rewrite (proj2 (Z.eqb_neq _ _)) by lia.
  - intros b. unfold filled_ind, upd. destruct (b =? ind); [|done]. rewrite length_st by (rewrite Hl1; clia). apply Hl1.
  - intros b. rewrite <- (allocated_free start sb blk ∅ r b) by (apply F || done). fold blk1. unfold is_free.
    split; intros [Hb Hc]; (split; [done|]); unfold filled_ind in *; [|rewrite upd_ne; [done|by apply Hin]].
    by rewrite upd_ne in Hc by (by apply Hin).
  - intros _. unfold filled_ind. rewrite upd_ne by done. apply upd_at.
  - intros b H1 H2 H3. unfold filled_ind. rewrite upd_ne by done. by apply alloc_other.
Qed.

End File.

(** ** [bmap] *)

(** Everything but the log, the buffer cache and inode [ip] is the same. *)
Definition iframe (ip : nat) (s s' : fs) : Prop :=
  fs_usr s' = fs_usr s /\ fs_sb s' = fs_sb s /\ fs_locks s' = fs_locks s /\
  l_start (fs_log s') = l_start (fs_log s) /\ forall j, j <> ip -> fs_inode s' !! j = fs_inode s !! j.

Lemma iframe_refl ip s : iframe ip s s.
Proof. by split_and!. Qed.

Lemma iframe_trans ip s1 s2 s3 : iframe ip s1 s2 -> iframe ip s2 s3 -> iframe ip s1 s3.
Proof.
  intros (H1 & H2 & H3 & H4 & H5) (H1' & H2' & H3' & H4' & H5'). split_and!; [congruence..|].
  intros j Hj. by rewrite H5', H5.
Qed.

Lemma frame_iframe ip s s' : frame s s' -> iframe ip s s'.
Proof. intros [H1 H2]. rewrite H1. by split_and!. Qed.

(** The file of inode [ip] inside a transaction that holds no buffer *)
Record fstate (pid : Z) (ip : nat) (s : fs) (bl : list Z) (blk dsk : Z -> list Z) (x : inode) : Prop := {
  fs_tx : tx pid (fs_log s) bl ∅ ∅ blk dsk;
  fs_ino : fs_inode s !! ip = Some x;
  fs_file : file_ok (l_start (fs_log s)) (fs_sb s) blk x
}.

Section Bmap.
Context (e : env) (p : nat) (pid : Z) (E : lenv e p pid) (ip : nat).

Lemma geti_run s x : fs_inode s !! ip = Some x -> geti ip e s = Ret x e s.
Proof. intros H. unfold geti. by rewrite H. Qed.

Lemma updi_run s f : updi ip f e s = Ret tt e (set_inodes (alter f ip (fs_inode s)) s).
Proof. done. Qed.

Lemma updi_iframe s f : iframe ip s (set_inodes (alter f ip (fs_inode s)) s).
Proof. split_and!; try done. intros j Hj. cbn. by rewrite list_lookup_alter_ne. Qed.

(** The state after inode [ip] was changed to [x'] and the contents to [blk'] *)
Lemma fstate_upd s s1 bl blk dsk x x' bl1 blk1 bn f : fstate pid ip s bl blk dsk x -> frame s s1 ->
  tx pid (fs_log s1) bl1 ∅ ∅ blk1 dsk -> x' = f x -> grown (l_start (fs_log s)) (fs_sb s) bn x blk x' blk1 ->
  let s2 := set_inodes (alter f ip (fs_inode s1)) s1 in
  fstate pid ip s2 bl1 blk1 dsk x' /\ iframe ip s s2.
Proof.
  intros H F T -> G s2. split.
  - split; [done| |].
    + cbn. rewrite (proj1 F). cbn. rewrite list_lookup_alter_eq. by rewrite (fs_ino _ _ _ _ _ _ _ H).
    + cbn. rewrite (proj2 F), (frame_sb _ _ F). apply G.
  - apply (iframe_trans _ _ s1); [by apply frame_iframe|apply updi_iframe].
Qed.

Lemma fstate_frame s s1 bl blk dsk x bl1 blk1 : fstate pid ip s bl blk dsk x -> frame s s1 ->
  tx pid (fs_log s1) bl1 ∅ ∅ blk1 dsk -> file_ok (l_start (fs_log s)) (fs_sb s) blk1 x ->
  fstate pid ip s1 bl1 blk1 dsk x /\ iframe ip s s1.
Proof.
  intros H F T G. split; [|by apply frame_iframe]. split; [done| |by rewrite (proj2 F), (frame_sb _ _ F)].
  rewrite (proj1 F). apply H.
Qed.

(** Result of [bmap] on slot [bn] *)
Record mapped_to (s : fs) (bl : list Z) (blk dsk : Z -> list Z) (x : inode) (bn a : Z)
    (s' : fs) (bl' : list Z) (blk' : Z -> list Z) (x' : inode) (cost : nat) : Prop := {
  mt_state : fstate pid ip s' bl' blk' dsk x';
  mt_frame : iframe ip s s';
  mt_grown : grown (l_start (fs_log s)) (fs_sb s) bn x blk x' blk';
  mt_addr : a = slot x' blk' bn;
  mt_log : (length bl' <= length bl + cost)%nat;
  mt_same : slot x blk bn <> 0 -> bl' = bl /\ blk' = blk /\ x' = x;
  mt_full : a = 0 -> forall b, ~ is_free (fs_sb s) blk' b
}.

Lemma two_adds a b bl : (length (log_add a (log_add b bl)) <= length bl + 2)%nat.
Proof. pose proof (log_add_length a (log_add b bl)). pose proof (log_add_length b bl). lia. Qed.

Lemma bmap_direct s bl blk dsk x bn : fstate pid ip s bl blk dsk x -> 0 <= bn < NDIRECT -> (length bl + 6 < NBUF)%nat ->
  exists a s' bl' blk' x', bmap ip bn e s = Ret a e s' /\ mapped_to s bl blk dsk x bn a s' bl' blk' x' 2.
Proof.
  intros H Hbn Hn. pose proof (fs_file _ _ _ _ _ _ _ H) as F. unfold bmap.
  rewrite (bind_step _ _ _ _ _ _ _ (geti_run s x (fs_ino _ _ _ _ _ _ _ H))). rewrite (proj2 (Z.ltb_lt _ _)) by lia.
  fold (addr x bn). cbv zeta. assert (Hs : slot x blk bn = addr x bn) by (by apply slot_direct).
  destruct (Z.eqb_spec (addr x bn) 0) as [H0|H0].
  - rewrite (fo_dev _ _ _ _ F).
    destruct (balloc_run e p pid E s bl ∅ ∅ blk dsk (fs_tx _ _ _ _ _ _ _ H) (fo_map _ _ _ _ F)) as (r & s1 & E1 & Hr);
      [rewrite size_empty; lia|]. rewrite (bind_step _ _ _ _ _ _ _ E1).
    destruct Hr as [(Hf & _ & T1 & F1 & _)|(-> & Hno & T1 & F1 & _)].
    + assert (Hr0 : r <> 0) by (intros ->; by apply (fo_boot _ _ _ _ F)). rewrite (proj2 (Z.eqb_neq r 0)) by done.
      rewrite (bind_step _ _ _ _ _ _ _ (updi_run s1 _)). unfold ret.
      pose proof (grown_direct _ _ bn r x blk F Hf Hbn H0) as G.
      destruct (fstate_upd s s1 bl blk dsk x _ _ _ bn (set_i_addr bn r) H F1 T1 eq_refl G) as [H2 I2].
      eexists _, _, _, _, _. split; [reflexivity|]. split; [exact H2|exact I2|exact G| | |congruence|congruence].
      * rewrite slot_direct by done. rewrite addr_set by (exact (fo_len _ _ _ _ F) || clia). by rewrite Z.eqb_refl.
      * apply two_adds.
    + cbn [Z.eqb]. unfold ret. destruct (fstate_frame s s1 bl blk dsk x bl blk H F1 T1 F) as [H2 I2].
      eexists _, _, _, _, _. split; [reflexivity|].
      split; [exact H2|exact I2|by apply grown_refl|by rewrite Hs, H0|lia|congruence|done].
  - unfold ret. eexists _, _, _, _, _. split; [reflexivity|].
    split; [exact H|apply iframe_refl|by apply grown_refl|by rewrite Hs|lia|done|congruence].
Qed.

(** The first part of the indirect case: the indirect block, allocated if needed *)
Definition get_ind (x : inode) : K fs Z :=
  let addr := default 0 (i_addrs x !! Z.to_nat NDIRECT) in
  if addr =? 0 then
    addr <- balloc (i_dev x) ;;
    when (negb (addr =? 0)) (updi ip (set_i_addr NDIRECT addr)) ;;
    ret addr
  else ret addr.

Lemma get_ind_run s bl blk dsk x bn : fstate pid ip s bl blk dsk x -> (length bl + 6 < NBUF)%nat ->
  exists a s' bl' blk' x', get_ind x e s = Ret a e s' /\ fstate pid ip s' bl' blk' dsk x' /\ iframe ip s s' /\
    grown (l_start (fs_log s)) (fs_sb s) bn x blk x' blk' /\ a = addr x' NDIRECT /\ (length bl' <= length bl + 2)%nat /\
    (addr x NDIRECT <> 0 -> bl' = bl /\ blk' = blk /\ x' = x) /\ (a = 0 -> forall b, ~ is_free (fs_sb s) blk' b).
Proof.
  intros H Hn. pose proof (fs_file _ _ _ _ _ _ _ H) as F. unfold get_ind. fold (addr x NDIRECT). cbv zeta.
  destruct (Z.eqb_spec (addr x NDIRECT) 0) as [H0|H0].
  - rewrite (fo_dev _ _ _ _ F).
    destruct (balloc_run e p pid E s bl ∅ ∅ blk dsk (fs_tx _ _ _ _ _ _ _ H) (fo_map _ _ _ _ F)) as (r & s1 & E1 & Hr);
      [rewrite size_empty; lia|]. rewrite (bind_step _ _ _ _ _ _ _ E1).
    destruct Hr as [(Hf & _ & T1 & F1 & _)|(-> & Hno & T1 & F1 & _)].
    + assert (Hr0 : r <> 0) by (intros ->; by apply (fo_boot _ _ _ _ F)). rewrite (proj2 (Z.eqb_neq r 0)) by done. ksteps.
      rewrite (bind_step _ _ _ _ _ _ _ (updi_run s1 _)). unfold ret.
      pose proof (grown_indirect _ _ bn r x blk F Hf H0) as G.
      destruct (fstate_upd s s1 bl blk dsk x _ _ _ bn (set_i_addr NDIRECT r) H F1 T1 eq_refl G) as [H2 I2].
      eexists _, _, _, _, _. split; [reflexivity|]. split_and!; [exact H2|exact I2|exact G| |apply two_adds|congruence|congruence].
      rewrite addr_set by (exact (fo_len _ _ _ _ F) || clia). by rewrite Z.eqb_refl.
    + cbn [Z.eqb negb when]. ksteps. unfold ret. destruct (fstate_frame s s1 bl blk dsk x bl blk H F1 T1 F) as [H2 I2].
      eexists _, _, _, _, _. split; [reflexivity|].
      split_and!; [exact H2|exact I2|by apply grown_refl|done|lia|congruence|done].
  - unfold ret. eexists _, _, _, _, _. split; [reflexivity|].
    split_and!; [exact H|apply iframe_refl|by apply grown_refl|done|lia|done|congruence].
Qed.

(** The second part: the entry of the indirect block [ind] *)
Definition get_entry (x : inode) (ind bn : Z) : K fs Z :=
  bp <- fs_bread (i_dev x) ind ;;
  d <- buf_data bp ;;
  let a := ld 4 (4 * Z.to_nat bn) d in
  addr <- (if a =? 0 then
             addr <- balloc (i_dev x) ;;
             when (truth addr)
               (buf_update bp (st 4 (4 * Z.to_nat bn) addr) ;;
                fs_log_write bp) ;;
             ret addr
           else ret a) ;;
  fs_brelse bp ;;
  ret addr.

Lemma bmap_indirect s x bn : fs_inode s !! ip = Some x -> NDIRECT <= bn < IND ->
  bmap ip bn e s = (addr <- get_ind x ;; if addr =? 0 then ret 0 else get_entry x addr (bn - NDIRECT)) e s.
Proof.
  intros H Hbn. unfold bmap. rewrite (bind_step _ _ _ _ _ _ _ (geti_run s x H)).
  rewrite (proj2 (Z.ltb_ge _ _)) by lia. cbv zeta. rewrite (proj2 (Z.ltb_lt _ _)) by clia. reflexivity.
Qed.

(** The map stays well formed while the indirect block is held. *)
Lemma map_ok_held start sb blk x : file_ok start sb blk x -> addr x NDIRECT <> 0 -> map_ok start sb blk {[addr x NDIRECT]}.
Proof.
  intros F H0. pose proof (fo_used _ _ _ _ F IND ltac:(clia) H0) as (_ & _ & Hnf & Hm).
  change (slot x blk IND) with (addr x NDIRECT) in *. destruct (fo_map _ _ _ _ F) as [M1 M2 M3]. split; [done| |].
  - intros b Hb. destruct (M2 b Hb) as [? _]. split; [done|]. intros Heq%elem_of_singleton. by apply (Hm b Hb).
  - intros b Hb. destruct (M3 b Hb) as (? & _ & ?). split; [done|]. split; [|done].
    intros ->%elem_of_singleton. done.
Qed.

(** The entry is empty: a block is allocated while the indirect block is held. *)
Lemma fill_entry_run s bl blk dsk x bn i ind : tx pid (fs_log s) bl {[ind]} ∅ blk dsk -> handle (fbio s) i ind ->
  file_ok (l_start (fs_log s)) (fs_sb s) blk x -> ind = addr x NDIRECT -> ind <> 0 -> 0 <= bn < NINDIRECT ->
  (length bl + 4 < NBUF)%nat ->
  exists r s' bl' blk', (addr <- balloc ROOTDEV ;;
      when (truth addr)
        (buf_update i (st 4 (4 * Z.to_nat bn) addr) ;;
         fs_log_write i) ;;
      ret addr) e s = Ret r e s' /\ moved pid s s' {[ind]} bl' {[ind]} ∅ blk' dsk /\ (length bl' <= length bl + 3)%nat /\
    ((r <> 0 /\ is_free (fs_sb s) blk r /\ blk' = filled_ind (allocated_blk (fs_sb s) blk r) ind bn r) \/
     (r = 0 /\ (forall b, ~ is_free (fs_sb s) blk b) /\ blk' = blk)).
Proof.
  intros T Hh F -> H0 Hbn Hn. set (ind := addr x NDIRECT) in *.
  pose proof (fo_used _ _ _ _ F IND ltac:(clia) H0) as (_ & Hd & _). change (slot x blk IND) with ind in Hd.
  destruct (balloc_run e p pid E s bl {[ind]} ∅ blk dsk T (map_ok_held _ _ _ _ F H0)) as (r & s1 & E1 & Hr);
    [rewrite size_singleton; lia|]. rewrite (bind_step _ _ _ _ _ _ _ E1).
  destruct Hr as [(Hf & _ & T1 & F1 & K1)|(-> & Hno & M1)].
  - assert (Hr0 : r <> 0) by (intros ->; by apply (fo_boot _ _ _ _ F)).
    assert (Ht : truth r = true) by (unfold truth; by rewrite (proj2 (Z.eqb_neq r 0))). rewrite Ht. ksteps.
    assert (H1 : handle (fbio s1) i ind) by (apply K1; [set_solver|done]).
    pose proof (alloc_length _ _ r (fo_size _ _ _ _ F) Hf) as Hl1.
    destruct (buf_update_run e p pid E s1 _ _ _ _ _ ind i (st 4 (4 * Z.to_nat bn) r) T1 ltac:(set_solver) H1) as (s2 & E2 & T2 & F2 & K2);
      [rewrite length_st by (rewrite Hl1; clia); apply Hl1|].
    assert (H2 : handle (fbio s2) i ind) by (apply K2; [set_solver|done]).
    pose proof (two_adds r (BBLOCK r (fs_sb s)) bl) as Hlen.
    destruct (fs_log_write_run e p pid E s2 _ _ _ _ _ ind i T2 ltac:(set_solver) H2) as (s3 & E3 & T3 & F3 & K3);
      [by rewrite (proj2 F2), (proj2 F1)|unfold LOGSIZE, MAXOPBLOCKS; unfold NBUF in Hn; lia|].
    rewrite (bind_step _ _ _ _ _ _ _ E2), (bind_step _ _ _ _ _ _ _ E3). unfold ret.
    eexists _, _, _, _. split; [reflexivity|]. split; [|split; [|left; by split_and!]].
    + split; [|split; [by apply (frame_trans _ s1); [|apply (frame_trans _ s2)]|]].
      * replace (({[ind]} ∪ ∅) ∖ {[ind]}) with (∅ : gset Z) in T3 by set_solver. exact T3.
      * apply (hkeep_trans _ _ (fbio s1)); [done|]. by apply (hkeep_trans _ _ (fbio s2)).
    + pose proof (log_add_length ind (log_add r (log_add (BBLOCK r (fs_sb s)) bl))). lia.
  - change (truth 0) with false. ksteps. unfold ret. eexists _, _, _, _. split; [reflexivity|]. split; [exact M1|].
    split; [lia|]. right. by split_and!.
Qed.

Lemma get_entry_run s bl blk dsk x bn : fstate pid ip s bl blk dsk x -> NDIRECT <= bn < IND -> addr x NDIRECT <> 0 ->
  (length bl + 4 < NBUF)%nat ->
  exists a s' bl' blk', get_entry x (addr x NDIRECT) (bn - NDIRECT) e s = Ret a e s' /\
    mapped_to s bl blk dsk x bn a s' bl' blk' x 3.
Proof.
  intros H Hbn H0 Hn. pose proof (fs_file _ _ _ _ _ _ _ H) as F. set (ind := addr x NDIRECT) in *.
  pose proof (fo_used _ _ _ _ F IND ltac:(clia) H0) as (_ & Hd & _). change (slot x blk IND) with ind in Hd.
  assert (Hs : slot x blk bn = ind_entry blk ind (bn - NDIRECT)).
  { rewrite slot_indirect by done. fold ind. by rewrite (proj2 (Z.eqb_neq ind 0)). }
  unfold get_entry. rewrite (fo_dev _ _ _ _ F).
  destruct (fs_bread_run e p pid E s bl ∅ ∅ blk dsk ind (fs_tx _ _ _ _ _ _ _ H) ltac:(set_solver) Hd) as (i & s1 & E1 & (T1 & F1 & _) & Hh);
    [rewrite size_empty; lia|].
  rewrite (bind_step _ _ _ _ _ _ _ E1).
  rewrite (bind_step _ _ _ _ _ _ _ (buf_data_run e p pid E s1 _ _ _ _ _ ind i T1 ltac:(set_solver) Hh)). cbv zeta.
  change (ld 4 _ (blk ind)) with (ind_entry blk ind (bn - NDIRECT)). rewrite <- Hs.
  replace ({[ind]} ∪ ∅ : gset Z) with ({[ind]} : gset Z) in T1 by set_solver.
  assert (Hend : forall s2 bl2 blk2 (a : Z), moved pid s1 s2 {[ind]} bl2 {[ind]} ∅ blk2 dsk ->
            exists s3, (fs_brelse i ;; ret a) e s2 = Ret a e s3 /\ tx pid (fs_log s3) bl2 ∅ ∅ blk2 dsk /\ frame s s3).
  { intros s2 bl2 blk2 a (T2 & F2 & K2). assert (H2 : handle (fbio s2) i ind) by (apply K2; [set_solver|done]).
    destruct (fs_brelse_run e p pid E s2 _ _ _ _ _ ind i T2 ltac:(set_solver) ltac:(set_solver) H2) as (s3 & E3 & T3 & F3 & _).
    exists s3. split; [unfold bind; by rewrite E3|]. split; [|apply (frame_trans _ s1); [done|by apply (frame_trans _ s2)]].
    by replace ({[ind]} ∖ {[ind]} : gset Z) with (∅ : gset Z) in T3 by set_solver. }
  destruct (Z.eqb_spec (slot x blk bn) 0) as [Hz|Hz].
  - assert (F' : file_ok (l_start (fs_log s1)) (fs_sb s1) blk x) by (by rewrite (proj2 F1), (frame_sb _ _ F1)).
    destruct (fill_entry_run s1 bl blk dsk x (bn - NDIRECT) i ind T1 Hh F' eq_refl H0) as (r & s2 & bl2 & blk2 & E2 & M2 & Hl & Hc);
      [clia|done|]. rewrite (bind_step _ _ _ _ _ _ _ E2). destruct (Hend s2 bl2 blk2 r M2) as (s3 & E3 & T3 & F3).
    rewrite E3, (frame_sb _ _ F1) in *. destruct Hc as [(Hr0 & Hf & ->)|(-> & Hno & ->)].
    + pose proof (grown_entry _ _ bn r x blk F Hf Hbn H0 Hz) as G.
      destruct (fstate_frame s s3 bl blk dsk x _ _ H F3 T3 (gr_ok _ _ _ _ _ _ _ G)) as [H3 I3].
      eexists _, _, _, _. split; [reflexivity|]. split; [exact H3|exact I3|exact G| |done|congruence|congruence].
      rewrite slot_indirect by done. fold ind. rewrite (proj2 (Z.eqb_neq ind 0)) by done.
      rewrite ind_entry_filled; [by rewrite Z.eqb_refl|apply alloc_length; [apply F|done]| |clia|clia].
      pose proof (proj1 Hf). pose proof (mo_size _ _ _ _ (fo_map _ _ _ _ F)). lia.
    + destruct (fstate_frame s s3 bl blk dsk x bl2 blk H F3 T3 F) as [H3 I3].
      eexists _, _, _, _. split; [reflexivity|]. by split; [exact H3|exact I3|apply grown_refl|rewrite Hz| |congruence|].
  - rewrite bind_ret. destruct (Hend s1 bl blk (slot x blk bn) (moved_same _ _ _ _ _ _ _ _ T1)) as (s3 & E3 & T3 & F3). rewrite E3.
    destruct (fstate_frame s s3 bl blk dsk x bl blk H F3 T3 F) as [H3 I3].
    eexists _, _, _, _. split; [reflexivity|].
    split; [exact H3|exact I3|by apply grown_refl|done|lia|done|congruence].
Qed.

Lemma bmap_run s bl blk dsk x bn : fstate pid ip s bl blk dsk x -> 0 <= bn < IND -> (length bl + 6 < NBUF)%nat ->
  exists a s' bl' blk' x', bmap ip bn e s = Ret a e s' /\ mapped_to s bl blk dsk x bn a s' bl' blk' x' 5.
Proof.
  intros H Hbn Hn. destruct (Z.lt_ge_cases bn NDIRECT) as [Hd|Hd].
  { destruct (bmap_direct s bl blk dsk x bn H ltac:(lia) Hn) as (a & s' & bl' & blk' & x' & Eb & []).
    exists a, s', bl', blk', x'. split; [done|]. split; try done. lia. }
  rewrite (bmap_indirect s x bn (fs_ino _ _ _ _ _ _ _ H)) by lia.
  destruct (get_ind_run s bl blk dsk x bn H Hn) as (a & s1 & bl1 & blk1 & x1 & E1 & H1 & I1 & G1 & -> & Hl1 & Hsame & Hfull).
  pose proof (fs_file _ _ _ _ _ _ _ H) as F. rewrite (bind_step _ _ _ _ _ _ _ E1).
  assert (Hss : slot x blk bn <> 0 -> addr x NDIRECT <> 0).
  { rewrite slot_indirect by lia. destruct (Z.eqb_spec (addr x NDIRECT) 0); [by intros []|done]. }
  destruct (Z.eqb_spec (addr x1 NDIRECT) 0) as [H0|H0].
  - unfold ret. exists 0, s1, bl1, blk1, x1. split; [done|]. split; [done|done|done| |lia|by auto|by auto].
    rewrite slot_indirect by lia. by rewrite H0.
  - assert (Hx : i_dev x = i_dev x1) by (by rewrite (gr_same _ _ _ _ _ _ _ G1)). unfold get_entry. rewrite Hx.
    destruct (get_entry_run s1 bl1 blk1 dsk x1 bn H1 ltac:(lia) H0 ltac:(lia)) as (a & s2 & bl2 & blk2 & E2 & M).
    exists a, s2, bl2, blk2, x1. split; [exact E2|].
    assert (Hst : l_start (fs_log s1) = l_start (fs_log s)) by apply I1. assert (Hsb : fs_sb s1 = fs_sb s) by apply I1.
    destruct M as [M1 M2 M3 M4 M5 M6 M7]. rewrite Hst, Hsb in *. split; [done|by apply (iframe_trans _ _ s1)|by apply (grown_trans _ _ _ _ _ x1 blk1)|done|lia| |done].
    intros Hz. destruct (Hsame (Hss Hz)) as (-> & -> & ->). by apply M6.
Qed.

End Bmap.
