(* ===== verification/FsData.v ===== *)
(** * kernel/fs.c: reading and writing files

    [readi] and [writei], for kernel buffers, against the contents of a file: the
    bytes of the blocks in its slots, in order. *)

From stdpp Require Import base gmap sets list strings.
From Stdlib Require Import ZArith Lia.
From S2P Require Import Prelude Kernel Riscv Kalloc Vm Sched Sleeplock Bytes Bio Log Usr Fs Tx FsBlock FsInode.

(** ** Specification *)

(** Byte [j] of the file, and [n] bytes from [off] on *)
Definition fbyte (x : inode) (blk : Z -> list Z) (j : Z) : Z :=
  default 0 (blk (slot x blk (j / BSIZE)) !! Z.to_nat (j mod BSIZE)).
Definition fbytes (x : inode) (blk : Z -> list Z) (off n : Z) : list Z := (fun j => fbyte x blk (off + j)) <$> seqZ 0 n.

(** Every block of the bytes from [off] to [off + n] is allocated. *)
Definition backed (x : inode) (blk : Z -> list Z) (off n : Z) : Prop :=
  forall j, off <= j < off + n -> slot x blk (j / BSIZE) <> 0.

Definition contents (x : inode) (blk : Z -> list Z) : list Z := fbytes x blk 0 (i_size x).

(** The most bytes a file can have *)
Definition MAXBYTES : Z := IND * BSIZE.

(** ** Positions *)

Lemma BSIZE_pos : 0 < BSIZE.
Proof. done. Qed.

Lemma off_split off : 0 <= off -> 0 <= off / BSIZE /\ 0 <= off mod BSIZE < BSIZE /\ off = BSIZE * (off / BSIZE) + off mod BSIZE.
Proof.
  intros H. split; [apply Z.div_pos; [done|apply BSIZE_pos]|]. split; [apply Z.mod_pos_bound, BSIZE_pos|].
  apply Z.div_mod. done.
Qed.

(** Positions in the block of [off] *)
Lemma same_block off i : 0 <= off -> 0 <= i -> off mod BSIZE + i < BSIZE ->
  (off + i) / BSIZE = off / BSIZE /\ (off + i) mod BSIZE = off mod BSIZE + i.
Proof.
  intros H0 Hi Hl. destruct (off_split off H0) as (H1 & H2 & H3). pose proof BSIZE_pos.
  assert (Hd : (off + i) / BSIZE = off / BSIZE).
  { symmetry. apply (Z.div_unique_pos _ _ _ (off mod BSIZE + i)); lia. }
  split; [done|]. rewrite Z.mod_eq, Hd by lia. lia.
Qed.

Lemma block_index off : 0 <= off < MAXBYTES -> 0 <= off / BSIZE < IND.
Proof.
  intros H. split; [apply Z.div_pos; [lia|apply BSIZE_pos]|]. apply Z.div_lt_upper_bound; [apply BSIZE_pos|].
  unfold MAXBYTES in H. lia.
Qed.

(** The number of turns the loops take for [n] bytes at [off] *)
Definition turns (off n : Z) : Z := if n <=? 0 then 0 else (off + n - 1) / BSIZE - off / BSIZE + 1.

(** The bytes one turn moves *)
Definition chunk (off n : Z) : Z := Z.min n (BSIZE - off mod BSIZE).

Lemma chunk_range off n : 0 <= off -> 0 < n -> 0 < chunk off n <= n /\ off mod BSIZE + chunk off n <= BSIZE /\ chunk off n <= BSIZE.
Proof. intros H0 Hn. destruct (off_split off H0) as (_ & H2 & _). unfold chunk. lia. Qed.

Lemma turns_next off n : 0 <= off -> 0 < n -> turns off n = 1 + turns (off + chunk off n) (n - chunk off n).
Proof.
  intros H0 Hn. destruct (off_split off H0) as (H1 & H2 & H3). pose proof BSIZE_pos as HB.
  unfold turns. rewrite (proj2 (Z.leb_gt n 0)) by lia. unfold chunk. destruct (Z.le_gt_cases n (BSIZE - off mod BSIZE)) as [Hs|Hl].
  - rewrite Z.min_l by done. rewrite Z.sub_diag. cbn [Z.leb]. rewrite (proj2 (Z.leb_le 0 0)) by lia.
    replace (off + n - 1) with (off + (n - 1)) by lia.
    destruct (same_block off (n - 1)) as [-> _]; lia.
  - rewrite Z.min_r by lia. rewrite (proj2 (Z.leb_gt _ 0)) by lia.
    replace (off + (BSIZE - off mod BSIZE)) with ((off / BSIZE + 1) * BSIZE) by lia.
    rewrite Z.div_mul by lia. replace ((off / BSIZE + 1) * BSIZE + (n - (BSIZE - off mod BSIZE)) - 1) with (off + n - 1) by lia. lia.
Qed.

Lemma turns_nonneg off n : 0 <= off -> 0 <= turns off n.
Proof.
  intros H0. unfold turns. destruct (Z.leb_spec n 0); [lia|].
  assert (off / BSIZE <= (off + n - 1) / BSIZE) by (apply Z.div_le_mono; [apply BSIZE_pos|lia]). lia.
Qed.

Lemma turns_fuel off n : 0 <= off -> 0 <= n -> turns off n <= Z.of_nat (rw_fuel n).
Proof.
  intros H0 Hn. unfold turns, rw_fuel. pose proof (Z.div_pos n BSIZE Hn BSIZE_pos) as Hq. rewrite Z2Nat.id by lia.
  destruct (Z.leb_spec n 0) as [Hz|Hz]; [lia|]. destruct (off_split off H0) as (H1 & H2 & H3). destruct (off_split n Hn) as (H4 & H5 & H6).
  assert ((off + n - 1) / BSIZE < off / BSIZE + n / BSIZE + 2); [|lia].
  apply Z.div_lt_upper_bound; [apply BSIZE_pos|]. lia.
Qed.

(** Part of a block is part of the file. *)
Lemma fbytes_slice x blk off n : 0 <= off -> 0 <= n -> off mod BSIZE + n <= BSIZE ->
  length (blk (slot x blk (off / BSIZE))) = bsize ->
  slice (Z.to_nat (off mod BSIZE)) (Z.to_nat n) (blk (slot x blk (off / BSIZE))) = fbytes x blk off n.
Proof.
  intros H0 Hn Hl Hb. destruct (off_split off H0) as (_ & H2 & _).
  apply (list_eq_same_length _ _ (Z.to_nat n)).
  - unfold fbytes. by rewrite length_fmap, length_seqZ.
  - rewrite length_slice; [done|]. rewrite Hb. change bsize with (Z.to_nat BSIZE). lia.
  - intros i a b Hi Ha Hb'. unfold fbytes in Hb'. rewrite list_lookup_fmap in Hb'.
    rewrite (proj2 (lookup_seqZ 0 n i (Z.of_nat i))) in Hb' by lia. cbn in Hb'. injection Hb' as <-.
    rewrite lookup_slice in Ha by done. unfold fbyte. destruct (same_block off (Z.of_nat i)) as [-> ->]; [lia..|].
    replace (Z.to_nat (off mod BSIZE + Z.of_nat i)) with (Z.to_nat (off mod BSIZE) + i)%nat by lia. by rewrite Ha.
Qed.

Lemma fbytes_app x blk off n m : 0 <= n -> 0 <= m -> fbytes x blk off (n + m) = fbytes x blk off n ++ fbytes x blk (off + n) m.
Proof.
  intros Hn Hm. unfold fbytes. rewrite seqZ_app, fmap_app by lia. f_equal.
  apply list_eq. intros i. rewrite !list_lookup_fmap. destruct (decide (Z.of_nat i < m)) as [Hi|Hi].
  - rewrite (proj2 (lookup_seqZ (0 + n) m i (0 + n + Z.of_nat i))), (proj2 (lookup_seqZ 0 m i (Z.of_nat i))) by lia.
    cbn. do 2 f_equal. lia.
  - assert (Hnone : forall a, seqZ a m !! i = None) by (intros a; apply lookup_ge_None; rewrite length_seqZ; lia). by rewrite !Hnone.
Qed.

Section Data.
Context `{L : Linker} (e : env) (p : nat) (pid : Z) (E : lenv e p pid) (ip : nat).

(** ** Kernel buffers *)

(** The current process has an entry of the process table. *)
Definition has_proc (s : fs) : Prop := is_Some (u_pd (fs_usr s) !! p).

Lemma cur_run (s : usr) : curproc e s = Ret p e s.
Proof. apply curproc_run, (rn_cur _ _ _ (be_runs _ _ _ (le_benv _ _ _ E))). Qed.

Lemma copyout_kernel s l : has_proc s -> zoom (S := fs) (either_copyout ToKernel l) e s = Ret (0, l) e s.
Proof.
  intros [d Hd]. unfold either_copyout, zoom. rewrite (bind_step _ _ _ _ _ _ _ (cur_run _)).
  unfold bind, getpd. cbn. rewrite Hd. by destruct s.
Qed.

Lemma copyin_kernel s l n : has_proc s -> zoom (S := fs) (either_copyin (FromKernel l) n) e s = Ret (0, take (Z.to_nat n) l) e s.
Proof.
  intros [d Hd]. unfold either_copyin, zoom. rewrite (bind_step _ _ _ _ _ _ _ (cur_run _)).
  unfold bind, getpd. cbn. rewrite Hd. by destruct s.
Qed.

Lemma iframe_proc s s' : iframe ip s s' -> has_proc s -> has_proc s'.
Proof. intros (H & _) Hp. unfold has_proc. by rewrite H. Qed.

(** ** [readi] *)

(** The state of the file is kept. *)
Definition kept (s s' : fs) (bl : list Z) (blk dsk : Z -> list Z) (x : inode) : Prop :=
  fstate pid ip s' bl blk dsk x /\ iframe ip s s'.

(** Reading a block that is in use and giving it back *)
Lemma read_block s bl blk dsk x a : fstate pid ip s bl blk dsk x -> in_use (l_start (fs_log s)) (fs_sb s) blk a -> (length bl < NBUF)%nat ->
  exists i s1, fs_bread (i_dev x) a e s = Ret i e s1 /\ frame s s1 /\ buf_data i e s1 = Ret (blk a) e s1 /\
    exists s2, fs_brelse i e s1 = Ret tt e s2 /\ kept s s2 bl blk dsk x.
Proof.
  intros H (_ & Hd & _) Hn. pose proof (fs_file _ _ _ _ _ _ _ H) as F. rewrite (fo_dev _ _ _ _ F).
  destruct (fs_bread_run e p pid E s bl ∅ ∅ blk dsk a (fs_tx _ _ _ _ _ _ _ H)) as (i & s1 & E1 & (T1 & F1 & _) & Hh);
    [apply not_elem_of_empty|done|rewrite size_empty; lia|].
  exists i, s1. split; [done|]. split; [done|].
  split; [apply (buf_data_run e p pid E s1 _ _ _ _ _ a i T1); [set_solver|done]|].
  destruct (fs_brelse_run e p pid E s1 _ _ _ _ _ a i T1) as (s2 & E2 & T2 & F2 & _); [set_solver|set_solver|done|].
  exists s2. split; [done|]. replace (({[a]} ∪ ∅) ∖ {[a]} : gset Z) with (∅ : gset Z) in T2 by set_solver.
  apply (fstate_frame pid ip s s2 bl blk dsk x bl blk H); [by apply (frame_trans _ s1)|done|done].
Qed.

Lemma readi_loop_run f s bl blk dsk x off n tot acc : fstate pid ip s bl blk dsk x -> has_proc s -> (length bl + 6 < NBUF)%nat ->
  0 <= off -> 0 <= tot <= n -> n < 2 ^ 31 -> off + (n - tot) <= MAXBYTES -> backed x blk off (n - tot) ->
  turns off (n - tot) <= Z.of_nat f ->
  exists s', readi_loop f ip ToKernel off n tot acc e s = Ret (n, acc ++ fbytes x blk off (n - tot)) e s' /\ kept s s' bl blk dsk x.
Proof.
  revert s off tot acc. induction f as [|f IH]; intros s off tot acc H Hp Hn Ho Ht Hn31 Hmax Hb Hf; cbn [readi_loop].
  all: destruct (Z.ltb_spec tot n) as [Hlt|Hge].
  1: { rewrite turns_next in Hf by lia. pose proof (turns_nonneg (off + chunk off (n - tot)) (n - tot - chunk off (n - tot))).
       pose proof (chunk_range off (n - tot) Ho ltac:(lia)). lia. }
  1, 3: replace (n - tot) with 0 by lia; unfold ret; exists s; rewrite sint_wrap_small, app_nil_r by (cbn; lia);
    split; [do 3 f_equal; lia|by split; [|apply iframe_refl]].
  pose proof (turns_next off (n - tot) Ho ltac:(lia)) as Htn. pose proof (chunk_range off (n - tot) Ho ltac:(lia)) as Hc.
  set (m := chunk off (n - tot)) in *.
  assert (Hs0 : slot x blk (off / BSIZE) <> 0) by (apply Hb; lia). pose proof (fs_file _ _ _ _ _ _ _ H) as F.
  assert (Hbi : 0 <= off / BSIZE < IND) by (apply block_index; lia).
  destruct (bmap_run e p pid E ip s bl blk dsk x (off / BSIZE) H) as (a & s1 & bl1 & blk1 & x1 & E1 & M); [done|lia|].
  rewrite (bind_step _ _ _ _ _ _ _ E1). destruct (mt_same _ _ _ _ _ _ _ _ _ _ _ _ _ _ M Hs0) as (-> & -> & ->).
  pose proof (mt_addr _ _ _ _ _ _ _ _ _ _ _ _ _ _ M) as ->. rewrite (proj2 (Z.eqb_neq _ 0)) by done.
  pose proof (mt_state _ _ _ _ _ _ _ _ _ _ _ _ _ _ M) as H1. pose proof (mt_frame _ _ _ _ _ _ _ _ _ _ _ _ _ _ M) as I1.
  rewrite (bind_step _ _ _ _ _ _ _ (geti_run e ip s1 x (fs_ino _ _ _ _ _ _ _ H1))).
  pose proof (fs_file _ _ _ _ _ _ _ H1) as F1.
  destruct (read_block s1 bl blk dsk x _ H1 (fo_used _ _ _ _ F1 (off / BSIZE) ltac:(lia) Hs0) ltac:(lia)) as (i & s2 & E2 & F2 & E3 & s3 & E4 & H3 & I3).
  rewrite (bind_step _ _ _ _ _ _ _ E2). cbv zeta. fold (chunk off (n - tot)). fold m. rewrite (bind_step _ _ _ _ _ _ _ E3).
  assert (Hp2 : has_proc s2) by (apply (iframe_proc s1); [by apply frame_iframe|by apply (iframe_proc s)]).
  rewrite (bind_step _ _ _ _ _ _ _ (copyout_kernel s2 _ Hp2)). cbn [fst snd]. change (0 =? -1) with false. cbv iota. rewrite (bind_step _ _ _ _ _ _ _ E4).
  rewrite fbytes_slice by (lia || apply F). cbn [dest_skip].
  assert (u32 (off + m) = off + m) as ->. { apply uint_wrap_small. unfold MAXBYTES, BSIZE in *. clia. }
  destruct (IH s3 (off + m) (tot + m) (acc ++ fbytes x blk off m) H3) as (s' & E' & H' & I'); try lia.
  - by apply (iframe_proc s1), (iframe_proc s).
  - intros j Hj. apply Hb. lia.
  - replace (n - (tot + m)) with (n - tot - m) by lia. lia.
  - exists s'. split; [|split; [done|by apply (iframe_trans _ _ s1); [|apply (iframe_trans _ _ s3)]]].
    rewrite E'. do 2 f_equal. rewrite <- app_assoc, <- fbytes_app by lia. do 2 f_equal. lia.
Qed.

(** The number of bytes [readi] reads: none past the end of the file or if
    [off + n] overflows. *)
Definition read_count (x : inode) (off n : Z) : Z :=
  if (i_size x <? off) || (2 ^ 32 <=? off + n) then 0 else Z.min n (i_size x - off).

Lemma u32_overflow off n : 0 <= off < 2 ^ 32 -> 0 <= n < 2 ^ 32 -> (u32 (off + n) <? off) = (2 ^ 32 <=? off + n).
Proof.
  intros Ho Hn. unfold uint_wrap. destruct (Z.leb_spec (2 ^ 32) (off + n)) as [H|H].
  - apply Z.ltb_lt. rewrite <- (Z.mod_unique (off + n) (2 ^ 32) 1 (off + n - 2 ^ 32)); lia.
  - apply Z.ltb_ge. rewrite Z.mod_small; lia.
Qed.

Lemma readi_run s bl blk dsk x off n : fstate pid ip s bl blk dsk x -> has_proc s -> (length bl + 6 < NBUF)%nat ->
  0 <= i_size x <= MAXBYTES -> backed x blk 0 (i_size x) -> 0 <= off < 2 ^ 32 -> 0 <= n < 2 ^ 32 ->
  exists s', readi ip ToKernel off n e s = Ret (read_count x off n, fbytes x blk off (read_count x off n)) e s' /\ kept s s' bl blk dsk x.
Proof.
  intros H Hp Hl Hsz Hb Ho Hn. unfold readi. rewrite (bind_step _ _ _ _ _ _ _ (geti_run e ip s x (fs_ino _ _ _ _ _ _ _ H))).
  rewrite u32_overflow by done. unfold read_count. destruct (Z.ltb_spec (i_size x) off) as [H1|H1]; cbn [orb].
  { unfold ret. exists s. split; [done|]. by split; [|apply iframe_refl]. }
  destruct (Z.leb_spec (2 ^ 32) (off + n)) as [H2|H2].
  { unfold ret. exists s. split; [done|]. by split; [|apply iframe_refl]. }
  rewrite uint_wrap_small by lia.
  assert ((if i_size x <? off + n then i_size x - off else n) = Z.min n (i_size x - off)) as -> by (destruct (Z.ltb_spec (i_size x) (off + n)); lia).
  set (c := Z.min n (i_size x - off)). cbv zeta.
  destruct (readi_loop_run (rw_fuel c) s bl blk dsk x off c 0 [] H Hp Hl) as (s' & E' & K'); try (unfold MAXBYTES, BSIZE in *; clia).
  - intros j Hj. apply Hb. lia.
  - rewrite Z.sub_0_r. apply turns_fuel; lia.
  - exists s'. rewrite Z.sub_0_r in E'. by split.
Qed.

End Data.

(** ** Writing a block of a file *)

(** The bytes of [l] at [off] over the file [x]: what [writei] may do *)
Record wrote (start : Z) (sb : superblock) (x : inode) (blk : Z -> list Z) (x' : inode) (blk' : Z -> list Z)
    (off : Z) (l : list Z) : Prop := {
  wr_ok : file_ok start sb blk' x';
  wr_same : same_file x x';
  wr_keep : forall k, 0 <= k < IND -> slot x blk k <> 0 -> slot x' blk' k = slot x blk k;
  wr_back : backed x' blk' off (Z.of_nat (length l));
  wr_in : forall i b, l !! i = Some b -> fbyte x' blk' (off + Z.of_nat i) = b;
  wr_out : forall j, 0 <= j < MAXBYTES -> ~ (off <= j < off + Z.of_nat (length l)) -> slot x blk (j / BSIZE) <> 0 ->
     fbyte x' blk' j = fbyte x blk j;
  wr_zero : forall j, 0 <= j < MAXBYTES -> ~ (off <= j < off + Z.of_nat (length l)) -> slot x blk (j / BSIZE) = 0 ->
     slot x' blk' (j / BSIZE) <> 0 -> fbyte x' blk' j = 0;
  wr_free : forall b, is_free sb blk' b -> is_free sb blk b;
  wr_slots : forall k, 0 <= k <= IND -> slot x' blk' k <> slot x blk k -> is_free sb blk (slot x' blk' k);
  wr_meta : forall b, 0 <= b -> ~ is_free sb blk b -> (forall k, 0 <= k <= IND -> slot x blk k <> b) ->
     (forall b', 0 <= b' < sb_size sb -> b <> BBLOCK b' sb) -> blk' b = blk b
}.

Section Wrote.
Context (start : Z) (sb : superblock).

Lemma wrote_refl x blk off : file_ok start sb blk x -> wrote start sb x blk x blk off [].
Proof.
  intros F. split; try done; [apply same_file_refl|intros j Hj; cbn in Hj; lia].
Qed.

Lemma wrote_trans x blk x1 blk1 x2 blk2 off l1 l2 :
  0 <= off -> off + Z.of_nat (length (l1 ++ l2)) <= MAXBYTES ->
  wrote start sb x blk x1 blk1 off l1 -> wrote start sb x1 blk1 x2 blk2 (off + Z.of_nat (length l1)) l2 ->
  wrote start sb x blk x2 blk2 off (l1 ++ l2).
Proof.
  intros Ho Hmax W1 W2. rewrite length_app in Hmax.
  assert (Hbi : forall j, 0 <= j < MAXBYTES -> 0 <= j / BSIZE < IND) by (intros; by apply block_index).
  assert (Hk1 : forall k, 0 <= k < IND -> slot x1 blk1 k <> 0 -> slot x2 blk2 k <> 0) by (intros k Hk H0; by rewrite (wr_keep _ _ _ _ _ _ _ _ W2)).
  split.
  - apply W2.
  - apply (same_file_trans _ x1); [apply W1|apply W2].
  - intros k Hk H0. rewrite (wr_keep _ _ _ _ _ _ _ _ W2 k Hk); rewrite (wr_keep _ _ _ _ _ _ _ _ W1 k Hk H0); done.
  - intros j Hj. rewrite length_app in Hj. destruct (Z.lt_ge_cases j (off + Z.of_nat (length l1))).
    + apply Hk1; [apply Hbi; lia|]. apply (wr_back _ _ _ _ _ _ _ _ W1). lia.
    + apply (wr_back _ _ _ _ _ _ _ _ W2). lia.
  - intros i b Hi. apply lookup_app_Some in Hi as [Hi|[Hge Hi]].
    + pose proof (lookup_lt_Some _ _ _ Hi). rewrite (wr_out _ _ _ _ _ _ _ _ W2); [by apply (wr_in _ _ _ _ _ _ _ _ W1)|lia|lia|].
      apply (wr_back _ _ _ _ _ _ _ _ W1). lia.
    + rewrite <- (wr_in _ _ _ _ _ _ _ _ W2 _ _ Hi). f_equal. lia.
  - intros j Hj Hout H0. rewrite length_app in Hout.
    rewrite (wr_out _ _ _ _ _ _ _ _ W2) by (lia || (rewrite (wr_keep _ _ _ _ _ _ _ _ W1) by (by auto || apply Hbi; lia); done)).
    apply (wr_out _ _ _ _ _ _ _ _ W1); [done|lia|done].
  - intros j Hj Hout H0 H2. rewrite length_app in Hout. destruct (decide (slot x1 blk1 (j / BSIZE) = 0)) as [H1|H1].
    + apply (wr_zero _ _ _ _ _ _ _ _ W2); [done|lia|done|done].
    + rewrite (wr_out _ _ _ _ _ _ _ _ W2) by (done || lia). apply (wr_zero _ _ _ _ _ _ _ _ W1); [done|lia|done|done].
  - intros b Hb. by apply (wr_free _ _ _ _ _ _ _ _ W1), (wr_free _ _ _ _ _ _ _ _ W2).
  - intros k Hk Hne. destruct (decide (slot x2 blk2 k = slot x1 blk1 k)) as [Heq|Hne'].
    + rewrite Heq in *. by apply (wr_slots _ _ _ _ _ _ _ _ W1).
    + apply (wr_free _ _ _ _ _ _ _ _ W1). by apply (wr_slots _ _ _ _ _ _ _ _ W2).
  - intros b Hb0 Hb Hs Hm. rewrite <- (wr_meta _ _ _ _ _ _ _ _ W1 b Hb0 Hb Hs Hm). apply (wr_meta _ _ _ _ _ _ _ _ W2); try done.
    + intros Hf. apply Hb. by apply (wr_free _ _ _ _ _ _ _ _ W1).
    + intros k Hk Heq. destruct (decide (slot x1 blk1 k = slot x blk k)) as [H1|H1]; [apply (Hs k Hk); congruence|].
      apply Hb. rewrite <- Heq. by apply (wr_slots _ _ _ _ _ _ _ _ W1).
Qed.

Lemma length_zeros : length zeros = bsize.
Proof. apply length_replicate. Qed.

(** What [bmap] does writes no byte. *)
Lemma wrote_grown bn x blk x' blk' off : file_ok start sb blk x -> grown start sb bn x blk x' blk' -> wrote start sb x blk x' blk' off [].
Proof.
  intros F G. split; [apply G|apply G| |intros j Hj; cbn in Hj; lia|done| | |apply G| |apply G].
  - intros k Hk. apply (gr_keep _ _ _ _ _ _ _ G). lia.
  - intros j Hj _ H0. pose proof (block_index j Hj). unfold fbyte. rewrite (gr_keep _ _ _ _ _ _ _ G) by (done || lia).
    by rewrite (gr_data _ _ _ _ _ _ _ G).
  - intros j Hj _ H0 H1. unfold fbyte. rewrite (gr_new _ _ _ _ _ _ _ G) by (done || by apply block_index).
    unfold zeros. destruct (decide (Z.to_nat (j mod BSIZE) < bsize)%nat) as [Hlt|Hge].
    + by rewrite lookup_replicate_2.
    + rewrite lookup_ge_None_2; [done|]. rewrite length_replicate. lia.
  - intros k Hk Hne. destruct (decide (slot x blk k = 0)) as [H0|H0].
    + apply (gr_fresh _ _ _ _ _ _ _ G); [done|done|congruence].
    + by rewrite (gr_keep _ _ _ _ _ _ _ G) in Hne.
Qed.

(** A block that is not the indirect block nor a map block is replaced. *)
Lemma store_slot x blk a d k : a <> addr x NDIRECT -> slot x (upd blk a d) k = slot x blk k.
Proof. intros Hne. apply slot_blk. intros _. by apply upd_ne. Qed.

Lemma store_free blk a d b : (forall b', 0 <= b' < sb_size sb -> a <> BBLOCK b' sb) -> is_free sb (upd blk a d) b <-> is_free sb blk b.
Proof. intros Hm. unfold is_free. split; intros [H1 H2]; (split; [done|]); rewrite upd_ne in *; (done || by apply not_eq_sym, Hm). Qed.

Lemma store_file_ok x blk a d : file_ok start sb blk x -> a <> addr x NDIRECT -> length d = bsize ->
  (forall b', 0 <= b' < sb_size sb -> a <> BBLOCK b' sb) -> file_ok start sb (upd blk a d) x.
Proof.
  intros F Ha Hd Hm. split; [apply F|apply F| | | | |].
  - destruct (fo_map _ _ _ _ F) as [M1 M2 M3]. split; [done|done|]. intros b Hb. apply store_free in Hb; [by apply M3|done].
  - intros H0. apply store_free in H0; [|done]. by apply (fo_boot _ _ _ _ F).
  - intros b. unfold upd. destruct (b =? a); [done|apply F].
  - intros k Hk. rewrite store_slot by done. intros H0. destruct (fo_used _ _ _ _ F k Hk H0) as (H1 & H2 & H3 & H4).
    split_and!; try done; [apply H1..|]. by rewrite store_free.
  - intros j k Hj Hk. rewrite !store_slot by done. by apply F.
Qed.

(** The bytes of [l] are stored in the block of [off]. *)
Lemma wrote_store x blk off l : file_ok start sb blk x -> 0 <= off < MAXBYTES -> slot x blk (off / BSIZE) <> 0 ->
  off mod BSIZE + Z.of_nat (length l) <= BSIZE ->
  let a := slot x blk (off / BSIZE) in
  wrote start sb x blk x (upd blk a (splice (Z.to_nat (off mod BSIZE)) l (blk a))) off l.
Proof.
  intros F Ho H0 Hl a. pose proof (block_index off Ho) as Hbi. destruct (off_split off (proj1 Ho)) as (_ & Hmod & _).
  assert (Hai : a <> addr x NDIRECT).
  { intros Heq. rewrite <- (slot_IND x blk) in Heq. apply (fo_inj _ _ _ _ F) in Heq; [lia|lia|clia|done]. }
  destruct (fo_used _ _ _ _ F (off / BSIZE) ltac:(lia) H0) as (_ & _ & _ & Hm). fold a in Hm.
  set (d := splice _ _ _). assert (Hd : length d = bsize).
  { unfold d. rewrite length_splice; rewrite (fo_size _ _ _ _ F); [done|]. change bsize with (Z.to_nat BSIZE). lia. }
  assert (Hlk : forall i, d !! i = if decide (Z.to_nat (off mod BSIZE) <= i < Z.to_nat (off mod BSIZE) + length l)%nat
                                  then l !! (i - Z.to_nat (off mod BSIZE))%nat else blk a !! i).
  { intros i. apply lookup_splice. rewrite (fo_size _ _ _ _ F). change bsize with (Z.to_nat BSIZE). lia. }
  assert (Hs : forall k, slot x (upd blk a d) k = slot x blk k) by (intros k; by apply store_slot).
  split; [by apply store_file_ok|apply same_file_refl|intros k Hk _; apply Hs| | | | | | |].
  - intros j Hj. rewrite Hs. replace j with (off + (j - off)) by lia. destruct (same_block off (j - off)) as [-> _]; [lia..|done].
  - intros i b Hi. pose proof (lookup_lt_Some _ _ _ Hi). unfold fbyte. rewrite Hs.
    destruct (same_block off (Z.of_nat i)) as [-> ->]; [lia..|]. fold a. rewrite upd_at, Hlk, decide_True by lia.
    replace (Z.to_nat (off mod BSIZE + Z.of_nat i) - Z.to_nat (off mod BSIZE))%nat with i by lia. by rewrite Hi.
  - intros j Hj Hout Hj0. unfold fbyte. rewrite Hs. destruct (decide (slot x blk (j / BSIZE) = a)) as [Heq|Hne]; [|by rewrite upd_ne].
    rewrite Heq, upd_at, Hlk. rewrite decide_False; [done|]. intros Hr. apply Hout.
    assert (Hb : j / BSIZE = off / BSIZE) by (apply (fo_inj _ _ _ _ F); [pose proof (block_index j Hj); lia|lia|done|done]).
    destruct (off_split j (proj1 Hj)) as (_ & ? & ->), (off_split off (proj1 Ho)) as (_ & _ & Hoff). rewrite Hb. lia.
  - intros j Hj _ Hz Hnz. rewrite Hs in Hnz. done.
  - intros b Hb. by apply store_free in Hb.
  - intros k _ Hne. by rewrite Hs in Hne.
  - intros b _ _ Hns _. apply upd_ne. intros ->. by apply (Hns (off / BSIZE)); [lia|].
Qed.

End Wrote.

(** ** [writei] *)

Section Write.
Context `{L : Linker} (e : env) (p : nat) (pid : Z) (E : lenv e p pid) (ip : nat).

(** A block outside the map is read, changed, logged and released. *)
Lemma write_block s bl blk dsk x a f : fstate pid ip s bl blk dsk x -> is_data (l_start (fs_log s)) a -> a <> addr x NDIRECT ->
  (forall b', 0 <= b' < sb_size (fs_sb s) -> a <> BBLOCK b' (fs_sb s)) ->
  (length bl + 1 <= NBUF)%nat -> length (f (blk a)) = bsize ->
  exists i s1 s2, fs_bread (i_dev x) a e s = Ret i e s1 /\ frame s s1 /\
    (buf_update i f ;; fs_log_write i ;; fs_brelse i) e s1 = Ret tt e s2 /\
    fstate pid ip s2 (log_add a bl) (upd blk a (f (blk a))) dsk x /\ iframe ip s s2.
Proof.
  intros H Hd Hai Hm Hn Hf. pose proof (fs_file _ _ _ _ _ _ _ H) as F. rewrite (fo_dev _ _ _ _ F).
  destruct (fs_bread_run e p pid E s bl ∅ ∅ blk dsk a (fs_tx _ _ _ _ _ _ _ H)) as (i & s1 & E1 & (T1 & F1 & _) & Hh);
    [apply not_elem_of_empty|done|rewrite size_empty; lia|].
  destruct (change_block e p pid E s1 _ _ _ _ _ a i f T1) as (s2 & E2 & T2 & F2 & _);
    [set_solver|set_solver|done|done|by rewrite (proj2 F1)|unfold LOGSIZE, MAXOPBLOCKS; change NBUF with 30%nat in Hn; lia|].
  exists i, s1, s2. split; [done|]. split; [done|]. split; [done|].
  replace (({[a]} ∪ ∅) ∖ {[a]} : gset Z) with (∅ : gset Z) in T2 by set_solver.
  apply (fstate_frame pid ip s s2 bl blk dsk x _ _ H); [by apply (frame_trans _ s1)|done|by apply store_file_ok].
Qed.

(** The block of [off] gets the bytes of [l]. *)
Lemma put_block s bl blk dsk x off l : fstate pid ip s bl blk dsk x -> 0 <= off < MAXBYTES -> slot x blk (off / BSIZE) <> 0 ->
  off mod BSIZE + Z.of_nat (length l) <= BSIZE -> (length bl + 1 <= NBUF)%nat ->
  let a := slot x blk (off / BSIZE) in
  let f := splice (Z.to_nat (off mod BSIZE)) l in
  exists i s1 s2, fs_bread (i_dev x) a e s = Ret i e s1 /\ frame s s1 /\
    (buf_update i f ;; fs_log_write i ;; fs_brelse i) e s1 = Ret tt e s2 /\
    fstate pid ip s2 (log_add a bl) (upd blk a (f (blk a))) dsk x /\ iframe ip s s2 /\
    wrote (l_start (fs_log s)) (fs_sb s) x blk x (upd blk a (f (blk a))) off l.
Proof.
  intros H Ho H0 Hl Hn a f. pose proof (fs_file _ _ _ _ _ _ _ H) as F. pose proof (block_index off Ho) as Hbi.
  destruct (fo_used _ _ _ _ F (off / BSIZE) ltac:(lia) H0) as (_ & Hd & _ & Hm).
  pose proof (wrote_store _ _ x blk off l F Ho H0 Hl) as W. cbv zeta in W. fold a f in W.
  destruct (write_block s bl blk dsk x a f H Hd) as (i & s1 & s2 & E1 & F1 & E2 & H2 & I2); [|exact Hm|done| |].
  - intros Heq. rewrite <- (slot_IND x blk) in Heq. apply (fo_inj _ _ _ _ F) in Heq; [lia|lia|clia|done].
  - pose proof (fo_size _ _ _ _ (wr_ok _ _ _ _ _ _ _ _ W) a) as Hsz. by rewrite upd_at in Hsz.
  - exists i, s1, s2. by split_and!; try apply I2.
Qed.

(** Result of writing [l] at [off]: [c] bytes were written, all of them unless the
    disk is full. *)
Record written (s : fs) (bl : list Z) (blk dsk : Z -> list Z) (x : inode) (off : Z) (l : list Z) (c : Z)
    (s' : fs) (bl' : list Z) (blk' : Z -> list Z) (x' : inode) (cost : Z) : Prop := {
  wn_state : fstate pid ip s' bl' blk' dsk x';
  wn_frame : iframe ip s s';
  wn_wrote : wrote (l_start (fs_log s)) (fs_sb s) x blk x' blk' off (take (Z.to_nat c) l);
  wn_count : 0 <= c <= Z.of_nat (length l);
  wn_log : Z.of_nat (length bl') <= Z.of_nat (length bl) + cost;
  wn_full : c < Z.of_nat (length l) -> forall b, ~ is_free (fs_sb s) blk' b
}.

(** One turn of the loop *)
Lemma written_next s bl blk dsk x off l s1 bl1 blk1 x1 m c s' bl' blk' x' t1 t2 :
  0 <= off -> 0 <= m <= Z.of_nat (length l) -> off + Z.of_nat (length l) <= MAXBYTES ->
  iframe ip s s1 -> wrote (l_start (fs_log s)) (fs_sb s) x blk x1 blk1 off (take (Z.to_nat m) l) ->
  Z.of_nat (length bl1) <= Z.of_nat (length bl) + t1 ->
  written s1 bl1 blk1 dsk x1 (off + m) (drop (Z.to_nat m) l) c s' bl' blk' x' t2 ->
  written s bl blk dsk x off l (m + c) s' bl' blk' x' (t1 + t2).
Proof.
  intros Ho Hm Hmax I1 W1 Hl [H I W C Hl' Hf]. rewrite length_drop in C, Hf.
  assert (Hst : l_start (fs_log s1) = l_start (fs_log s)) by apply I1. assert (Hsb : fs_sb s1 = fs_sb s) by apply I1.
  rewrite Hst, Hsb in *. split; [done|by apply (iframe_trans _ _ s1)| |lia|lia|intros Hc; apply Hf; lia].
  assert (Ht : take (Z.to_nat (m + c)) l = take (Z.to_nat m) l ++ take (Z.to_nat c) (drop (Z.to_nat m) l)).
  { rewrite <- (take_drop (Z.to_nat m) l) at 1. rewrite take_app_ge; rewrite length_take_le by lia; [|lia]. do 2 f_equal. lia. }
  rewrite Ht. apply (wrote_trans _ _ x blk x1 blk1); [done| |done|].
  - rewrite <- Ht, length_take. lia.
  - rewrite length_take_le, Z2Nat.id by lia. done.
Qed.

Lemma writei_loop_run f s bl blk dsk x off n tot l : fstate pid ip s bl blk dsk x -> has_proc p s ->
  0 <= off -> 0 <= tot -> Z.of_nat (length l) = n - tot -> off + (n - tot) <= MAXBYTES ->
  turns off (n - tot) <= Z.of_nat f -> Z.of_nat (length bl) + 6 * turns off (n - tot) < Z.of_nat NBUF ->
  exists c s' bl' blk' x', writei_loop f ip (FromKernel l) off n tot e s = Ret (tot + c, off + c) e s' /\
    written s bl blk dsk x off l c s' bl' blk' x' (6 * turns off (n - tot)).
Proof.
  revert s bl blk x off tot l. induction f as [|f IH]; intros s bl blk x off tot l H Hp Ho Ht Hl Hmax Hf Hn; cbn [writei_loop].
  all: destruct (Z.ltb_spec tot n) as [Hlt|Hge].
  1: { rewrite turns_next in Hf by lia. pose proof (turns_nonneg (off + chunk off (n - tot)) (n - tot - chunk off (n - tot))).
       pose proof (chunk_range off (n - tot) Ho ltac:(lia)). lia. }
  1, 3: unfold ret; exists 0, s, bl, blk, x; rewrite !Z.add_0_r; split; [done|]; pose proof (turns_nonneg off (n - tot) Ho);
    split; [done|apply iframe_refl|apply wrote_refl, H|lia|lia|lia].
  pose proof (turns_next off (n - tot) Ho ltac:(lia)) as Htn. pose proof (chunk_range off (n - tot) Ho ltac:(lia)) as Hc.
  set (m := chunk off (n - tot)) in *. pose proof (turns_nonneg (off + m) (n - tot - m) ltac:(lia)) as Ht0.
  assert (Hbi : 0 <= off / BSIZE < IND) by (apply block_index; lia). pose proof (fs_file _ _ _ _ _ _ _ H) as F.
  destruct (bmap_run e p pid E ip s bl blk dsk x (off / BSIZE) H) as (a & s1 & bl1 & blk1 & x1 & E1 & [H1 I1 G1 -> Hl1 _ Hfull]); [done|lia|].
  rewrite (bind_step _ _ _ _ _ _ _ E1). pose proof (wrote_grown _ _ _ _ _ _ _ off F G1) as W1.
  destruct (Z.eqb_spec (slot x1 blk1 (off / BSIZE)) 0) as [H0|H0].
  { unfold ret. exists 0, s1, bl1, blk1, x1. rewrite !Z.add_0_r. split; [done|]. split; [done|done|done|lia|lia|auto]. }
  assert (Hlm : length (take (Z.to_nat m) l) = Z.to_nat m) by (rewrite length_take; lia).
  rewrite (bind_step _ _ _ _ _ _ _ (geti_run e ip s1 x1 (fs_ino _ _ _ _ _ _ _ H1))).
  destruct (put_block s1 bl1 blk1 dsk x1 off (take (Z.to_nat m) l) H1) as (i & s2 & s3 & E2 & F2 & E3 & H3 & I3 & W2); [lia|done|lia|lia|].
  set (a := slot x1 blk1 (off / BSIZE)) in *.
  rewrite (bind_step _ _ _ _ _ _ _ E2). cbv zeta. fold (chunk off (n - tot)). fold m.
  assert (Hp2 : has_proc p s2) by (apply (iframe_proc p ip s1); [by apply frame_iframe|by apply (iframe_proc p ip s)]).
  rewrite (bind_step _ _ _ _ _ _ _ (copyin_kernel e p pid E s2 l m Hp2)). cbn [fst snd]. change (0 =? -1) with false. cbv iota.
  rewrite <- bind_assoc_3. rewrite (bind_step _ _ _ _ _ _ _ E3). cbn [source_skip].
  assert (u32 (off + m) = off + m) as ->. { apply uint_wrap_small. unfold MAXBYTES, BSIZE in *. clia. }
  assert (I13 : iframe ip s s3) by (by apply (iframe_trans _ _ s1)).
  pose proof (log_add_length a bl1) as Hla. replace (n - tot - m) with (n - (tot + m)) in * by lia.
  destruct (IH s3 _ _ x1 (off + m) (tot + m) (drop (Z.to_nat m) l) H3) as (c & s' & bl' & blk' & x' & E' & W'); try lia.
  - by apply (iframe_proc p ip s).
  - rewrite length_drop. lia.
  - exists (m + c), s', bl', blk', x'. rewrite E'. split; [do 2 f_equal; lia|].
    replace (6 * turns off (n - tot)) with (6 + 6 * turns (off + m) (n - (tot + m))) by lia.
    apply (written_next _ _ _ _ _ _ _ s3 (log_add a bl1) (upd blk1 a (splice (Z.to_nat (off mod BSIZE)) (take (Z.to_nat m) l) (blk1 a))) x1); try done; try lia.
    apply (wrote_trans _ _ x blk x1 blk1 x1 _ off [] (take (Z.to_nat m) l)); [done|cbn; lia|done|].
    cbn [length]. rewrite Z.add_0_r. by destruct I1 as (_ & <- & _ & <- & _).
Qed.

End Write.

(** ** The inode on disk *)

(** The fields of the inode fit their on-disk types. *)
Record ino_range (x : inode) : Prop := {
  ir_type : - 2 ^ 15 <= i_type x < 2 ^ 15;
  ir_major : - 2 ^ 15 <= i_major x < 2 ^ 15;
  ir_minor : - 2 ^ 15 <= i_minor x < 2 ^ 15;
  ir_nlink : - 2 ^ 15 <= i_nlink x < 2 ^ 15;
  ir_size : 0 <= i_size x < 2 ^ 32;
  ir_addrs : Forall (fun a => 0 <= a < 2 ^ 32) (i_addrs x);
  ir_len : length (i_addrs x) = 13%nat
}.

Definition addr_fill (x : inode) (o : nat) (ks : list Z) (d : list Z) : list Z :=
  foldl (fun d k => st 4 (o + off_addr k) (default 0 (i_addrs x !! Z.to_nat k)) d) d ks.

Lemma addr_fill_cons x o k ks d : addr_fill x o (k :: ks) d = addr_fill x o ks (st 4 (o + off_addr k) (default 0 (i_addrs x !! Z.to_nat k)) d).
Proof. reflexivity. Qed.

Definition slot_idx (k : Z) : Prop := 0 <= k < 13.

Lemma addr_slots_ok : Forall slot_idx addr_slots.
Proof. apply Forall_forall. intros k Hk%elem_of_seqZ. unfold slot_idx, NDIRECT in *. lia. Qed.

Lemma addr_fill_length x o ks d : (o + 64 <= length d)%nat -> Forall slot_idx ks -> length (addr_fill x o ks d) = length d.
Proof.
  revert d. induction ks as [|k ks IH]; intros d Hd Hk; [done|]. apply Forall_cons in Hk as [Hk Hks]. unfold slot_idx in Hk.
  assert (Hs : length (st 4 (o + off_addr k) (default 0 (i_addrs x !! Z.to_nat k)) d) = length d) by (apply length_st; unfold off_addr; lia).
  rewrite addr_fill_cons, IH by (done || lia). done.
Qed.

(** The table of blocks is apart from the bytes from [o'] to [o' + n]. *)
Lemma addr_fill_ne x o ks d n o' : (o + 64 <= length d)%nat -> (o' + n <= length d)%nat ->
  (o' + n <= o + 12 \/ o + 64 <= o')%nat -> Forall slot_idx ks -> ld n o' (addr_fill x o ks d) = ld n o' d.
Proof.
  revert d. induction ks as [|k ks IH]; intros d Hd Hn Hap Hk; [done|]. apply Forall_cons in Hk as [Hk Hks]. unfold slot_idx in Hk.
  assert (Hs : length (st 4 (o + off_addr k) (default 0 (i_addrs x !! Z.to_nat k)) d) = length d) by (apply length_st; unfold off_addr; lia).
  rewrite addr_fill_cons, IH by (done || lia). rewrite ld_st_ne; [done|unfold off_addr; lia..].
Qed.

Lemma addr_range x k : Forall (fun a => 0 <= a < 2 ^ 32) (i_addrs x) -> 0 <= addr x k < 2 ^ 32.
Proof.
  intros Hr. unfold addr. destruct (i_addrs x !! Z.to_nat k) eqn:Ek; cbn [default]; [|by split].
  by apply (proj1 (Forall_lookup _ _) Hr _ _ Ek).
Qed.

Lemma addr_fill_ld x o ks d k : (o + 64 <= length d)%nat -> Forall slot_idx ks -> NoDup ks -> slot_idx k ->
  Forall (fun a => 0 <= a < 2 ^ 32) (i_addrs x) ->
  ld 4 (o + off_addr k) (addr_fill x o ks d) = if decide (k ∈ ks) then addr x k else ld 4 (o + off_addr k) d.
Proof.
  revert d. induction ks as [|j ks IH]; intros d Hd Hks Hnd Hk Hr; [by rewrite decide_False by apply not_elem_of_nil|].
  apply Forall_cons in Hks as [Hj Hks]. apply NoDup_cons in Hnd as [Hjn Hnd]. unfold slot_idx in *.
  assert (Hs : length (st 4 (o + off_addr j) (default 0 (i_addrs x !! Z.to_nat j)) d) = length d) by (apply length_st; unfold off_addr; lia).
  rewrite addr_fill_cons, IH by (done || lia). destruct (decide (k = j)) as [->|Hne].
  - rewrite (decide_False (P := j ∈ ks)), (decide_True (P := j ∈ j :: ks)) by (done || by left).
    rewrite ld_st by (unfold off_addr; lia). apply Z.mod_small. exact (addr_range x j Hr).
  - rewrite ld_st_ne by (unfold off_addr; lia). destruct (decide (k ∈ ks)) as [Hin|Hin].
    + by rewrite decide_True by (by right).
    + rewrite decide_False; [done|]. intros [?|?]%elem_of_cons; done.
Qed.

Lemma short_st v off d : (off + 2 <= length d)%nat -> - 2 ^ 15 <= v < 2 ^ 15 -> ld_short off (st 2 off v d) = v.
Proof.
  intros Hd Hv. unfold ld_short. rewrite ld_st by done. change (256 ^ Z.of_nat 2) with (2 ^ 16). 
  rewrite <- (sint_wrap_small 16 v) at 2 by (cbn; lia). unfold sint_wrap. by rewrite Zplus_mod_idemp_l.
Qed.

(** The stores before the table of blocks *)
Definition meta_fill (x : inode) (o : nat) (d : list Z) : list Z :=
  st 4 (o + 8) (i_size x) (st 2 (o + 6) (i_nlink x) (st 2 (o + 4) (i_minor x) (st 2 (o + 2) (i_major x) (st 2 o (i_type x) d)))).

Lemma dinode_store_fill x o d : dinode_store x o d = addr_fill x o addr_slots (meta_fill x o d).
Proof. reflexivity. Qed.

(** Bounds on the lengths of blocks after stores *)
Ltac st_len := rewrite ?length_st by st_len; lia.

Lemma meta_fill_length x o d : (o + 64 <= length d)%nat -> length (meta_fill x o d) = length d.
Proof. intros H. unfold meta_fill. st_len. Qed.

Lemma dinode_store_length x o d : (o + 64 <= length d)%nat -> length (dinode_store x o d) = length d.
Proof.
  intros H. rewrite dinode_store_fill, addr_fill_length; [by apply meta_fill_length| |apply addr_slots_ok].
  by rewrite meta_fill_length.
Qed.

(** Loads from the head of the inode skip the stores to its other fields. *)
Ltac skip_st := rewrite ?ld_st_ne by st_len.

Lemma meta_fill_ne x o d n o' : (o + 64 <= length d)%nat -> (o' + n <= length d)%nat -> (o' + n <= o \/ o + 12 <= o')%nat ->
  ld n o' (meta_fill x o d) = ld n o' d.
Proof. intros H1 H2 H3. unfold meta_fill. skip_st. done. Qed.

Lemma load_addrs x o d : (o + 64 <= length d)%nat -> ino_range x ->
  ((fun k => ld 4 (o + off_addr k) (dinode_store x o d)) <$> addr_slots) = i_addrs x.
Proof.
  intros Hd R. rewrite dinode_store_fill. apply list_eq. intros i. rewrite list_lookup_fmap.
  destruct (decide (i < 13)%nat) as [Hi|Hi].
  - assert (Hk : addr_slots !! i = Some (Z.of_nat i)) by (apply lookup_seqZ; unfold NDIRECT; lia). rewrite Hk. cbn [fmap option_fmap option_map].
    rewrite addr_fill_ld; [|by rewrite meta_fill_length|apply addr_slots_ok|apply NoDup_seqZ|unfold slot_idx; lia|apply R].
    rewrite decide_True by (by eapply list_elem_of_lookup_2). unfold addr. rewrite Nat2Z.id.
    destruct (lookup_lt_is_Some_2 (i_addrs x) i) as [a Ha]; [by rewrite (ir_len _ R)|]. by rewrite Ha.
  - rewrite !(proj2 (lookup_ge_None _ _)); [done|rewrite (ir_len _ R); lia|].
    unfold addr_slots. rewrite length_seqZ. unfold NDIRECT. lia.
Qed.

(** [iupdate] then [ilock] give the fields back. *)
Lemma dinode_load_store x o d y : (o + 64 <= length d)%nat -> ino_range x ->
  dinode_load (dinode_store x o d) o y =
  Inode (i_dev y) (i_inum y) (i_ref y) (i_valid y) (i_type x) (i_major x) (i_minor x) (i_nlink x) (i_size x) (i_addrs x).
Proof.
  intros Hd R. unfold dinode_load. rewrite load_addrs by done. rewrite dinode_store_fill. unfold ld_short.
  rewrite !addr_fill_ne by (apply addr_slots_ok || (rewrite ?meta_fill_length by done; lia)).
  unfold meta_fill. f_equal.
  - skip_st. apply short_st; [lia|apply R].
  - skip_st. apply short_st; [st_len|apply R].
  - skip_st. apply short_st; [st_len|apply R].
  - skip_st. apply short_st; [st_len|apply R].
  - rewrite ld_st by st_len.
    apply Z.mod_small, R.
Qed.

(** The other inodes of the block are kept. *)
Lemma dinode_load_other x o o' d y : (o + 64 <= length d)%nat -> (o' + 64 <= length d)%nat -> (o + 64 <= o' \/ o' + 64 <= o)%nat ->
  dinode_load (dinode_store x o d) o' y = dinode_load d o' y.
Proof.
  intros H1 H2 H3. unfold dinode_load, ld_short. rewrite dinode_store_fill.
  assert (Hl : forall n a, (o' <= a)%nat -> (a + n <= o' + 64)%nat -> ld n a (addr_fill x o addr_slots (meta_fill x o d)) = ld n a d).
  { intros n a Ha Hn. rewrite addr_fill_ne, meta_fill_ne by (apply addr_slots_ok || (rewrite ?meta_fill_length by done; lia)). done. }
  rewrite !Hl by lia. f_equal. apply list_fmap_ext. intros i k Hk.
  apply list_elem_of_lookup_2, (proj1 (Forall_forall _ _) addr_slots_ok) in Hk. unfold slot_idx in Hk.
  apply Hl; unfold off_addr; lia.
Qed.

(** ** [iupdate] and [writei] *)

(** The block of the inode: a home block outside the map, in use, and not a block of the file *)
Record ino_home (start : Z) (sb : superblock) (blk : Z -> list Z) (x : inode) : Prop := {
  ih_pos : 0 <= IBLOCK (i_inum x) sb;
  ih_data : is_data start (IBLOCK (i_inum x) sb);
  ih_map : forall b, 0 <= b < sb_size sb -> IBLOCK (i_inum x) sb <> BBLOCK b sb;
  ih_used : ~ is_free sb blk (IBLOCK (i_inum x) sb);
  ih_slot : forall k, 0 <= k <= IND -> slot x blk k <> IBLOCK (i_inum x) sb
}.

(** The contents after [iupdate] of [x] *)
Definition updated (sb : superblock) (x : inode) (blk : Z -> list Z) : Z -> list Z :=
  upd blk (IBLOCK (i_inum x) sb) (dinode_store x (dip_off (i_inum x)) (blk (IBLOCK (i_inum x) sb))).

Lemma dip_off_fits i : (dip_off i + 64 <= bsize)%nat.
Proof.
  unfold dip_off. assert (0 <= i mod IPB < IPB) by (by apply Z.mod_pos_bound).
  change IPB with 16 in *. change sizeof_dinode with 64. lia.
Qed.

Lemma wrote_home start sb x blk x' blk' off l : wrote start sb x blk x' blk' off l -> ino_home start sb blk x -> ino_home start sb blk' x'.
Proof.
  intros W I. assert (Hi : i_inum x' = i_inum x) by (by rewrite (wr_same _ _ _ _ _ _ _ _ W)).
  split; rewrite Hi; [apply I|apply I|apply I| |].
  - intros Hf. by apply (ih_used _ _ _ _ I), (wr_free _ _ _ _ _ _ _ _ W).
  - intros k Hk Heq. destruct (decide (slot x' blk' k = slot x blk k)) as [H|H].
    + apply (ih_slot _ _ _ _ I k Hk). congruence.
    + apply (wr_slots _ _ _ _ _ _ _ _ W k Hk) in H. rewrite Heq in H. by apply (ih_used _ _ _ _ I).
Qed.

(** [set_i_size] keeps the block table. *)
Lemma file_ok_size start sb blk x v : file_ok start sb blk x -> file_ok start sb blk (set_i_size v x).
Proof. intros []. by split. Qed.

Lemma ino_home_size start sb blk x v : ino_home start sb blk x -> ino_home start sb blk (set_i_size v x).
Proof. intros []. by split. Qed.

(** The bytes of the file are apart from its inode. *)
Lemma updated_byte start sb blk x j : ino_home start sb blk x -> 0 <= j < MAXBYTES -> fbyte x (updated sb x blk) j = fbyte x blk j.
Proof.
  intros I Hj. pose proof (block_index j Hj). unfold fbyte, updated. rewrite store_slot.
  - rewrite upd_ne; [done|]. apply (ih_slot _ _ _ _ I). lia.
  - rewrite <- (slot_IND x blk). apply not_eq_sym, (ih_slot _ _ _ _ I). clia.
Qed.

Lemma updated_slot start sb blk x k : ino_home start sb blk x -> slot x (updated sb x blk) k = slot x blk k.
Proof. intros I. apply store_slot. rewrite <- (slot_IND x blk). apply not_eq_sym, (ih_slot _ _ _ _ I). clia. Qed.

Section Writei.
Context `{L : Linker} (e : env) (p : nat) (pid : Z) (E : lenv e p pid) (ip : nat).

Lemma iupdate_run s bl blk dsk x : fstate pid ip s bl blk dsk x -> ino_home (l_start (fs_log s)) (fs_sb s) blk x -> (length bl + 1 <= NBUF)%nat ->
  exists s', iupdate ip e s = Ret tt e s' /\
    fstate pid ip s' (log_add (IBLOCK (i_inum x) (fs_sb s)) bl) (updated (fs_sb s) x blk) dsk x /\ iframe ip s s'.
Proof.
  intros H I Hn. pose proof (fs_file _ _ _ _ _ _ _ H) as F. unfold iupdate. kstep.
  rewrite (bind_step _ _ _ _ _ _ _ (geti_run e ip s x (fs_ino _ _ _ _ _ _ _ H))).
  destruct (write_block e p pid E ip s bl blk dsk x (IBLOCK (i_inum x) (fs_sb s)) (dinode_store x (dip_off (i_inum x))) H)
    as (i & s1 & s2 & E1 & _ & E2 & H2); [apply I| |apply I|done| |].
  - rewrite <- (slot_IND x blk). apply not_eq_sym, (ih_slot _ _ _ _ I). clia.
  - pose proof (dip_off_fits (i_inum x)). rewrite dinode_store_length; rewrite (fo_size _ _ _ _ F); done.
  - exists s2. rewrite (bind_step _ _ _ _ _ _ _ E1). by split.
Qed.

(** The size after [c] bytes were written at [off] *)
Definition grow_size (v : Z) (x : inode) : inode := if i_size x <? v then set_i_size v x else x.

Lemma grow_size_eq v x : i_size (grow_size v x) = Z.max (i_size x) v.
Proof. unfold grow_size. destruct (Z.ltb_spec (i_size x) v); cbn; lia. Qed.

Lemma grow_run s bl blk dsk x v : fstate pid ip s bl blk dsk x ->
  exists s', when (i_size x <? v) (updi ip (set_i_size v)) e s = Ret tt e s' /\ fstate pid ip s' bl blk dsk (grow_size v x) /\ iframe ip s s'.
Proof.
  intros H. unfold grow_size, when. destruct (i_size x <? v).
  - rewrite updi_run. eexists. split; [done|]. split; [|apply updi_iframe]. destruct H as [T Hi F].
    split; [done|cbn; by rewrite list_lookup_alter_eq, Hi|by apply file_ok_size].
  - exists s. split; [done|]. by split; [|apply iframe_refl].
Qed.

Lemma writei_run s bl blk dsk x off n l : fstate pid ip s bl blk dsk x -> has_proc p s ->
  ino_home (l_start (fs_log s)) (fs_sb s) blk x -> 0 <= off <= i_size x -> Z.of_nat (length l) = n -> off + n <= MAXBYTES ->
  Z.of_nat (length bl) + 6 * turns off n < Z.of_nat NBUF ->
  exists c s' bl' blk' x', writei ip (FromKernel l) off n e s = Ret c e s' /\
    wrote (l_start (fs_log s)) (fs_sb s) x blk x' blk' off (take (Z.to_nat c) l) /\ 0 <= c <= n /\
    (c < n -> forall b, ~ is_free (fs_sb s) blk' b) /\
    let x'' := grow_size (off + c) x' in
    fstate pid ip s' bl' (updated (fs_sb s) x'' blk') dsk x'' /\ iframe ip s s'.
Proof.
  intros H Hp I Ho Hl Hmax Hn. unfold writei. rewrite (bind_step _ _ _ _ _ _ _ (geti_run e ip s x (fs_ino _ _ _ _ _ _ _ H))).
  assert (Hu : u32 (off + n) = off + n) by (apply uint_wrap_small; unfold MAXBYTES, BSIZE in *; clia). rewrite Hu.
  rewrite (proj2 (Z.ltb_ge (i_size x) off)), (proj2 (Z.ltb_ge (off + n) off)) by lia. cbn [orb].
  rewrite (proj2 (Z.ltb_ge (MAXFILE * BSIZE) (off + n))) by exact Hmax.
  destruct (writei_loop_run e p pid E ip (rw_fuel n) s bl blk dsk x off n 0 l H Hp) as (c & s1 & bl1 & blk1 & x1 & E1 & W);
    [lia|lia|lia|by rewrite Z.sub_0_r|rewrite Z.sub_0_r; apply turns_fuel; lia|by rewrite Z.sub_0_r|].
  rewrite Z.sub_0_r, Z.add_0_l in *. destruct W as [H1 I1 W Hc Hl1 Hfull].
  rewrite (bind_step _ _ _ _ _ _ _ E1). cbn [fst snd].
  rewrite (bind_step _ _ _ _ _ _ _ (geti_run e ip s1 x1 (fs_ino _ _ _ _ _ _ _ H1))).
  destruct (grow_run s1 bl1 blk1 dsk x1 (off + c) H1) as (s2 & E2 & H2 & I2). rewrite (bind_step _ _ _ _ _ _ _ E2).
  assert (I12 : iframe ip s s2) by (by apply (iframe_trans _ _ s1)).
  assert (Hst : l_start (fs_log s2) = l_start (fs_log s)) by apply I12. assert (Hsb : fs_sb s2 = fs_sb s) by apply I12.
  assert (J2 : ino_home (l_start (fs_log s2)) (fs_sb s2) blk1 (grow_size (off + c) x1)).
  { rewrite Hst, Hsb. unfold grow_size. pose proof (wrote_home _ _ _ _ _ _ _ _ W I) as J. destruct (_ <? _); [by apply ino_home_size|done]. }
  destruct (iupdate_run s2 bl1 blk1 dsk _ H2 J2) as (s3 & E3 & H3 & I3); [lia|].
  rewrite (bind_step _ _ _ _ _ _ _ E3). unfold ret. rewrite Hsb in H3.
  exists c, s3, (log_add (IBLOCK (i_inum (grow_size (off + c) x1)) (fs_sb s)) bl1), blk1, x1.
  rewrite sint_wrap_small by (unfold MAXBYTES, BSIZE in *; cbn; clia). split; [done|]. split; [done|]. split; [lia|].
  split; [intros; apply Hfull; lia|]. split; [done|]. by apply (iframe_trans _ _ s2).
Qed.

End Writei.

(** ** Contents *)

Lemma lookup_fbytes x blk off n i : (i < Z.to_nat n)%nat -> fbytes x blk off n !! i = Some (fbyte x blk (off + Z.of_nat i)).
Proof. intros Hi. unfold fbytes. rewrite list_lookup_fmap. rewrite (proj2 (lookup_seqZ 0 n i (Z.of_nat i))) by lia. done. Qed.

Lemma length_fbytes x blk off n : length (fbytes x blk off n) = Z.to_nat n.
Proof. unfold fbytes. by rewrite length_fmap, length_seqZ. Qed.

(** The contents after [l] was written at [off], up to the new size *)
Lemma wrote_contents start sb x blk x' blk' off l : wrote start sb x blk x' blk' off l ->
  0 <= off <= i_size x -> i_size x <= MAXBYTES -> backed x blk 0 (i_size x) ->
  fbytes x' blk' 0 (Z.max (i_size x) (off + Z.of_nat (length l))) =
  take (Z.to_nat off) (contents x blk) ++ l ++ drop (Z.to_nat off + length l) (contents x blk).
Proof.
  intros W Ho Hsz Hb. set (sz := Z.max _ _).
  assert (Hout : forall j, 0 <= j < i_size x -> ~ (off <= j < off + Z.of_nat (length l)) -> fbyte x' blk' j = fbyte x blk j).
  { intros j Hj Hn. apply (wr_out _ _ _ _ _ _ _ _ W); [lia|done|]. apply Hb. lia. }
  apply list_eq. intros i. unfold contents.
  destruct (decide (i < Z.to_nat sz)%nat) as [Hi|Hi].
  - rewrite lookup_fbytes, Z.add_0_l by done. symmetry.
    destruct (decide (i < Z.to_nat off)%nat) as [H1|H1].
    + rewrite lookup_app_l by (rewrite length_take, length_fbytes; lia). rewrite lookup_take_lt, lookup_fbytes by lia.
      f_equal. symmetry. apply Hout; lia.
    + rewrite lookup_app_r by (rewrite length_take, length_fbytes; lia). rewrite length_take, length_fbytes, Nat.min_l by lia.
      destruct (decide (i - Z.to_nat off < length l)%nat) as [H2|H2].
      * rewrite lookup_app_l by done. destruct (lookup_lt_is_Some_2 l _ H2) as [b Hlb]. rewrite Hlb. f_equal.
        rewrite <- (wr_in _ _ _ _ _ _ _ _ W _ _ Hlb). f_equal. lia.
      * rewrite lookup_app_r by lia. rewrite lookup_drop, lookup_fbytes by lia. f_equal.
        replace (0 + Z.of_nat (Z.to_nat off + length l + (i - Z.to_nat off - length l))) with (Z.of_nat i) by lia.
        symmetry. apply Hout; lia.
  - rewrite !(proj2 (lookup_ge_None _ _)); [done| |by rewrite length_fbytes; lia].
    rewrite !length_app, length_take, length_drop, length_fbytes. lia.
Qed.

Lemma wrote_backed start sb x blk x' blk' off l : wrote start sb x blk x' blk' off l -> 0 <= off <= i_size x ->
  i_size x <= MAXBYTES -> backed x blk 0 (i_size x) -> backed x' blk' 0 (Z.max (i_size x) (off + Z.of_nat (length l))).
Proof.
  intros W Ho Hsz Hb j Hj. destruct (Z.lt_ge_cases j (i_size x)) as [H|H].
  - rewrite (wr_keep _ _ _ _ _ _ _ _ W) by (apply block_index || apply Hb; lia). apply Hb. lia.
  - apply (wr_back _ _ _ _ _ _ _ _ W). lia.
Qed.

(** The table of a file holds 32-bit block numbers. *)
Lemma file_addrs start sb blk x : file_ok start sb blk x -> Forall (fun a => 0 <= a < 2 ^ 32) (i_addrs x).
Proof.
  intros F. apply Forall_lookup. intros i a Hi. pose proof (mo_size _ _ _ _ (fo_map _ _ _ _ F)) as Hsz.
  assert (Hlt : (i < 13)%nat) by (rewrite <- (fo_len _ _ _ _ F); by apply (lookup_lt_Some _ _ _ Hi)).
  assert (Ha : addr x (Z.of_nat i) = a) by (unfold addr; by rewrite Nat2Z.id, Hi).
  assert (Hs : exists k, 0 <= k <= IND /\ slot x blk k = a).
  { destruct (decide (i = 12%nat)) as [->|]; [exists IND; split; [clia|by rewrite slot_IND]|].
    exists (Z.of_nat i). split; [clia|]. rewrite slot_direct; [done|clia]. }
  destruct Hs as (k & Hk & <-). destruct (decide (slot x blk k = 0)) as [->|H0]; [done|].
  destruct (fo_used _ _ _ _ F k Hk H0) as (Hr & _). lia.
Qed.

(** [grow_size] only changes the size. *)
Lemma grow_size_fbytes v x blk off n : fbytes (grow_size v x) blk off n = fbytes x blk off n.
Proof. unfold grow_size. by destruct (_ <? _). Qed.

Lemma grow_size_slot v x blk k : slot (grow_size v x) blk k = slot x blk k.
Proof. unfold grow_size. by destruct (_ <? _). Qed.

(** ** Files *)

(** A file in good order: its blocks are its own, its inode block is apart from
    them, the fields of the inode fit, and every byte below the size has a block. *)
Record wfile (pid : Z) (ip : nat) (s : fs) (bl : list Z) (blk dsk : Z -> list Z) (x : inode) : Prop := {
  wf_state : fstate pid ip s bl blk dsk x;
  wf_home : ino_home (l_start (fs_log s)) (fs_sb s) blk x;
  wf_range : ino_range x;
  wf_size : 0 <= i_size x <= MAXBYTES;
  wf_back : backed x blk 0 (i_size x)
}.

Lemma grow_range start sb blk x x' v : ino_range x -> same_file x x' -> file_ok start sb blk x' -> 0 <= v < 2 ^ 32 -> ino_range (grow_size v x').
Proof.
  intros R Hs F Hv. pose proof (file_addrs _ _ _ _ F) as Ha. pose proof (fo_len _ _ _ _ F) as Hl.
  destruct R. unfold grow_size. rewrite Hs in *. destruct (_ <? _); split; cbn in *; try done; lia.
Qed.

(** The inode block holds the inode after [iupdate]. *)
Lemma updated_load sb x blk : ino_range x -> (forall b, length (blk b) = bsize) ->
  dinode_load (updated sb x blk (IBLOCK (i_inum x) sb)) (dip_off (i_inum x)) x = x.
Proof.
  intros R Hl. unfold updated. rewrite upd_at. rewrite dinode_load_store; [by destruct x| |done].
  rewrite Hl. apply dip_off_fits.
Qed.

Lemma contents_slice x blk off n : 0 <= off -> 0 <= n -> off + n <= i_size x ->
  fbytes x blk off n = take (Z.to_nat n) (drop (Z.to_nat off) (contents x blk)).
Proof.
  intros Ho Hn Hs. apply list_eq. intros i. unfold contents. destruct (decide (i < Z.to_nat n)%nat) as [Hi|Hi].
  - rewrite lookup_take_lt, lookup_drop, !lookup_fbytes by lia. f_equal. f_equal. lia.
  - rewrite !(proj2 (lookup_ge_None _ _)); [done|rewrite length_take; lia|rewrite length_fbytes; lia].
Qed.

(** The file after [l] was written at [off] and the inode was stored *)
Definition stored (x' : inode) (off : Z) (l : list Z) : inode := grow_size (off + Z.of_nat (length l)) x'.

Section Stored.
Context (start : Z) (sb : superblock) (x : inode) (blk : Z -> list Z) (x' : inode) (blk' : Z -> list Z) (off : Z) (l : list Z).
Context (W : wrote start sb x blk x' blk' off l) (I : ino_home start sb blk x) (R : ino_range x).
Context (Ho : 0 <= off <= i_size x) (Hz : i_size x <= MAXBYTES) (Hmax : off + Z.of_nat (length l) <= MAXBYTES).
Let y : inode := stored x' off l.

Lemma stored_inum : i_inum y = i_inum x.
Proof. unfold y, stored, grow_size. destruct (_ <? _); cbn; by rewrite (wr_same _ _ _ _ _ _ _ _ W). Qed.

Lemma stored_size : i_size y = Z.max (i_size x) (off + Z.of_nat (length l)).
Proof. unfold y, stored. rewrite grow_size_eq. by rewrite (wr_same _ _ _ _ _ _ _ _ W). Qed.

Lemma stored_home : ino_home start sb blk' y.
Proof.
  unfold y, stored, grow_size. pose proof (wrote_home _ _ _ _ _ _ _ _ W I). destruct (_ <? _); [by apply ino_home_size|done].
Qed.

Lemma stored_range : ino_range y.
Proof.
  apply (grow_range start sb blk' x); [done|apply W|apply W|]. unfold MAXBYTES, BSIZE in *. clia.
Qed.

Lemma stored_home_updated : ino_home start sb (updated sb y blk') y.
Proof.
  pose proof stored_home as J. split; [apply J|apply J|apply J| |].
  - unfold updated. rewrite store_free; [apply J|]. apply J.
  - intros k Hk. rewrite (updated_slot start) by done. by apply J.
Qed.

Lemma stored_contents : backed x blk 0 (i_size x) -> contents y (updated sb y blk') =
  take (Z.to_nat off) (contents x blk) ++ l ++ drop (Z.to_nat off + length l) (contents x blk).
Proof.
  intros Hb. rewrite <- (wrote_contents _ _ _ _ _ _ _ _ W Ho Hz Hb), <- stored_size.
  unfold contents. rewrite <- (grow_size_fbytes (off + Z.of_nat (length l)) x'). fold (stored x' off l). fold y.
  unfold fbytes. apply list_fmap_ext. intros i j Hj. apply lookup_seqZ in Hj as [-> Hj].
  rewrite (updated_byte start); [done|apply stored_home|]. pose proof stored_size. lia.
Qed.

Lemma stored_backed : backed x blk 0 (i_size x) -> backed y (updated sb y blk') 0 (i_size y).
Proof.
  intros Hb j Hj. rewrite (updated_slot start) by apply stored_home. unfold y, stored. rewrite grow_size_slot.
  apply (wrote_backed _ _ _ _ _ _ _ _ W Ho Hz Hb). by rewrite <- stored_size.
Qed.

Lemma stored_load : dinode_load (updated sb y blk' (IBLOCK (i_inum x) sb)) (dip_off (i_inum x)) y = y.
Proof. rewrite <- stored_inum. apply updated_load; [apply stored_range|apply (fo_size _ _ _ _ (wr_ok _ _ _ _ _ _ _ _ W))]. Qed.

Lemma stored_meta b : 0 <= b -> ~ is_free sb blk b -> (forall k, 0 <= k <= IND -> slot x blk k <> b) ->
  (forall b', 0 <= b' < sb_size sb -> b <> BBLOCK b' sb) -> b <> IBLOCK (i_inum x) sb -> updated sb y blk' b = blk b.
Proof. intros H1 H2 H3 H4 H5. unfold updated. rewrite stored_inum, upd_ne by done. by apply (wr_meta _ _ _ _ _ _ _ _ W). Qed.

End Stored.

Section Files.
Context `{L : Linker} (e : env) (p : nat) (pid : Z) (E : lenv e p pid) (ip : nat).

Lemma readi_file s bl blk dsk x off n : wfile pid ip s bl blk dsk x -> has_proc p s -> (length bl + 6 < NBUF)%nat ->
  0 <= off < 2 ^ 32 -> 0 <= n < 2 ^ 32 ->
  exists s', readi ip ToKernel off n e s =
    Ret (read_count x off n, take (Z.to_nat (read_count x off n)) (drop (Z.to_nat off) (contents x blk))) e s' /\
    wfile pid ip s' bl blk dsk x /\ iframe ip s s'.
Proof.
  intros [H Hh R Hz Hb] Hp Hl Ho Hn. destruct (readi_run e p pid E ip s bl blk dsk x off n H Hp Hl Hz Hb Ho Hn) as (s' & E' & H' & I').
  exists s'. split; [|split; [|done]].
  - rewrite E'. do 2 f_equal. unfold read_count. destruct (Z.ltb_spec (i_size x) off); [done|]. cbn [orb].
    destruct (Z.leb_spec (2 ^ 32) (off + n)); [done|]. apply contents_slice; lia.
  - assert (Hst : l_start (fs_log s') = l_start (fs_log s)) by apply I'. assert (Hsb : fs_sb s' = fs_sb s) by apply I'.
    split; try done. by rewrite Hst, Hsb.
Qed.

Lemma writei_refused s bl blk dsk x off n l : fstate pid ip s bl blk dsk x -> 0 <= off < 2 ^ 32 -> 0 <= n < 2 ^ 32 ->
  (i_size x <? off) || (2 ^ 32 <=? off + n) || (MAXBYTES <? off + n) = true -> writei ip (FromKernel l) off n e s = Ret (-1) e s.
Proof.
  intros H Ho Hn Hc. unfold writei. rewrite (bind_step _ _ _ _ _ _ _ (geti_run e ip s x (fs_ino _ _ _ _ _ _ _ H))).
  rewrite u32_overflow by done. destruct ((i_size x <? off) || (2 ^ 32 <=? off + n)) eqn:Eo; [done|].
  cbn [orb] in Hc. apply orb_false_iff in Eo as [_ Eo]. apply Z.leb_gt in Eo. rewrite uint_wrap_small by lia.
  change (MAXFILE * BSIZE) with MAXBYTES. by rewrite Hc.
Qed.

(** What a write leaves: [c] of the [n] bytes of [l] are in the file at [off]. *)
Record write_post (ip' : nat) (s : fs) (blk dsk : Z -> list Z) (x : inode) (off n : Z) (l : list Z)
    (c : Z) (s' : fs) (bl' : list Z) (blk' : Z -> list Z) (x' : inode) : Prop := {
  wt_count : 0 <= c <= n;
  wt_full : c < n -> forall b, ~ is_free (fs_sb s) blk' b;
  wt_file : wfile pid ip' s' bl' blk' dsk x';
  wt_frame : iframe ip' s s';
  wt_contents : contents x' blk' = take (Z.to_nat off) (contents x blk) ++ take (Z.to_nat c) l ++ drop (Z.to_nat (off + c)) (contents x blk);
  wt_size : i_size x' = Z.max (i_size x) (off + c);
  wt_same : i_type x' = i_type x /\ i_dev x' = i_dev x /\ i_inum x' = i_inum x;
  wt_inode : dinode_load (blk' (IBLOCK (i_inum x) (fs_sb s))) (dip_off (i_inum x)) x' = x';
  wt_meta : forall b, 0 <= b -> ~ is_free (fs_sb s) blk b -> (forall k, 0 <= k <= IND -> slot x blk k <> b) ->
    (forall b', 0 <= b' < sb_size (fs_sb s) -> b <> BBLOCK b' (fs_sb s)) -> b <> IBLOCK (i_inum x) (fs_sb s) -> blk' b = blk b
}.

Lemma writei_file s bl blk dsk x off n l : wfile pid ip s bl blk dsk x -> has_proc p s ->
  0 <= off <= i_size x -> 0 <= n < 2 ^ 32 -> off + n <= MAXBYTES -> Z.of_nat (length l) = n -> Z.of_nat (length bl) + 6 * turns off n < Z.of_nat NBUF ->
  exists c s' bl' blk' x', writei ip (FromKernel l) off n e s = Ret c e s' /\ write_post ip s blk dsk x off n l c s' bl' blk' x'.
Proof.
  intros [H Hh R Hz Hb] Hp Ho Hn Hmx Hl Hbud.
  destruct (writei_run e p pid E ip s bl blk dsk x off n l H Hp Hh ltac:(lia) Hl Hmx Hbud)
    as (c & s' & bl' & blk' & x' & E' & W & Hc & Hfull & H' & I').
  assert (Hlen : Z.of_nat (length (take (Z.to_nat c) l)) = c) by (rewrite length_take; lia).
  assert (Hy : grow_size (off + c) x' = stored x' off (take (Z.to_nat c) l)) by (unfold stored; by rewrite Hlen).
  assert (Hmax : off + Z.of_nat (length (take (Z.to_nat c) l)) <= MAXBYTES) by lia.
  rewrite Hy in H'. set (y := stored x' off (take (Z.to_nat c) l)) in *. destruct Hz as [_ Hz].
  assert (Hst : l_start (fs_log s') = l_start (fs_log s)) by apply I'. assert (Hsb : fs_sb s' = fs_sb s) by apply I'.
  pose proof (stored_size _ _ _ _ _ _ _ _ W) as Hsize. fold y in Hsize.
  exists c, s', bl', (updated (fs_sb s) y blk'), y. split; [done|]. split.
  - done.
  - intros Hcn b Hf. apply (Hfull Hcn b). unfold updated in Hf. apply store_free in Hf; [exact Hf|]. unfold y. rewrite (stored_inum _ _ _ _ _ _ _ _ W). apply Hh.
  - split; [done| | | |].
    + rewrite Hst, Hsb. by apply (stored_home_updated _ _ x blk).
    + by apply (stored_range (l_start (fs_log s)) (fs_sb s) x blk x' blk').
    + lia.
    + by apply (stored_backed (l_start (fs_log s)) _ x blk).
  - done.
  - unfold y. rewrite (stored_contents (l_start (fs_log s)) _ x blk) by done. do 3 f_equal. lia.
  - by rewrite Hsize, Hlen.
  - unfold y, stored, grow_size. destruct (_ <? _); cbn; by rewrite (wr_same _ _ _ _ _ _ _ _ W).
  - by apply (stored_load (l_start (fs_log s)) _ x blk).
  - by apply (stored_meta (l_start (fs_log s)) _ x blk).
Qed.

(** C18 [readi] of a file in good order into a kernel buffer returns
    [min n (size - off)] and exactly those bytes of the contents, from [off] on;
    0 and no byte if [off] is past the end or [off + n] overflows 32 bits.  The file,
    every block and the rest of the file system are as before: no block is allocated. *)
Theorem readi_correct s bl blk dsk x off n : wfile pid ip s bl blk dsk x -> has_proc p s -> (length bl + 6 < NBUF)%nat ->
  0 <= off < 2 ^ 32 -> 0 <= n < 2 ^ 32 ->
  exists s', readi ip ToKernel off n e s =
    Ret (read_count x off n, take (Z.to_nat (read_count x off n)) (drop (Z.to_nat off) (contents x blk))) e s' /\
    wfile pid ip s' bl blk dsk x /\ iframe ip s s'.
Proof. apply readi_file. Qed.

(** C6 [writei] of [n] bytes from a kernel buffer.  A write that starts past the end,
    overflows or would make the file too large returns -1 and changes nothing.
    Otherwise it returns a count [c], less than [n] only if the disk is full; the
    contents become the old ones with the first [c] bytes of the buffer at [off] and
    the size grows to [off + c] if that is more; the inode block holds the new inode;
    the file is again in good order, the blocks that are not the file's keep their
    contents, and no block in use is given away. *)
Theorem writei_correct s bl blk dsk x off n l : wfile pid ip s bl blk dsk x -> has_proc p s ->
  0 <= off < 2 ^ 32 -> 0 <= n < 2 ^ 32 -> Z.of_nat (length l) = n -> Z.of_nat (length bl) + 6 * turns off n < Z.of_nat NBUF ->
  if (i_size x <? off) || (2 ^ 32 <=? off + n) || (MAXBYTES <? off + n) then writei ip (FromKernel l) off n e s = Ret (-1) e s
  else exists c s' bl' blk' x', writei ip (FromKernel l) off n e s = Ret c e s' /\
    0 <= c <= n /\ (c < n -> forall b, ~ is_free (fs_sb s) blk' b) /\
    wfile pid ip s' bl' blk' dsk x' /\ iframe ip s s' /\
    contents x' blk' = take (Z.to_nat off) (contents x blk) ++ take (Z.to_nat c) l ++ drop (Z.to_nat (off + c)) (contents x blk) /\
    i_size x' = Z.max (i_size x) (off + c) /\
    dinode_load (blk' (IBLOCK (i_inum x) (fs_sb s))) (dip_off (i_inum x)) x' = x' /\
    (forall b, 0 <= b -> ~ is_free (fs_sb s) blk b -> (forall k, 0 <= k <= IND -> slot x blk k <> b) ->
       (forall b', 0 <= b' < sb_size (fs_sb s) -> b <> BBLOCK b' (fs_sb s)) -> b <> IBLOCK (i_inum x) (fs_sb s) -> blk' b = blk b).
Proof.
  intros H Hp Ho Hn Hl Hbud. destruct (_ || _ || _) eqn:Ec; [by apply (writei_refused s bl blk dsk x); [apply H|..]|].
  apply orb_false_iff in Ec as [[Ec1 Ec2]%orb_false_iff Ec3]. apply Z.ltb_ge in Ec1, Ec3.
  destruct (writei_file s bl blk dsk x off n l) as (c & s' & bl' & blk' & x' & E' & W); [done|done|lia|done|done|done|done|]. destruct W. exists c, s', bl', blk', x'. done.
Qed.

End Files.

(** ** Witnesses *)

(** A file of five bytes in block 46, its inode in block 33 *)
Definition demo_inode : inode := Inode ROOTDEV 1 1 1 T_FILE 0 0 1 5 (46 :: replicate 12 0).
Definition demo_ffs (t : bio) : fs :=
  Fs (Usr (Kmem (fun _ => 0) 0 (fun _ => 0)) [Pdata 0 0 0 0 CodeNull 0 [] None []]) (fs_log (demo_fs t)) demo_fsb [demo_inode] ∅.
#[local] Instance demo_flinker : Linker := {| kend := 0x80021000; etext := 0x80008000; trampoline := 0x80007000 |}.

Lemma demo_slot k : 0 <= k <= IND -> slot demo_inode (disk_get demo_fdisk) k = if k =? 0 then 46 else 0.
Proof.
  intros Hk. destruct (Z.lt_ge_cases k NDIRECT) as [H|H].
  - rewrite slot_direct by lia. unfold addr. destruct (Z.eqb_spec k 0) as [->|H0]; [done|].
    destruct (Z.to_nat k) as [|i] eqn:Ei; [lia|]. cbn [i_addrs demo_inode lookup list_lookup].
    destruct (replicate 12 0 !! i) eqn:Er; [|done]. by apply lookup_replicate in Er as [-> _].
  - rewrite (proj2 (Z.eqb_neq k 0)) by clia. destruct (decide (k = IND)) as [->|Hne]; [done|].
    rewrite slot_indirect by lia. done.
Qed.

Lemma demo_file_ok : file_ok 2 demo_fsb (disk_get demo_fdisk) demo_inode.
Proof.
  split; [done|done|apply demo_map_ok|intros H%demo_free; lia|intros b; rewrite demo_fdisk_get; by destruct (b =? 45), (b =? 44)| |].
  - intros k Hk. rewrite demo_slot by done. destruct (k =? 0); [|by intros []]. intros _. split; [done|].
    split; [by apply demo_data|]. split; [intros H%demo_free; lia|]. intros b Hb. by rewrite demo_bblock.
  - intros j k Hj Hk. rewrite !demo_slot by done. destruct (Z.eqb_spec j 0), (Z.eqb_spec k 0); (lia || by intros []).
Qed.

Lemma demo_wfile : exists t, wfile 7 0 (demo_ffs t) [] (disk_get demo_fdisk) (disk_get demo_fdisk) demo_inode.
Proof.
  destruct demo_fs_tx as (t & T). exists t. split.
  - split; [exact T|done|exact demo_file_ok].
  - split; [done|by apply demo_data|intros b Hb; by rewrite demo_bblock|intros H%demo_free; by destruct H|].
    intros k Hk. rewrite demo_slot by done. by destruct (k =? 0).
  - split; try done. apply Forall_cons_2; [done|]. by apply Forall_replicate.
  - done.
  - intros j Hj. change (i_size demo_inode) with 5 in Hj. rewrite Z.div_small by (unfold BSIZE; lia). done.
Qed.

Lemma readi_correct_witness : exists s s', readi 0 ToKernel 2 10 demo_kenv s = Ret (3, [0; 0; 0]) demo_kenv s'.
Proof.
  destruct demo_wfile as (t & W).
  destruct (readi_correct demo_kenv 0 7 demo_lenv 0 (demo_ffs t) [] _ _ demo_inode 2 10 W) as (s' & E & _);
    [by eexists|apply Nat.ltb_lt; reflexivity|lia|lia|].
  exists (demo_ffs t), s'. exact E.
Defined.

Lemma writei_correct_witness : exists s c s' x' blk', writei 0 (FromKernel [7; 8; 9]) 4 3 demo_kenv s = Ret c demo_kenv s' /\
  contents x' blk' = take 4 [0; 0; 0; 0; 0] ++ take (Z.to_nat c) [7; 8; 9] ++ drop (Z.to_nat (4 + c)) [0; 0; 0; 0; 0].
Proof.
  destruct demo_wfile as (t & W).
  pose proof (writei_correct demo_kenv 0 7 demo_lenv 0 (demo_ffs t) [] _ _ demo_inode 4 3 [7; 8; 9] W ltac:(by eexists)
    ltac:(lia) ltac:(lia) eq_refl ltac:(reflexivity)) as H.
  change ((i_size demo_inode <? 4) || (2 ^ 32 <=? 4 + 3) || (MAXBYTES <? 4 + 3)) with false in H. cbv iota in H.
  destruct H as (c & s' & bl' & blk' & x' & E & _ & _ & _ & _ & Hc & _).
  exists (demo_ffs t), c, s', x', blk'. split; [exact E|exact Hc].
Defined.
