(* ===== verification/FsDir.v ===== *)
(** * Directories

    [dirlookup] and [dirlink] of kernel/fs.c against the directory as a list of
    entries: the contents of the file, cut in pieces of 16 bytes.

    What the theorems show: [dirlookup] finds the first entry in use with the name
    and takes a reference to its inode; [dirlink] adds a name in the first free entry,
    after which the name stands for its inode and all other names for what they stood
    for before. *)

From stdpp Require Import base gmap sets list strings.
From Stdlib Require Import ZArith Lia.
From S2P Require Import Prelude Kernel Riscv Kstring Kalloc Sched Sleeplock Bytes Bio Log Usr Fs Tx FsBlock FsInode FsData.

(** ** Names *)

(** The string in an array of characters: up to the first nul *)
Fixpoint upto0 (l : list Z) : list Z :=
  match l with
  | [] => []
  | b :: l => if b =? 0 then [] else b :: upto0 l
  end.

(** What counts of a name in a directory *)
Definition dname (l : list Z) : list Z := upto0 (take (Z.to_nat DIRSIZ) l).

Lemma upto0_padded n l : upto0 (padded n l) = upto0 (take n l).
Proof.
  unfold padded. revert n. induction l as [|b l IH]; intros n.
  - rewrite app_nil_l, take_replicate, take_nil, Nat.min_id. by destruct n.
  - destruct n as [|n]; [done|]. cbn [take app upto0]. destruct (b =? 0); [done|]. f_equal. rewrite <- (IH n).
    change (0 :: replicate n 0) with (replicate (S n) 0). rewrite replicate_S_end, app_assoc, take_app_le; [done|]. rewrite length_app, length_replicate. lia.
Qed.

Lemma strncmp_bytes k : forall m p q, strncmp_loop k m p q = 0 <-> upto0 (bytes_at m p k) = upto0 (bytes_at m q k).
Proof.
  induction k as [|k IH]; intros m p q; cbn [strncmp_loop]; [done|]. rewrite !bytes_at_S. cbn [upto0].
  destruct (Z.eqb_spec (m p) 0) as [Ep|Ep].
  - rewrite Ep. cbn [truth]. change (truth 0 && (0 =? m q)) with false. cbv iota. destruct (Z.eqb_spec (m q) 0) as [Eq|Eq]; [rewrite Eq; done|]. split; [lia|done].
  - rewrite (proj2 (truth_true (m p))) by done. cbn [andb]. destruct (Z.eqb_spec (m p) (m q)) as [E|E].
    + rewrite <- E, (proj2 (Z.eqb_neq _ _)) by done. rewrite IH. split; [by intros ->|by intros [= ->]].
    + split; [lia|]. destruct (m q =? 0); [done|]. by intros [= ? _].
Qed.

Lemma bytes_at_write n m a l : (forall x, a <= x < a + Z.of_nat n -> m x = 0) -> (length l <= n)%nat -> bytes_at (mem_write m a l) a n = padded n l.
Proof.
  intros Hm Hl. apply list_eq. intros i. unfold padded. destruct (decide (i < n)%nat) as [Hi|Hi].
  - rewrite bytes_at_lookup, lookup_take_lt by lia. destruct (decide (i < length l)%nat) as [Hil|Hil].
    + rewrite lookup_app_l by lia. destruct (lookup_lt_is_Some_2 l i Hil) as [b E]. rewrite E. f_equal. rewrite mem_write_in by lia. replace (Z.to_nat (a + Z.of_nat i - a)) with i by lia. by rewrite E.
    + rewrite lookup_app_r, lookup_replicate_2 by lia. f_equal. rewrite mem_write_out by lia. apply Hm. lia.
  - rewrite !lookup_ge_None_2; [done|rewrite length_take; lia|rewrite length_bytes_at; lia].
Qed.

(** [namecmp] compares the names. *)
Lemma namecmp_zero s t : namecmp s t = 0 <-> dname s = dname t.
Proof.
  unfold namecmp, strncmp. rewrite strncmp_bytes. change (Z.to_nat DIRSIZ) with 14%nat. unfold dname. change (Z.to_nat DIRSIZ) with 14%nat. change DIRSIZ with 14.
  set (a := take 14 s). set (b := take 14 t). assert (La : (length a <= 14)%nat) by (unfold a; rewrite length_take; lia). assert (Lb : (length b <= 14)%nat) by (unfold b; rewrite length_take; lia).
  assert (E1 : bytes_at (mem_write (mem_write (fun _ => 0) 0 a) 14 b) 0 14 = padded 14 a).
  { rewrite <- (bytes_at_write 14 (fun _ => 0) 0 a) by done. apply bytes_at_ext. intros i Hi. apply mem_write_out. lia. }
  assert (E2 : bytes_at (mem_write (mem_write (fun _ => 0) 0 a) 14 b) 14 14 = padded 14 b) by (apply bytes_at_write; [intros x Hx; apply mem_write_out; lia|done]).
  rewrite E1, E2, !upto0_padded. unfold a, b. by rewrite !take_take, !Nat.min_id.
Qed.

(** ** Entries *)

Lemma mk_dirent_len name inum : length (mk_dirent name inum) = 16%nat.
Proof. unfold mk_dirent. rewrite length_app, length_bytes_at. done. Qed.

Lemma mk_dirent_inum name inum : 0 <= inum < 2 ^ 16 -> de_inum (mk_dirent name inum) = inum.
Proof.
  intros H. unfold de_inum, mk_dirent, ld, slice. rewrite drop_0. change 2%nat with (length (le 2 inum)) at 1. rewrite take_app_length, of_le_le. apply Z.mod_small. exact H.
Qed.

Lemma cstring_write m a l : Forall (fun b => b <> 0) l -> cstring (mem_write m a (l ++ [0])) a l.
Proof.
  intros H. assert (E : bytes_at (mem_write m a (l ++ [0])) a (length (l ++ [0])) = l ++ [0]) by apply mem_write_bytes. rewrite length_app in E. cbn in E. rewrite bytes_at_app in E.
  apply app_inj_1 in E as [E1 E2]; [|by rewrite length_bytes_at]. split; [exact E1|]. split; [exact H|]. rewrite bytes_at_S in E2. by injection E2.
Qed.

(** A name: characters other than nul *)
Definition is_name (l : list Z) : Prop := Forall (fun b => 0 < b < 256) l.

Lemma mk_dirent_name name inum : is_name name -> dname (de_name (mk_dirent name inum)) = dname name.
Proof.
  intros H. unfold mk_dirent, de_name. set (bs := bytes_at _ _ _). assert (Hl : length bs = 14%nat) by apply length_bytes_at.
  assert (E : slice 2 (Z.to_nat DIRSIZ) (le 2 inum ++ bs) = bs).
  { unfold slice. change 2%nat with (length (le 2 inum)) at 1. rewrite drop_app_length. apply take_ge. rewrite Hl. done. }
  rewrite E. assert (Eb : bs = padded 14 name).
  { unfold bs, strncpy. change (Z.to_nat DIRSIZ) with 14%nat. change DIRSIZ with 14. apply strncpy_loop_bytes; [| |lia].
    - intros a. destruct (decide (14 <= a < 14 + Z.of_nat (length (name ++ [0])))) as [Ha|Ha]; [|rewrite mem_write_out by done; lia].
      rewrite mem_write_in by done. destruct ((name ++ [0]) !! Z.to_nat (a - 14)) as [b|] eqn:El; [|done]. cbn.
      apply (Forall_lookup_1 (fun b => 0 <= b < 256) (name ++ [0]) _ _) in El; [done|]. apply Forall_app. split; [|by constructor]. eapply Forall_impl; [exact H|]. intros c Hc. cbn in Hc. lia.
    - apply cstring_write. eapply Forall_impl; [exact H|]. intros c Hc. cbn in Hc. lia. }
  unfold dname at 1. rewrite Eb. change (Z.to_nat DIRSIZ) with 14%nat. unfold dname. change (Z.to_nat DIRSIZ) with 14%nat.
  rewrite take_ge by (rewrite <- Eb; lia). apply upto0_padded.
Qed.

(** ** The directory as a list of entries *)

Definition dent (d : list Z) (k : nat) : list Z := slice (16 * k) 16 d.

(** The first entry from [k] on, of [n], that satisfies [P] *)
Fixpoint first_hit (P : list Z -> bool) (d : list Z) (k n : nat) : option nat :=
  match n with
  | O => None
  | S n => if P (dent d k) then Some k else first_hit P d (S k) n
  end.

Definition has_name (name : list Z) (de : list Z) : bool := negb (de_inum de =? 0) && bool_decide (dname name = dname (de_name de)).
Definition is_unused (de : list Z) : bool := de_inum de =? 0.

Definition dcount (d : list Z) : nat := (length d / 16)%nat.
Definition dir_find (name d : list Z) : option nat := first_hit (has_name name) d 0 (dcount d).

(** What a name stands for *)
Definition dir_lookup (name d : list Z) : option Z := (fun k => de_inum (dent d k)) <$> dir_find name d.

(** [dirlink] puts the entry in the first unused one, or behind the last. *)
Definition dir_slot (d : list Z) : nat := default (dcount d) (first_hit is_unused d 0 (dcount d)).
Definition dir_add (name : list Z) (inum : Z) (d : list Z) : list Z :=
  take (16 * dir_slot d) d ++ mk_dirent name inum ++ drop (16 * dir_slot d + 16) d.

Lemma first_hit_some P d n : forall k j, first_hit P d k n = Some j -> (k <= j < k + n)%nat /\ P (dent d j) = true /\ forall i, (k <= i < j)%nat -> P (dent d i) = false.
Proof.
  induction n as [|n IH]; intros k j; cbn [first_hit]; [done|]. destruct (P (dent d k)) eqn:E; intros H.
  - injection H as <-. split; [lia|]. split; [done|lia].
  - apply IH in H as (H1 & H2 & H3). split; [lia|]. split; [done|]. intros i Hi. destruct (decide (i = k)) as [->|]; [done|]. apply H3. lia.
Qed.

Lemma first_hit_none P d n : forall k, first_hit P d k n = None <-> forall i, (k <= i < k + n)%nat -> P (dent d i) = false.
Proof.
  induction n as [|n IH]; intros k; cbn [first_hit]; [split; [lia|done]|]. destruct (P (dent d k)) eqn:E.
  - split; [done|]. intros H. rewrite H in E; [done|lia].
  - rewrite IH. split; intros H i Hi; [|apply H; lia]. destruct (decide (i = k)) as [->|]; [done|]. apply H. lia.
Qed.

Lemma first_hit_intro P d k n j : (k <= j < k + n)%nat -> P (dent d j) = true -> (forall i, (k <= i < j)%nat -> P (dent d i) = false) -> first_hit P d k n = Some j.
Proof.
  intros Hj Hp Hb. destruct (first_hit P d k n) as [i|] eqn:E.
  - apply first_hit_some in E as (H1 & H2 & H3). destruct (Nat.lt_trichotomy i j) as [H|[->|H]]; [|done|]; [rewrite Hb in H2 by lia; done|rewrite H3 in Hp by lia; done].
  - apply (proj1 (first_hit_none P d n k)) with (i := j) in E; [congruence|done].
Qed.

Lemma first_hit_ext P d d' n : forall k, (forall i, (k <= i < k + n)%nat -> P (dent d i) = P (dent d' i)) -> first_hit P d k n = first_hit P d' k n.
Proof. induction n as [|n IH]; intros k H; cbn [first_hit]; [done|]. rewrite (H k) by lia. destruct (P (dent d' k)); [done|]. apply IH. intros i Hi. apply H. lia. Qed.

Lemma first_hit_app P d n m : forall k, first_hit P d k (n + m) = match first_hit P d k n with Some j => Some j | None => first_hit P d (k + n) m end.
Proof.
  induction n as [|n IH]; intros k; cbn [first_hit Nat.add]; [by rewrite Nat.add_0_r|]. destruct (P (dent d k)); [done|]. rewrite IH. by replace (S k + n)%nat with (k + S n)%nat by lia.
Qed.

Lemma dir_slot_le d : (dir_slot d <= dcount d)%nat.
Proof. unfold dir_slot. destruct (first_hit _ _ _ _) as [j|] eqn:E; cbn [from_option id]; [|done]. apply first_hit_some in E as [? _]. lia. Qed.

Section Add.
Context (name : list Z) (inum : Z) (d : list Z).
Hypothesis (Hd : (length d mod 16 = 0)%nat) (Hn : is_name name) (Hi : 0 < inum < 2 ^ 16).
#[local] Notation j := (dir_slot d).
#[local] Notation d' := (dir_add name inum d).

Lemma dlen : (length d = 16 * dcount d)%nat.
Proof. unfold dcount. pose proof (Nat.div_mod (length d) 16 ltac:(lia)). lia. Qed.

Lemma dir_add_len : length d' = (16 * Nat.max (dcount d) (S j))%nat.
Proof. unfold dir_add. rewrite !length_app, mk_dirent_len, length_take, length_drop. pose proof dlen. pose proof (dir_slot_le d). lia. Qed.

Lemma dir_add_dent k : dent d' k = if decide (k = j) then mk_dirent name inum else dent d k.
Proof.
  pose proof dlen as Hl. pose proof (dir_slot_le d) as Hj. unfold dent, slice, dir_add. assert (Lt : length (take (16 * j) d) = (16 * j)%nat) by (rewrite length_take; lia).
  case_decide as Ek; [subst k|destruct (decide (k < j)%nat)].
  - rewrite drop_app_ge, Lt, Nat.sub_diag, drop_0 by lia. rewrite take_app_le, take_ge by (rewrite mk_dirent_len; lia). done.
  - rewrite drop_app_le by lia. rewrite take_app_le by (rewrite length_drop; lia). rewrite skipn_firstn_comm, take_take. f_equal. lia.
  - rewrite drop_app_ge by lia. rewrite Lt. rewrite drop_app_ge by (rewrite mk_dirent_len; lia). rewrite mk_dirent_len, drop_drop. do 2 f_equal. lia.
Qed.
Lemma has_name_new name' : has_name name' (mk_dirent name inum) = bool_decide (dname name' = dname name).
Proof. unfold has_name. rewrite mk_dirent_inum, mk_dirent_name by (done || lia). by rewrite (proj2 (Z.eqb_neq inum 0)) by lia. Qed.

(** The slot is not in use. *)
Lemma slot_unused name' : (j < dcount d)%nat -> has_name name' (dent d j) = false.
Proof.
  intros Hj. unfold dir_slot in *. destruct (first_hit is_unused d 0 (dcount d)) as [k|] eqn:E; cbn [from_option id] in *; [|lia].
  apply first_hit_some in E as (_ & E & _). unfold has_name. unfold is_unused in E. by rewrite E.
Qed.

(** A new name stands for its inode, the others for what they did before. *)
Lemma dir_add_lookup name' : dir_find name d = None -> dir_lookup name' d' = if bool_decide (dname name' = dname name) then Some inum else dir_lookup name' d.
Proof.
  intros Hf. assert (Hc : dcount d' = Nat.max (dcount d) (S j)) by (unfold dcount at 1; rewrite dir_add_len, Nat.mul_comm; by apply Nat.div_mul). pose proof (dir_slot_le d) as Hj.
  assert (E : forall k, has_name name' (dent d' k) = if decide (k = j) then bool_decide (dname name' = dname name) else has_name name' (dent d k)).
  { intros k. rewrite dir_add_dent. case_decide; [apply has_name_new|done]. }
  unfold dir_lookup, dir_find. rewrite Hc. case_bool_decide as En.
  - assert (Ef : first_hit (has_name name') d' 0 (Nat.max (dcount d) (S j)) = Some j).
    { destruct (first_hit _ d' 0 _) as [k|] eqn:Ek.
      - apply first_hit_some in Ek as (H1 & H2 & _). rewrite E in H2. case_decide as Hkj; [by subst|]. exfalso. unfold dir_find in Hf. rewrite first_hit_none in Hf.
        unfold has_name in Hf, H2. rewrite En in H2. rewrite Hf in H2; [done|lia].
      - rewrite first_hit_none in Ek. specialize (Ek j ltac:(lia)). by rewrite E, decide_True in Ek by done. }
    rewrite Ef. cbn [fmap option_fmap option_map]. rewrite dir_add_dent, decide_True by done. f_equal. apply mk_dirent_inum. lia.
  - assert (Ef : first_hit (has_name name') d' 0 (Nat.max (dcount d) (S j)) = first_hit (has_name name') d 0 (dcount d)).
    { assert (Hx : forall n, (n <= dcount d)%nat -> first_hit (has_name name') d' 0 n = first_hit (has_name name') d 0 n).
      { intros n Hnn. apply first_hit_ext. intros i Hi'. rewrite E. case_decide as Hij; [|done]. subst i. symmetry. apply slot_unused. lia. }
      destruct (decide (j < dcount d)%nat) as [Hjl|Hjl]; [rewrite Nat.max_l by lia; by apply Hx|]. replace (Nat.max (dcount d) (S j)) with (dcount d + 1)%nat by lia.
      rewrite first_hit_app, Hx by lia. destruct (first_hit _ d 0 _); [done|]. cbn [first_hit]. rewrite E, decide_True by lia. done. }
    rewrite Ef. destruct (first_hit _ d 0 _) as [k|] eqn:Ek; [|done]. cbn [fmap option_fmap option_map]. f_equal. rewrite dir_add_dent. case_decide as Hkj; [|done].
    apply first_hit_some in Ek as (H1 & H2 & _). rewrite Hkj, slot_unused in H2 by lia. done.
Qed.
End Add.

(** ** The code *)

Lemma for_find_same {T A R} (f g : A -> K T (option R)) l : (forall x e t, f x e t = g x e t) -> forall e t, for_find l f e t = for_find l g e t.
Proof. intros H. induction l as [|x l IH]; intros e t; [done|]. cbn [for_find]. unfold bind. rewrite H. destruct (g x e t) as [[v|] e' t'| | |]; [done|apply IH|done..]. Qed.

Section Dir.
Context `{L : Linker} (e : env) (p : nat) (pid : Z) (E : lenv e p pid) (dp : nat).

(** The body of the loops of [dirlookup] and [dirlink] *)
Definition scan {R} (why : string) (P : list Z -> bool) (k : list Z -> Z -> K fs R) (off : Z) : K fs (option R) :=
  r <- readi dp ToKernel off sizeof_dirent ;;
  if negb (fst r =? sizeof_dirent) then panic why
  else if P (snd r) then (v <- k (snd r) off ;; ret (Some v)) else ret None.

(** A directory in a transaction with room for another block *)
Record wdir (s : fs) (bl : list Z) (blk dsk : Z -> list Z) (x : inode) : Prop := {
  wd_file : wfile pid dp s bl blk dsk x;
  wd_proc : has_proc p s;
  wd_room : (length bl + 6 < NBUF)%nat;
  wd_type : i_type x = T_DIR;
  wd_mult : i_size x mod sizeof_dirent = 0
}.

Lemma wdir_len s bl blk dsk x : wdir s bl blk dsk x -> length (contents x blk) = Z.to_nat (i_size x) /\ (16 * dcount (contents x blk) = Z.to_nat (i_size x))%nat /\ 0 <= i_size x <= MAXBYTES.
Proof.
  intros H. pose proof (wf_size _ _ _ _ _ _ _ (wd_file _ _ _ _ _ H)) as Hs. assert (Hl : length (contents x blk) = Z.to_nat (i_size x)) by apply length_fbytes. split; [done|]. split; [|done].
  unfold dcount. rewrite Hl. pose proof (wd_mult _ _ _ _ _ H) as Hm. unfold sizeof_dirent in Hm. pose proof (Nat.div_mod (Z.to_nat (i_size x)) 16 ltac:(lia)) as Hd.
  assert (Hz : (Z.to_nat (i_size x) mod 16 = 0)%nat); [|lia]. apply Nat2Z.inj. rewrite Nat2Z.inj_mod, Z2Nat.id by lia. exact Hm.
Qed.

Lemma wdir_move s s' bl blk dsk x : wdir s bl blk dsk x -> wfile pid dp s' bl blk dsk x -> iframe dp s s' -> wdir s' bl blk dsk x.
Proof. intros [H1 H2 H3 H4 H5] W I. split; try done. by apply (iframe_proc p dp s s'). Qed.

Lemma read_entry s bl blk dsk x k : wdir s bl blk dsk x -> (k < dcount (contents x blk))%nat ->
  exists s', readi dp ToKernel (Z.of_nat k * sizeof_dirent) sizeof_dirent e s = Ret (sizeof_dirent, dent (contents x blk) k) e s' /\ wdir s' bl blk dsk x /\ iframe dp s s'.
Proof.
  intros H Hk. destruct (wdir_len _ _ _ _ _ H) as (Hl & Hc & Hs). change MAXBYTES with 274432 in Hs. unfold sizeof_dirent.
  destruct (readi_file e p pid E dp s bl blk dsk x (Z.of_nat k * 16) 16 (wd_file _ _ _ _ _ H) (wd_proc _ _ _ _ _ H) (wd_room _ _ _ _ _ H) ltac:(lia) ltac:(lia)) as (s' & Er & W & I).
  exists s'. split; [|split; [by eapply wdir_move|done]]. rewrite Er. unfold read_count. rewrite (proj2 (Z.ltb_ge _ _)), (proj2 (Z.leb_gt _ _)) by lia. cbn [orb].
  rewrite Z.min_l by lia. do 2 f_equal. unfold dent, slice. f_equal. f_equal. lia.
Qed.

(** The loop over the entries from [k] on *)
Lemma scan_run {R} why P (c : list Z -> Z -> K fs R) bl blk dsk x n : forall k s, wdir s bl blk dsk x -> (k + n <= dcount (contents x blk))%nat ->
  exists s', wdir s' bl blk dsk x /\ iframe dp s s' /\
  for_find ((fun k => k * sizeof_dirent) <$> seqZ (Z.of_nat k) (Z.of_nat n)) (scan why P c) e s =
  match first_hit P (contents x blk) k n with
  | None => Ret None e s'
  | Some j => (v <- c (dent (contents x blk) j) (Z.of_nat j * sizeof_dirent) ;; ret (Some v)) e s'
  end.
Proof.
  induction n as [|n IH]; intros k s H Hk; [exists s; split; [done|]; split; [apply iframe_refl|done]|].
  rewrite seqZ_cons by lia. cbn [fmap list_fmap for_find first_hit]. destruct (read_entry s bl blk dsk x k H ltac:(lia)) as (s1 & E1 & H1 & I1).
  assert (Es : scan why P c (Z.of_nat k * sizeof_dirent) e s = (if P (dent (contents x blk) k) then (v <- c (dent (contents x blk) k) (Z.of_nat k * sizeof_dirent) ;; ret (Some v)) else ret None) e s1).
  { unfold scan. rewrite (bind_step _ _ _ _ _ _ _ E1). cbn [fst snd]. change (negb (sizeof_dirent =? sizeof_dirent)) with false. cbv iota. by destruct (P _). }
  destruct (P (dent (contents x blk) k)).
  - exists s1. split; [done|]. split; [done|]. unfold bind at 1. rewrite Es. unfold bind. by destruct (c _ _ e s1).
  - destruct (IH (S k) s1 H1 ltac:(lia)) as (s2 & H2 & I2 & E2). exists s2. split; [done|]. split; [by eapply iframe_trans|].
    unfold bind at 1. rewrite Es. unfold ret at 1. replace (Z.succ (Z.of_nat k)) with (Z.of_nat (S k)) by lia. replace (Z.pred (Z.of_nat (S n))) with (Z.of_nat n) by lia. exact E2.
Qed.
Lemma de_offs_count s bl blk dsk x : wdir s bl blk dsk x -> de_offs (i_size x) = (fun k => k * sizeof_dirent) <$> seqZ (Z.of_nat 0) (Z.of_nat (dcount (contents x blk))).
Proof.
  intros H. destruct (wdir_len _ _ _ _ _ H) as (_ & Hc & Hs). unfold de_offs. do 2 f_equal. unfold sizeof_dirent. symmetry. apply (Z.div_unique _ _ _ 15); lia.
Qed.

(** What [dirlookup] does with the entry it finds *)
Definition dir_get (de : list Z) (off : Z) : K fs (nat * Z) :=
  x <- geti dp ;;
  i <- iget (i_dev x) (de_inum de) ;;
  ret (i, off).

Lemma dirlookup_run s bl blk dsk x name : wdir s bl blk dsk x -> exists s', wdir s' bl blk dsk x /\ iframe dp s s' /\
  dirlookup dp name e s =
  match dir_find name (contents x blk) with
  | None => Ret None e s'
  | Some k => (i <- iget ROOTDEV (de_inum (dent (contents x blk) k)) ;; ret (Some (i, Z.of_nat k * sizeof_dirent))) e s'
  end.
Proof.
  intros H. pose proof (wf_state _ _ _ _ _ _ _ (wd_file _ _ _ _ _ H)) as F.
  destruct (scan_run "dirlookup read" (has_name name) dir_get bl blk dsk x (dcount (contents x blk)) 0 s H ltac:(lia)) as (s' & H' & I & Es).
  exists s'. split; [done|]. split; [done|]. unfold dirlookup. rewrite (bind_step _ _ _ _ _ _ _ (geti_run e dp s x (fs_ino _ _ _ _ _ _ _ F))).
  rewrite (wd_type _ _ _ _ _ H). change (negb (T_DIR =? T_DIR)) with false. cbv iota. rewrite (de_offs_count _ _ _ _ _ H).
  rewrite (for_find_same _ (scan "dirlookup read" (has_name name) dir_get)).
  - rewrite Es. unfold dir_find. destruct (first_hit _ _ _ _) as [k|]; [|done]. unfold dir_get. pose proof (wf_state _ _ _ _ _ _ _ (wd_file _ _ _ _ _ H')) as F'.
    rewrite bind_assoc, (bind_step _ _ _ _ _ _ _ (geti_run e dp s' x (fs_ino _ _ _ _ _ _ _ F'))), bind_assoc, (fo_dev _ _ _ _ (fs_file _ _ _ _ _ _ _ F')). done.
  - intros off e1 t. unfold scan, bind. destruct (readi dp ToKernel off sizeof_dirent e1 t) as [[n de] e2 t2| | |]; [|done..]. cbn [fst snd].
    destruct (negb (n =? sizeof_dirent)); [done|]. unfold has_name. destruct (de_inum de =? 0); [done|]. cbn [negb andb].
    pose proof (namecmp_zero name (de_name de)) as Hz. destruct (Z.eqb_spec (namecmp name (de_name de)) 0) as [E0|E0].
    + rewrite bool_decide_eq_true_2 by (by apply Hz). unfold dir_get, bind. destruct (geti dp e2 t2) as [y e3 t3| | |]; [|done..]. by destruct (iget _ _ e3 t3).
    + rewrite bool_decide_eq_false_2 by (by rewrite <- Hz). done.
Qed.

(** The inode [inum] in the table, with one more reference *)
Definition grabbed (dev inum : Z) (i : nat) (s s' : fs) : Prop :=
  exists y, fs_inode s !! i = Some y /\
    (iget_match dev inum y = true /\ s' = set_inodes (<[i := set_i_ref (i_ref y + 1) y]> (fs_inode s)) s \/
     i_ref y = 0 /\ Forall (fun z => iget_match dev inum z = false) (fs_inode s) /\ s' = set_inodes (<[i := set_i_ident dev inum y]> (fs_inode s)) s).

Lemma iget_run s dev inum : ItableLock ∉ held e ->
  (exists i s', iget dev inum e s = Ret i e s' /\ grabbed dev inum i s s') \/
  (iget dev inum e s = Panic "iget: no inodes" /\ Forall (fun y => i_ref y <> 0 /\ iget_match dev inum y = false) (fs_inode s)).
Proof.
  intros Hl. assert (Er : iget dev inum e s =
    match iget_find dev inum (fs_inode s), iget_empty (fs_inode s) with
    | Some i, _ => Ret i e (set_inodes (alter (fun x => set_i_ref (i_ref x + 1) x) i (fs_inode s)) s)
    | None, Some i => Ret i e (set_inodes (alter (set_i_ident dev inum) i (fs_inode s)) s)
    | None, None => Panic "iget: no inodes"
    end).
  { unfold iget. rewrite (bind_step _ _ _ _ _ _ _ (acquire_free _ _ _ Hl)). unfold bind, gets, updi, modify.
    destruct (iget_find dev inum (fs_inode s)); [|destruct (iget_empty (fs_inode s)); [|done]]; by rewrite release_locked by done. }
  rewrite Er. unfold iget_find, iget_empty. destruct (list_find (fun x => iget_match dev inum x = true) (fs_inode s)) as [[i y]|] eqn:Ef; cbn [fmap option_fmap option_map fst].
  - left. apply list_find_Some in Ef as (Hy & Hm & _). exists i. eexists. split; [done|]. exists y. split; [done|]. left. split; [done|]. by rewrite (alter_insert _ i _ y).
  - assert (Hno : Forall (fun z => iget_match dev inum z = false) (fs_inode s)) by (apply list_find_None in Ef; eapply Forall_impl; [exact Ef|]; intros z Hz; by apply not_true_iff_false).
    destruct (list_find (fun x => i_ref x = 0) (fs_inode s)) as [[i y]|] eqn:Ee; cbn [fmap option_fmap option_map fst].
    + left. apply list_find_Some in Ee as (Hy & Hm & _). exists i. eexists. split; [done|]. exists y. split; [done|]. right. split; [done|]. split; [done|]. by rewrite (alter_insert _ i _ y).
    + right. split; [done|]. apply list_find_None in Ee. apply Forall_and. by split.
Qed.

(** The loop of [dirlink] that looks for an unused entry *)
Lemma find_slot_run s bl blk dsk x : wdir s bl blk dsk x -> exists s', wdir s' bl blk dsk x /\ iframe dp s s' /\
  for_find (de_offs (i_size x)) (fun off =>
    r <- readi dp ToKernel off sizeof_dirent ;;
    if negb (fst r =? sizeof_dirent) then panic "dirlink read"
    else if de_inum (snd r) =? 0 then ret (Some off)
    else ret None) e s = Ret ((fun k => Z.of_nat k * sizeof_dirent) <$> first_hit is_unused (contents x blk) 0 (dcount (contents x blk))) e s'.
Proof.
  intros H. destruct (scan_run "dirlink read" is_unused (fun _ off => ret off) bl blk dsk x (dcount (contents x blk)) 0 s H ltac:(lia)) as (s' & H' & I & Es).
  exists s'. split; [done|]. split; [done|]. rewrite (de_offs_count _ _ _ _ _ H). rewrite (for_find_same _ (scan "dirlink read" is_unused (fun _ off => ret off))).
  - rewrite Es. by destruct (first_hit _ _ _ _).
  - intros off e1 t. unfold scan, bind. destruct (readi dp ToKernel off sizeof_dirent e1 t) as [[n de] e2 t2| | |]; [|done..]. cbn [fst snd].
    destruct (negb (n =? sizeof_dirent)); [done|]. unfold is_unused. by destruct (de_inum de =? 0).
Qed.

(** An entry lies in one block. *)
Lemma entry_turns k : turns (Z.of_nat k * sizeof_dirent) sizeof_dirent = 1.
Proof.
  unfold turns, sizeof_dirent. change (16 <=? 0) with false. cbv iota. replace (Z.of_nat k * 16 + 16 - 1) with (Z.of_nat k * 16 + 15) by lia. unfold BSIZE.
  assert (E1 : (Z.of_nat k * 16 + 15) / 1024 = Z.of_nat k / 64); [|assert (E2 : Z.of_nat k * 16 / 1024 = Z.of_nat k / 64); [|lia]];
    symmetry; pose proof (Z.div_mod (Z.of_nat k) 64 ltac:(lia)) as Hd; pose proof (Z.mod_pos_bound (Z.of_nat k) 64 ltac:(lia)).
  - apply (Z.div_unique _ _ _ (Z.of_nat k mod 64 * 16 + 15)); lia.
  - apply (Z.div_unique _ _ _ (Z.of_nat k mod 64 * 16)); lia.
Qed.

(** C20 [dirlookup] in a directory in good order finds the first entry in use whose name is the given one, as far as 14
    characters go: it returns nothing if there is none; otherwise the offset of the entry and a slot of the inode table
    with one more reference to the inode of the entry, a new one only if the inode was not in the table.  It panics only
    if the inode is not in the table and the table is full.  The directory, its blocks and all other state stay. *)
Theorem dirlookup_correct s bl blk dsk x name : wdir s bl blk dsk x -> ItableLock ∉ held e ->
  exists s', wdir s' bl blk dsk x /\ iframe dp s s' /\
  match dir_find name (contents x blk) with
  | None => dirlookup dp name e s = Ret None e s'
  | Some k => let inum := de_inum (dent (contents x blk) k) in
      (exists i s2, dirlookup dp name e s = Ret (Some (i, Z.of_nat k * sizeof_dirent)) e s2 /\ grabbed ROOTDEV inum i s' s2) \/
      (dirlookup dp name e s = Panic "iget: no inodes" /\ Forall (fun y => i_ref y <> 0 /\ iget_match ROOTDEV inum y = false) (fs_inode s'))
  end.
Proof.
  intros H Hl. destruct (dirlookup_run s bl blk dsk x name H) as (s' & H' & I & Er). exists s'. split; [done|]. split; [done|]. rewrite Er.
  destruct (dir_find name (contents x blk)) as [k|]; [|done]. cbv zeta. unfold bind. destruct (iget_run s' ROOTDEV (de_inum (dent (contents x blk) k)) Hl) as [(i & s2 & -> & G)|(-> & G)]; [left|by right].
  by exists i, s2.
Qed.

(** C7 [dirlink] of a name that the directory does not have, for an inode number that fits the entry, returns 0 or -1.
    After 0 the directory is in good order, the name stands for the inode and every other name for what it stood for
    before: the entry took the place of the first unused one, or was added at the end.  It returns -1 only if the
    directory has its greatest size, and then nothing changed, or if no block of the disk is free. *)
Theorem dirlink_correct s bl blk dsk x name inum : wdir s bl blk dsk x -> is_name name -> 0 < inum < 2 ^ 16 -> dir_find name (contents x blk) = None ->
  exists r s' bl' blk' x', dirlink dp name inum e s = Ret r e s' /\ wfile pid dp s' bl' blk' dsk x' /\ iframe dp s s' /\
  (r = 0 /\ i_type x' = T_DIR /\ i_size x' mod sizeof_dirent = 0 /\ contents x' blk' = dir_add name inum (contents x blk) /\
     (forall name', dir_lookup name' (contents x' blk') = if bool_decide (dname name' = dname name) then Some inum else dir_lookup name' (contents x blk)) \/
   r = -1 /\ (i_size x = MAXBYTES /\ x' = x /\ blk' = blk \/ forall b, ~ is_free (fs_sb s) blk' b)).
Proof.
  intros H Hname Hi Hf. destruct (dirlookup_run s bl blk dsk x name H) as (s1 & H1 & I1 & E1). rewrite Hf in E1. unfold dirlink. rewrite (bind_step _ _ _ _ _ _ _ E1).
  pose proof (wd_file _ _ _ _ _ H1) as W1. rewrite (bind_step _ _ _ _ _ _ _ (geti_run e dp s1 x (fs_ino _ _ _ _ _ _ _ (wf_state _ _ _ _ _ _ _ W1)))).
  destruct (find_slot_run s1 bl blk dsk x H1) as (s2 & H2 & I2 & E2). rewrite (bind_step _ _ _ _ _ _ _ E2). destruct (wdir_len _ _ _ _ _ H) as (Hlen & Hc & Hsz).
  set (d := contents x blk) in *. assert (Hd : (length d mod 16 = 0)%nat) by (rewrite Hlen, <- Hc, Nat.mul_comm; by apply Nat.mod_mul). pose proof (dir_slot_le d) as Hj.
  assert (Eo : default (Z.of_nat (length (de_offs (i_size x))) * sizeof_dirent) ((fun k => Z.of_nat k * sizeof_dirent) <$> first_hit is_unused d 0 (dcount d)) = Z.of_nat (dir_slot d) * sizeof_dirent).
  { unfold dir_slot. rewrite (de_offs_count _ _ _ _ _ H), length_fmap, length_seqZ. fold d. destruct (first_hit _ _ _ _); [done|]. cbn [fmap option_fmap option_map from_option id]. lia. }
  cbv zeta. rewrite Eo. assert (Ho : Z.of_nat (dir_slot d) * sizeof_dirent <= i_size x) by (unfold sizeof_dirent; lia).
  pose proof (wd_file _ _ _ _ _ H2) as W2. pose proof (mk_dirent_len name inum) as Hml. set (off := Z.of_nat (dir_slot d) * sizeof_dirent) in *.
  destruct (Z.le_gt_cases (off + sizeof_dirent) MAXBYTES) as [Hmx|Hmx].
  - destruct (writei_file e p pid E dp s2 bl blk dsk x off sizeof_dirent (mk_dirent name inum) W2 (wd_proc _ _ _ _ _ H2)) as (c & s3 & bl' & blk' & x' & E3 & P);
      [unfold off, sizeof_dirent in *; lia|done|done|by rewrite Hml|unfold off; rewrite entry_turns; pose proof (wd_room _ _ _ _ _ H); lia|].
    rewrite (bind_step _ _ _ _ _ _ _ E3). assert (I3 : iframe dp s s3) by (eapply iframe_trans; [exact I1|]; eapply iframe_trans; [exact I2|apply P]).
    destruct (Z.eqb_spec c sizeof_dirent) as [->|Hne]; cbn [negb].
    + exists 0, s3, bl', blk', x'. split; [done|]. split; [apply P|]. split; [done|]. left. split; [done|].
      assert (Ec : contents x' blk' = dir_add name inum d).
      { rewrite (wt_contents _ _ _ _ _ _ _ _ _ _ _ _ _ _ P). fold d. unfold dir_add. rewrite (take_ge (mk_dirent _ _)) by (rewrite Hml; done). unfold off, sizeof_dirent. repeat f_equal; lia. }
      split; [rewrite (proj1 (wt_same _ _ _ _ _ _ _ _ _ _ _ _ _ _ P)); apply (wd_type _ _ _ _ _ H)|]. split; [|split; [done|]].
      * rewrite (wt_size _ _ _ _ _ _ _ _ _ _ _ _ _ _ P). pose proof (wd_mult _ _ _ _ _ H). destruct (Z.max_spec (i_size x) (off + sizeof_dirent)) as [[_ ->]|[_ ->]]; [|done].
        unfold off. replace (_ + sizeof_dirent) with ((Z.of_nat (dir_slot d) + 1) * sizeof_dirent) by lia. by apply Z.mod_mul.
      * intros name'. rewrite Ec. by apply dir_add_lookup.
    + exists (-1), s3, bl', blk', x'. split; [done|]. split; [apply P|]. split; [done|]. right. split; [done|]. right. pose proof (wt_count _ _ _ _ _ _ _ _ _ _ _ _ _ _ P).
      assert (Hsb : fs_sb s2 = fs_sb s) by (etrans; [apply I2|apply I1]). rewrite <- Hsb. apply P. lia.
  - assert (Hmax : i_size x = MAXBYTES /\ off = MAXBYTES) by (change MAXBYTES with 274432 in *; unfold off, sizeof_dirent in *; lia). destruct Hmax as [Hmax Hoff].
    rewrite (bind_step _ _ _ _ _ _ _ (writei_refused e pid dp s2 bl blk dsk x off sizeof_dirent _ (wf_state _ _ _ _ _ _ _ W2) ltac:(rewrite Hoff; done) ltac:(done) ltac:(by rewrite Hmax, Hoff))).
    exists (-1), s2, bl, blk, x. split; [done|]. split; [done|]. split; [by eapply iframe_trans|]. right. split; [done|]. by left.
Qed.
End Dir.

(** ** Witnesses *)

(** A directory of two entries in block 44: a stands for inode 3, the other is unused; the inode table has a free slot. *)
Definition demo_dir : inode := Inode ROOTDEV 2 1 1 T_DIR 0 0 1 32 (44 :: replicate 12 0).
Definition demo_dfs (t : bio) : fs :=
  Fs (Usr (Kmem (fun _ => 0) 0 (fun _ => 0)) [Pdata 0 0 0 0 CodeNull 0 [] None []]) (fs_log (demo_fs t)) demo_fsb [demo_dir; Inode 0 0 0 0 0 0 0 0 0 []] ∅.
#[local] Instance demo_dlinker : Linker := {| kend := 0x80021000; etext := 0x80008000; trampoline := 0x80007000 |}.

Lemma demo_dslot k : 0 <= k <= IND -> slot demo_dir (disk_get demo_fdisk) k = if k =? 0 then 44 else 0.
Proof.
  intros Hk. destruct (Z.lt_ge_cases k NDIRECT) as [H|H].
  - rewrite slot_direct by lia. unfold addr. destruct (Z.eqb_spec k 0) as [->|H0]; [done|].
    destruct (Z.to_nat k) as [|i] eqn:Ei; [lia|]. cbn [i_addrs demo_dir lookup list_lookup].
    destruct (replicate 12 0 !! i) eqn:Er; [|done]. by apply lookup_replicate in Er as [-> _].
  - rewrite (proj2 (Z.eqb_neq k 0)) by clia. destruct (decide (k = IND)) as [->|Hne]; [done|].
    rewrite slot_indirect by lia. done.
Qed.

Lemma demo_wdir : exists t, wdir 0 7 0 (demo_dfs t) [] (disk_get demo_fdisk) (disk_get demo_fdisk) demo_dir.
Proof.
  destruct demo_fs_tx as (t & T). exists t. split; [split|by eexists|apply Nat.ltb_lt; reflexivity|done|done].
  - split; [exact T|done|]. split; [done|done|apply demo_map_ok|intros H%demo_free; lia|intros b; rewrite demo_fdisk_get; by destruct (b =? 45), (b =? 44)| |].
    + intros k Hk. rewrite demo_dslot by done. destruct (k =? 0); [|by intros []]. intros _. split; [done|].
      split; [by apply demo_data|]. split; [intros H%demo_free; lia|]. intros b Hb. by rewrite demo_bblock.
    + intros j k Hj Hk. rewrite !demo_dslot by done. destruct (Z.eqb_spec j 0), (Z.eqb_spec k 0); (lia || by intros []).
  - split; [done|by apply demo_data|intros b Hb; by rewrite demo_bblock|intros H%demo_free; by destruct H|].
    intros k Hk. rewrite demo_dslot by done. by destruct (k =? 0).
  - split; try done. apply Forall_cons_2; [done|]. by apply Forall_replicate.
  - done.
  - intros j Hj. change (i_size demo_dir) with 32 in Hj. rewrite Z.div_small by (unfold BSIZE; lia). done.
Qed.

Lemma demo_contents : contents demo_dir (disk_get demo_fdisk) = [3; 0; 97] ++ replicate 29 0.
Proof. vm_compute. reflexivity. Qed.

Lemma dirlookup_correct_witness : exists t i s2, dirlookup 0 [97] demo_kenv (demo_dfs t) = Ret (Some (i, 0)) demo_kenv s2.
Proof.
  destruct demo_wdir as (t & W). destruct (dirlookup_correct demo_kenv 0 7 demo_lenv 0 (demo_dfs t) [] _ _ demo_dir [97] W) as (s' & W' & I & D); [apply not_elem_of_empty|].
  rewrite demo_contents in D. change (dir_find [97] ([3; 0; 97] ++ replicate 29 0)) with (Some 0%nat) in D. destruct D as [(i & s2 & D & _)|(_ & D)]; [by exists t, i, s2|exfalso].
  destruct I as (_ & _ & _ & _ & I). specialize (I 1%nat ltac:(done)). apply (Forall_lookup_1 _ _ _ _ D) in I as [H _]. by apply H.
Defined.

Lemma dirlink_correct_witness : exists t r s' d', dirlink 0 [98] 5 demo_kenv (demo_dfs t) = Ret r demo_kenv s' /\
  (r = 0 /\ dir_lookup [98] d' = Some 5 /\ dir_lookup [97] d' = Some 3 \/ r = -1).
Proof.
  destruct demo_wdir as (t & W). destruct (dirlink_correct demo_kenv 0 7 demo_lenv 0 (demo_dfs t) [] _ _ demo_dir [98] 5 W) as (r & s' & bl' & blk' & x' & D & _ & _ & C);
    [by constructor|done|rewrite demo_contents; reflexivity|].
  exists t, r, s', (contents x' blk'). split; [exact D|]. destruct C as [(-> & _ & _ & _ & C)|(-> & _)]; [left|by right]. split; [done|]. rewrite !C, demo_contents. split; reflexivity.
Defined.
