(* ===== verification/FsTrunc.v ===== *)
(** * Truncation

    [itrunc] of kernel/fs.c: the blocks of a file go back to the free map.

    What the theorem shows: [itrunc] frees exactly the blocks of the file, the indirect
    block among them, each once, and leaves an empty file in good order.  The map is
    taken to be one block, as in every file system of at most 8192 blocks. *)

From stdpp Require Import base gmap sets list strings.
From Stdlib Require Import ZArith Lia.
From S2P Require Import Prelude Kernel Riscv Kstring Kalloc Sched Sleeplock Bytes Bio Log Usr Fs Tx FsBlock FsInode FsData.

Section Trunc.
Context (e : env) (p : nat) (pid : Z) (E : lenv e p pid) (ip : nat).
Context (start : Z) (sb : superblock) (bl : list Z) (blk dsk : Z -> list Z) (x : inode).
Hypothesis (F : file_ok start sb blk x) (Hone : sb_size sb <= BPB).

#[local] Notation BM := (BBLOCK 0 sb).

Lemma one_map b : 0 <= b < sb_size sb -> BBLOCK b sb = BM.
Proof. intros Hb. unfold BBLOCK. by rewrite !Z.div_small by lia. Qed.

(** The blocks of the first [n] slots *)
Definition gone (n b : Z) : Prop := b <> 0 /\ exists k, 0 <= k < n /\ slot x blk k = b.

(** The blocks of the first [n] slots are free. *)
Record freeing (n : Z) (h : gset Z) (bl' : list Z) (blk' : Z -> list Z) : Prop := {
  fr_map : map_ok start sb blk' h;
  fr_keep : forall b, b <> BM -> blk' b = blk b;
  fr_len : forall b, length (blk' b) = bsize;
  fr_free : forall b, is_free sb blk' b <-> is_free sb blk b \/ gone n b;
  fr_log : bl' = bl \/ bl' = log_add BM bl
}.

Lemma log_add_twice b l : log_add b (log_add b l) = log_add b l.
Proof. assert (H : b ∈ log_add b l) by (unfold log_add; case_bool_decide; [done|set_solver]). unfold log_add at 1. by rewrite bool_decide_eq_true_2. Qed.

Lemma log_add_len b l : (length (log_add b l) <= length l + 1)%nat.
Proof. unfold log_add. case_bool_decide; [lia|]. rewrite length_app. cbn. lia. Qed.

Lemma freeing_len n h bl' blk' : freeing n h bl' blk' -> (length bl' <= length bl + 1)%nat.
Proof. intros [_ _ _ _ [->| ->]]; [lia|apply log_add_len]. Qed.

Lemma freeing_skip n n' h bl' blk' : n <= n' -> (forall k, n <= k < n' -> slot x blk k = 0) -> freeing n h bl' blk' -> freeing n' h bl' blk'.
Proof.
  intros Hn Hz [H1 H2 H3 H4 H5]. split; try done. intros b. rewrite H4. unfold gone. split; intros [Hb|(Hb & k & Hk & E0)]; [by left|right|by left|right].
  - split; [done|]. exists k. split; [lia|done].
  - split; [done|]. exists k. split; [|done]. destruct (Z.lt_ge_cases k n); [lia|]. rewrite Hz in E0 by lia. by subst.
Qed.

(** Another set of held buffers *)
Lemma freeing_hold n h h' bl' blk' : (forall b, b ∈ h' -> b <> BM /\ ~ is_free sb blk' b) -> freeing n h bl' blk' -> freeing n h' bl' blk'.
Proof.
  intros Hh [[M1 M2 M3] H2 H3 H4 H5]. split; try done. split; [done| |].
  - intros b Hb. split; [by apply M2|]. intros Hin. by apply (proj1 (Hh _ Hin)), one_map.
  - intros b Hb. split; [by apply M3|]. split; [|by apply M3]. intros Hin. by apply (proj2 (Hh _ Hin)).
Qed.

Lemma freeing_step n h bl' blk' s : freeing n h bl' blk' -> tx pid (fs_log s) bl' h ∅ blk' dsk -> fs_sb s = sb -> l_start (fs_log s) = start ->
  0 <= n <= IND -> slot x blk n <> 0 -> slot x blk n ∉ h -> (length bl + 1 + size h < NBUF)%nat ->
  exists s' bl2 blk2, bfree ROOTDEV (slot x blk n) e s = Ret tt e s' /\ moved pid s s' h bl2 h ∅ blk2 dsk /\ freeing (n + 1) h bl2 blk2.
Proof.
  intros Fr T Hsb Hst Hn H0 Hh Hl. set (a := slot x blk n) in *. destruct (fo_used _ _ _ _ F n Hn H0) as (Ha & Had & Hau & Ham). fold a in Ha, Had, Hau, Ham.
  assert (Hg : ~ gone n a). { intros (_ & k & Hk & Ek). assert (k = n) by (apply (fo_inj _ _ _ _ F); [lia|lia| |exact Ek]; by rewrite Ek). lia. }
  pose proof (freeing_len _ _ _ _ Fr) as Hbl. pose proof (fr_map _ _ _ _ Fr) as M.
  destruct (bfree_run e p pid E s bl' h ∅ blk' dsk a T) as (s' & Ef & Mv); [by rewrite Hsb, Hst|lia|rewrite Hsb; lia| |].
  { rewrite Hsb, (fr_free _ _ _ _ Fr). tauto. }
  rewrite Hsb, one_map in Mv by lia. eexists s', _, _. split; [done|]. split; [exact Mv|].
  assert (Hfr : forall b, is_free sb (upd blk' BM (clr_bit (a mod BPB) (blk' BM))) b <-> is_free sb blk' b \/ b = a).
  { intros b. rewrite <- (one_map a) by lia. apply (freed_free start _ _ h); [done|apply (fr_len _ _ _ _ Fr)|lia]. }
  split.
  - destruct M as [M1 M2 M3]. split; [done|done|]. intros b [Hb|Hb]%Hfr; [by apply M3|subst b]. split; [done|]. split; [done|]. intros b' Hb'. by apply Ham.
  - intros b Hb. rewrite upd_ne by done. by apply (fr_keep _ _ _ _ Fr).
  - intros b. unfold upd. destruct (b =? BM); [|apply (fr_len _ _ _ _ Fr)]. pose proof (Z.mod_pos_bound a BPB ltac:(unfold BPB, BSIZE; lia)). apply clr_bit_length; [apply (fr_len _ _ _ _ Fr)|lia].
  - intros b. rewrite Hfr, (fr_free _ _ _ _ Fr). unfold gone. split.
    + intros [[Hb|(Hb & k & Hk & Ek)]| ->]; [by left|right; split; [done|]; exists k; split; [lia|done]|right]. split; [done|]. exists n. split; [lia|done].
    + intros [Hb|(Hb & k & Hk & Ek)]; [by left; left|]. destruct (decide (k = n)) as [->|]; [by right|]. left. right. split; [done|]. exists k. split; [lia|done].
  - right. destruct (fr_log _ _ _ _ Fr) as [->| ->]; [done|apply log_add_twice].
Qed.
(** The inode without its first [n] addresses *)
Definition zap (n : nat) : inode :=
  Inode (i_dev x) (i_inum x) (i_ref x) (i_valid x) (i_type x) (i_major x) (i_minor x) (i_nlink x) (i_size x) (replicate n 0 ++ drop n (i_addrs x)).

Lemma zap_addr n k : (n <= 13)%nat -> Z.of_nat n <= k -> addr (zap n) k = addr x k.
Proof. intros Hn Hk. unfold addr. cbn [i_addrs zap]. rewrite lookup_app_r, length_replicate, lookup_drop by (rewrite length_replicate; lia). do 2 f_equal. lia. Qed.

Lemma zap_next n : (n < 13)%nat -> set_i_addr (Z.of_nat n) 0 (zap n) = zap (S n).
Proof.
  intros Hn. pose proof (fo_len _ _ _ _ F) as Hl. unfold set_i_addr, zap. cbn [i_dev i_inum i_ref i_valid i_type i_major i_minor i_nlink i_size i_addrs]. f_equal. rewrite Nat2Z.id.
  destruct (lookup_lt_is_Some_2 (i_addrs x) n ltac:(lia)) as [a Ha]. rewrite (drop_S _ _ _ Ha). rewrite insert_app_r_alt, length_replicate, Nat.sub_diag by (rewrite length_replicate; lia).
  rewrite replicate_S_end, <- app_assoc. done.
Qed.

Lemma zap_zero n : (n < 13)%nat -> addr x (Z.of_nat n) = 0 -> zap n = zap (S n).
Proof.
  intros Hn Ha. rewrite <- zap_next by done. unfold set_i_addr, zap. cbn [i_dev i_inum i_ref i_valid i_type i_major i_minor i_nlink i_size i_addrs]. f_equal. symmetry. apply list_insert_id.
  rewrite Nat2Z.id, lookup_app_r, length_replicate, lookup_drop by (rewrite length_replicate; lia). rewrite Nat.sub_diag, Nat.add_0_r. unfold addr in Ha. rewrite Nat2Z.id in Ha.
  pose proof (fo_len _ _ _ _ F) as Hl. destruct (lookup_lt_is_Some_2 (i_addrs x) n ltac:(lia)) as [a E0]. rewrite E0 in Ha. rewrite E0. cbn in Ha. by rewrite Ha.
Qed.

(** The state in the middle of [itrunc] that started in [s0] *)
Record tstate (s0 : fs) (n : Z) (h : gset Z) (y : inode) (s : fs) (bl' : list Z) (blk' : Z -> list Z) : Prop := {
  ts_tx : tx pid (fs_log s) bl' h ∅ blk' dsk;
  ts_ino : fs_inode s !! ip = Some y;
  ts_sb : fs_sb s = sb;
  ts_start : l_start (fs_log s) = start;
  ts_free : freeing n h bl' blk';
  ts_frame : iframe ip s0 s
}.

Lemma tstate_moved s0 n n' h h' y s s' bl1 bl2 blk1 blk2 k : tstate s0 n h y s bl1 blk1 -> moved pid s s' k bl2 h' ∅ blk2 dsk -> freeing n' h' bl2 blk2 -> tstate s0 n' h' y s' bl2 blk2.
Proof.
  intros [T1 T2 T3 T4 T5 T6] (M & Fr & _) Hf. destruct Fr as [Fr1 Fr2]. split; [done|by rewrite Fr1|by rewrite Fr1|by rewrite Fr2|done|].
  eapply iframe_trans; [exact T6|]. by apply frame_iframe.
Qed.

(** A slot is freed. *)
Lemma tstate_free s0 n h y s bl' blk' : tstate s0 n h y s bl' blk' -> 0 <= n <= IND -> slot x blk n <> 0 -> slot x blk n ∉ h -> (length bl + 1 + size h < NBUF)%nat ->
  exists s' bl2 blk2, bfree ROOTDEV (slot x blk n) e s = Ret tt e s' /\ tstate s0 (n + 1) h y s' bl2 blk2 /\ hkeep h (fbio s) (fbio s').
Proof.
  intros T Hn H0 Hh Hl. destruct (freeing_step n h bl' blk' s (ts_free _ _ _ _ _ _ _ T) (ts_tx _ _ _ _ _ _ _ T) (ts_sb _ _ _ _ _ _ _ T) (ts_start _ _ _ _ _ _ _ T) Hn H0 Hh Hl) as (s' & bl2 & blk2 & E1 & M & Fr).
  exists s', bl2, blk2. split; [done|]. split; [by eapply tstate_moved|apply M].
Qed.

(** The loop over the direct blocks *)
Lemma direct_loop s0 m : forall n s bl' blk', (n + m = 12)%nat -> tstate s0 (Z.of_nat n) ∅ (zap n) s bl' blk' -> (length bl + 1 < NBUF)%nat ->
  exists s' bl2 blk2, for_each (seqZ (Z.of_nat n) (Z.of_nat m)) (fun i =>
    x <- geti ip ;;
    let a := default 0 (i_addrs x !! Z.to_nat i) in
    when (truth a)
      (bfree (i_dev x) a ;;
       updi ip (set_i_addr i 0))) e s = Ret tt e s' /\ tstate s0 12 ∅ (zap 12) s' bl2 blk2.
Proof.
  induction m as [|m IH]; intros n s bl' blk' Hnm T Hl.
  - exists s, bl', blk'. split; [done|]. replace n with 12%nat in T by lia. exact T.
  - rewrite seqZ_cons by lia. cbn [for_each]. assert (Es : slot x blk (Z.of_nat n) = addr x (Z.of_nat n)) by (apply slot_direct; clia).
    assert (Ea : default 0 (i_addrs (zap n) !! Z.to_nat (Z.of_nat n)) = slot x blk (Z.of_nat n)) by (rewrite Es; rewrite <- (zap_addr n (Z.of_nat n)) by lia; done).
    assert (Hstep : exists s1 bl1 blk1, (x <- geti ip ;; let a := default 0 (i_addrs x !! Z.to_nat (Z.of_nat n)) in when (truth a) (bfree (i_dev x) a ;; updi ip (set_i_addr (Z.of_nat n) 0))) e s = Ret tt e s1 /\
      tstate s0 (Z.of_nat (S n)) ∅ (zap (S n)) s1 bl1 blk1).
    { rewrite (bind_step _ _ _ _ _ _ _ (geti_run e ip s _ (ts_ino _ _ _ _ _ _ _ T))). cbv zeta. rewrite Ea. replace (Z.of_nat (S n)) with (Z.of_nat n + 1) by lia.
      destruct (decide (slot x blk (Z.of_nat n) = 0)) as [H0|H0].
      - rewrite H0. cbn [when truth]. exists s, bl', blk'. split; [done|]. rewrite <- zap_zero by (lia || by rewrite <- Es). destruct T as [T1 T2 T3 T4 T5 T6]. split; try done.
        apply (freeing_skip (Z.of_nat n)); [lia| |done]. intros k Hk. by replace k with (Z.of_nat n) by lia.
      - rewrite (proj2 (truth_true _)) by done. cbn [when]. change (i_dev (zap n)) with (i_dev x). rewrite (fo_dev _ _ _ _ F).
        destruct (tstate_free s0 (Z.of_nat n) ∅ (zap n) s bl' blk' T) as (s1 & bl1 & blk1 & E1 & T1 & _); [clia|done|set_solver|rewrite size_empty; lia|].
        rewrite (bind_step _ _ _ _ _ _ _ E1), updi_run. eexists _, bl1, blk1. split; [done|]. destruct T1 as [A1 A2 A3 A4 A5 A6]. split; try done.
        + cbn. rewrite list_lookup_alter_eq, A2. cbn. f_equal. apply zap_next. lia.
        + eapply iframe_trans; [exact A6|apply updi_iframe]. }
    destruct Hstep as (s1 & bl1 & blk1 & E1 & T1). rewrite (bind_step _ _ _ _ _ _ _ E1). replace (Z.succ (Z.of_nat n)) with (Z.of_nat (S n)) by lia. replace (Z.pred (Z.of_nat (S m))) with (Z.of_nat m) by lia.
    apply (IH (S n) s1 bl1 blk1); [lia|done|done].
Qed.
#[local] Notation ind := (addr x NDIRECT).

(** The loop over the entries of the indirect block, which is held *)
Lemma indirect_loop s0 bp y m : ind <> 0 -> forall n s bl' blk', (n + m = 256)%nat -> tstate s0 (12 + Z.of_nat n) {[ind]} y s bl' blk' -> handle (fbio s) bp ind -> (length bl + 2 < NBUF)%nat ->
  exists s' bl2 blk2, for_each (seqZ (Z.of_nat n) (Z.of_nat m)) (fun j =>
    d <- buf_data bp ;;
    let aj := ld 4 (4 * Z.to_nat j) d in
    when (truth aj) (bfree ROOTDEV aj)) e s = Ret tt e s' /\ tstate s0 IND {[ind]} y s' bl2 blk2 /\ handle (fbio s') bp ind.
Proof.
  intros Hi0. induction m as [|m IH]; intros n s bl' blk' Hnm T Hh Hl.
  - exists s, bl', blk'. split; [done|]. replace (12 + Z.of_nat n) with IND in T by clia. done.
  - rewrite seqZ_cons by lia. cbn [for_each]. assert (Hind : in_use start sb blk ind) by (apply (fo_used _ _ _ _ F IND); [clia|done]). destruct Hind as (Hi1 & _ & _ & Hi2).
    assert (Es : slot x blk (12 + Z.of_nat n) = ld 4 (4 * Z.to_nat (Z.of_nat n)) (blk' ind)).
    { rewrite slot_indirect by clia. rewrite (proj2 (Z.eqb_neq _ _)) by done. unfold ind_entry. rewrite (fr_keep _ _ _ _ (ts_free _ _ _ _ _ _ _ T)) by (apply Hi2; lia). do 2 f_equal. unfold NDIRECT. lia. }
    assert (Hstep : exists s1 bl1 blk1, (d <- buf_data bp ;; let aj := ld 4 (4 * Z.to_nat (Z.of_nat n)) d in when (truth aj) (bfree ROOTDEV aj)) e s = Ret tt e s1 /\
      tstate s0 (12 + Z.of_nat (S n)) {[ind]} y s1 bl1 blk1 /\ handle (fbio s1) bp ind).
    { rewrite (bind_step _ _ _ _ _ _ _ (buf_data_run e p pid E s _ _ _ _ _ ind bp (ts_tx _ _ _ _ _ _ _ T) ltac:(set_solver) Hh)). cbv zeta. rewrite <- Es. replace (12 + Z.of_nat (S n)) with (12 + Z.of_nat n + 1) by lia.
      destruct (decide (slot x blk (12 + Z.of_nat n) = 0)) as [H0|H0].
      - rewrite H0. cbn [when truth]. exists s, bl', blk'. split; [done|]. split; [|done]. destruct T as [T1 T2 T3 T4 T5 T6]. split; try done.
        apply (freeing_skip (12 + Z.of_nat n)); [lia| |done]. intros k Hk. by replace k with (12 + Z.of_nat n) by lia.
      - rewrite (proj2 (truth_true _)) by done. cbn [when].
        destruct (tstate_free s0 (12 + Z.of_nat n) {[ind]} y s bl' blk' T) as (s1 & bl1 & blk1 & E1 & T1 & K); [clia|done| |rewrite size_singleton; lia|].
        + intros Hin%elem_of_singleton. assert (12 + Z.of_nat n = IND); [|clia]. apply (fo_inj _ _ _ _ F); [clia|clia|done|by rewrite slot_IND].
        + exists s1, bl1, blk1. split; [done|]. split; [done|]. apply K; [set_solver|done]. }
    destruct Hstep as (s1 & bl1 & blk1 & E1 & T1 & Hh1). rewrite (bind_step _ _ _ _ _ _ _ E1). replace (Z.succ (Z.of_nat n)) with (Z.of_nat (S n)) by lia. replace (Z.pred (Z.of_nat (S m))) with (Z.of_nat m) by lia.
    apply (IH (S n) s1 bl1 blk1); [lia|done|done|done].
Qed.
Lemma indirect_part s0 s bl' blk' : tstate s0 12 ∅ (zap 12) s bl' blk' -> (length bl + 2 < NBUF)%nat ->
  exists s' bl2 blk2, (x <- geti ip ;;
    let a := default 0 (i_addrs x !! Z.to_nat NDIRECT) in
    when (truth a)
      (bp <- fs_bread (i_dev x) a ;;
       for_each (seqZ 0 NINDIRECT) (fun j =>
         d <- buf_data bp ;;
         let aj := ld 4 (4 * Z.to_nat j) d in
         when (truth aj) (bfree (i_dev x) aj)) ;;
       fs_brelse bp ;;
       bfree (i_dev x) a ;;
       updi ip (set_i_addr NDIRECT 0))) e s = Ret tt e s' /\ tstate s0 (IND + 1) ∅ (zap 13) s' bl2 blk2.
Proof.
  intros T Hl. rewrite (bind_step _ _ _ _ _ _ _ (geti_run e ip s _ (ts_ino _ _ _ _ _ _ _ T))). cbv zeta. change (default 0 (i_addrs (zap 12) !! Z.to_nat NDIRECT)) with (addr (zap 12) NDIRECT).
  rewrite (zap_addr 12 NDIRECT) by (unfold NDIRECT; lia). change (i_dev (zap 12)) with (i_dev x). rewrite (fo_dev _ _ _ _ F). destruct (decide (ind = 0)) as [H0|H0].
  - rewrite H0. cbn [when truth]. exists s, bl', blk'. split; [done|]. rewrite <- (zap_zero 12) by (lia || done). destruct T as [T1 T2 T3 T4 T5 T6]. split; try done.
    apply (freeing_skip 12); [clia| |done]. intros k Hk. destruct (decide (k = IND)) as [->|]; [done|]. rewrite slot_indirect by clia. by rewrite H0.
  - rewrite (proj2 (truth_true _)) by done. cbn [when]. assert (Hind : in_use start sb blk ind) by (apply (fo_used _ _ _ _ F IND); [clia|done]). destruct Hind as (Hi1 & Hi2 & Hi3 & Hi4).
    assert (Hnf : forall n b2 k2, tstate s0 n k2 (zap 12) s b2 blk' -> n <= IND -> ~ is_free sb blk' ind).
    { intros n b2 k2 T' Hn. rewrite (fr_free _ _ _ _ (ts_free _ _ _ _ _ _ _ T')). intros [Hf|(_ & k & Hk & Ek)]; [done|].
      assert (k = IND); [|lia]. apply (fo_inj _ _ _ _ F); [lia|clia|by rewrite Ek|by rewrite Ek]. }
    destruct (fs_bread_run e p pid E s bl' ∅ ∅ blk' dsk ind (ts_tx _ _ _ _ _ _ _ T)) as (bp & s1 & E1 & M1 & Hh);
      [apply not_elem_of_empty|by rewrite (ts_start _ _ _ _ _ _ _ T)|pose proof (freeing_len _ _ _ _ (ts_free _ _ _ _ _ _ _ T)); rewrite size_empty; lia|]. rewrite (bind_step _ _ _ _ _ _ _ E1). rewrite union_empty_r_L in M1.
    assert (T1 : tstate s0 (12 + Z.of_nat 0) {[ind]} (zap 12) s1 bl' blk').
    { eapply tstate_moved; [exact T|exact M1|]. apply (freeing_hold 12 ∅); [|apply T]. intros b ->%elem_of_singleton. split; [apply Hi4; lia|]. by apply (Hnf 12 bl' ∅). }
    destruct (indirect_loop s0 bp (zap 12) 256 H0 0 s1 bl' blk' eq_refl T1 Hh Hl) as (s2 & bl2 & blk2 & E2 & T2 & Hh2). change (seqZ 0 NINDIRECT) with (seqZ (Z.of_nat 0) (Z.of_nat 256)). rewrite (bind_step _ _ _ _ _ _ _ E2).
    destruct (fs_brelse_run e p pid E s2 bl2 _ _ _ _ ind bp (ts_tx _ _ _ _ _ _ _ T2)) as (s3 & E3 & M3); [by apply elem_of_singleton|apply not_elem_of_empty|done|]. rewrite (bind_step _ _ _ _ _ _ _ E3). rewrite difference_diag_L in M3.
    assert (T3 : tstate s0 IND ∅ (zap 12) s3 bl2 blk2) by (eapply tstate_moved; [exact T2|exact M3|]; apply (freeing_hold _ {[ind]}); [intros b Hb; by apply not_elem_of_empty in Hb|apply T2]).
    destruct (tstate_free s0 IND ∅ (zap 12) s3 bl2 blk2 T3) as (s4 & bl4 & blk4 & E4 & T4 & _); [clia|done|apply not_elem_of_empty|rewrite size_empty; lia|]. change (slot x blk IND) with ind in E4.
    rewrite (bind_step _ _ _ _ _ _ _ E4), updi_run. eexists _, bl4, blk4. split; [done|]. destruct T4 as [A1 A2 A3 A4 A5 A6]. split; try done.
    + cbn. rewrite list_lookup_alter_eq, A2. cbn. f_equal. apply (zap_next 12). lia.
    + eapply iframe_trans; [exact A6|apply updi_iframe].
Qed.

(** The empty file *)
Definition emptied : inode := set_i_size 0 (zap 13).

Lemma emptied_slot blk' k : 0 <= k <= IND -> slot emptied blk' k = 0.
Proof.
  intros Hk. assert (Ha : forall j, addr emptied j = 0).
  { intros j. unfold addr, emptied, zap. cbn [i_addrs set_i_size]. rewrite (drop_ge _ 13), app_nil_r by (rewrite (fo_len _ _ _ _ F); lia).
    destruct (replicate 13 0 !! Z.to_nat j) eqn:Er; [|done]. by apply lookup_replicate in Er as [-> _]. }
  unfold slot. rewrite !Ha. by destruct (k <? NDIRECT), (k =? IND).
Qed.
End Trunc.

Section Itrunc.
Context `{L : Linker} (e : env) (p : nat) (pid : Z) (E : lenv e p pid) (ip : nat).

Lemma itrunc_run s bl blk dsk x : fstate pid ip s bl blk dsk x -> sb_size (fs_sb s) <= BPB -> (length bl + 2 < NBUF)%nat ->
  exists s' bl' blk', itrunc ip e s = iupdate ip e s' /\
    fstate pid ip s' bl' blk' dsk (emptied x) /\ freeing (l_start (fs_log s)) (fs_sb s) bl blk x (IND + 1) ∅ bl' blk' /\ iframe ip s s'.
Proof.
  intros H Hone Hl. pose proof (fs_file _ _ _ _ _ _ _ H) as F. set (start := l_start (fs_log s)) in *. set (sb := fs_sb s) in *.
  assert (T0 : tstate pid ip start sb bl blk dsk x s (Z.of_nat 0) ∅ (zap x 0) s bl blk).
  { split; [apply H| |done|done| |apply iframe_refl]; [rewrite (fs_ino _ _ _ _ _ _ _ H); by destruct x|]. split; [apply F|done|apply F| |by left].
    intros b. split; [by left|]. intros [Hb|(_ & k & Hk & _)]; [done|lia]. }
  destruct (direct_loop e p pid E ip start sb bl blk dsk x F Hone s 12 0 s bl blk eq_refl T0 ltac:(lia)) as (s1 & bl1 & blk1 & E1 & T1).
  destruct (indirect_part e p pid E ip start sb bl blk dsk x F Hone s s1 bl1 blk1 T1 Hl) as (s2 & bl2 & blk2 & E2 & [A1 A2 A3 A4 A5 A6]).
  eexists (set_inodes (alter (set_i_size 0) ip (fs_inode s2)) s2), bl2, blk2. split; [|split; [|split; [exact A5|eapply iframe_trans; [exact A6|apply updi_iframe]]]].
  - unfold itrunc. change (seqZ 0 NDIRECT) with (seqZ (Z.of_nat 0) (Z.of_nat 12)). rewrite (bind_step _ _ _ _ _ _ _ E1).
    etrans; [symmetry; apply (bind_assoc (geti ip) _ (fun _ => updi ip (set_i_size 0) ;; iupdate ip))|]. by rewrite (bind_step _ _ _ _ _ _ _ E2).
  - split; [exact A1|cbn; by rewrite list_lookup_alter_eq, A2|]. cbn [fs_log set_inodes fs_sb]. rewrite A4, A3.
    assert (Hs : forall k, 0 <= k <= IND -> slot (emptied x) blk2 k = 0) by (intros k Hk; by apply (emptied_slot start sb blk x F)).
    split; [|apply F|apply A5| |apply A5| |].
    + unfold emptied, zap. cbn [i_addrs set_i_size]. rewrite (drop_ge _ 13), app_nil_r by (rewrite (fo_len _ _ _ _ F); lia). done.
    + rewrite (fr_free _ _ _ _ _ _ _ _ _ A5). intros [Hf|(Hf & _)]; [by apply (fo_boot _ _ _ _ F)|done].
    + intros k Hk H0. by rewrite Hs in H0.
    + intros j k Hj Hk H0. by rewrite Hs in H0.
Qed.

(** C19 [itrunc] of a file in good order, in a file system whose map is one block, returns; the file is empty and in
    good order, and its inode is stored.  The free blocks are those free before and the blocks of the file, the
    indirect block among them; every block but the map and the block of the inode keeps its contents, and the rest of
    the state is as before. *)
Theorem itrunc_correct s bl blk dsk x : wfile pid ip s bl blk dsk x -> 0 < IBLOCK (i_inum x) (fs_sb s) -> sb_size (fs_sb s) <= BPB -> (length bl + 2 < NBUF)%nat ->
  exists s' bl' blk' x', itrunc ip e s = Ret tt e s' /\ wfile pid ip s' bl' blk' dsk x' /\ iframe ip s s' /\
    x' = Inode (i_dev x) (i_inum x) (i_ref x) (i_valid x) (i_type x) (i_major x) (i_minor x) (i_nlink x) 0 (replicate 13 0) /\
    (forall b, is_free (fs_sb s) blk' b <-> is_free (fs_sb s) blk b \/ b <> 0 /\ exists k, 0 <= k <= IND /\ slot x blk k = b) /\
    dinode_load (blk' (IBLOCK (i_inum x) (fs_sb s))) (dip_off (i_inum x)) x' = x' /\
    (forall b, b <> IBLOCK (i_inum x) (fs_sb s) -> b <> BBLOCK 0 (fs_sb s) -> blk' b = blk b).
Proof.
  intros [H Hh R Hz Hb] Hpos Hone Hl. pose proof (fs_file _ _ _ _ _ _ _ H) as F. destruct (itrunc_run s bl blk dsk x H Hone Hl) as (s1 & bl1 & blk1 & E1 & H1 & Fr & I1).
  assert (Hsb : fs_sb s1 = fs_sb s) by apply I1. assert (Hst : l_start (fs_log s1) = l_start (fs_log s)) by apply I1.
  assert (Ex : emptied x = Inode (i_dev x) (i_inum x) (i_ref x) (i_valid x) (i_type x) (i_major x) (i_minor x) (i_nlink x) 0 (replicate 13 0)).
  { unfold emptied, zap, set_i_size. cbn [i_dev i_inum i_ref i_valid i_type i_major i_minor i_nlink i_addrs]. by rewrite (drop_ge _ 13), app_nil_r by (rewrite (fo_len _ _ _ _ F); lia). }
  assert (Hs : forall b2 k, 0 <= k <= IND -> slot (emptied x) b2 k = 0) by (intros b2 k Hk; by apply (emptied_slot (l_start (fs_log s)) (fs_sb s) blk x F)).
  assert (Hfree : forall b, is_free (fs_sb s) blk1 b <-> is_free (fs_sb s) blk b \/ b <> 0 /\ exists k, 0 <= k <= IND /\ slot x blk k = b).
  { intros b. rewrite (fr_free _ _ _ _ _ _ _ _ _ Fr). unfold gone. split; (intros [?|(Hb0 & k & Hk & Ek)]; [by left|right; split; [done|]; exists k; split; [lia|done]]). }
  assert (Hhome : forall b2, (forall b, is_free (fs_sb s) b2 b <-> is_free (fs_sb s) blk1 b) -> ino_home (l_start (fs_log s)) (fs_sb s) b2 (emptied x)).
  { intros b2 Hb2. destruct Hh as [I1' I2' I3' I4' I5']. change (i_inum (emptied x)) with (i_inum x) in *. split; try done; change (i_inum (emptied x)) with (i_inum x).
    - rewrite Hb2, Hfree. intros [Hf|(_ & k & Hk & Ek)]; [done|]. by apply (I5' k Hk).
    - intros k Hk. rewrite Hs by done. lia. }
  destruct (iupdate_run e p pid E ip s1 bl1 blk1 dsk (emptied x) H1) as (s2 & E2 & H2 & I2);
    [rewrite Hst, Hsb; by apply Hhome|pose proof (freeing_len _ _ _ _ _ _ _ _ _ Fr); lia|]. rewrite Hsb in H2. change (i_inum (emptied x)) with (i_inum x) in H2.
  assert (Hup : forall b, is_free (fs_sb s) (updated (fs_sb s) (emptied x) blk1) b <-> is_free (fs_sb s) blk1 b) by (intros b; apply store_free, Hh).
  assert (Hr : ino_range (emptied x)) by (rewrite Ex; destruct R; split; try done; by apply Forall_replicate).
  eexists s2, _, (updated (fs_sb s) (emptied x) blk1), (emptied x). split; [by rewrite E1|]. split; [|split; [by eapply iframe_trans|split; [done|split; [|split]]]].
  - assert (Hsb2 : fs_sb s2 = fs_sb s) by (etrans; [apply I2|done]). assert (Hst2 : l_start (fs_log s2) = l_start (fs_log s)) by (etrans; [apply I2|done]).
    split; [exact H2|rewrite Hst2, Hsb2; by apply Hhome|done|done|]. intros j Hj. change (i_size (emptied x)) with 0 in Hj. lia.
  - intros b. by rewrite Hup, Hfree.
  - change (i_inum x) with (i_inum (emptied x)). apply updated_load; [done|apply (fr_len _ _ _ _ _ _ _ _ _ Fr)].
  - intros b Hb1 Hb2. unfold updated. rewrite upd_ne by done. by apply (fr_keep _ _ _ _ _ _ _ _ _ Fr).
Qed.
End Itrunc.

(** ** Witness *)

Lemma itrunc_correct_witness : exists t s' blk', itrunc 0 demo_kenv (demo_ffs t) = Ret tt demo_kenv s' /\ is_free demo_fsb blk' 46.
Proof.
  destruct demo_wfile as (t & W). destruct (itrunc_correct demo_kenv 0 7 demo_lenv 0 (demo_ffs t) [] _ _ demo_inode W) as (s' & bl' & blk' & x' & E & _ & _ & _ & Hf & _);
    [reflexivity|discriminate|apply Nat.ltb_lt; reflexivity|].
  exists t, s', blk'. split; [exact E|]. apply (proj2 (Hf 46)). right. split; [discriminate|]. exists 0. split; [split; discriminate|reflexivity].
Defined.
