(* ===== verification/FsLock.v ===== *)
(** * Locking and releasing inodes

    [ilock], [iunlock], [iput] and [iunlockput] of kernel/fs.c, and a path of one name
    from the root, inside a transaction.  [istate] is the whole state of the file
    system: a transaction that holds no buffer, the super block, the inode table and
    the inode locks. *)

From stdpp Require Import base gmap sets list strings.
From Stdlib Require Import ZArith Lia.
From S2P Require Import Prelude Kernel Riscv Kalloc Vm Sched Sleeplock Bytes Bio Log Usr Fs Path Tx FsBlock FsInode FsData FsDir.

(** Process [p] runs code that holds no lock of the file system. *)
Record ienv (e : env) (p : nat) (pid : Z) : Prop := {
  ie_log : lenv e p pid;
  ie_table : ItableLock ∉ held e;
  ie_lock : forall i, SleepLk (InodeLock i) ∉ held e;
  ie_wait : forall i, no_waiter e (ChanSleepLock (InodeLock i))
}.

Record istate (pid : Z) (s : fs) (bl : list Z) (blk dsk : Z -> list Z) (start : Z) (sb : superblock) (l : list inode) (lk : sleeplocks) (u : usr) : Prop := {
  is_tx : tx pid (fs_log s) bl ∅ ∅ blk dsk;
  is_start : l_start (fs_log s) = start;
  is_sb : fs_sb s = sb;
  is_inodes : fs_inode s = l;
  is_locks : fs_locks s = lk;
  is_usr : fs_usr s = u
}.

(** The inode as [ilock] reads it. *)
Definition loaded (sb : superblock) (blk : Z -> list Z) (y : inode) : inode :=
  set_i_valid 1 (dinode_load (blk (IBLOCK (i_inum y) sb)) (dip_off (i_inum y)) y).

Section Lock.
Context (e : env) (p : nat) (pid : Z) (E : ienv e p pid).
Context (bl : list Z) (blk dsk : Z -> list Z) (start : Z) (sb : superblock) (u : usr).

Let L : lenv e p pid := ie_log _ _ _ E.
Let R : runs e p pid := be_runs _ _ _ (le_benv _ _ _ L).

Lemma ilock_load_run s l lk i y : istate pid s bl blk dsk start sb l lk u -> l !! i = Some y -> i_valid y = 0 -> i_dev y = ROOTDEV ->
  is_data start (IBLOCK (i_inum y) sb) -> (length bl < NBUF)%nat -> i_type (loaded sb blk y) <> 0 ->
  exists s', ilock_load i e s = Ret tt e s' /\ istate pid s' bl blk dsk start sb (<[i := loaded sb blk y]> l) lk u.
Proof.
  intros [T <- <- <- <- <-] Hi Hv Hd Hb Hn Ht. unfold ilock_load. rewrite (bind_step _ _ _ _ _ _ _ (geti_run e i s y Hi)), Hv. cbn [Z.eqb when]. kstep. rewrite Hd.
  set (b := IBLOCK (i_inum y) (fs_sb s)) in *.
  destruct (fs_bread_run e p pid L s bl ∅ ∅ blk dsk b T ltac:(set_solver) Hb) as (k & s1 & E1 & (T1 & F1 & K1) & Hh); [rewrite size_empty; lia|].
  rewrite (bind_step _ _ _ _ _ _ _ E1). rewrite (bind_step _ _ _ _ _ _ _ (buf_data_run e p pid L s1 bl _ _ blk dsk b k T1 ltac:(set_solver) Hh)).
  rewrite (bind_step _ _ _ _ _ _ _ (updi_run e i s1 _)). set (s2 := set_inodes _ s1).
  destruct (fs_brelse_run e p pid L s2 bl _ _ blk dsk b k T1 ltac:(set_solver) ltac:(set_solver) Hh) as (s3 & E3 & T3 & F3 & _).
  rewrite (bind_step _ _ _ _ _ _ _ E3), (bind_step _ _ _ _ _ _ _ (updi_run e i s3 _)).
  assert (Ei : alter (set_i_valid 1) i (fs_inode s3) = <[i := loaded (fs_sb s) blk y]> (fs_inode s)).
  { rewrite (proj1 F3). cbn [fs_inode with_log s2 set_inodes]. rewrite (proj1 F1). cbn [fs_inode with_log]. apply list_eq. intros j. destruct (decide (j = i)) as [->|Hj].
    - rewrite !list_lookup_alter_eq, Hi. rewrite list_lookup_insert_eq by (by eapply lookup_lt_Some). done.
    - by rewrite !list_lookup_alter_ne, list_lookup_insert_ne by done. }
  rewrite Ei. set (s4 := set_inodes _ s3).
  assert (H4 : fs_inode s4 !! i = Some (loaded (fs_sb s) blk y)) by (cbn; rewrite list_lookup_insert_eq; [done|by eapply lookup_lt_Some]).
  rewrite (bind_step _ _ _ _ _ _ _ (geti_run e i s4 _ H4)).
  rewrite (proj2 (Z.eqb_neq _ _) Ht). exists s4. split; [done|]. replace (({[b]} ∪ ∅ : gset Z) ∖ {[b]}) with (∅ : gset Z) in T3 by set_solver.
  destruct F1 as [F1 G1], F3 as [F3 G3]. split; cbn [fs_log fs_sb fs_inode fs_locks fs_usr set_inodes s4]; [done|exact (eq_trans G3 G1)|by rewrite F3; cbn; rewrite F1|done|by rewrite F3; cbn; rewrite F1|by rewrite F3; cbn; rewrite F1].
Qed.

Lemma ilock_run s l lk i y : istate pid s bl blk dsk start sb l lk u -> l !! i = Some y -> 1 <= i_ref y -> i_valid y = 0 -> i_dev y = ROOTDEV ->
  sl_locked (slock lk (InodeLock i)) = 0 -> is_data start (IBLOCK (i_inum y) sb) -> (length bl < NBUF)%nat -> i_type (loaded sb blk y) <> 0 ->
  exists s', ilock (Some i) e s = Ret tt e s' /\ istate pid s' bl blk dsk start sb (<[i := loaded sb blk y]> l) (<[InodeLock i := Sleeplock 1 pid]> lk) u.
Proof.
  intros H Hi Hr Hv Hd Hl Hb Hn Ht. pose proof H as [T Hst Hsb Hin Hlk Hu]. unfold ilock. rewrite (bind_step _ _ _ _ _ _ _ (geti_run e i s y ltac:(by rewrite Hin))). rewrite (proj2 (Z.ltb_ge _ _)) by lia.
  rewrite <- Hlk in Hl. pose proof (zoom_Ret (acquiresleep (InodeLock i)) e s tt e _ (acquiresleep_run (InodeLock i) e p pid (fs_locks s) R (ie_lock _ _ _ E i) Hl)) as Ea.
  rewrite (bind_step _ _ _ _ _ _ _ Ea). apply (ilock_load_run _ l _ i y); try done. split; try done. cbn. by rewrite Hlk.
Qed.

Lemma iunlock_run s l lk i y : istate pid s bl blk dsk start sb l lk u -> l !! i = Some y -> 1 <= i_ref y -> slock lk (InodeLock i) = Sleeplock 1 pid ->
  exists s', iunlock (Some i) e s = Ret tt e s' /\ istate pid s' bl blk dsk start sb l (<[InodeLock i := Sleeplock 0 0]> lk) u.
Proof.
  intros [T Hst Hsb Hin Hlk Hu] Hi Hr Hl. unfold iunlock. pose proof (holdingsleep_run (InodeLock i) e p pid (fs_locks s) R (ie_lock _ _ _ E i)) as Hh.
  rewrite Hlk, Hl in Hh. cbn [sl_locked sl_pid] in Hh. rewrite Z.eqb_refl in Hh. change (truth 1 && true) with true in Hh. rewrite <- Hlk in Hh.
  rewrite (bind_step _ _ _ _ _ _ _ (zoom_Ret _ e s true e _ Hh)). set (s1 := part_put _ s). rewrite (bind_step _ _ _ _ _ _ _ (geti_run e i s1 y ltac:(cbn; by rewrite Hin))).
  cbn [negb orb]. rewrite (proj2 (Z.ltb_ge _ _)) by lia.
  pose proof (zoom_Ret (releasesleep (InodeLock i)) e s1 tt e _ (releasesleep_run (InodeLock i) e p pid (fs_locks s1) R (ie_lock _ _ _ E i) (ie_wait _ _ _ E i))) as Er.
  eexists. split; [exact Er|]. split; try done. cbn. by rewrite Hlk.
Qed.

(** [iput] of an inode that stays in use or keeps a link *)
Lemma iput_run s l lk i y : istate pid s bl blk dsk start sb l lk u -> l !! i = Some y -> i_ref y <> 1 \/ i_valid y = 0 \/ i_nlink y <> 0 ->
  exists s', iput i e s = Ret tt e s' /\ istate pid s' bl blk dsk start sb (<[i := set_i_ref (i_ref y - 1) y]> l) lk u.
Proof.
  intros [T Hst Hsb Hin Hlk Hu] Hi Hk. pose proof (ie_table _ _ _ E) as Ht. unfold iput. kstep. rewrite (bind_step _ _ _ _ _ _ _ (geti_run (locked ItableLock e) i s y ltac:(by rewrite Hin))).
  assert (Hc : (i_ref y =? 1) && truth (i_valid y) && (i_nlink y =? 0) = false).
  { unfold truth. destruct (Z.eqb_spec (i_ref y) 1), (Z.eqb_spec (i_valid y) 0), (Z.eqb_spec (i_nlink y) 0); cbn; try done. destruct Hk as [Hk|[Hk|Hk]]; done. }
  rewrite Hc. cbn [when]. kstep. rewrite (bind_step _ _ _ _ _ _ _ (updi_run _ i s _)). eexists. split; [by apply release_locked|].
  split; try done. cbn. rewrite Hin. apply list_eq. intros j. destruct (decide (j = i)) as [->|Hj].
  - by rewrite list_lookup_alter_eq, Hi, list_lookup_insert_eq by (by eapply lookup_lt_Some).
  - by rewrite list_lookup_alter_ne, list_lookup_insert_ne by done.
Qed.

Lemma iunlockput_run s l lk i y : istate pid s bl blk dsk start sb l lk u -> l !! i = Some y -> 1 <= i_ref y -> slock lk (InodeLock i) = Sleeplock 1 pid -> i_nlink y <> 0 ->
  exists s', iunlockput i e s = Ret tt e s' /\ istate pid s' bl blk dsk start sb (<[i := set_i_ref (i_ref y - 1) y]> l) (<[InodeLock i := Sleeplock 0 0]> lk) u.
Proof.
  intros H Hi Hr Hl Hk. destruct (iunlock_run s l lk i y H Hi Hr Hl) as (s1 & E1 & H1). unfold iunlockput. rewrite (bind_step _ _ _ _ _ _ _ E1). apply (iput_run s1 l _ i y H1 Hi). auto.
Qed.

End Lock.

(** ** Files by their blocks *)

(** A file in good order on the disk, whoever refers to its inode *)
Record on_disk (start : Z) (sb : superblock) (blk : Z -> list Z) (x : inode) : Prop := {
  od_file : file_ok start sb blk x;
  od_home : ino_home start sb blk x;
  od_range : ino_range x;
  od_size : 0 <= i_size x <= MAXBYTES;
  od_back : backed x blk 0 (i_size x)
}.

Lemma on_disk_refs start sb blk x r v : on_disk start sb blk x -> on_disk start sb blk (set_i_ref r (set_i_valid v x)).
Proof. intros [F H R S B]. split; [by destruct F|by destruct H|by destruct R|done|done]. Qed.

(** The same file read from other contents of the log area *)
Section Ext.
Context (start : Z) (sb : superblock) (img blk : Z -> list Z) (Hb : forall b, is_data start b -> blk b = img b).

Lemma ext_slot x k : file_ok start sb img x -> slot x blk k = slot x img k.
Proof.
  intros F. unfold slot. destruct (k <? NDIRECT); [done|]. destruct (k =? IND); [done|]. destruct (Z.eqb_spec (addr x NDIRECT) 0) as [|Hn]; [done|].
  unfold ind_entry. rewrite Hb; [done|]. rewrite <- (slot_IND x img) in Hn |- *. assert (Hk : 0 <= IND <= IND) by (rewrite IND_eq; lia). apply (fo_used _ _ _ _ F IND Hk Hn).
Qed.

Lemma ext_free x b : file_ok start sb img x -> is_free sb blk b <-> is_free sb img b.
Proof.
  intros F. unfold is_free. split; intros [Hr H]; (split; [done|]); [rewrite <- Hb|rewrite Hb]; try done; apply (mo_map _ _ _ _ (fo_map _ _ _ _ F) b Hr).
Qed.

Lemma ext_use x a : file_ok start sb img x -> in_use start sb img a -> in_use start sb blk a.
Proof. intros F (H1 & H2 & H3 & H4). split; [done|]. split; [done|]. split; [by rewrite (ext_free x)|done]. Qed.

Lemma ext_byte x j : on_disk start sb img x -> 0 <= j < i_size x -> fbyte x blk j = fbyte x img j.
Proof.
  intros [F _ _ S B] Hj. unfold fbyte. rewrite ext_slot by done. pose proof (B j ltac:(lia)) as Hn. rewrite Hb; [done|].
  assert (Hk : 0 <= j / BSIZE < IND) by (split; [apply Z.div_pos; unfold BSIZE; clia|apply Z.div_lt_upper_bound; unfold MAXBYTES, BSIZE in *; clia]). apply (fo_used _ _ _ _ F (j / BSIZE) ltac:(lia) Hn).
Qed.

Lemma ext_contents x : on_disk start sb img x -> contents x blk = contents x img.
Proof.
  intros D. unfold contents, fbytes. apply list_fmap_ext. intros i j Hj. apply lookup_seqZ in Hj as [-> Hj]. apply ext_byte; [done|]. lia.
Qed.

Lemma ext_on_disk x : (forall b, length (blk b) = bsize) -> on_disk start sb img x -> on_disk start sb blk x.
Proof.
  intros Hl D. pose proof D as [F H R S B]. split; [| |done|done|intros j Hj; rewrite ext_slot by done; by apply B].
  - split; [apply F|apply F| |by rewrite (ext_free x); [apply F|]|done|..].
    + pose proof (fo_map _ _ _ _ F) as [M1 M2 M3]. split; [done|done|]. intros b Hf. apply M3. by rewrite <- (ext_free x).
    + intros k Hk. rewrite ext_slot by done. intros Hn. apply (ext_use x); [done|]. by apply (fo_used _ _ _ _ F).
    + intros j k Hj Hk. rewrite !ext_slot by done. by apply (fo_inj _ _ _ _ F).
  - destruct H as [H1 H2 H3 H4 H5]. split; [done|done|done|by rewrite (ext_free x)|]. intros k Hk. rewrite ext_slot by done. by apply H5.
Qed.

End Ext.

(** ** A name in a directory *)

Section Name.
Context {K : Linker}.
Context (e : env) (p : nat) (pid : Z) (E : ienv e p pid).
Context (bl : list Z) (blk dsk : Z -> list Z) (start : Z) (sb : superblock) (u : usr) (Hu : is_Some (u_pd u !! p)) (Hn : (length bl + 6 < NBUF)%nat).

Lemma istate_file s l lk i x : istate pid s bl blk dsk start sb l lk u -> l !! i = Some x -> on_disk start sb blk x -> wfile pid i s bl blk dsk x.
Proof. intros [T <- <- <- _ _] Hi [F H R S B]. split; [|done..]. by split. Qed.

(** Code that only reads the file of inode [i] *)
Lemma istate_frame s s' l lk i x : istate pid s bl blk dsk start sb l lk u -> l !! i = Some x -> wfile pid i s' bl blk dsk x -> iframe i s s' ->
  istate pid s' bl blk dsk start sb l lk u.
Proof.
  intros [T <- <- <- <- <-] Hi W (I1 & I2 & I3 & I4 & I5). pose proof (wf_state _ _ _ _ _ _ _ W) as F. split; [apply F|done|done| |done|done].
  apply list_eq. intros j. destruct (decide (j = i)) as [->|Hj]; [|by apply I5]. rewrite Hi. apply F.
Qed.

(** [iget] of an inode nobody refers to yet *)
Lemma iget_new s l lk inum : istate pid s bl blk dsk start sb l lk u -> Forall (fun z => iget_match ROOTDEV inum z = false) l -> (exists j z, l !! j = Some z /\ i_ref z = 0) ->
  exists j z s', iget ROOTDEV inum e s = Ret j e s' /\ l !! j = Some z /\ i_ref z = 0 /\ istate pid s' bl blk dsk start sb (<[j := set_i_ident ROOTDEV inum z]> l) lk u.
Proof.
  intros H Hnew (j0 & z0 & Hz0 & Hr0). pose proof (is_inodes _ _ _ _ _ _ _ _ _ _ H) as Hl.
  destruct (iget_run e s ROOTDEV inum (ie_table _ _ _ E)) as [(j & s3 & E3 & z & Hz & G)|(_ & G)].
  2: { rewrite Hl in G. by destruct (proj1 (Forall_lookup _ _) G j0 z0 Hz0). }
  rewrite Hl in Hz, G. destruct G as [(Hc & _)|(Hzr & _ & ->)]; [by rewrite (proj1 (Forall_lookup _ _) Hnew j z Hz) in Hc|].
  eexists j, z, _. split; [exact E3|]. split; [done|]. split; [done|]. by destruct H.
Qed.

(** The directory of slot [i] has the name for inode [inum], which nobody refers to yet. *)
Lemma resolve_one s l lk i y name nm inum (x := loaded sb blk y) : istate pid s bl blk dsk start sb l lk u ->
  l !! i = Some y -> 1 <= i_ref y -> i_valid y = 0 -> i_dev y = ROOTDEV -> sl_locked (slock lk (InodeLock i)) = 0 ->
  on_disk start sb blk x -> i_type x = T_DIR -> i_nlink x <> 0 -> i_size x mod sizeof_dirent = 0 ->
  dir_lookup name (contents x blk) = Some inum ->
  Forall (fun z => iget_match ROOTDEV inum z = false) (<[i := x]> l) -> (exists j z, j <> i /\ l !! j = Some z /\ i_ref z = 0) ->
  exists j z s', resolve i [name] false nm e s = Ret (Some (j, name)) e s' /\ j <> i /\ l !! j = Some z /\ i_ref z = 0 /\
    istate pid s' bl blk dsk start sb (<[i := set_i_ref (i_ref y - 1) x]> (<[j := set_i_ident ROOTDEV inum z]> l))
      (<[InodeLock i := Sleeplock 0 0]> (<[InodeLock i := Sleeplock 1 pid]> lk)) u.
Proof.
  intros H Hi Hr Hv Hd Hl D Ht Hk Hm Hf Hnew (j0 & z0 & Hj0 & Hz0 & Hz0r). pose proof (lookup_lt_Some _ _ _ Hi) as Hil. cbn [resolve].
  destruct (ilock_run e p pid E bl blk dsk start sb u s l lk i y H Hi Hr Hv Hd Hl) as (s1 & E1 & H1); [apply (ih_data _ _ _ _ (od_home _ _ _ _ D))|lia|fold x; rewrite Ht; done|].
  rewrite (bind_step _ _ _ _ _ _ _ E1). assert (Hx : <[i := x]> l !! i = Some x) by (by rewrite list_lookup_insert_eq).
  rewrite (bind_step _ _ _ _ _ _ _ (geti_run e i s1 x ltac:(rewrite (is_inodes _ _ _ _ _ _ _ _ _ _ H1); exact Hx))). rewrite Ht. change (negb (T_DIR =? T_DIR)) with false. cbn [andb]. cbv iota.
  assert (W : wdir p pid i s1 bl blk dsk x) by (split; [by apply (istate_file _ _ _ _ _ H1)|unfold has_proc; by rewrite (is_usr _ _ _ _ _ _ _ _ _ _ H1)|done|done|done]).
  destruct (dirlookup_run e p pid (ie_log _ _ _ E) i s1 bl blk dsk x name W) as (s2 & W2 & I2 & E2).
  pose proof (istate_frame _ _ _ _ _ _ H1 Hx (wd_file _ _ _ _ _ _ _ _ W2) I2) as H2.
  unfold dir_lookup in Hf. destruct (dir_find name (contents x blk)) as [k|]; [|done]. cbn [fmap option_fmap option_map] in Hf. injection Hf as Hf. rewrite Hf in E2.
  destruct (iget_new s2 _ _ inum H2 Hnew) as (j & z & s3 & E3 & Hz & Hzr & H3); [exists j0, z0; by rewrite list_lookup_insert_ne|].
  assert (Hji : j <> i) by (intros ->; pose proof (eq_trans (eq_sym Hx) Hz) as [= <-]; change (i_ref y = 0) in Hzr; lia). rewrite list_lookup_insert_ne in Hz by done.
  rewrite (bind_step _ _ _ _ _ _ _ (eq_trans E2 (bind_step _ _ _ _ _ _ _ E3))). rewrite list_insert_insert_ne in H3 by done.
  destruct (iunlockput_run e p pid E bl blk dsk start sb u s3 _ _ i x H3) as (s4 & E4 & H4); [by rewrite list_lookup_insert_eq by (by rewrite length_insert)|done|apply slock_insert|done|].
  exists j, z, s4. split; [by rewrite (bind_step _ _ _ _ _ _ _ E4)|]. split; [done|]. split; [done|]. split; [done|]. by rewrite list_insert_insert_eq in H4.
Qed.

End Name.
