(* ===== verification/Pipe.v ===== *)
(** * kernel/pipe.c: pipes

    A pipe is a ring buffer in a page of its own.  The fields of [struct pipe]
    are kept in a table indexed by the address of that page ([pipes]); the page
    itself comes from [kalloc] and returns to [kfree].  A process that sleeps in
    [pipewrite] or [piperead] ends the run with [Block]; the [_resume] functions
    are the rest of the call.

    Specification: the bytes between [nread] and [nwrite] form a queue.
    [pipewrite] appends the caller's bytes in order, [piperead] delivers the
    oldest bytes in order, and the queue never exceeds [PIPESIZE]. *)

From stdpp Require Import base gmap sets list strings.
From Stdlib Require Import ZArith Lia.
From S2P Require Import Prelude Kernel Riscv Kalloc Vm VmUser VmCopy Sched Sleeplock Bytes Ring Usr.

(** ** Definitions *)

Definition PIPESIZE : Z := 512.

(** [struct pipe] without its lock *)
Record pipe : Type := Pipe {
  pi_data : list Z;
  pi_nread : Z;
  pi_nwrite : Z;
  pi_readopen : Z;
  pi_writeopen : Z
}.

Record pipest : Type := Pipest { ps_usr : usr; ps_pipes : gmap Z pipe }.

#[export] Instance pipest_usr : Part pipest usr :=
  {| part_get := ps_usr; part_put := fun u s => Pipest u (ps_pipes s);
     part_get_put := fun _ _ => eq_refl;
     part_put_get := fun s => match s with Pipest _ _ => eq_refl end;
     part_put_put := fun _ _ _ => eq_refl |}.

Definition on_kmem {A} (m : K kmem A) : K pipest A := zoom (zoom m : K usr A).

(** [pi->...]; a pipe that was freed is not in the table *)
Definition getpipe (pi : Z) : K pipest pipe :=
  fun e s => match ps_pipes s !! pi with
             | Some x => Ret x e s
             | None => Undef "pipe"
             end.
Definition putpipe (pi : Z) (x : pipe) : K pipest unit :=
  modify (fun s => Pipest (ps_usr s) (<[pi := x]> (ps_pipes s))).

Section Pipe.
Context {L : Linker}.

Definition pipeclose (pi : Z) (writable : bool) : K pipest unit :=
  acquire (PipeLock pi) ;;
  x <- getpipe pi ;;
  (if writable then
     putpipe pi (Pipe (pi_data x) (pi_nread x) (pi_nwrite x) (pi_readopen x) 0) ;;
     wakeup (ChanPipeRead pi)
   else
     putpipe pi (Pipe (pi_data x) (pi_nread x) (pi_nwrite x) 0 (pi_writeopen x)) ;;
     wakeup (ChanPipeWrite pi)) ;;
  x <- getpipe pi ;;
  if (pi_readopen x =? 0) && (pi_writeopen x =? 0) then
    release (PipeLock pi) ;;
    on_kmem (kfree pi) ;;
    modify (fun s => Pipest (ps_usr s) (delete pi (ps_pipes s)))
  else release (PipeLock pi).

(** [pi->data[pi->nwrite++ % PIPESIZE] = ch] *)
Definition pipe_put (ch : Z) (x : pipe) : pipe :=
  Pipe (<[Z.to_nat (pi_nwrite x mod PIPESIZE) := ch]> (pi_data x)) (pi_nread x) (u32 (pi_nwrite x + 1))
       (pi_readopen x) (pi_writeopen x).

(** [ch = pi->data[pi->nread++ % PIPESIZE]] *)
Definition pipe_head (x : pipe) : Z := default 0 (pi_data x !! Z.to_nat (pi_nread x mod PIPESIZE)).
Definition pipe_skip (x : pipe) : pipe :=
  Pipe (pi_data x) (u32 (pi_nread x + 1)) (pi_nwrite x) (pi_readopen x) (pi_writeopen x).

(** [while(i < n)] of [pipewrite], with [k = n - i] bytes to go *)
Fixpoint pipewrite_loop (k : nat) (pi : Z) (pr : nat) (addr i : Z) : K pipest Z :=
  match k with
  | O =>
      wakeup (ChanPipeRead pi) ;;
      release (PipeLock pi) ;;
      ret i
  | S k' =>
      x <- getpipe pi ;;
      b <- (if pi_readopen x =? 0 then ret true else v <- killed pr ;; ret (truth v)) ;;
      if (b : bool) then
        release (PipeLock pi) ;;
        ret (-1)
      else if pi_nwrite x =? u32 (pi_nread x + PIPESIZE) then
        wakeup (ChanPipeRead pi) ;;
        sleep (ChanPipeWrite pi) (PipeLock pi) ;;
        ret 0
      else
        d <- zoom (getpd pr) ;;
        r <- on_kmem (copyin (uproc_of d) (pd_pagetable d) (u64 (addr + i)) 1) ;;
        match r with
        | None =>
            wakeup (ChanPipeRead pi) ;;
            release (PipeLock pi) ;;
            ret i
        | Some l =>
            putpipe pi (pipe_put (default 0 (l !! 0%nat)) x) ;;
            pipewrite_loop k' pi pr addr (i + 1)
        end
  end.

Definition pipewrite (pi addr n : Z) : K pipest Z :=
  pr <- curproc ;;
  acquire (PipeLock pi) ;;
  pipewrite_loop (Z.to_nat n) pi pr addr 0.

(** A writer that slept with [i] bytes written runs again. *)
Definition pipewrite_resume (pi addr n i : Z) : K pipest Z :=
  sleep_resume (PipeLock pi) ;;
  pr <- curproc ;;
  pipewrite_loop (Z.to_nat (n - i)) pi pr addr i.

(** [for(i = 0; i < n; i++)] of [piperead], with [k = n - i] bytes to go *)
Fixpoint piperead_copy (k : nat) (pi : Z) (pr : nat) (addr i : Z) : K pipest Z :=
  match k with
  | O =>
      wakeup (ChanPipeWrite pi) ;;
      release (PipeLock pi) ;;
      ret i
  | S k' =>
      x <- getpipe pi ;;
      if pi_nread x =? pi_nwrite x then
        wakeup (ChanPipeWrite pi) ;;
        release (PipeLock pi) ;;
        ret i
      else
        putpipe pi (pipe_skip x) ;;
        d <- zoom (getpd pr) ;;
        r <- on_kmem (copyout (uproc_of d) (pd_pagetable d) (u64 (addr + i)) [pipe_head x]) ;;
        if r =? -1 then
          wakeup (ChanPipeWrite pi) ;;
          release (PipeLock pi) ;;
          ret i
        else piperead_copy k' pi pr addr (i + 1)
  end.

(** [while(pi->nread == pi->nwrite && pi->writeopen)] and what follows it *)
Definition piperead_loop (pi : Z) (pr : nat) (addr n : Z) : K pipest Z :=
  x <- getpipe pi ;;
  if (pi_nread x =? pi_nwrite x) && truth (pi_writeopen x) then
    v <- killed pr ;;
    if truth v then
      release (PipeLock pi) ;;
      ret (-1)
    else
      sleep (ChanPipeRead pi) (PipeLock pi) ;;
      ret 0
  else piperead_copy (Z.to_nat n) pi pr addr 0.

Definition piperead (pi addr n : Z) : K pipest Z :=
  pr <- curproc ;;
  acquire (PipeLock pi) ;;
  piperead_loop pi pr addr n.

(** A reader that slept runs again. *)
Definition piperead_resume (pi addr n : Z) : K pipest Z :=
  sleep_resume (PipeLock pi) ;;
  pr <- curproc ;;
  piperead_loop pi pr addr n.

End Pipe.

(** ** The queue *)

(** The number of bytes in the pipe, and the bytes, oldest first. *)
Definition pq_len (x : pipe) : Z := rlen (2 ^ 32) (pi_nread x) (pi_nwrite x).
Definition pqueue (x : pipe) : list Z := ring PIPESIZE (2 ^ 32) (pi_data x) (pi_nread x) (pi_nwrite x).

Record pipe_ok (x : pipe) : Prop := {
  po_data : length (pi_data x) = Z.to_nat PIPESIZE;
  po_read : 0 <= pi_nread x < 2 ^ 32;
  po_write : 0 <= pi_nwrite x < 2 ^ 32;
  po_len : pq_len x <= PIPESIZE
}.

Lemma pipe_div : (PIPESIZE | 2 ^ 32).
Proof. by exists (2 ^ 23). Qed.

Lemma pq_len_bounds x : 0 <= pq_len x < 2 ^ 32.
Proof. by apply (rlen_bounds PIPESIZE). Qed.

Lemma pqueue_length x : length (pqueue x) = Z.to_nat (pq_len x).
Proof. apply ring_length. Qed.

(** The tests for an empty and a full pipe. *)
Lemma pipe_empty_test x : pipe_ok x -> (pi_nread x =? pi_nwrite x) = (pq_len x =? 0).
Proof.
  intros [_ Hr Hw _]. pose proof (rlen_0 PIPESIZE (2 ^ 32) ltac:(done) ltac:(done) _ _ Hr Hw) as E. unfold pq_len.
  destruct (Z.eqb_spec (pi_nread x) (pi_nwrite x)), (Z.eqb_spec (rlen (2 ^ 32) (pi_nread x) (pi_nwrite x)) 0); tauto.
Qed.

Lemma pipe_full_test x : pipe_ok x -> (pi_nwrite x =? u32 (pi_nread x + PIPESIZE)) = (pq_len x =? PIPESIZE).
Proof.
  intros [_ Hr Hw Hl]. pose proof (rlen_size PIPESIZE (2 ^ 32) ltac:(done) ltac:(done) (pi_nread x) _ Hw) as E.
  unfold pq_len, uint_wrap in *.
  destruct (Z.eqb_spec (rlen (2 ^ 32) (pi_nread x) (pi_nwrite x)) PIPESIZE) as [H|H].
  - apply Z.eqb_eq. by apply E.
  - apply Z.eqb_neq. by rewrite <- E.
Qed.

(** Adding a byte to a pipe that is not full. *)
Lemma pipe_put_ok x ch :
  pipe_ok x -> pq_len x < PIPESIZE -> pipe_ok (pipe_put ch x) /\ pqueue (pipe_put ch x) = pqueue x ++ [ch].
Proof.
  intros [Hd Hr Hw Hl] Hn. pose proof (pq_len_bounds x) as Hb. split.
  - split; simpl; [by rewrite length_insert|done|apply uint_wrap_range; lia|]. unfold pq_len in *. cbn [pi_nread pi_nwrite pipe_put pipe_skip]. unfold uint_wrap.
    rewrite (rlen_put PIPESIZE (2 ^ 32)); unfold PIPESIZE in *; lia.
  - by apply (ring_put PIPESIZE (2 ^ 32) ltac:(done) pipe_div ltac:(done)).
Qed.

(** Taking the oldest byte. *)
Lemma pipe_skip_ok x :
  pipe_ok x -> 0 < pq_len x -> pipe_ok (pipe_skip x) /\ pqueue x = pipe_head x :: pqueue (pipe_skip x).
Proof.
  intros [Hd Hr Hw Hl] Hn. pose proof (pq_len_bounds x) as Hb. split.
  - split; simpl; [done|apply uint_wrap_range; lia|done|]. unfold pq_len in *. cbn [pi_nread pi_nwrite pipe_put pipe_skip]. unfold uint_wrap.
    rewrite (rlen_skip PIPESIZE (2 ^ 32)); unfold PIPESIZE in *; lia.
  - unfold pqueue, pipe_head. rewrite (ring_skip PIPESIZE (2 ^ 32) ltac:(done) pipe_div ltac:(done)) by done.
    unfold rat at 1. by rewrite Z.add_0_r.
Qed.

(** ** Running the code *)

Lemma killed_run {T} p q e (t : T) :
  ProcLock p ∉ held e -> procs e !! p = Some q -> killed p e t = Ret (p_killed q) e t.
Proof.
  intros Hl Hq. unfold killed. kstep.
  rewrite (bind_step _ _ _ _ _ _ _ (getp_run p q (locked (ProcLock p) e) t Hq)). by ksteps.
Qed.

Lemma getpd_run p d e s : u_pd s !! p = Some d -> getpd p e s = Ret d e s.
Proof. intros H. unfold getpd. by rewrite H. Qed.

Lemma getpipe_run pi x e s : ps_pipes s !! pi = Some x -> getpipe pi e s = Ret x e s.
Proof. intros H. unfold getpipe. by rewrite H. Qed.

Lemma on_kmem_run {A} (m : K kmem A) e s a e' k' :
  m e (u_kmem (ps_usr s)) = Ret a e' k' -> on_kmem m e s = Ret a e' (Pipest (Usr k' (u_pd (ps_usr s))) (ps_pipes s)).
Proof. intros H. unfold on_kmem, zoom. simpl. by rewrite H. Qed.

Lemma getpd_zoom p d e s : u_pd (ps_usr s) !! p = Some d -> zoom (getpd p) e s = Ret d e s.
Proof. intros H. unfold zoom. simpl. rewrite (getpd_run p d e _ H). by destruct s. Qed.

Section Run.
Context {L : Linker} (Hlink : linker_ok).
Context (e : env) (p : nat) (q : proc) (pi : Z) (d : pdata) (B : Z).
Context (Hcur : cproc e = Some p) (Hheld : held e = ∅) (Hps : procs_ok e)
  (Hq : procs e !! p = Some q) (Hnk : p_killed q = 0).
Context (HBa : page_aligned B) (HB : 0 <= B <= MAXVA) (Hsz : pd_sz d <= B).

Let root := pd_pagetable d.

(** The context while the pipe's lock is held, and after waking [c]'s sleepers. *)
Let el := locked (PipeLock pi) e.
Definition woken_env (c : channel) : env := set_procs e (wake_all (cproc e) c (procs e)).
(** ... and when the process then went to sleep on [c']. *)
Definition slept_env (ps : list proc) (c' : channel) : env :=
  set_procs (set_held e {[ProcLock p]}) (alter (asleep c') p ps).

Lemma el_free l : l <> PipeLock pi -> l ∉ held el.
Proof. intros H. unfold el. rewrite held_locked, Hheld. set_solver. Qed.

Lemma el_kfree : kfree_locks el.
Proof. split; by apply el_free. Qed.

Lemma wakeup_locked {T} c (t : T) : wakeup c el t = Ret tt (locked (PipeLock pi) (woken_env c)) t.
Proof. rewrite wakeup_run; [done|done|]. intros i _. by apply el_free. Qed.

Lemma woken_held c : held (woken_env c) = ∅.
Proof. done. Qed.

(** [wakeup(c); release(&pi->lock);] *)
Lemma wakeup_release {A} c (a : A) (t : pipest) :
  (wakeup c ;; release (PipeLock pi) ;; ret a) el t = Ret a (woken_env c) t.
Proof.
  rewrite (bind_step _ _ _ _ _ _ _ (wakeup_locked c t)).
  rewrite (bind_step _ _ _ _ _ _ _ (release_locked (PipeLock pi) (woken_env c) t ltac:(rewrite woken_held; set_solver))). done.
Qed.

Lemma wake_all_cur c : wake_all (cproc e) c (procs e) !! p = Some q.
Proof.
  unfold wake_all. rewrite list_lookup_imap, Hq. simpl. by rewrite bool_decide_eq_true_2 by done.
Qed.

(** [wakeup(c); sleep(c', &pi->lock);] *)
Lemma wakeup_sleep {A} c c' (a : A) (t : pipest) :
  (wakeup c ;; sleep c' (PipeLock pi) ;; ret a) el t = Block (slept_env (wake_all (cproc e) c (procs e)) c') t.
Proof.
  rewrite (bind_step _ _ _ _ _ _ _ (wakeup_locked c t)).
  assert (Es : sleep c' (PipeLock pi) (locked (PipeLock pi) (woken_env c)) t
               = Block (slept_env (wake_all (cproc e) c (procs e)) c') t).
  { rewrite (sleep_run p q); [done|done| |done|apply wake_all_cur]. rewrite held_locked, woken_held. set_solver. }
  unfold bind. by rewrite Es.
Qed.

Lemma killed_el {T} (t : T) : killed p el t = Ret 0 el t.
Proof. rewrite <- Hnk. apply killed_run; [by apply el_free|done]. Qed.

(** *** Writing *)

Context (addr n : Z) (Haddr : 0 <= addr) (Hn : addr + n < 2 ^ 64).

(** User memory changed by mapping zeroed pages of the range only. *)
Definition faulted (k : kmem) (l : list Z) (k' : kmem) (l' : list Z) : Prop :=
  uwrite root B addr n (fun _ => False) k l k' l'.

Record uready (s : pipest) (l : list Z) : Prop := {
  ur_pd : u_pd (ps_usr s) !! p = Some d;
  ur_ust : ust root B (u_kmem (ps_usr s)) l 0;
  ur_guard : uguard (u_kmem (ps_usr s)) root B
}.

Lemma copyin_byte s l i :
  uready s l -> 0 <= i < n ->
  exists r k' l', on_kmem (copyin (uproc_of d) (pd_pagetable d) (u64 (addr + i)) 1) el s
      = Ret r el (Pipest (Usr k' (u_pd (ps_usr s))) (ps_pipes s)) /\
    faulted (u_kmem (ps_usr s)) l k' l' /\
    match r with
    | Some bs => exists b, bs = [b] /\ ubyte k' root B (addr + i) = Some b
    | None => ubyte (u_kmem (ps_usr s)) root B (addr + i) = None
    end.
Proof.
  intros [Hpd Hu Hg] Hi. rewrite uint_wrap_small by lia.
  destruct (copyin_loop_run Hlink el root B (pd_sz d) el_kfree HBa HB Hsz (Z.to_nat 1) (u_kmem (ps_usr s)) l (addr + i) 1)
    as (r & k' & l' & E & W & Hr); [done|done|lia|lia|].
  exists r, k', l'. split; [by apply on_kmem_run|]. split.
  - eapply uwrite_weaken; [| | |exact W]; [lia|lia|done].
  - destruct r as [bs|].
    + destruct Hr as [Hlen Hr]. destruct bs as [|b [|]]; [done| |done]. exists b. split; [done|].
      specialize (Hr 0%nat b eq_refl). by rewrite Z.add_0_r in Hr.
    + destruct Hr as (j & Hj & Hr). replace j with 0 in Hr by lia. by rewrite Z.add_0_r in Hr.
Qed.

Lemma uready_step s l k' l' ps :
  uready s l -> faulted (u_kmem (ps_usr s)) l k' l' -> uready (Pipest (Usr k' (u_pd (ps_usr s))) ps) l'.
Proof.
  intros [Hpd Hu Hg] W. split; [done|apply W|]. eapply uguard_high; [apply W|done].
Qed.

(** What a run of the writer's loop from byte [i] on, with [k] bytes to go, does:
    it appends the bytes [bs] of the caller, and either all are written, or the
    pipe is full and the writer sleeps, or the next byte cannot be read. *)
Record wrote (k : nat) (i : Z) (s : pipest) (l : list Z) (x : pipe) (o : outcome pipest Z) : Prop := {
  wr_ex : exists bs k' l' x' s',
    s' = Pipest (Usr k' (u_pd (ps_usr s))) (<[pi := x']> (ps_pipes s)) /\
    pipe_ok x' /\ pqueue x' = pqueue x ++ bs /\
    pi_readopen x' = pi_readopen x /\ pi_writeopen x' = pi_writeopen x /\
    faulted (u_kmem (ps_usr s)) l k' l' /\
    (forall j b, bs !! j = Some b -> ubyte k' root B (addr + i + Z.of_nat j) = Some b) /\
    ((length bs = k /\ o = Ret (i + Z.of_nat k) (woken_env (ChanPipeRead pi)) s') \/
     ((length bs < k)%nat /\ pq_len x' = PIPESIZE /\
      o = Block (slept_env (wake_all (cproc e) (ChanPipeRead pi) (procs e)) (ChanPipeWrite pi)) s') \/
     ((length bs < k)%nat /\ ubyte (u_kmem (ps_usr s)) root B (addr + i + Z.of_nat (length bs)) = None /\
      o = Ret (i + Z.of_nat (length bs)) (woken_env (ChanPipeRead pi)) s'))
}.

Lemma pipest_same s x : ps_pipes s !! pi = Some x ->
  s = Pipest (Usr (u_kmem (ps_usr s)) (u_pd (ps_usr s))) (<[pi := x]> (ps_pipes s)).
Proof. intros H. destruct s as [[k pd] ps]. simpl in *. by rewrite insert_id. Qed.

Lemma pipewrite_loop_run k : forall i s l x,
  uready s l -> ps_pipes s !! pi = Some x -> pipe_ok x -> pi_readopen x <> 0 -> 0 <= i -> i + Z.of_nat k = n ->
  wrote k i s l x (pipewrite_loop k pi p addr i el s).
Proof.
  induction k as [|k IH]; intros i s l x U Hx Hok Hro Hi Hk; simpl.
  - split. exists [], (u_kmem (ps_usr s)), l, x, s. rewrite app_nil_r, (wakeup_release (ChanPipeRead pi) i s).
    split; [by apply pipest_same|]. split_and!; try done; [apply uwrite_refl, U|]. left. by rewrite Z.add_0_r.
  - rewrite (bind_step _ _ _ _ _ _ _ (getpipe_run pi x el s Hx)). rewrite (proj2 (Z.eqb_neq _ _) Hro).
    rewrite bind_assoc, (bind_step _ _ _ _ _ _ _ (killed_el s)). kstep. change (truth 0) with false. cbv iota.
    rewrite (pipe_full_test x Hok). destruct (Z.eqb_spec (pq_len x) PIPESIZE) as [Hfull|Hfull].
    + split. exists [], (u_kmem (ps_usr s)), l, x, s. rewrite app_nil_r, wakeup_sleep.
      split; [by apply pipest_same|]. split_and!; try done; [apply uwrite_refl, U|]. right. left. simpl. split; [lia|done].
    + rewrite (bind_step _ _ _ _ _ _ _ (getpd_zoom p d el s (ur_pd _ _ U))).
      destruct (copyin_byte s l i U ltac:(lia)) as (r & k1 & l1 & E1 & W1 & Hr).
      rewrite (bind_step _ _ _ _ _ _ _ E1). pose proof (uready_step s l k1 l1 (ps_pipes s) U W1) as U1.
      destruct r as [bs|].
      * destruct Hr as (b & -> & Hb). cbn [list_lookup lookup default from_option].
        set (s1 := Pipest (Usr k1 (u_pd (ps_usr s))) (ps_pipes s)) in *.
        set (s2 := Pipest (ps_usr s1) (<[pi := pipe_put b x]> (ps_pipes s1))).
        destruct (pipe_put_ok x b Hok) as [Hok2 Hq2]; [destruct Hok; lia|].
        destruct (IH (i + 1) s2 l1 (pipe_put b x)) as [(bs & k' & l' & x' & s' & -> & Hok' & Hq' & H3 & H4 & W & Hb' & Ho)];
          [by split; apply U1|apply lookup_insert_eq|done|done|lia|lia|].
        split. exists (b :: bs), k', l', x', (Pipest (Usr k' (u_pd (ps_usr s))) (<[pi := x']> (ps_pipes s))).
        split; [done|]. split; [done|]. split; [by rewrite Hq', Hq2, <- app_assoc|]. split; [done|]. split; [done|].
        split; [by eapply uwrite_trans|]. split.
        { intros [|j] c Hc; simpl in Hc.
          - injection Hc as <-. rewrite Z.add_0_r. apply (uw_some _ _ _ _ _ _ _ _ _ W); [tauto|done].
          - apply Hb' in Hc. replace (addr + i + Z.of_nat (S j)) with (addr + (i + 1) + Z.of_nat j) by lia. done. }
        change (modify _ el s1) with (Ret tt el s2 : outcome pipest unit).
        assert (Ep : putpipe pi (pipe_put b x) el s1 = Ret tt el s2) by done.
        rewrite (bind_step _ _ _ _ _ _ _ Ep). simpl in Ho. rewrite insert_insert_eq in Ho. simpl.
        replace (i + 1 + Z.of_nat k) with (i + Z.of_nat (S k)) in Ho by lia.
        cbn [length]. destruct Ho as [[Hlen ->]|[(Hlen & Hfl & ->)|(Hlen & Hno & ->)]].
        -- left. split; [lia|done].
        -- right. left. split; [lia|]. done.
        -- right. right. split; [lia|]. split.
           ++ replace (addr + i + Z.of_nat (S (length bs))) with (addr + (i + 1) + Z.of_nat (length bs)) by lia.
              destruct (ubyte (u_kmem (ps_usr s)) root B (addr + (i + 1) + Z.of_nat (length bs))) as [c|] eqn:Ec; [|done].
              apply (uw_some _ _ _ _ _ _ _ _ _ W1) in Ec; [|tauto]. simpl in Hno. by rewrite Ec in Hno.
           ++ by replace (i + 1 + Z.of_nat (length bs)) with (i + Z.of_nat (S (length bs))) by lia.
      * rewrite (wakeup_release (ChanPipeRead pi) i _).
        split. exists [], k1, l1, x, (Pipest (Usr k1 (u_pd (ps_usr s))) (ps_pipes s)). rewrite app_nil_r.
        split; [by rewrite insert_id|]. split_and!; try done. right. right. simpl. rewrite !Z.add_0_r. split; [lia|done].
Qed.

(** *** Reading *)

(** User memory changed in [[addr + i, addr + i + k)] only. *)
Definition stored (k : nat) (i : Z) (m : kmem) (l : list Z) (m' : kmem) (l' : list Z) : Prop :=
  uwrite root B (addr + i) (Z.of_nat k) (fun va => addr + i <= va < addr + i + Z.of_nat k) m l m' l'.

Lemma copyout_byte s l i b :
  uready s l -> 0 <= i < n -> is_byte b ->
  exists r k' l', on_kmem (copyout (uproc_of d) (pd_pagetable d) (u64 (addr + i)) [b]) el s
      = Ret r el (Pipest (Usr k' (u_pd (ps_usr s))) (ps_pipes s)) /\
    stored 1 i (u_kmem (ps_usr s)) l k' l' /\
    ((r = 0 /\ ubyte k' root B (addr + i) = Some b) \/ r = -1).
Proof.
  intros [Hpd Hu Hg] Hi Hb. rewrite uint_wrap_small by lia.
  destruct (copyout_loop_run Hlink el root B (pd_sz d) el_kfree HBa HB Hsz 1 (u_kmem (ps_usr s)) l (addr + i) [b])
    as (r & k' & l' & E & W & Hr); [done|done|lia|done|by constructor|].
  exists r, k', l'. split; [by apply on_kmem_run|]. split; [exact W|].
  destruct Hr as [[-> Hr]|]; [left|by right]. split; [done|].
  specialize (Hr 0%nat b eq_refl). by rewrite Z.add_0_r in Hr.
Qed.

(** What the reader's loop does from byte [i] on, with [k] bytes to go: it takes
    the bytes [bs] from the front of the queue and stores them in the caller's
    buffer.  It stops when [n] bytes are read or the pipe is empty; a byte that
    cannot be stored is lost. *)
Record took (k : nat) (i : Z) (s : pipest) (l : list Z) (x : pipe) (o : outcome pipest Z) : Prop := {
  tk_ex : exists bs lost k' l' x',
    pipe_ok x' /\ pqueue x = bs ++ lost ++ pqueue x' /\
    pi_readopen x' = pi_readopen x /\ pi_writeopen x' = pi_writeopen x /\
    stored k i (u_kmem (ps_usr s)) l k' l' /\
    (forall j b, bs !! j = Some b -> ubyte k' root B (addr + i + Z.of_nat j) = Some b) /\
    (length bs <= k)%nat /\
    ((lost = [] /\ (length bs = k \/ pqueue x' = [])) \/ ((length bs < k)%nat /\ exists b, lost = [b])) /\
    o = Ret (i + Z.of_nat (length bs)) (woken_env (ChanPipeWrite pi))
          (Pipest (Usr k' (u_pd (ps_usr s))) (<[pi := x']> (ps_pipes s)))
}.

Lemma pipe_head_byte x : pipe_ok x -> Forall is_byte (pi_data x) -> is_byte (pipe_head x).
Proof.
  intros [Hd _ _ _] Hb. unfold pipe_head.
  destruct (pi_data x !! Z.to_nat (pi_nread x mod PIPESIZE)) as [b|] eqn:E; simpl; [|done].
  by apply (proj1 (Forall_lookup _ _) Hb _ _ E).
Qed.

Lemma took_done k i s l x :
  uready s l -> ps_pipes s !! pi = Some x -> pipe_ok x -> (k = 0%nat \/ pqueue x = []) ->
  took k i s l x ((wakeup (ChanPipeWrite pi) ;; release (PipeLock pi) ;; ret i) el s).
Proof.
  intros U Hx Hok Hk. rewrite wakeup_release. split. exists [], [], (u_kmem (ps_usr s)), l, x.
  rewrite Z.add_0_r, <- (pipest_same s x Hx). split_and!; try done; [apply uwrite_refl, U|simpl; lia|].
  left. split; [done|]. destruct Hk as [->|Hk]; auto.
Qed.

Lemma piperead_copy_run k : forall i s l x,
  uready s l -> ps_pipes s !! pi = Some x -> pipe_ok x -> Forall is_byte (pi_data x) -> 0 <= i -> i + Z.of_nat k = n ->
  took k i s l x (piperead_copy k pi p addr i el s).
Proof.
  induction k as [|k IH]; intros i s l x U Hx Hok Hby Hi Hk; simpl; [apply took_done; auto|].
  rewrite (bind_step _ _ _ _ _ _ _ (getpipe_run pi x el s Hx)). rewrite (pipe_empty_test x Hok).
  destruct (Z.eqb_spec (pq_len x) 0) as [He|He].
  { apply took_done; auto. right. unfold pqueue, ring. unfold pq_len in He. by rewrite He. }
  pose proof (pq_len_bounds x). destruct (pipe_skip_ok x Hok ltac:(lia)) as [Hok1 Hq1].
  set (s1 := Pipest (ps_usr s) (<[pi := pipe_skip x]> (ps_pipes s))).
  assert (U1 : uready s1 l) by (split; apply U).
  assert (Ep : putpipe pi (pipe_skip x) el s = Ret tt el s1) by done. rewrite (bind_step _ _ _ _ _ _ _ Ep).
  rewrite (bind_step _ _ _ _ _ _ _ (getpd_zoom p d el s1 (ur_pd _ _ U1))).
  destruct (copyout_byte s1 l i (pipe_head x) U1 ltac:(lia) (pipe_head_byte x Hok Hby)) as (r & k1 & l1 & E1 & W1 & Hr).
  rewrite (bind_step _ _ _ _ _ _ _ E1).
  set (s2 := Pipest (Usr k1 (u_pd (ps_usr s1))) (ps_pipes s1)) in *.
  assert (W1' : stored (S k) i (u_kmem (ps_usr s)) l k1 l1)
    by (unfold stored; eapply uwrite_weaken; [| | |exact W1]; simpl; lia).
  destruct Hr as [[-> Hb]| ->].
  - change (0 =? -1) with false. cbv iota.
    assert (U2 : uready s2 l1).
    { split; [apply U|apply W1|]. eapply uguard_high; [apply W1|apply U]. }
    destruct (IH (i + 1) s2 l1 (pipe_skip x)) as [(bs & lost & k' & l' & x' & Hok' & Hq' & H3 & H4 & W & Hbs & Hlen & Hc & ->)];
      [done|apply lookup_insert_eq|done|done|lia|lia|].
    split. exists (pipe_head x :: bs), lost, k', l', x'. split; [done|]. split; [by rewrite Hq1, Hq'|].
    split; [done|]. split; [done|]. split.
    { unfold stored. eapply uwrite_trans; [exact W1'|]. eapply uwrite_weaken; [| | |exact W]; simpl; lia. }
    split.
    { intros [|j] c Hc'; simpl in Hc'.
      - injection Hc' as <-. rewrite Z.add_0_r. apply (uw_some _ _ _ _ _ _ _ _ _ W); [lia|done].
      - apply Hbs in Hc'. replace (addr + i + Z.of_nat (S j)) with (addr + (i + 1) + Z.of_nat j) by lia. done. }
    cbn [length]. split; [lia|]. split.
    { destruct Hc as [[? [?|?]]|[? ?]]; [left; split; [done|lia]|left; auto|right; split; [lia|done]]. }
    unfold s2, s1. simpl. rewrite insert_insert_eq.
    by replace (i + 1 + Z.of_nat (length bs)) with (i + Z.of_nat (S (length bs))) by lia.
  - change (-1 =? -1) with true. cbv iota. rewrite wakeup_release.
    split. exists [], [pipe_head x], k1, l1, (pipe_skip x). rewrite Z.add_0_r. split_and!; try done; [simpl; lia|].
    right. split; [simpl; lia|by exists (pipe_head x)].
Qed.

End Run.

(** ** The pipe is a bounded queue *)

(** Process [p] calls with a buffer of [n] bytes at [addr]; it holds no lock,
    and its user memory ends at [B]. *)
Record pipe_caller (e : env) (p : nat) (d : pdata) (B addr n : Z) : Prop := {
  pc_cur : cproc e = Some p;
  pc_held : held e = ∅;
  pc_procs : procs_ok e;
  pc_alive : exists q, procs e !! p = Some q /\ p_killed q = 0;
  pc_align : page_aligned B;
  pc_top : 0 <= B <= MAXVA;
  pc_sz : pd_sz d <= B;
  pc_addr : 0 <= addr;
  pc_n : 0 <= n;
  pc_end : addr + n < 2 ^ 64
}.

Section Claims.
Context {L : Linker} (Hlink : linker_ok).

(** C36 Writing to a pipe whose read end is open appends to its queue, in order, the
    bytes [bs] user code sees at [addr], and wakes the readers.  Either all
    [n] bytes are written and [n] is returned; or the pipe is full
    ([PIPESIZE] bytes) and the writer sleeps with the pipe's lock released;
    or the byte after [bs] is not readable and the number of bytes written
    is returned.  Nothing else changes in user memory. *)
Theorem pipewrite_correct e p d B pi addr n s l x :
  pipe_caller e p d B addr n -> uready p d B s l ->
  ps_pipes s !! pi = Some x -> pipe_ok x -> pi_readopen x <> 0 ->
  wrote e p pi d B addr n (Z.to_nat n) 0 s l x (pipewrite pi addr n e s).
Proof.
  intros [Hc Hh Hp (q & Hq & Hk) HBa HB Hsz Ha Hn He] U Hx Hok Hro. unfold pipewrite.
  rewrite (bind_step _ _ _ _ _ _ _ (curproc_run p e s Hc)).
  rewrite (bind_step _ _ _ _ _ _ _ (acquire_free (PipeLock pi) e s ltac:(rewrite Hh; set_solver))).
  by apply (pipewrite_loop_run Hlink e p q pi d B Hc Hh Hp Hq Hk HBa HB Hsz addr n Ha He); try lia.
Qed.


End Claims.

(** *** Witnesses *)

#[local] Existing Instance demo_linker.

Definition demo_pd : pdata := Pdata 0 8192 (demo_page 9) 0 CodeNull 0 (replicate NOFILE None) None [].
Definition demo_proc0 : proc := Proc RUNNING ChanNull 0 0 7 None.
Definition demo_penv : env := Env ∅ (demo_proc0 :: replicate 63 (Proc UNUSED ChanNull 0 0 0 None)) (Some 0%nat) 8 None.
(** A pipe with the bytes 1, 2, 3. *)
Definition demo_pipe : pipe := Pipe ([1; 2; 3] ++ replicate 509 0) 0 3 1 1.
Definition demo_pipest : pipest := Pipest (Usr demo_kmem [demo_pd]) {[demo_page 10 := demo_pipe]}.

Lemma demo_caller addr n : 0 <= addr -> 0 <= n -> addr + n < 2 ^ 64 -> pipe_caller demo_penv 0 demo_pd TRAPFRAME addr n.
Proof.
  intros Ha Hn He. split; [reflexivity|reflexivity|reflexivity|exists demo_proc0; split; reflexivity|reflexivity
    |vm_compute; split; congruence|vm_compute; congruence|exact Ha|exact Hn|exact He].
Qed.

Lemma demo_uready : uready 0 demo_pd TRAPFRAME demo_pipest demo_free.
Proof. split; [reflexivity|apply demo_ust|apply demo_guard]. Qed.

Lemma demo_pipe_ok : pipe_ok demo_pipe.
Proof. split; [reflexivity|simpl; lia|simpl; lia|vm_compute; congruence]. Qed.

Lemma pipewrite_correct_witness :
  wrote demo_penv 0 (demo_page 10) demo_pd TRAPFRAME 4094 5 5 0 demo_pipest demo_free demo_pipe
        (pipewrite (demo_page 10) 4094 5 demo_penv demo_pipest).
Proof.
  apply (pipewrite_correct demo_linker_ok demo_penv 0 demo_pd TRAPFRAME (demo_page 10) 4094 5 demo_pipest demo_free demo_pipe);
    [apply demo_caller; lia|apply demo_uready|apply lookup_singleton_eq|apply demo_pipe_ok|discriminate].
Defined.

