(* ===== verification/Uart.v ===== *)
(** * kernel/uart.c: the serial port driver

    The 16550 device is seen through its registers (documented at the address
    uart.c gives): the line status register tells whether the transmit holding
    register can take a byte ([LSR_TX_IDLE]) and whether a received byte is
    waiting ([LSR_RX_READY]); reading the receive register takes that byte.  The
    device's behaviour is an input of the model: [ua_idle] is the list of answers
    to the coming reads of [LSR_TX_IDLE], [ua_rx] the received bytes.  [ua_out]
    records the writes to the device's registers, oldest first.

    [push_off]/[pop_off] around [uartputc_sync] change nothing that is modelled
    here.  A CPU that spins forever does not return, which the model writes as
    [spin_forever]. *)

From stdpp Require Import base gmap sets list strings.
From Stdlib Require Import ZArith Lia.
From S2P Require Import Prelude Kernel Sched Sleeplock Ring.

(** ** Definitions *)

Definition THR : Z := 0.
Definition RHR : Z := 0.
Definition IER : Z := 1.
Definition IER_RX_ENABLE : Z := 1.
Definition IER_TX_ENABLE : Z := 2.
Definition FCR : Z := 2.
Definition FCR_FIFO_ENABLE : Z := 1.
Definition FCR_FIFO_CLEAR : Z := 6.
Definition LCR : Z := 3.
Definition LCR_EIGHT_BITS : Z := 3.
Definition LCR_BAUD_LATCH : Z := 128.
Definition LSR_RX_READY : Z := 1.
Definition LSR_TX_IDLE : Z := 32.
Definition UART_TX_BUF_SIZE : Z := 32.

(** The driver's transmit buffer, the globals of printf.c it reads, and the device. *)
Record uart : Type := Uart {
  uart_tx_buf : list Z;
  uart_tx_w : Z;
  uart_tx_r : Z;
  panicking : Z;
  panicked : Z;
  ua_rx : list Z;
  ua_idle : list bool;
  ua_out : list (Z * Z)
}.

Definition set_tx (buf : list Z) (w r : Z) (s : uart) : uart :=
  Uart buf w r (panicking s) (panicked s) (ua_rx s) (ua_idle s) (ua_out s).
Definition set_rx (rx : list Z) (s : uart) : uart :=
  Uart (uart_tx_buf s) (uart_tx_w s) (uart_tx_r s) (panicking s) (panicked s) rx (ua_idle s) (ua_out s).
Definition set_idle (l : list bool) (s : uart) : uart :=
  Uart (uart_tx_buf s) (uart_tx_w s) (uart_tx_r s) (panicking s) (panicked s) (ua_rx s) l (ua_out s).
Definition set_out (l : list (Z * Z)) (s : uart) : uart :=
  Uart (uart_tx_buf s) (uart_tx_w s) (uart_tx_r s) (panicking s) (panicked s) (ua_rx s) (ua_idle s) l.
Definition set_panicking (v : Z) (s : uart) : uart :=
  Uart (uart_tx_buf s) (uart_tx_w s) (uart_tx_r s) v (panicked s) (ua_rx s) (ua_idle s) (ua_out s).
Definition set_panicked (v : Z) (s : uart) : uart :=
  Uart (uart_tx_buf s) (uart_tx_w s) (uart_tx_r s) (panicking s) v (ua_rx s) (ua_idle s) (ua_out s).

Definition spin_forever {T A} : K T A := panic "spin".

(** [WriteReg(reg, v)] *)
Definition WriteReg (reg v : Z) : K uart unit := modify (fun s => set_out (ua_out s ++ [(reg, u8 v)]) s).

(** [ReadReg(LSR)] *)
Definition ReadLSR : K uart Z :=
  fun e s =>
    Ret (Z.lor (match ua_idle s with true :: _ => LSR_TX_IDLE | _ => 0 end)
               (match ua_rx s with [] => 0 | _ => LSR_RX_READY end))
        e (set_idle (tail (ua_idle s)) s).

Definition lock_tx : K uart unit := p <- gets panicking ;; when (p =? 0) (acquire UartTxLock).
Definition unlock_tx : K uart unit := p <- gets panicking ;; when (p =? 0) (release UartTxLock).

Definition uartinit : K uart unit :=
  WriteReg IER 0x00 ;;
  WriteReg LCR LCR_BAUD_LATCH ;;
  WriteReg 0 0x03 ;;
  WriteReg 1 0x00 ;;
  WriteReg LCR LCR_EIGHT_BITS ;;
  WriteReg FCR (Z.lor FCR_FIFO_ENABLE FCR_FIFO_CLEAR) ;;
  WriteReg IER (Z.lor IER_TX_ENABLE IER_RX_ENABLE) ;;
  initlock UartTxLock.

(** The loop of [uartstart]; each turn sends a buffered byte. *)
Fixpoint uartstart_loop (fuel : nat) : K uart unit :=
  s <- get ;;
  if uart_tx_w s =? uart_tx_r s then ret tt
  else
    match fuel with
    | O => undef "fuel"
    | S f =>
        lsr <- ReadLSR ;;
        if Z.land lsr LSR_TX_IDLE =? 0 then ret tt
        else
          s <- get ;;
          let c := default 0 (uart_tx_buf s !! Z.to_nat (uart_tx_r s mod UART_TX_BUF_SIZE)) in
          modify (fun s => set_tx (uart_tx_buf s) (uart_tx_w s) (u64 (uart_tx_r s + 1)) s) ;;
          wakeup ChanUartTxR ;;
          WriteReg THR c ;;
          uartstart_loop f
    end.

(** The bytes buffered, which bound the turns of [uartstart]. *)
Definition tx_len (s : uart) : Z := rlen (2 ^ 64) (uart_tx_r s) (uart_tx_w s).

Definition uartstart : K uart unit :=
  s <- get ;;
  uartstart_loop (Z.to_nat (tx_len s)).

(** [while(uart_tx_w == uart_tx_r + UART_TX_BUF_SIZE)] of [uartputc], and what
    follows it *)
Definition uartputc_loop (c : Z) : K uart unit :=
  s <- get ;;
  if uart_tx_w s =? u64 (uart_tx_r s + UART_TX_BUF_SIZE) then sleep ChanUartTxR UartTxLock
  else
    modify (fun s => set_tx (<[Z.to_nat (uart_tx_w s mod UART_TX_BUF_SIZE) := u8 c]> (uart_tx_buf s))
                            (u64 (uart_tx_w s + 1)) (uart_tx_r s) s) ;;
    uartstart ;;
    unlock_tx.

Definition uartputc (c : Z) : K uart unit :=
  lock_tx ;;
  s <- get ;;
  if truth (panicked s) then spin_forever
  else uartputc_loop c.

(** A process that slept in [uartputc] runs again. *)
Definition uartputc_resume (c : Z) : K uart unit :=
  sleep_resume UartTxLock ;;
  uartputc_loop c.

(** [while((ReadReg(LSR) & LSR_TX_IDLE) == 0);] over the coming answers *)
Fixpoint wait_idle (answers : list bool) : K uart unit :=
  match answers with
  | [] => spin_forever
  | _ :: l =>
      lsr <- ReadLSR ;;
      if Z.land lsr LSR_TX_IDLE =? 0 then wait_idle l else ret tt
  end.

Definition uartputc_sync (c : Z) : K uart unit :=
  s <- get ;;
  if truth (panicked s) then spin_forever
  else
    wait_idle (ua_idle s) ;;
    WriteReg THR c.

Definition uartgetc : K uart Z :=
  lsr <- ReadLSR ;;
  if truth (Z.land lsr LSR_RX_READY) then
    s <- get ;;
    match ua_rx s with
    | c :: rx => modify (set_rx rx) ;; ret (u8 c)
    | [] => undef "RHR"
    end
  else ret (-1).

(** ** The transmit queue *)

(** The bytes waiting in the buffer, and the bytes handed to the device. *)
Definition tx_queue (s : uart) : list Z :=
  ring UART_TX_BUF_SIZE (2 ^ 64) (uart_tx_buf s) (uart_tx_r s) (uart_tx_w s).
Definition tx_sent (s : uart) : list Z := snd <$> filter (fun w => fst w = THR) (ua_out s).

Record tx_ok (s : uart) : Prop := {
  to_buf : length (uart_tx_buf s) = Z.to_nat UART_TX_BUF_SIZE;
  to_bytes : Forall (fun b => 0 <= b < 256) (uart_tx_buf s);
  to_r : 0 <= uart_tx_r s < 2 ^ 64;
  to_w : 0 <= uart_tx_w s < 2 ^ 64;
  to_len : tx_len s <= UART_TX_BUF_SIZE
}.

Lemma tx_div : (UART_TX_BUF_SIZE | 2 ^ 64).
Proof. by exists (2 ^ 59). Qed.

Lemma tx_len_bounds s : 0 <= tx_len s < 2 ^ 64.
Proof. by apply (rlen_bounds UART_TX_BUF_SIZE). Qed.

Lemma sent_app s b : tx_sent (set_out (ua_out s ++ [(THR, b)]) s) = tx_sent s ++ [b].
Proof. unfold tx_sent. simpl. by rewrite filter_app, fmap_app. Qed.

(** The context after waking the writers that wait for space. *)
Definition tx_woken (e : env) : env := set_procs e (wake_all (cproc e) ChanUartTxR (procs e)).

Lemma tx_wakeup e (s : uart) : procs_ok e -> procs_free e -> wakeup ChanUartTxR e s = Ret tt (tx_woken e) s.
Proof. apply wakeup_run. Qed.

Lemma wake_all_idem cur c ps : wake_all cur c (wake_all cur c ps) = wake_all cur c ps.
Proof.
  unfold wake_all. apply list_eq. intros i. rewrite !list_lookup_imap. destruct (ps !! i) as [q|]; [|done]. simpl.
  f_equal. case_bool_decide; [done|]. apply woken_idem.
Qed.

Lemma tx_woken_idem e : tx_woken (tx_woken e) = tx_woken e.
Proof. unfold tx_woken, set_procs. simpl. by rewrite wake_all_idem. Qed.

Lemma wake_all_length cur c ps : length (wake_all cur c ps) = length ps.
Proof. unfold wake_all. apply length_imap. Qed.

(** [uartstart] hands bytes from the front of the queue to the device, in order,
    until the queue is empty or the device is busy. *)
Lemma uartstart_loop_run n : forall e s,
  procs_ok e -> procs_free e -> tx_ok s -> n = Z.to_nat (tx_len s) ->
  exists e' s', uartstart_loop n e s = Ret tt e' s' /\ (e' = e \/ e' = tx_woken e) /\ tx_ok s' /\
    tx_sent s' ++ tx_queue s' = tx_sent s ++ tx_queue s /\ (tx_len s' <= tx_len s) /\
    panicking s' = panicking s /\ panicked s' = panicked s /\ ua_rx s' = ua_rx s.
Proof.
  induction n as [|n IH]; intros e s Hp Hf Hok Hn.
  - exists e, s. pose proof (tx_len_bounds s). assert (E0 : tx_len s = 0) by lia.
    pose proof (proj1 (rlen_0 UART_TX_BUF_SIZE (2 ^ 64) ltac:(done) ltac:(done) _ _ (to_r _ Hok) (to_w _ Hok)) E0) as E1.
    simpl. kstep. rewrite E1, Z.eqb_refl. split; [done|]. split_and!; auto. lia.
  - pose proof (tx_len_bounds s). simpl. kstep.
    destruct (Z.eqb_spec (uart_tx_w s) (uart_tx_r s)) as [E0|Hne].
    { exfalso. unfold tx_len in Hn. rewrite E0, rlen_same in Hn. done. }
    set (s1 := set_idle (tail (ua_idle s)) s).
    unfold bind at 1, ReadLSR. fold s1.
    destruct (Z.land _ LSR_TX_IDLE =? 0).
    { exists e, s1. split; [done|]. split; [by left|]. split; [by destruct Hok|]. split_and!; done. }
    ksteps. cbn [uart_tx_buf uart_tx_r s1 set_idle].
    set (c := default 0 _). set (s2 := set_tx _ _ _ _).
    rewrite (bind_step _ _ _ _ _ _ _ (tx_wakeup e s2 Hp Hf)).
    unfold WriteReg. kstep. set (s3 := set_out _ s2).
    assert (Hlen : 0 < rlen (2 ^ 64) (uart_tx_r s) (uart_tx_w s)) by (unfold tx_len in *; lia).
    assert (El : tx_len s3 = tx_len s - 1).
    { apply (rlen_skip UART_TX_BUF_SIZE (2 ^ 64) ltac:(done) ltac:(done)). done. }
    assert (Hc : u8 c = c).
    { apply uint_wrap_small. unfold c. destruct (uart_tx_buf s !! _) as [b|] eqn:Eb; simpl; [|lia].
      pose proof (proj1 (Forall_lookup _ _) (to_bytes _ Hok) _ _ Eb). simpl in *. lia. }
    assert (Hok3 : tx_ok s3).
    { destruct Hok as [H1 H2 H3 H4 H5]. split; [done|done|apply uint_wrap_range; lia|done|rewrite El; lia]. }
    destruct (IH (tx_woken e) s3) as (e' & s' & E & He & Hok' & Hq & Hl & R); [|exact Hf|done|lia|].
    { unfold procs_ok. simpl. by rewrite wake_all_length. }
    exists e', s'. split; [done|]. split; [right; destruct He as [->| ->]; [done|apply tx_woken_idem]|]. split; [done|].
    split; [|split; [lia|exact R]]. rewrite Hq. unfold s3. rewrite sent_app, Hc. unfold tx_queue.
    rewrite (ring_skip UART_TX_BUF_SIZE (2 ^ 64) ltac:(done) tx_div ltac:(done) (uart_tx_buf s) (uart_tx_r s)) by done.
    rewrite <- app_assoc. unfold rat. by rewrite Z.add_0_r.
Qed.

(** [uartputc] when there is room: the byte joins the end of the queue. *)
Lemma uartputc_run e p pid s c :
  runs e p pid -> UartTxLock ∉ held e -> tx_ok s -> panicking s = 0 -> panicked s = 0 -> tx_len s < UART_TX_BUF_SIZE ->
  exists e' s', uartputc c e s = Ret tt e' s' /\ (e' = e \/ e' = tx_woken e) /\ tx_ok s' /\
    tx_sent s' ++ tx_queue s' = tx_sent s ++ tx_queue s ++ [u8 c] /\
    panicking s' = 0 /\ panicked s' = 0 /\ ua_rx s' = ua_rx s.
Proof.
  intros R Hl Hok Hp1 Hp2 Hn. unfold uartputc, lock_tx. ksteps. rewrite Hp1. cbn [Z.eqb when]. ksteps. rewrite Hp2.
  change (truth 0) with false. cbv iota. unfold uartputc_loop. kstep.
  replace (uart_tx_w s =? u64 (uart_tx_r s + UART_TX_BUF_SIZE)) with false; cycle 1.
  { symmetry. apply Z.eqb_neq. unfold uint_wrap. rewrite <- (rlen_size UART_TX_BUF_SIZE); [|done|done|apply Hok].
    unfold tx_len in Hn. lia. }
  kstep. set (s1 := set_tx _ _ _ s).
  assert (Eq : tx_queue s1 = tx_queue s ++ [u8 c]).
  { apply (ring_put UART_TX_BUF_SIZE (2 ^ 64) ltac:(done) tx_div ltac:(done)); [apply Hok|done]. }
  assert (El : tx_len s1 = tx_len s + 1).
  { apply (rlen_put UART_TX_BUF_SIZE (2 ^ 64) ltac:(done) ltac:(done)). unfold tx_len, UART_TX_BUF_SIZE in *. cbn [s1 uart_tx_r set_tx]. lia. }
  assert (Hok1 : tx_ok s1).
  { destruct Hok as [H1 H2 H3 H4 H5]. split; [simpl; by rewrite length_insert|simpl|done|apply uint_wrap_range; lia|rewrite El; lia].
    apply Forall_insert; [done|apply uint_wrap_range; lia]. }
  destruct (uartstart_loop_run (Z.to_nat (tx_len s1)) (locked UartTxLock e) s1) as (e' & s' & E & He & Hok' & Hq & _ & R1 & R2 & R3);
    [apply R| |done|done|].
  { intros i _. apply not_held_locked; [apply R|done]. }
  unfold uartstart. ksteps. rewrite (bind_step _ _ _ _ _ _ _ E). unfold unlock_tx. kstep. rewrite R1. cbn [panicking s1 set_tx].
  rewrite Hp1. cbn [Z.eqb when].
  assert (Hq' : tx_sent s' ++ tx_queue s' = tx_sent s ++ tx_queue s ++ [u8 c]) by by rewrite Hq, Eq.
  destruct He as [->| ->].
  - exists e, s'. rewrite release_locked by done. split; [done|]. split; [by left|]. rewrite R1, R2, R3. auto.
  - exists (tx_woken e), s'. change (tx_woken (locked UartTxLock e)) with (locked UartTxLock (tx_woken e)).
    rewrite release_locked by done. split; [done|]. split; [by right|]. rewrite R1, R2, R3. auto.
Qed.
