(* ===== verification/Console.v ===== *)
(** * kernel/console.c: console input and output, and [uartintr] of kernel/uart.c

    Input bytes go through the line discipline of [consoleintr] into [cons.buf]
    and leave through [consoleread]; echo and [consolewrite] go to the UART.
    [procdump] only prints.

    Specification: a terminal is a pair of byte lists, the input that readers
    may take ([tty_ready]) and the line being edited ([tty_edit]).  [consoleintr]
    implements typing a character on it, including erase, kill and echo. *)

From stdpp Require Import base gmap sets list strings.
From Stdlib Require Import ZArith Lia.
From S2P Require Import Prelude Kernel Riscv Kalloc Vm VmUser VmCopy Sched Sleeplock Bytes Ring Usr Uart.

(** ** Definitions *)

Definition BACKSPACE : Z := 0x100.
(** [C(x)], for the code of the letter [x] *)
Definition Ctrl (x : Z) : Z := x - 64.
Definition ctrl_P : Z := Ctrl 80.
Definition ctrl_U : Z := Ctrl 85.
Definition ctrl_H : Z := Ctrl 72.
Definition ctrl_D : Z := Ctrl 68.
Definition DEL : Z := 0x7f.
Definition NL : Z := 10.
Definition CR : Z := 13.
Definition INPUT_BUF_SIZE : Z := 128.

(** [cons], the UART below it, and user memory *)
Record cons : Type := Cons {
  co_usr : usr;
  co_uart : uart;
  co_buf : list Z;
  co_r : Z;
  co_w : Z;
  co_e : Z
}.

Definition set_co (buf : list Z) (r w e : Z) (s : cons) : cons := Cons (co_usr s) (co_uart s) buf r w e.
Definition with_uart (s : cons) (u : uart) : cons := Cons (co_usr s) u (co_buf s) (co_r s) (co_w s) (co_e s).

#[export] Instance cons_usr : Part cons usr :=
  {| part_get := co_usr;
     part_put := fun u s => Cons u (co_uart s) (co_buf s) (co_r s) (co_w s) (co_e s);
     part_get_put := fun _ _ => eq_refl;
     part_put_get := fun s => match s with Cons _ _ _ _ _ _ => eq_refl end;
     part_put_put := fun _ _ _ => eq_refl |}.

#[export] Instance cons_uart : Part cons uart :=
  {| part_get := co_uart; part_put := fun u s => with_uart s u;
     part_get_put := fun _ _ => eq_refl;
     part_put_get := fun s => match s with Cons _ _ _ _ _ _ => eq_refl end;
     part_put_put := fun _ _ _ => eq_refl |}.

Definition consputc (c : Z) : K uart unit :=
  if c =? BACKSPACE then
    uartputc_sync 8 ;;
    uartputc_sync 32 ;;
    uartputc_sync 8
  else uartputc_sync c.

(** [cons.buf[i % INPUT_BUF_SIZE]] *)
Definition co_at (s : cons) (i : Z) : Z := default 0 (co_buf s !! Z.to_nat (i mod INPUT_BUF_SIZE)).

Section Console.
Context {L : Linker}.

(** The loop of [consolewrite], with [k] bytes to go *)
Fixpoint consolewrite_loop (k : nat) (src : source) (i : Z) : K cons Z :=
  match k with
  | O => ret i
  | S k' =>
      r <- zoom (either_copyin src 1) ;;
      if fst r =? -1 then ret i
      else
        zoom (uartputc (default 0 (snd r !! 0%nat))) ;;
        consolewrite_loop k' (source_skip 1 src) (i + 1)
  end.

Definition consolewrite (src : source) (n : Z) : K cons Z := consolewrite_loop (Z.to_nat n) src 0.

(** [while(n > 0)] of [consoleread], with [n = k]; the result of the C function
    and the bytes delivered to a kernel destination *)
Fixpoint consoleread_loop (k : nat) (d : dest) (target : Z) (acc : list Z) : K cons (Z * list Z) :=
  match k with
  | O =>
      release ConsLock ;;
      ret (i32 target, acc)
  | S k' =>
      s <- get ;;
      if co_r s =? co_w s then
        p <- curproc ;;
        v <- killed p ;;
        if truth v then
          release ConsLock ;;
          ret (-1, acc)
        else
          sleep ChanConsR ConsLock ;;
          ret (0, acc)
      else
        let c := co_at s (co_r s) in
        modify (fun s => set_co (co_buf s) (u32 (co_r s + 1)) (co_w s) (co_e s) s) ;;
        if c =? ctrl_D then
          when (Z.of_nat k <? target)
            (modify (fun s => set_co (co_buf s) (u32 (co_r s - 1)) (co_w s) (co_e s) s)) ;;
          release ConsLock ;;
          ret (i32 (target - Z.of_nat k), acc)
        else
          r <- zoom (either_copyout d [c]) ;;
          if fst r =? -1 then
            release ConsLock ;;
            ret (i32 (target - Z.of_nat k), acc)
          else if c =? NL then
            release ConsLock ;;
            ret (i32 (target - Z.of_nat k'), acc ++ snd r)
          else consoleread_loop k' (dest_skip 1 d) target (acc ++ snd r)
  end.

Definition consoleread (d : dest) (n : Z) : K cons (Z * list Z) :=
  acquire ConsLock ;;
  consoleread_loop (Z.to_nat n) d (u32 n) [].

(** A reader that slept with [n] bytes to go runs again. *)
Definition consoleread_resume (d : dest) (n target : Z) (acc : list Z) : K cons (Z * list Z) :=
  sleep_resume ConsLock ;;
  consoleread_loop (Z.to_nat n) d target acc.

End Console.

(** [consoleintr]'s loop for control-U; each turn erases one byte *)
Fixpoint kill_line (fuel : nat) : K cons unit :=
  s <- get ;;
  if negb (co_e s =? co_w s) && negb (co_at s (u32 (co_e s - 1)) =? NL) then
    match fuel with
    | O => undef "fuel"
    | S f =>
        modify (fun s => set_co (co_buf s) (co_r s) (co_w s) (u32 (co_e s - 1)) s) ;;
        zoom (consputc BACKSPACE) ;;
        kill_line f
    end
  else ret tt.

Definition consoleintr (c : Z) : K cons unit :=
  acquire ConsLock ;;
  s <- get ;;
  (if c =? ctrl_P then printk
   else if c =? ctrl_U then kill_line (Z.to_nat (rlen (2 ^ 32) (co_w s) (co_e s)))
   else if (c =? ctrl_H) || (c =? DEL) then
     when (negb (co_e s =? co_w s))
       (modify (fun s => set_co (co_buf s) (co_r s) (co_w s) (u32 (co_e s - 1)) s) ;;
        zoom (consputc BACKSPACE))
   else
     when (negb (c =? 0) && (u32 (co_e s - co_r s) <? INPUT_BUF_SIZE))
       (let c := if c =? CR then NL else c in
        zoom (consputc c) ;;
        modify (fun s => set_co (<[Z.to_nat (co_e s mod INPUT_BUF_SIZE) := u8 c]> (co_buf s))
                                (co_r s) (co_w s) (u32 (co_e s + 1)) s) ;;
        s <- get ;;
        when ((c =? NL) || (c =? ctrl_D) || (u32 (co_e s - co_r s) =? INPUT_BUF_SIZE))
          (modify (fun s => set_co (co_buf s) (co_r s) (co_e s) (co_e s) s) ;;
           wakeup ChanConsR))) ;;
  release ConsLock.

(** [uartintr]: its loop takes the received bytes; each turn takes one. *)
Fixpoint uartintr_loop (fuel : nat) : K cons unit :=
  c <- zoom uartgetc ;;
  if c =? -1 then ret tt
  else
    match fuel with
    | O => undef "fuel"
    | S f =>
        consoleintr c ;;
        uartintr_loop f
    end.

Definition uartintr : K cons unit :=
  n <- gets (fun s => length (ua_rx (co_uart s))) ;;
  uartintr_loop n ;;
  zoom (lock_tx ;; uartstart ;; unlock_tx).

(** [consoleinit], up to the device switch, which belongs to the file layer *)
Definition cons_setup : K cons unit :=
  initlock ConsLock ;;
  zoom uartinit.

(** ** The terminal *)

Record tty : Type := Tty { tty_ready : list Z; tty_edit : list Z }.

Definition ends_line (c : Z) : bool := (c =? NL) || (c =? ctrl_D).

(** Typing the character [c]. *)
Definition tty_type (c : Z) (t : tty) : tty :=
  if c =? ctrl_P then t
  else if c =? ctrl_U then Tty (tty_ready t) []
  else if (c =? ctrl_H) || (c =? DEL) then Tty (tty_ready t) (removelast (tty_edit t))
  else if negb (c =? 0) && (Z.of_nat (length (tty_ready t ++ tty_edit t)) <? INPUT_BUF_SIZE) then
    let c := if c =? CR then NL else c in
    let line := tty_edit t ++ [c] in
    if ends_line c || (Z.of_nat (length (tty_ready t ++ line)) =? INPUT_BUF_SIZE)
    then Tty (tty_ready t ++ line) []
    else Tty (tty_ready t) line
  else t.

(** What the terminal shows. *)
Definition erase_seq : list Z := [8; 32; 8].
Definition tty_echo (c : Z) (t : tty) : list Z :=
  if c =? ctrl_P then []
  else if c =? ctrl_U then concat (replicate (length (tty_edit t)) erase_seq)
  else if (c =? ctrl_H) || (c =? DEL) then match tty_edit t with [] => [] | _ => erase_seq end
  else if negb (c =? 0) && (Z.of_nat (length (tty_ready t ++ tty_edit t)) <? INPUT_BUF_SIZE)
  then [if c =? CR then NL else c] else [].

(** The terminal the console implements. *)
Definition tty_of (s : cons) : tty :=
  Tty (ring INPUT_BUF_SIZE (2 ^ 32) (co_buf s) (co_r s) (co_w s))
      (ring INPUT_BUF_SIZE (2 ^ 32) (co_buf s) (co_w s) (co_e s)).

Record cons_ok (s : cons) : Prop := {
  ck_buf : length (co_buf s) = Z.to_nat INPUT_BUF_SIZE;
  ck_r : 0 <= co_r s < 2 ^ 32;
  ck_w : 0 <= co_w s < 2 ^ 32;
  ck_e : 0 <= co_e s < 2 ^ 32;
  ck_order : rlen (2 ^ 32) (co_r s) (co_w s) <= rlen (2 ^ 32) (co_r s) (co_e s) <= INPUT_BUF_SIZE;
  ck_edit : Forall (fun c => c <> NL) (tty_edit (tty_of s))
}.

(** ** Lemmas *)

(** How often the device will report that it can take a byte. *)
Definition idle_count (s : uart) : nat := length (filter (fun b => b = true) (ua_idle s)).

(** The bytes [l] were sent; nothing else changed in the driver. *)
Record echoed (s s' : uart) (l : list Z) : Prop := {
  ec_sent : tx_sent s' = tx_sent s ++ l;
  ec_idle : (idle_count s' + length l = idle_count s)%nat;
  ec_frame : s' = set_out (ua_out s') (set_idle (ua_idle s') s)
}.

Lemma echoed_nil s : echoed s s [].
Proof. split; [by rewrite app_nil_r|simpl; lia|by destruct s]. Qed.

Lemma echoed_trans s1 s2 s3 l l' : echoed s1 s2 l -> echoed s2 s3 l' -> echoed s1 s3 (l ++ l').
Proof.
  intros [A1 A2 A3] [B1 B2 B3]. split; [by rewrite B1, A1, app_assoc|rewrite length_app; lia|].
  rewrite B3, A3. done.
Qed.

Lemma idle_count_cons b l s : ua_idle s = b :: l ->
  idle_count s = ((if b then 1 else 0) + idle_count (set_idle l s))%nat.
Proof. intros E. unfold idle_count. rewrite E. simpl. destruct b; [by rewrite filter_cons_True|by rewrite filter_cons_False]. Qed.

Lemma lsr_idle b (l : list bool) (rx : list Z) :
  (Z.land (Z.lor (match b :: l with true :: _ => LSR_TX_IDLE | _ => 0 end) (match rx with [] => 0 | _ => LSR_RX_READY end))
     LSR_TX_IDLE =? 0) = negb b.
Proof. destruct b, rx; reflexivity. Qed.

Lemma wait_idle_run e s : (0 < idle_count s)%nat ->
  exists l, wait_idle (ua_idle s) e s = Ret tt e (set_idle l s) /\ (idle_count (set_idle l s) + 1 = idle_count s)%nat.
Proof.
  remember (ua_idle s) as a eqn:Ea. revert s Ea. induction a as [|b a IH]; intros s Ea Hc.
  - unfold idle_count in Hc. rewrite <- Ea in Hc. simpl in Hc. lia.
  - simpl wait_idle. unfold bind, ReadLSR. rewrite <- Ea, (lsr_idle b a). cbn [tail].
    pose proof (idle_count_cons b a s (eq_sym Ea)) as E. destruct b; cbn [negb].
    + exists a. split; [done|lia].
    + destruct (IH (set_idle a s) eq_refl ltac:(lia)) as (l & El & Hl). exists l. split; [exact El|].
      change (idle_count (set_idle l s) + 1 = idle_count (set_idle a s))%nat in Hl. lia.
Qed.

Lemma sync_run e s c : panicked s = 0 -> (0 < idle_count s)%nat ->
  exists s', uartputc_sync c e s = Ret tt e s' /\ echoed s s' [u8 c].
Proof.
  intros Hp Hc. unfold uartputc_sync. kstep. rewrite Hp. change (truth 0) with false. cbv iota.
  destruct (wait_idle_run e s Hc) as (l & E & Hl). rewrite (bind_step _ _ _ _ _ _ _ E).
  exists (set_out (ua_out s ++ [(THR, u8 c)]) (set_idle l s)). split; [done|].
  split; [apply (sent_app (set_idle l s))|exact Hl|done].
Qed.

Lemma echoed_panicked s s' l : echoed s s' l -> panicked s' = panicked s.
Proof. intros [_ _ ->]. done. Qed.

(** The bytes [consputc] sends. *)
Definition putc_seq (c : Z) : list Z := if c =? BACKSPACE then erase_seq else [u8 c].

Lemma consputc_run e s c : panicked s = 0 -> (length (putc_seq c) <= idle_count s)%nat ->
  exists s', consputc c e s = Ret tt e s' /\ echoed s s' (putc_seq c).
Proof.
  intros Hp Hc. unfold consputc, putc_seq in *. destruct (c =? BACKSPACE); [|by apply sync_run].
  simpl in Hc. destruct (sync_run e s 8 Hp ltac:(lia)) as (s1 & E1 & H1).
  pose proof (echoed_panicked _ _ _ H1) as P1. pose proof (ec_idle _ _ _ H1) as I1. simpl in I1.
  destruct (sync_run e s1 32 ltac:(congruence) ltac:(lia)) as (s2 & E2 & H2).
  pose proof (echoed_panicked _ _ _ H2) as P2. pose proof (ec_idle _ _ _ H2) as I2. simpl in I2.
  destruct (sync_run e s2 8 ltac:(congruence) ltac:(lia)) as (s3 & E3 & H3).
  exists s3. rewrite (bind_step _ _ _ _ _ _ _ E1), (bind_step _ _ _ _ _ _ _ E2). split; [done|].
  exact (echoed_trans _ _ _ _ _ H1 (echoed_trans _ _ _ _ _ H2 H3)).
Qed.

Lemma zoom_uart {A} (m : K uart A) e s a e' u' :
  m e (co_uart s) = Ret a e' u' -> zoom m e s = Ret a e' (with_uart s u').
Proof. intros H. unfold zoom. simpl. by rewrite H. Qed.

Lemma in_div : (INPUT_BUF_SIZE | 2 ^ 32).
Proof. by exists (2 ^ 25). Qed.

Abbreviation in_ring := (ring INPUT_BUF_SIZE (2 ^ 32)).
Abbreviation in_len := (rlen (2 ^ 32)).

Lemma in_len_bounds r w : 0 <= in_len r w < 2 ^ 32.
Proof. by apply (rlen_bounds INPUT_BUF_SIZE). Qed.

(** Both parts of the buffer together. *)
Lemma tty_all s : cons_ok s -> tty_ready (tty_of s) ++ tty_edit (tty_of s) = in_ring (co_buf s) (co_r s) (co_e s).
Proof.
  intros O. symmetry. apply (ring_app INPUT_BUF_SIZE (2 ^ 32) ltac:(done) in_div ltac:(done)). apply O.
Qed.

Lemma tty_all_length s : cons_ok s ->
  Z.of_nat (length (tty_ready (tty_of s) ++ tty_edit (tty_of s))) = in_len (co_r s) (co_e s).
Proof.
  intros O. rewrite (tty_all s O), ring_length. pose proof (in_len_bounds (co_r s) (co_e s)). lia.
Qed.

Lemma edit_empty s : cons_ok s -> (co_e s =? co_w s) = bool_decide (tty_edit (tty_of s) = []).
Proof.
  intros O. pose proof (ring_nil INPUT_BUF_SIZE (2 ^ 32) ltac:(done) ltac:(done) (co_buf s) _ _ (ck_w _ O) (ck_e _ O)) as E.
  destruct (Z.eqb_spec (co_e s) (co_w s)) as [H|H].
  - symmetry. apply bool_decide_eq_true_2. by apply E.
  - symmetry. apply bool_decide_eq_false_2. intros H'. apply E in H'. congruence.
Qed.

(** Erasing the last byte of the edited line. *)
Definition erased (s : cons) : cons := set_co (co_buf s) (co_r s) (co_w s) (u32 (co_e s - 1)) s.

Lemma erased_ok s : cons_ok s -> tty_edit (tty_of s) <> [] ->
  cons_ok (erased s) /\ tty_of (erased s) = Tty (tty_ready (tty_of s)) (removelast (tty_edit (tty_of s))) /\
  tty_edit (tty_of s) = tty_edit (tty_of (erased s)) ++ [co_at s (u32 (co_e s - 1))].
Proof.
  intros O Hne. assert (Hlen : 0 < in_len (co_w s) (co_e s)).
  { pose proof (in_len_bounds (co_w s) (co_e s)). pose proof (ring_length INPUT_BUF_SIZE (2 ^ 32) (co_buf s) (co_w s) (co_e s)) as Hl.
    simpl in Hne. destruct (in_ring (co_buf s) (co_w s) (co_e s)) as [|a l]; [done|]. simpl in Hl. lia. }
  assert (Er : tty_edit (tty_of s) = tty_edit (tty_of (erased s)) ++ [co_at s (u32 (co_e s - 1))]).
  { simpl. rewrite (ring_unput INPUT_BUF_SIZE (2 ^ 32) ltac:(done) in_div ltac:(done)) by done.
    unfold rat, co_at. by rewrite Z.add_0_r. }
  assert (E : tty_of (erased s) = Tty (tty_ready (tty_of s)) (removelast (tty_edit (tty_of s)))).
  { rewrite Er, removelast_last. done. }
  split; [|done]. pose proof (ck_edit _ O) as He. rewrite Er in He. apply Forall_app in He as [He _].
  assert (Hre : 0 < in_len (co_r s) (co_e s)).
  { pose proof (tty_all_length s O) as Hl. rewrite length_app in Hl. simpl in Hl. rewrite !ring_length in Hl.
    pose proof (in_len_bounds (co_r s) (co_w s)). lia. }
  pose proof (ck_order _ O) as Ho. pose proof (tty_all_length s O) as Hl. rewrite length_app in Hl. simpl in Hl.
  rewrite !ring_length in Hl. pose proof (in_len_bounds (co_r s) (co_w s)).
  split; [apply O|apply O|apply O|apply uint_wrap_range; lia| |exact He]. simpl. unfold uint_wrap.
  rewrite (rlen_unput INPUT_BUF_SIZE (2 ^ 32) ltac:(done) ltac:(done)) by done. lia.
Qed.

Lemma with_uart_ok s u : cons_ok s -> cons_ok (with_uart s u) /\ tty_of (with_uart s u) = tty_of s.
Proof. intros [H1 H2 H3 H4 H5 H6]. split; [by split|done]. Qed.

(** Erasing one byte on the screen as well. *)
Lemma erase_key_run e s : cons_ok s -> tty_edit (tty_of s) <> [] -> panicked (co_uart s) = 0 -> (3 <= idle_count (co_uart s))%nat ->
  exists u, (modify (fun s => set_co (co_buf s) (co_r s) (co_w s) (u32 (co_e s - 1)) s) ;; zoom (consputc BACKSPACE)) e s
      = Ret tt e (with_uart (erased s) u) /\ echoed (co_uart s) u erase_seq.
Proof.
  intros O Hne Hp Hi. kstep. destruct (consputc_run e (co_uart (erased s)) BACKSPACE Hp Hi) as (u & E & H).
  exists u. split; [by apply (zoom_uart (consputc BACKSPACE) e (erased s))|done].
Qed.

Lemma erase_length n : length (concat (replicate n erase_seq)) = (3 * n)%nat.
Proof. induction n as [|n IH]; [done|]. simpl. rewrite IH. lia. Qed.

Lemma kill_line_run e n : forall s,
  cons_ok s -> n = length (tty_edit (tty_of s)) -> panicked (co_uart s) = 0 -> (3 * n <= idle_count (co_uart s))%nat ->
  exists s', kill_line n e s = Ret tt e s' /\ cons_ok s' /\ tty_of s' = Tty (tty_ready (tty_of s)) [] /\
    echoed (co_uart s) (co_uart s') (concat (replicate n erase_seq)) /\ co_usr s' = co_usr s.
Proof.
  induction n as [|n IH]; intros s O Hn Hp Hi.
  - exists s. assert (E : tty_edit (tty_of s) = []) by (destruct (tty_edit (tty_of s)); [done|discriminate Hn]).
    simpl kill_line. kstep. rewrite (edit_empty s O), bool_decide_eq_true_2 by done. cbn [negb andb].
    split; [done|]. split; [done|]. split; [|split; [apply echoed_nil|done]]. rewrite <- E. done.
  - assert (Hne : tty_edit (tty_of s) <> []) by (intros E; rewrite E in Hn; done).
    destruct (erased_ok s O Hne) as (O1 & T1 & Er). simpl kill_line. kstep.
    rewrite (edit_empty s O), bool_decide_eq_false_2 by done. cbn [negb andb].
    assert (Hnl : co_at s (u32 (co_e s - 1)) <> NL).
    { pose proof (ck_edit _ O) as He. rewrite Er in He. apply Forall_app in He as [_ He]. by apply Forall_cons in He as [He _]. }
    rewrite (proj2 (Z.eqb_neq _ _) Hnl). cbn [negb].
    destruct (erase_key_run e s O Hne Hp ltac:(lia)) as (u & E & Hu). rewrite <- bind_assoc. rewrite (bind_step _ _ _ _ _ _ _ E).
    destruct (with_uart_ok (erased s) u O1) as [O2 T2]. pose proof (ec_idle _ _ _ Hu) as Hi2. simpl in Hi2.
    assert (Hl : length (tty_edit (tty_of (erased s))) = n).
    { rewrite Er, length_app in Hn. simpl in Hn. simpl. lia. }
    destruct (IH (with_uart (erased s) u) O2) as (s' & E' & O' & T' & He' & U'); [by rewrite T2| |simpl; lia|].
    { simpl. rewrite (echoed_panicked _ _ _ Hu). done. }
    exists s'. split; [done|]. split; [done|]. split; [by rewrite T', T2, T1|].
    split; [exact (echoed_trans _ _ _ _ _ Hu He')|by rewrite U'].
Qed.

(** Appending the byte [c] to the edited line. *)
Definition appended (c : Z) (s : cons) : cons :=
  set_co (<[Z.to_nat (co_e s mod INPUT_BUF_SIZE) := u8 c]> (co_buf s)) (co_r s) (co_w s) (u32 (co_e s + 1)) s.

Lemma appended_tty s c : cons_ok s -> in_len (co_r s) (co_e s) < INPUT_BUF_SIZE -> 0 <= c < 256 ->
  tty_of (appended c s) = Tty (tty_ready (tty_of s)) (tty_edit (tty_of s) ++ [c]) /\
  in_len (co_r s) (u32 (co_e s + 1)) = in_len (co_r s) (co_e s) + 1.
Proof.
  intros O Hn Hc. pose proof (in_len_bounds (co_r s) (co_e s)) as Hb. pose proof (tty_all_length s O) as Hl.
  rewrite length_app in Hl. simpl in Hl. rewrite !ring_length in Hl.
  pose proof (in_len_bounds (co_r s) (co_w s)). pose proof (in_len_bounds (co_w s) (co_e s)).
  assert (El : in_len (co_r s) (u32 (co_e s + 1)) = in_len (co_r s) (co_e s) + 1).
  { apply (rlen_put INPUT_BUF_SIZE (2 ^ 32) ltac:(done) ltac:(done)). unfold INPUT_BUF_SIZE in *. lia. }
  split; [|done]. unfold tty_of, appended. simpl.
  pose proof (ring_put INPUT_BUF_SIZE (2 ^ 32) ltac:(done) in_div ltac:(done) (co_buf s) (co_w s) (co_e s) (u8 c) (ck_buf _ O) ltac:(lia)) as Ew.
  pose proof (ring_put INPUT_BUF_SIZE (2 ^ 32) ltac:(done) in_div ltac:(done) (co_buf s) (co_r s) (co_e s) (u8 c) (ck_buf _ O) Hn) as Er.
  rewrite (uint_wrap_small 8 c) in * by lia. unfold uint_wrap in *. rewrite Ew. f_equal.
  rewrite (ring_app INPUT_BUF_SIZE (2 ^ 32) ltac:(done) in_div ltac:(done) _ _ (co_w s)) in Er by (pose proof (ck_order _ O); lia).
  rewrite Ew in Er. rewrite (ring_app INPUT_BUF_SIZE (2 ^ 32) ltac:(done) in_div ltac:(done) (co_buf s) (co_r s) (co_w s)) in Er
    by apply O.
  rewrite <- app_assoc in Er. by apply app_inv_tail in Er.
Qed.

Lemma appended_ok s c : cons_ok s -> in_len (co_r s) (co_e s) < INPUT_BUF_SIZE -> 0 <= c < 256 -> c <> NL -> cons_ok (appended c s).
Proof.
  intros O Hn Hc Hnl. destruct (appended_tty s c O Hn Hc) as [T El]. pose proof (ck_order _ O).
  split; [simpl; rewrite length_insert; apply O|apply O|apply O|apply uint_wrap_range; lia|simpl; rewrite El; lia|].
  rewrite T. apply Forall_app. split; [apply O|by constructor].
Qed.

(** Handing the edited line to the readers. *)
Definition committed (s : cons) : cons := set_co (co_buf s) (co_r s) (co_e s) (co_e s) s.

Lemma committed_ok s : cons_ok s \/ (exists s0 c, cons_ok s0 /\ in_len (co_r s0) (co_e s0) < INPUT_BUF_SIZE /\ 0 <= c < 256 /\ s = appended c s0) ->
  cons_ok (committed s) /\ tty_of (committed s) = Tty (in_ring (co_buf s) (co_r s) (co_e s)) [].
Proof.
  intros H.
  assert (B : length (co_buf s) = Z.to_nat INPUT_BUF_SIZE /\ 0 <= co_r s < 2 ^ 32 /\ 0 <= co_e s < 2 ^ 32 /\
              in_len (co_r s) (co_e s) <= INPUT_BUF_SIZE).
  { destruct H as [O|(s0 & c & O & Hn & Hc & ->)]; [split_and!; apply O|].
    destruct (appended_tty s0 c O Hn Hc) as [_ El]. simpl.
    split; [rewrite length_insert; apply O|]. split; [apply O|]. split; [apply uint_wrap_range; lia|]. rewrite El. lia. }
  destruct B as (B1 & B2 & B3 & B4). unfold tty_of, committed. simpl. rewrite ring_same.
  split; [|done]. split; simpl; try done. rewrite ring_same. constructor.
Qed.

(** What the interrupt handler does, character by character. *)
Record typed (e : env) (c : Z) (s : cons) (o : outcome cons unit) : Prop := {
  ty_ex : exists e' s', o = Ret tt e' s' /\ cons_ok s' /\ tty_of s' = tty_type c (tty_of s) /\
    echoed (co_uart s) (co_uart s') (tty_echo c (tty_of s)) /\ co_usr s' = co_usr s /\
    e' = if bool_decide (tty_ready (tty_of s') = tty_ready (tty_of s)) then e
         else set_procs e (wake_all (cproc e) ChanConsR (procs e))
}.

Lemma typed_default e s c :
  procs_ok e -> procs_free e -> ConsLock ∉ held e -> cons_ok s -> panicked (co_uart s) = 0 -> 0 <= c < 256 ->
  (0 < idle_count (co_uart s))%nat -> in_len (co_r s) (co_e s) < INPUT_BUF_SIZE ->
  let line := tty_edit (tty_of s) ++ [c] in
  let commit := ends_line c || (Z.of_nat (length (tty_ready (tty_of s) ++ line)) =? INPUT_BUF_SIZE) in
  exists s',
    (zoom (consputc c) ;;
     modify (fun s => set_co (<[Z.to_nat (co_e s mod INPUT_BUF_SIZE) := u8 c]> (co_buf s))
                             (co_r s) (co_w s) (u32 (co_e s + 1)) s) ;;
     s <- get ;;
     when ((c =? NL) || (c =? ctrl_D) || (u32 (co_e s - co_r s) =? INPUT_BUF_SIZE))
       (modify (fun s => set_co (co_buf s) (co_r s) (co_e s) (co_e s) s) ;;
        wakeup ChanConsR)) (locked ConsLock e) s
    = Ret tt (locked ConsLock (if commit then set_procs e (wake_all (cproc e) ChanConsR (procs e)) else e)) s' /\
    cons_ok s' /\ echoed (co_uart s) (co_uart s') [c] /\ co_usr s' = co_usr s /\
    tty_of s' = if commit then Tty (tty_ready (tty_of s) ++ line) [] else Tty (tty_ready (tty_of s)) line.
Proof.
  intros Hp Hf Hl O Hpk Hc Hi Hn line commit.
  assert (Hbs : c =? BACKSPACE = false) by (apply Z.eqb_neq; unfold BACKSPACE; lia).
  assert (Hps : putc_seq c = [c]) by (unfold putc_seq; rewrite Hbs, uint_wrap_small by lia; done).
  destruct (consputc_run (locked ConsLock e) (co_uart s) c Hpk) as (u & Eu & Hu); [rewrite Hps; simpl; lia|]. rewrite Hps in Hu.
  rewrite (bind_step _ _ _ _ _ _ _ (zoom_uart (consputc c) (locked ConsLock e) s _ _ _ Eu)). ksteps.
  destruct (with_uart_ok s u O) as [Ou Tu]. change (set_co _ _ _ _ (with_uart s u)) with (appended c (with_uart s u)).
  set (s1 := appended c (with_uart s u)). destruct (appended_tty (with_uart s u) c Ou Hn Hc) as [T1 El]. fold s1 in T1. rewrite Tu in T1.
  change (in_len (co_r s) (u32 (co_e s + 1)) = in_len (co_r s) (co_e s) + 1) in El.
  assert (Et : u32 (co_e s1 - co_r s1) = in_len (co_r s) (co_e s) + 1) by (rewrite <- El; done). rewrite Et.
  assert (Ec : (c =? NL) || (c =? ctrl_D) || (in_len (co_r s) (co_e s) + 1 =? INPUT_BUF_SIZE) = commit).
  { unfold commit, ends_line, line. do 2 f_equal. rewrite app_assoc, length_app, Nat2Z.inj_add, (tty_all_length s O). done. }
  rewrite Ec. destruct commit eqn:Ecm; cbn [when].
  - kstep. rewrite (wakeup_run ChanConsR (locked ConsLock e)); [|done|intros i Hi'; apply not_held_locked; [by apply Hf|done]].
    exists (committed s1). split; [done|].
    destruct (committed_ok s1) as [O2 T2]; [right; by exists (with_uart s u), c|].
    split; [done|]. split; [exact Hu|]. split; [done|]. rewrite T2. f_equal.
    rewrite (ring_app INPUT_BUF_SIZE (2 ^ 32) ltac:(done) in_div ltac:(done) _ _ (co_w s1)).
    + change (tty_ready (tty_of s1) ++ tty_edit (tty_of s1) = tty_ready (tty_of s) ++ line). by rewrite T1.
    + pose proof (ck_order _ O). change (co_r s1) with (co_r s). change (co_w s1) with (co_w s).
      change (co_e s1) with (u32 (co_e s + 1)). rewrite El. simpl. lia.
  - exists s1. split; [done|]. split; [|split; [exact Hu|split; [done|exact T1]]].
    apply appended_ok; [done|done|done|]. unfold commit, ends_line in Ecm.
    apply orb_false_iff in Ecm as [Ecm _]. apply orb_false_iff in Ecm as [Ecm _]. by apply Z.eqb_neq in Ecm.
Qed.

(** C38 The console is a terminal with line editing.  For every input character,
    [consoleintr] (run with the console lock free) has the effect of typing it
    on the terminal: ordinary characters join the edited line, carriage return
    counts as newline, backspace and delete erase one character, control-U the
    whole line; a newline, control-D or a full buffer hands the line to the
    readers, who are woken exactly then; input beyond [INPUT_BUF_SIZE] bytes is
    dropped.  The bytes sent to the screen are the terminal's echo.  The device
    must become ready often enough for the echo. *)
Theorem console_refines e c s :
  procs_ok e -> procs_free e -> ConsLock ∉ held e -> cons_ok s -> panicked (co_uart s) = 0 -> 0 <= c < 256 ->
  (length (tty_echo c (tty_of s)) <= idle_count (co_uart s))%nat ->
  typed e c s (consoleintr c e s).
Proof.
  intros Hp Hf Hl O Hpk Hc Hi. unfold consoleintr. ksteps.
  assert (Hfin : forall s', cons_ok s' -> tty_ready (tty_of s') = tty_ready (tty_of s) -> tty_of s' = tty_type c (tty_of s) ->
    echoed (co_uart s) (co_uart s') (tty_echo c (tty_of s)) -> co_usr s' = co_usr s ->
    typed e c s (release ConsLock (locked ConsLock e) s')).
  { intros s' O' Hr T' E' U'. split. exists e, s'. rewrite release_locked by done. split_and!; try done.
    by rewrite bool_decide_eq_true_2. }
  pose proof (eq_refl (tty_type c (tty_of s))) as ET. unfold tty_type in ET at 2.
  pose proof (eq_refl (tty_echo c (tty_of s))) as EE. unfold tty_echo in EE at 2.
  destruct (Z.eqb_spec c ctrl_P) as [_|HP].
  { unfold printk. kstep. apply Hfin; try done. rewrite EE. apply echoed_nil. }
  destruct (Z.eqb_spec c ctrl_U) as [_|HU].
  { rewrite EE, erase_length in Hi. destruct (kill_line_run (locked ConsLock e) (length (tty_edit (tty_of s))) s O eq_refl Hpk Hi)
      as (s' & E & O' & T' & E' & U').
    simpl tty_edit in E. rewrite ring_length in E.
    rewrite (bind_step _ _ _ _ _ _ _ E). apply Hfin; [done|by rewrite T'|by rewrite T', ET|by rewrite EE|done]. }
  destruct ((c =? ctrl_H) || (c =? DEL)) eqn:EH.
  { rewrite (edit_empty s O). destruct (bool_decide_reflect (tty_edit (tty_of s) = [])) as [Ee|Ee]; cbn [negb when].
    - rewrite Ee in ET, EE. kstep. apply Hfin; try done; [|rewrite EE; apply echoed_nil].
      rewrite ET. simpl removelast. rewrite <- Ee. done.
    - assert (H3 : tty_echo c (tty_of s) = erase_seq) by (rewrite EE; by destruct (tty_edit (tty_of s))).
      rewrite H3 in Hi. destruct (erase_key_run (locked ConsLock e) s O Ee Hpk Hi) as (u & E & Hu).
      rewrite (bind_step _ _ _ _ _ _ _ E). destruct (erased_ok s O Ee) as (O1 & T1 & _).
      destruct (with_uart_ok (erased s) u O1) as [O2 T2].
      apply Hfin; [done|by rewrite T2, T1|by rewrite T2, T1, ET|by rewrite H3|done]. }
  change (u32 (co_e s - co_r s)) with (in_len (co_r s) (co_e s)). rewrite <- (tty_all_length s O).
  destruct (negb (c =? 0) && (Z.of_nat (length (tty_ready (tty_of s) ++ tty_edit (tty_of s))) <? INPUT_BUF_SIZE)) eqn:Ed; cbn [when].
  2: { kstep. apply Hfin; try done. rewrite EE. apply echoed_nil. }
  apply andb_true_iff in Ed as [_ Hn]. apply Z.ltb_lt in Hn. rewrite (tty_all_length s O) in Hn.
  set (c' := if c =? CR then NL else c) in *.
  assert (Hc' : 0 <= c' < 256) by (unfold c'; destruct (c =? CR); unfold NL; lia).
  destruct (typed_default e s c' Hp Hf Hl O Hpk Hc' ltac:(rewrite EE in Hi; simpl in Hi; lia) Hn) as (s' & E & O' & E' & U' & T').
  rewrite (bind_step _ _ _ _ _ _ _ E). set (b := ends_line c' || _) in *.
  split. exists (if b then set_procs e (wake_all (cproc e) ChanConsR (procs e)) else e), s'.
  rewrite release_locked by (by destruct b). split; [done|]. split; [done|]. split; [by rewrite T', ET|].
  split; [by rewrite EE|]. split; [exact U'|]. rewrite T'. destruct b; simpl.
  - rewrite bool_decide_eq_false_2; [done|]. intros Ea. apply (f_equal length) in Ea. rewrite !length_app in Ea. simpl in Ea. lia.
  - by rewrite bool_decide_eq_true_2.
Qed.

(** *** Witness: typing carriage return after the line [hi]. *)

Definition demo_uart : uart := Uart (replicate 32 0) 0 0 0 0 [] (replicate 8 true) [].
Definition demo_cons : cons :=
  Cons (Usr (Kmem (fun _ => 0) 0 (fun _ => 0)) []) demo_uart ([104; 105] ++ replicate 126 0) 0 0 2.
Definition demo_cenv : env := Env ∅ (replicate 64 (Proc UNUSED ChanNull 0 0 0 None)) None 1 None.

Lemma demo_cons_ok : cons_ok demo_cons.
Proof.
  split; [reflexivity|simpl; lia|simpl; lia|simpl; lia|vm_compute; split; congruence|].
  change (tty_edit (tty_of demo_cons)) with [104; 105]. repeat constructor; discriminate.
Qed.

Lemma console_refines_witness :
  exists e' s', consoleintr 13 demo_cenv demo_cons = Ret tt e' s' /\
    tty_of s' = Tty [104; 105; 10] [] /\ tx_sent (co_uart s') = [10].
Proof.
  destruct (console_refines demo_cenv 13 demo_cons) as [(e' & s' & E & _ & T & Ec & _)].
  - reflexivity.
  - intros i _. apply not_elem_of_empty.
  - apply not_elem_of_empty.
  - exact demo_cons_ok.
  - reflexivity.
  - lia.
  - vm_compute. lia.
  - exists e', s'. split; [exact E|]. split; [rewrite T; vm_compute; reflexivity|]. rewrite (ec_sent _ _ _ Ec). vm_compute. reflexivity.
Defined.
