(* ===== verification/Printf.v ===== *)
(** * kernel/printf.c: formatted output to the console

    Output goes through [consputc] to the UART.  The variadic arguments are a
    list of machine words and strings; [va_arg] converts a word to the type the
    call names.  Writing past the end of [printint]'s buffer is undefined
    behaviour, which the theorem below excludes. *)

From stdpp Require Import base gmap sets list strings.
From Stdlib Require Import ZArith Lia.
From S2P Require Import Prelude Kernel Riscv Kalloc Vm Sched Ring Usr Uart Console.

(** ** Definitions *)

Definition digits : list Z := [48; 49; 50; 51; 52; 53; 54; 55; 56; 57; 97; 98; 99; 100; 101; 102].
Definition digit (d : Z) : Z := default 0 (digits !! Z.to_nat d).

(** [char buf[20]] of [printint]; [buf[i++] = c] *)
Definition PRINTINT_BUF : nat := 20.
Definition buf_push (c : Z) (buf : list Z) : K uart (list Z) :=
  if (length buf <? PRINTINT_BUF)%nat then ret (buf ++ [c]) else undef "printint: buf".

(** [do { buf[i++] = digits[x % base]; } while((x /= base) != 0);] *)
Fixpoint printint_loop (fuel : nat) (x base : Z) (buf : list Z) : K uart (list Z) :=
  match fuel with
  | O => undef "fuel"
  | S f =>
      buf <- buf_push (digit (x mod base)) buf ;;
      let x := x / base in
      if negb (x =? 0) then printint_loop f x base buf else ret buf
  end.

Definition printint (xx base : Z) (sign : bool) : K uart unit :=
  let neg := sign && (xx <? 0) in
  let x := if neg then u64 (- xx) else u64 xx in
  buf <- printint_loop 64 x base [] ;;
  buf <- (if neg then buf_push 45 buf else ret buf) ;;
  for_each (reverse buf) consputc.

(** [for (i = 0; i < 16; i++, x <<= 4)] of [printptr] *)
Fixpoint printptr_loop (k : nat) (x : Z) : K uart unit :=
  match k with
  | O => ret tt
  | S k' =>
      consputc (digit (Z.shiftr x 60)) ;;
      printptr_loop k' (u64 (Z.shiftl x 4))
  end.

Definition printptr (x : Z) : K uart unit :=
  consputc 48 ;;
  consputc 120 ;;
  printptr_loop 16 x.

(** An argument of [printf]: a word, or a string pointer ([None] when null). *)
Inductive va : Type := VaWord (v : Z) | VaStr (s : option (list Z)).

(** [va_arg(ap, ...)] *)
Definition va_word (ap : list va) : K uart (Z * list va) :=
  match ap with
  | VaWord v :: ap' => ret (v, ap')
  | _ => undef "va_arg"
  end.
Definition va_str (ap : list va) : K uart (option (list Z) * list va) :=
  match ap with
  | VaStr s :: ap' => ret (s, ap')
  | _ => undef "va_arg"
  end.

Definition null_str : list Z := [40; 110; 117; 108; 108; 41].

(** The conversion after a [%], [rest] being the format after it: how many bytes
    of [rest] it takes, and the remaining arguments; [None] at the end of [fmt]. *)
Definition printf_conv (rest : list Z) (ap : list va) : K uart (option (nat * list va)) :=
  let c0 := default 0 (rest !! 0%nat) in
  let c1 := if truth c0 then default 0 (rest !! 1%nat) else 0 in
  let c2 := if truth c1 then default 0 (rest !! 2%nat) else 0 in
  if c0 =? 100 then
    v <- va_word ap ;; printint (i32 (fst v)) 10 true ;; ret (Some (1%nat, snd v))
  else if (c0 =? 108) && (c1 =? 100) then
    v <- va_word ap ;; printint (i64 (fst v)) 10 true ;; ret (Some (2%nat, snd v))
  else if (c0 =? 108) && (c1 =? 108) && (c2 =? 100) then
    v <- va_word ap ;; printint (i64 (fst v)) 10 true ;; ret (Some (3%nat, snd v))
  else if c0 =? 117 then
    v <- va_word ap ;; printint (u32 (fst v)) 10 false ;; ret (Some (1%nat, snd v))
  else if (c0 =? 108) && (c1 =? 117) then
    v <- va_word ap ;; printint (i64 (fst v)) 10 false ;; ret (Some (2%nat, snd v))
  else if (c0 =? 108) && (c1 =? 108) && (c2 =? 117) then
    v <- va_word ap ;; printint (i64 (fst v)) 10 false ;; ret (Some (3%nat, snd v))
  else if c0 =? 120 then
    v <- va_word ap ;; printint (u32 (fst v)) 16 false ;; ret (Some (1%nat, snd v))
  else if (c0 =? 108) && (c1 =? 120) then
    v <- va_word ap ;; printint (i64 (fst v)) 16 false ;; ret (Some (2%nat, snd v))
  else if (c0 =? 108) && (c1 =? 108) && (c2 =? 120) then
    v <- va_word ap ;; printint (i64 (fst v)) 16 false ;; ret (Some (3%nat, snd v))
  else if c0 =? 112 then
    v <- va_word ap ;; printptr (u64 (fst v)) ;; ret (Some (1%nat, snd v))
  else if c0 =? 99 then
    v <- va_word ap ;; consputc (i32 (fst v)) ;; ret (Some (1%nat, snd v))
  else if c0 =? 115 then
    v <- va_str ap ;; for_each (default null_str (fst v)) consputc ;; ret (Some (1%nat, snd v))
  else if c0 =? 37 then
    consputc 37 ;; ret (Some (1%nat, ap))
  else if c0 =? 0 then ret None
  else
    consputc 37 ;; consputc c0 ;; ret (Some (1%nat, ap)).

(** The loop of [printf] over [fmt]; each turn takes at least one byte. *)
Fixpoint printf_loop (fuel : nat) (fmt : list Z) (ap : list va) : K uart unit :=
  match fuel, fmt with
  | _, [] => ret tt
  | O, _ => undef "fuel"
  | S f, cx :: rest =>
      if negb (cx =? 37) then
        consputc cx ;;
        printf_loop f rest ap
      else
        r <- printf_conv rest ap ;;
        match r with
        | None => ret tt
        | Some (n, ap) => printf_loop f (drop n rest) ap
        end
  end.

Definition printf (fmt : list Z) (ap : list va) : K uart Z :=
  p <- gets panicking ;;
  when (p =? 0) (acquire PrLock) ;;
  printf_loop (length fmt) fmt ap ;;
  p <- gets panicking ;;
  when (p =? 0) (release PrLock) ;;
  ret 0.

Definition panic_fmt : list Z := [112; 97; 110; 105; 99; 58; 32].

(** [panic(s)]: it prints the message and never returns. *)
Definition kpanic (msg : list Z) : K uart unit :=
  modify (set_panicking 1) ;;
  printf panic_fmt [] ;;
  printf [37; 115; 10] [VaStr (Some msg)] ;;
  modify (set_panicked 1) ;;
  spin_forever.

Definition printfinit : K uart unit := initlock PrLock.

(** ** Numerals *)

(** The value of a digit character, and of a numeral in [base]. *)
Definition digit_val (c : Z) : Z := if c <? 58 then c - 48 else c - 87.
Definition num_val (base : Z) (l : list Z) : Z := foldl (fun v c => v * base + digit_val c) 0 l.
Definition is_digit (base c : Z) : Prop := exists d, 0 <= d < base /\ c = digit d.

Lemma digit_val_digit d : 0 <= d < 16 -> digit_val (digit d) = d.
Proof.
  intros H. assert (A : Forall (fun d => digit_val (digit d) = d) (seqZ 0 16)) by (vm_compute; repeat constructor).
  rewrite Forall_forall in A. apply A, elem_of_seqZ. lia.
Qed.

Lemma num_val_app base l c : num_val base (l ++ [c]) = num_val base l * base + digit_val c.
Proof. unfold num_val. by rewrite foldl_app. Qed.

Lemma num_val_one base c : num_val base [c] = digit_val c.
Proof. done. Qed.

(** The number of digits of [x]. *)
Definition fits (base : Z) (n : nat) (x : Z) : Prop := 0 <= x < base ^ Z.of_nat n.

Lemma fits_div base n x : 1 < base -> fits base (S n) x -> fits base n (x / base).
Proof.
  unfold fits. intros Hb [H0 H1]. rewrite Nat2Z.inj_succ, Z.pow_succ_r in H1 by lia.
  split; [apply Z.div_pos; lia|]. apply Z.div_lt_upper_bound; lia.
Qed.

(** The loop pushes the digits of [x], least significant first. *)
Lemma printint_loop_run e s base n : forall f x buf,
  1 < base <= 16 -> (n <= f)%nat -> (0 < n)%nat -> fits base n x -> (length buf + n <= PRINTINT_BUF)%nat ->
  exists l, printint_loop f x base buf e s = Ret (buf ++ l) e s /\
    (0 < length l <= n)%nat /\ num_val base (reverse l) = x /\ Forall (is_digit base) l /\
    (last l = Some (digit 0) -> l = [digit 0]).
Proof.
  induction n as [|n IH]; intros f x buf Hb Hf Hn Hx Hbuf; [lia|].
  destruct f as [|f]; [lia|]. simpl. unfold buf_push.
  rewrite (proj2 (Nat.ltb_lt _ _)) by lia. kstep.
  pose proof (Z.mod_pos_bound x base ltac:(lia)) as Hm. pose proof (Z.div_mod x base ltac:(lia)) as Hdm.
  assert (Hd : is_digit base (digit (x mod base))) by (exists (x mod base); split; [lia|done]).
  destruct (Z.eqb_spec (x / base) 0) as [E0|E0]; cbn [negb].
  - exists [digit (x mod base)]. split; [done|]. split; [simpl; lia|]. split; [|split; [by constructor|]].
    + rewrite reverse_singleton, num_val_one, digit_val_digit by lia. lia.
    + intros [= E1]. by rewrite E1.
  - destruct n as [|n]; [exfalso; unfold fits in Hx; simpl in Hx; apply E0; apply Z.div_small; lia|].
    destruct (IH f (x / base) (buf ++ [digit (x mod base)]) Hb ltac:(lia) ltac:(lia) (fits_div base (S n) x ltac:(lia) Hx))
      as (l & E & Hl & Hv & Hds & Hz); [rewrite length_app; simpl; lia|].
    exists (digit (x mod base) :: l). rewrite E, <- app_assoc. split; [done|]. split; [simpl; lia|].
    split; [|split; [by constructor|]].
    + rewrite reverse_cons, num_val_app, Hv, digit_val_digit by lia. lia.
    + intros Hlast. exfalso. destruct l as [|c l']; [simpl in Hl; lia|].
      change (last (c :: l') = Some (digit 0)) in Hlast. specialize (Hz Hlast). rewrite Hz in Hv.
      rewrite reverse_singleton, num_val_one, digit_val_digit in Hv by lia. lia.
Qed.

Lemma fits_20 base x : base = 10 \/ base = 16 -> 0 <= x < 2 ^ 64 -> fits base 20 x.
Proof. unfold fits. intros [->| ->] H; split; simpl; lia. Qed.

Lemma fits_19 base x : base = 10 \/ base = 16 -> 0 <= x <= 2 ^ 63 -> fits base 19 x.
Proof. unfold fits. intros [->| ->] H; split; simpl; lia. Qed.

(** Printing a list of ordinary characters. *)
Lemma puts_run e l : forall s,
  panicked s = 0 -> Forall (fun c => 0 <= c < 256) l -> (length l <= idle_count s)%nat ->
  exists s', for_each l consputc e s = Ret tt e s' /\ echoed s s' l.
Proof.
  induction l as [|c l IH]; intros s Hp Hl Hi; simpl.
  - exists s. split; [done|apply echoed_nil].
  - apply Forall_cons in Hl as [Hc Hl]. simpl in Hi.
    assert (Hq : putc_seq c = [c]).
    { unfold putc_seq. replace (c =? BACKSPACE) with false by (symmetry; apply Z.eqb_neq; unfold BACKSPACE; lia).
      by rewrite uint_wrap_small by lia. }
    destruct (consputc_run e s c Hp) as (s1 & E1 & H1); [rewrite Hq; simpl; lia|]. rewrite Hq in H1.
    pose proof (echoed_panicked _ _ _ H1). pose proof (ec_idle _ _ _ H1) as Hi1. simpl in Hi1.
    destruct (IH s1 ltac:(congruence) Hl ltac:(lia)) as (s2 & E2 & H2). exists s2.
    rewrite (bind_step _ _ _ _ _ _ _ E1). split; [done|]. exact (echoed_trans _ _ _ _ _ H1 H2).
Qed.

Lemma digit_char d : 0 <= d < 16 -> 0 <= digit d < 256.
Proof.
  intros H. assert (A : Forall (fun d => (0 <=? digit d) && (digit d <? 256) = true) (seqZ 0 16))
    by (vm_compute; repeat constructor).
  rewrite Forall_forall in A. specialize (A d ltac:(apply elem_of_seqZ; lia)). lia.
Qed.

Lemma digits_char base l : base <= 16 -> Forall (is_digit base) l -> Forall (fun c => 0 <= c < 256) l.
Proof. intros Hb H. eapply Forall_impl; [exact H|]. intros c (d & Hd & ->). apply digit_char. lia. Qed.

(** [printint] prints the numeral of its argument.  For base 10 and 16 and every
    64-bit argument it returns without overrunning its 20-byte buffer; the
    characters it sends are an optional minus sign and a non-empty numeral
    without leading zeros, whose value is the argument (its magnitude after a
    minus sign; reduced to unsigned when [sign] is not set). *)
Theorem printint_correct e s xx base sign :
  base = 10 \/ base = 16 -> - 2 ^ 63 <= xx < 2 ^ 63 -> panicked s = 0 -> (PRINTINT_BUF <= idle_count s)%nat ->
  let neg := sign && (xx <? 0) in
  exists l s', printint xx base sign e s = Ret tt e s' /\
    echoed s s' (if neg then 45 :: l else l) /\
    num_val base l = (if neg then - xx else u64 xx) /\
    l <> [] /\ Forall (is_digit base) l /\ (l !! 0%nat = Some (digit 0) -> l = [digit 0]).
Proof.
  intros Hb Hx Hp Hi neg. unfold printint. fold neg.
  assert (Hxx : (if neg then u64 (- xx) else u64 xx) = (if neg then - xx else u64 xx)).
  { destruct neg eqn:En; [|done]. unfold neg in En. apply andb_true_iff in En as [_ En]. apply uint_wrap_small. lia. }
  rewrite Hxx. set (x := if neg then - xx else u64 xx).
  set (n := if neg then 19%nat else 20%nat).
  assert (Hf : fits base n x).
  { unfold n, x. destruct neg eqn:En; [|apply fits_20; [done|apply uint_wrap_range; lia]].
    unfold neg in En. apply andb_true_iff in En as [_ En]. apply fits_19; [done|]. lia. }
  destruct (printint_loop_run e s base n 64 x []) as (l & E & Hl & Hv & Hds & Hz);
    [lia|unfold n; destruct neg; lia|unfold n; destruct neg; lia|done|unfold n, PRINTINT_BUF; destruct neg; simpl; lia|].
  rewrite (bind_step _ _ _ _ _ _ _ E). rewrite app_nil_l.
  assert (Eb : (if neg then buf_push 45 l else ret l) e s = Ret (if neg then l ++ [45] else l) e s).
  { destruct neg; [|done]. unfold buf_push. by rewrite (proj2 (Nat.ltb_lt _ _)) by (unfold n, PRINTINT_BUF in *; lia). }
  rewrite (bind_step _ _ _ _ _ _ _ Eb).
  replace (reverse (if neg then l ++ [45] else l)) with (if neg then 45 :: reverse l else reverse l)
    by (destruct neg; [by rewrite reverse_app|done]).
  assert (Hch : Forall (fun c => 0 <= c < 256) (if neg then 45 :: reverse l else reverse l)).
  { assert (Forall (fun c => 0 <= c < 256) (reverse l)) by (apply Forall_reverse, (digits_char base); [lia|done]).
    destruct neg; [by constructor|done]. }
  destruct (puts_run e _ s Hp Hch) as (s' & Es & Hs).
  { destruct neg; simpl; rewrite length_reverse; unfold n, PRINTINT_BUF in *; lia. }
  exists (reverse l), s'. split; [done|]. split; [done|]. split; [done|]. split; [|split; [by apply Forall_reverse|]].
  - intros Hr. apply (f_equal length) in Hr. rewrite length_reverse in Hr. simpl in Hr. lia.
  - rewrite reverse_lookup by lia. intros Hz'. rewrite Hz; [done|]. rewrite last_lookup. rewrite <- Hz'. f_equal. lia.
Qed.

Lemma printint_correct_witness :
  exists l s', printint (-42) 10 true demo_cenv (set_idle (replicate 20 true) demo_uart) = Ret tt demo_cenv s' /\
    num_val 10 l = 42 /\ tx_sent s' = 45 :: l.
Proof.
  destruct (printint_correct demo_cenv (set_idle (replicate 20 true) demo_uart) (-42) 10 true) as (l & s' & E & Ec & Hv & _).
  - left. reflexivity.
  - lia.
  - reflexivity.
  - vm_compute. lia.
  - exists l, s'. split; [exact E|]. split; [exact Hv|]. rewrite (ec_sent _ _ _ Ec). reflexivity.
Defined.
