(* ===== verification/File.v ===== *)
(** * kernel/file.c: open files, and [pipealloc] of kernel/pipe.c

    The file table on top of inodes ([Fs]), pipes ([Pipe]) and the console
    device ([Console]).  A file pointer is an index into [ftable.file].  The only
    entry of the device switch is the console; [fl_devsw] tells which entries are
    set. *)

From stdpp Require Import base gmap sets list strings.
From Stdlib Require Import ZArith Lia.
From S2P Require Import Prelude Kernel Riscv Kalloc Vm Sched Sleeplock Bytes Bio Log Usr Fs Ring Pipe Uart Console.

(** ** Definitions *)

Definition NFILE : nat := 100.
Definition NDEV : Z := 10.
Definition CONSOLE : Z := 1.

Inductive ftype : Type := FD_NONE | FD_PIPE | FD_INODE | FD_DEVICE.

#[export] Instance ftype_eq_dec : EqDecision ftype.
Proof. solve_decision. Defined.

(** [struct file] *)
Record file : Type := File {
  f_type : ftype;
  f_ref : Z;
  f_readable : Z;
  f_writable : Z;
  f_pipe : Z;
  f_ip : option nat;
  f_off : Z;
  f_major : Z
}.

Definition set_f_ref (r : Z) (f : file) : file :=
  File (f_type f) r (f_readable f) (f_writable f) (f_pipe f) (f_ip f) (f_off f) (f_major f).
Definition set_f_type (t : ftype) (f : file) : file :=
  File t (f_ref f) (f_readable f) (f_writable f) (f_pipe f) (f_ip f) (f_off f) (f_major f).
Definition set_f_mode (r w : Z) (f : file) : file :=
  File (f_type f) (f_ref f) r w (f_pipe f) (f_ip f) (f_off f) (f_major f).
Definition set_f_pipe (p : Z) (f : file) : file :=
  File (f_type f) (f_ref f) (f_readable f) (f_writable f) p (f_ip f) (f_off f) (f_major f).
Definition set_f_ip (ip : option nat) (f : file) : file :=
  File (f_type f) (f_ref f) (f_readable f) (f_writable f) (f_pipe f) ip (f_off f) (f_major f).
Definition set_f_off (o : Z) (f : file) : file :=
  File (f_type f) (f_ref f) (f_readable f) (f_writable f) (f_pipe f) (f_ip f) o (f_major f).
Definition set_f_major (m : Z) (f : file) : file :=
  File (f_type f) (f_ref f) (f_readable f) (f_writable f) (f_pipe f) (f_ip f) (f_off f) m.

(** The console's own fields. *)
Record tty_fields : Type := TtyFields { tf_uart : uart; tf_buf : list Z; tf_r : Z; tf_w : Z; tf_e : Z }.

(** The file layer: [ftable], [devsw], the pipes, the console and the file system. *)
Record filest : Type := Filest {
  fl_fs : fs;
  fl_pipes : gmap Z pipe;
  fl_tty : tty_fields;
  fl_file : list file;
  fl_devsw : list bool
}.

Definition set_files (l : list file) (s : filest) : filest :=
  Filest (fl_fs s) (fl_pipes s) (fl_tty s) l (fl_devsw s).

#[export] Instance filest_fs : Part filest fs :=
  {| part_get := fl_fs;
     part_put := fun x s => Filest x (fl_pipes s) (fl_tty s) (fl_file s) (fl_devsw s);
     part_get_put := fun _ _ => eq_refl;
     part_put_get := fun s => match s with Filest _ _ _ _ _ => eq_refl end;
     part_put_put := fun _ _ _ => eq_refl |}.

#[export] Instance filest_pipe : Part filest pipest :=
  {| part_get := fun s => Pipest (fs_usr (fl_fs s)) (fl_pipes s);
     part_put := fun x s => Filest (with_usr (fl_fs s) (ps_usr x)) (ps_pipes x) (fl_tty s) (fl_file s) (fl_devsw s);
     part_get_put := fun x s => match x with Pipest _ _ => eq_refl end;
     part_put_get := fun s => match s with Filest (Fs _ _ _ _ _) _ _ _ _ => eq_refl end;
     part_put_put := fun _ _ _ => eq_refl |}.

Definition cons_get (s : filest) : cons :=
  let t := fl_tty s in Cons (fs_usr (fl_fs s)) (tf_uart t) (tf_buf t) (tf_r t) (tf_w t) (tf_e t).
Definition cons_put (x : cons) (s : filest) : filest :=
  Filest (with_usr (fl_fs s) (co_usr x)) (fl_pipes s)
         (TtyFields (co_uart x) (co_buf x) (co_r x) (co_w x) (co_e x)) (fl_file s) (fl_devsw s).

#[export] Instance filest_cons : Part filest cons :=
  {| part_get := cons_get;
     part_put := cons_put;
     part_get_put := fun x s => match x with Cons _ _ _ _ _ _ => eq_refl end;
     part_put_get := fun s => match s with Filest (Fs _ _ _ _ _) _ (TtyFields _ _ _ _ _) _ _ => eq_refl end;
     part_put_put := fun _ _ _ => eq_refl |}.

#[export] Instance filest_usr : Part filest usr :=
  {| part_get := fun s => fs_usr (fl_fs s);
     part_put := fun u s => Filest (with_usr (fl_fs s) u) (fl_pipes s) (fl_tty s) (fl_file s) (fl_devsw s);
     part_get_put := fun _ _ => eq_refl;
     part_put_get := fun s => match s with Filest (Fs _ _ _ _ _) _ _ _ _ => eq_refl end;
     part_put_put := fun _ _ _ => eq_refl |}.

(** Code of the layers below, run by the file layer. *)
Definition on_fs {A} (m : K fs A) : K filest A := zoom m.
Definition on_usr {A} (m : K usr A) : K filest A := zoom m.
Definition f_begin_op : K filest unit := on_fs (zoom begin_op).
Definition f_end_op : K filest unit := on_fs (zoom end_op).

Definition getf (f : nat) : K filest file :=
  fun e s => match fl_file s !! f with
             | Some x => Ret x e s
             | None => Undef "file index"
             end.
Definition updf (f : nat) (g : file -> file) : K filest unit :=
  modify (fun s => set_files (alter g f (fl_file s)) s).

Definition fileinit : K filest unit := initlock FtableLock.

(** kernel/console.c, [consoleinit] *)
Definition consoleinit : K filest unit :=
  zoom cons_setup ;;
  modify (fun s => Filest (fl_fs s) (fl_pipes s) (fl_tty s) (fl_file s)
                          (<[Z.to_nat CONSOLE := true]> (fl_devsw s))).

Definition filealloc : K filest (option nat) :=
  acquire FtableLock ;;
  l <- gets fl_file ;;
  match list_find (fun f => f_ref f = 0) l with
  | Some (i, _) =>
      updf i (set_f_ref 1) ;;
      release FtableLock ;;
      ret (Some i)
  | None =>
      release FtableLock ;;
      ret None
  end.

Definition filedup (f : nat) : K filest nat :=
  acquire FtableLock ;;
  x <- getf f ;;
  if f_ref x <? 1 then panic "filedup"
  else
    updf f (fun x => set_f_ref (f_ref x + 1) x) ;;
    release FtableLock ;;
    ret f.

(** The inode of a file; a null pointer is dereferenced. *)
Definition file_ip (x : file) : K filest nat :=
  match f_ip x with Some i => ret i | None => undef "null inode" end.

Section File.
Context {L : Linker}.

Definition fileclose (f : nat) : K filest unit :=
  acquire FtableLock ;;
  x <- getf f ;;
  if f_ref x <? 1 then panic "fileclose"
  else
    updf f (fun x => set_f_ref (f_ref x - 1) x) ;;
    ff <- getf f ;;
    if 0 <? f_ref ff then release FtableLock
    else
      updf f (fun x => set_f_type FD_NONE (set_f_ref 0 x)) ;;
      release FtableLock ;;
      match f_type ff with
      | FD_PIPE => zoom (pipeclose (f_pipe ff) (truth (f_writable ff)))
      | FD_INODE | FD_DEVICE =>
          f_begin_op ;;
          ip <- file_ip ff ;;
          on_fs (iput ip) ;;
          f_end_op
      | FD_NONE => ret tt
      end.

(** The bytes of a [struct stat]; [pad] are the 4 bytes of padding before
    [size], which the C code leaves uninitialised. *)
Definition stat_bytes (pad : list Z) (st : stat) : list Z :=
  le 4 (st_dev st) ++ le 4 (st_ino st) ++ le 2 (st_type st) ++ le 2 (st_nlink st) ++ pad ++ le 8 (st_size st).

Definition filestat (pad : list Z) (f : nat) (addr : Z) : K filest Z :=
  p <- curproc ;;
  d <- on_usr (getpd p) ;;
  x <- getf f ;;
  match f_type x with
  | FD_INODE | FD_DEVICE =>
      on_fs (ilock (f_ip x)) ;;
      ip <- file_ip x ;;
      st <- on_fs (stati ip) ;;
      on_fs (iunlock (f_ip x)) ;;
      r <- on_usr (zoom (copyout (uproc_of d) (pd_pagetable d) addr (stat_bytes pad st))) ;;
      if r <? 0 then ret (-1) else ret 0
  | _ => ret (-1)
  end.

(** [devsw[major].read], [devsw[major].write]: is the entry set? *)
Definition has_dev (major : Z) : K filest bool :=
  l <- gets fl_devsw ;;
  ret (negb ((major <? 0) || (NDEV <=? major)) && default false (l !! Z.to_nat major)).

Definition fileread (f : nat) (addr n : Z) : K filest Z :=
  x <- getf f ;;
  if f_readable x =? 0 then ret (-1)
  else
    match f_type x with
    | FD_PIPE => zoom (piperead (f_pipe x) addr n)
    | FD_DEVICE =>
        b <- has_dev (f_major x) ;;
        if negb b then ret (-1)
        else
          r <- zoom (consoleread (ToUser addr) n) ;;
          ret (fst r)
    | FD_INODE =>
        on_fs (ilock (f_ip x)) ;;
        ip <- file_ip x ;;
        r <- on_fs (readi ip (ToUser addr) (f_off x) (u32 n)) ;;
        when (0 <? fst r) (updf f (fun x => set_f_off (u32 (f_off x + fst r)) x)) ;;
        on_fs (iunlock (f_ip x)) ;;
        ret (fst r)
    | FD_NONE => panic "fileread"
    end.

(** The most bytes one transaction of [filewrite] writes. *)
Definition filewrite_max : Z := (MAXOPBLOCKS - 1 - 1 - 2) / 2 * BSIZE.

(** [while(i < n)] of [filewrite]: the final [i] *)
Fixpoint filewrite_loop (fuel : nat) (f : nat) (addr n i : Z) : K filest Z :=
  if i <? n then
    match fuel with
    | O => undef "fuel"
    | S k =>
        let n1 := Z.min (n - i) filewrite_max in
        f_begin_op ;;
        x <- getf f ;;
        on_fs (ilock (f_ip x)) ;;
        ip <- file_ip x ;;
        r <- on_fs (writei ip (FromUser (u64 (addr + i))) (f_off x) (u32 n1)) ;;
        when (0 <? r) (updf f (fun x => set_f_off (u32 (f_off x + r)) x)) ;;
        on_fs (iunlock (f_ip x)) ;;
        f_end_op ;;
        if negb (r =? n1) then ret i
        else filewrite_loop k f addr n (i + r)
    end
  else ret i.

Definition filewrite (f : nat) (addr n : Z) : K filest Z :=
  x <- getf f ;;
  if f_writable x =? 0 then ret (-1)
  else
    match f_type x with
    | FD_PIPE => zoom (pipewrite (f_pipe x) addr n)
    | FD_DEVICE =>
        b <- has_dev (f_major x) ;;
        if negb b then ret (-1)
        else zoom (consolewrite (FromUser addr) n)
    | FD_INODE =>
        i <- filewrite_loop (Z.to_nat (n / filewrite_max + 1)) f addr n 0 ;;
        ret (if i =? n then n else -1)
    | FD_NONE => panic "filewrite"
    end.

(** kernel/pipe.c, [pipealloc]: the two files, or [None] for the result -1. *)
Definition pipealloc : K filest (option (nat * nat)) :=
  f0 <- filealloc ;;
  match f0 with
  | None => ret None
  | Some f0 =>
      f1 <- filealloc ;;
      match f1 with
      | None =>
          fileclose f0 ;;
          ret None
      | Some f1 =>
          pi <- on_usr (zoom kalloc) ;;
          if pi =? 0 then
            fileclose f0 ;;
            fileclose f1 ;;
            ret None
          else
            zoom (putpipe pi (Pipe (replicate (Z.to_nat PIPESIZE) 5) 0 0 1 1)) ;;
            initlock (PipeLock pi) ;;
            updf f0 (fun x => set_f_pipe pi (set_f_mode 1 0 (set_f_type FD_PIPE x))) ;;
            updf f1 (fun x => set_f_pipe pi (set_f_mode 0 1 (set_f_type FD_PIPE x))) ;;
            ret (Some (f0, f1))
      end
  end.

End File.
