(* ===== verification/Proc.v ===== *)
(** * kernel/proc.c: the life of a process

    Allocation and release of process slots, [fork], [exit] and [wait], on top of
    the file layer.  The lock-protected fields of [struct proc] live in the
    context ([procs]), the private ones in [u_pd].  [exit] never returns: its run
    ends in [sched] with [Block].  A parent that sleeps in [wait] ends the run
    the same way and continues with [wait_resume]. *)

From stdpp Require Import base gmap sets list strings.
From Stdlib Require Import ZArith Lia.
From S2P Require Import Prelude Kernel Riscv Kalloc Vm Sched Sleeplock Bytes Bio Log Usr Fs Pipe Uart Console File.

(** ** Definitions *)

Definition on_kmem {A} (m : K kmem A) : K filest A := on_usr (zoom m).

(** The channel of a [struct proc *], which may be null. *)
Definition chan_of (p : option nat) : channel :=
  match p with Some i => ChanProc i | None => ChanNull end.

Section Proc.
Context {L : Linker}.

Definition procinit : K filest unit :=
  initlock PidLock ;;
  initlock WaitLock ;;
  for_each all_procs (fun p =>
    initlock (ProcLock p) ;;
    updp p (set_state UNUSED) ;;
    on_usr (updpd p (set_pd_kstack (KSTACK (Z.of_nat p))))).

Definition proc_pagetable (trapframe : Z) : K kmem Z :=
  pagetable <- uvmcreate ;;
  if pagetable =? 0 then ret 0
  else
    r <- mappages pagetable TRAMPOLINE PGSIZE trampoline (Z.lor PTE_R PTE_X) ;;
    if r <? 0 then
      uvmfree pagetable 0 ;;
      ret 0
    else
      r <- mappages pagetable TRAPFRAME PGSIZE trapframe (Z.lor PTE_R PTE_W) ;;
      if r <? 0 then
        uvmunmap pagetable TRAMPOLINE 1 false ;;
        uvmfree pagetable 0 ;;
        ret 0
      else ret pagetable.

Definition proc_freepagetable (pagetable sz : Z) : K kmem unit :=
  uvmunmap pagetable TRAMPOLINE 1 false ;;
  uvmunmap pagetable TRAPFRAME 1 false ;;
  uvmfree pagetable sz.

Definition freeproc (p : nat) : K filest unit :=
  d <- on_usr (getpd p) ;;
  when (truth (pd_trapframe d)) (on_kmem (kfree (pd_trapframe d))) ;;
  on_usr (updpd p (set_pd_trapframe 0)) ;;
  when (truth (pd_pagetable d)) (on_kmem (proc_freepagetable (pd_pagetable d) (pd_sz d))) ;;
  on_usr (updpd p (fun d => set_pd_name [] (set_pd_sz 0 (set_pd_pagetable 0 d)))) ;;
  updp p (set_pid 0) ;;
  updp p (set_parent None) ;;
  updp p (set_chan ChanNull) ;;
  updp p (set_killed_field 0) ;;
  updp p (set_xstate 0) ;;
  updp p (set_state UNUSED).

(** The scan of [allocproc]: an unused slot, whose lock stays held. *)
Definition find_unused : K filest (option nat) :=
  for_find all_procs (fun p =>
    acquire (ProcLock p) ;;
    q <- getp p ;;
    if bool_decide (p_state q = UNUSED) then ret (Some p)
    else
      release (ProcLock p) ;;
      ret None).

Definition allocproc : K filest (option nat) :=
  r <- find_unused ;;
  match r with
  | None => ret None
  | Some p =>
      pid <- allocpid ;;
      updp p (set_pid pid) ;;
      updp p (set_state USED) ;;
      tf <- on_kmem kalloc ;;
      on_usr (updpd p (set_pd_trapframe tf)) ;;
      if tf =? 0 then
        freeproc p ;;
        release (ProcLock p) ;;
        ret None
      else
        pt <- on_kmem (proc_pagetable tf) ;;
        on_usr (updpd p (set_pd_pagetable pt)) ;;
        if pt =? 0 then
          freeproc p ;;
          release (ProcLock p) ;;
          ret None
        else
          on_usr (updpd p (fun d => set_pd_context CodeForkret (pd_kstack d + PGSIZE) d)) ;;
          ret (Some p)
  end.

(** A null process pointer is dereferenced. *)
Definition the_proc (p : option nat) : K filest nat :=
  match p with Some i => ret i | None => undef "null proc" end.

Definition userinit : K filest unit :=
  r <- allocproc ;;
  modify_env (fun e => set_initproc e r) ;;
  p <- the_proc r ;;
  cwd <- on_fs (namei [slash]) ;;
  on_usr (updpd p (set_pd_cwd cwd)) ;;
  updp p (set_state RUNNABLE) ;;
  release (ProcLock p).

(** [n] is an [int]; [n > p->sz] compares as unsigned 64-bit *)
Definition shrinkproc (n : Z) : K filest Z :=
  p <- curproc ;;
  d <- on_usr (getpd p) ;;
  if pd_sz d <? u64 n then ret (-1)
  else
    sz <- on_kmem (uvmdealloc (pd_pagetable d) (pd_sz d) (u64 (pd_sz d - n))) ;;
    on_usr (updpd p (set_pd_sz sz)) ;;
    ret 0.

(** [*(np->trapframe) = *(p->trapframe)] *)
Definition copy_trapframe (from to : Z) : K kmem unit :=
  modify (fun s => set_mem s (mem_copy (kmem_mem s) to from sizeof_trapframe)).

Definition fork : K filest Z :=
  p <- curproc ;;
  r <- allocproc ;;
  match r with
  | None => ret (-1)
  | Some np =>
      d <- on_usr (getpd p) ;;
      nd <- on_usr (getpd np) ;;
      r <- on_kmem (uvmcopy (pd_pagetable d) (pd_pagetable nd) (pd_sz d)) ;;
      if r <? 0 then
        freeproc np ;;
        release (ProcLock np) ;;
        ret (-1)
      else
        on_usr (updpd np (set_pd_sz (pd_sz d))) ;;
        on_kmem (copy_trapframe (pd_trapframe d) (pd_trapframe nd)) ;;
        on_usr (tf_store np (tf_a 0) 0) ;;
        for_each (seq 0 NOFILE) (fun i =>
          match pd_ofile d !! i with
          | Some (Some f) =>
              f' <- filedup f ;;
              on_usr (updpd np (fun nd => set_pd_ofile (<[i := Some f']> (pd_ofile nd)) nd))
          | _ => ret tt
          end) ;;
        match pd_cwd d with
        | None => undef "null cwd"
        | Some c =>
            cwd <- on_fs (idup c) ;;
            on_usr (updpd np (set_pd_cwd (Some cwd))) ;;
            on_usr (updpd np (set_pd_name (take 15 (pd_name d)))) ;;
            q <- getp np ;;
            release (ProcLock np) ;;
            acquire WaitLock ;;
            updp np (set_parent (Some p)) ;;
            release WaitLock ;;
            acquire (ProcLock np) ;;
            updp np (set_state RUNNABLE) ;;
            release (ProcLock np) ;;
            ret (p_pid q)
        end
  end.

Definition exit (status : Z) : K filest unit :=
  p <- curproc ;;
  ip <- (fun e t => Ret (initproc e) e t) ;;
  if bool_decide (Some p = ip) then panic "init exiting"
  else
    for_each (seq 0 NOFILE) (fun fd =>
      d <- on_usr (getpd p) ;;
      match pd_ofile d !! fd with
      | Some (Some f) =>
          fileclose f ;;
          on_usr (updpd p (fun d => set_pd_ofile (<[fd := None]> (pd_ofile d)) d))
      | _ => ret tt
      end) ;;
    f_begin_op ;;
    d <- on_usr (getpd p) ;;
    match pd_cwd d with
    | None => undef "null cwd"
    | Some c => on_fs (iput c)
    end ;;
    f_end_op ;;
    on_usr (updpd p (set_pd_cwd None)) ;;
    acquire WaitLock ;;
    reparent p ;;
    q <- getp p ;;
    wakeup (chan_of (p_parent q)) ;;
    acquire (ProcLock p) ;;
    updp p (set_xstate status) ;;
    updp p (set_state ZOMBIE) ;;
    release WaitLock ;;
    sched ;;
    panic "zombie exit".

(** The scan of [wait] over the slots [ps]: the result of the call, or whether
    the process has children. *)
Fixpoint wait_scan (p : nat) (addr : Z) (ps : list nat) (havekids : bool) : K filest (Z + bool) :=
  match ps with
  | [] => ret (inr havekids)
  | pp :: ps' =>
      q <- getp pp ;;
      if bool_decide (p_parent q = Some p) then
        acquire (ProcLock pp) ;;
        q <- getp pp ;;
        if bool_decide (p_state q = ZOMBIE) then
          d <- on_usr (getpd p) ;;
          r <- (if negb (addr =? 0) then on_kmem (copyout (uproc_of d) (pd_pagetable d) addr (le 4 (p_xstate q))) else ret 0) ;;
          if r <? 0 then
            release (ProcLock pp) ;;
            release WaitLock ;;
            ret (inl (-1))
          else
            freeproc pp ;;
            release (ProcLock pp) ;;
            release WaitLock ;;
            ret (inl (p_pid q))
        else
          release (ProcLock pp) ;;
          wait_scan p addr ps' true
      else wait_scan p addr ps' havekids
  end.

(** One turn of [wait]'s loop; a turn that sleeps ends the run. *)
Definition wait_loop (p : nat) (addr : Z) : K filest Z :=
  r <- wait_scan p addr all_procs false ;;
  match r with
  | inl v => ret v
  | inr havekids =>
      b <- (if negb havekids then ret true else v <- killed p ;; ret (truth v)) ;;
      if (b : bool) then
        release WaitLock ;;
        ret (-1)
      else
        sleep (ChanProc p) WaitLock ;;
        ret 0
  end.

Definition wait (addr : Z) : K filest Z :=
  p <- curproc ;;
  acquire WaitLock ;;
  wait_loop p addr.

(** A process that slept in [wait] runs again. *)
Definition wait_resume (addr : Z) : K filest Z :=
  sleep_resume WaitLock ;;
  p <- curproc ;;
  wait_loop p addr.

(** [procdump] only prints. *)
Definition procdump : K filest unit := printk.

End Proc.
