(* ===== verification/ProcMem.v ===== *)
(** * The memory of a process

    kernel/proc.c, [proc_pagetable] and [proc_freepagetable]: the page table of a
    process with the trampoline and the trapframe page at the top.  An address
    space holds the user pages below [TRAPFRAME]; the two pages above do not belong
    to it.  Everything that is done for a new process only takes pages from the
    free list, and what goes wrong on the way is given back. *)

From stdpp Require Import base gmap sets list strings.
From Stdlib Require Import ZArith Lia.
From S2P Require Import Prelude Kernel Riscv Kalloc Vm VmUser VmCopy VmSpace VmFree Sched Sleeplock Bytes Bio Log Usr Fs Pipe Uart Console File Proc.

Section ProcMem.
Context {L : Linker} (Hlink : linker_ok).

#[local] Arguments us_kinv {_ root B s l x}.
#[local] Arguments us_pt {_ root B s l x}.
#[local] Arguments us_uinv {_ root B s l x}.
#[local] Arguments us_held {_ root B s l x}.
#[local] Arguments us_ust {_ root B Kp s l x s' l' x'}.
#[local] Arguments us_foreign {_ root B Kp s l x s' l' x'}.
#[local] Arguments us_count {_ root B Kp s l x s' l' x'}.
#[local] Arguments us_tree {_ root B Kp s l x s' l' x'}.
#[local] Arguments sp_ust {_ root B s l}.
#[local] Arguments sp_leaf {_ root B s l}.

(** The trampoline page of the kernel image can be mapped. *)
Definition trampoline_ok : Prop := 0 <= trampoline /\ trampoline + PGSIZE <= 2 ^ 56.

(** ** Pages that are in use *)

(** Pages in use stay in use, with their contents and counts. *)
Definition keeps (s : kmem) (l : list Z) (s' : kmem) (l' : list Z) : Prop :=
  forall q, kpage q -> q ∉ l -> q ∉ l' /\ refcount s' (pageno q) = refcount s (pageno q) /\
    forall x, q <= x < q + PGSIZE -> kmem_mem s' x = kmem_mem s x.

Lemma keeps_refl s l : keeps s l s l.
Proof. by intros q. Qed.

Lemma keeps_trans s1 l1 s2 l2 s3 l3 : keeps s1 l1 s2 l2 -> keeps s2 l2 s3 l3 -> keeps s1 l1 s3 l3.
Proof.
  intros H1 H2 q Hq Hl. destruct (H1 q Hq Hl) as (Hl2 & C1 & M1). destruct (H2 q Hq Hl2) as (Hl3 & C2 & M2).
  split; [done|]. split; [congruence|]. intros x Hx. by rewrite M2, M1.
Qed.

(** ... except for the contents of [t] *)
Definition keeps_but (t : Z) (s : kmem) (l : list Z) (s' : kmem) (l' : list Z) : Prop :=
  forall q, kpage q -> q ∉ l -> q <> t -> q ∉ l' /\ refcount s' (pageno q) = refcount s (pageno q) /\
    forall x, q <= x < q + PGSIZE -> kmem_mem s' x = kmem_mem s x.

(** ... and for the pages in [X] only *)
Definition keeps_on (X : Z -> Prop) (s : kmem) (l : list Z) (s' : kmem) (l' : list Z) : Prop :=
  forall q, kpage q -> q ∉ l -> X q -> q ∉ l' /\ refcount s' (pageno q) = refcount s (pageno q) /\
    forall x, q <= x < q + PGSIZE -> kmem_mem s' x = kmem_mem s x.

Lemma keeps_keeps_but t s l s' l' : keeps s l s' l' -> keeps_but t s l s' l'.
Proof. intros H q Hq Hl _. by apply H. Qed.

(** ** Address spaces *)

(** The user part of an address space of [sz] bytes, and the two pages above it *)
Record aspace (s : kmem) (l : list Z) (root tf sz : Z) : Prop := {
  as_space : uspace root TRAPFRAME s l;
  as_size : 0 <= sz <= TRAPFRAME;
  as_top : forall va, PGROUNDUP sz <= va < TRAPFRAME -> valid_at (kmem_mem s) root va = false;
  as_tramp : lookup_pte (kmem_mem s) root TRAMPOLINE = map_pte trampoline (Z.lor PTE_R PTE_X);
  as_tf : lookup_pte (kmem_mem s) root TRAPFRAME = map_pte tf (Z.lor PTE_R PTE_W);
  as_frame : kpage tf
}.

(** The trapframe page belongs to no address space. *)
Definition frame_page (s : kmem) (l : list Z) (root tf : Z) : Prop :=
  foreign s root l TRAPFRAME 0 tf /\ refcount s (pageno tf) = 1.

Lemma round_top sz : 0 <= sz <= TRAPFRAME -> 0 <= PGROUNDUP sz <= TRAPFRAME.
Proof.
  intros H. change TRAPFRAME with (2 ^ 38 - 8192) in *. destruct (PGROUNDUP_bounds sz) as [Ha Hb]; [unfold PGSIZE; lia|].
  split; [lia|]. destruct (Z.le_gt_cases (PGROUNDUP sz) (2 ^ 38 - 8192)) as [|Hgt]; [done|].
  pose proof (aligned_step (2 ^ 38 - 8192) (PGROUNDUP sz) eq_refl Ha Hgt). lia.
Qed.

(** Work on the page table above [TRAPFRAME] *)
Lemma above_ustep root B Kp s s' l l' f x :
  B <= MAXVA -> ust root B s l x -> evolves root s s' l l' f ->
  (forall va, 0 <= va < B -> f va = lookup_pte (kmem_mem s) root va) -> ustep root B Kp s l x s' l' x.
Proof.
  intros HB U G Hf. eapply ustep_weaken; [|apply (evolve_ustep Hlink root B s s' l l' x x f HB U G (fun _ => False))]; auto; tauto.
Qed.

(** [uvmunmap] of one page at the top, which is not freed *)
Lemma unmap_top e root s l a :
  kinv s l -> pt_inv (kmem_mem s) root l -> page_aligned a -> 0 <= a < MAXVA -> valid_at (kmem_mem s) root a = true ->
  exists s', uvmunmap root a 1 false e s = Ret tt e s' /\
    evolves root s s' l l (fun va => if decide (vpn va = vpn a) then 0 else lookup_pte (kmem_mem s) root va).
Proof.
  intros Hk Hpt Ha Ha0 Hv. unfold uvmunmap. rewrite Ha. cbn [negb Z.eqb]. change (Z.to_nat 1) with 1%nat.
  pose proof (MAXVA_page a Ha ltac:(lia)) as Ha1. change MAXVA with (2 ^ 38) in *.
  rewrite uint_wrap_small by (unfold PGSIZE in *; lia). cbn [uvmunmap_loop]. rewrite (proj2 (Z.ltb_lt _ _)) by (unfold PGSIZE; lia).
  rewrite (bind_step _ _ _ _ _ _ _ (walk_lookup e s root a ltac:(change MAXVA with (2 ^ 38); lia))).
  destruct (table (kmem_mem s) root [PX 2 a; PX 1 a]) as [t|] eqn:Et.
  2: { unfold valid_at in Hv. rewrite (lookup_none _ _ _ Et) in Hv. done. }
  destruct (leaf_kpage _ _ _ _ _ Hpt Et) as [Hkt _]. pose proof (kpage_nonzero Hlink t Hkt). pose proof (PX_ok 0 a ltac:(lia)) as Hpx.
  rewrite (proj2 (Z.eqb_neq (t + 8 * PX 0 a) 0)) by (unfold px_ok in Hpx; lia).
  assert (Hl : load64 (kmem_mem s) (t + 8 * PX 0 a) = lookup_pte (kmem_mem s) root a) by (unfold lookup_pte; by rewrite Et).
  unfold valid_at in Hv. unfold read_pte. kstep. rewrite Hl, Hv. cbn [negb]. unfold when. repeat kstep. unfold write_pte. kstep.
  exists (set_mem s (store64 (kmem_mem s) (t + 8 * PX 0 a) 0)). split.
  - rewrite uint_wrap_small by (unfold PGSIZE in *; lia). by rewrite Z.ltb_irrefl || (rewrite (proj2 (Z.ltb_ge _ _)) by lia).
  - eapply evolves_ext; [|by apply (leaf_evolves Hlink s l root a t 0)]. intros va Hva. cbv beta. by rewrite Z.mod_0_l by lia.
Qed.

(** ** A new address space *)

(** The address space [root] was made from pages of the free list [l0]: nothing
    else was touched, and nothing was lost. *)
Record view (s0 : kmem) (l0 : list Z) (root : Z) (s : kmem) (l : list Z) : Prop := {
  vw_space : uspace root TRAPFRAME s l;
  vw_foreign : forall q, kpage q -> foreign s root l TRAPFRAME 0 q <-> q ∉ l0;
  vw_same : forall q, kpage q -> q ∉ l0 -> refcount s (pageno q) = refcount s0 (pageno q) /\
    forall x, q <= x < q + PGSIZE -> kmem_mem s x = kmem_mem s0 x
}.

Lemma view_keeps s0 l0 root s l : view s0 l0 root s l -> keeps s0 l0 s l.
Proof.
  intros V q Hq Hl. split; [|by apply (vw_same _ _ _ _ _ V)]. by apply (vw_foreign _ _ _ _ _ V q Hq) in Hl as (_ & ? & _).
Qed.

Lemma view_step s0 l0 root Kp s l s' l' : view s0 l0 root s l -> ustep root TRAPFRAME Kp s l 0 s' l' 0 ->
  (forall va, 0 <= va < MAXVA -> is_ptr (lookup_pte (kmem_mem s') root va) = false) -> view s0 l0 root s' l'.
Proof.
  intros V U Hlk. split.
  - by apply (uspace_step root TRAPFRAME Kp s l s' l' (vw_space _ _ _ _ _ V) U).
  - intros q Hq. rewrite (us_foreign U q). by apply (vw_foreign _ _ _ _ _ V).
  - intros q Hq Hl. destruct (vw_same _ _ _ _ _ V q Hq Hl) as [C M]. apply (vw_foreign _ _ _ _ _ V q Hq) in Hl.
    split; [by rewrite (us_count U q Hl)|]. intros x Hx. by rewrite (foreign_mem Hlink _ _ _ _ _ _ _ _ U Hl x Hx), M.
Qed.

Lemma table_dec root B s l q : uspace root B s l -> is_table (kmem_mem s) root q \/ ~ is_table (kmem_mem s) root q.
Proof. intros S. rewrite <- (uspace_tables root B s l q S). destruct (decide (q ∈ tables 2 (kmem_mem s) root)); auto. Qed.

(** Giving up an address space that maps nothing *)
Lemma view_free e s0 l0 root s l : kfree_locks e -> kinv s0 l0 -> view s0 l0 root s l ->
  (forall va, 0 <= va < MAXVA -> valid_at (kmem_mem s) root va = false) ->
  exists s' l', uvmfree root 0 e s = Ret tt e s' /\ kinv s' l' /\ keeps s0 l0 s' l' /\ forall q, q ∈ l' <-> q ∈ l0.
Proof.
  intros Hl Hk0 V Hno. pose proof (vw_space _ _ _ _ _ V) as S.
  destruct (uvmfree_all Hlink e root TRAPFRAME s l 0 Hl S) as (s' & l' & E & Hk & Hin & Hf);
    [by apply Z.leb_le|by split; apply Z.leb_le|by apply Z.leb_le|intros va Hva; apply Hno; change (PGROUNDUP 0) with 0 in Hva; lia|].
  assert (Hiff : forall q, q ∈ l' <-> q ∈ l0).
  { intros q. rewrite Hin. change (PGROUNDUP 0) with 0. split.
    - intros [Hq|[Hq|(va & Hva & _)]]; [| |lia].
      + pose proof (kinv_kpage s l q (us_kinv (sp_ust S)) Hq) as Hkq. destruct (decide (q ∈ l0)) as [|Hn]; [done|].
        apply (vw_foreign _ _ _ _ _ V q Hkq) in Hn as (_ & ? & _). done.
      + pose proof Hq as (p & Hp & Et). destruct (pt_page _ _ _ (us_pt (sp_ust S)) p q Hp Et) as [Hkq _].
        destruct (decide (q ∈ l0)) as [|Hn]; [done|]. apply (vw_foreign _ _ _ _ _ V q Hkq) in Hn as (_ & _ & Hn & _). done.
    - intros Hq. pose proof (kinv_kpage s0 l0 q Hk0 Hq) as Hkq. destruct (decide (q ∈ l)) as [|Hn]; [by left|].
      destruct (table_dec root TRAPFRAME s l q S) as [|Ht]; [by right; left|]. exfalso.
      assert (F : foreign s root l TRAPFRAME 0 q); [|by apply (vw_foreign _ _ _ _ _ V q Hkq) in F]. pose proof (kpage_nonzero Hlink q Hkq).
      split; [done|]. split; [done|]. split; [done|]. split; [lia|]. intros va Hva Hv.
      rewrite Hno in Hv; [done|]. change TRAPFRAME with (2 ^ 38 - 8192) in Hva. change MAXVA with (2 ^ 38). lia. }
  exists s', l'. split; [done|]. split; [done|]. split; [|done]. intros q Hq Hq0. split; [by rewrite Hiff|].
  destruct (vw_same _ _ _ _ _ V q Hq Hq0) as [C M]. apply (vw_foreign _ _ _ _ _ V q Hq) in Hq0. destruct (Hf q Hq0) as [C' M'].
  split; [congruence|]. intros x Hx. by rewrite M', M.
Qed.

(** [uvmcreate] *)
Lemma uvmcreate_run e s r l : kfree_locks e -> kinv s (r :: l) ->
  exists s', uvmcreate e s = Ret r e s' /\ kinv s' l /\ view s (r :: l) r s' l /\ forall va, lookup_pte (kmem_mem s') r va = 0.
Proof.
  intros Hl Hk. assert (Hr : kpage r) by (apply (kinv_kpage s (r :: l)); [done|by left]). pose proof (kpage_nonzero Hlink r Hr) as Hr0.
  assert (Hrl : r ∉ l) by (pose proof (kinv_nodup _ _ Hk) as Hn; by apply NoDup_cons in Hn as [? _]).
  unfold uvmcreate. rewrite (bind_step _ _ _ _ _ _ _ (kalloc_run Hlink e s r l Hk Hl)). rewrite (proj2 (Z.eqb_neq r 0)) by lia.
  unfold fill_page. kstep. set (s' := set_mem (alloced s r) (mem_fill (kmem_mem (alloced s r)) r 0 PGSIZE)).
  assert (Hz : forall x, r <= x < r + PGSIZE -> kmem_mem s' x = 0) by (intros x Hx; cbn; by rewrite mem_fill_in).
  assert (Hw : forall x, ~ (r <= x < r + PGSIZE) -> kmem_mem s' x = kmem_mem s x) by (intros x Hx; cbn; by rewrite !mem_fill_out).
  assert (Hk' : kinv s' l) by (apply (kinv_write_page Hlink _ _ r); [by apply kalloc_inv|cbn; do 2 apply mem_fill_ok; apply (kinv_bytes _ _ Hk)|done|done|apply writes_page_fill]).
  exists s'. split; [done|]. split; [done|]. split; [|intros va; by apply zero_lookup]. split.
  - apply zero_uspace; try done. cbn. by rewrite Z.eqb_refl.
  - intros q Hq. rewrite not_elem_of_cons. split; [intros (_ & ? & Ht & _); split; [|done]; intros ->; apply Ht; exists []; split; [apply path_ok_nil|done]|].
    intros [Hqr Hql]. pose proof (kpage_nonzero Hlink q Hq). split; [done|]. split; [done|]. split; [|split; [lia|]].
    + intros (p & Hp & Et). by destruct (zero_table s' r p q Hr Hz Hp Et) as [_ ->].
    + intros va Hva. unfold valid_at. by rewrite (zero_lookup s' r va).
  - intros q Hq [Hqr Hql]%not_elem_of_cons. split.
    + cbn. rewrite (proj2 (Z.eqb_neq _ _)); [done|]. intros E. apply (kpage_pageno_inj Hlink) in E; done.
    + intros x Hx. apply Hw. intros Hx'. by rewrite (page_of_byte Hlink q r x) in Hqr.
Qed.

(** One page at the top *)
Definition top_page (a : Z) : Prop := page_aligned a /\ TRAPFRAME <= a < MAXVA.

Lemma top_below a va : top_page a -> 0 <= va < TRAPFRAME -> vpn va <> vpn a.
Proof. intros [Ha H] Hva E. apply (vpn_aligned a va Ha) in E. lia. Qed.

Lemma map_top e s0 l0 root s l a pa perm : kfree_locks e -> view s0 l0 root s l -> top_page a ->
  valid_at (kmem_mem s) root a = false -> 0 <= pa /\ pa + PGSIZE <= 2 ^ 56 -> 0 <= perm < 1024 -> Z.testbit perm 1 = true ->
  exists r s' l', mappages root a PGSIZE pa perm e s = Ret r e s' /\ view s0 l0 root s' l' /\
    ((r = 0 /\ forall va, 0 <= va < MAXVA -> lookup_pte (kmem_mem s') root va =
        if decide (vpn va = vpn a) then map_pte pa perm else lookup_pte (kmem_mem s) root va) \/
     (r = -1 /\ l' = [] /\ forall va, 0 <= va < MAXVA -> lookup_pte (kmem_mem s') root va = lookup_pte (kmem_mem s) root va)) /\
    (length l <= length l' + 2)%nat.
Proof.
  intros Hl V Ht Hv Hpa Hperm Hbit. pose proof Ht as [Ha Hb]. pose proof (vw_space _ _ _ _ _ V) as S. pose proof (sp_ust S) as U.
  pose proof (MAXVA_page a Ha ltac:(lia)) as Ha1. assert (0 <= TRAPFRAME) by (by apply Z.leb_le).
  destruct (mappages_run_len Hlink e root s l a 1 pa perm Hl Hperm (us_kinv U) (us_pt U) Ha) as (r & s' & l' & E & (k & G & Hr) & N);
    [lia|lia|lia|lia|lia|intros va Hva; rewrite Z.mul_1_l in Hva; apply (vpn_aligned a va Ha) in Hva; by rewrite (lookup_pte_page _ _ va a Hva)|].
  rewrite Z.mul_1_l in E. exists r, s', l'. split; [done|].
  assert (Hk : k = 0 \/ k = 1) by (destruct Hr as [[_ ->]|(_ & _ & ?)]; lia).
  assert (Hlk : forall va, 0 <= va < MAXVA -> lookup_pte (kmem_mem s') root va =
     if decide (k = 1 /\ vpn va = vpn a) then map_pte pa perm else lookup_pte (kmem_mem s) root va).
  { intros va Hva. rewrite (gr_lookup _ _ _ _ _ _ G va Hva). destruct Hk as [->| ->]; [rewrite mapped_0, decide_False by (intros [? _]; lia); done|].
    rewrite mapped_1 by done. destruct (decide (vpn va = vpn a)), (decide (1 = 1 /\ vpn va = vpn a)); tauto || done. }
  split; [|split; [|lia]].
  - eapply (view_step _ _ _ (fun _ => True)); [done|eapply above_ustep; [by apply Z.leb_le|done|exact G|]|].
    + intros va Hva. rewrite <- (gr_lookup _ _ _ _ _ _ G va) by lia. rewrite Hlk by lia. rewrite decide_False; [done|].
      intros [_ E']. by apply (top_below a va).
    + intros va Hva. rewrite Hlk by done. destruct (decide (k = 1 /\ vpn va = vpn a)); [|by apply (sp_leaf S)]. apply (map_pte_leaf _ _ 1); [unfold PGSIZE in *; lia|done|lia|done].
  - destruct Hr as [[-> ->]|(-> & -> & Hk0)]; [left|right]; (split; [done|]); try (split; [done|]); intros va Hva; rewrite Hlk by done;
      [|rewrite decide_False by (intros [? _]; lia); done]. destruct (decide (vpn va = vpn a)), (decide (1 = 1 /\ vpn va = vpn a)); tauto || done.
Qed.

Lemma drop_top e root s l a : uspace root TRAPFRAME s l -> top_page a -> valid_at (kmem_mem s) root a = true ->
  exists s', uvmunmap root a 1 false e s = Ret tt e s' /\ ustep root TRAPFRAME (fun _ => True) s l 0 s' l 0 /\
    (forall va, 0 <= va < MAXVA -> lookup_pte (kmem_mem s') root va = if decide (vpn va = vpn a) then 0 else lookup_pte (kmem_mem s) root va) /\
    (forall va, 0 <= va < MAXVA -> is_ptr (lookup_pte (kmem_mem s') root va) = false) /\
    (forall q, is_table (kmem_mem s') root q <-> is_table (kmem_mem s) root q).
Proof.
  intros S Ht Hv. pose proof Ht as [Ha Hb]. pose proof (sp_ust S) as U. assert (0 <= TRAPFRAME) by (by apply Z.leb_le).
  destruct (unmap_top e root s l a (us_kinv U) (us_pt U) Ha ltac:(lia) Hv) as (s' & E & G). exists s'. split; [done|].
  split; [|split; [apply (gr_lookup _ _ _ _ _ _ G)|split]].
  - eapply above_ustep; [by apply Z.leb_le|done|exact G|]. intros va Hva. cbv beta. rewrite decide_False; [done|by apply top_below].
  - intros va Hva. rewrite (gr_lookup _ _ _ _ _ _ G va Hva). case_decide; [done|by apply (sp_leaf S)].
  - intros q. split; [|by apply (evolves_is_table _ _ _ _ _ _ q G)]. intros Hq. destruct (gr_new _ _ _ _ _ _ G q Hq) as [|Hl]; [done|].
    destruct Hq as (p & Hp & Et). by destruct (pt_page _ _ _ (gr_pt _ _ _ _ _ _ G) p q Hp Et).
Qed.

Lemma tramp_top : top_page TRAMPOLINE.
Proof. split; [done|]. split; [by apply Z.leb_le|done]. Qed.

Lemma frame_top : top_page TRAPFRAME.
Proof. split; [done|]. split; [done|done]. Qed.

Lemma kpage_map tf : kpage tf -> 0 <= tf /\ tf + PGSIZE <= 2 ^ 56.
Proof. intros H. pose proof (kpage_nonzero Hlink tf H). destruct H as [_ H]. unfold PHYSTOP, KERNBASE, PGSIZE in *. lia. Qed.

Lemma frame_below_tramp : vpn TRAMPOLINE <> vpn TRAPFRAME.
Proof. done. Qed.

(** [proc_pagetable]: a page table with the two pages at the top, or nothing *)
Lemma proc_pagetable_run e s l tf : kfree_locks e -> trampoline_ok -> kinv s l -> kpage tf -> tf ∉ l -> refcount s (pageno tf) = 1 ->
  exists r s' l', proc_pagetable tf e s = Ret r e s' /\ kinv s' l' /\ keeps s l s' l' /\
    ((r = 0 /\ (length l <= 5)%nat /\ forall q, q ∈ l' <-> q ∈ l) \/ ((length l <= length l' + 5)%nat /\ kpage r /\ view s l r s' l' /\ aspace s' l' r tf 0 /\ frame_page s' l' r tf)).
Proof.
  intros Hl Htr Hk Htf Htl Hc. unfold proc_pagetable. destruct l as [|r l].
  { exists 0, s, []. unfold uvmcreate. rewrite bind_assoc, (bind_step _ _ _ _ _ _ _ (kalloc_empty e s Hk Hl)). cbn.
    split; [done|]. split; [done|]. split; [apply keeps_refl|]. left. split; [done|]. split; [cbn; lia|done]. }
  assert (Hr : kpage r) by (apply (kinv_kpage s (r :: l)); [done|by left]). pose proof (kpage_nonzero Hlink r Hr) as Hr0.
  destruct (uvmcreate_run e s r l Hl Hk) as (s1 & E1 & Hk1 & V1 & Hz1). rewrite (bind_step _ _ _ _ _ _ _ E1). rewrite (proj2 (Z.eqb_neq r 0)) by lia.
  assert (Hv1 : forall va, valid_at (kmem_mem s1) r va = false) by (intros va; unfold valid_at; by rewrite Hz1).
  destruct (map_top e s (r :: l) r s1 l TRAMPOLINE trampoline (Z.lor PTE_R PTE_X) Hl V1 tramp_top (Hv1 _) Htr) as (x & s2 & l2 & E2 & V2 & H2 & N2);
    [by split; apply Z.leb_le || apply Z.ltb_lt|done|]. rewrite (bind_step _ _ _ _ _ _ _ E2).
  assert (Hgive : forall s3 l3, view s (r :: l) r s3 l3 -> (forall va, 0 <= va < MAXVA -> lookup_pte (kmem_mem s3) r va = 0) -> (length l <= 4)%nat ->
    exists r' s' l', (uvmfree r 0 ;; ret 0) e s3 = Ret r' e s' /\ kinv s' l' /\ keeps s (r :: l) s' l' /\
      ((r' = 0 /\ (length (r :: l) <= 5)%nat /\ forall q, q ∈ l' <-> q ∈ (r :: l)) \/ ((length (r :: l) <= length l' + 5)%nat /\ kpage r' /\ view s (r :: l) r' s' l' /\ aspace s' l' r' tf 0 /\ frame_page s' l' r' tf))).
  { intros s3 l3 V3 Hz3 N. destruct (view_free e s (r :: l) r s3 l3 Hl Hk V3) as (s' & l' & E & Hk' & Kp & Hin);
      [intros va Hva; unfold valid_at; by rewrite Hz3|]. exists 0, s', l'. rewrite (bind_step _ _ _ _ _ _ _ E). repeat (split; [done|]). left. split; [done|]. split; [cbn; lia|done]. }
  destruct H2 as [[-> H2]|(-> & -> & H2)]; cbn [Z.ltb Z.compare]; [|apply (Hgive s2 [] V2); [intros va Hva; by rewrite H2|cbn in N2; lia]].
  assert (Hv2 : valid_at (kmem_mem s2) r TRAPFRAME = false) by (unfold valid_at; rewrite H2, decide_False, Hz1 by done; done).
  destruct (map_top e s (r :: l) r s2 l2 TRAPFRAME tf (Z.lor PTE_R PTE_W) Hl V2 frame_top Hv2 (kpage_map tf Htf)) as (x & s3 & l3 & E3 & V3 & H3 & N3);
    [by split; apply Z.leb_le || apply Z.ltb_lt|done|]. rewrite (bind_step _ _ _ _ _ _ _ E3).
  destruct H3 as [[-> H3]|(-> & -> & H3)]; cbn [Z.ltb Z.compare].
  - exists r, s3, l3. split; [done|]. pose proof (vw_space _ _ _ _ _ V3) as S3. split; [apply (sp_ust S3)|]. split; [by apply (view_keeps _ _ _ _ _ V3)|].
    right. split; [cbn; lia|]. split; [done|]. split; [done|].
    split; [|split; [by apply (vw_foreign _ _ _ _ _ V3)|by destruct (vw_same _ _ _ _ _ V3 tf Htf Htl) as [-> _]]].
    assert (Hlow : forall va, 0 <= va < TRAPFRAME -> lookup_pte (kmem_mem s3) r va = 0).
    { intros va Hva. assert (va < MAXVA) by (change TRAPFRAME with (2 ^ 38 - 8192) in Hva; change MAXVA with (2 ^ 38); lia).
      rewrite H3, decide_False by (lia || by apply (top_below _ _ frame_top)). rewrite H2, decide_False by (lia || by apply (top_below _ _ tramp_top)). apply Hz1. }
    split; [done|by split; apply Z.leb_le| | | |done].
    + intros va Hva. unfold valid_at. rewrite Hlow; [done|]. change (PGROUNDUP 0) with 0 in Hva. lia.
    + rewrite H3, decide_False, H2, decide_True by done. done.
    + by rewrite H3, decide_True.
  - destruct (drop_top e r s3 [] TRAMPOLINE (vw_space _ _ _ _ _ V3) tramp_top) as (s4 & E4 & U4 & H4 & Hp4 & _).
    { unfold valid_at. rewrite H3, H2, decide_True by done. apply map_pte_valid; [destruct Htr; unfold PGSIZE in *; lia|by split; apply Z.leb_le || apply Z.ltb_lt]. }
    rewrite (bind_step _ _ _ _ _ _ _ E4). apply (Hgive s4 []); [by eapply view_step| |cbn in N3; lia].
    intros va Hva. rewrite H4 by done. case_decide; [done|]. rewrite H3, H2, decide_False by done. apply Hz1.
Qed.

Lemma vpn_two va : TRAPFRAME <= va < MAXVA -> vpn va <> vpn TRAPFRAME -> vpn va <> vpn TRAMPOLINE -> False.
Proof.
  intros Hva H1 H2. destruct (Z.lt_ge_cases va TRAMPOLINE) as [Hlt|Hge].
  - apply H1, (vpn_aligned TRAPFRAME va); [done|]. change TRAPFRAME with (2 ^ 38 - 8192) in *. change TRAMPOLINE with (2 ^ 38 - 4096) in *. unfold PGSIZE. lia.
  - apply H2, (vpn_aligned TRAMPOLINE va); [done|]. change MAXVA with (2 ^ 38) in *. change TRAMPOLINE with (2 ^ 38 - 4096) in *. unfold PGSIZE. lia.
Qed.

(** The pages of an address space: its tables and its user pages *)
Definition owns (s : kmem) (root sz q : Z) : Prop :=
  is_table (kmem_mem s) root q \/
  exists va, 0 <= va < PGROUNDUP sz /\ valid_at (kmem_mem s) root va = true /\ q = page_at (kmem_mem s) root va.

(** [proc_freepagetable]: exactly the pages of the address space become free. *)
Lemma proc_freepagetable_run e s l root tf sz : kfree_locks e -> trampoline_ok -> aspace s l root tf sz ->
  exists s' l', proc_freepagetable root sz e s = Ret tt e s' /\ kinv s' l' /\
    (forall q, q ∈ l' <-> q ∈ l \/ owns s root sz q) /\
    (forall q, foreign s root l TRAPFRAME 0 q -> q ∉ l' /\ refcount s' (pageno q) = refcount s (pageno q) /\
       forall x, q <= x < q + PGSIZE -> kmem_mem s' x = kmem_mem s x).
Proof.
  intros Hl Htr A. pose proof (as_space _ _ _ _ _ A) as S. pose proof (as_size _ _ _ _ _ A) as Hsz. pose proof (round_top sz Hsz) as Hrd. pose proof (as_frame _ _ _ _ _ A) as Htf.
  unfold proc_freepagetable.
  destruct (drop_top e root s l TRAMPOLINE S tramp_top) as (s1 & E1 & U1 & H1 & P1 & T1).
  { unfold valid_at. rewrite (as_tramp _ _ _ _ _ A). apply map_pte_valid; [destruct Htr; unfold PGSIZE in *; lia|by split; apply Z.leb_le || apply Z.ltb_lt]. }
  rewrite (bind_step _ _ _ _ _ _ _ E1). pose proof (uspace_step _ _ _ _ _ _ _ S U1 P1) as S1.
  destruct (drop_top e root s1 l TRAPFRAME S1 frame_top) as (s2 & E2 & U2 & H2 & P2 & T2).
  { unfold valid_at. rewrite H1, decide_False by done. rewrite (as_tf _ _ _ _ _ A). pose proof (kpage_map tf Htf).
    apply map_pte_valid; [unfold PGSIZE in *; lia|by split; apply Z.leb_le || apply Z.ltb_lt]. }
  rewrite (bind_step _ _ _ _ _ _ _ E2). pose proof (uspace_step _ _ _ _ _ _ _ S1 U2 P2) as S2.
  assert (Hsame : forall va, 0 <= va < TRAPFRAME -> lookup_pte (kmem_mem s2) root va = lookup_pte (kmem_mem s) root va).
  { intros va Hva. assert (va < MAXVA) by (change TRAPFRAME with (2 ^ 38 - 8192) in Hva; change MAXVA with (2 ^ 38); lia).
    rewrite H2, decide_False by (lia || by apply (top_below _ _ frame_top)). by rewrite H1, decide_False by (lia || by apply (top_below _ _ tramp_top)). }
  pose proof (ustep_trans _ _ _ _ _ _ _ _ _ _ _ _ U1 U2) as U12.
  assert (Htab : forall q, is_table (kmem_mem s2) root q <-> is_table (kmem_mem s) root q).
  { intros q. by rewrite T2, T1. }
  destruct (uvmfree_all Hlink e root TRAPFRAME s2 l sz Hl S2) as (s' & l' & E & Hk & Hin & Hf);
    [by apply Z.leb_le|change MAXVA with (2 ^ 38); change TRAPFRAME with (2 ^ 38 - 8192) in *; lia|lia| |].
  { intros va Hva. unfold valid_at. destruct (Z.lt_ge_cases va TRAPFRAME) as [Hlt|Hge]; [rewrite Hsame by lia; apply (as_top _ _ _ _ _ A); lia|].
    rewrite H2 by lia. case_decide as E3; [done|]. rewrite H1 by lia. case_decide as E4; [done|]. exfalso.
    apply (vpn_two va); done || lia. }
  exists s', l'. split; [done|]. split; [done|].
  assert (Hin' : forall q, q ∈ l' <-> q ∈ l \/ owns s root sz q).
  { intros q. rewrite Hin, Htab. unfold owns, valid_at, page_at.
    assert (Hva : forall va, 0 <= va < PGROUNDUP sz -> lookup_pte (kmem_mem s2) root va = lookup_pte (kmem_mem s) root va) by (intros; apply Hsame; lia).
    split; (intros [?|[?|(va & ? & ? & ?)]]; [tauto|tauto|]); right; right; exists va; rewrite Hva in * by done; done. }
  split; [done|]. intros q Hq. pose proof Hq as Hq'. apply (us_foreign U12) in Hq'. destruct (Hf q Hq') as [C M]. split.
  - rewrite Hin'. destruct Hq as (_ & Hql & Hqt & _ & Hqv). intros [|[|(va & Hva & Hv & ->)]]; [done|done|]. by apply (Hqv va); [lia|..].
  - rewrite C, (us_count U12 q Hq). split; [done|]. intros x Hx. rewrite M by done. apply (foreign_mem Hlink _ _ _ _ _ _ _ _ U12 Hq x Hx).
Qed.

(** [kfree] of the trapframe and [proc_freepagetable], as in [freeproc] *)
Lemma release_run e s l root tf sz : kfree_locks e -> trampoline_ok -> aspace s l root tf sz -> frame_page s l root tf ->
  exists s1 s' l', kfree tf e s = Ret tt e s1 /\ proc_freepagetable root sz e s1 = Ret tt e s' /\ kinv s' l' /\
    (forall q, q ∈ l' <-> q ∈ l \/ q = tf \/ owns s root sz q) /\
    (forall q, foreign s root l TRAPFRAME 0 q -> q <> tf -> q ∉ l' /\ refcount s' (pageno q) = refcount s (pageno q) /\
       forall x, q <= x < q + PGSIZE -> kmem_mem s' x = kmem_mem s x).
Proof.
  intros Hl Htr A [Hf Hc]. pose proof (as_space _ _ _ _ _ A) as S. pose proof (sp_ust S) as U. pose proof (kpage_nonzero Hlink tf (proj1 Hf)).
  assert (Ux : ust root TRAPFRAME s l tf) by (split; [apply U..|by right]).
  destruct (free_ustep Hlink e root TRAPFRAME (fun _ => True) s l tf Hl Ux) as (E1 & U1 & Hlk); [lia|]. set (s1 := freed s tf) in *.
  assert (Hw : writes_page tf (kmem_mem s) (kmem_mem s1)).
  { eapply writes_page_trans; [apply writes_page_fill|]. apply writes_page_store64; unfold PGSIZE; lia. }
  assert (A1 : aspace s1 (tf :: l) root tf sz).
  { split; [|apply A| |rewrite Hlk; apply A|rewrite Hlk; apply A|apply A].
    - split; [apply U1|apply (us_tree U1), S|]. intros va Hva. rewrite Hlk. by apply (sp_leaf S).
    - intros va Hva. unfold valid_at. rewrite Hlk. by apply (as_top _ _ _ _ _ A). }
  assert (Htab : forall q, is_table (kmem_mem s1) root q <-> is_table (kmem_mem s) root q).
  { intros q. apply is_table_ext. by apply (lookup_pte_other Hlink _ _ root l tf (us_pt U)); [apply Hf|apply Hf|]. }
  destruct (proc_freepagetable_run e s1 (tf :: l) root tf sz Hl Htr A1) as (s' & l' & E2 & Hk & Hin & Hk2).
  exists s1, s', l'. split; [done|]. split; [done|]. split; [done|]. split.
  - intros q. rewrite Hin, elem_of_cons. unfold owns, valid_at, page_at. rewrite Htab. setoid_rewrite Hlk. tauto.
  - intros q Hq Hne. assert (Hq0 : foreign s root l TRAPFRAME tf q) by (destruct Hq as (? & ? & ? & ? & ?); by split_and!).
    pose proof Hq0 as Hq1. apply (us_foreign U1) in Hq1. destruct (Hk2 q Hq1) as (? & C & M). split; [done|]. split; [by rewrite C, (us_count U1 q Hq0)|].
    intros x Hx. rewrite M by done. apply Hw. intros Hx'. by rewrite (page_of_byte Hlink q tf x (proj1 Hq) (proj1 Hf) Hx Hx') in Hne.
Qed.

(** ** Address spaces of other processes *)

Lemma aspace_table s l root tf sz t : aspace s l root tf sz -> is_table (kmem_mem s) root t -> kpage t /\ t ∉ l.
Proof. intros A (p & Hp & Et). by apply (pt_page _ _ _ (us_pt (sp_ust (as_space _ _ _ _ _ A))) p t). Qed.

Lemma aspace_page s l root tf sz va : aspace s l root tf sz -> 0 <= va < TRAPFRAME -> valid_at (kmem_mem s) root va = true ->
  kpage (page_at (kmem_mem s) root va) /\ page_at (kmem_mem s) root va ∉ l.
Proof. intros A Hva Hv. destruct (ui_page _ _ _ _ (us_uinv (sp_ust (as_space _ _ _ _ _ A))) va Hva Hv) as (? & ? & _). done. Qed.

(** The tables and pages of the user part up to [B] *)
Definition spans (s : kmem) (root B q : Z) : Prop :=
  is_table (kmem_mem s) root q \/
  exists va, 0 <= va < B /\ valid_at (kmem_mem s) root va = true /\ q = page_at (kmem_mem s) root va.

Lemma spans_page s l root B q : ust root B s l 0 -> spans s root B q -> kpage q /\ q ∉ l.
Proof.
  intros U [(p & Hp & Et)|(va & Hva & Hv & ->)]; [by apply (pt_page _ _ _ (us_pt U) p q)|].
  destruct (ui_page _ _ _ _ (us_uinv U) va Hva Hv) as (? & ? & _). done.
Qed.

Lemma foreign_spans s root l B q : foreign s root l B 0 q -> ~ spans s root B q.
Proof. intros (_ & _ & Ht & _ & Hm) [|(va & Hva & Hv & ->)]; [done|]. by apply (Hm va). Qed.

(** What keeps the pages of an address space keeps the address space. *)
Lemma ust_keeps_on X root B s l s' l' : ust root B s l 0 -> kinv s' l' -> keeps_on X s l s' l' -> (forall q, spans s root B q -> X q) ->
  ust root B s' l' 0 /\ (forall va, lookup_pte (kmem_mem s') root va = lookup_pte (kmem_mem s) root va) /\
  (forall q, is_table (kmem_mem s') root q <-> is_table (kmem_mem s) root q).
Proof.
  intros U Hk Kp HX.
  assert (Kx : forall q, spans s root B q -> q ∉ l' /\ refcount s' (pageno q) = refcount s (pageno q) /\ forall x, q <= x < q + PGSIZE -> kmem_mem s' x = kmem_mem s x).
  { intros q Hq. destruct (spans_page s l root B q U Hq). apply Kp; auto. }
  assert (Kt : forall t, is_table (kmem_mem s) root t -> t ∉ l' /\ refcount s' (pageno t) = refcount s (pageno t) /\ forall x, t <= x < t + PGSIZE -> kmem_mem s' x = kmem_mem s x) by (intros t Ht; apply Kx; by left).
  destruct (lookup_pte_ext (kmem_mem s) (kmem_mem s') root) as [Htab Hlk]; [intros p t Hp Et; apply Kt; by exists p|].
  assert (Hist : forall q, is_table (kmem_mem s') root q <-> is_table (kmem_mem s) root q) by (intros; by apply is_table_ext).
  split; [|split; done]. split; [done| | |by left].
  - apply (pt_inv_tables (kmem_mem s) _ root l _ Htab); [|apply U]. intros t Ht. by apply Kt.
  - assert (Kp' : forall va, 0 <= va < B -> valid_at (kmem_mem s) root va = true -> spans s root B (page_at (kmem_mem s) root va)) by (intros va Hva Hv; right; by exists va).
    split; unfold valid_at, page_at; intros va; [intros Hva|intros Hva|intros va']; rewrite !Hlk; [intros Hv..|apply (ui_inj _ _ _ _ (us_uinv U))].
    + destruct (ui_page _ _ _ _ (us_uinv U) va Hva Hv) as (Hq & Hql & Hqt). rewrite Hist. by destruct (Kx _ (Kp' va Hva Hv)).
    + destruct (Kx _ (Kp' va Hva Hv)) as (_ & C & _). unfold page_at in *. rewrite C. by apply (ui_ref _ _ _ _ (us_uinv U)).
Qed.

Lemma aspace_keeps_on X s l s' l' root tf sz : aspace s l root tf sz -> kinv s' l' -> keeps_on X s l s' l' -> (forall q, spans s root TRAPFRAME q -> X q) ->
  aspace s' l' root tf sz /\ (forall va, lookup_pte (kmem_mem s') root va = lookup_pte (kmem_mem s) root va) /\
  (forall q, is_table (kmem_mem s') root q <-> is_table (kmem_mem s) root q).
Proof.
  intros A Hk Kp HX. pose proof (as_space _ _ _ _ _ A) as S. destruct (ust_keeps_on X root TRAPFRAME s l s' l' (sp_ust S) Hk Kp HX) as (U' & Hlk & Hist).
  assert (Kt : forall t, is_table (kmem_mem s) root t -> refcount s' (pageno t) = refcount s (pageno t) /\ forall x, t <= x < t + PGSIZE -> kmem_mem s' x = kmem_mem s x).
  { intros t Ht. destruct (aspace_table s l root tf sz t A Ht). apply Kp; [done|done|]. apply HX. by left. }
  split; [|split; done]. split; [|apply A| |rewrite Hlk; apply A|rewrite Hlk; apply A|apply A].
  - split; [done| |intros va Hva; rewrite Hlk; by apply (sp_leaf S)].
    apply (ptree_frame root s s'); [|intros t Ht; by apply Kt|apply S]. intros p t Hp Et. apply Kt. by exists p.
  - intros va Hva. unfold valid_at. rewrite Hlk. by apply (as_top _ _ _ _ _ A).
Qed.

Lemma aspace_keeps_but t0 s l s' l' root tf sz : aspace s l root tf sz -> kinv s' l' -> keeps_but t0 s l s' l' ->
  (t0 = 0 \/ foreign s root l TRAPFRAME 0 t0) ->
  aspace s' l' root tf sz /\ (forall va, lookup_pte (kmem_mem s') root va = lookup_pte (kmem_mem s) root va) /\
  (forall q, is_table (kmem_mem s') root q <-> is_table (kmem_mem s) root q).
Proof.
  intros A Hk Kp Ht0. apply (aspace_keeps_on (fun q => q <> t0) s l s' l' root tf sz A Hk Kp). intros q Hq E. subst q.
  destruct (spans_page s l root TRAPFRAME t0 (sp_ust (as_space _ _ _ _ _ A)) Hq) as [Hp _]. pose proof (kpage_nonzero Hlink t0 Hp).
  destruct Ht0 as [->|Hf]; [lia|]. by apply (foreign_spans _ _ _ _ _ Hf).
Qed.

Lemma aspace_keeps s l s' l' root tf sz : aspace s l root tf sz -> kinv s' l' -> keeps s l s' l' ->
  aspace s' l' root tf sz /\ (forall va, lookup_pte (kmem_mem s') root va = lookup_pte (kmem_mem s) root va) /\
  (forall q, is_table (kmem_mem s') root q <-> is_table (kmem_mem s) root q).
Proof. intros A Hk Kp. eapply aspace_keeps_but; [done|done|by apply (keeps_keeps_but 0)|by left]. Qed.

(** A copy stays a copy. *)
Lemma page_copy_keeps t0 s l s' l' old otf sz root tf va : aspace s l old otf sz -> aspace s l root tf sz -> kinv s' l' ->
  keeps_but t0 s l s' l' -> foreign s old l TRAPFRAME 0 t0 -> foreign s root l TRAPFRAME 0 t0 -> 0 <= va < TRAPFRAME ->
  page_copy s old root va -> page_copy s' old root va.
Proof.
  intros A B Hk Kp F1 F2 Hva [Hv Hc]. destruct (aspace_keeps_but t0 s l s' l' old otf sz A Hk Kp (or_intror F1)) as (_ & L1 & _).
  destruct (aspace_keeps_but t0 s l s' l' root tf sz B Hk Kp (or_intror F2)) as (_ & L2 & _). unfold page_copy, valid_at, page_at in *. rewrite L1, L2.
  split; [done|]. intros Hov. destruct (Hc Hov) as [Hf Hb]. split; [done|]. intros i Hi. rewrite Hov in Hv.
  destruct (aspace_page s l old otf sz va A Hva Hov) as [K1 N1]. destruct (aspace_page s l root tf sz va B Hva Hv) as [K2 N2]. unfold page_at in *.
  destruct (Kp _ K1 N1) as (_ & _ & M1); [by apply F1|]. destruct (Kp _ K2 N2) as (_ & _ & M2); [by apply F2|].
  rewrite M2 by lia. rewrite M1 by lia. by apply Hb.
Qed.

Lemma invalid_not_ptr m root va : valid_at m root va = false -> is_ptr (lookup_pte m root va) = false.
Proof. unfold valid_at, is_ptr. by intros ->. Qed.

Lemma flags_bit v w i : PTE_FLAGS v = PTE_FLAGS w -> 0 <= i < 10 -> Z.testbit v i = Z.testbit w i.
Proof.
  unfold PTE_FLAGS. intros E Hi. apply (f_equal (fun x => Z.testbit x i)) in E. rewrite !Z.land_spec in E. change 0x3FF with (Z.ones 10) in E.
  by rewrite Z.ones_spec_low, !andb_true_r in E by lia.
Qed.

Lemma is_ptr_flags v w : PTE_FLAGS v = PTE_FLAGS w -> is_ptr v = is_ptr w.
Proof.
  intros E. unfold is_ptr. rewrite !pte_has_V, (flags_bit v w 0 E) by lia. do 3 f_equal. change (Z.lor (Z.lor PTE_R PTE_W) PTE_X) with 14.
  apply Z.bits_inj'. intros n Hn. rewrite !Z.land_spec. destruct (Z.lt_ge_cases n 10); [by rewrite (flags_bit v w n E) by lia|].
  rewrite (Z.bits_above_log2 14 n), !andb_false_r; [done|lia|]. change (Z.log2 14) with 3. lia.
Qed.

(** [uvmcopy] into a new address space: a copy, or still nothing *)
Lemma copy_run e s0 l0 root tf s l old otf sz : kfree_locks e -> view s0 l0 root s l -> aspace s l root tf 0 -> aspace s0 l0 old otf sz ->
  exists r s' l', uvmcopy old root sz e s = Ret r e s' /\ view s0 l0 root s' l' /\
    ((r = 0 /\ aspace s' l' root tf sz /\ forall va, 0 <= va < PGROUNDUP sz -> page_copy s' old root va) \/
     (r = -1 /\ Z.of_nat (length l) * PGSIZE <= 3 * PGROUNDUP sz /\ aspace s' l' root tf 0)).
Proof.
  intros Hl V A O. pose proof (vw_space _ _ _ _ _ V) as S. pose proof (as_size _ _ _ _ _ O) as Hsz. pose proof (round_top sz Hsz) as Hrd.
  destruct (aspace_keeps s0 l0 s l old otf sz O (us_kinv (sp_ust S)) (view_keeps _ _ _ _ _ V)) as (O1 & Hlk & Hist).
  assert (Hempty : forall va, 0 <= va < TRAPFRAME -> valid_at (kmem_mem s) root va = false) by (intros va Hva; apply (as_top _ _ _ _ _ A); change (PGROUNDUP 0) with 0; lia).
  assert (Ho : uother s root l TRAPFRAME old (PGROUNDUP sz)).
  { split; [apply (as_space _ _ _ _ _ O1)| |].
    - intros t Ht. rewrite Hist in Ht. destruct (aspace_table _ _ _ _ _ t O Ht) as [Hkt Htl]. by apply (vw_foreign _ _ _ _ _ V t Hkt).
    - intros va Hva. unfold valid_at, page_at. rewrite Hlk. intros Hv. destruct (aspace_page _ _ _ _ _ va O ltac:(lia) Hv) as [Hq Hql].
      by apply (vw_foreign _ _ _ _ _ V _ Hq). }
  destruct (uvmcopy_run Hlink e old root TRAPFRAME sz s l Hl) as (r & s' & l' & E & C);
    [by apply Z.leb_le|apply S|change MAXVA with (2 ^ 38); change TRAPFRAME with (2 ^ 38 - 8192) in *; lia|lia|done|intros va Hva; apply Hempty; lia|].
  exists r, s', l'. split; [done|].
  assert (Hab : forall va, PGROUNDUP sz <= va < MAXVA -> lookup_pte (kmem_mem s') root va = lookup_pte (kmem_mem s) root va) by apply C.
  assert (Hleaf : forall va, 0 <= va < MAXVA -> is_ptr (lookup_pte (kmem_mem s') root va) = false).
  { intros va Hva. destruct (Z.lt_ge_cases va (PGROUNDUP sz)) as [Hlt|Hge]; [|rewrite Hab by lia; by apply (sp_leaf S)].
    destruct (valid_at (kmem_mem s') root va) eqn:Hv; [|by apply invalid_not_ptr].
    destruct (uc_result _ _ _ _ _ _ _ _ _ C) as [[_ Hc]|(_ & _ & Hn)]; [|rewrite Hn in Hv by lia; done].
    destruct (Hc va ltac:(lia)) as [Hvo Hfl]. rewrite Hvo in Hv. destruct (Hfl Hv) as [Ef _]. rewrite (is_ptr_flags _ _ Ef).
    rewrite (uc_old _ _ _ _ _ _ _ _ _ C). by apply (sp_leaf (as_space _ _ _ _ _ O1)). }
  pose proof (view_step _ _ _ _ _ _ _ _ V (uc_step _ _ _ _ _ _ _ _ _ C) Hleaf) as V'. split; [done|].
  assert (Htop : lookup_pte (kmem_mem s') root TRAMPOLINE = map_pte trampoline (Z.lor PTE_R PTE_X) /\ lookup_pte (kmem_mem s') root TRAPFRAME = map_pte tf (Z.lor PTE_R PTE_W)).
  { rewrite !Hab by (change MAXVA with (2 ^ 38); change TRAPFRAME with (2 ^ 38 - 8192) in *; change TRAMPOLINE with (2 ^ 38 - 4096); lia). split; apply A. }
  destruct (uc_result _ _ _ _ _ _ _ _ _ C) as [[-> Hc]|(-> & Hu & Hn)]; [left|right]; (split; [done|]).
  - split; [|done]. split; [apply V'|done| |apply Htop|apply Htop|apply A]. intros va Hva. unfold valid_at. rewrite Hab by (change MAXVA with (2 ^ 38); change TRAPFRAME with (2 ^ 38 - 8192) in *; lia).
    apply Hempty. lia.
  - split; [done|]. split; [apply V'|apply A| |apply Htop|apply Htop|apply A]. intros va Hva. change (PGROUNDUP 0) with 0 in Hva. destruct (Z.lt_ge_cases va (PGROUNDUP sz)); [apply Hn; lia|].
    unfold valid_at. rewrite Hab by (change MAXVA with (2 ^ 38); change TRAPFRAME with (2 ^ 38 - 8192) in *; lia). apply Hempty. lia.
Qed.
(** Giving up a new address space that has its top pages but no user page *)
Lemma release_new e s0 l0 root s l tf : kfree_locks e -> trampoline_ok -> kinv s0 l0 -> view s0 l0 root s l -> aspace s l root tf 0 -> frame_page s l root tf ->
  exists s1 s' l', kfree tf e s = Ret tt e s1 /\ proc_freepagetable root 0 e s1 = Ret tt e s' /\ kinv s' l' /\
    (forall q, q ∈ l' <-> q ∈ tf :: l0) /\ keeps s0 (tf :: l0) s' l'.
Proof.
  intros Hl Htr Hk0 V A Fp. pose proof (vw_space _ _ _ _ _ V) as S. destruct (release_run e s l root tf 0 Hl Htr A Fp) as (s1 & s' & l' & E1 & E2 & Hk & Hin & Hkeep).
  exists s1, s', l'. split; [done|]. split; [done|]. split; [done|].
  assert (Hown : forall q, kpage q -> ~ foreign s root l TRAPFRAME 0 q -> q ∈ l \/ is_table (kmem_mem s) root q).
  { intros q Hq Hn. destruct (decide (q ∈ l)) as [|Hql]; [by left|]. destruct (table_dec root TRAPFRAME s l q S) as [|Ht]; [by right|]. exfalso. apply Hn.
    pose proof (kpage_nonzero Hlink q Hq). split; [done|]. split; [done|]. split; [done|]. split; [lia|]. intros va Hva Hv.
    rewrite (as_top _ _ _ _ _ A va) in Hv; [done|]. change (PGROUNDUP 0) with 0. lia. }
  split.
  - intros q. rewrite Hin, elem_of_cons. unfold owns. change (PGROUNDUP 0) with 0. split.
    + intros [Hq|[->|[Hq|(va & Hva & _)]]]; [right|by left|right|lia].
      * pose proof (kinv_kpage s l q (us_kinv (sp_ust S)) Hq) as Hkq. destruct (decide (q ∈ l0)) as [|Hn]; [done|]. by apply (vw_foreign _ _ _ _ _ V q Hkq) in Hn as (_ & ? & _).
      * destruct (aspace_table s l root tf 0 q A Hq) as [Hkq _]. destruct (decide (q ∈ l0)) as [|Hn]; [done|]. by apply (vw_foreign _ _ _ _ _ V q Hkq) in Hn as (_ & _ & ? & _).
    + intros [->|Hq]; [by right; left|]. pose proof (kinv_kpage s0 l0 q Hk0 Hq) as Hkq. destruct (Hown q Hkq) as [|]; [|by left|by right; right; left].
      intros F. by apply (vw_foreign _ _ _ _ _ V q Hkq) in F.
  - intros q Hq [Hne Hl0]%not_elem_of_cons. destruct (vw_same _ _ _ _ _ V q Hq Hl0) as [C M]. apply (vw_foreign _ _ _ _ _ V q Hq) in Hl0.
    destruct (Hkeep q Hl0 Hne) as (? & C' & M'). split; [done|]. split; [congruence|]. intros x Hx. by rewrite M', M.
Qed.

Lemma foreign_keeps s l s' l' root tf sz q : aspace s l root tf sz -> kinv s' l' -> keeps s l s' l' -> foreign s root l TRAPFRAME 0 q ->
  foreign s' root l' TRAPFRAME 0 q.
Proof.
  intros A Hk Kp (Hq & Hl & Ht & H0 & Hm). destruct (aspace_keeps s l s' l' root tf sz A Hk Kp) as (_ & Hlk & Hist).
  split; [done|]. split; [by apply Kp|]. split; [by rewrite Hist|]. split; [done|]. intros va Hva. unfold valid_at, page_at. rewrite Hlk. by apply Hm.
Qed.

(** A free page belongs to no address space. *)
Lemma free_foreign s tf0 l s' root tf sz : aspace s (tf0 :: l) root tf sz -> kinv s (tf0 :: l) -> kinv s' l -> keeps s (tf0 :: l) s' l ->
  foreign s' root l TRAPFRAME 0 tf0.
Proof.
  intros A Hk Hk' Kp. destruct (aspace_keeps s (tf0 :: l) s' l root tf sz A Hk' Kp) as (_ & Hlk & Hist).
  assert (Hq : kpage tf0) by (apply (kinv_kpage s (tf0 :: l)); [done|by left]). pose proof (kpage_nonzero Hlink tf0 Hq).
  split; [done|]. split; [pose proof (kinv_nodup _ _ Hk) as Hn; by apply NoDup_cons in Hn as [? _]|].
  split; [rewrite Hist; intros Ht; destruct (aspace_table _ _ _ _ _ _ A Ht) as [_ Hn]; apply Hn; by left|]. split; [lia|].
  intros va Hva. unfold valid_at, page_at. rewrite Hlk. intros Hv E. destruct (aspace_page _ _ _ _ _ va A Hva Hv) as [_ Hn]. apply Hn. unfold page_at. rewrite E. by left.
Qed.

(** ** The trapframe of the child *)

Lemma frame_write k l tf ptf : kinv k l -> kpage tf -> tf ∉ l -> kpage ptf -> ptf <> tf ->
  let k' := set_mem k (store64 (mem_copy (kmem_mem k) tf ptf sizeof_trapframe) (tf + tf_a 0) 0) in
  kinv k' l /\ keeps_but tf k l k' l /\ load64 (kmem_mem k') (tf + tf_a 0) = 0 /\
  forall i, 0 <= i < sizeof_trapframe -> ~ (tf_a 0 <= i < tf_a 1) -> kmem_mem k' (tf + i) = kmem_mem k (ptf + i).
Proof.
  intros Hk Htf Htl Hptf Hne k'. assert (Hw : writes_page tf (kmem_mem k) (kmem_mem k')).
  { cbn [kmem_mem k' set_mem]. eapply (writes_page_trans _ _ (mem_copy (kmem_mem k) tf ptf sizeof_trapframe)).
    - intros x Hx. apply mem_copy_out. unfold sizeof_trapframe, PGSIZE in *. lia.
    - apply writes_page_store64; unfold tf_a, PGSIZE; lia. }
  split; [apply (kinv_write_page Hlink k l tf); [done|apply store_ok, mem_copy_ok, (kinv_bytes _ _ Hk)|done|done|done]|]. split; [|split].
  - intros q Hq Hl Hqt. split; [done|]. split; [done|]. intros x Hx. apply Hw. intros Hx'. by rewrite (page_of_byte Hlink q tf x) in Hqt.
  - cbn [kmem_mem k' set_mem]. by rewrite load_store.
  - intros i Hi Hn. cbn [kmem_mem k' set_mem]. unfold tf_a, sizeof_trapframe in *. rewrite store_out by lia. rewrite mem_copy_in by lia. f_equal. lia.
Qed.

(** The pages of a new address space were free. *)
Lemma view_owns s0 l0 root s l tf sz q : view s0 l0 root s l -> aspace s l root tf sz -> owns s root sz q -> q ∈ l0.
Proof.
  intros V A Ho. pose proof (round_top sz (as_size _ _ _ _ _ A)) as Hrd.
  assert (Hq : kpage q) by (destruct Ho as [Ht|(va & Hva & Hv & ->)]; [by apply (aspace_table s l root tf sz)|apply (aspace_page s l root tf sz); [done|lia|done]]).
  destruct (decide (q ∈ l0)) as [|Hn]; [done|]. apply (vw_foreign _ _ _ _ _ V q Hq) in Hn as (_ & _ & Ht & _ & Hm).
  destruct Ho as [|(va & Hva & Hv & ->)]; [done|]. by destruct (Hm va ltac:(lia) Hv).
Qed.

End ProcMem.

(** ** An example *)

#[local] Existing Instance demo_linker.

Lemma demo_trampoline : trampoline_ok.
Proof. split; by_eval. Qed.

Definition result_val {T} (o : outcome T Z) : Z := match o with Ret v _ _ => v | _ => 0 end.
Definition result_of {T A} (o : outcome T A) (f : T -> Z) : Z := match o with Ret _ _ t => f t | _ => 0 end.

(** A process with an empty user memory *)
Lemma demo_aspace : exists k l, proc_pagetable (demo_page 9) demo_env demo_kmem = Ret (demo_page 1) demo_env k /\
  kinv k l /\ keeps demo_kmem demo_free k l /\ view demo_kmem demo_free (demo_page 1) k l /\ aspace k l (demo_page 1) (demo_page 9) 0 /\ frame_page k l (demo_page 1) (demo_page 9).
Proof.
  destruct (proc_pagetable_run demo_linker_ok demo_env demo_kmem demo_free (demo_page 9) demo_locks demo_trampoline demo_kinv) as (r & k & l & E & Hk & Kp & H);
    [apply demo_kpage; lia|apply demo_used; lia|by_eval|].
  destruct (result_inv (proc_pagetable (demo_page 9) demo_env demo_kmem) (demo_page 1) demo_env) as [k2 E2]; [by_eval|].
  rewrite E in E2. injection E2 as -> ->. exists k2, l. split; [exact E|]. split; [exact Hk|]. split; [exact Kp|].
  destruct H as [(H & _)|(_ & _ & V & A & Fp)]; [discriminate H|]. split; [exact V|]. by split.
Qed.
