(* ===== verification/ProcLife.v ===== *)
(** * Process slots: allocation and release

    kernel/proc.c, [allocproc] and [freeproc], over the state of the file layer.
    The state is written [mk s k P F I]: [s] with the memory [k], the private data
    [P] of the processes, the file table [F] and the inode table [I]; the context is
    [ctx h ps n]: the locks held, the process table, and the next pid. *)

From stdpp Require Import base gmap sets list strings.
From Stdlib Require Import ZArith Lia.
From S2P Require Import Prelude Kernel Riscv Kalloc Vm VmUser VmCopy VmSpace VmFree Sched Sleeplock Bytes Bio Log Usr Fs Pipe Uart Console File Proc ProcMem.

Section Life.
Context {L : Linker} (Hlink : linker_ok) (Htr : trampoline_ok).
Context (me ip : option nat) (s : filest).

Definition mk (k : kmem) (P : list pdata) (F : list file) (I : list inode) : filest :=
  Filest (Fs (Usr k P) (fs_log (fl_fs s)) (fs_sb (fl_fs s)) I (fs_locks (fl_fs s))) (fl_pipes s) (fl_tty s) F (fl_devsw s).
Definition ctx (h : gset lock) (ps : list proc) (n : Z) : env := Env h ps me n ip.

(** ** Steps *)

Lemma b_acquire {A T} l h ps n (t : T) (K : unit -> K T A) : l ∉ h ->
  bind (acquire l) K (ctx h ps n) t = K tt (ctx ({[l]} ∪ h) ps n) t.
Proof. intros H. unfold bind, acquire. cbn. by rewrite bool_decide_eq_false_2. Qed.

Lemma release_ctx {T} l h ps n (t : T) : l ∉ h -> release l (ctx ({[l]} ∪ h) ps n) t = Ret tt (ctx h ps n) t.
Proof.
  intros H. unfold release. cbn. rewrite bool_decide_eq_true_2 by set_solver. unfold set_held. cbn.
  by replace (({[l]} ∪ h) ∖ {[l]}) with h by set_solver.
Qed.

Lemma b_release {A T} l h ps n (t : T) (K : unit -> K T A) : l ∉ h ->
  bind (release l) K (ctx ({[l]} ∪ h) ps n) t = K tt (ctx h ps n) t.
Proof. intros H. unfold bind. by rewrite release_ctx. Qed.

Lemma b_getp {A T} i q h ps n (t : T) (K : proc -> K T A) : ps !! i = Some q ->
  bind (getp i) K (ctx h ps n) t = K q (ctx h ps n) t.
Proof. intros H. unfold bind, getp. cbn. by rewrite H. Qed.

Lemma b_updp {A T} i f h ps n (t : T) (K : unit -> K T A) :
  bind (updp i f) K (ctx h ps n) t = K tt (ctx h (alter f i ps) n) t.
Proof. done. Qed.

Lemma b_kmem {A B} (m : K kmem B) b e e' k k' P F I (K : B -> K filest A) : m e k = Ret b e' k' ->
  bind (on_kmem m) K e (mk k P F I) = K b e' (mk k' P F I).
Proof. intros H. unfold bind, on_kmem, on_usr, zoom. cbn. by rewrite H. Qed.

Lemma b_getpd {A} i d e k P F I (K : pdata -> K filest A) : P !! i = Some d ->
  bind (on_usr (getpd i)) K e (mk k P F I) = K d e (mk k P F I).
Proof. intros H. unfold bind, on_usr, zoom, getpd. cbn. by rewrite H. Qed.

Lemma b_updpd {A} i f e k P F I (K : unit -> K filest A) :
  bind (on_usr (updpd i f)) K e (mk k P F I) = K tt e (mk k (alter f i P) F I).
Proof. done. Qed.

(** ** Looking for a slot *)

(** The first slot from [i] on that satisfies [f] *)
Fixpoint first_slot (f : proc -> bool) (i : nat) (ps : list proc) : option nat :=
  match ps with
  | [] => None
  | q :: ps => if f q then Some i else first_slot f (S i) ps
  end.

Definition is_unused (q : proc) : bool := bool_decide (p_state q = UNUSED).

Lemma find_unused_from ps n h (t : filest) : (forall i, ProcLock i ∉ h) -> forall len i, (i + len = length ps)%nat ->
  for_find (seq i len) (fun p => acquire (ProcLock p) ;; q <- getp p ;;
     if bool_decide (p_state q = UNUSED) then ret (Some p) else release (ProcLock p) ;; ret None) (ctx h ps n) t =
  match first_slot is_unused i (drop i ps) with
  | Some j => Ret (Some j) (ctx ({[ProcLock j]} ∪ h) ps n) t
  | None => Ret None (ctx h ps n) t
  end.
Proof.
  intros Hh. induction len as [|len IH]; intros i Hlen.
  - rewrite drop_ge by lia. done.
  - destruct (lookup_lt_is_Some_2 ps i) as [q Hq]; [lia|]. rewrite (drop_S _ _ _ Hq). cbn [seq for_find first_slot].
    rewrite bind_assoc, b_acquire by done. rewrite bind_assoc, (b_getp i q) by done. unfold is_unused at 1.
    destruct (bool_decide (p_state q = UNUSED)); [done|]. rewrite bind_assoc, b_release by done. rewrite bind_ret. apply IH. lia.
Qed.

Lemma find_unused_run ps n h (t : filest) : (forall i, ProcLock i ∉ h) -> length ps = NPROC ->
  find_unused (ctx h ps n) t =
  match first_slot is_unused 0 ps with
  | Some j => Ret (Some j) (ctx ({[ProcLock j]} ∪ h) ps n) t
  | None => Ret None (ctx h ps n) t
  end.
Proof. intros Hh Hlen. unfold find_unused, all_procs. rewrite (find_unused_from ps n h t Hh NPROC 0) by lia. done. Qed.

Lemma first_slot_some f ps : forall i j, first_slot f i ps = Some j ->
  exists q, (i <= j)%nat /\ ps !! (j - i)%nat = Some q /\ f q = true.
Proof.
  induction ps as [|q ps IH]; intros i j; cbn; [done|]. destruct (f q) eqn:Ef.
  - intros [= <-]. exists q. rewrite Nat.sub_diag. done.
  - intros H. destruct (IH _ _ H) as (q' & Hi & Hq & Hf). exists q'. split; [lia|]. split; [|done].
    by replace (j - i)%nat with (S (j - S i)) by lia.
Qed.

Lemma first_slot_none f ps : forall i, first_slot f i ps = None -> Forall (fun q => f q = false) ps.
Proof. induction ps as [|q ps IH]; intros i; cbn; [constructor|]. destruct (f q) eqn:Ef; [done|]. intros H. constructor; [done|by apply (IH (S i))]. Qed.

(** ** Release *)

(** A slot that is not in use *)
Definition free_proc : proc := Proc UNUSED ChanNull 0 0 0 None.
Definition clean (d : pdata) : pdata := set_pd_name [] (set_pd_sz 0 (set_pd_pagetable 0 (set_pd_trapframe 0 d))).

(** The bookkeeping of [freeproc] *)
Lemma freeproc_run i d h ps n k k1 k2 P F I :
  P !! i = Some d ->
  (if truth (pd_trapframe d) then kfree (pd_trapframe d) (ctx h ps n) k = Ret tt (ctx h ps n) k1 else k1 = k) ->
  (if truth (pd_pagetable d) then proc_freepagetable (pd_pagetable d) (pd_sz d) (ctx h ps n) k1 = Ret tt (ctx h ps n) k2 else k2 = k1) ->
  freeproc i (ctx h ps n) (mk k P F I) = Ret tt (ctx h (alter (fun _ => free_proc) i ps) n) (mk k2 (alter clean i P) F I).
Proof.
  intros Hd H1 H2. unfold freeproc. rewrite (b_getpd i d) by done.
  assert (E1 : forall (K : unit -> K filest unit), bind (when (truth (pd_trapframe d)) (on_kmem (kfree (pd_trapframe d)))) K (ctx h ps n) (mk k P F I) = K tt (ctx h ps n) (mk k1 P F I)).
  { intros K. destruct (truth (pd_trapframe d)); [cbn [when]; by rewrite (b_kmem _ _ _ _ _ _ P F I K H1)|by subst k1]. }
  rewrite E1, b_updpd. set (P1 := alter _ i P).
  assert (E2 : forall (K : unit -> K filest unit), bind (when (truth (pd_pagetable d)) (on_kmem (proc_freepagetable (pd_pagetable d) (pd_sz d)))) K (ctx h ps n) (mk k1 P1 F I) = K tt (ctx h ps n) (mk k2 P1 F I)).
  { intros K. destruct (truth (pd_pagetable d)); [cbn [when]; by rewrite (b_kmem _ _ _ _ _ _ P1 F I K H2)|by subst k2]. }
  rewrite E2, b_updpd, !b_updp. unfold updp, modify_env. cbn. unfold set_procs. cbn. subst P1. rewrite !alter_alter. reflexivity.
Qed.

(** ** Allocation *)

Definition slot_clean (q : proc) (d : pdata) : Prop := q = free_proc /\ clean d = d /\ pd_ofile d = replicate NOFILE None.

(** The slots that are not in use are clean. *)
Definition slots_ok (ps : list proc) (P : list pdata) : Prop :=
  length ps = NPROC /\ length P = NPROC /\
  forall i q d, ps !! i = Some q -> P !! i = Some d -> p_state q = UNUSED -> slot_clean q d.

(** The private data of a new process *)
Definition new_pdata (root tf : Z) (d : pdata) : pdata :=
  set_pd_context CodeForkret (pd_kstack d + PGSIZE) (set_pd_pagetable root (set_pd_trapframe tf d)).

(** [allocproc] found a slot but no memory: everything is as before. *)
Definition alloc_failed (ps : list proc) (n : Z) (k : kmem) (l : list Z) (P : list pdata) (F : list file) (I : list inode) (o : outcome filest (option nat)) : Prop :=
  exists n' k' l', o = Ret None (ctx ∅ ps n') (mk k' P F I) /\ (length l <= 6)%nat /\ kinv k' l' /\ keeps k l k' l' /\ forall q, q ∈ l' <-> q ∈ l.

Record alloc_done (ps : list proc) (n : Z) (k : kmem) (l : list Z) (P : list pdata) (F : list file) (I : list inode)
    (i : nat) (d : pdata) (root tf : Z) (k1 : kmem) (l1 : list Z) (k' : kmem) (l' : list Z) (o : outcome filest (option nat)) : Prop := {
  ad_slot : first_slot is_unused 0 ps = Some i /\ P !! i = Some d /\ slot_clean free_proc d;
  ad_result : o = Ret (Some i) (ctx ({[ProcLock i]} ∪ ∅) (alter (fun _ => Proc USED ChanNull 0 0 n None) i ps) (i32 (n + 1)))
                      (mk k' (alter (new_pdata root tf) i P) F I);
  ad_frame : l = tf :: l1 /\ kinv k1 l1 /\ keeps k l k1 l1 /\ kpage tf /\ tf ∉ l1 /\ refcount k1 (pageno tf) = 1;
  ad_used : (length l <= length l' + 6)%nat;
  ad_space : view k1 l1 root k' l' /\ aspace k' l' root tf 0 /\ frame_page k' l' root tf
}.

Lemma alter_same {B} (f : B -> B) i x (l : list B) : l !! i = Some x -> f x = x -> alter f i l = l.
Proof.
  revert i. induction l as [|y l IH]; intros [|i]; cbn; [done..|intros [= ->] ->; done|]. intros H Hf. f_equal. by apply IH.
Qed.

Lemma keeps_alloc k tf l1 : kinv k (tf :: l1) -> keeps k (tf :: l1) (alloced k tf) l1.
Proof.
  intros Hk q Hq [Hne Hl]%not_elem_of_cons. assert (Htf : kpage tf) by (apply (kinv_kpage k (tf :: l1)); [done|by left]).
  split; [done|]. split.
  - cbn. rewrite (proj2 (Z.eqb_neq _ _)); [done|]. intros E. by apply (kpage_pageno_inj Hlink) in E.
  - intros x Hx. cbn. apply mem_fill_out. intros Hx'. by rewrite (page_of_byte Hlink q tf x) in Hne.
Qed.

(** Putting the trapframe page back *)
Lemma keeps_free k tf l1 k1 l' : kinv k (tf :: l1) -> keeps (alloced k tf) l1 k1 l' -> (forall q, q ∈ l' <-> q ∈ l1) -> kinv k1 l' ->
  forall e, kfree_locks e -> exists k2, kfree tf e k1 = Ret tt e k2 /\ kinv k2 (tf :: l') /\ keeps k (tf :: l1) k2 (tf :: l') /\
    forall q, q ∈ tf :: l' <-> q ∈ tf :: l1.
Proof.
  intros Hk Kp Hin Hk1 e He. assert (Htf : kpage tf) by (apply (kinv_kpage k (tf :: l1)); [done|by left]).
  assert (Htl : tf ∉ l1) by (pose proof (kinv_nodup _ _ Hk) as Hn; by apply NoDup_cons in Hn as [? _]).
  destruct (Kp tf Htf Htl) as (Htl' & C & _). assert (C1 : refcount k1 (pageno tf) = 1) by (rewrite C; cbn; by rewrite Z.eqb_refl).
  exists (freed k1 tf). split; [by apply kfree_last_run|]. split; [by apply kfree_last_inv|]. split; [|intros q; by rewrite !elem_of_cons, Hin].
  intros q Hq Hl. destruct (keeps_trans _ _ _ _ _ _ (keeps_alloc k tf l1 Hk) Kp q Hq Hl) as (Hl' & C' & M'). apply not_elem_of_cons in Hl as [Hne _].
  split; [by apply not_elem_of_cons|]. split.
  - cbn. rewrite (proj2 (Z.eqb_neq _ _)); [done|]. intros E. by apply (kpage_pageno_inj Hlink) in E.
  - intros x Hx. rewrite <- M' by done. assert (Hw : writes_page tf (kmem_mem k1) (kmem_mem (freed k1 tf))).
    { eapply writes_page_trans; [apply writes_page_fill|]. apply writes_page_store64; unfold PGSIZE; lia. }
    apply Hw. intros Hx'. by rewrite (page_of_byte Hlink q tf x) in Hne.
Qed.

Lemma locks_ok i ps n : kfree_locks (ctx ({[ProcLock i]} ∪ ∅) ps n).
Proof. unfold kfree_locks. cbn. set_solver. Qed.

Lemma clean_fields d : clean d = d -> pd_trapframe d = 0 /\ pd_pagetable d = 0 /\ pd_sz d = 0 /\ pd_name d = [].
Proof. destruct d. unfold clean, set_pd_name, set_pd_sz, set_pd_pagetable, set_pd_trapframe. cbn. by intros [= -> -> -> ->]. Qed.

Lemma no_locks i : ProcLock i ∉ (∅ : gset lock).
Proof. set_solver. Qed.

Lemma not_pid i : PidLock ∉ ({[ProcLock i]} ∪ ∅ : gset lock).
Proof. set_solver. Qed.

Lemma allocpid_run {T} h ps n (t : T) : PidLock ∉ h -> allocpid (ctx h ps n) t = Ret n (ctx h ps (i32 (n + 1))) t.
Proof.
  intros H. unfold allocpid. rewrite b_acquire by done. unfold bind at 1 2. unfold modify_env. change (set_nextpid ?e ?x) with (ctx ({[PidLock]} ∪ h) ps (i32 (n + 1))).
  cbn [nextpid ctx]. by rewrite b_release.
Qed.

Lemma alter_at {B} (f : B -> B) i (l : list B) x : l !! i = Some x -> alter f i l = alter (fun _ => f x) i l.
Proof. revert i. induction l as [|y l IH]; intros [|i]; cbn; [done..|by intros [= ->]|]. intros H. f_equal. by apply IH. Qed.

(** The error path: the slot is released again. *)
Lemma undo_alloc {A} (r : A) i d q n k k1 k2 f P F I ps : let e := ctx ({[ProcLock i]} ∪ ∅) (alter (fun _ => q) i ps) n in
  P !! i = Some d -> ps !! i = Some free_proc ->
  (if truth (pd_trapframe (f d)) then kfree (pd_trapframe (f d)) e k = Ret tt e k1 else k1 = k) ->
  (if truth (pd_pagetable (f d)) then proc_freepagetable (pd_pagetable (f d)) (pd_sz (f d)) e k1 = Ret tt e k2 else k2 = k1) ->
  (freeproc i ;; release (ProcLock i) ;; ret r) e (mk k (alter f i P) F I) = Ret r (ctx ∅ ps n) (mk k2 (alter (fun x => clean (f x)) i P) F I).
Proof.
  intros e Hd Hq H1 H2. assert (Hfd : alter f i P !! i = Some (f d)) by (by rewrite list_lookup_alter_eq, Hd).
  rewrite (bind_step _ _ _ _ _ _ _ (freeproc_run i (f d) _ _ n k k1 k2 (alter f i P) F I Hfd H1 H2)). rewrite b_release by apply no_locks.
  by rewrite !alter_alter, (alter_same _ i free_proc) by done.
Qed.

(** [allocproc] after a slot was found *)
Lemma allocproc_slot ps n k l P F I i d : slots_ok ps P -> kinv k l -> first_slot is_unused 0 ps = Some i -> P !! i = Some d ->
  let o := allocproc (ctx ∅ ps n) (mk k P F I) in
  alloc_failed ps n k l P F I o \/
  exists root tf k1 l1 k' l', alloc_done ps n k l P F I i d root tf k1 l1 k' l' o.
Proof.
  intros (Hlen & HlenP & Hsl) Hk Hi Hd o. destruct (first_slot_some _ _ _ _ Hi) as (q & _ & Hq & Hu). rewrite Nat.sub_0_r in Hq. apply bool_decide_eq_true in Hu.
  destruct (Hsl i q d Hq Hd Hu) as (-> & Hcl & Hof). destruct (clean_fields d Hcl) as (T0 & R0 & _).
  pose proof (find_unused_run ps n ∅ (mk k P F I) no_locks Hlen) as Ef. rewrite Hi in Ef. cbv iota in Ef.
  unfold o, allocproc. rewrite (bind_step _ _ _ _ _ _ _ Ef). rewrite (bind_step _ _ _ _ _ _ _ (allocpid_run _ ps n (mk k P F I) (not_pid i))).
  rewrite !b_updp, alter_alter. set (ps1 := alter _ i ps). set (n1 := i32 (n + 1)).
  assert (Hps1 : ps1 = alter (fun _ => Proc USED ChanNull 0 0 n None) i ps) by (unfold ps1; by rewrite (alter_at _ i ps free_proc Hq)).
  destruct l as [|tf l1].
  { rewrite (b_kmem kalloc 0 _ _ _ _ P F I _ (kalloc_empty _ k Hk (locks_ok i ps1 n1))), b_updpd. left.
    change (0 =? 0) with true. cbv iota. rewrite Hps1. rewrite (undo_alloc None i d _ n1 k k k); [erewrite (alter_same _ i d); [|exact Hd|exact Hcl]|done|done|done|change (pd_pagetable _) with (pd_pagetable d); by rewrite R0]. exists n1, k, []. split; [done|]. split; [cbn; lia|]. split; [done|]. split; [apply keeps_refl|done]. }
  assert (Htf : kpage tf) by (apply (kinv_kpage k (tf :: l1)); [done|by left]). pose proof (kpage_nonzero Hlink tf Htf) as Htf0.
  assert (Htl : tf ∉ l1) by (pose proof (kinv_nodup _ _ Hk) as Hn; by apply NoDup_cons in Hn as [? _]).
  rewrite (b_kmem kalloc tf _ _ _ _ P F I _ (kalloc_run Hlink _ k tf l1 Hk (locks_ok i ps1 n1))), b_updpd. rewrite (proj2 (Z.eqb_neq tf 0)) by lia.
  set (k1 := alloced k tf). assert (Hk1 : kinv k1 l1) by (by apply kalloc_inv). assert (C1 : refcount k1 (pageno tf) = 1) by (cbn; by rewrite Z.eqb_refl).
  destruct (proc_pagetable_run Hlink _ k1 l1 tf (locks_ok i ps1 n1) Htr Hk1 Htf Htl C1) as (root & k2 & l2 & E2 & Hk2 & Kp2 & H2).
  rewrite (b_kmem _ root _ _ _ _ _ F I _ E2), b_updpd, alter_alter. destruct H2 as [(-> & N2 & Hin)|(N2 & Hroot & V & A & Fp)].
  - left. destruct (keeps_free k tf l1 k2 l2 Hk Kp2 Hin Hk2 _ (locks_ok i ps1 n1)) as (k3 & E3 & Hk3 & Kp3 & Hin3).
    change (0 =? 0) with true. cbv iota. rewrite Hps1 in *. rewrite (undo_alloc None i d _ n1 k2 k3 k3); [erewrite (alter_same _ i d); [|exact Hd|exact Hcl]; exists n1, k3, (tf :: l2); split; [done|]; split; [cbn; lia|done]|done|done| |done].
    change (pd_trapframe _) with tf. by rewrite (proj2 (truth_true tf)) by lia.
  - right. pose proof (kpage_nonzero Hlink root Hroot). rewrite (proj2 (Z.eqb_neq root 0)) by lia. rewrite b_updpd, alter_alter.
    exists root, tf, k1, l1, k2, l2. split; [done| |split; [done|]|cbn; lia|done].
    + unfold ret. rewrite Hps1. done.
    + split; [done|]. split; [by apply keeps_alloc|]. done.
Qed.
End Life.

(** ** An example *)

Definition demo_slot : pdata := Pdata 12288 0 0 0 CodeNull 0 (replicate NOFILE None) None [].
Definition demo_base : filest :=
  Filest (Fs (Usr (Kmem (fun _ => 0) 0 (fun _ => 0)) []) (Logst (Bio [] ∅ demo_disk) 2 31 0 0 ROOTDEV 0 []) demo_sb [] ∅) ∅
    (TtyFields (Uart [] 0 0 0 0 [] [] []) [] 0 0 0) [] [].

(** A table of processes of which only the first ones are in use *)
Lemma demo_rest m ps P : (length ps + m = NPROC)%nat -> length P = length ps -> Forall (fun q => p_state q <> UNUSED) ps ->
  slots_ok (ps ++ replicate m free_proc) (P ++ replicate m demo_slot).
Proof.
  intros Hm HP Hu. split; [by rewrite length_app, length_replicate|]. split; [rewrite length_app, length_replicate; lia|]. intros i q d Hq Hd Hs.
  apply lookup_app_Some in Hq as [Hq|[Hi Hq]]; [by apply (proj1 (Forall_lookup _ _) Hu) in Hq|]. apply lookup_app_Some in Hd as [Hd|[_ Hd]]; [apply lookup_lt_Some in Hd; lia|].
  apply lookup_replicate in Hq as [-> _]. apply lookup_replicate in Hd as [-> _]. by split.
Qed.
