(* ===== verification/ProcFork.v ===== *)
(** * fork

    kernel/proc.c, [fork]: the child is a copy of the parent, made only from free
    memory and a free slot; when memory or slots run out nothing has happened. *)

From stdpp Require Import base gmap sets list strings.
From Stdlib Require Import ZArith Lia.
From S2P Require Import Prelude Kernel Riscv Kalloc Vm VmUser VmCopy VmSpace VmFree Sched Sleeplock Bytes Bio Log Usr Fs Pipe Uart Console File Proc ProcMem ProcLife.

(** ** Duplicating the open files *)

Definition bump (x : file) : file := set_f_ref (f_ref x + 1) x.
Definition dup_file (F : list file) (o : option nat) : list file := match o with Some f => alter bump f F | None => F end.

Definition file_open (F : list file) (o : option nat) : Prop :=
  match o with Some f => exists x, F !! f = Some x /\ 1 <= f_ref x | None => True end.

Lemma file_open_dup F o o' : file_open F o -> file_open (dup_file F o') o.
Proof.
  destruct o as [f|]; [|done]. intros (x & Hx & Hr). destruct o' as [g|]; [|by exists x]. cbn. destruct (decide (f = g)) as [->|Hne].
  - exists (bump x). rewrite list_lookup_alter_eq, Hx. split; [done|]. cbn. lia.
  - exists x. by rewrite list_lookup_alter_ne.
Qed.

(** The reference counts afterwards: one more for each descriptor *)
Lemma dup_files_lookup l : forall F f x, F !! f = Some x ->
  foldl dup_file F l !! f = Some (set_f_ref (f_ref x + Z.of_nat (length (filter (fun o => o = Some f) l))) x).
Proof.
  induction l as [|o l IH]; intros F f x Hx; cbn [foldl].
  - rewrite Hx. cbn. f_equal. destruct x. unfold set_f_ref. cbn. f_equal. lia.
  - rewrite filter_cons. destruct o as [g|]; cbn [dup_file].
    + destruct (decide (g = f)) as [->|Hne].
      * rewrite decide_True by done. rewrite (IH _ _ (bump x)) by (by rewrite list_lookup_alter_eq, Hx). unfold bump, set_f_ref. cbn. do 2 f_equal. lia.
      * rewrite decide_False by congruence. by apply IH; rewrite list_lookup_alter_ne.
    + rewrite decide_False by done. by apply IH.
Qed.

Section Fork.
Context {L : Linker} (Hlink : linker_ok) (Htr : trampoline_ok).
Context (p : nat) (ip : option nat) (s : filest).
#[local] Notation ctx := (ctx (Some p) ip).
#[local] Notation mk := (mk s).

Lemma filedup_run f x h ps n k P F I : FtableLock ∉ h -> F !! f = Some x -> 1 <= f_ref x ->
  filedup f (ctx h ps n) (mk k P F I) = Ret f (ctx h ps n) (mk k P (dup_file F (Some f)) I).
Proof.
  intros Hh Hx Hr. unfold filedup. rewrite b_acquire by done. unfold getf at 1. unfold bind at 1. cbn [fl_file ProcLife.mk]. rewrite Hx.
  rewrite (proj2 (Z.ltb_ge _ _)) by lia. unfold updf, modify. unfold bind at 1. by rewrite b_release.
Qed.

Lemma dup_loop np (ofl : list (option nat)) h ps n k P I : length ofl = NOFILE -> FtableLock ∉ h ->
  forall len i O F, (i + len = NOFILE)%nat -> O = take i ofl ++ replicate (NOFILE - i) None -> Forall (file_open F) ofl ->
  for_each (seq i len) (fun i => match ofl !! i with
    | Some (Some f) => f' <- filedup f ;; on_usr (updpd np (fun nd => set_pd_ofile (<[i := Some f']> (pd_ofile nd)) nd))
    | _ => ret tt end) (ctx h ps n) (mk k (alter (set_pd_ofile O) np P) F I) =
  Ret tt (ctx h ps n) (mk k (alter (set_pd_ofile ofl) np P) (foldl dup_file F (drop i ofl)) I).
Proof.
  intros Hof Hh. induction len as [|len IH]; intros i O F Hi HO Hopen.
  - rewrite drop_ge by lia. cbn. subst O. rewrite take_ge by lia. replace (NOFILE - i)%nat with 0%nat by lia. by rewrite app_nil_r.
  - destruct (lookup_lt_is_Some_2 ofl i) as [o Ho]; [lia|]. cbn [seq for_each]. rewrite Ho, (drop_S _ _ _ Ho). cbn [foldl].
    assert (HO' : <[i := o]> O = take (S i) ofl ++ replicate (NOFILE - S i) None).
    { subst O. rewrite (take_S_r _ _ _ Ho), <- app_assoc. replace (NOFILE - i)%nat with (S (NOFILE - S i)) by lia.
      rewrite insert_app_r_alt by (rewrite length_take; lia). f_equal. rewrite length_take. by replace (i - i `min` length ofl)%nat with 0%nat by lia. }
    pose proof (proj1 (Forall_lookup _ _) Hopen i o Ho) as Hoi.
    assert (Hopen' : Forall (file_open (dup_file F o)) ofl) by (eapply Forall_impl; [exact Hopen|intros; by apply file_open_dup]).
    destruct o as [f|].
    + destruct Hoi as (x & Hx & Hr). rewrite bind_assoc. rewrite (bind_step _ _ _ _ _ _ _ (filedup_run f x h ps n k _ F I Hh Hx Hr)), b_updpd, alter_alter.
      change (fun x => set_pd_ofile (<[i:=Some f]> (pd_ofile (set_pd_ofile O x))) (set_pd_ofile O x)) with (fun x => set_pd_ofile (<[i:=Some f]> O) x).
      by apply IH; [lia|..].
    + rewrite bind_ret. apply IH; [lia| |done]. rewrite <- HO'. symmetry. apply list_insert_id. subst O.
      rewrite lookup_app_r by (rewrite length_take; lia). apply lookup_replicate. split; [done|]. rewrite length_take. lia.
Qed.

(** ** The steps of [fork] *)

Lemma b_tfstore {A} i d off v e k P F I (K : unit -> K filest A) : P !! i = Some d ->
  bind (on_usr (tf_store i off v)) K e (mk k P F I) = K tt e (mk (set_mem k (store64 (kmem_mem k) (pd_trapframe d + off) v)) P F I).
Proof. intros H. unfold bind, on_usr, zoom, tf_store, bind, getpd. cbn. by rewrite H. Qed.

Lemma b_idup {A} c h ps n k P F I (K : nat -> K filest A) : ItableLock ∉ h ->
  bind (on_fs (idup c)) K (ctx h ps n) (mk k P F I) = K c (ctx h ps n) (mk k P F (alter (fun x => set_i_ref (i_ref x + 1) x) c I)).
Proof.
  intros H. unfold bind at 1. unfold on_fs, zoom, idup. rewrite b_acquire by done. unfold updi, modify. unfold bind at 1. rewrite b_release by done. done.
Qed.

Lemma for_step {A} (m : K filest unit) (K : unit -> K filest A) e t e' t' : m e t = Ret tt e' t' -> bind m K e t = K tt e' t'.
Proof. intros H. unfold bind. by rewrite H. Qed.

(** The child *)
Definition child_proc (n : Z) : proc := Proc RUNNABLE ChanNull 0 0 n (Some p).
Definition child_pdata (nd d : pdata) (root tf : Z) (c : nat) : pdata :=
  Pdata (pd_kstack nd) (pd_sz d) root tf CodeForkret (pd_kstack nd + PGSIZE) (pd_ofile d) (Some c) (take 15 (pd_name d)).

(** What the code after [uvmcopy] does *)
Lemma fork_tail i q nd d c root n n1 k ps P F I : P !! i = Some nd -> p <> i -> pd_ofile nd = replicate NOFILE None ->
  pd_trapframe nd = q -> pd_pagetable nd = root -> pd_ra nd = CodeForkret -> pd_sp nd = pd_kstack nd + PGSIZE ->
  length (pd_ofile d) = NOFILE -> Forall (file_open F) (pd_ofile d) -> pd_cwd d = Some c -> (i < length ps)%nat ->
  (on_usr (updpd i (set_pd_sz (pd_sz d))) ;;
   on_kmem (copy_trapframe (pd_trapframe d) q) ;;
   on_usr (tf_store i (tf_a 0) 0) ;;
   for_each (seq 0 NOFILE) (fun j => match pd_ofile d !! j with
     | Some (Some f) => f' <- filedup f ;; on_usr (updpd i (fun nd => set_pd_ofile (<[j := Some f']> (pd_ofile nd)) nd))
     | _ => ret tt end) ;;
   match pd_cwd d with
   | None => undef "null cwd"
   | Some c =>
       cwd <- on_fs (idup c) ;;
       on_usr (updpd i (set_pd_cwd (Some cwd))) ;;
       on_usr (updpd i (set_pd_name (take 15 (pd_name d)))) ;;
       q <- getp i ;;
       release (ProcLock i) ;;
       acquire WaitLock ;;
       updp i (set_parent (Some p)) ;;
       release WaitLock ;;
       acquire (ProcLock i) ;;
       updp i (set_state RUNNABLE) ;;
       release (ProcLock i) ;;
       ret (p_pid q)
   end) (ctx ({[ProcLock i]} ∪ ∅) (alter (fun _ => Proc USED ChanNull 0 0 n None) i ps) n1) (mk k P F I) =
  Ret n (ctx ∅ (alter (fun _ => child_proc n) i ps) n1)
    (mk (set_mem k (store64 (mem_copy (kmem_mem k) q (pd_trapframe d) sizeof_trapframe) (q + tf_a 0) 0))
        (alter (fun _ => child_pdata nd d root q c) i P)
        (foldl dup_file F (pd_ofile d)) (alter (fun x => set_i_ref (i_ref x + 1) x) c I)).
Proof.
  intros Hnd Hpi Hof Hq Hroot Hra Hsp Hlen Hopen Hc Hi. rewrite b_updpd. 
  erewrite b_kmem by reflexivity. assert (Hn1 : alter (set_pd_sz (pd_sz d)) i P !! i = Some (set_pd_sz (pd_sz d) nd)) by (by rewrite list_lookup_alter_eq, Hnd).
  rewrite (b_tfstore i _ _ _ _ _ _ F I _ Hn1). cbn [kmem_mem set_mem]. change (pd_trapframe (set_pd_sz _ nd)) with (pd_trapframe nd). rewrite Hq.
  set (k2 := set_mem _ _). set (P1 := alter (set_pd_sz (pd_sz d)) i P).
  assert (EP : P1 = alter (set_pd_ofile (replicate NOFILE None)) i P1).
  { symmetry. eapply alter_same; [exact Hn1|]. destruct nd. cbn in *. by subst. }
  rewrite EP at 1. erewrite for_step; [|apply (dup_loop i (pd_ofile d) _ _ _ k2 P1 I Hlen); [set_solver|done|done|done]]. rewrite Hc.
  rewrite b_idup by set_solver. rewrite !b_updpd, !alter_alter. unfold P1. rewrite alter_alter.
  destruct (lookup_lt_is_Some_2 ps i Hi) as [pr Hpr]. rewrite (b_getp (Some p) ip i (Proc USED ChanNull 0 0 n None)) by (by rewrite list_lookup_alter_eq, Hpr).
  rewrite b_release by set_solver. rewrite b_acquire by set_solver. rewrite b_updp, b_release by set_solver. rewrite b_acquire by set_solver.
  rewrite b_updp, b_release by set_solver. rewrite !alter_alter. unfold ret. f_equal. rewrite drop_0. unfold ProcLife.mk. do 2 f_equal.
  f_equal. apply (alter_ext _ _ i P nd Hnd). destruct nd. cbn in *. subst. done.
Qed.

(** ** The memory of the child *)

(** The memory [k'], [l'] after a [fork] of the process [d] in [k], [l] *)
Record child_memory (k : kmem) (l : list Z) (d : pdata) (root tf : Z) (k' : kmem) (l' : list Z) : Prop := {
  cm_keeps : kinv k' l' /\ keeps k l k' l';
  cm_child : aspace k' l' root tf (pd_sz d) /\ frame_page k' l' root tf;
  cm_parent : aspace k' l' (pd_pagetable d) (pd_trapframe d) (pd_sz d) /\
    forall va, lookup_pte (kmem_mem k') (pd_pagetable d) va = lookup_pte (kmem_mem k) (pd_pagetable d) va;
  cm_fresh : tf ∈ l /\ forall q, owns k' root (pd_sz d) q -> q ∈ l;
  cm_copy : forall va, 0 <= va < PGROUNDUP (pd_sz d) -> page_copy k' (pd_pagetable d) root va;
  cm_frame : load64 (kmem_mem k') (tf + tf_a 0) = 0 /\
    forall i, 0 <= i < sizeof_trapframe -> ~ (tf_a 0 <= i < tf_a 1) -> kmem_mem k' (tf + i) = kmem_mem k (pd_trapframe d + i)
}.

Lemma fork_memory k tf l1 k1 root k3 l3 d :
  kinv k (tf :: l1) -> kinv k1 l1 -> keeps k (tf :: l1) k1 l1 -> kpage tf -> tf ∉ l1 -> refcount k1 (pageno tf) = 1 ->
  aspace k (tf :: l1) (pd_pagetable d) (pd_trapframe d) (pd_sz d) -> frame_page k (tf :: l1) (pd_pagetable d) (pd_trapframe d) ->
  view k1 l1 root k3 l3 -> aspace k3 l3 root tf (pd_sz d) -> (forall va, 0 <= va < PGROUNDUP (pd_sz d) -> page_copy k3 (pd_pagetable d) root va) ->
  child_memory k (tf :: l1) d root tf
    (set_mem k3 (store64 (mem_copy (kmem_mem k3) tf (pd_trapframe d) sizeof_trapframe) (tf + tf_a 0) 0)) l3.
Proof.
  intros Hk Hk1 Kp1 Htf Htl C1 O [Of _] V A Cp. pose proof (view_keeps _ _ _ _ _ V) as Kp3. assert (Hk3 : kinv k3 l3) by apply A.
  pose proof (as_frame _ _ _ _ _ O) as Hptf. destruct Of as (_ & [Hne Hptl]%not_elem_of_cons & _).
  destruct (Kp3 tf Htf Htl) as (Htl3 & C3 & _). destruct (frame_write Hlink k3 l3 tf (pd_trapframe d) Hk3 Htf Htl3 Hptf Hne) as (Hk4 & Kp4 & A0 & Fr).
  set (k4 := set_mem k3 _) in *. pose proof (keeps_trans _ _ _ _ _ _ Kp1 Kp3) as Kp13.
  destruct (aspace_keeps Hlink k (tf :: l1) k3 l3 _ _ _ O Hk3 Kp13) as (O3 & L3 & _).
  assert (Fo : foreign k3 (pd_pagetable d) l3 TRAPFRAME 0 tf).
  { destruct (aspace_keeps Hlink k (tf :: l1) k1 l1 _ _ _ O Hk1 Kp1) as (O1 & _ & _). eapply (foreign_keeps Hlink k1 l1); [exact O1|done|done|]. by eapply (free_foreign Hlink k). }
  assert (Fc : foreign k3 root l3 TRAPFRAME 0 tf) by (by apply (vw_foreign _ _ _ _ _ V)).
  destruct (aspace_keeps_but Hlink tf k3 l3 k4 l3 _ _ _ O3 Hk4 Kp4 (or_intror Fo)) as (O4 & L4 & _).
  destruct (aspace_keeps_but Hlink tf k3 l3 k4 l3 _ _ _ A Hk4 Kp4 (or_intror Fc)) as (A4 & M4 & T4). split.
  - split; [done|]. intros q Hq Hl. destruct (Kp13 q Hq Hl) as (Hl3 & C & M). apply not_elem_of_cons in Hl as [Hqt _].
    destruct (Kp4 q Hq Hl3 Hqt) as (? & C' & M'). split; [done|]. split; [congruence|]. intros x Hx. by rewrite M', M.
  - split; [done|]. split; [|change (refcount k3 (pageno tf) = 1); congruence]. destruct Fc as (? & ? & Ht & ? & Hm). split; [done|]. split; [done|]. split; [by rewrite T4|]. split; [done|].
    intros va. unfold valid_at, page_at. rewrite M4. apply Hm.
  - split; [done|]. intros va. by rewrite L4.
  - split; [by left|]. intros q Ho. right. apply (view_owns k1 l1 root k3 l3 tf (pd_sz d) q V A). destruct Ho as [Ht|(va & Hva & Hv & ->)]; [left; by rewrite <- T4|right].
    exists va. unfold valid_at, page_at in *. rewrite M4 in *. done.
  - intros va Hva. pose proof (round_top _ (as_size _ _ _ _ _ A)). eapply (page_copy_keeps Hlink tf k3 l3 k4 l3); [exact O3|exact A|done|done|done|done|lia|by apply Cp].
  - split; [done|]. intros j Hj Hn. rewrite Fr by done. apply (Kp13 (pd_trapframe d)); [done|by apply not_elem_of_cons|]. unfold sizeof_trapframe, PGSIZE in *. lia.
Qed.

(** ** The theorem *)

(** A process that can call [fork] *)
Record forkable (ps : list proc) (k : kmem) (l : list Z) (P : list pdata) (F : list file) (d : pdata) (c : nat) : Prop := {
  fa_slots : slots_ok ps P;
  fa_proc : exists q, ps !! p = Some q /\ p_state q <> UNUSED;
  fa_data : P !! p = Some d;
  fa_kinv : kinv k l;
  fa_space : aspace k l (pd_pagetable d) (pd_trapframe d) (pd_sz d);
  fa_frame : frame_page k l (pd_pagetable d) (pd_trapframe d);
  fa_files : length (pd_ofile d) = NOFILE /\ Forall (file_open F) (pd_ofile d);
  fa_cwd : pd_cwd d = Some c
}.

(** [fork] failed: the memory and the processes are as before, and there was no slot or too little memory. *)
Definition fork_failed (ps : list proc) (k : kmem) (l : list Z) (P : list pdata) (F : list file) (I : list inode) (d : pdata) (o : outcome filest Z) : Prop :=
  exists n' k' l' P', o = Ret (-1) (ctx ∅ ps n') (mk k' P' F I) /\
    kinv k' l' /\ keeps k l k' l' /\ (forall q, q ∈ l' <-> q ∈ l) /\ slots_ok ps P' /\
    (forall j q, ps !! j = Some q -> p_state q <> UNUSED -> P' !! j = P !! j) /\
    ((forall j q, ps !! j = Some q -> p_state q <> UNUSED) \/ (Z.of_nat (length l) - 6) * PGSIZE <= 3 * PGROUNDUP (pd_sz d)).

(** [fork] returned the pid of a new process in slot [i]. *)
Definition fork_done (ps : list proc) (n : Z) (k : kmem) (l : list Z) (P : list pdata) (F : list file) (I : list inode) (d : pdata) (c : nat) (o : outcome filest Z) : Prop :=
  exists i nd root tf k' l', ps !! i = Some free_proc /\ P !! i = Some nd /\
    o = Ret n (ctx ∅ (alter (fun _ => child_proc n) i ps) (i32 (n + 1)))
          (mk k' (alter (fun _ => child_pdata nd d root tf c) i P) (foldl dup_file F (pd_ofile d)) (alter (fun x => set_i_ref (i_ref x + 1) x) c I)) /\
    slots_ok (alter (fun _ => child_proc n) i ps) (alter (fun _ => child_pdata nd d root tf c) i P) /\
    child_memory k l d root tf k' l'.

Lemma slots_ok_alter f g i ps P : slots_ok ps P -> (forall q d, ps !! i = Some q -> P !! i = Some d -> p_state (f q) = UNUSED -> slot_clean (f q) (g d)) ->
  slots_ok (alter f i ps) (alter g i P).
Proof.
  intros (Hl & HlP & H) Hi. split; [by rewrite length_alter|]. split; [by rewrite length_alter|]. intros j q d. destruct (decide (j = i)) as [->|Hne].
  - rewrite !list_lookup_alter_eq. destruct (ps !! i) as [q0|], (P !! i) as [d0|]; try done. intros [= <-] [= <-]. by apply Hi.
  - rewrite !list_lookup_alter_ne by done. apply H.
Qed.

Lemma fork_full ps n k l P F I d c : forkable ps k l P F d c -> first_slot is_unused 0 ps = None ->
  fork_failed ps k l P F I d (fork (ctx ∅ ps n) (mk k P F I)).
Proof.
  intros H Hf. pose proof (fa_slots _ _ _ _ _ _ _ H) as Hs. pose proof (find_unused_run Hlink Htr (Some p) ip ps n ∅ (mk k P F I) (no_locks Hlink Htr) (proj1 Hs)) as Ef. rewrite Hf in Ef.
  exists n, k, l, P. split. { unfold fork, allocproc. change (curproc _ _) with (Ret p (ctx ∅ ps n) (mk k P F I)). rewrite (bind_step _ _ _ _ _ _ _ (eq_refl : curproc (ctx ∅ ps n) (mk k P F I) = _)), bind_assoc, (bind_step _ _ _ _ _ _ _ Ef). done. }
  split; [apply H|]. split; [apply keeps_refl|]. split; [done|]. split; [done|]. split; [done|]. left. intros j q Hq Hu.
  pose proof (proj1 (Forall_lookup _ _) (first_slot_none _ _ _ Hf) j q Hq) as E. cbv beta in E. unfold is_unused in E. by apply bool_decide_eq_false in E.
Qed.

(** The error path after [uvmcopy] failed *)
Lemma fork_undo ps n' k tf l1 k1 k3 l3 P F I d i nd q root : slots_ok ps P -> ps !! i = Some free_proc -> P !! i = Some nd ->
  kinv k1 l1 -> keeps k (tf :: l1) k1 l1 -> kpage tf -> tf ∉ l1 -> refcount k1 (pageno tf) = 1 ->
  view k1 l1 root k3 l3 -> aspace k3 l3 root tf 0 -> (Z.of_nat (length (tf :: l1)) - 6) * PGSIZE <= 3 * PGROUNDUP (pd_sz d) ->
  fork_failed ps k (tf :: l1) P F I d
    ((freeproc i ;; release (ProcLock i) ;; ret (-1)) (ctx ({[ProcLock i]} ∪ ∅) (alter (fun _ => q) i ps) n') (mk k3 (alter (new_pdata root tf) i P) F I)).
Proof.
  intros Hs Hq Hnd Hk1 Kp1 Htf Htl C1 V A N. destruct (proj2 (proj2 Hs) i free_proc nd Hq Hnd eq_refl) as (_ & Hnc & Hof). destruct (clean_fields nd Hnc) as (_ & _ & Z0 & _).
  assert (Fp : frame_page k3 l3 root tf). { destruct (view_keeps _ _ _ _ _ V tf Htf Htl) as (_ & C3 & _). split; [by apply (vw_foreign _ _ _ _ _ V)|congruence]. }
  destruct (release_new Hlink _ k1 l1 root k3 l3 tf (locks_ok Hlink Htr (Some p) ip i (alter (fun _ => q) i ps) n') Htr Hk1 V A Fp) as (k4 & k5 & l5 & E4 & E5 & Hk5 & Hin & Kp5).
  pose proof (kpage_nonzero Hlink tf Htf). assert (Hr : kpage root) by (apply (aspace_table k3 l3 root tf 0 root A); exists []; by split; [apply path_ok_nil|]). pose proof (kpage_nonzero Hlink root Hr).
  exists n', k5, l5, (alter (fun x => clean (new_pdata root tf x)) i P). split; [|split; [done|split; [|split; [done|split; [|split; [|by right]]]]]].
  - apply (undo_alloc Hlink Htr (Some p) ip s (-1) i nd _ _ k3 k4 k5 (new_pdata root tf) P F I ps Hnd Hq).
    + change (pd_trapframe _) with tf. by rewrite (proj2 (truth_true tf)) by lia.
    + change (pd_pagetable _) with root. rewrite (proj2 (truth_true root)) by lia. change (pd_sz _) with (pd_sz nd). by rewrite Z0.
  - intros x Hx Hl. destruct (Kp1 x Hx Hl) as (_ & C & M). destruct (Kp5 x Hx Hl) as (? & C' & M'). split; [done|]. split; [congruence|]. intros y Hy. by rewrite M', M.
  - rewrite <- (alter_same (fun x => x) i free_proc ps) by done. apply slots_ok_alter; [done|]. intros x y Hx Hy _. rewrite Hq in Hx. injection Hx as <-.
    rewrite Hnd in Hy. injection Hy as <-. split; [done|]. by destruct nd.
  - intros j x Hj Hu. rewrite list_lookup_alter_ne; [done|]. intros <-. rewrite Hq in Hj. by injection Hj as <-.
Qed.

Lemma fork_slot ps n k l P F I d c i : forkable ps k l P F d c -> first_slot is_unused 0 ps = Some i ->
  fork_failed ps k l P F I d (fork (ctx ∅ ps n) (mk k P F I)) \/ fork_done ps n k l P F I d c (fork (ctx ∅ ps n) (mk k P F I)).
Proof.
  intros [Hs (qp & Hqp & Hup) Hd Hk O Of [Hlen Hopen] Hc] Hi. destruct (first_slot_some _ _ _ _ Hi) as (q & _ & Hq & Hu). rewrite Nat.sub_0_r in Hq. apply bool_decide_eq_true in Hu.
  pose proof Hs as (Lps & LP & Hcl). destruct (lookup_lt_is_Some_2 P i) as [nd Hnd]; [apply lookup_lt_Some in Hq; lia|].
  destruct (Hcl i q nd Hq Hnd Hu) as (-> & Hnc & Hof). assert (Hpi : p <> i) by (intros ->; congruence).
  unfold fork. rewrite (bind_step _ _ _ _ _ _ _ (eq_refl : curproc (ctx ∅ ps n) (mk k P F I) = Ret p (ctx ∅ ps n) (mk k P F I))).
  destruct (allocproc_slot Hlink Htr (Some p) ip s ps n k l P F I i nd Hs Hk Hi Hnd) as [(n' & k' & l' & E & N & Hk' & Kp & Hin)|(root & tf & k1 & l1 & k2 & l2 & [_ E (-> & Hk1 & Kp1 & Htf & Htl & C1) N (V & A & Fp)])].
  { left. rewrite (bind_step _ _ _ _ _ _ _ E). exists n', k', l', P. split_and!; try done. right. pose proof (round_top _ (as_size _ _ _ _ _ O)). unfold PGSIZE. lia. }
  rewrite (bind_step _ _ _ _ _ _ _ E). set (P1 := alter (new_pdata root tf) i P).
  rewrite (b_getpd _ p d) by (unfold P1; by rewrite list_lookup_alter_ne by done).
  rewrite (b_getpd _ i (new_pdata root tf nd)) by (unfold P1; by rewrite list_lookup_alter_eq, Hnd).
  change (pd_pagetable (new_pdata root tf nd)) with root. change (pd_trapframe (new_pdata root tf nd)) with tf.
  destruct (aspace_keeps Hlink k (tf :: l1) k1 l1 _ _ _ O Hk1 Kp1) as (O1 & _ & _). set (e := ctx _ _ (i32 (n + 1))).
  assert (He : kfree_locks e) by (unfold e; by apply locks_ok).
  destruct (copy_run Hlink e k1 l1 root tf k2 l2 _ _ _ He V A O1) as (r & k3 & l3 & E3 & V3 & [(-> & A3 & Cp)|(-> & N3 & A3)]); rewrite (b_kmem _ _ _ _ _ _ _ P1 F I _ E3).
  - right. change (0 <? 0) with false. cbv iota. unfold e. pose proof (kpage_nonzero Hlink tf Htf).
    rewrite (fork_tail i tf (new_pdata root tf nd) d c root n); try done; [|unfold P1; by rewrite list_lookup_alter_eq, Hnd|apply lookup_lt_Some in Hq; lia].
    eexists i, nd, root, tf, _, l3. split; [done|]. split; [done|]. split; [unfold P1; by rewrite alter_alter|]. split; [|by eapply fork_memory].
    apply slots_ok_alter; [done|]. by intros.
  - left. change (-1 <? 0) with true. cbv iota. eapply fork_undo; try done. cbn [length] in *. unfold PGSIZE in *. lia.
Qed.
End Fork.

(** C2 [fork], from any state in which the unused slots are clean and the caller
    owns an address space, a trapframe page, open files and a working directory.
    Either it returns -1 without the caller, the other processes, the files or the
    memory in use having changed and with the same pages free again, and this only
    when every slot is taken or memory is short; or it returns the next pid and
    leaves exactly one new RUNNABLE process whose parent is the caller, in a slot
    that was free, with a page table, user pages and a trapframe made from pages
    that were free.  Every page of the caller up to its size has then a copy with
    the same contents and flags in the child, the trapframes agree except that a0
    is 0 in the child, each open file has one reference more for each descriptor,
    the working directory one more, and the pages in use before (the caller's and
    everyone else's) are unchanged. *)
Theorem fork_correct {L : Linker} (Hlink : linker_ok) (Htr : trampoline_ok) (p : nat) (ip : option nat) (s : filest) ps n k l P F I d c :
  forkable p ps k l P F d c ->
  let o := fork (ctx (Some p) ip ∅ ps n) (mk s k P F I) in
  fork_failed p ip s ps k l P F I d o \/ fork_done p ip s ps n k l P F I d c o.
Proof.
  intros H o. destruct (first_slot is_unused 0 ps) as [i|] eqn:Hi; [by apply (fork_slot Hlink Htr p ip s ps n k l P F I d c i)|].
  left. by apply (fork_full Hlink Htr p ip s ps n k l P F I d c).
Qed.

(** ** An example *)

#[local] Existing Instance demo_linker.

Definition demo_parent : pdata := Pdata 4096 0 (demo_page 1) (demo_page 9) CodeNull 0 (Some 0%nat :: Some 0%nat :: replicate 14 None) (Some 0%nat) [].
Definition demo_procs : list proc := Proc RUNNING ChanNull 0 0 7 None :: replicate 63 free_proc.
Definition demo_pds : list pdata := demo_parent :: replicate 63 demo_slot.
Definition demo_files : list file := [File FD_DEVICE 2 1 1 0 None 0 1].
Definition demo_dirs : list inode := [Inode 1 1 1 1 T_DIR 0 0 1 0 (replicate 13 0)].
Lemma demo_slots : slots_ok demo_procs demo_pds.
Proof. apply (demo_rest 63 [_] [_]); [reflexivity|reflexivity|]. by repeat constructor. Qed.

Lemma fork_correct_witness : exists k l,
  proc_pagetable (demo_page 9) demo_env demo_kmem = Ret (demo_page 1) demo_env k /\
  fork_done 0 None demo_base demo_procs 8 k l demo_pds demo_files demo_dirs demo_parent 0
    (fork (ctx (Some 0%nat) None ∅ demo_procs 8) (mk demo_base k demo_pds demo_files demo_dirs)).
Proof.
  destruct demo_aspace as (k & l & E & Hk & _ & _ & A & Fp). exists k, l. split; [exact E|].
  destruct (fork_correct demo_linker_ok demo_trampoline 0 None demo_base demo_procs 8 k l demo_pds demo_files demo_dirs demo_parent 0) as [F|D]; [|exfalso|exact D].
  - split; [apply demo_slots|eexists; split; [reflexivity|discriminate]|reflexivity|exact Hk|exact A|exact Fp| |reflexivity].
    split; [reflexivity|]. repeat constructor; eexists; split; [reflexivity|discriminate|reflexivity|discriminate].
  - destruct F as (n' & k' & l' & P' & F & _). assert (R : result_of (proc_pagetable (demo_page 9) demo_env demo_kmem) (fun k =>
      result_val (fork (ctx (Some 0%nat) None ∅ demo_procs 8) (mk demo_base k demo_pds demo_files demo_dirs))) = 8) by (vm_compute; reflexivity).
    rewrite E in R. cbn [result_of] in R. rewrite F in R. discriminate R.
Defined.
