(* ===== verification/ProcWait.v ===== *)
(** * wait

    kernel/proc.c, [wait]: the exit status of a zombie child is copied to the
    caller, and exactly the memory of the child becomes free. *)

From stdpp Require Import base gmap sets list strings.
From Stdlib Require Import ZArith Lia.
From S2P Require Import Prelude Kernel Riscv Kalloc Vm VmUser VmCopy VmSpace VmFree Sched Sleeplock Bytes Bio Log Usr Fs Pipe Uart Console File Proc ProcMem ProcLife.

Section Wait.
Context {L : Linker} (Hlink : linker_ok) (Htr : trampoline_ok).
Context (p : nat) (ip : option nat) (s : filest).
#[local] Notation ctx := (ctx (Some p) ip).
#[local] Notation mk := (mk s).

(** ** The scan *)

Definition is_child (q : proc) : bool := bool_decide (p_parent q = Some p).
Definition zombie_child (q : proc) : bool := is_child q && bool_decide (p_state q = ZOMBIE).

(** What the scan does with a zombie child [q] in slot [pp] *)
Definition reap (addr : Z) (pp : nat) (q : proc) : K filest (Z + bool) :=
  d <- on_usr (getpd p) ;;
  r <- (if negb (addr =? 0) then on_kmem (copyout (uproc_of d) (pd_pagetable d) addr (le 4 (p_xstate q))) else ret 0) ;;
  if r <? 0 then
    release (ProcLock pp) ;;
    release WaitLock ;;
    ret (inl (-1))
  else
    freeproc pp ;;
    release (ProcLock pp) ;;
    release WaitLock ;;
    ret (inl (p_pid q)).

Lemma wait_locks i : ProcLock i ∉ ({[WaitLock]} ∪ ∅ : gset lock).
Proof. set_solver. Qed.

Lemma scan_none addr ps n t : forall len i hk, (i + len = length ps)%nat -> first_slot zombie_child i (drop i ps) = None ->
  wait_scan p addr (seq i len) hk (ctx ({[WaitLock]} ∪ ∅) ps n) t =
  Ret (inr (hk || existsb is_child (drop i ps))) (ctx ({[WaitLock]} ∪ ∅) ps n) t.
Proof.
  induction len as [|len IH]; intros i hk Hlen Hf; [rewrite drop_ge by lia; cbn; by rewrite orb_false_r|].
  destruct (lookup_lt_is_Some_2 ps i) as [q Hq]; [lia|]. rewrite (drop_S _ _ _ Hq) in *. cbn [first_slot existsb] in *. cbn [seq wait_scan].
  destruct (zombie_child q) eqn:Ez; [done|]. rewrite (b_getp (Some p) ip i q) by done. unfold zombie_child in Ez.
  change (bool_decide (p_parent q = Some p)) with (is_child q). destruct (is_child q).
  - rewrite b_acquire by apply wait_locks. rewrite (b_getp (Some p) ip i q) by done. cbn [andb] in Ez. rewrite Ez, b_release by (done || apply wait_locks).
    rewrite IH by (done || lia). by rewrite orb_true_r.
  - rewrite IH by (done || lia). done.
Qed.

Lemma scan_some addr ps n t j q : ps !! j = Some q -> forall len i hk, (i + len = length ps)%nat -> first_slot zombie_child i (drop i ps) = Some j ->
  wait_scan p addr (seq i len) hk (ctx ({[WaitLock]} ∪ ∅) ps n) t = reap addr j q (ctx ({[ProcLock j]} ∪ ({[WaitLock]} ∪ ∅)) ps n) t.
Proof.
  intros Hj. induction len as [|len IH]; intros i hk Hlen Hf; [by rewrite drop_ge in Hf by lia|].
  destruct (lookup_lt_is_Some_2 ps i) as [q' Hq]; [lia|]. rewrite (drop_S _ _ _ Hq) in Hf. cbn [first_slot] in Hf. cbn [seq wait_scan].
  rewrite (b_getp (Some p) ip i q') by done. change (bool_decide (p_parent q' = Some p)) with (is_child q').
  destruct (zombie_child q') eqn:Ez; unfold zombie_child in Ez.
  - injection Hf as ->. rewrite Hj in Hq. injection Hq as <-. apply andb_true_iff in Ez as [-> Ez].
    rewrite b_acquire by apply wait_locks. rewrite (b_getp (Some p) ip j q) by done. by rewrite Ez.
  - destruct (is_child q').
    + rewrite b_acquire by apply wait_locks. rewrite (b_getp (Some p) ip i q') by done. cbn [andb] in Ez. rewrite Ez, b_release by (done || apply wait_locks). apply IH; [lia|done].
    + apply IH; [lia|done].
Qed.

(** ** The memory of a zombie *)

(** A zombie [z], whose memory the address space [root] of its parent does not share *)
Record zombie_ok (k : kmem) (l : list Z) (root : Z) (z : pdata) : Prop := {
  zo_space : aspace k l (pd_pagetable z) (pd_trapframe z) (pd_sz z);
  zo_frame : frame_page k l (pd_pagetable z) (pd_trapframe z);
  zo_apart : forall q, spans k (pd_pagetable z) TRAPFRAME q \/ q = pd_trapframe z -> foreign k root l TRAPFRAME 0 q;
  zo_files : pd_ofile z = replicate NOFILE None
}.

Lemma spans_foreign k l root B q : kpage q -> q ∉ l -> ~ spans k root B q -> foreign k root l B 0 q.
Proof.
  intros Hq Hl Hn. pose proof (kpage_nonzero Hlink q Hq). split; [done|]. split; [done|]. split; [intros Ht; apply Hn; by left|]. split; [lia|].
  intros va Hva Hv E. apply Hn. right. by exists va.
Qed.

Lemma spans_owns k l root tf sz q : aspace k l root tf sz -> spans k root TRAPFRAME q <-> owns k root sz q.
Proof.
  intros A. pose proof (round_top sz (as_size _ _ _ _ _ A)) as Hrd. split; (intros [?|(va & Hva & Hv & E)]; [by left|right]).
  - exists va. split; [|done]. destruct (Z.lt_ge_cases va (PGROUNDUP sz)); [lia|]. rewrite (as_top _ _ _ _ _ A) in Hv by lia. done.
  - exists va. split; [lia|done].
Qed.

(** Work in the address space of the parent does not touch the zombie. *)
Lemma foreign_keeps_on root B Kp k l k1 l1 : ustep root B Kp k l 0 k1 l1 0 -> keeps_on (foreign k root l B 0) k l k1 l1.
Proof.
  intros U q _ _ Hf. pose proof (proj2 (us_foreign _ _ _ _ _ _ _ _ _ U q) Hf) as (_ & ? & _). split; [done|].
  split; [by apply (us_count _ _ _ _ _ _ _ _ _ U)|]. by apply (foreign_mem Hlink _ _ _ _ _ _ _ _ U).
Qed.

Lemma zombie_step root Kp k l k1 l1 z : ustep root TRAPFRAME Kp k l 0 k1 l1 0 -> zombie_ok k l root z ->
  zombie_ok k1 l1 root z /\ forall q, spans k1 (pd_pagetable z) TRAPFRAME q <-> spans k (pd_pagetable z) TRAPFRAME q.
Proof.
  intros U [A [Ft C] Ap Fl]. pose proof (foreign_keeps_on _ _ _ _ _ _ _ U) as Kp1. pose proof (us_kinv _ _ _ _ _ (us_ust _ _ _ _ _ _ _ _ _ U)) as Hk1.
  destruct (aspace_keeps_on _ k l k1 l1 _ _ _ A Hk1 Kp1) as (A1 & Hlk & Hist); [intros q Hq; apply Ap; by left|].
  assert (Sp : forall q, spans k1 (pd_pagetable z) TRAPFRAME q <-> spans k (pd_pagetable z) TRAPFRAME q).
  { intros q. unfold spans, valid_at, page_at. rewrite Hist. by setoid_rewrite Hlk. }
  split; [|done]. assert (Htf : foreign k root l TRAPFRAME 0 (pd_trapframe z)) by (apply Ap; by right). split; [done| | |done].
  - destruct (Kp1 (pd_trapframe z)) as (Hl1 & C1 & _); [apply Htf|apply Htf|done|]. split; [|congruence].
    apply spans_foreign; [apply Htf|done|]. rewrite Sp. by apply foreign_spans in Ft.
  - intros q Hq. apply (us_foreign _ _ _ _ _ _ _ _ _ U). apply Ap. by rewrite <- Sp.
Qed.

(** Reaping frees the memory of the zombie, and the parent does not notice. *)
Lemma zombie_free e root k l z : kfree_locks e -> ust root TRAPFRAME k l 0 -> zombie_ok k l root z ->
  exists k1 k2 l2, kfree (pd_trapframe z) e k = Ret tt e k1 /\ proc_freepagetable (pd_pagetable z) (pd_sz z) e k1 = Ret tt e k2 /\
    (forall q, q ∈ l2 <-> q ∈ l \/ q = pd_trapframe z \/ owns k (pd_pagetable z) (pd_sz z) q) /\
    (forall q, foreign k (pd_pagetable z) l TRAPFRAME 0 q -> q <> pd_trapframe z -> q ∉ l2 /\ refcount k2 (pageno q) = refcount k (pageno q) /\
       forall x, q <= x < q + PGSIZE -> kmem_mem k2 x = kmem_mem k x) /\
    ust root TRAPFRAME k2 l2 0 /\ forall va, ubyte k2 root TRAPFRAME va = ubyte k root TRAPFRAME va.
Proof.
  intros He U [A Fp Ap _]. destruct (release_run Hlink e k l _ _ _ He Htr A Fp) as (k1 & k2 & l2 & E1 & E2 & Hk & Hin & Hkeep).
  exists k1, k2, l2. split; [done|]. split; [done|]. split; [done|]. split; [done|].
  assert (Hsp : forall q, spans k root TRAPFRAME q -> q ∉ l2 /\ refcount k2 (pageno q) = refcount k (pageno q) /\ forall x, q <= x < q + PGSIZE -> kmem_mem k2 x = kmem_mem k x).
  { intros q Hq. destruct (spans_page k l root TRAPFRAME q U Hq) as [Hkq Hql]. apply Hkeep.
    - apply spans_foreign; [done|done|]. intros Hz. apply (foreign_spans k root l TRAPFRAME q); [apply Ap; by left|done].
    - intros E. apply (foreign_spans k root l TRAPFRAME q); [apply Ap; by right|done]. }
  destruct (ust_keeps_on (spans k root TRAPFRAME) root TRAPFRAME k l k2 l2 U Hk) as (U2 & Hlk & _); [intros q _ _; apply Hsp|done|]. split; [done|].
  intros va. unfold ubyte, user_at, valid_at, phys, page_at. rewrite !Hlk. destruct (in_range 0 TRAPFRAME va) eqn:Hr; [|done]. apply in_range_true in Hr.
  destruct (pte_has (lookup_pte (kmem_mem k) root va) PTE_V) eqn:Hv; [|done]. destruct (pte_has _ PTE_U); [|done]. cbn. f_equal.
  apply (Hsp (page_at (kmem_mem k) root va)); [right; exists va; unfold valid_at; split; [lia|done]|]. pose proof (Z.mod_pos_bound va PGSIZE eq_refl). unfold page_at. lia.
Qed.

(** ** Reaping *)

(** The caller [d] and its children *)
Record waiter (ps : list proc) (k : kmem) (l : list Z) (P : list pdata) (d : pdata) (me : proc) : Prop := {
  wa_slots : slots_ok ps P;
  wa_proc : ps !! p = Some me;
  wa_data : P !! p = Some d;
  wa_size : pd_sz d <= TRAPFRAME;
  wa_ust : ust (pd_pagetable d) TRAPFRAME k l 0;
  wa_guard : uguard k (pd_pagetable d) TRAPFRAME;
  wa_zombies : forall i q z, ps !! i = Some q -> P !! i = Some z -> zombie_child q = true -> zombie_ok k l (pd_pagetable d) z
}.

(** The caller has the status at [addr], its other memory is as it was, the memory
    of the zombie is free, and that of every other process is as it was. *)
Record reaped_memory (addr : Z) (k : kmem) (l : list Z) (d z : pdata) (status : Z) (k' : kmem) (l' : list Z) : Prop := {
  rm_ust : ust (pd_pagetable d) TRAPFRAME k' l' 0;
  rm_status : addr <> 0 -> forall j b, le 4 status !! j = Some b -> ubyte k' (pd_pagetable d) TRAPFRAME (addr + Z.of_nat j) = Some b;
  rm_user : forall va b, ~ (addr <> 0 /\ addr <= va < addr + 4) -> ubyte k (pd_pagetable d) TRAPFRAME va = Some b -> ubyte k' (pd_pagetable d) TRAPFRAME va = Some b;
  rm_freed : forall x, x = pd_trapframe z \/ owns k (pd_pagetable z) (pd_sz z) x -> x ∈ l';
  rm_exact : addr = 0 -> forall x, x ∈ l' <-> x ∈ l \/ x = pd_trapframe z \/ owns k (pd_pagetable z) (pd_sz z) x;
  rm_others : forall x, foreign k (pd_pagetable d) l TRAPFRAME 0 x -> x <> pd_trapframe z -> ~ owns k (pd_pagetable z) (pd_sz z) x ->
    x ∉ l' /\ refcount k' (pageno x) = refcount k (pageno x) /\ forall a, x <= a < x + PGSIZE -> kmem_mem k' a = kmem_mem k a
}.

Definition reaped (addr : Z) (ps : list proc) (n : Z) (k : kmem) (l : list Z) (P : list pdata) (F : list file) (I : list inode) (d : pdata)
    (i : nat) (q : proc) (z : pdata) (o : outcome filest Z) : Prop :=
  exists k' l', o = Ret (p_pid q) (ctx ∅ (alter (fun _ => free_proc) i ps) n) (mk k' (alter clean i P) F I) /\
    slots_ok (alter (fun _ => free_proc) i ps) (alter clean i P) /\ reaped_memory addr k l d z (p_xstate q) k' l'.

(** [copyout] failed: the child is still a zombie. *)
Definition not_reaped (addr : Z) (ps : list proc) (n : Z) (k : kmem) (l : list Z) (P : list pdata) (F : list file) (I : list inode) (d : pdata) (o : outcome filest Z) : Prop :=
  addr <> 0 /\ exists k' l', o = Ret (-1) (ctx ∅ ps n) (mk k' P F I) /\ ust (pd_pagetable d) TRAPFRAME k' l' 0 /\
    (forall va b, ~ (addr <= va < addr + 4) -> ubyte k (pd_pagetable d) TRAPFRAME va = Some b -> ubyte k' (pd_pagetable d) TRAPFRAME va = Some b) /\
    keeps_on (foreign k (pd_pagetable d) l TRAPFRAME 0) k l k' l'.

Lemma copy_status e addr k l d status : kfree_locks e -> 0 <= addr -> pd_sz d <= TRAPFRAME -> ust (pd_pagetable d) TRAPFRAME k l 0 -> uguard k (pd_pagetable d) TRAPFRAME ->
  exists r k1 l1, copyout (uproc_of d) (pd_pagetable d) addr (le 4 status) e k = Ret r e k1 /\
    uwrite (pd_pagetable d) TRAPFRAME addr 4 (fun va => addr <= va < addr + 4) k l k1 l1 /\
    ((r = 0 /\ forall j b, le 4 status !! j = Some b -> ubyte k1 (pd_pagetable d) TRAPFRAME (addr + Z.of_nat j) = Some b) \/ r = -1).
Proof.
  intros He Ha Hsz U G. apply (copyout_loop_run Hlink e (pd_pagetable d) TRAPFRAME (pd_sz d) He eq_refl ltac:(by split; apply Z.leb_le) Hsz (length (le 4 status)) k l addr (le 4 status)); try done.
  apply le_bytes.
Qed.

Lemma slots_reap ps P i z : slots_ok ps P -> P !! i = Some z -> pd_ofile z = replicate NOFILE None ->
  slots_ok (alter (fun _ => free_proc) i ps) (alter clean i P).
Proof.
  intros (Hl & HlP & H) Hz Hf. split; [by rewrite length_alter|]. split; [by rewrite length_alter|]. intros j q d. destruct (decide (j = i)) as [->|Hne].
  - rewrite !list_lookup_alter_eq, Hz. destruct (ps !! i); [|done]. intros [= <-] [= <-] _. split; [done|]. by destruct z.
  - rewrite !list_lookup_alter_ne by done. apply H.
Qed.

(** The memory after the status was copied ([k1]) and the zombie freed ([k2]) *)
Lemma reap_memory addr k l d z status k1 l1 k2 l2 (W : addr = 0 /\ k1 = k /\ l1 = l \/ addr <> 0 /\
    uwrite (pd_pagetable d) TRAPFRAME addr 4 (fun va => addr <= va < addr + 4) k l k1 l1 /\
    forall j b, le 4 status !! j = Some b -> ubyte k1 (pd_pagetable d) TRAPFRAME (addr + Z.of_nat j) = Some b) :
  zombie_ok k l (pd_pagetable d) z -> zombie_ok k1 l1 (pd_pagetable d) z -> ust (pd_pagetable d) TRAPFRAME k2 l2 0 ->
  (forall q, spans k1 (pd_pagetable z) TRAPFRAME q <-> spans k (pd_pagetable z) TRAPFRAME q) -> keeps_on (foreign k (pd_pagetable d) l TRAPFRAME 0) k l k1 l1 ->
  (forall q, q ∈ l2 <-> q ∈ l1 \/ q = pd_trapframe z \/ owns k1 (pd_pagetable z) (pd_sz z) q) ->
  (forall q, foreign k1 (pd_pagetable z) l1 TRAPFRAME 0 q -> q <> pd_trapframe z -> q ∉ l2 /\ refcount k2 (pageno q) = refcount k1 (pageno q) /\
     forall x, q <= x < q + PGSIZE -> kmem_mem k2 x = kmem_mem k1 x) ->
  (forall va, ubyte k2 (pd_pagetable d) TRAPFRAME va = ubyte k1 (pd_pagetable d) TRAPFRAME va) ->
  reaped_memory addr k l d z status k2 l2.
Proof.
  intros Z0 Z1 U2 Sp Kp1 Hin Hkeep Hub.
  assert (Ow : forall q, owns k1 (pd_pagetable z) (pd_sz z) q <-> owns k (pd_pagetable z) (pd_sz z) q).
  { intros q. rewrite <- (spans_owns k1 l1 _ _ _ q (zo_space _ _ _ _ Z1)), <- (spans_owns k l _ _ _ q (zo_space _ _ _ _ Z0)). apply Sp. }
  split; [done| | | | |].
  - intros Ha. destruct W as [[? _]|(_ & _ & Hb)]; [done|]. intros j b Hj. rewrite Hub. by apply Hb.
  - intros va b Hn Hb. rewrite Hub. destruct W as [(_ & -> & _)|(Ha & W & _)]; [done|]. apply (uw_some _ _ _ _ _ _ _ _ _ W); [tauto|done].
  - intros x Hx. apply Hin. right. by rewrite Ow.
  - intros ->. destruct W as [(_ & -> & ->)|[? _]]; [done|done].
  - intros x Hf Hne Ho. pose proof Hf as (Hx & Hl & _). destruct (Kp1 x Hx Hl Hf) as (Hl1 & C1 & M1). destruct (Hkeep x) as (? & C2 & M2); [|done|].
    + apply spans_foreign; [done|done|]. rewrite (spans_owns k1 l1 _ _ _ x (zo_space _ _ _ _ Z1)). by rewrite Ow.
    + split; [done|]. split; [congruence|]. intros a Ha. by rewrite M2, M1.
Qed.

Lemma reap_locks i ps n : kfree_locks (ctx ({[ProcLock i]} ∪ ({[WaitLock]} ∪ ∅)) ps n).
Proof. unfold kfree_locks. cbn. set_solver. Qed.

(** [freeproc] of the zombie and the two releases *)
Lemma reap_tail {A} (v : A) root i z h ps n k l P F I : h = {[WaitLock]} ∪ ∅ -> P !! i = Some z -> ust root TRAPFRAME k l 0 -> zombie_ok k l root z ->
  exists k2 l2, (freeproc i ;; release (ProcLock i) ;; release WaitLock ;; ret v) (ctx ({[ProcLock i]} ∪ h) ps n) (mk k P F I) =
      Ret v (ctx ∅ (alter (fun _ => free_proc) i ps) n) (mk k2 (alter clean i P) F I) /\
    (forall q, q ∈ l2 <-> q ∈ l \/ q = pd_trapframe z \/ owns k (pd_pagetable z) (pd_sz z) q) /\
    (forall q, foreign k (pd_pagetable z) l TRAPFRAME 0 q -> q <> pd_trapframe z -> q ∉ l2 /\ refcount k2 (pageno q) = refcount k (pageno q) /\
       forall x, q <= x < q + PGSIZE -> kmem_mem k2 x = kmem_mem k x) /\
    ust root TRAPFRAME k2 l2 0 /\ forall va, ubyte k2 root TRAPFRAME va = ubyte k root TRAPFRAME va.
Proof.
  intros -> Hz U Z. destruct (zombie_free _ root k l z (reap_locks i ps n) U Z) as (k1 & k2 & l2 & E1 & E2 & H). exists k2, l2. split; [|done].
  pose proof (zo_space _ _ _ _ Z) as Az. pose proof (kpage_nonzero Hlink _ (as_frame _ _ _ _ _ Az)).
  assert (Hr : kpage (pd_pagetable z)) by (apply (aspace_table k l _ _ _ _ Az); exists []; by split; [apply path_ok_nil|]). pose proof (kpage_nonzero Hlink _ Hr).
  rewrite (bind_step _ _ _ _ _ _ _ (freeproc_run (Some p) ip s i z _ ps n k k1 k2 P F I Hz
    ltac:(by rewrite (proj2 (truth_true _)) by lia) ltac:(by rewrite (proj2 (truth_true _)) by lia))).
  rewrite b_release by (done || apply wait_locks). rewrite b_release by (done || set_solver). done.
Qed.

Lemma reap_run addr ps n k l P F I d me i q z : waiter ps k l P d me -> 0 <= addr -> ps !! i = Some q -> P !! i = Some z -> zombie_child q = true ->
  exists v e' t', reap addr i q (ctx ({[ProcLock i]} ∪ ({[WaitLock]} ∪ ∅)) ps n) (mk k P F I) = Ret (inl v) e' t' /\
    (reaped addr ps n k l P F I d i q z (Ret v e' t') \/ not_reaped addr ps n k l P F I d (Ret v e' t')).
Proof.
  intros [Hs Hme Hd Hsz U G HZ] Ha Hq Hz Hc. pose proof (HZ i q z Hq Hz Hc) as Zo. unfold reap. rewrite (b_getpd s p d) by done.
  pose proof (slots_reap ps P i z Hs Hz (zo_files _ _ _ _ Zo)) as Hs'. destruct (Z.eqb_spec addr 0) as [E0|Hne]; cbn [negb].
  { rewrite bind_ret. change (0 <? 0) with false. cbv iota.
    destruct (reap_tail (inl (p_pid q) : Z + bool) (pd_pagetable d) i z _ ps n k l P F I eq_refl Hz U Zo) as (k2 & l2 & E & Hin & Hkeep & U2 & Hub).
    rewrite E. do 3 eexists. split; [reflexivity|]. left. exists k2, l2. split; [done|]. split; [done|].
    apply (reap_memory addr k l d z (p_xstate q) k l k2 l2 ltac:(by left)); try done. }
  destruct (copy_status _ addr k l d (p_xstate q) (reap_locks i ps n) Ha Hsz U G) as (r & k1 & l1 & E1 & W & Hr). rewrite (b_kmem _ _ _ _ _ _ _ P F I _ E1).
  pose proof (uw_step _ _ _ _ _ _ _ _ _ W) as St. destruct (zombie_step _ _ _ _ _ _ z St Zo) as [Z1 Sp]. pose proof (foreign_keeps_on _ _ _ _ _ _ _ St) as Kp1.
  destruct Hr as [[-> Hb]| ->].
  - change (0 <? 0) with false. cbv iota.
    destruct (reap_tail (inl (p_pid q) : Z + bool) (pd_pagetable d) i z _ ps n k1 l1 P F I eq_refl Hz (us_ust _ _ _ _ _ _ _ _ _ St) Z1) as (k2 & l2 & E & Hin & Hkeep & U2 & Hub).
    rewrite E. do 3 eexists. split; [reflexivity|]. left. exists k2, l2. split; [done|]. split; [done|].
    by apply (reap_memory addr k l d z (p_xstate q) k1 l1 k2 l2 ltac:(by right)).
  - change (-1 <? 0) with true. cbv iota. rewrite b_release by (done || apply wait_locks). rewrite b_release by (done || set_solver).
    do 3 eexists. split; [reflexivity|]. right. split; [done|]. exists k1, l1. split; [done|]. split; [apply St|]. split; [|done].
    intros va b Hn Hva. by apply (uw_some _ _ _ _ _ _ _ _ _ W).
Qed.

(** The outcomes of [wait] *)
Definition wait_done (addr : Z) (ps : list proc) (n : Z) (k : kmem) (l : list Z) (P : list pdata) (F : list file) (I : list inode) (d : pdata) (me : proc) (o : outcome filest Z) : Prop :=
  match first_slot zombie_child 0 ps with
  | Some i => exists q z, ps !! i = Some q /\ P !! i = Some z /\ (reaped addr ps n k l P F I d i q z o \/ not_reaped addr ps n k l P F I d o)
  | None =>
      if existsb is_child ps && (p_killed me =? 0)
      then o = Block (Env {[ProcLock p]} (alter (asleep (ChanProc p)) p ps) (Some p) n ip) (mk k P F I)
      else o = Ret (-1) (ctx ∅ ps n) (mk k P F I)
  end.

Lemma wait_run addr ps n k l P F I d me : waiter ps k l P d me -> 0 <= addr -> wait_done addr ps n k l P F I d me (wait addr (ctx ∅ ps n) (mk k P F I)).
Proof.
  intros H Ha. pose proof (wa_slots _ _ _ _ _ _ H) as (Hlen & HlP & _). pose proof (wa_proc _ _ _ _ _ _ H) as Hme. unfold wait_done.
  unfold wait. rewrite (bind_step _ _ _ _ _ _ _ (eq_refl : curproc (ctx ∅ ps n) (mk k P F I) = Ret p (ctx ∅ ps n) (mk k P F I))). rewrite b_acquire by set_solver. unfold wait_loop, all_procs.
  destruct (first_slot zombie_child 0 ps) as [i|] eqn:Hf.
  - destruct (first_slot_some _ _ _ _ Hf) as (q & _ & Hq & Hc). rewrite Nat.sub_0_r in Hq. destruct (lookup_lt_is_Some_2 P i) as [z Hz]; [apply lookup_lt_Some in Hq; lia|].
    exists q, z. split; [done|]. split; [done|]. destruct (reap_run addr ps n k l P F I d me i q z H Ha Hq Hz Hc) as (v & e' & t' & E & R).
    rewrite <- (scan_some addr ps n (mk k P F I) i q Hq NPROC 0 false) in E by (done || lia). by rewrite (bind_step _ _ _ _ _ _ _ E).
  - rewrite (bind_step _ _ _ _ _ _ _ (scan_none addr ps n (mk k P F I) NPROC 0 false ltac:(lia) Hf)). rewrite drop_0. cbn [orb].
    destruct (existsb is_child ps); cbn [negb andb].
    + unfold killed. rewrite !bind_assoc, b_acquire by apply wait_locks. rewrite bind_assoc, (b_getp (Some p) ip p me) by done.
      rewrite bind_assoc, b_release by (done || apply wait_locks). rewrite !bind_ret. unfold truth. destruct (p_killed me =? 0) eqn:Ek; cbn [negb].
      * unfold bind. erewrite sleep_run; [reflexivity|done|cbn; set_solver|done|done].
      * rewrite b_release by (done || set_solver). done.
    + rewrite bind_ret, b_release by (done || set_solver). done.
Qed.
End Wait.


(** ** An example *)

#[local] Existing Instance demo_linker.

Definition demo_waiter : pdata := Pdata 4096 8192 (demo_page 10) 0 CodeNull 0 (replicate 16 None) (Some 0%nat) [].
Definition demo_zombie : pdata := Pdata 8192 0 (demo_page 1) (demo_page 9) CodeNull 0 (replicate 16 None) None [].
Definition demo_wprocs : list proc := [Proc RUNNING ChanNull 0 0 7 None; Proc ZOMBIE ChanNull 0 3 8 (Some 0%nat)] ++ replicate 62 free_proc.
Definition demo_wpds : list pdata := [demo_waiter; demo_zombie] ++ replicate 62 demo_slot.

(** The caller has an empty page table, the child the memory of a new process. *)
Lemma demo_family : exists k l, proc_pagetable (demo_page 9) demo_env demo_kmem = Ret (demo_page 1) demo_env k /\
  ust (demo_page 10) TRAPFRAME k l 0 /\ uguard k (demo_page 10) TRAPFRAME /\ zombie_ok k l (demo_page 10) demo_zombie.
Proof.
  destruct demo_aspace as (k & l & E & Hk & Kp & V & A & Fp). exists k, l. split; [exact E|].
  assert (K10 : kpage (demo_page 10)) by (apply demo_kpage; lia). assert (N10 : demo_page 10 ∉ demo_free) by (apply demo_used; lia).
  destruct (Kp _ K10 N10) as (L10 & _ & M10).
  assert (Hz : forall x, demo_page 10 <= x < demo_page 10 + PGSIZE -> kmem_mem k x = 0) by (intros x Hx; rewrite M10 by done; by apply (demo_used_zero 10)).
  assert (U : ust (demo_page 10) TRAPFRAME k l 0) by (by apply zero_ust). split; [done|].
  split; [intros va _; unfold user_at, valid_at; by rewrite zero_lookup|].
  assert (Hf : forall q, kpage q -> q ∉ l -> q <> demo_page 10 -> foreign k (demo_page 10) l TRAPFRAME 0 q).
  { intros q Hq Hl Hne. apply (spans_foreign demo_linker_ok); [done|done|]. intros [(p & Hp & Et)|(va & _ & Hv & _)].
    - destruct (zero_table k (demo_page 10) p q K10 Hz Hp Et) as [_ Eq]. exact (Hne Eq).
    - unfold valid_at in Hv. rewrite zero_lookup in Hv by done. discriminate Hv. }
  split; [exact A|exact Fp| |reflexivity]. intros q [Hq| ->].
  - destruct (spans_page k l _ _ q (sp_ust _ _ _ _ (as_space _ _ _ _ _ A)) Hq) as [Hkq Hql]. apply Hf; [done|done|]. intros ->. apply N10.
    apply (view_owns demo_kmem demo_free (demo_page 1) k l (demo_page 9) 0 _ V A). by apply (spans_owns k l (demo_page 1) (demo_page 9) 0).
  - apply Hf; [apply demo_kpage; lia| |discriminate]. by destruct Fp as [(_ & ? & _) _].
Qed.

