(* ===== verification/Exec.v ===== *)
(** * kernel/exec.c: loading a program

    The ELF structures of kernel/elf.h are byte ranges of the file.  Local
    variables of [exec] that the C code reaches by [goto bad] are passed to
    [exec_bad].  The strings of [argv] are byte lists; their number is the
    position of the null pointer. *)

From stdpp Require Import base gmap sets list strings.
From Stdlib Require Import ZArith Lia.
From S2P Require Import Prelude Kernel Riscv Kalloc Vm Sched Sleeplock Bytes Bio Log Usr Fs Pipe Uart Console File Proc.

(** ** Definitions *)

Definition MAXARG : Z := 32.
Definition USERSTACK : Z := 1.
Definition ELF_MAGIC : Z := 0x464C457F.
Definition ELF_PROG_LOAD : Z := 1.
(** [sizeof(struct elfhdr)], [sizeof(struct proghdr)] *)
Definition sizeof_elfhdr : Z := 64.
Definition sizeof_proghdr : Z := 56.

Definition elf_magic (d : list Z) : Z := ld 4 0 d.
Definition elf_entry (d : list Z) : Z := ld 8 24 d.
Definition elf_phoff (d : list Z) : Z := ld 8 32 d.
Definition elf_phnum (d : list Z) : Z := ld 2 56 d.

Definition ph_type (d : list Z) : Z := ld 4 0 d.
Definition ph_flags (d : list Z) : Z := ld 4 4 d.
Definition ph_off (d : list Z) : Z := ld 8 8 d.
Definition ph_vaddr (d : list Z) : Z := ld 8 16 d.
Definition ph_filesz (d : list Z) : Z := ld 8 32 d.
Definition ph_memsz (d : list Z) : Z := ld 8 40 d.

Definition flags2perm (flags : Z) : Z :=
  let perm := if truth (Z.land flags 1) then PTE_X else 0 in
  if truth (Z.land flags 2) then Z.lor perm PTE_W else perm.

Section Exec.
Context {L : Linker}.

(** The page offsets of a segment of [sz] bytes. *)
Definition seg_pages (sz : Z) : list Z := (fun k => k * PGSIZE) <$> seqZ 0 ((sz + PGSIZE - 1) / PGSIZE).

Definition loadseg (pagetable va : Z) (ip : nat) (offset sz : Z) : K filest Z :=
  r <- for_find (seg_pages sz) (fun i =>
    pa <- on_kmem (walkaddr pagetable (u64 (va + i))) ;;
    if pa =? 0 then panic "loadseg: address should exist"
    else
      let n := if sz - i <? PGSIZE then sz - i else PGSIZE in
      r <- on_fs (readi ip ToKernel (u32 (offset + i)) n) ;;
      on_kmem (modify (fun s => set_mem s (mem_write (kmem_mem s) pa (snd r)))) ;;
      if negb (fst r =? n) then ret (Some (-1)) else ret None) ;;
  ret (default 0 r).

(** The loop over the program headers: whether it succeeded, and [sz]. *)
Fixpoint exec_load (k : nat) (ip : nat) (pagetable off sz : Z) : K filest (bool * Z) :=
  match k with
  | O => ret (true, sz)
  | S k' =>
      r <- on_fs (readi ip ToKernel (u32 off) sizeof_proghdr) ;;
      let ph := snd r in
      if negb (fst r =? sizeof_proghdr) then ret (false, sz)
      else if negb (ph_type ph =? ELF_PROG_LOAD) then exec_load k' ip pagetable (i32 (off + sizeof_proghdr)) sz
      else if ph_memsz ph <? ph_filesz ph then ret (false, sz)
      else if u64 (ph_vaddr ph + ph_memsz ph) <? ph_vaddr ph then ret (false, sz)
      else if negb (ph_vaddr ph mod PGSIZE =? 0) then ret (false, sz)
      else
        sz1 <- on_kmem (uvmalloc pagetable sz (u64 (ph_vaddr ph + ph_memsz ph)) (flags2perm (ph_flags ph))) ;;
        if sz1 =? 0 then ret (false, sz)
        else
          r <- loadseg pagetable (ph_vaddr ph) ip (u32 (ph_off ph)) (u32 (ph_filesz ph)) ;;
          if r <? 0 then ret (false, sz1)
          else exec_load k' ip pagetable (i32 (off + sizeof_proghdr)) sz1
  end.

(** Pushing the strings of [argv]: [sp] and [ustack], or [None] for [goto bad]. *)
Fixpoint exec_args (up : uproc) (pagetable stackbase : Z) (argv : list (list Z)) (sp : Z) (ustack : list Z) : K filest (option (Z * list Z)) :=
  match argv with
  | [] => ret (Some (sp, ustack))
  | s :: argv' =>
      if MAXARG <=? Z.of_nat (length ustack) then ret None
      else
        let sp := u64 (sp - (Z.of_nat (length s) + 1)) in
        let sp := sp - sp mod 16 in
        if sp <? stackbase then ret None
        else
          r <- on_kmem (copyout up pagetable sp (s ++ [0])) ;;
          if r <? 0 then ret None
          else exec_args up pagetable stackbase argv' sp (ustack ++ [sp])
  end.

(** [bad:] *)
Definition exec_bad (pagetable sz : Z) (ip : option nat) : K filest Z :=
  when (truth pagetable) (on_kmem (proc_freepagetable pagetable sz)) ;;
  match ip with
  | Some i =>
      on_fs (iunlockput i) ;;
      f_end_op
  | None => ret tt
  end ;;
  ret (-1).

(** The part of [path] after its last slash: [path] is what is left to scan. *)
Fixpoint last_elem (path last : list Z) : list Z :=
  match path with
  | [] => last
  | c :: path' => last_elem path' (if c =? slash then path' else last)
  end.

(** The part of [exec] after the program is loaded. *)
Definition exec_image (path : list Z) (argv : list (list Z)) (pagetable sz entry : Z) : K filest Z :=
  p <- curproc ;;
  d <- on_usr (getpd p) ;;
  let oldsz := pd_sz d in
  let sz := PGROUNDUP sz in
  sz1 <- on_kmem (uvmalloc pagetable sz (u64 (sz + (USERSTACK + 1) * PGSIZE)) PTE_W) ;;
  if sz1 =? 0 then exec_bad pagetable sz None
  else
    let sz := sz1 in
    on_kmem (uvmclear pagetable (u64 (sz - (USERSTACK + 1) * PGSIZE))) ;;
    let stackbase := u64 (sz - USERSTACK * PGSIZE) in
    r <- exec_args (uproc_of d) pagetable stackbase argv sz [] ;;
    match r with
    | None => exec_bad pagetable sz None
    | Some (sp, ustack) =>
        let argc := Z.of_nat (length ustack) in
        if MAXARG <=? argc then undef "ustack"
        else
          let sp := u64 (sp - (argc + 1) * 8) in
          let sp := sp - sp mod 16 in
          if sp <? stackbase then exec_bad pagetable sz None
          else
            r <- on_kmem (copyout (uproc_of d) pagetable sp (concat (le 8 <$> (ustack ++ [0])))) ;;
            if r <? 0 then exec_bad pagetable sz None
            else
              on_usr (tf_store p (tf_a 1) sp) ;;
              on_usr (updpd p (set_pd_name (take 15 (last_elem path path)))) ;;
              on_usr (updpd p (fun d => set_pd_sz sz (set_pd_pagetable pagetable d))) ;;
              on_usr (tf_store p tf_epc entry) ;;
              on_usr (tf_store p tf_sp sp) ;;
              on_kmem (proc_freepagetable (pd_pagetable d) oldsz) ;;
              ret argc
    end.

Definition exec (path : list Z) (argv : list (list Z)) : K filest Z :=
  p <- curproc ;;
  f_begin_op ;;
  r <- on_fs (namei path) ;;
  match r with
  | None =>
      f_end_op ;;
      ret (-1)
  | Some ip =>
      on_fs (ilock (Some ip)) ;;
      r <- on_fs (readi ip ToKernel 0 sizeof_elfhdr) ;;
      let elf := snd r in
      if negb (fst r =? sizeof_elfhdr) then exec_bad 0 0 (Some ip)
      else if negb (elf_magic elf =? ELF_MAGIC) then exec_bad 0 0 (Some ip)
      else
        d <- on_usr (getpd p) ;;
        pagetable <- on_kmem (proc_pagetable (pd_trapframe d)) ;;
        if pagetable =? 0 then exec_bad 0 0 (Some ip)
        else
          r <- exec_load (Z.to_nat (elf_phnum elf)) ip pagetable (i32 (elf_phoff elf)) 0 ;;
          if negb (fst r) then exec_bad pagetable (snd r) (Some ip)
          else
            on_fs (iunlockput ip) ;;
            f_end_op ;;
            exec_image path argv pagetable (snd r) (elf_entry elf)
  end.

End Exec.
