(* ===== verification/Sysfile.v ===== *)
(** * kernel/sysfile.c: the file system calls

    Each handler fetches its arguments from the trapframe and user memory and
    checks them before it calls the file layer.  Results are those of the C
    functions before their conversion to [uint64], which [syscall] performs. *)

From stdpp Require Import base gmap sets list strings.
From Stdlib Require Import ZArith Lia.
From S2P Require Import Prelude Kernel Riscv Kalloc Vm Sched Sleeplock Bytes Bio Log Usr Fs Pipe Uart Console File Proc Exec.

(** ** Definitions *)

Definition MAXPATH : Z := 128.
Definition O_RDONLY : Z := 0x000.
Definition O_WRONLY : Z := 0x001.
Definition O_RDWR : Z := 0x002.
Definition O_CREATE : Z := 0x200.
Definition O_TRUNC : Z := 0x400.

Section Sysfile.
Context {L : Linker}.

(** The descriptor and its file, or [None] for the result -1. *)
Definition argfd (n : Z) : K filest (option (nat * nat)) :=
  fd <- on_usr (argint n) ;;
  if (fd <? 0) || (Z.of_nat NOFILE <=? fd) then ret None
  else
    p <- curproc ;;
    d <- on_usr (getpd p) ;;
    match pd_ofile d !! Z.to_nat fd with
    | Some (Some f) => ret (Some (Z.to_nat fd, f))
    | _ => ret None
    end.

(** [myproc()->ofile[fd] = v] *)
Definition set_ofile (fd : nat) (v : option nat) : K filest unit :=
  p <- curproc ;;
  on_usr (updpd p (fun d => set_pd_ofile (<[fd := v]> (pd_ofile d)) d)).

Definition fdalloc (f : nat) : K filest (option nat) :=
  p <- curproc ;;
  d <- on_usr (getpd p) ;;
  match list_find (fun o => o = None) (pd_ofile d) with
  | Some (fd, _) =>
      set_ofile fd (Some f) ;;
      ret (Some fd)
  | None => ret None
  end.

Definition sys_dup : K filest Z :=
  r <- argfd 0 ;;
  match r with
  | None => ret (-1)
  | Some (_, f) =>
      r <- fdalloc f ;;
      match r with
      | None => ret (-1)
      | Some fd =>
          filedup f ;;
          ret (Z.of_nat fd)
      end
  end.

Definition sys_read : K filest Z :=
  p <- on_usr (argaddr 1) ;;
  n <- on_usr (argint 2) ;;
  r <- argfd 0 ;;
  match r with
  | None => ret (-1)
  | Some (_, f) => fileread f p n
  end.

Definition sys_write : K filest Z :=
  p <- on_usr (argaddr 1) ;;
  n <- on_usr (argint 2) ;;
  r <- argfd 0 ;;
  match r with
  | None => ret (-1)
  | Some (_, f) => filewrite f p n
  end.

Definition sys_close : K filest Z :=
  r <- argfd 0 ;;
  match r with
  | None => ret (-1)
  | Some (fd, f) =>
      set_ofile fd None ;;
      fileclose f ;;
      ret 0
  end.

Definition sys_fstat (pad : list Z) : K filest Z :=
  st <- on_usr (argaddr 1) ;;
  r <- argfd 0 ;;
  match r with
  | None => ret (-1)
  | Some (_, f) => filestat pad f st
  end.

(** [ip->nlink += delta; iupdate(ip);] *)
Definition add_nlink (ip : nat) (delta : Z) : K filest unit :=
  on_fs (updi ip (fun x => set_i_nlink (i16 (i_nlink x + delta)) x)) ;;
  on_fs (iupdate ip).

(** [bad:] of [sys_link] *)
Definition link_bad (ip : nat) : K filest Z :=
  on_fs (ilock (Some ip)) ;;
  add_nlink ip (-1) ;;
  on_fs (iunlockput ip) ;;
  f_end_op ;;
  ret (-1).

Definition sys_link : K filest Z :=
  old <- on_usr (argstr 0 MAXPATH) ;;
  match old with
  | None => ret (-1)
  | Some old =>
      new <- on_usr (argstr 1 MAXPATH) ;;
      match new with
      | None => ret (-1)
      | Some new =>
          f_begin_op ;;
          r <- on_fs (namei old) ;;
          match r with
          | None =>
              f_end_op ;;
              ret (-1)
          | Some ip =>
              on_fs (ilock (Some ip)) ;;
              x <- on_fs (geti ip) ;;
              if i_type x =? T_DIR then
                on_fs (iunlockput ip) ;;
                f_end_op ;;
                ret (-1)
              else
                add_nlink ip 1 ;;
                on_fs (iunlock (Some ip)) ;;
                r <- on_fs (nameiparent new) ;;
                match r with
                | None => link_bad ip
                | Some (dp, name) =>
                    on_fs (ilock (Some dp)) ;;
                    y <- on_fs (geti dp) ;;
                    x <- on_fs (geti ip) ;;
                    v <- (if negb (i_dev y =? i_dev x) then ret (-1) else on_fs (dirlink dp name (i_inum x))) ;;
                    if v <? 0 then
                      on_fs (iunlockput dp) ;;
                      link_bad ip
                    else
                      on_fs (iunlockput dp) ;;
                      on_fs (iput ip) ;;
                      f_end_op ;;
                      ret 0
                end
          end
      end
  end.

Definition isdirempty (dp : nat) : K filest bool :=
  x <- on_fs (geti dp) ;;
  r <- for_find (drop 2 (de_offs (i_size x))) (fun off =>
    r <- on_fs (readi dp ToKernel off sizeof_dirent) ;;
    if negb (fst r =? sizeof_dirent) then panic "isdirempty: readi"
    else if negb (de_inum (snd r) =? 0) then ret (Some tt)
    else ret None) ;;
  ret (bool_decide (r = None)).

Definition dot : list Z := [46].
Definition dotdot : list Z := [46; 46].

(** [bad:] of [sys_unlink] *)
Definition unlink_bad (dp : nat) : K filest Z :=
  on_fs (iunlockput dp) ;;
  f_end_op ;;
  ret (-1).

Definition sys_unlink : K filest Z :=
  path <- on_usr (argstr 0 MAXPATH) ;;
  match path with
  | None => ret (-1)
  | Some path =>
      f_begin_op ;;
      r <- on_fs (nameiparent path) ;;
      match r with
      | None =>
          f_end_op ;;
          ret (-1)
      | Some (dp, name) =>
          on_fs (ilock (Some dp)) ;;
          if (namecmp name dot =? 0) || (namecmp name dotdot =? 0) then unlink_bad dp
          else
            r <- on_fs (dirlookup dp name) ;;
            match r with
            | None => unlink_bad dp
            | Some (ip, off) =>
                on_fs (ilock (Some ip)) ;;
                x <- on_fs (geti ip) ;;
                if i_nlink x <? 1 then panic "unlink: nlink < 1"
                else
                  b <- (if i_type x =? T_DIR then isdirempty ip else ret true) ;;
                  if negb b then
                    on_fs (iunlockput ip) ;;
                    unlink_bad dp
                  else
                    r <- on_fs (writei dp (FromKernel (replicate (Z.to_nat sizeof_dirent) 0)) off sizeof_dirent) ;;
                    if negb (r =? sizeof_dirent) then panic "unlink: writei"
                    else
                      x <- on_fs (geti ip) ;;
                      when (i_type x =? T_DIR) (add_nlink dp (-1)) ;;
                      on_fs (iunlockput dp) ;;
                      add_nlink ip (-1) ;;
                      on_fs (iunlockput ip) ;;
                      f_end_op ;;
                      ret 0
            end
      end
  end.

(** [fail:] of [create] *)
Definition create_fail (ip dp : nat) : K filest (option nat) :=
  on_fs (updi ip (set_i_nlink 0)) ;;
  on_fs (iupdate ip) ;;
  on_fs (iunlockput ip) ;;
  on_fs (iunlockput dp) ;;
  ret None.

(** [create]: a new inode of [type], locked, or an existing file. *)
Definition create (path : list Z) (type major minor : Z) : K filest (option nat) :=
  r <- on_fs (nameiparent path) ;;
  match r with
  | None => ret None
  | Some (dp, name) =>
      on_fs (ilock (Some dp)) ;;
      r <- on_fs (dirlookup dp name) ;;
      match r with
      | Some (ip, _) =>
          on_fs (iunlockput dp) ;;
          on_fs (ilock (Some ip)) ;;
          x <- on_fs (geti ip) ;;
          if (type =? T_FILE) && ((i_type x =? T_FILE) || (i_type x =? T_DEVICE)) then ret (Some ip)
          else
            on_fs (iunlockput ip) ;;
            ret None
      | None =>
          y <- on_fs (geti dp) ;;
          r <- on_fs (ialloc (i_dev y) type) ;;
          match r with
          | None =>
              on_fs (iunlockput dp) ;;
              ret None
          | Some ip =>
              on_fs (ilock (Some ip)) ;;
              on_fs (updi ip (fun x => set_i_nlink 1 (set_i_devno major minor x))) ;;
              on_fs (iupdate ip) ;;
              x <- on_fs (geti ip) ;;
              y <- on_fs (geti dp) ;;
              ok <- (if type =? T_DIR then
                       r <- on_fs (dirlink ip dot (i_inum x)) ;;
                       if r <? 0 then ret false
                       else
                         r <- on_fs (dirlink ip dotdot (i_inum y)) ;;
                         ret (negb (r <? 0))
                     else ret true) ;;
              if negb ok then create_fail ip dp
              else
                r <- on_fs (dirlink dp name (i_inum x)) ;;
                if r <? 0 then create_fail ip dp
                else
                  when (type =? T_DIR) (add_nlink dp 1) ;;
                  on_fs (iunlockput dp) ;;
                  ret (Some ip)
          end
      end
  end.

(** [iunlockput(ip); end_op(); return -1;] *)
Definition open_fail (ip : nat) : K filest Z :=
  on_fs (iunlockput ip) ;;
  f_end_op ;;
  ret (-1).

(** The part of [sys_open] that has the locked inode. *)
Definition open_inode (ip : nat) (omode : Z) : K filest Z :=
  x <- on_fs (geti ip) ;;
  if (i_type x =? T_DEVICE) && ((i_major x <? 0) || (NDEV <=? i_major x)) then open_fail ip
  else
    f <- filealloc ;;
    match f with
    | None => open_fail ip
    | Some f =>
        fd <- fdalloc f ;;
        match fd with
        | None =>
            fileclose f ;;
            open_fail ip
        | Some fd =>
            (if i_type x =? T_DEVICE then updf f (fun y => set_f_major (i_major x) (set_f_type FD_DEVICE y))
             else updf f (fun y => set_f_off 0 (set_f_type FD_INODE y))) ;;
            updf f (set_f_ip (Some ip)) ;;
            updf f (set_f_mode (if truth (Z.land omode O_WRONLY) then 0 else 1)
                               (if truth (Z.land omode O_WRONLY) || truth (Z.land omode O_RDWR) then 1 else 0)) ;;
            when (truth (Z.land omode O_TRUNC) && (i_type x =? T_FILE)) (on_fs (itrunc ip)) ;;
            on_fs (iunlock (Some ip)) ;;
            f_end_op ;;
            ret (Z.of_nat fd)
        end
    end.

Definition sys_open : K filest Z :=
  omode <- on_usr (argint 1) ;;
  path <- on_usr (argstr 0 MAXPATH) ;;
  match path with
  | None => ret (-1)
  | Some path =>
      f_begin_op ;;
      if truth (Z.land omode O_CREATE) then
        ip <- create path T_FILE 0 0 ;;
        match ip with
        | None =>
            f_end_op ;;
            ret (-1)
        | Some ip => open_inode ip omode
        end
      else
        r <- on_fs (namei path) ;;
        match r with
        | None =>
            f_end_op ;;
            ret (-1)
        | Some ip =>
            on_fs (ilock (Some ip)) ;;
            x <- on_fs (geti ip) ;;
            if (i_type x =? T_DIR) && negb (omode =? O_RDONLY) then open_fail ip
            else open_inode ip omode
        end
  end.

Definition sys_mkdir : K filest Z :=
  f_begin_op ;;
  path <- on_usr (argstr 0 MAXPATH) ;;
  ip <- match path with Some path => create path T_DIR 0 0 | None => ret None end ;;
  match ip with
  | None =>
      f_end_op ;;
      ret (-1)
  | Some ip =>
      on_fs (iunlockput ip) ;;
      f_end_op ;;
      ret 0
  end.

Definition sys_mknod : K filest Z :=
  f_begin_op ;;
  major <- on_usr (argint 1) ;;
  minor <- on_usr (argint 2) ;;
  path <- on_usr (argstr 0 MAXPATH) ;;
  ip <- match path with Some path => create path T_DEVICE (i16 major) (i16 minor) | None => ret None end ;;
  match ip with
  | None =>
      f_end_op ;;
      ret (-1)
  | Some ip =>
      on_fs (iunlockput ip) ;;
      f_end_op ;;
      ret 0
  end.

Definition sys_chdir : K filest Z :=
  p <- curproc ;;
  f_begin_op ;;
  path <- on_usr (argstr 0 MAXPATH) ;;
  r <- match path with Some path => on_fs (namei path) | None => ret None end ;;
  match r with
  | None =>
      f_end_op ;;
      ret (-1)
  | Some ip =>
      on_fs (ilock (Some ip)) ;;
      x <- on_fs (geti ip) ;;
      if negb (i_type x =? T_DIR) then open_fail ip
      else
        on_fs (iunlock (Some ip)) ;;
        d <- on_usr (getpd p) ;;
        match pd_cwd d with Some c => on_fs (iput c) | None => undef "null cwd" end ;;
        f_end_op ;;
        on_usr (updpd p (set_pd_cwd (Some ip))) ;;
        ret 0
  end.

(** The loop of [sys_exec] that fetches [argv]: whether it succeeded, the pages
    allocated and the strings in them.  [k] is the room left in [argv]. *)
Fixpoint exec_argv (k : nat) (uargv : Z) (i : Z) (pages : list Z) (argv : list (list Z)) : K filest (bool * list Z * list (list Z)) :=
  match k with
  | O => ret (false, pages, argv)
  | S k' =>
      uarg <- on_usr (fetchaddr (u64 (uargv + 8 * i))) ;;
      match uarg with
      | None => ret (false, pages, argv)
      | Some uarg =>
          if uarg =? 0 then ret (true, pages, argv)
          else
            pg <- on_kmem kalloc ;;
            if pg =? 0 then ret (false, pages, argv)
            else
              s <- on_usr (fetchstr uarg PGSIZE) ;;
              match s with
              | None => ret (false, pages ++ [pg], argv)
              | Some s => exec_argv k' uargv (i + 1) (pages ++ [pg]) (argv ++ [s])
              end
      end
  end.

Definition sys_exec : K filest Z :=
  uargv <- on_usr (argaddr 1) ;;
  path <- on_usr (argstr 0 MAXPATH) ;;
  match path with
  | None => ret (-1)
  | Some path =>
      a <- exec_argv (Z.to_nat MAXARG) uargv 0 [] [] ;;
      let '(ok, pages, argv) := a in
      if negb ok then
        for_each pages (fun pg => on_kmem (kfree pg)) ;;
        ret (-1)
      else
        r <- exec path argv ;;
        for_each pages (fun pg => on_kmem (kfree pg)) ;;
        ret r
  end.

(** [p->ofile[fd0] = 0; p->ofile[fd1] = 0; fileclose(rf); fileclose(wf); return -1;] *)
Definition pipe_fail (fds : list nat) (rf wf : nat) : K filest Z :=
  for_each fds (fun fd => set_ofile fd None) ;;
  fileclose rf ;;
  fileclose wf ;;
  ret (-1).

Definition sys_pipe : K filest Z :=
  p <- curproc ;;
  fdarray <- on_usr (argaddr 0) ;;
  r <- pipealloc ;;
  match r with
  | None => ret (-1)
  | Some (rf, wf) =>
      fd0 <- fdalloc rf ;;
      match fd0 with
      | None => pipe_fail [] rf wf
      | Some fd0 =>
          fd1 <- fdalloc wf ;;
          match fd1 with
          | None => pipe_fail [fd0] rf wf
          | Some fd1 =>
              d <- on_usr (getpd p) ;;
              r <- on_kmem (copyout (uproc_of d) (pd_pagetable d) fdarray (le 4 (Z.of_nat fd0))) ;;
              if r <? 0 then pipe_fail [fd0; fd1] rf wf
              else
                r <- on_kmem (copyout (uproc_of d) (pd_pagetable d) (u64 (fdarray + 4)) (le 4 (Z.of_nat fd1))) ;;
                if r <? 0 then pipe_fail [fd0; fd1] rf wf
                else ret 0
          end
      end
  end.

End Sysfile.
