(* ===== verification/Virtio.v ===== *)
(** * kernel/virtio_disk.c: the disk driver

    The driver's data structures (kernel/virtio.h) and its operations.  DMA
    addresses are the objects they point to: the command header of a descriptor,
    the data of a buffer, a status byte.  The MMIO registers the driver reads at
    initialisation are a parameter, those it writes are recorded.

    The device is not part of the sources.  [device] states what the virtio
    specification (Section 5.2) documents for a block request: the device follows
    the chain of three descriptors, transfers the block between the disk and
    memory, stores 0 in the status byte and appends the head of the chain to the
    used ring. *)

From stdpp Require Import base gmap sets list strings.
From Stdlib Require Import ZArith Lia.
From S2P Require Import Prelude Kernel Riscv Kalloc Vm Sched Sleeplock Bytes Bio Log Usr.

(** ** Definitions *)

Definition NUM : Z := 8.
Abbreviation num := 8%nat.

Definition VRING_DESC_F_NEXT : Z := 1.
Definition VRING_DESC_F_WRITE : Z := 2.
Definition VIRTIO_BLK_T_IN : Z := 0.
Definition VIRTIO_BLK_T_OUT : Z := 1.

Definition VIRTIO_MMIO_MAGIC_VALUE : Z := 0x000.
Definition VIRTIO_MMIO_VERSION : Z := 0x004.
Definition VIRTIO_MMIO_DEVICE_ID : Z := 0x008.
Definition VIRTIO_MMIO_VENDOR_ID : Z := 0x00c.
Definition VIRTIO_MMIO_DEVICE_FEATURES : Z := 0x010.
Definition VIRTIO_MMIO_DRIVER_FEATURES : Z := 0x020.
Definition VIRTIO_MMIO_QUEUE_SEL : Z := 0x030.
Definition VIRTIO_MMIO_QUEUE_NUM_MAX : Z := 0x034.
Definition VIRTIO_MMIO_QUEUE_NUM : Z := 0x038.
Definition VIRTIO_MMIO_QUEUE_READY : Z := 0x044.
Definition VIRTIO_MMIO_QUEUE_NOTIFY : Z := 0x050.
Definition VIRTIO_MMIO_INTERRUPT_STATUS : Z := 0x060.
Definition VIRTIO_MMIO_INTERRUPT_ACK : Z := 0x064.
Definition VIRTIO_MMIO_STATUS : Z := 0x070.
Definition VIRTIO_MMIO_QUEUE_DESC_LOW : Z := 0x080.
Definition VIRTIO_MMIO_QUEUE_DESC_HIGH : Z := 0x084.
Definition VIRTIO_MMIO_DRIVER_DESC_LOW : Z := 0x090.
Definition VIRTIO_MMIO_DRIVER_DESC_HIGH : Z := 0x094.
Definition VIRTIO_MMIO_DEVICE_DESC_LOW : Z := 0x0a0.
Definition VIRTIO_MMIO_DEVICE_DESC_HIGH : Z := 0x0a4.

(** What a descriptor's address points to. *)
Inductive dma : Type :=
  | DmaNull
  | DmaOp (i : nat)        (* disk.ops[i] *)
  | DmaBuf (i : nat)       (* bcache.buf[i].data *)
  | DmaStatus (i : nat).   (* disk.info[i].status *)

Record virtq_desc : Type := Desc { vd_addr : dma; vd_len : Z; vd_flags : Z; vd_next : Z }.
Record virtio_blk_req : Type := Req { vr_type : Z; vr_reserved : Z; vr_sector : Z }.
Record vinfo : Type := Info { in_b : option nat; in_status : Z }.

(** [disk], [b->disk] of each buffer, the device's registers, and the buffer
    cache with the disk contents *)
Record vdisk : Type := Vdisk {
  v_bio : bio;
  v_desc : list virtq_desc;
  v_avail_ring : list Z;
  v_avail_idx : Z;
  v_used_ring : list Z;
  v_used_idx : Z;            (* disk.used->idx, written by the device *)
  v_free : list Z;
  v_seen : Z;                (* disk.used_idx *)
  v_info : list vinfo;
  v_ops : list virtio_blk_req;
  v_owned : list Z;          (* b->disk *)
  v_regs : list (Z * Z)      (* register writes, oldest first *)
}.

Definition set_v_bio (b : bio) (s : vdisk) : vdisk :=
  Vdisk b (v_desc s) (v_avail_ring s) (v_avail_idx s) (v_used_ring s) (v_used_idx s) (v_free s) (v_seen s) (v_info s) (v_ops s) (v_owned s) (v_regs s).
Definition set_v_desc (l : list virtq_desc) (s : vdisk) : vdisk :=
  Vdisk (v_bio s) l (v_avail_ring s) (v_avail_idx s) (v_used_ring s) (v_used_idx s) (v_free s) (v_seen s) (v_info s) (v_ops s) (v_owned s) (v_regs s).
Definition set_v_avail (l : list Z) (i : Z) (s : vdisk) : vdisk :=
  Vdisk (v_bio s) (v_desc s) l i (v_used_ring s) (v_used_idx s) (v_free s) (v_seen s) (v_info s) (v_ops s) (v_owned s) (v_regs s).
Definition set_v_used (l : list Z) (i : Z) (s : vdisk) : vdisk :=
  Vdisk (v_bio s) (v_desc s) (v_avail_ring s) (v_avail_idx s) l i (v_free s) (v_seen s) (v_info s) (v_ops s) (v_owned s) (v_regs s).
Definition set_v_free (l : list Z) (s : vdisk) : vdisk :=
  Vdisk (v_bio s) (v_desc s) (v_avail_ring s) (v_avail_idx s) (v_used_ring s) (v_used_idx s) l (v_seen s) (v_info s) (v_ops s) (v_owned s) (v_regs s).
Definition set_v_seen (i : Z) (s : vdisk) : vdisk :=
  Vdisk (v_bio s) (v_desc s) (v_avail_ring s) (v_avail_idx s) (v_used_ring s) (v_used_idx s) (v_free s) i (v_info s) (v_ops s) (v_owned s) (v_regs s).
Definition set_v_info (l : list vinfo) (s : vdisk) : vdisk :=
  Vdisk (v_bio s) (v_desc s) (v_avail_ring s) (v_avail_idx s) (v_used_ring s) (v_used_idx s) (v_free s) (v_seen s) l (v_ops s) (v_owned s) (v_regs s).
Definition set_v_ops (l : list virtio_blk_req) (s : vdisk) : vdisk :=
  Vdisk (v_bio s) (v_desc s) (v_avail_ring s) (v_avail_idx s) (v_used_ring s) (v_used_idx s) (v_free s) (v_seen s) (v_info s) l (v_owned s) (v_regs s).
Definition set_v_owned (l : list Z) (s : vdisk) : vdisk :=
  Vdisk (v_bio s) (v_desc s) (v_avail_ring s) (v_avail_idx s) (v_used_ring s) (v_used_idx s) (v_free s) (v_seen s) (v_info s) (v_ops s) l (v_regs s).
Definition add_v_reg (r v : Z) (s : vdisk) : vdisk :=
  Vdisk (v_bio s) (v_desc s) (v_avail_ring s) (v_avail_idx s) (v_used_ring s) (v_used_idx s) (v_free s) (v_seen s) (v_info s) (v_ops s) (v_owned s) (v_regs s ++ [(r, v)]).

(** [*R(r) = v] *)
Definition WriteR (r v : Z) : K vdisk unit := modify (add_v_reg r (u32 v)).

Definition upd_desc (i : Z) (f : virtq_desc -> virtq_desc) : K vdisk unit :=
  modify (fun s => set_v_desc (alter f (Z.to_nat i) (v_desc s)) s).
Definition get_desc (i : Z) : K vdisk virtq_desc :=
  fun e s => match v_desc s !! Z.to_nat i with
             | Some d => Ret d e s
             | None => Undef "descriptor index"
             end.
Definition upd_info (i : Z) (f : vinfo -> vinfo) : K vdisk unit :=
  modify (fun s => set_v_info (alter f (Z.to_nat i) (v_info s)) s).

(** [alloc_desc]: a descriptor, or -1. *)
Definition alloc_desc : K vdisk Z :=
  s <- get ;;
  match list_find (fun f => f <> 0) (v_free s) with
  | Some (i, _) =>
      modify (fun s => set_v_free (<[i := 0]> (v_free s)) s) ;;
      ret (Z.of_nat i)
  | None => ret (-1)
  end.

Definition free_desc (i : Z) : K vdisk unit :=
  if NUM <=? i then panic "free_desc 1"
  else
    s <- get ;;
    match v_free s !! Z.to_nat i with
    | None => undef "descriptor index"
    | Some f =>
        if truth f then panic "free_desc 2"
        else
          upd_desc i (fun _ => Desc DmaNull 0 0 0) ;;
          modify (fun s => set_v_free (<[Z.to_nat i := 1]> (v_free s)) s) ;;
          wakeup ChanDiskFree
    end.

(** [free_chain]; a chain has at most [NUM] descriptors. *)
Fixpoint free_chain (fuel : nat) (i : Z) : K vdisk unit :=
  match fuel with
  | O => undef "fuel"
  | S f =>
      d <- get_desc i ;;
      free_desc i ;;
      when (truth (Z.land (vd_flags d) VRING_DESC_F_NEXT)) (free_chain f (vd_next d))
  end.

(** [alloc3_desc]: the loop from [i = length idx] on; the three indices, or
    [None] for the result -1. *)
Fixpoint alloc3_loop (k : nat) (idx : list Z) : K vdisk (option (list Z)) :=
  match k with
  | O => ret (Some idx)
  | S k' =>
      i <- alloc_desc ;;
      if i <? 0 then
        for_each idx free_desc ;;
        ret None
      else alloc3_loop k' (idx ++ [i])
  end.

Definition alloc3_desc : K vdisk (option (list Z)) := alloc3_loop 3 [].

(** The part of [virtio_disk_rw] that formats the descriptors [i0], [i1], [i2] and
    hands the request to the device. *)
Definition submit (b : nat) (write : bool) (i0 i1 i2 : Z) : K vdisk unit :=
  s <- get ;;
  match bcache (v_bio s) !! b with
  | None => undef "buf"
  | Some x =>
      let sector := u32 (b_blockno x * (BSIZE / 512)) in
      modify (fun s => set_v_ops (<[Z.to_nat i0 := Req (if write then VIRTIO_BLK_T_OUT else VIRTIO_BLK_T_IN) 0 sector]> (v_ops s)) s) ;;
      upd_desc i0 (fun _ => Desc (DmaOp (Z.to_nat i0)) 16 VRING_DESC_F_NEXT i1) ;;
      upd_desc i1 (fun _ => Desc (DmaBuf b) BSIZE
                              (Z.lor (if write then 0 else VRING_DESC_F_WRITE) VRING_DESC_F_NEXT) i2) ;;
      upd_info i0 (fun x => Info (in_b x) 0xff) ;;
      upd_desc i2 (fun _ => Desc (DmaStatus (Z.to_nat i0)) 1 VRING_DESC_F_WRITE 0) ;;
      modify (fun s => set_v_owned (<[b := 1]> (v_owned s)) s) ;;
      upd_info i0 (fun x => Info (Some b) (in_status x)) ;;
      modify (fun s => set_v_avail (<[Z.to_nat (v_avail_idx s mod NUM) := i0]> (v_avail_ring s)) (v_avail_idx s) s) ;;
      modify (fun s => set_v_avail (v_avail_ring s) (u16 (v_avail_idx s + 1)) s) ;;
      WriteR VIRTIO_MMIO_QUEUE_NOTIFY 0
  end.

(** [while(b->disk == 1) sleep(b, &disk.vdisk_lock);] and what follows it *)
Definition rw_wait (b : nat) (i0 : Z) : K vdisk unit :=
  s <- get ;;
  if bool_decide (v_owned s !! b = Some 1) then sleep (ChanBuf b) VdiskLock
  else
    upd_info i0 (fun x => Info None (in_status x)) ;;
    free_chain num i0 ;;
    release VdiskLock.

(** The loop that allocates descriptors, and the rest of the call *)
Definition rw_alloc (b : nat) (write : bool) : K vdisk unit :=
  r <- alloc3_desc ;;
  match r with
  | Some [i0; i1; i2] =>
      submit b write i0 i1 i2 ;;
      rw_wait b i0
  | _ => sleep ChanDiskFree VdiskLock
  end.

Definition virtio_disk_rw (b : nat) (write : bool) : K vdisk unit :=
  acquire VdiskLock ;;
  rw_alloc b write.

(** The call after a sleep for descriptors, and after a sleep for the transfer. *)
Definition virtio_disk_rw_retry (b : nat) (write : bool) : K vdisk unit :=
  sleep_resume VdiskLock ;;
  rw_alloc b write.
Definition virtio_disk_rw_resume (b : nat) (i0 : Z) : K vdisk unit :=
  sleep_resume VdiskLock ;;
  rw_wait b i0.

(** The loop of [virtio_disk_intr]; each turn handles one used entry. *)
Fixpoint intr_loop (fuel : nat) : K vdisk unit :=
  s <- get ;;
  if v_seen s =? v_used_idx s then ret tt
  else
    match fuel with
    | O => undef "fuel"
    | S f =>
        match v_used_ring s !! Z.to_nat (v_seen s mod NUM) with
        | None => undef "used ring"
        | Some id =>
            match v_info s !! Z.to_nat id with
            | None => undef "info index"
            | Some x =>
                if negb (in_status x =? 0) then panic "virtio_disk_intr status"
                else
                  match in_b x with
                  | None => undef "null buf"
                  | Some b =>
                      modify (fun s => set_v_owned (<[b := 0]> (v_owned s)) s) ;;
                      wakeup (ChanBuf b) ;;
                      modify (fun s => set_v_seen (u16 (v_seen s + 1)) s) ;;
                      intr_loop f
                  end
            end
        end
    end.

Section Init.
Context {L : Linker}.
(** [*R(r)] at initialisation and in the interrupt handler *)
Context (ReadR : Z -> Z).

Definition virtio_disk_intr : K vdisk unit :=
  acquire VdiskLock ;;
  WriteR VIRTIO_MMIO_INTERRUPT_ACK (Z.land (ReadR VIRTIO_MMIO_INTERRUPT_STATUS) 0x3) ;;
  s <- get ;;
  intr_loop (Z.to_nat (u16 (v_used_idx s - v_seen s))) ;;
  release VdiskLock.

(** The driver with the allocator it takes its queues from. *)
Record vinit : Type := Vinit { vi_kmem : kmem; vi_disk : vdisk }.

#[export] Instance vinit_kmem : Part vinit kmem :=
  {| part_get := vi_kmem; part_put := fun k s => Vinit k (vi_disk s);
     part_get_put := fun _ _ => eq_refl;
     part_put_get := fun s => match s with Vinit _ _ => eq_refl end;
     part_put_put := fun _ _ _ => eq_refl |}.

#[export] Instance vinit_disk : Part vinit vdisk :=
  {| part_get := vi_disk; part_put := fun d s => Vinit (vi_kmem s) d;
     part_get_put := fun _ _ => eq_refl;
     part_put_get := fun s => match s with Vinit _ _ => eq_refl end;
     part_put_put := fun _ _ _ => eq_refl |}.

(** [features] with the bits the driver does not support cleared *)
Definition negotiated (features : Z) : Z :=
  foldl (fun f b => Z.land f (Z.lnot (Z.shiftl 1 b))) features [5; 7; 11; 12; 27; 29; 28].

Definition W (r v : Z) : K vinit unit := zoom (WriteR r v).

Definition virtio_disk_init : K vinit unit :=
  initlock VdiskLock ;;
  if negb (ReadR VIRTIO_MMIO_MAGIC_VALUE =? 0x74726976) || negb (ReadR VIRTIO_MMIO_VERSION =? 2) ||
     negb (ReadR VIRTIO_MMIO_DEVICE_ID =? 2) || negb (ReadR VIRTIO_MMIO_VENDOR_ID =? 0x554d4551)
  then panic "could not find virtio disk"
  else
    W VIRTIO_MMIO_STATUS 0 ;;
    W VIRTIO_MMIO_STATUS 1 ;;
    W VIRTIO_MMIO_STATUS 3 ;;
    W VIRTIO_MMIO_DRIVER_FEATURES (negotiated (ReadR VIRTIO_MMIO_DEVICE_FEATURES)) ;;
    W VIRTIO_MMIO_STATUS 11 ;;
    let status := ReadR VIRTIO_MMIO_STATUS in
    if negb (truth (Z.land status 8)) then panic "virtio disk FEATURES_OK unset"
    else
      W VIRTIO_MMIO_QUEUE_SEL 0 ;;
      if truth (ReadR VIRTIO_MMIO_QUEUE_READY) then panic "virtio disk should not be ready"
      else if ReadR VIRTIO_MMIO_QUEUE_NUM_MAX =? 0 then panic "virtio disk has no queue 0"
      else if ReadR VIRTIO_MMIO_QUEUE_NUM_MAX <? NUM then panic "virtio disk max queue too short"
      else
        desc <- zoom kalloc ;;
        avail <- zoom kalloc ;;
        used <- zoom kalloc ;;
        if (desc =? 0) || (avail =? 0) || (used =? 0) then panic "virtio disk kalloc"
        else
          zoom (fill_page desc 0) ;;
          zoom (fill_page avail 0) ;;
          zoom (fill_page used 0) ;;
          zoom (modify (fun s => set_v_used (replicate num 0) 0
                 (set_v_avail (replicate num 0) 0 (set_v_desc (replicate num (Desc DmaNull 0 0 0)) s))) : K vdisk unit) ;;
          W VIRTIO_MMIO_QUEUE_NUM NUM ;;
          W VIRTIO_MMIO_QUEUE_DESC_LOW desc ;;
          W VIRTIO_MMIO_QUEUE_DESC_HIGH (Z.shiftr desc 32) ;;
          W VIRTIO_MMIO_DRIVER_DESC_LOW avail ;;
          W VIRTIO_MMIO_DRIVER_DESC_HIGH (Z.shiftr avail 32) ;;
          W VIRTIO_MMIO_DEVICE_DESC_LOW used ;;
          W VIRTIO_MMIO_DEVICE_DESC_HIGH (Z.shiftr used 32) ;;
          W VIRTIO_MMIO_QUEUE_READY 1 ;;
          zoom (modify (fun s => set_v_free (replicate num 1) s) : K vdisk unit) ;;
          W VIRTIO_MMIO_STATUS (Z.lor status 4).

End Init.

(** ** The device *)

(** The device completes the request whose chain starts at [head]. *)
Definition device (head : nat) (s : vdisk) : option vdisk :=
  d0 ← v_desc s !! head;
  d1 ← v_desc s !! Z.to_nat (vd_next d0);
  d2 ← v_desc s !! Z.to_nat (vd_next d1);
  match vd_addr d0, vd_addr d1, vd_addr d2 with
  | DmaOp o, DmaBuf b, DmaStatus t =>
      r ← v_ops s !! o;
      x ← bcache (v_bio s) !! b;
      let blk := vr_sector r / 2 in
      let bio' := if vr_type r =? VIRTIO_BLK_T_OUT
                  then set_disk (v_bio s) (disk_put blk (b_data x) (bio_disk (v_bio s)))
                  else set_bcache (v_bio s) (alter (set_data (disk_get (bio_disk (v_bio s)) blk)) b (bcache (v_bio s))) in
      Some (set_v_used (<[Z.to_nat (v_used_idx s mod NUM) := Z.of_nat head]> (v_used_ring s)) (u16 (v_used_idx s + 1))
             (set_v_info (alter (fun y => Info (in_b y) 0) t (v_info s)) (set_v_bio bio' s)))
  | _, _, _ => None
  end.

(** ** Lemmas *)

(** The driver's tables have their sizes, a free flag is 0 or 1, and every used
    entry has been seen. *)
Record vok (s : vdisk) : Prop := Vok {
  vk_desc : length (v_desc s) = num;
  vk_avail : length (v_avail_ring s) = num;
  vk_used : length (v_used_ring s) = num;
  vk_free : length (v_free s) = num;
  vk_info : length (v_info s) = num;
  vk_ops : length (v_ops s) = num;
  vk_owned : length (v_owned s) = length (bcache (v_bio s));
  vk_flags : Forall (fun f => f = 0 \/ f = 1) (v_free s);
  vk_seen : v_seen s = v_used_idx s;
  vk_idx : 0 <= v_used_idx s < 2 ^ 16
}.

Definition nfree (l : list Z) : nat := length (filter (fun f => f <> 0) l).

Lemma first_free (l : list Z) : Forall (fun f => f = 0 \/ f = 1) l -> (1 <= nfree l)%nat ->
  exists i, list_find (fun f => f <> 0) l = Some (i, 1) /\ l !! i = Some 1 /\
            nfree (<[i := 0]> l) = (nfree l - 1)%nat /\ Forall (fun f => f = 0 \/ f = 1) (<[i := 0]> l).
Proof.
  intros Hf Hn. destruct (list_find (fun f => f <> 0) l) as [[i x]|] eqn:E.
  - destruct (proj1 (list_find_Some _ _ _ _) E) as (Hx & Hx0 & _).
    assert (x = 1) as -> by (destruct (proj1 (Forall_lookup _ _) Hf i x Hx); [by subst|done]).
    exists i. split; [done|]. split; [done|]. split; [|apply Forall_insert; auto].
    unfold nfree. rewrite <- (take_drop_middle l i 1 Hx) at 1 2.
    rewrite insert_app_r_alt by (rewrite length_take; lia).
    rewrite length_take_le by (apply Nat.lt_le_incl; by eapply lookup_lt_Some). rewrite Nat.sub_diag. simpl.
    rewrite !filter_app, !length_app, filter_cons_False, filter_cons_True by lia. simpl. lia.
  - exfalso. pose proof (proj1 (list_find_None _ _) E) as Hall. unfold nfree in Hn.
    assert (filter (fun f => f <> 0) l = []) as Hnil; [|rewrite Hnil in Hn; simpl in Hn; lia].
    clear -Hall. induction Hall as [|y l Hy _ IH]; [done|]. by rewrite filter_cons_False.
Qed.

Lemma alloc_desc_run e s i :
  list_find (fun f => f <> 0) (v_free s) = Some (i, 1) ->
  alloc_desc e s = Ret (Z.of_nat i) e (set_v_free (<[i := 0]> (v_free s)) s).
Proof. intros H. unfold alloc_desc. ksteps. rewrite H. by ksteps. Qed.

(** Three free descriptors are found, all different. *)
Lemma alloc3_desc_run e s : vok s -> (3 <= nfree (v_free s))%nat -> exists i0 i1 i2 : nat,
  alloc3_desc e s = Ret (Some [Z.of_nat i0; Z.of_nat i1; Z.of_nat i2]) e
                      (set_v_free (<[i2 := 0]> (<[i1 := 0]> (<[i0 := 0]> (v_free s)))) s) /\
  v_free s !! i0 = Some 1 /\ v_free s !! i1 = Some 1 /\ v_free s !! i2 = Some 1 /\
  i0 <> i1 /\ i0 <> i2 /\ i1 <> i2.
Proof.
  intros V Hn.
  destruct (first_free (v_free s) (vk_flags _ V) ltac:(lia)) as (i0 & E0 & L0 & N0 & F0).
  destruct (first_free _ F0 ltac:(lia)) as (i1 & E1 & L1 & N1 & F1).
  destruct (first_free _ F1 ltac:(lia)) as (i2 & E2 & L2 & N2 & F2).
  exists i0, i1, i2. unfold alloc3_desc. cbn [alloc3_loop app].
  rewrite (bind_step _ _ _ _ _ _ _ (alloc_desc_run e s i0 E0)).
  rewrite (proj2 (Z.ltb_ge _ _)) by lia.
  rewrite (bind_step _ _ _ _ _ _ _ (alloc_desc_run e (set_v_free (<[i0 := 0]> (v_free s)) s) i1 E1)).
  rewrite (proj2 (Z.ltb_ge _ _)) by lia.
  rewrite (bind_step _ _ _ _ _ _ _ (alloc_desc_run e (set_v_free (<[i1 := 0]> (<[i0 := 0]> (v_free s))) s) i2 E2)).
  rewrite (proj2 (Z.ltb_ge _ _)) by lia. split; [done|].
  apply list_lookup_insert_Some in L1 as [(<- & ? & _)|(? & L1)]; [lia|].
  apply list_lookup_insert_Some in L2 as [(<- & ? & _)|(? & L2)]; [lia|].
  apply list_lookup_insert_Some in L2 as [(<- & ? & _)|(? & L2)]; [lia|]. done.
Qed.

(** The state a submitted request leaves behind. *)
Definition chain (b : nat) (write : bool) (i0 i1 i2 : nat) (l : list virtq_desc) : list virtq_desc :=
  <[i2 := Desc (DmaStatus i0) 1 VRING_DESC_F_WRITE 0]>
    (<[i1 := Desc (DmaBuf b) BSIZE (Z.lor (if write then 0 else VRING_DESC_F_WRITE) VRING_DESC_F_NEXT) (Z.of_nat i2)]>
       (<[i0 := Desc (DmaOp i0) 16 VRING_DESC_F_NEXT (Z.of_nat i1)]> l)).

Definition submitted (b : nat) (write : bool) (x : buf) (i0 i1 i2 : nat) (s : vdisk) : vdisk :=
  Vdisk (v_bio s) (chain b write i0 i1 i2 (v_desc s))
    (<[Z.to_nat (v_avail_idx s mod NUM) := Z.of_nat i0]> (v_avail_ring s)) (u16 (v_avail_idx s + 1))
    (v_used_ring s) (v_used_idx s) (v_free s) (v_seen s)
    (<[i0 := Info (Some b) 0xff]> (v_info s))
    (<[i0 := Req (if write then VIRTIO_BLK_T_OUT else VIRTIO_BLK_T_IN) 0 (u32 (b_blockno x * (BSIZE / 512)))]> (v_ops s))
    (<[b := 1]> (v_owned s)) (v_regs s ++ [(VIRTIO_MMIO_QUEUE_NOTIFY, u32 0)]).

Lemma alter_const {A} (v : A) i (l : list A) : alter (fun _ => v) i l = <[i := v]> l.
Proof.
  apply list_eq. intros j. destruct (decide (i = j)) as [<-|Hne].
  - destruct (l !! i) as [x|] eqn:E.
    + rewrite list_lookup_alter_eq, E, list_lookup_insert_eq by (by eapply lookup_lt_Some). done.
    + rewrite list_lookup_alter_eq, E. symmetry. apply lookup_ge_None. rewrite length_insert. by apply lookup_ge_None.
  - by rewrite list_lookup_alter_ne, list_lookup_insert_ne.
Qed.

Lemma submit_run e s b write x i0 i1 i2 y :
  bcache (v_bio s) !! b = Some x -> v_info s !! i0 = Some y ->
  submit b write (Z.of_nat i0) (Z.of_nat i1) (Z.of_nat i2) e s = Ret tt e (submitted b write x i0 i1 i2 s).
Proof.
  intros Hb Hy. unfold submit. ksteps. rewrite Hb. unfold upd_desc, upd_info, WriteR. ksteps.
  unfold modify, submitted, chain. f_equal. cbn. rewrite !Nat2Z.id, !alter_const, alter_alter.
  by rewrite (alter_insert _ _ _ y Hy).
Qed.

(** What the device does with a submitted request: the effect of [disk_rw] on the
    disk and the buffer, status 0, and a used entry. *)
Definition transferred (b : nat) (write : bool) (x : buf) (s : bio) : bio :=
  if write then set_disk s (disk_put (b_blockno x) (b_data x) (bio_disk s))
  else set_bcache s (alter (set_data (disk_get (bio_disk s) (b_blockno x))) b (bcache s)).

Lemma disk_rw_run b write x e s : bcache s !! b = Some x ->
  disk_rw b write e s = Ret tt e (transferred b write x s).
Proof.
  intros Hx. unfold disk_rw, transferred.
  rewrite (bind_step (getb b) _ e s x e s) by (unfold getb; by rewrite Hx). by destruct write.
Qed.

Definition completed (b : nat) (write : bool) (x : buf) (i0 : nat) (s : vdisk) : vdisk :=
  set_v_used (<[Z.to_nat (v_used_idx s mod NUM) := Z.of_nat i0]> (v_used_ring s)) (u16 (v_used_idx s + 1))
    (set_v_info (<[i0 := Info (Some b) 0]> (v_info s)) (set_v_bio (transferred b write x (v_bio s)) s)).

Lemma sector_block n : 0 <= n < 2 ^ 31 -> u32 (n * (BSIZE / 512)) / 2 = n.
Proof.
  intros Hn. change (BSIZE / 512) with 2. unfold uint_wrap. rewrite Z.mod_small by lia. by rewrite Z.div_mul.
Qed.

Lemma chain_lookup b write i0 i1 i2 l : length l = num -> (i0 < num)%nat -> (i1 < num)%nat -> (i2 < num)%nat ->
  i0 <> i1 -> i0 <> i2 -> i1 <> i2 ->
  chain b write i0 i1 i2 l !! i0 = Some (Desc (DmaOp i0) 16 VRING_DESC_F_NEXT (Z.of_nat i1)) /\
  chain b write i0 i1 i2 l !! i1 =
    Some (Desc (DmaBuf b) BSIZE (Z.lor (if write then 0 else VRING_DESC_F_WRITE) VRING_DESC_F_NEXT) (Z.of_nat i2)) /\
  chain b write i0 i1 i2 l !! i2 = Some (Desc (DmaStatus i0) 1 VRING_DESC_F_WRITE 0).
Proof.
  intros Hl H0 H1 H2 N01 N02 N12. unfold chain. split; [|split].
  - rewrite !list_lookup_insert_ne by done. rewrite list_lookup_insert_eq by lia. done.
  - rewrite list_lookup_insert_ne by done. rewrite list_lookup_insert_eq; [done|]. rewrite length_insert. lia.
  - rewrite list_lookup_insert_eq; [done|]. rewrite !length_insert. lia.
Qed.

Lemma device_run s b write x i0 i1 i2 : vok s ->
  bcache (v_bio s) !! b = Some x -> 0 <= b_blockno x < 2 ^ 31 ->
  (i0 < num)%nat -> (i1 < num)%nat -> (i2 < num)%nat -> i0 <> i1 -> i0 <> i2 -> i1 <> i2 ->
  device i0 (submitted b write x i0 i1 i2 s) = Some (completed b write x i0 (submitted b write x i0 i1 i2 s)).
Proof.
  intros V Hx Hn H0 H1 H2 N01 N02 N12.
  destruct (chain_lookup b write i0 i1 i2 (v_desc s) (vk_desc _ V) H0 H1 H2 N01 N02 N12) as (C0 & C1 & C2).
  unfold device. cbn [submitted v_desc v_ops v_bio]. rewrite C0. cbn. rewrite Nat2Z.id, C1. cbn.
  rewrite Nat2Z.id, C2. cbn. rewrite list_lookup_insert_eq by (rewrite (vk_ops _ V); done). cbn [mbind option_bind].
  rewrite Hx. cbn [mbind option_bind vr_sector vr_type]. rewrite sector_block by done.
  rewrite (alter_insert _ _ _ (Info (Some b) 0xff)) by (rewrite list_lookup_insert_eq; [done|rewrite (vk_info _ V); done]).
  by destruct write.
Qed.

(** Handling the interrupt of one completed request. *)
Lemma intr_loop_one e s id b : v_used_idx s = u16 (v_seen s + 1) -> 0 <= v_seen s < 2 ^ 16 ->
  v_used_ring s !! Z.to_nat (v_seen s mod NUM) = Some (Z.of_nat id) -> v_info s !! id = Some (Info (Some b) 0) ->
  procs_ok e -> procs_free e ->
  intr_loop 1 e s = Ret tt (set_procs e (wake_all (cproc e) (ChanBuf b) (procs e)))
                      (set_v_seen (v_used_idx s) (set_v_owned (<[b := 0]> (v_owned s)) s)).
Proof.
  intros Hu Hs Hr Hi Hok Hfr. cbn [intr_loop]. ksteps. rewrite (proj2 (Z.eqb_neq _ _)).
  2: { rewrite Hu. unfold uint_wrap. destruct (decide (v_seen s = 2 ^ 16 - 1)) as [->|]; [by vm_compute|].
       rewrite Z.mod_small by lia. lia. }
  rewrite Hr, Nat2Z.id, Hi. cbn [in_status in_b]. change (negb (0 =? 0)) with false. ksteps.
  rewrite (bind_step _ _ _ _ _ _ _ (wakeup_run (ChanBuf b) e _ Hok Hfr)). ksteps. cbn [intr_loop].
  ksteps. cbn [v_seen v_used_idx set_v_seen set_v_owned]. rewrite <- Hu, Z.eqb_refl. done.
Qed.

(** Freeing descriptors wakes up the processes waiting for one; the rest of the
    environment stays. *)
Definition same_cpu (e e' : env) : Prop := held e' = held e /\ cproc e' = cproc e /\ procs_ok e'.

Lemma free_desc_run e s i : (i < num)%nat -> v_free s !! i = Some 0 -> procs_ok e -> procs_free e ->
  exists e', free_desc (Z.of_nat i) e s = Ret tt e'
    (set_v_free (<[i := 1]> (v_free s)) (set_v_desc (<[i := Desc DmaNull 0 0 0]> (v_desc s)) s)) /\ same_cpu e e'.
Proof.
  intros Hi Hf Hok Hfr. exists (set_procs e (wake_all (cproc e) ChanDiskFree (procs e))). split.
  - unfold free_desc. rewrite (proj2 (Z.leb_gt _ _)) by (unfold NUM; lia). ksteps. rewrite Nat2Z.id, Hf.
    change (truth 0) with false. unfold upd_desc. ksteps. rewrite wakeup_run by done. cbn. by rewrite Nat2Z.id, alter_const.
  - split; [done|]. split; [done|]. unfold procs_ok. cbn. unfold wake_all. by rewrite length_imap.
Qed.

Lemma same_cpu_free e e' : same_cpu e e' -> procs_free e -> procs_free e'.
Proof. intros (Hh & Hc & _) H i Hi. rewrite Hh. apply H. by rewrite <- Hc. Qed.

Lemma same_cpu_trans e e' e'' : same_cpu e e' -> same_cpu e' e'' -> same_cpu e e''.
Proof. intros (? & ? & ?) (? & ? & ?). split; [congruence|]. split; [congruence|done]. Qed.

(** One step of [free_chain]. *)
Lemma free_chain_step fuel e s i d : (i < num)%nat -> v_free s !! i = Some 0 -> v_desc s !! i = Some d ->
  procs_ok e -> procs_free e -> exists e', same_cpu e e' /\
  free_chain (S fuel) (Z.of_nat i) e s =
    when (truth (Z.land (vd_flags d) VRING_DESC_F_NEXT)) (free_chain fuel (vd_next d)) e'
      (set_v_free (<[i := 1]> (v_free s)) (set_v_desc (<[i := Desc DmaNull 0 0 0]> (v_desc s)) s)).
Proof.
  intros Hi Hf Hd Hok Hfr. destruct (free_desc_run e s i Hi Hf Hok Hfr) as (e' & E & Hs).
  exists e'. split; [done|]. cbn [free_chain].
  rewrite (bind_step (get_desc (Z.of_nat i)) _ e s d e s) by (unfold get_desc; by rewrite Nat2Z.id, Hd).
  by rewrite (bind_step _ _ _ _ _ _ _ E).
Qed.

Lemma next_flag (write : bool) :
  truth (Z.land (Z.lor (if write then 0 else VRING_DESC_F_WRITE) VRING_DESC_F_NEXT) VRING_DESC_F_NEXT) = true.
Proof. by destruct write. Qed.

Lemma free_chain_run e s b write i0 i1 i2 l : v_desc s = chain b write i0 i1 i2 l -> length l = num ->
  (i0 < num)%nat -> (i1 < num)%nat -> (i2 < num)%nat -> i0 <> i1 -> i0 <> i2 -> i1 <> i2 ->
  v_free s !! i0 = Some 0 -> v_free s !! i1 = Some 0 -> v_free s !! i2 = Some 0 ->
  procs_ok e -> procs_free e -> exists e' l', same_cpu e e' /\ length l' = num /\
  free_chain num (Z.of_nat i0) e s =
    Ret tt e' (set_v_free (<[i2 := 1]> (<[i1 := 1]> (<[i0 := 1]> (v_free s)))) (set_v_desc l' s)).
Proof.
  intros Hd Hl H0 H1 H2 N01 N02 N12 F0 F1 F2 Hok Hfr.
  destruct (chain_lookup b write i0 i1 i2 l Hl H0 H1 H2 N01 N02 N12) as (C0 & C1 & C2). rewrite <- Hd in C0, C1, C2.
  assert (Hdl : length (v_desc s) = num) by (rewrite Hd; unfold chain; by rewrite !length_insert).
  destruct (free_chain_step 7 e s i0 _ H0 F0 C0 Hok Hfr) as (e1 & S1 & ->). cbn [vd_flags vd_next].
  change (truth (Z.land VRING_DESC_F_NEXT VRING_DESC_F_NEXT)) with true. ksteps. set (s1 := set_v_free _ _).
  destruct (free_chain_step 6 e1 s1 i1 _ H1
              ltac:(unfold s1; cbn; rewrite list_lookup_insert_ne by done; exact F1)
              ltac:(unfold s1; cbn; rewrite list_lookup_insert_ne by done; exact C1)
              (proj2 (proj2 S1)) (same_cpu_free _ _ S1 Hfr)) as (e2 & S2 & ->). cbn [vd_flags vd_next].
  rewrite next_flag. ksteps. set (s2 := set_v_free (<[i1 := 1]> _) _).
  pose proof (same_cpu_trans _ _ _ S1 S2) as S02.
  destruct (free_chain_step 5 e2 s2 i2 _ H2
              ltac:(unfold s2, s1; cbn; rewrite !list_lookup_insert_ne by done; exact F2)
              ltac:(unfold s2, s1; cbn; rewrite !list_lookup_insert_ne by done; exact C2)
              (proj2 (proj2 S2)) (same_cpu_free _ _ S02 Hfr)) as (e3 & S3 & ->). cbn [vd_flags vd_next].
  change (truth (Z.land VRING_DESC_F_WRITE VRING_DESC_F_NEXT)) with false. ksteps.
  exists e3, (v_desc (set_v_desc (<[i2 := Desc DmaNull 0 0 0]> (v_desc s2)) s2)). split; [by apply (same_cpu_trans _ e2)|].
  split; [|done]. unfold s2, s1. cbn. by rewrite !length_insert.
Qed.

(** Taking three flags and giving them back restores the table. *)
Lemma flags_restored (l : list Z) i0 i1 i2 : l !! i0 = Some 1 -> l !! i1 = Some 1 -> l !! i2 = Some 1 ->
  <[i2 := 1]> (<[i1 := 1]> (<[i0 := 1]> (<[i2 := 0]> (<[i1 := 0]> (<[i0 := 0]> l))))) = l.
Proof.
  intros L0 L1 L2. apply list_eq. intros j.
  pose proof (lookup_lt_Some _ _ _ L0). pose proof (lookup_lt_Some _ _ _ L1). pose proof (lookup_lt_Some _ _ _ L2).
  destruct (decide (j = i2)) as [->|]; [rewrite list_lookup_insert_eq; [done|rewrite !length_insert; done]|].
  rewrite (list_lookup_insert_ne _ i2) by done.
  destruct (decide (j = i1)) as [->|]; [rewrite list_lookup_insert_eq; [done|rewrite !length_insert; done]|].
  rewrite (list_lookup_insert_ne _ i1) by done.
  destruct (decide (j = i0)) as [->|]; [rewrite list_lookup_insert_eq; [done|rewrite !length_insert; done]|].
  by rewrite !list_lookup_insert_ne by done.
Qed.

(** A request is submitted, and the process sleeps on its buffer. *)
Lemma virtio_disk_rw_submit e p q s b x write : vok s -> (3 <= nfree (v_free s))%nat ->
  bcache (v_bio s) !! b = Some x -> cproc e = Some p -> procs e !! p = Some q -> held e = ∅ ->
  exists i0 i1 i2 : nat, let s0 := set_v_free (<[i2 := 0]> (<[i1 := 0]> (<[i0 := 0]> (v_free s)))) s in
  v_free s !! i0 = Some 1 /\ v_free s !! i1 = Some 1 /\ v_free s !! i2 = Some 1 /\
  i0 <> i1 /\ i0 <> i2 /\ i1 <> i2 /\
  virtio_disk_rw b write e s =
    Block (set_procs (set_held e {[ProcLock p]}) (alter (asleep (ChanBuf b)) p (procs e))) (submitted b write x i0 i1 i2 s0).
Proof.
  intros V Hn Hx Hc Hq Hh.
  destruct (alloc3_desc_run (locked VdiskLock e) s V Hn) as (i0 & i1 & i2 & E & L0 & L1 & L2 & N01 & N02 & N12).
  exists i0, i1, i2. cbn zeta. do 6 (split; [done|]). set (s0 := set_v_free _ s) in *.
  assert (Hi : (i0 < num)%nat) by (rewrite <- (vk_free _ V); by eapply lookup_lt_Some).
  destruct (lookup_lt_is_Some_2 (v_info s) i0 ltac:(rewrite (vk_info _ V); done)) as [y Hy].
  unfold virtio_disk_rw. rewrite (bind_step _ _ _ _ _ _ _ (acquire_free VdiskLock e s ltac:(rewrite Hh; set_solver))).
  unfold rw_alloc. rewrite (bind_step _ _ _ _ _ _ _ E).
  rewrite (bind_step _ _ _ _ _ _ _ (submit_run _ s0 b write x i0 i1 i2 y Hx Hy)).
  unfold rw_wait. ksteps. rewrite bool_decide_eq_true_2.
  2: { cbn. rewrite list_lookup_insert_eq; [done|]. rewrite (vk_owned _ V). by eapply lookup_lt_Some. }
  rewrite (sleep_run p q) by (done || (cbn; rewrite Hh; set_solver)). done.
Qed.

Lemma intr_fuel u : 0 <= u < 2 ^ 16 -> u16 (u16 (u + 1) - u) = 1.
Proof.
  intros Hu. unfold uint_wrap. destruct (decide (u = 2 ^ 16 - 1)) as [->|]; [done|].
  rewrite (Z.mod_small (u + 1)) by lia. replace (u + 1 - u) with 1 by lia. done.
Qed.

(** The interrupt handler, between two processes, after the device completed the
    only outstanding entry. *)
Lemma virtio_disk_intr_run ReadR e s b id : v_used_idx s = u16 (v_seen s + 1) -> 0 <= v_seen s < 2 ^ 16 ->
  v_used_ring s !! Z.to_nat (v_seen s mod NUM) = Some (Z.of_nat id) -> v_info s !! id = Some (Info (Some b) 0) ->
  procs_ok e -> held e = ∅ -> exists regs,
  virtio_disk_intr ReadR e s =
    Ret tt (set_procs e (wake_all (cproc e) (ChanBuf b) (procs e)))
      (Vdisk (v_bio s) (v_desc s) (v_avail_ring s) (v_avail_idx s) (v_used_ring s) (v_used_idx s) (v_free s)
         (v_used_idx s) (v_info s) (v_ops s) (<[b := 0]> (v_owned s)) regs).
Proof.
  intros Hu Hs Hr Hi Hok Hh. eexists. unfold virtio_disk_intr.
  rewrite (bind_step _ _ _ _ _ _ _ (acquire_free VdiskLock e s ltac:(rewrite Hh; set_solver))).
  unfold WriteR. ksteps. set (s1 := add_v_reg _ _ _). change (v_used_idx s1) with (v_used_idx s).
  change (v_seen s1) with (v_seen s). rewrite Hu, intr_fuel by done. change (Z.to_nat 1) with 1%nat.
  rewrite (bind_step _ _ _ _ _ _ _ (intr_loop_one (locked VdiskLock e) s1 id b Hu Hs Hr Hi Hok
             ltac:(intros i _; cbn; rewrite Hh; set_solver))).
  cbn [cproc locked set_held procs]. fold (locked VdiskLock e).
  rewrite <- locked_set_procs, release_locked by (cbn; rewrite Hh; set_solver). rewrite <- Hu. done.
Qed.

Lemma woken_asleep p chan ps q : ps !! p = Some q ->
  wake_all None chan (alter (asleep chan) p ps) !! p = Some (set_state RUNNABLE (asleep chan q)).
Proof.
  intros Hq. unfold wake_all. rewrite list_lookup_imap, list_lookup_alter_eq, Hq. cbn [fmap option_fmap option_map].
  rewrite bool_decide_eq_false_2 by done. unfold woken, asleep. cbn [p_state p_chan set_state set_chan].
  by rewrite !bool_decide_eq_true_2.
Qed.

(** The resumed request: its descriptors are returned. *)
Lemma virtio_disk_rw_finish e p s b write i0 i1 i2 l : cproc e = Some p -> held e = {[ProcLock p]} -> procs_ok e ->
  v_desc s = chain b write i0 i1 i2 l -> length l = num ->
  (i0 < num)%nat -> (i1 < num)%nat -> (i2 < num)%nat -> i0 <> i1 -> i0 <> i2 -> i1 <> i2 ->
  v_free s !! i0 = Some 0 -> v_free s !! i1 = Some 0 -> v_free s !! i2 = Some 0 -> v_owned s !! b = Some 0 ->
  exists e' s', virtio_disk_rw_resume b (Z.of_nat i0) e s = Ret tt e' s' /\ held e' = ∅ /\ cproc e' = Some p /\
    length (v_desc s') = num /\
    s' = Vdisk (v_bio s) (v_desc s') (v_avail_ring s) (v_avail_idx s) (v_used_ring s) (v_used_idx s)
           (<[i2 := 1]> (<[i1 := 1]> (<[i0 := 1]> (v_free s)))) (v_seen s)
           (alter (fun x => Info None (in_status x)) i0 (v_info s)) (v_ops s) (v_owned s) (v_regs s).
Proof.
  intros Hc Hh Hok Hd Hl H0 H1 H2 N01 N02 N12 F0 F1 F2 Ho. unfold virtio_disk_rw_resume.
  rewrite (bind_step _ _ _ _ _ _ _ (sleep_resume_run p VdiskLock e s Hc Hh ltac:(done))).
  unfold rw_wait. ksteps. rewrite bool_decide_eq_false_2 by (rewrite Ho; done). unfold upd_info. ksteps.
  rewrite Nat2Z.id. set (s1 := set_v_info _ _). set (e1 := set_procs _ _).
  assert (Hok1 : procs_ok e1) by (unfold procs_ok, e1; cbn; by rewrite length_alter).
  assert (Hfr : procs_free e1) by (intros i _; unfold e1; cbn; set_solver).
  destruct (free_chain_run e1 s1 b write i0 i1 i2 l Hd Hl H0 H1 H2 N01 N02 N12 F0 F1 F2 Hok1 Hfr)
    as (e2 & l2 & (Eh & Ec & _) & Hl2 & ->%(bind_step _ (fun _ => release VdiskLock))).
  exists (set_held e2 ∅). eexists. split.
  - unfold release. rewrite Eh. unfold e1. cbn [held set_procs set_held]. rewrite bool_decide_eq_true_2 by set_solver.
    replace ({[VdiskLock]} ∖ {[VdiskLock]} : gset lock) with (∅ : gset lock) by set_solver. done.
  - split; [done|]. split; [by cbn; rewrite Ec|]. split; [exact Hl2|done].
Qed.

Lemma ring_slot i : (Z.to_nat (i mod NUM) < num)%nat.
Proof. pose proof (Z.mod_pos_bound i NUM ltac:(done)). unfold NUM in *. lia. Qed.

Lemma vok_taken s i0 i1 i2 : vok s -> vok (set_v_free (<[i2 := 0]> (<[i1 := 0]> (<[i0 := 0]> (v_free s)))) s).
Proof.
  intros []. split; try done; cbn; [by rewrite !length_insert|]. repeat apply Forall_insert; auto.
Qed.

Lemma taken_lookup (l : list Z) i0 i1 i2 i : l !! i = Some 1 -> i = i0 \/ i = i1 \/ i = i2 ->
  <[i2 := 0]> (<[i1 := 0]> (<[i0 := 0]> l)) !! i = Some 0.
Proof.
  intros Hi Hor. pose proof (lookup_lt_Some _ _ _ Hi).
  destruct (decide (i = i2)) as [->|]; [rewrite list_lookup_insert_eq; [done|rewrite !length_insert; done]|].
  rewrite (list_lookup_insert_ne _ i2) by done.
  destruct (decide (i = i1)) as [->|]; [rewrite list_lookup_insert_eq; [done|rewrite !length_insert; done]|].
  rewrite (list_lookup_insert_ne _ i1) by done. assert (i = i0) as -> by tauto. by rewrite list_lookup_insert_eq.
Qed.

Lemma scheduler_back_run {T} p e ps (t : T) :
  scheduler_back p (set_procs (set_held e {[ProcLock p]}) ps) t = Ret tt (Env ∅ ps None (nextpid e) (initproc e)) t.
Proof.
  unfold scheduler_back, modify_env, bind, release. cbn. rewrite bool_decide_eq_true_2 by set_solver.
  replace ({[ProcLock p]} ∖ {[ProcLock p]} : gset lock) with (∅ : gset lock) by set_solver. done.
Qed.

Lemma transferred_length b write x s : length (bcache (transferred b write x s)) = length (bcache s).
Proof. destruct write; [done|]. cbn. by rewrite length_alter. Qed.


(** ** Witness *)

Definition demo_vdisk : vdisk :=
  Vdisk (Bio [Buf 1 1 5 1 0 0 (replicate bsize 3)] ∅ demo_disk)
    (replicate num (Desc DmaNull 0 0 0)) (replicate num 0) 65535 (replicate num 0) 65535 [0; 1; 0; 0; 1; 0; 1; 0] 65535
    (replicate num (Info None 0)) (replicate num (Req 0 0 0)) [0] [].

