(* ===== verification/Syscall.v ===== *)
(** * kernel/sysproc.c and kernel/syscall.c

    The handlers of the process, time, semaphore and shared-memory system calls,
    and the dispatcher.  [kst] is the state of the kernel above the file layer:
    the semaphores, the shared page and the tick counter.

    A handler that sleeps ends its run with [Block]; the continuation of
    [sys_sleep] is [sys_sleep_resume]. *)

From stdpp Require Import base gmap sets list strings.
From Stdlib Require Import ZArith Lia.
From S2P Require Import Prelude Kernel Riscv Kalloc Vm Sched Sem Shm Sleeplock Bytes Bio Log Usr Fs Pipe Uart Console File Proc Exec Sysfile.

(** ** Definitions *)

Record kst : Type := Kst {
  k_file : filest;
  k_sems : semaphores;
  k_page : Z;
  k_allocated : Z;
  k_ticks : Z
}.

#[export] Instance kst_file : Part kst filest :=
  {| part_get := k_file;
     part_put := fun x s => Kst x (k_sems s) (k_page s) (k_allocated s) (k_ticks s);
     part_get_put := fun _ _ => eq_refl;
     part_put_get := fun s => match s with Kst _ _ _ _ _ => eq_refl end;
     part_put_put := fun _ _ _ => eq_refl |}.

#[export] Instance kst_sems : Part kst semaphores :=
  {| part_get := k_sems;
     part_put := fun x s => Kst (k_file s) x (k_page s) (k_allocated s) (k_ticks s);
     part_get_put := fun _ _ => eq_refl;
     part_put_get := fun s => match s with Kst _ _ _ _ _ => eq_refl end;
     part_put_put := fun _ _ _ => eq_refl |}.

#[export] Instance kst_usr : Part kst usr :=
  {| part_get := fun s => part_get (k_file s);
     part_put := fun u s => Kst (part_put u (k_file s)) (k_sems s) (k_page s) (k_allocated s) (k_ticks s);
     part_get_put := fun _ _ => eq_refl;
     part_put_get := fun s => match s with Kst (Filest (Fs _ _ _ _ _) _ _ _ _) _ _ _ _ => eq_refl end;
     part_put_put := fun _ _ _ => eq_refl |}.

Definition file_kmem (s : filest) : kmem := u_kmem (fs_usr (fl_fs s)).
Definition with_kmem (k : kmem) (s : filest) : filest :=
  part_put (Usr k (u_pd (fs_usr (fl_fs s)))) s.

#[export] Instance kst_shm : Part kst shm :=
  {| part_get := fun s => Shm (file_kmem (k_file s)) (k_page s) (k_allocated s);
     part_put := fun x s => Kst (with_kmem (shm_kmem x) (k_file s)) (k_sems s) (shared_page x) (allocated x) (k_ticks s);
     part_get_put := fun x s => match x with Shm _ _ _ => eq_refl end;
     part_put_get := fun s => match s with Kst (Filest (Fs (Usr _ _) _ _ _ _) _ _ _ _) _ _ _ _ => eq_refl end;
     part_put_put := fun _ _ _ => eq_refl |}.

Definition set_ticks (n : Z) (s : kst) : kst := Kst (k_file s) (k_sems s) (k_page s) (k_allocated s) n.

Definition in_file {A} (m : K filest A) : K kst A := zoom m.
Definition in_usr {A} (m : K usr A) : K kst A := zoom m.
Definition in_sem {A} (m : K semaphores A) : K kst A := zoom m.
Definition in_shm {A} (m : K shm A) : K kst A := zoom m.

Section Syscall.
Context {L : Linker}.
(** The padding bytes of the [struct stat] on [filestat]'s stack. *)
Context (pad : list Z).

Definition sys_exit : K kst Z :=
  n <- in_usr (argint 0) ;;
  in_file (exit n) ;;
  ret 0.

Definition sys_getpid : K kst Z :=
  p <- curproc ;;
  q <- getp p ;;
  ret (p_pid q).

Definition sys_fork : K kst Z := in_file fork.

Definition sys_wait : K kst Z :=
  p <- in_usr (argaddr 0) ;;
  in_file (wait p).

(** [-n] is an [int] operation; for [n = INT_MIN] it overflows. *)
Definition sys_sbrk : K kst Z :=
  n <- in_usr (argint 0) ;;
  p <- curproc ;;
  d <- in_usr (getpd p) ;;
  let addr := pd_sz d in
  if n <? 0 then
    r <- in_file (shrinkproc (i32 (- n))) ;;
    if r <? 0 then ret (-1) else ret addr
  else
    in_usr (updpd p (fun d => set_pd_sz (u64 (pd_sz d + n)) d)) ;;
    ret addr.

(** [while(ticks - ticks0 < n)], a comparison of unsigned 32-bit integers, and
    what follows the loop. *)
Definition sleep_loop (n ticks0 : Z) : K kst Z :=
  ticks <- gets k_ticks ;;
  if u32 (ticks - ticks0) <? n then
    p <- curproc ;;
    k <- killed p ;;
    if truth k then
      release TicksLock ;;
      ret (-1)
    else
      sleep ChanTicks TicksLock ;;
      ret 0
  else
    release TicksLock ;;
    ret 0.

Definition sys_sleep : K kst Z :=
  n <- in_usr (argint 0) ;;
  acquire TicksLock ;;
  ticks0 <- gets k_ticks ;;
  sleep_loop (Z.max n 0) ticks0.

Definition sys_sleep_resume (n ticks0 : Z) : K kst Z :=
  sleep_resume TicksLock ;;
  sleep_loop n ticks0.

Definition sys_kill : K kst Z :=
  pid <- in_usr (argint 0) ;;
  kill pid.

Definition sys_uptime : K kst Z :=
  acquire TicksLock ;;
  xticks <- gets k_ticks ;;
  release TicksLock ;;
  ret xticks.

Definition sys_sem_init : K kst Z :=
  sem_id <- in_usr (argint 0) ;;
  val <- in_usr (argint 1) ;;
  in_sem (sem_init sem_id val).

Definition sys_sem_down : K kst Z :=
  sem_id <- in_usr (argint 0) ;;
  in_sem (sem_down sem_id).

Definition sys_sem_up : K kst Z :=
  sem_id <- in_usr (argint 0) ;;
  in_sem (sem_up sem_id).

Definition sys_shm_get : K kst Z :=
  p <- curproc ;;
  key <- in_usr (argint 0) ;;
  d <- in_usr (getpd p) ;;
  in_shm (shm_get (pd_pagetable d) key).

(** [syscalls[num]]: the slots 1 to 25 are all filled. *)
Definition syscalls (num : Z) : option (K kst Z) :=
  match num with
  | 1 => Some sys_fork
  | 2 => Some sys_exit
  | 3 => Some sys_wait
  | 4 => Some (in_file sys_pipe)
  | 5 => Some (in_file sys_read)
  | 6 => Some sys_kill
  | 7 => Some (in_file sys_exec)
  | 8 => Some (in_file (sys_fstat pad))
  | 9 => Some (in_file sys_chdir)
  | 10 => Some (in_file sys_dup)
  | 11 => Some sys_getpid
  | 12 => Some sys_sbrk
  | 13 => Some sys_sleep
  | 14 => Some sys_uptime
  | 15 => Some (in_file sys_open)
  | 16 => Some (in_file sys_write)
  | 17 => Some (in_file sys_mknod)
  | 18 => Some (in_file sys_unlink)
  | 19 => Some (in_file sys_link)
  | 20 => Some (in_file sys_mkdir)
  | 21 => Some (in_file sys_close)
  | 22 => Some sys_sem_init
  | 23 => Some sys_sem_down
  | 24 => Some sys_sem_up
  | 25 => Some sys_shm_get
  | _ => None
  end.

Definition syscall : K kst unit :=
  p <- curproc ;;
  a7 <- in_usr (tf_load p (tf_a 7)) ;;
  let num := i32 a7 in
  match (if 0 <? num then syscalls num else None) with
  | Some f =>
      r <- f ;;
      in_usr (tf_store p (tf_a 0) (u64 r))
  | None =>
      printk ;;
      in_usr (tf_store p (tf_a 0) (u64 (-1)))
  end.

End Syscall.

(** ** Lemmas *)

Definition kpd (s : kst) : list pdata := u_pd (fs_usr (fl_fs (k_file s))).
Definition kmem_of (s : kst) : mem := kmem_mem (file_kmem (k_file s)).

Lemma kst_argint p d n e s : cproc e = Some p -> kpd s !! p = Some d -> 0 <= n <= 5 ->
  in_usr (argint n) e s = Ret (i32 (load64 (kmem_of s) (pd_trapframe d + tf_a n))) e s.
Proof.
  intros Hc Hd Hn. unfold in_usr, zoom. cbn. unfold argint, argraw, bind.
  rewrite (curproc_run p e _ Hc), (proj2 (Z.leb_le 0 n)), (proj2 (Z.leb_le n 5)) by lia. cbn [andb].
  unfold tf_load, bind, getpd. unfold kpd in Hd. rewrite Hd.
  by destruct s as [[[] ? ? ? ?] ? ? ? ?].
Qed.

(** A process that tests the tick counter [k] ticks after it started to wait. *)
Lemma sleep_loop_run p q e s n t0 k : cproc e = Some p -> procs e !! p = Some q -> held e = {[TicksLock]} ->
  0 <= n < 2 ^ 31 -> 0 <= k < 2 ^ 32 -> k_ticks s = u32 (t0 + k) ->
  sleep_loop n t0 e s =
    if k <? n then
      if truth (p_killed q) then Ret (-1) (set_held e ∅) s
      else Block (set_procs (set_held e {[ProcLock p]}) (alter (asleep ChanTicks) p (procs e))) s
    else Ret 0 (set_held e ∅) s.
Proof.
  intros Hc Hq Hh Hn Hk Ht. unfold sleep_loop. kstep.
  replace (u32 (k_ticks s - t0)) with k.
  2: { rewrite Ht. unfold uint_wrap. rewrite Zminus_mod_idemp_l. replace (t0 + k - t0) with k by lia. by rewrite Z.mod_small. }
  assert (Er : release TicksLock e s = Ret tt (set_held e ∅) s).
  { unfold release. rewrite Hh, bool_decide_eq_true_2 by set_solver. done. }
  destruct (k <? n).
  - rewrite (bind_step _ _ _ _ _ _ _ (curproc_run p e s Hc)).
    rewrite (bind_step _ _ _ _ _ _ _ (killed_run p q e s ltac:(rewrite Hh; set_solver) Hq)).
    destruct (truth (p_killed q)); [by rewrite (bind_step _ _ _ _ _ _ _ Er)|].
    unfold bind. by rewrite (sleep_run p q) by done.
  - by rewrite (bind_step _ _ _ _ _ _ _ Er).
Qed.

(** C40 [sleep(n)] waits for exactly [n] ticks, whatever the tick counter is and
    although it wraps around: with [n <= 0] the call returns at once; otherwise
    the process sleeps, and each time it is woken after [k] ticks it goes back to
    sleep if [k < n], returns -1 if it has been killed meanwhile, and returns 0
    as soon as [n <= k]; when the call returns no lock is held. *)
Theorem sys_sleep_ticks e s p q d n : cproc e = Some p -> procs e !! p = Some q -> p_killed q = 0 -> held e = ∅ ->
  kpd s !! p = Some d -> n = i32 (load64 (kmem_of s) (pd_trapframe d + tf_a 0)) -> 0 <= k_ticks s < 2 ^ 32 ->
  (n <= 0 -> exists e', sys_sleep e s = Ret 0 e' s /\ held e' = ∅ /\ procs e' = procs e) /\
  (0 < n -> exists e1, sys_sleep e s = Block e1 s /\ procs e1 !! p = Some (asleep ChanTicks q) /\
    forall k e2 s2 q2, 0 <= k < 2 ^ 32 -> cproc e2 = Some p -> held e2 = {[ProcLock p]} -> procs e2 !! p = Some q2 ->
      k_ticks s2 = u32 (k_ticks s + k) ->
      match sys_sleep_resume n (k_ticks s) e2 s2 with
      | Ret r e3 s3 => s3 = s2 /\ held e3 = ∅ /\
          (n <= k /\ r = 0 \/ k < n /\ truth (p_killed q2) = true /\ r = -1)
      | Block e3 s3 => s3 = s2 /\ k < n /\ truth (p_killed q2) = false /\
          procs e3 !! p = Some (asleep ChanTicks (set_chan ChanNull q2))
      | _ => False
      end).
Proof.
  intros Hc Hq Hk Hh Hd Hn Ht. assert (Hnr : - 2 ^ 31 <= n < 2 ^ 31) by (rewrite Hn; by apply (sint_wrap_range 32)).
  assert (E : sys_sleep e s = sleep_loop (Z.max n 0) (k_ticks s) (set_held e {[TicksLock]}) s).
  { unfold sys_sleep. rewrite (bind_step _ _ _ _ _ _ _ (kst_argint p d 0 e s Hc Hd ltac:(lia))), <- Hn.
    rewrite (bind_step _ _ _ _ _ _ _ (acquire_free TicksLock e s ltac:(rewrite Hh; set_solver))).
    unfold locked. rewrite Hh. replace ({[TicksLock]} ∪ ∅ : gset lock) with ({[TicksLock]} : gset lock) by set_solver. done. }
  rewrite (sleep_loop_run p q _ s _ _ 0) in E by (done || lia || (rewrite Z.add_0_r; symmetry; by apply uint_wrap_small)).
  rewrite Hk in E. change (truth 0) with false in E. split.
  - intros Hn0. rewrite E, (proj2 (Z.ltb_ge 0 (Z.max n 0))) by lia. by eexists.
  - intros Hn0. rewrite E, (proj2 (Z.ltb_lt 0 (Z.max n 0))) by lia. eexists. split; [done|].
    split; [cbn; by rewrite list_lookup_alter_eq, Hq|].
    intros k e2 s2 q2 Hkr Hc2 Hh2 Hq2 Ht2. unfold sys_sleep_resume.
    rewrite (bind_step _ _ _ _ _ _ _ (sleep_resume_run p TicksLock e2 s2 Hc2 Hh2 ltac:(done))).
    rewrite (sleep_loop_run p (set_chan ChanNull q2) _ s2 n (k_ticks s) k)
      by (done || lia || (cbn; by rewrite list_lookup_alter_eq, Hq2)).
    destruct (Z.ltb_spec k n); [|split; [done|split; [done|by left]]]. change (p_killed (set_chan ChanNull q2)) with (p_killed q2).
    destruct (truth (p_killed q2)); [split; [done|split; [done|by right]]|]. do 3 (split; [done|]).
    cbn. by rewrite list_lookup_alter_eq, list_lookup_alter_eq, Hq2.
Qed.

(** ** Witness *)

Definition demo_kfile (d : pdata) : filest :=
  Filest (Fs (Usr (Kmem (fun a => if a =? 4096 + 112 then 3 else 0) 0 (fun _ => 0)) [d]) (log0 demo_disk)
             (Superblock 0 0 0 0 0 0 0 0) [] ∅) ∅ (TtyFields demo_uart [] 0 0 0) [] [].
Definition demo_kpd : pdata := Pdata 8192 0 12288 4096 CodeNull 0 [] None [].
Definition demo_kst : kst := Kst (demo_kfile demo_kpd) [] 0 0 (2 ^ 32 - 1).

Lemma sys_sleep_ticks_witness :
  exists e1, sys_sleep demo_kenv demo_kst = Block e1 demo_kst /\
    procs e1 !! 0%nat = Some (asleep ChanTicks demo_runner).
Proof.
  destruct (sys_sleep_ticks demo_kenv demo_kst 0 demo_runner demo_kpd 3) as [_ H];
    [reflexivity|reflexivity|reflexivity|reflexivity|reflexivity|reflexivity|done|].
  destruct (H ltac:(lia)) as (e1 & E & Hp & _). exists e1. split; [exact E|exact Hp].
Defined.
