(* ===== verification/Trap.v ===== *)
(** * kernel/trap.c and kernel/plic.c, and [forkret] of kernel/proc.c

    Entry from user space and from the kernel, interrupts and the return to user
    space.  [machine] adds the control registers, the disk driver's queues and the
    interrupt controller to the kernel's state.  The value the interrupt
    controller returns for a claim and the disk's interrupt status are
    parameters, as are the addresses of the assembly entry points.

    A trap that gives up the CPU ends the run with [Block]; it continues with
    [usertrap_resume] or [kerneltrap_resume]. *)

From stdpp Require Import base gmap sets list strings.
From Stdlib Require Import ZArith Lia.
From S2P Require Import Prelude Kernel Riscv Kalloc Vm Sched Sem Shm Sleeplock Bytes Bio Log Usr Fs Pipe Uart Console File Proc Exec Sysfile Virtio Syscall.

(** ** Definitions *)

(** Control and status registers, and the registers tp, sp and ra. *)
Inductive csr : Type :=
  | STVEC | SEPC | SCAUSE | STVAL | SSTATUS | SATP | STIMECMP | TIME | TP | SIE
  | MSTATUS | MEPC | MEDELEG | MIDELEG | PMPADDR0 | PMPCFG0 | MIE | MENVCFG | MCOUNTEREN | MHARTID
  | SIP | SP | RA.

#[export] Instance csr_eq_dec : EqDecision csr.
Proof. solve_decision. Defined.

Definition SSTATUS_SPP : Z := Z.shiftl 1 8.
Definition SSTATUS_SPIE : Z := Z.shiftl 1 5.
Definition SSTATUS_SIE : Z := Z.shiftl 1 1.
Definition SATP_SV39 : Z := Z.shiftl 8 60.
Definition MAKE_SATP (pagetable : Z) : Z := Z.lor SATP_SV39 (Z.shiftr pagetable 12).
Definition UART0_IRQ : Z := 10.
Definition VIRTIO0_IRQ : Z := 1.
Definition PLIC_SENABLE (hart : Z) : Z := PLIC + 0x2080 + hart * 0x100.
Definition PLIC_SPRIORITY (hart : Z) : Z := PLIC + 0x201000 + hart * 0x2000.
Definition PLIC_SCLAIM (hart : Z) : Z := PLIC + 0x201004 + hart * 0x2000.

(** The disk driver without the buffer cache, which belongs to the file system. *)
Record vqueue : Type := Vqueue {
  q_desc : list virtq_desc; q_avail_ring : list Z; q_avail_idx : Z; q_used_ring : list Z; q_used_idx : Z;
  q_free : list Z; q_seen : Z; q_info : list vinfo; q_ops : list virtio_blk_req; q_owned : list Z; q_regs : list (Z * Z)
}.

Record machine : Type := Machine {
  m_kst : kst;
  m_vq : vqueue;
  m_csr : csr -> Z;
  m_plic : list (Z * Z);     (* interrupt controller register writes, oldest first *)
  m_kernel_pagetable : Z;
  m_first : Z;               (* [forkret]'s static [first] *)
  m_started : Z              (* [started] of kernel/main.c *)
}.

#[export] Instance machine_kst : Part machine kst :=
  {| part_get := m_kst;
     part_put := fun x s => Machine x (m_vq s) (m_csr s) (m_plic s) (m_kernel_pagetable s) (m_first s) (m_started s);
     part_get_put := fun _ _ => eq_refl;
     part_put_get := fun s => match s with Machine _ _ _ _ _ _ _ => eq_refl end;
     part_put_put := fun _ _ _ => eq_refl |}.

Definition mlog (s : machine) : logst := fs_log (fl_fs (k_file (m_kst s))).
Definition put_mlog (l : logst) (s : machine) : machine :=
  part_put (part_put (part_put (with_log (fl_fs (k_file (m_kst s))) l) (k_file (m_kst s))) (m_kst s)) s.

Definition vdisk_get (s : machine) : vdisk :=
  let q := m_vq s in
  Vdisk (l_bio (mlog s)) (q_desc q) (q_avail_ring q) (q_avail_idx q) (q_used_ring q) (q_used_idx q)
        (q_free q) (q_seen q) (q_info q) (q_ops q) (q_owned q) (q_regs q).
Definition vqueue_of (v : vdisk) : vqueue :=
  Vqueue (v_desc v) (v_avail_ring v) (v_avail_idx v) (v_used_ring v) (v_used_idx v)
         (v_free v) (v_seen v) (v_info v) (v_ops v) (v_owned v) (v_regs v).
Definition vdisk_put (v : vdisk) (s : machine) : machine :=
  let s := put_mlog (with_bio (mlog s) (v_bio v)) s in
  Machine (m_kst s) (vqueue_of v) (m_csr s) (m_plic s) (m_kernel_pagetable s) (m_first s) (m_started s).

#[export] Instance machine_vdisk : Part machine vdisk :=
  {| part_get := vdisk_get;
     part_put := vdisk_put;
     part_get_put := fun v s => match v with Vdisk _ _ _ _ _ _ _ _ _ _ _ _ => eq_refl end;
     part_put_get := fun s =>
       match s with
       | Machine (Kst (Filest (Fs _ (Logst _ _ _ _ _ _ _ _) _ _ _) _ _ _ _) _ _ _ _) (Vqueue _ _ _ _ _ _ _ _ _ _ _) _ _ _ _ _ => eq_refl
       end;
     part_put_put := fun _ _ _ => eq_refl |}.

Definition on_kst {A} (m : K kst A) : K machine A := zoom m.
Definition on_vdisk {A} (m : K vdisk A) : K machine A := zoom m.
Definition in_proc {A} (m : K filest A) : K machine A := on_kst (in_file m).
Definition in_pd {A} (m : K usr A) : K machine A := on_kst (in_usr m).

Definition set_csr (c : csr) (v : Z) (s : machine) : machine :=
  Machine (m_kst s) (m_vq s) (fun c' => if decide (c' = c) then v else m_csr s c')
          (m_plic s) (m_kernel_pagetable s) (m_first s) (m_started s).

(** The instructions csrr and csrw, and mv from and to the registers sp, ra and tp *)
Definition r_csr (c : csr) : K machine Z := gets (fun s => m_csr s c).
Definition w_csr (c : csr) (v : Z) : K machine unit := modify (set_csr c (u64 v)).

(** *** kernel/riscv.h *)

Definition r_mhartid : K machine Z := r_csr MHARTID.
Definition r_mstatus : K machine Z := r_csr MSTATUS.
Definition r_sstatus : K machine Z := r_csr SSTATUS.
Definition r_sip : K machine Z := r_csr SIP.
Definition r_sie : K machine Z := r_csr SIE.
Definition r_mie : K machine Z := r_csr MIE.
Definition r_sepc : K machine Z := r_csr SEPC.
Definition r_medeleg : K machine Z := r_csr MEDELEG.
Definition r_mideleg : K machine Z := r_csr MIDELEG.
Definition r_stvec : K machine Z := r_csr STVEC.
Definition r_stimecmp : K machine Z := r_csr STIMECMP.
Definition r_menvcfg : K machine Z := r_csr MENVCFG.
Definition r_satp : K machine Z := r_csr SATP.
Definition r_scause : K machine Z := r_csr SCAUSE.
Definition r_stval : K machine Z := r_csr STVAL.
Definition r_mcounteren : K machine Z := r_csr MCOUNTEREN.
Definition r_time : K machine Z := r_csr TIME.
Definition r_sp : K machine Z := r_csr SP.
Definition r_tp : K machine Z := r_csr TP.
Definition w_mstatus (x : Z) : K machine unit := w_csr MSTATUS x.
Definition w_mepc (x : Z) : K machine unit := w_csr MEPC x.
Definition w_sstatus (x : Z) : K machine unit := w_csr SSTATUS x.
Definition w_sip (x : Z) : K machine unit := w_csr SIP x.
Definition w_sie (x : Z) : K machine unit := w_csr SIE x.
Definition w_mie (x : Z) : K machine unit := w_csr MIE x.
Definition w_sepc (x : Z) : K machine unit := w_csr SEPC x.
Definition w_medeleg (x : Z) : K machine unit := w_csr MEDELEG x.
Definition w_mideleg (x : Z) : K machine unit := w_csr MIDELEG x.
Definition w_stvec (x : Z) : K machine unit := w_csr STVEC x.
Definition w_stimecmp (x : Z) : K machine unit := w_csr STIMECMP x.
Definition w_menvcfg (x : Z) : K machine unit := w_csr MENVCFG x.
Definition w_pmpcfg0 (x : Z) : K machine unit := w_csr PMPCFG0 x.
Definition w_pmpaddr0 (x : Z) : K machine unit := w_csr PMPADDR0 x.
Definition w_satp (x : Z) : K machine unit := w_csr SATP x.
Definition w_mcounteren (x : Z) : K machine unit := w_csr MCOUNTEREN x.
Definition w_tp (x : Z) : K machine unit := w_csr TP x.
Definition r_ra : K machine Z := r_csr RA.

(** There is no TLB to flush: translations are looked up in memory. *)
Definition sfence_vma : K machine unit := ret tt.

Ltac csrs := unfold r_mhartid, r_mstatus, r_sstatus, r_sip, r_sie, r_mie, r_sepc, r_medeleg, r_mideleg,
  r_stvec, r_stimecmp, r_menvcfg, r_satp, r_scause, r_stval, r_mcounteren, r_time, r_sp, r_tp, w_mstatus,
  w_mepc, w_sstatus, w_sip, w_sie, w_mie, w_sepc, w_medeleg, w_mideleg, w_stvec, w_stimecmp, w_menvcfg,
  w_pmpcfg0, w_pmpaddr0, w_satp, w_mcounteren, w_tp, r_ra, w_csr, r_csr.

Definition intr_on : K machine unit := x <- r_sstatus ;; w_sstatus (Z.lor x SSTATUS_SIE).
Definition intr_off : K machine unit := x <- r_sstatus ;; w_sstatus (Z.land x (Z.lnot SSTATUS_SIE)).
Definition intr_get : K machine bool := x <- r_sstatus ;; ret (truth (Z.land x SSTATUS_SIE)).

(** kernel/proc.c, [cpuid] *)
Definition cpuid : K machine Z := x <- r_tp ;; ret (i32 x).

(** *** kernel/plic.c *)

(** [*(uint32 * )a = v] in the interrupt controller *)
Definition plic_write (a v : Z) : K machine unit :=
  modify (fun s => Machine (m_kst s) (m_vq s) (m_csr s) (m_plic s ++ [(a, u32 v)]) (m_kernel_pagetable s) (m_first s) (m_started s)).

Definition plicinit : K machine unit :=
  plic_write (PLIC + UART0_IRQ * 4) 1 ;;
  plic_write (PLIC + VIRTIO0_IRQ * 4) 1.

Definition plicinithart : K machine unit :=
  hart <- cpuid ;;
  plic_write (PLIC_SENABLE hart) (Z.lor (Z.shiftl 1 UART0_IRQ) (Z.shiftl 1 VIRTIO0_IRQ)) ;;
  plic_write (PLIC_SPRIORITY hart) 0.

Definition plic_complete (irq : Z) : K machine unit :=
  hart <- cpuid ;;
  plic_write (PLIC_SCLAIM hart) irq.

(** The addresses of the assembly entry points and of [usertrap]. *)
Class Symbols : Type := {
  kernelvec : Z;
  uservec : Z;
  userret : Z;
  usertrap_addr : Z
}.

Section Trap.
Context {L : Linker} {Sy : Symbols} (pad : list Z).
(** What the interrupt controller returns for a read of a claim register, and
    the disk's interrupt status register. *)
Context (claim : Z -> Z) (ReadR : Z -> Z).

Definition plic_claim : K machine Z :=
  hart <- cpuid ;;
  ret (i32 (claim (PLIC_SCLAIM hart))).

(** *** kernel/trap.c *)

Definition trapinit : K machine unit := initlock TicksLock.
Definition trapinithart : K machine unit := w_stvec kernelvec.

Definition clockintr : K machine unit :=
  hart <- cpuid ;;
  when (hart =? 0)
    (acquire TicksLock ;;
     on_kst (modify (fun s => set_ticks (u32 (k_ticks s + 1)) s)) ;;
     wakeup ChanTicks ;;
     release TicksLock) ;;
  t <- r_time ;;
  w_stimecmp (t + 1000000).

Definition devintr : K machine Z :=
  scause <- r_scause ;;
  if scause =? 0x8000000000000009 then
    irq <- plic_claim ;;
    (if irq =? UART0_IRQ then in_proc (zoom uartintr)
     else if irq =? VIRTIO0_IRQ then on_vdisk (virtio_disk_intr ReadR)
     else when (truth irq) printk) ;;
    when (truth irq) (plic_complete irq) ;;
    ret 1
  else if scause =? 0x8000000000000005 then
    clockintr ;;
    ret 2
  else ret 0.

Definition prepare_return : K machine unit :=
  p <- curproc ;;
  intr_off ;;
  w_stvec (TRAMPOLINE + (uservec - trampoline)) ;;
  satp <- r_satp ;;
  in_pd (tf_store p tf_kernel_satp satp) ;;
  d <- in_pd (getpd p) ;;
  in_pd (tf_store p tf_kernel_sp (u64 (pd_kstack d + PGSIZE))) ;;
  in_pd (tf_store p tf_kernel_trap usertrap_addr) ;;
  tp <- r_tp ;;
  in_pd (tf_store p tf_kernel_hartid tp) ;;
  x <- r_sstatus ;;
  w_sstatus (Z.lor (Z.land x (Z.lnot SSTATUS_SPP)) SSTATUS_SPIE) ;;
  epc <- in_pd (tf_load p tf_epc) ;;
  w_sepc epc.

(** The end of [usertrap]: the page table to switch to *)
Definition usertrap_return (p : nat) : K machine Z :=
  prepare_return ;;
  d <- in_pd (getpd p) ;;
  ret (MAKE_SATP (pd_pagetable d)).

Definition usertrap : K machine Z :=
  sstatus <- r_sstatus ;;
  if truth (Z.land sstatus SSTATUS_SPP) then panic "usertrap: not from user mode"
  else
    w_stvec kernelvec ;;
    p <- curproc ;;
    sepc <- r_sepc ;;
    in_pd (tf_store p tf_epc sepc) ;;
    scause <- r_scause ;;
    which_dev <- (
      if scause =? 8 then
        k <- killed p ;;
        when (truth k) (in_proc (exit (-1))) ;;
        epc <- in_pd (tf_load p tf_epc) ;;
        in_pd (tf_store p tf_epc (u64 (epc + 4))) ;;
        intr_on ;;
        on_kst (syscall pad) ;;
        ret 0
      else
        which_dev <- devintr ;;
        if negb (which_dev =? 0) then ret which_dev
        else
          scause <- r_scause ;;
          ok <- (if (scause =? 15) || (scause =? 13) then
                   d <- in_pd (getpd p) ;;
                   stval <- r_stval ;;
                   r <- in_pd (zoom (vmfault (uproc_of d) (pd_pagetable d) stval)) ;;
                   ret (negb (r =? 0))
                 else ret false) ;;
          if (ok : bool) then ret 0
          else
            printk ;;
            printk ;;
            setkilled p ;;
            ret 0) ;;
    k <- killed p ;;
    when (truth k) (in_proc (exit (-1))) ;;
    when (which_dev =? 2) yield ;;
    usertrap_return p.

(** A process that gave up the CPU in [usertrap]'s [yield] runs again. *)
Definition usertrap_resume : K machine Z :=
  p <- curproc ;;
  release (ProcLock p) ;;
  usertrap_return p.

Definition kerneltrap_return (sepc sstatus : Z) : K machine unit :=
  w_sepc sepc ;;
  w_sstatus sstatus.

Definition kerneltrap : K machine unit :=
  sepc <- r_sepc ;;
  sstatus <- r_sstatus ;;
  if Z.land sstatus SSTATUS_SPP =? 0 then panic "kerneltrap: not from supervisor mode"
  else
    i <- intr_get ;;
    if (i : bool) then panic "kerneltrap: interrupts enabled"
    else
      which_dev <- devintr ;;
      if which_dev =? 0 then
        printk ;;
        panic "kerneltrap"
      else
        me <- myproc ;;
        when ((which_dev =? 2) && bool_decide (me <> None)) yield ;;
        kerneltrap_return sepc sstatus.

(** A process that gave up the CPU in [kerneltrap]'s [yield] runs again. *)
Definition kerneltrap_resume (sepc sstatus : Z) : K machine unit :=
  p <- curproc ;;
  release (ProcLock p) ;;
  kerneltrap_return sepc sstatus.

(** *** kernel/proc.c, [forkret] *)

(** The path "/init" *)
Definition init_path : list Z := [47; 105; 110; 105; 116].

(** The address jumped to, and the page table passed to it *)
Definition forkret : K machine (Z * Z) :=
  p <- curproc ;;
  release (ProcLock p) ;;
  first <- gets m_first ;;
  when (truth first)
    (in_proc (on_fs (fsinit ROOTDEV)) ;;
     modify (fun s => Machine (m_kst s) (m_vq s) (m_csr s) (m_plic s) (m_kernel_pagetable s) 0 (m_started s)) ;;
     r <- in_proc (exec init_path [init_path]) ;;
     in_pd (tf_store p (tf_a 0) (u64 r)) ;;
     a0 <- in_pd (tf_load p (tf_a 0)) ;;
     when (a0 =? u64 (-1)) (panic "exec")) ;;
  satp <- usertrap_return p ;;
  ret (TRAMPOLINE + (userret - trampoline), satp).

End Trap.

(** ** Lemmas *)

Definition mfile (s : machine) : filest := k_file (m_kst s).
Definition mpd (s : machine) : list pdata := u_pd (fs_usr (fl_fs (mfile s))).
Definition mmem (s : machine) : mem := kmem_mem (file_kmem (mfile s)).
Definition with_mmem (m : mem) (s : machine) : machine :=
  part_put (part_put (with_kmem (set_mem (file_kmem (mfile s)) m) (mfile s)) (m_kst s)) s.
Definition tf_put (a off v : Z) (s : machine) : machine := with_mmem (store64 (mmem s) (a + off) v) s.

Lemma machine_pd_run p d e s : mpd s !! p = Some d -> in_pd (getpd p) e s = Ret d e s.
Proof.
  intros H. unfold in_pd, on_kst, in_usr, zoom. cbn. unfold getpd. unfold mpd, mfile in H. rewrite H.
  by destruct s as [[[[] ? ? ? ?] ? ? ? ?] ? ? ? ? ? ?].
Qed.

Lemma machine_tf_load p d off e s : mpd s !! p = Some d ->
  in_pd (tf_load p off) e s = Ret (load64 (mmem s) (pd_trapframe d + off)) e s.
Proof.
  intros H. unfold in_pd, on_kst, in_usr, zoom. cbn. unfold tf_load, bind, getpd. unfold mpd, mfile in H. rewrite H.
  by destruct s as [[[[] ? ? ? ?] ? ? ? ?] ? ? ? ? ? ?].
Qed.

Lemma machine_tf_store p d off v e s : mpd s !! p = Some d ->
  in_pd (tf_store p off v) e s = Ret tt e (tf_put (pd_trapframe d) off v s).
Proof.
  intros H. unfold in_pd, on_kst, in_usr, zoom. cbn. unfold tf_store, bind, getpd. unfold mpd, mfile in H. by rewrite H.
Qed.

(** The same, followed by a continuation. *)
Lemma bind_pd {A} p d (k : pdata -> K machine A) e s : mpd s !! p = Some d ->
  bind (in_pd (getpd p)) k e s = k d e s.
Proof. intros H. by rewrite (bind_step _ _ _ _ _ _ _ (machine_pd_run p d e s H)). Qed.

Lemma bind_tf_load {A} p d off (k : Z -> K machine A) e s : mpd s !! p = Some d ->
  bind (in_pd (tf_load p off)) k e s = k (load64 (mmem s) (pd_trapframe d + off)) e s.
Proof. intros H. by rewrite (bind_step _ _ _ _ _ _ _ (machine_tf_load p d off e s H)). Qed.

Lemma bind_tf_store {A} p d off v (k : unit -> K machine A) e s : mpd s !! p = Some d ->
  bind (in_pd (tf_store p off v)) k e s = k tt e (tf_put (pd_trapframe d) off v s).
Proof. intros H. by rewrite (bind_step _ _ _ _ _ _ _ (machine_tf_store p d off v e s H)). Qed.

(** Step through code of the trap handlers run by process [p] with data [d]. *)
Ltac tsteps p d :=
  repeat first
    [ kstep
    | rewrite (bind_tf_store p d) by assumption
    | rewrite (bind_tf_load p d) by assumption
    | rewrite (bind_pd p d) by assumption ].

Section Return.
Context {L : Linker} {Sy : Symbols}.

(** The state [prepare_return] leaves. *)
Definition prepared (d : pdata) (s : machine) : machine :=
  let a := pd_trapframe d in
  let s1 := set_csr STVEC (u64 (TRAMPOLINE + (uservec - trampoline)))
              (set_csr SSTATUS (u64 (Z.land (m_csr s SSTATUS) (Z.lnot SSTATUS_SIE))) s) in
  let s2 := tf_put a tf_kernel_hartid (m_csr s TP) (tf_put a tf_kernel_trap usertrap_addr
              (tf_put a tf_kernel_sp (u64 (pd_kstack d + PGSIZE)) (tf_put a tf_kernel_satp (m_csr s SATP) s1))) in
  let s3 := set_csr SSTATUS (u64 (Z.lor (Z.land (m_csr s1 SSTATUS) (Z.lnot SSTATUS_SPP)) SSTATUS_SPIE)) s2 in
  set_csr SEPC (u64 (load64 (mmem s3) (a + tf_epc))) s3.

Lemma prepare_return_run p d e s : cproc e = Some p -> mpd s !! p = Some d ->
  prepare_return e s = Ret tt e (prepared d s).
Proof.
  intros Hc Hd. unfold prepare_return, intr_off. csrs.
  rewrite (bind_step _ _ _ _ _ _ _ (curproc_run p e s Hc)). tsteps p d. done.
Qed.

(** Only the registers and the contents of memory differ. *)
Definition same_but (s s' : machine) : Prop :=
  s' = Machine (m_kst (with_mmem (mmem s') s)) (m_vq s) (m_csr s') (m_plic s)
         (m_kernel_pagetable s) (m_first s) (m_started s).

(** What the trampoline needs to return to user space and to come back: traps go
    to [uservec], interrupts are off now and on in user mode, the program counter
    is the saved one, the kernel's part of the trap frame is set and the rest of
    memory is untouched. *)
Record user_ready (d : pdata) (s s' : machine) : Prop := {
  ur_stvec : m_csr s' STVEC = u64 (TRAMPOLINE + (uservec - trampoline));
  ur_sie : Z.testbit (m_csr s' SSTATUS) 1 = false;
  ur_spp : Z.testbit (m_csr s' SSTATUS) 8 = false;
  ur_spie : Z.testbit (m_csr s' SSTATUS) 5 = true;
  ur_sepc : m_csr s' SEPC = u64 (load64 (mmem s) (pd_trapframe d + tf_epc));
  ur_satp : load64 (mmem s') (pd_trapframe d + tf_kernel_satp) = u64 (m_csr s SATP);
  ur_sp : load64 (mmem s') (pd_trapframe d + tf_kernel_sp) = u64 (pd_kstack d + PGSIZE);
  ur_trap : load64 (mmem s') (pd_trapframe d + tf_kernel_trap) = u64 usertrap_addr;
  ur_hartid : load64 (mmem s') (pd_trapframe d + tf_kernel_hartid) = u64 (m_csr s TP);
  ur_mem : forall x, let o := x - pd_trapframe d in
             ~ (0 <= o < 24 \/ 32 <= o < 40) -> mmem s' x = mmem s x;
  ur_csr : forall c, c <> STVEC -> c <> SSTATUS -> c <> SEPC -> m_csr s' c = m_csr s c;
  ur_same : same_but s s'
}.

Lemma testbit_u64 x n : 0 <= n < 64 -> Z.testbit (u64 x) n = Z.testbit x n.
Proof. intros Hn. unfold uint_wrap. by rewrite Z.mod_pow2_bits_low by lia. Qed.

Lemma testbit_shiftl1 k n : 0 <= n -> Z.testbit (Z.shiftl 1 k) n = (n =? k).
Proof.
  intros Hn. rewrite Z.shiftl_spec by done. destruct (Z.eqb_spec n k) as [->|Hne]; [by rewrite Z.sub_diag|].
  destruct (Z.ltb_spec n k); [by rewrite Z.testbit_neg_r by lia|]. apply Z.bits_above_log2; [lia|simpl; lia].
Qed.

Lemma testbit_clear x k n : 0 <= k -> 0 <= n -> Z.testbit (Z.land x (Z.lnot (Z.shiftl 1 k))) n = Z.testbit x n && negb (n =? k).
Proof.
  intros Hk Hn. rewrite Z.land_spec, Z.lnot_spec by done. f_equal. f_equal.
  by apply testbit_shiftl1.
Qed.

Lemma store_load_words m a o v o' : o + 8 <= o' \/ o' + 8 <= o -> load64 (store64 m (a + o) v) (a + o') = load64 m (a + o').
Proof. intros H. apply load_store_other. lia. Qed.

Lemma prepared_sstatus d s : m_csr (prepared d s) SSTATUS =
  u64 (Z.lor (Z.land (u64 (Z.land (m_csr s SSTATUS) (Z.lnot (Z.shiftl 1 1)))) (Z.lnot (Z.shiftl 1 8))) (Z.shiftl 1 5)).
Proof. reflexivity. Qed.

Lemma prepared_bit d s n : 0 <= n < 64 -> Z.testbit (m_csr (prepared d s) SSTATUS) n =
  (Z.testbit (m_csr s SSTATUS) n && negb (n =? 1) && negb (n =? 8) || Z.testbit (Z.shiftl 1 5) n).
Proof.
  intros Hn. rewrite prepared_sstatus, testbit_u64, Z.lor_spec, testbit_clear, testbit_u64, testbit_clear by lia. done.
Qed.

Lemma prepared_mmem d s : let a := pd_trapframe d in mmem (prepared d s) =
  store64 (store64 (store64 (store64 (mmem s) (a + 0) (m_csr s SATP)) (a + 8) (u64 (pd_kstack d + PGSIZE)))
             (a + 16) usertrap_addr) (a + 32) (m_csr s TP).
Proof. reflexivity. Qed.

Lemma prepared_ready d s : user_ready d s (prepared d s).
Proof.
  split.
  - done.
  - rewrite prepared_bit by lia. cbn. by rewrite andb_false_r.
  - rewrite prepared_bit by lia. cbn. by rewrite andb_false_r.
  - rewrite prepared_bit by lia. by rewrite orb_true_r.
  - change (m_csr (prepared d s) SEPC) with (u64 (load64 (mmem (prepared d s)) (pd_trapframe d + tf_epc))).
    rewrite prepared_mmem. by rewrite !store_load_words by (unfold tf_epc; lia).
  - rewrite prepared_mmem, !store_load_words by (unfold tf_kernel_satp; lia). apply load_store.
  - rewrite prepared_mmem, !store_load_words by (unfold tf_kernel_sp; lia). unfold tf_kernel_sp.
    rewrite load_store. change (256 ^ Z.of_nat 8) with (2 ^ 64). unfold uint_wrap. by apply Z.mod_mod.
  - rewrite prepared_mmem, !store_load_words by (unfold tf_kernel_trap; lia). apply load_store.
  - rewrite prepared_mmem. apply load_store.
  - intros x o Ho. rewrite prepared_mmem, !store_out by lia. done.
  - intros c H1 H2 H3. cbn. by rewrite !decide_False by done.
  - reflexivity.
Qed.

Lemma usertrap_return_run p d e s : cproc e = Some p -> mpd s !! p = Some d ->
  usertrap_return p e s = Ret (MAKE_SATP (pd_pagetable d)) e (prepared d s).
Proof.
  intros Hc Hd. unfold usertrap_return. rewrite (bind_step _ _ _ _ _ _ _ (prepare_return_run p d e s Hc Hd)).
  by rewrite (bind_pd p d) by exact Hd.
Qed.

End Return.

Lemma syscalls_none {L : Linker} pad num : ~ (1 <= num <= 25) -> (if 0 <? num then syscalls pad num else None) = None.
Proof.
  intros H. destruct num as [|x|x]; [done| |done]. cbn.
  do 5 (try (destruct x as [x|x|]; [| |try lia; try done])); try lia; try done.
Qed.

(** An unknown system call returns -1. *)
Lemma syscall_unknown {L : Linker} pad p d e s : cproc e = Some p -> mpd s !! p = Some d ->
  ~ (1 <= i32 (load64 (mmem s) (pd_trapframe d + tf_a 7)) <= 25) ->
  on_kst (syscall pad) e s = Ret tt e (tf_put (pd_trapframe d) (tf_a 0) (u64 (-1)) s).
Proof.
  intros Hc Hd Hn. unfold on_kst, zoom. cbn [part_get machine_kst]. unfold syscall.
  rewrite (bind_step _ _ _ _ _ _ _ (curproc_run p e _ Hc)).
  assert (El : in_usr (tf_load p (tf_a 7)) e (m_kst s) = Ret (load64 (mmem s) (pd_trapframe d + tf_a 7)) e (m_kst s)).
  { unfold in_usr, zoom. cbn. unfold tf_load, bind, getpd. unfold mpd, mfile in Hd. rewrite Hd.
    by destruct s as [[[[] ? ? ? ?] ? ? ? ?] ? ? ? ? ? ?]. }
  rewrite (bind_step _ _ _ _ _ _ _ El). cbv zeta. rewrite (syscalls_none pad _ Hn). unfold printk. ksteps.
  unfold in_usr, zoom. cbn [part_get kst_usr]. unfold tf_store, bind, getpd. cbn [part_get filest_usr].
  unfold mpd, mfile in Hd. by rewrite Hd.
Qed.

(** ** Traps from user space *)

Lemma mpd_tf_put a o v s : mpd (tf_put a o v s) = mpd s.
Proof. done. Qed.

Lemma spp_clear s : Z.testbit (m_csr s SSTATUS) 8 = false -> truth (Z.land (m_csr s SSTATUS) SSTATUS_SPP) = false.
Proof.
  intros H. unfold truth. replace (Z.land (m_csr s SSTATUS) SSTATUS_SPP) with 0; [done|].
  symmetry. apply Z.bits_inj'. intros n Hn. rewrite Z.land_spec, Z.bits_0. unfold SSTATUS_SPP.
  rewrite testbit_shiftl1 by done. destruct (Z.eqb_spec n 8) as [->|]; [by rewrite H|by rewrite andb_false_r].
Qed.

(** Registers not yet written. *)
Ltac csr_is c v := match goal with |- context [m_csr ?s c] => change (m_csr s c) with v end.

(** Two stores to the saved program counter. *)
Lemma trapframe_epc2 m a v w o : o + 8 <= tf_epc \/ tf_epc + 8 <= o ->
  load64 (store64 (store64 m (a + tf_epc) v) (a + tf_epc) w) (a + o) = load64 m (a + o).
Proof. intros H. by rewrite !store_load_words by lia. Qed.

Section Usertrap.
Context {L : Linker} {Sy : Symbols} (pad : list Z) (claim ReadR : Z -> Z).

(** A system call with a number outside the table fails cleanly, end to end:
    from the trap to the return to user space.  [usertrap] returns the process's
    page table; the process resumes at the instruction after its [ecall] with -1
    in [a0] and every other user register unchanged, in user mode with interrupts
    enabled; nothing else in the kernel changes but the kernel's own words of the
    trap frame. *)
Theorem usertrap_bad_syscall e p q d s : cproc e = Some p -> procs e !! p = Some q -> p_killed q = 0 ->
  ProcLock p ∉ held e -> mpd s !! p = Some d ->
  Z.testbit (m_csr s SSTATUS) 8 = false -> m_csr s SCAUSE = 8 ->
  ~ (1 <= i32 (load64 (mmem s) (pd_trapframe d + tf_a 7)) <= 25) ->
  exists s', usertrap pad claim ReadR e s = Ret (MAKE_SATP (pd_pagetable d)) e s' /\
    m_csr s' SEPC = u64 (m_csr s SEPC + 4) /\
    m_csr s' STVEC = u64 (TRAMPOLINE + (uservec - trampoline)) /\
    (forall n, 0 <= n < 64 -> n <> 1 -> Z.testbit (m_csr s' SSTATUS) n = Z.testbit (m_csr s SSTATUS) n || (n =? 5)) /\
    Z.testbit (m_csr s' SSTATUS) 1 = false /\
    load64 (mmem s') (pd_trapframe d + tf_a 0) = 2 ^ 64 - 1 /\
    (forall x, let o := x - pd_trapframe d in ~ (0 <= o < 40 \/ tf_a 0 <= o < tf_a 1) -> mmem s' x = mmem s x) /\
    same_but s s'.
Proof.
  intros Hc Hq Hk Hl Hd Hs Hsc Hn. unfold usertrap. csrs. ksteps. rewrite (spp_clear s Hs). ksteps.
  rewrite (bind_step _ _ _ _ _ _ _ (curproc_run p e _ Hc)). tsteps p d.
  csr_is SCAUSE (m_csr s SCAUSE). rewrite Hsc. change (8 =? 8) with true. ksteps.
  rewrite (bind_step _ _ _ _ _ _ _ (killed_run p q e _ Hl Hq)). rewrite Hk. change (truth 0) with false. tsteps p d.
  unfold intr_on. csrs. ksteps.
  set (s1 := tf_put (pd_trapframe d) tf_epc (m_csr (set_csr STVEC (u64 kernelvec) s) SEPC) (set_csr STVEC (u64 kernelvec) s)).
  set (s2 := set_csr SSTATUS _ _).
  assert (Ha7 : load64 (mmem s2) (pd_trapframe d + tf_a 7) = load64 (mmem s) (pd_trapframe d + tf_a 7))
    by (apply trapframe_epc2; unfold tf_epc, tf_a; lia).
  rewrite (bind_step _ _ _ _ _ _ _ (syscall_unknown pad p d e s2 Hc Hd ltac:(rewrite Ha7; exact Hn))). ksteps.
  rewrite (bind_step _ _ _ _ _ _ _ (killed_run p q e _ Hl Hq)). rewrite Hk. change (truth 0) with false. ksteps.
  change (0 =? 2) with false. ksteps. rewrite (usertrap_return_run p d) by assumption.
  set (s3 := tf_put _ _ _ s2). exists (prepared d s3). pose proof (prepared_ready d s3) as R. split; [done|].
  assert (M : mmem s3 = store64 (store64 (store64 (mmem s) (pd_trapframe d + tf_epc) (m_csr s SEPC)) (pd_trapframe d + tf_epc)
                (u64 (u64 (m_csr s SEPC) + 4))) (pd_trapframe d + tf_a 0) (u64 (-1))).
  { unfold s3, s2, s1. cbn -[load store u64]. do 2 f_equal. rewrite load_store. reflexivity. }
  split; [|split; [by apply (ur_stvec _ _ _ R)|split; [|split; [by apply (ur_sie _ _ _ R)|split; [|split; [|reflexivity]]]]]].
  - rewrite (ur_sepc _ _ _ R), M, store_load_words, load_store by (unfold tf_epc, tf_a; lia).
    change (256 ^ Z.of_nat 8) with (2 ^ 64). unfold uint_wrap.
    by rewrite !Z.mod_mod, Z.add_mod_idemp_l by done.
  - intros n Hn64 Hn1. rewrite prepared_bit by done. change (m_csr s3 SSTATUS) with (u64 (Z.lor (m_csr s SSTATUS) (Z.shiftl 1 1))).
    rewrite testbit_u64, Z.lor_spec, !testbit_shiftl1, (proj2 (Z.eqb_neq n 1)) by lia.
    destruct (Z.eqb_spec n 8) as [->|]; [by rewrite Hs|]. by rewrite orb_false_r, !andb_true_r.
  - rewrite prepared_mmem, !store_load_words by (unfold tf_a; lia). rewrite M, load_store. done.
  - intros x Ho. rewrite (ur_mem _ _ _ R) by (unfold tf_a in Ho; lia). rewrite M, !store_out by (unfold tf_a, tf_epc in *; lia). done.
Qed.

(** What a clock interrupt on hart 0 does. *)
Definition ticked (s : machine) : machine :=
  set_csr STIMECMP (u64 (m_csr s TIME + 1000000)) (part_put (set_ticks (u32 (k_ticks (m_kst s) + 1)) (m_kst s)) s).

Lemma clockintr_run e s : i32 (m_csr s TP) = 0 -> held e = ∅ -> procs_ok e ->
  clockintr e s = Ret tt (set_procs e (wake_all (cproc e) ChanTicks (procs e))) (ticked s).
Proof.
  intros Ht Hh Hok. unfold clockintr, cpuid. csrs. ksteps. rewrite Ht. change (0 =? 0) with true. ksteps.
  rewrite (bind_step _ _ _ _ _ _ _ (acquire_free TicksLock e s ltac:(rewrite Hh; set_solver))).
  set (s1 := part_put (set_ticks (u32 (k_ticks (m_kst s) + 1)) (m_kst s)) s). ksteps.
  rewrite (bind_step (on_kst _) _ _ _ tt (locked TicksLock e) s1) by done. ksteps.
  rewrite (bind_step _ _ _ _ _ _ _ (wakeup_run ChanTicks (locked TicksLock e) s1 Hok
             ltac:(intros i _; cbn; rewrite Hh; set_solver))). ksteps.
  cbn [cproc locked set_held procs]. fold (locked TicksLock e). rewrite <- locked_set_procs.
  rewrite (bind_step _ _ _ _ _ _ _ (release_locked TicksLock (set_procs e _) s1 ltac:(cbn; rewrite Hh; set_solver))).
  by ksteps.
Qed.

Lemma yield_run p q e (s : machine) : cproc e = Some p -> held e = ∅ -> procs e !! p = Some q ->
  yield e s = Block (set_procs (set_held e {[ProcLock p]}) (alter (set_state RUNNABLE) p (procs e))) s.
Proof.
  intros Hc Hh Hq. unfold yield. rewrite (bind_step _ _ _ _ _ _ _ (curproc_run p e s Hc)).
  rewrite (bind_step _ _ _ _ _ _ _ (acquire_free (ProcLock p) e s ltac:(rewrite Hh; set_solver))).
  rewrite (bind_step _ _ _ _ _ _ _ (updp_run p _ _ s)). cbn [procs locked set_held].
  unfold locked. rewrite Hh. replace ({[ProcLock p]} ∪ ∅ : gset lock) with ({[ProcLock p]} : gset lock) by set_solver.
  unfold bind. rewrite (sched_run p (set_state RUNNABLE q)); [done..|cbn; by rewrite list_lookup_alter_eq, Hq|done].
Qed.

Lemma not_woken_self p c ps q : ps !! p = Some q -> wake_all (Some p) c ps !! p = Some q.
Proof. intros Hq. unfold wake_all. rewrite list_lookup_imap, Hq. cbn. by rewrite bool_decide_eq_true_2. Qed.

Lemma usertrap_resume_run p d e s : held e = ∅ -> mpd s !! p = Some d ->
  usertrap_resume (running_as p e) s = Ret (MAKE_SATP (pd_pagetable d)) (set_held (running_as p e) ∅) (prepared d s).
Proof.
  intros Hh Hd. unfold usertrap_resume. rewrite (bind_step (@curproc machine) _ _ _ p (running_as p e) s) by done.
  assert (Er : release (ProcLock p) (running_as p e) s = Ret tt (set_held (running_as p e) ∅) s).
  { unfold release. cbn. rewrite Hh. rewrite bool_decide_eq_true_2 by set_solver. do 2 f_equal. set_solver. }
  rewrite (bind_step _ _ _ _ _ _ _ Er). by apply usertrap_return_run.
Qed.

(** C39 Preemption by the clock is transparent to the process.  A clock interrupt
    on hart 0 while process [p] runs user code advances the tick counter, makes
    every process that sleeps for a tick runnable, asks for the next interrupt and
    gives up the CPU with [p] runnable.  Whenever [p] is scheduled again, with its
    own data and trap frame as it left them, it returns to the instruction it was
    interrupted at, in user mode, with all its registers as they were. *)
Theorem usertrap_timer e p q d s : cproc e = Some p -> procs e !! p = Some q -> p_killed q = 0 ->
  held e = ∅ -> procs_ok e -> mpd s !! p = Some d ->
  Z.testbit (m_csr s SSTATUS) 8 = false -> m_csr s SCAUSE = 0x8000000000000005 -> i32 (m_csr s TP) = 0 ->
  exists e1 s1, usertrap pad claim ReadR e s = Block e1 s1 /\
    procs e1 = alter (set_state RUNNABLE) p (wake_all (Some p) ChanTicks (procs e)) /\
    k_ticks (m_kst s1) = u32 (k_ticks (m_kst s) + 1) /\ m_csr s1 STIMECMP = u64 (m_csr s TIME + 1000000) /\
    forall e2 s2, held e2 = ∅ -> mpd s2 !! p = Some d ->
      (forall o, 0 <= o < sizeof_trapframe -> mmem s2 (pd_trapframe d + o) = mmem s1 (pd_trapframe d + o)) ->
      exists e3 s3, usertrap_resume (running_as p e2) s2 = Ret (MAKE_SATP (pd_pagetable d)) e3 s3 /\
        held e3 = ∅ /\ m_csr s3 SEPC = u64 (m_csr s SEPC) /\
        m_csr s3 STVEC = u64 (TRAMPOLINE + (uservec - trampoline)) /\
        Z.testbit (m_csr s3 SSTATUS) 8 = false /\ Z.testbit (m_csr s3 SSTATUS) 5 = true /\
        forall o, 40 <= o < sizeof_trapframe -> mmem s3 (pd_trapframe d + o) = mmem s (pd_trapframe d + o).
Proof.
  intros Hc Hq Hk Hh Hok Hd Hs Hsc Ht. set (a := pd_trapframe d).
  set (s0 := tf_put a tf_epc (m_csr s SEPC) (set_csr STVEC (u64 kernelvec) s)).
  set (e1 := set_procs e (wake_all (cproc e) ChanTicks (procs e))).
  assert (Hq1 : procs e1 !! p = Some q) by (unfold e1; cbn; rewrite Hc; by apply not_woken_self).
  exists (set_procs (set_held e1 {[ProcLock p]}) (alter (set_state RUNNABLE) p (procs e1))), (ticked s0).
  split; [|split; [cbn; by rewrite Hc|split; [done|split; [done|]]]].
  - unfold usertrap. csrs. ksteps. rewrite (spp_clear s Hs). ksteps.
    rewrite (bind_step _ _ _ _ _ _ _ (curproc_run p e _ Hc)). tsteps p d.
    csr_is SCAUSE (m_csr s SCAUSE). rewrite Hsc. change (0x8000000000000005 =? 8) with false. ksteps.
    change (tf_put _ tf_epc _ _) with s0.
    assert (Ed : devintr claim ReadR e s0 = Ret 2 e1 (ticked s0)).
    { unfold devintr. csrs. ksteps. csr_is SCAUSE (m_csr s SCAUSE). rewrite Hsc. cbn [Z.eqb Pos.eqb].
      rewrite (bind_step _ _ _ _ _ _ _ (clockintr_run e s0 Ht Hh Hok)). done. }
    rewrite (bind_step _ _ _ _ _ _ _ Ed). change (negb (2 =? 0)) with true. ksteps.
    rewrite (bind_step _ _ _ _ _ _ _ (killed_run p q e1 _ ltac:(unfold e1; cbn; rewrite Hh; set_solver) Hq1)).
    rewrite Hk. change (truth 0) with false. ksteps. change (2 =? 2) with true. ksteps.
    unfold bind. by rewrite (yield_run p q e1 _ Hc Hh Hq1).
  - intros e2 s2 Hh2 Hd2 Hm. exists (set_held (running_as p e2) ∅), (prepared d s2).
    pose proof (prepared_ready d s2) as R. split; [|split; [done|]].
    + by apply usertrap_resume_run.
    + rewrite (ur_sepc _ _ _ R), (ur_stvec _ _ _ R), (ur_spp _ _ _ R), (ur_spie _ _ _ R).
      change (mmem (ticked s0)) with (store64 (mmem s) (a + tf_epc) (m_csr s SEPC)) in Hm.
      split; [|do 3 (split; [done|])].
      * fold a. rewrite (load_ext _ (mmem s2) (store64 (mmem s) (a + tf_epc) (m_csr s SEPC))).
        -- rewrite load_store. change (256 ^ Z.of_nat 8) with (2 ^ 64). unfold uint_wrap. by apply Z.mod_mod.
        -- intros x Hx. replace x with (a + (x - a)) by lia. apply Hm. unfold tf_epc, sizeof_trapframe in *. lia.
      * intros o Ho. rewrite (ur_mem _ _ _ R) by (unfold sizeof_trapframe in Ho; lia). fold a.
        rewrite Hm by lia. rewrite store_out by (unfold tf_epc; lia). done.
Qed.

End Usertrap.

(** ** Witnesses *)

#[local] Instance demo_symbols : Symbols := {| kernelvec := 0x80001000; uservec := 0x80007000; userret := 0x80007100; usertrap_addr := 0x80002000 |}.
#[local] Instance demo_tlinker : Linker := {| kend := 0x80021000; etext := 0x80008000; trampoline := 0x80007000 |}.

(** A process traps at user address 4100 with cause [c]; its trap frame holds the
    system call number 0. *)
Definition demo_machine (c : Z) : machine :=
  Machine demo_kst (Vqueue [] [] 0 [] 0 [] 0 [] [] [] [])
    (fun r => match r with SCAUSE => c | SEPC => 4100 | TIME => 5 | _ => 0 end) [] 0 0 1.

Lemma usertrap_bad_syscall_witness :
  exists s', usertrap [] (fun _ => 0) (fun _ => 0) demo_kenv (demo_machine 8) = Ret (MAKE_SATP 12288) demo_kenv s' /\
    m_csr s' SEPC = 4104 /\ load64 (mmem s') (4096 + tf_a 0) = 2 ^ 64 - 1.
Proof.
  destruct (usertrap_bad_syscall [] (fun _ => 0) (fun _ => 0) demo_kenv 0 demo_runner demo_kpd (demo_machine 8))
    as (s' & E & Hp & _ & _ & _ & Ha & _);
    [reflexivity|reflexivity|reflexivity|apply not_elem_of_empty|reflexivity|reflexivity|reflexivity| |].
  - change (i32 _) with 0. lia.
  - exists s'. split; [exact E|]. split; [exact Hp|exact Ha].
Defined.

Lemma usertrap_timer_witness :
  exists e1 s1, usertrap [] (fun _ => 0) (fun _ => 0) demo_kenv (demo_machine 0x8000000000000005) = Block e1 s1 /\
    k_ticks (m_kst s1) = 0 /\ m_csr s1 STIMECMP = 1000005.
Proof.
  destruct (usertrap_timer [] (fun _ => 0) (fun _ => 0) demo_kenv 0 demo_runner demo_kpd (demo_machine 0x8000000000000005))
    as (e1 & s1 & E & _ & Ht & Hs & _);
    [reflexivity|reflexivity|reflexivity|reflexivity|reflexivity|reflexivity|reflexivity|reflexivity|reflexivity|].
  exists e1, s1. split; [exact E|]. split; [exact Ht|exact Hs].
Defined.
