(* ===== verification/Boot.v ===== *)
(** * kernel/start.c and kernel/main.c

    What each hart does before it schedules processes: the machine-mode set-up,
    and the initialisation of the kernel by hart 0.  The other harts spin until
    hart 0 has finished. *)

From stdpp Require Import base gmap sets list strings.
From Stdlib Require Import ZArith Lia.
From S2P Require Import Prelude Kernel Riscv Kalloc Vm Sched Sem Shm Sleeplock Bytes Bio Log Usr Fs Pipe Uart Console Printf File Proc Exec Sysfile Virtio Syscall Trap.

(** ** Definitions *)

Definition MSTATUS_MPP_MASK : Z := Z.shiftl 3 11.
Definition MSTATUS_MPP_S : Z := Z.shiftl 1 11.
Definition SIE_SEIE : Z := Z.shiftl 1 9.
Definition SIE_STIE : Z := Z.shiftl 1 5.
Definition MIE_STIE : Z := Z.shiftl 1 5.

Definition timerinit : K machine unit :=
  mie <- r_mie ;;
  w_mie (Z.lor mie MIE_STIE) ;;
  x <- r_menvcfg ;;
  w_menvcfg (Z.lor x (Z.shiftl 1 63)) ;;
  c <- r_mcounteren ;;
  w_mcounteren (Z.lor c 2) ;;
  t <- r_time ;;
  w_stimecmp (t + 1000000).

(** [start], for [main] at address [main_addr], up to its [mret] *)
Definition start (main_addr : Z) : K machine unit :=
  x <- r_mstatus ;;
  w_mstatus (Z.lor (Z.land x (Z.lnot MSTATUS_MPP_MASK)) MSTATUS_MPP_S) ;;
  w_mepc main_addr ;;
  w_satp 0 ;;
  w_medeleg 0xffff ;;
  w_mideleg 0xffff ;;
  sie <- r_sie ;;
  w_sie (Z.lor (Z.lor sie SIE_SEIE) SIE_STIE) ;;
  w_pmpaddr0 0x3fffffffffffff ;;
  w_pmpcfg0 0xf ;;
  timerinit ;;
  id <- r_mhartid ;;
  w_tp (i32 id).

Definition machine_kmem_get (s : machine) : kmem := file_kmem (k_file (m_kst s)).
Definition machine_kmem_put (k : kmem) (s : machine) : machine :=
  part_put (part_put (with_kmem k (k_file (m_kst s))) (m_kst s)) s.

#[local] Instance machine_kmem : Part machine kmem :=
  {| part_get := machine_kmem_get;
     part_put := machine_kmem_put;
     part_get_put := fun _ _ => eq_refl;
     part_put_get := fun s =>
       match s with
       | Machine (Kst (Filest (Fs (Usr _ _) _ _ _ _) _ _ _ _) _ _ _ _) _ _ _ _ _ _ => eq_refl
       end;
     part_put_put := fun _ _ _ => eq_refl |}.

#[local] Instance machine_vinit : Part machine vinit :=
  {| part_get := fun s => Vinit (machine_kmem_get s) (vdisk_get s);
     part_put := fun v s => machine_kmem_put (vi_kmem v) (vdisk_put (vi_disk v) s);
     part_get_put := fun v s => match v with Vinit _ (Vdisk _ _ _ _ _ _ _ _ _ _ _ _) => eq_refl end;
     part_put_get := fun s =>
       match s with
       | Machine (Kst (Filest (Fs (Usr _ _) (Logst _ _ _ _ _ _ _ _) _ _ _) _ _ _ _) _ _ _ _)
           (Vqueue _ _ _ _ _ _ _ _ _ _ _) _ _ _ _ _ => eq_refl
       end;
     part_put_put := fun _ _ _ => eq_refl |}.

Definition on_uart {A} (m : K uart A) : K machine A := in_proc (zoom (zoom m : K cons A)).
Definition in_kmem {A} (m : K kmem A) : K machine A := zoom m.

Definition set_kernel_pagetable (v : Z) (s : machine) : machine :=
  Machine (m_kst s) (m_vq s) (m_csr s) (m_plic s) v (m_first s) (m_started s).
Definition set_started (v : Z) (s : machine) : machine :=
  Machine (m_kst s) (m_vq s) (m_csr s) (m_plic s) (m_kernel_pagetable s) (m_first s) v.

(** "xv6 kernel is booting" and "hart %d starting", with their newlines *)
Definition booting_msg : list Z := [120; 118; 54; 32; 107; 101; 114; 110; 101; 108; 32; 105; 115; 32; 98; 111; 111; 116; 105; 110; 103; 10].
Definition starting_msg : list Z := [104; 97; 114; 116; 32; 37; 100; 32; 115; 116; 97; 114; 116; 105; 110; 103; 10].

Section Boot.
Context {L : Linker} {Sy : Symbols} (ReadR : Z -> Z).

(** kernel/vm.c *)
Definition kvminit : K machine unit :=
  pt <- in_kmem kvmmake ;;
  modify (set_kernel_pagetable pt).

Definition kvminithart : K machine unit :=
  sfence_vma ;;
  pt <- gets m_kernel_pagetable ;;
  w_satp (MAKE_SATP pt) ;;
  sfence_vma.

(** [main], up to its call of [scheduler] *)
Definition main : K machine unit :=
  id <- cpuid ;;
  if id =? 0 then
    in_proc consoleinit ;;
    on_uart printfinit ;;
    on_uart (printf [10] []) ;;
    on_uart (printf booting_msg []) ;;
    on_uart (printf [10] []) ;;
    in_kmem kinit ;;
    kvminit ;;
    kvminithart ;;
    in_proc procinit ;;
    on_kst (in_shm shm_init) ;;
    trapinit ;;
    trapinithart ;;
    plicinit ;;
    plicinithart ;;
    in_proc (on_fs (zoom (zoom binit : K logst unit))) ;;
    in_proc (on_fs iinit) ;;
    in_proc fileinit ;;
    (zoom (virtio_disk_init ReadR) : K machine unit) ;;
    in_proc userinit ;;
    modify (set_started 1)
  else
    started <- gets m_started ;;
    if started =? 0 then spin_forever
    else
      on_uart (printf starting_msg [VaWord id]) ;;
      kvminithart ;;
      trapinithart ;;
      plicinithart.

End Boot.
