(* ===== verification/Asm.v ===== *)
(** * The assembly routines

    kernel/entry.S, swtch.S, kernelvec.S and trampoline.S as lists of instructions,
    run by a hart with its registers and CSRs, whose accesses to memory go through
    the page table in [satp].

    What the theorems show: [uservec] and [userret] save and restore the registers
    of user code in the trapframe page of its address space, across the two changes
    of the page table; [swtch] and [kernelvec] give back the registers they saved. *)

From stdpp Require Import base gmap sets list strings.
From Stdlib Require Import ZArith Lia.
From S2P Require Import Prelude Kernel Riscv Kalloc Vm VmUser VmSpace VmFree Usr Proc Trap ProcMem.

(** ** The hart *)

Inductive reg : Type :=
  | x_zero | x_ra | x_sp | x_gp | x_tp | x_t0 | x_t1 | x_t2 | x_s0 | x_s1
  | x_a0 | x_a1 | x_a2 | x_a3 | x_a4 | x_a5 | x_a6 | x_a7
  | x_s2 | x_s3 | x_s4 | x_s5 | x_s6 | x_s7 | x_s8 | x_s9 | x_s10 | x_s11
  | x_t3 | x_t4 | x_t5 | x_t6.

Definition reg_num (r : reg) : Z :=
  match r with
  | x_zero => 0 | x_ra => 1 | x_sp => 2 | x_gp => 3 | x_tp => 4 | x_t0 => 5 | x_t1 => 6 | x_t2 => 7 | x_s0 => 8 | x_s1 => 9
  | x_a0 => 10 | x_a1 => 11 | x_a2 => 12 | x_a3 => 13 | x_a4 => 14 | x_a5 => 15 | x_a6 => 16 | x_a7 => 17
  | x_s2 => 18 | x_s3 => 19 | x_s4 => 20 | x_s5 => 21 | x_s6 => 22 | x_s7 => 23 | x_s8 => 24 | x_s9 => 25 | x_s10 => 26 | x_s11 => 27
  | x_t3 => 28 | x_t4 => 29 | x_t5 => 30 | x_t6 => 31
  end.

Definition all_regs : list reg :=
  [x_zero; x_ra; x_sp; x_gp; x_tp; x_t0; x_t1; x_t2; x_s0; x_s1; x_a0; x_a1; x_a2; x_a3; x_a4; x_a5; x_a6; x_a7;
   x_s2; x_s3; x_s4; x_s5; x_s6; x_s7; x_s8; x_s9; x_s10; x_s11; x_t3; x_t4; x_t5; x_t6].

Lemma reg_num_inj r r' : reg_num r = reg_num r' -> r = r'.
Proof.
  assert (H : forall r, nth (Z.to_nat (reg_num r)) all_regs x_zero = r) by (by intros []).
  intros E. by rewrite <- (H r), <- (H r'), E.
Qed.

#[export] Instance reg_eq_dec : EqDecision reg.
Proof. intros r r'. destruct (decide (reg_num r = reg_num r')) as [E|E]; [left; by apply reg_num_inj|right; congruence]. Defined.

Inductive sreg : Type := SSCRATCH | C_SATP | C_SEPC | C_SSTATUS | C_MHARTID.

#[export] Instance sreg_eq_dec : EqDecision sreg.
Proof. solve_decision. Defined.

(** The instructions the routines use.  [la], [li] and [call] are what the assembler
    makes of them; [Jalr] and [Call] carry the address after them. *)
Inductive instr : Type :=
  | Sd (rs : reg) (off : Z) (rb : reg)
  | Ld (rd : reg) (off : Z) (rb : reg)
  | Li (rd : reg) (v : Z)
  | La (rd : reg) (v : Z)
  | Addi (rd rs : reg) (v : Z)
  | Add (rd rs rt : reg)
  | Mul (rd rs rt : reg)
  | Csrw (c : sreg) (rs : reg)
  | Csrr (rd : reg) (c : sreg)
  | Sfence_vma
  | Jalr (rs : reg) (next : Z)
  | Call (f next : Z)
  | Ret_
  | Sret.

Record hart : Type := Hart {
  h_regs : reg -> Z;
  h_csr : sreg -> Z;
  h_mem : mem;
  h_pc : Z;        (* where a routine goes when it is left *)
  h_user : bool    (* user mode *)
}.

Definition set_hregs (f : reg -> Z) (h : hart) : hart := Hart f (h_csr h) (h_mem h) (h_pc h) (h_user h).
Definition set_hmem (m : mem) (h : hart) : hart := Hart (h_regs h) (h_csr h) m (h_pc h) (h_user h).
Definition set_hpc (v : Z) (h : hart) : hart := Hart (h_regs h) (h_csr h) (h_mem h) v (h_user h).
Definition set_hcsr (c : sreg) (v : Z) (h : hart) : hart :=
  Hart (h_regs h) (fun c' => if decide (c' = c) then v else h_csr h c') (h_mem h) (h_pc h) (h_user h).
Definition upd (r : reg) (v : Z) (f : reg -> Z) : reg -> Z :=
  fun r' => if decide (r' = r) then v else f r'.
(** The register x0 stays 0. *)
Definition set_reg (r : reg) (v : Z) (h : hart) : hart :=
  if decide (r = x_zero) then h else set_hregs (upd r v (h_regs h)) h.

(** ** Address translation in supervisor mode

    Sv39 on the lower half of the address space, all that is mapped here: a page
    must be valid, have the permission and not belong to user code. *)

Definition satp_root (satp : Z) : Z := Z.shiftl (Z.land satp (2 ^ 44 - 1)) 12.

Definition xlate (m : mem) (satp perm va : Z) : option Z :=
  if Z.shiftr satp 60 =? 0 then Some va
  else if in_range 0 MAXVA va then
    let pte := lookup_pte m (satp_root satp) va in
    if pte_has pte PTE_V && pte_has pte perm && negb (pte_has pte PTE_U) then Some (PTE2PA pte + va mod PGSIZE) else None
  else None.

Definition xl (h : hart) (perm va : Z) : option Z := xlate (h_mem h) (h_csr h C_SATP) perm va.

(** ** Instructions *)

(** [sret]: SIE becomes SPIE, SPIE 1 and SPP 0; the new mode is user if SPP was 0. *)
Definition sret_status (v : Z) : Z :=
  let v1 := if Z.testbit v 5 then Z.setbit v 1 else Z.clearbit v 1 in
  Z.clearbit (Z.setbit v1 5) 8.

Definition step (i : instr) (h : hart) : option hart :=
  match i with
  | Sd rs off rb =>
      match xl h PTE_W (u64 (h_regs h rb + off)) with
      | Some pa => Some (set_hmem (store64 (h_mem h) pa (h_regs h rs)) h)
      | None => None
      end
  | Ld rd off rb =>
      match xl h PTE_R (u64 (h_regs h rb + off)) with
      | Some pa => Some (set_reg rd (load64 (h_mem h) pa) h)
      | None => None
      end
  | Li rd v | La rd v => Some (set_reg rd v h)
  | Addi rd rs v => Some (set_reg rd (u64 (h_regs h rs + v)) h)
  | Add rd rs rt => Some (set_reg rd (u64 (h_regs h rs + h_regs h rt)) h)
  | Mul rd rs rt => Some (set_reg rd (u64 (h_regs h rs * h_regs h rt)) h)
  | Csrw c rs => Some (set_hcsr c (h_regs h rs) h)
  | Csrr rd c => Some (set_reg rd (h_csr h c) h)
  | Sfence_vma => Some h
  | Jalr rs next => Some (set_hpc (h_regs h rs) (set_reg x_ra next h))
  | Call f next => Some (set_hpc f (set_reg x_ra next h))
  | Ret_ => Some (set_hpc (h_regs h x_ra) h)
  | Sret =>
      Some (Hart (h_regs h) (h_csr (set_hcsr C_SSTATUS (sret_status (h_csr h C_SSTATUS)) h)) (h_mem h) (h_csr h C_SEPC)
                 (negb (Z.testbit (h_csr h C_SSTATUS) 8)))
  end.

(** Straight-line code; each instruction must be fetched, and a fault ends the run. *)
Fixpoint run_code (fetch : hart -> bool) (code : list instr) (h : hart) : option hart :=
  match code with
  | [] => Some h
  | i :: code =>
      if fetch h then
        match step i h with
        | Some h' => run_code fetch code h'
        | None => None
        end
      else None
  end.

(** ** The routines *)

(** entry.S, up to the call of [start] *)
Definition entry_code (stack0 start next : Z) : list instr :=
  [La x_sp stack0; Li x_a0 (1024 * 4); Csrr x_a1 C_MHARTID; Addi x_a1 x_a1 1; Mul x_a0 x_a0 x_a1;
   Add x_sp x_sp x_a0; Call start next].

(** swtch.S *)
Definition swtch_code : list instr :=
  [Sd x_ra 0 x_a0; Sd x_sp 8 x_a0; Sd x_s0 16 x_a0; Sd x_s1 24 x_a0; Sd x_s2 32 x_a0;
   Sd x_s3 40 x_a0; Sd x_s4 48 x_a0; Sd x_s5 56 x_a0; Sd x_s6 64 x_a0; Sd x_s7 72 x_a0;
   Sd x_s8 80 x_a0; Sd x_s9 88 x_a0; Sd x_s10 96 x_a0; Sd x_s11 104 x_a0; Ld x_ra 0 x_a1;
   Ld x_sp 8 x_a1; Ld x_s0 16 x_a1; Ld x_s1 24 x_a1; Ld x_s2 32 x_a1; Ld x_s3 40 x_a1;
   Ld x_s4 48 x_a1; Ld x_s5 56 x_a1; Ld x_s6 64 x_a1; Ld x_s7 72 x_a1; Ld x_s8 80 x_a1;
   Ld x_s9 88 x_a1; Ld x_s10 96 x_a1; Ld x_s11 104 x_a1; Ret_].

(** kernelvec.S, up to the call of [kerneltrap] and from its return on *)
Definition kernelvec_code (kerneltrap next : Z) : list instr :=
  [Addi x_sp x_sp (-256); Sd x_ra 0 x_sp; Sd x_gp 16 x_sp; Sd x_tp 24 x_sp; Sd x_t0 32 x_sp;
   Sd x_t1 40 x_sp; Sd x_t2 48 x_sp; Sd x_a0 72 x_sp; Sd x_a1 80 x_sp; Sd x_a2 88 x_sp;
   Sd x_a3 96 x_sp; Sd x_a4 104 x_sp; Sd x_a5 112 x_sp; Sd x_a6 120 x_sp; Sd x_a7 128 x_sp;
   Sd x_t3 216 x_sp; Sd x_t4 224 x_sp; Sd x_t5 232 x_sp; Sd x_t6 240 x_sp; Call kerneltrap next].

Definition kernelvec_return : list instr :=
  [Ld x_ra 0 x_sp; Ld x_gp 16 x_sp; Ld x_t0 32 x_sp; Ld x_t1 40 x_sp; Ld x_t2 48 x_sp;
   Ld x_a0 72 x_sp; Ld x_a1 80 x_sp; Ld x_a2 88 x_sp; Ld x_a3 96 x_sp; Ld x_a4 104 x_sp;
   Ld x_a5 112 x_sp; Ld x_a6 120 x_sp; Ld x_a7 128 x_sp; Ld x_t3 216 x_sp; Ld x_t4 224 x_sp;
   Ld x_t5 232 x_sp; Ld x_t6 240 x_sp; Addi x_sp x_sp 256; Sret].

(** trampoline.S *)
Section Trampoline.
Context {L : Linker} {Sy : Symbols}.

Definition uservec_code : list instr :=
  [Csrw SSCRATCH x_a0; Li x_a0 TRAPFRAME; Sd x_ra 40 x_a0; Sd x_sp 48 x_a0; Sd x_gp 56 x_a0;
   Sd x_tp 64 x_a0; Sd x_t0 72 x_a0; Sd x_t1 80 x_a0; Sd x_t2 88 x_a0; Sd x_s0 96 x_a0;
   Sd x_s1 104 x_a0; Sd x_a1 120 x_a0; Sd x_a2 128 x_a0; Sd x_a3 136 x_a0; Sd x_a4 144 x_a0;
   Sd x_a5 152 x_a0; Sd x_a6 160 x_a0; Sd x_a7 168 x_a0; Sd x_s2 176 x_a0; Sd x_s3 184 x_a0;
   Sd x_s4 192 x_a0; Sd x_s5 200 x_a0; Sd x_s6 208 x_a0; Sd x_s7 216 x_a0; Sd x_s8 224 x_a0;
   Sd x_s9 232 x_a0; Sd x_s10 240 x_a0; Sd x_s11 248 x_a0; Sd x_t3 256 x_a0; Sd x_t4 264 x_a0;
   Sd x_t5 272 x_a0; Sd x_t6 280 x_a0; Csrr x_t0 SSCRATCH; Sd x_t0 112 x_a0; Ld x_sp 8 x_a0;
   Ld x_tp 32 x_a0; Ld x_t0 16 x_a0; Ld x_t1 0 x_a0; Sfence_vma; Csrw C_SATP x_t1;
   Sfence_vma; Jalr x_t0 (TRAMPOLINE + (userret - trampoline))].

Definition userret_code : list instr :=
  [Sfence_vma; Csrw C_SATP x_a0; Sfence_vma; Li x_a0 TRAPFRAME; Ld x_ra 40 x_a0;
   Ld x_sp 48 x_a0; Ld x_gp 56 x_a0; Ld x_tp 64 x_a0; Ld x_t0 72 x_a0; Ld x_t1 80 x_a0;
   Ld x_t2 88 x_a0; Ld x_s0 96 x_a0; Ld x_s1 104 x_a0; Ld x_a1 120 x_a0; Ld x_a2 128 x_a0;
   Ld x_a3 136 x_a0; Ld x_a4 144 x_a0; Ld x_a5 152 x_a0; Ld x_a6 160 x_a0; Ld x_a7 168 x_a0;
   Ld x_s2 176 x_a0; Ld x_s3 184 x_a0; Ld x_s4 192 x_a0; Ld x_s5 200 x_a0; Ld x_s6 208 x_a0;
   Ld x_s7 216 x_a0; Ld x_s8 224 x_a0; Ld x_s9 232 x_a0; Ld x_s10 240 x_a0; Ld x_s11 248 x_a0;
   Ld x_t3 256 x_a0; Ld x_t4 264 x_a0; Ld x_t5 272 x_a0; Ld x_t6 280 x_a0; Ld x_a0 112 x_a0;
   Sret].
End Trampoline.

(** The fields of [struct trapframe] that hold user registers, and of [struct context] *)
Definition tf_off (r : reg) : Z :=
  match r with
  | x_zero => 0 | x_ra => 40 | x_sp => 48 | x_gp => 56 | x_tp => 64 | x_t0 => 72 | x_t1 => 80 | x_t2 => 88 | x_s0 => 96 | x_s1 => 104
  | x_a0 => 112 | x_a1 => 120 | x_a2 => 128 | x_a3 => 136 | x_a4 => 144 | x_a5 => 152 | x_a6 => 160 | x_a7 => 168
  | x_s2 => 176 | x_s3 => 184 | x_s4 => 192 | x_s5 => 200 | x_s6 => 208 | x_s7 => 216 | x_s8 => 224 | x_s9 => 232 | x_s10 => 240 | x_s11 => 248
  | x_t3 => 256 | x_t4 => 264 | x_t5 => 272 | x_t6 => 280
  end.

Definition context_regs : list (reg * Z) :=
  [(x_ra, 0); (x_sp, 8); (x_s0, 16); (x_s1, 24); (x_s2, 32); (x_s3, 40); (x_s4, 48); (x_s5, 56); (x_s6, 64); (x_s7, 72);
   (x_s8, 80); (x_s9, 88); (x_s10, 96); (x_s11, 104)].

(** ** Blocks of stores and loads *)

Definition stores (rb : reg) (l : list (reg * Z)) : list instr := map (fun x => Sd (fst x) (snd x) rb) l.
Definition loads (rb : reg) (l : list (reg * Z)) : list instr := map (fun x => Ld (fst x) (snd x) rb) l.

Definition saved (f : reg -> Z) (pa : Z) (m : mem) (l : list (reg * Z)) : mem := foldl (fun m x => store64 m (pa + snd x) (f (fst x))) m l.
Definition loaded (m : mem) (pa : Z) (f : reg -> Z) (l : list (reg * Z)) : reg -> Z := foldl (fun f x => upd (fst x) (load64 m (pa + snd x)) f) f l.

(** Changes of memory inside [pa, pa + n) *)
Definition within (pa n : Z) (m m' : mem) : Prop := forall x, ~ (pa <= x < pa + n) -> m' x = m x.

(** The words of a block: aligned, inside [0, n), one for each register *)
Definition block (n : Z) (l : list (reg * Z)) : Prop :=
  Forall (fun x => 0 <= snd x /\ snd x + 8 <= n /\ snd x mod 8 = 0 /\ fst x <> x_zero) l /\ NoDup (snd <$> l) /\ NoDup (fst <$> l).

Lemma exec_app fetch c1 c2 h : run_code fetch (c1 ++ c2) h = match run_code fetch c1 h with Some h' => run_code fetch c2 h' | None => None end.
Proof. revert h. induction c1 as [|i c1 IH]; intros h; cbn; [done|]. destruct (fetch h); [|done]. destruct (step i h); [apply IH|done]. Qed.

Lemma exec_step fetch i code h h' : fetch h = true -> step i h = Some h' -> run_code fetch (i :: code) h = run_code fetch code h'.
Proof. intros Hf Hs. cbn. by rewrite Hf, Hs. Qed.

Lemma within_refl pa n m : within pa n m m.
Proof. by intros x. Qed.

Lemma within_store pa n m m' o v : within pa n m m' -> 0 <= o -> o + 8 <= n -> within pa n m (store64 m' (pa + o) v).
Proof. intros H Ho Hn x Hx. rewrite store_out by lia. by apply H. Qed.

Lemma saved_within f pa n l : forall m m', Forall (fun x => 0 <= snd x /\ snd x + 8 <= n /\ snd x mod 8 = 0 /\ fst x <> x_zero) l -> within pa n m m' -> within pa n m (saved f pa m' l).
Proof.
  induction l as [|[r o] l IH]; intros m m' Hb H; [done|]. apply Forall_cons in Hb as [(? & ? & _) Hb]. cbn in *. apply IH; [done|]. by apply within_store.
Qed.

Lemma exec_stores fetch rb pa n l : forall h, block n l ->
  (forall m', within pa n (h_mem h) m' -> fetch (set_hmem m' h) = true /\
     forall o, 0 <= o -> o + 8 <= n -> xlate m' (h_csr h C_SATP) PTE_W (u64 (h_regs h rb + o)) = Some (pa + o)) ->
  run_code fetch (stores rb l) h = Some (set_hmem (saved (h_regs h) pa (h_mem h) l) h).
Proof.
  induction l as [|[r o] l IH]; intros h (Hb & Hn & Hn') Hx; [by destruct h|]. apply Forall_cons in Hb as [(H0 & H1 & _) Hb].
  destruct (Hx (h_mem h) (within_refl _ _ _)) as [Hf Ht]. cbn [stores map].
  rewrite (exec_step _ _ _ h (set_hmem (store64 (h_mem h) (pa + o) (h_regs h r)) h)); [| |cbn in *; unfold xl; by rewrite Ht].
  - cbn in Hn, Hn'. apply NoDup_cons in Hn as [_ Hn]. apply NoDup_cons in Hn' as [_ Hn']. change (map _ l) with (stores rb l). rewrite IH; [done|done|].
    intros m' Hm'. apply Hx. intros x Hx'. rewrite Hm' by done. cbn in *. by apply store_out; lia.
  - destruct h. apply Hf.
Qed.

Lemma exec_loads fetch rb pa n l : forall h, block n l -> rb ∉ (fst <$> l) -> (forall f, fetch (set_hregs f h) = true) ->
  (forall o, 0 <= o -> o + 8 <= n -> xl h PTE_R (u64 (h_regs h rb + o)) = Some (pa + o)) ->
  run_code fetch (loads rb l) h = Some (set_hregs (loaded (h_mem h) pa (h_regs h) l) h).
Proof.
  induction l as [|[r o] l IH]; intros h (Hb & Hn & Hn') Hrb Hf Hx; [by destruct h|]. apply Forall_cons in Hb as [(H0 & H1 & _ & Hz) Hb].
  cbn in Hrb, Hz. apply not_elem_of_cons in Hrb as [Hr Hrb]. cbn [loads map].
  rewrite (exec_step _ _ _ h (set_hregs (upd r (load64 (h_mem h) (pa + o)) (h_regs h)) h)).
  - cbn in Hn, Hn'. apply NoDup_cons in Hn as [_ Hn]. apply NoDup_cons in Hn' as [_ Hn']. change (map _ l) with (loads rb l). rewrite IH; [done|done|done|done|].
    intros o' Ho Ho'. change (h_regs (set_hregs ?f h)) with f. unfold upd. rewrite decide_False by done. by apply Hx.
  - destruct h. apply (Hf h_regs0).
  - cbn in *. rewrite Hx by done. unfold set_reg. by rewrite decide_False.
Qed.

Lemma loaded_out m pa l r : forall f, r ∉ (fst <$> l) -> loaded m pa f l r = f r.
Proof.
  induction l as [|[r' o] l IH]; intros f Hr; [done|]. cbn in Hr. apply not_elem_of_cons in Hr as [Hne Hr]. change (loaded m pa (upd r' (load64 m (pa + o)) f) l r = f r).
  rewrite IH by done. unfold upd. by rewrite decide_False.
Qed.

Lemma loaded_in m pa l r o : forall f, NoDup (fst <$> l) -> (r, o) ∈ l -> loaded m pa f l r = load64 m (pa + o).
Proof.
  induction l as [|[r' o'] l IH]; intros f Hn Hr; [by apply not_elem_of_nil in Hr|]. cbn in Hn. apply NoDup_cons in Hn as [Hr' Hn].
  apply elem_of_cons in Hr as [[= -> ->]|Hr]; [|by apply (IH (upd r' (load64 m (pa + o')) f))]. change (loaded m pa (upd r' (load64 m (pa + o')) f) l r' = load64 m (pa + o')).
  rewrite loaded_out by done. unfold upd. by rewrite decide_True.
Qed.

Lemma saved_out f pa l a : forall m, Forall (fun x => a + 8 <= snd x \/ snd x + 8 <= a) l -> load64 (saved f pa m l) (pa + a) = load64 m (pa + a).
Proof.
  induction l as [|[r o] l IH]; intros m Hl; [done|]. apply Forall_cons in Hl as [Ho Hl]. cbn in *. change (foldl _ ?m0 l) with (saved f pa m0 l). rewrite IH by done.
  apply load_store_other. lia.
Qed.

Lemma saved_in f pa n l r o : forall m, block n l -> (r, o) ∈ l -> load64 (saved f pa m l) (pa + o) = u64 (f r).
Proof.
  induction l as [|[r' o'] l IH]; intros m (Hb & Hn & Hn') Hr; [by apply not_elem_of_nil in Hr|]. apply Forall_cons in Hb as [(H0 & H1 & H8 & Hz) Hb].
  cbn in *. apply NoDup_cons in Hn as [Ho Hn]. apply NoDup_cons in Hn' as [_ Hn']. change (foldl _ ?m0 l) with (saved f pa m0 l).
  apply elem_of_cons in Hr as [[= -> ->]|Hr]; [|by apply IH]. rewrite saved_out; [apply load_store|].
  apply Forall_forall. intros [r2 o2] Hx. apply (proj1 (Forall_forall _ _)) with (x := (r2, o2)) in Hb as (? & ? & H8' & _); [|done]. cbn in *.
  assert (o' <> o2) by (intros ->; apply Ho; by apply (list_elem_of_fmap_2 snd _ (r2, o2))).
  pose proof (Z.div_mod o' 8). pose proof (Z.div_mod o2 8). lia.
Qed.

(** ** Steps *)

Lemma upd_same r v f : upd r v f r = v.
Proof. unfold upd. by rewrite decide_True. Qed.

Lemma upd_other r r' v f : r' <> r -> upd r v f r' = f r'.
Proof. intros H. unfold upd. by rewrite decide_False. Qed.

Definition csr_upd (c : sreg) (v : Z) (g : sreg -> Z) : sreg -> Z := fun c' => if decide (c' = c) then v else g c'.

Section Steps.
Context (fetch : hart -> bool) (code : list instr) (f : reg -> Z) (g : sreg -> Z) (m : mem) (pc : Z) (u : bool).
#[local] Notation h := (Hart f g m pc u).
Hypothesis Hf : fetch h = true.

Lemma st_ld rd off rb pa : rd <> x_zero -> xlate m (g C_SATP) PTE_R (u64 (f rb + off)) = Some pa ->
  run_code fetch (Ld rd off rb :: code) h = run_code fetch code (Hart (upd rd (load64 m pa) f) g m pc u).
Proof. intros Hz Hx. apply exec_step; [done|]. cbn. unfold xl. cbn. rewrite Hx. unfold set_reg. by rewrite decide_False. Qed.

Lemma st_sd rs off rb pa : xlate m (g C_SATP) PTE_W (u64 (f rb + off)) = Some pa ->
  run_code fetch (Sd rs off rb :: code) h = run_code fetch code (Hart f g (store64 m pa (f rs)) pc u).
Proof. intros Hx. apply exec_step; [done|]. cbn. unfold xl. cbn. by rewrite Hx. Qed.

Lemma st_set i rd v : rd <> x_zero -> step i h = Some (set_reg rd v h) -> run_code fetch (i :: code) h = run_code fetch code (Hart (upd rd v f) g m pc u).
Proof. intros Hz Hs. apply exec_step; [done|]. rewrite Hs. unfold set_reg. by rewrite decide_False. Qed.

Lemma st_csrw c rs : run_code fetch (Csrw c rs :: code) h = run_code fetch code (Hart f (csr_upd c (f rs) g) m pc u).
Proof. by apply exec_step. Qed.

Lemma st_sfence : run_code fetch (Sfence_vma :: code) h = run_code fetch code h.
Proof. by apply exec_step. Qed.
End Steps.

(** ** The trampoline *)

Definition trap_block : list (reg * Z) :=
  (fun r => (r, tf_off r)) <$> [x_ra; x_sp; x_gp; x_tp; x_t0; x_t1; x_t2; x_s0; x_s1; x_a1; x_a2; x_a3; x_a4; x_a5; x_a6; x_a7;
    x_s2; x_s3; x_s4; x_s5; x_s6; x_s7; x_s8; x_s9; x_s10; x_s11; x_t3; x_t4; x_t5; x_t6].

Lemma satp_bits root : page_aligned root -> 0 <= root < 2 ^ 56 -> Z.shiftr (MAKE_SATP root) 60 = 8 /\ satp_root (MAKE_SATP root) = root.
Proof.
  intros Ha Hr. unfold MAKE_SATP, satp_root. rewrite (Z.shiftr_div_pow2 root) by lia. unfold page_aligned in Ha.
  pose proof (Z.div_mod root 4096). change (root mod 4096) with (root mod PGSIZE) in *. change (2 ^ 12) with 4096.
  assert (Hd : 0 <= root / 4096 < 2 ^ 44) by (split; [apply Z.div_pos; lia|apply Z.div_lt_upper_bound; lia]).
  change SATP_SV39 with (2 ^ 44 * 2 ^ 19). rewrite lor_add by lia. split.
  - rewrite Z.shiftr_div_pow2 by lia. symmetry. apply (Z.div_unique _ _ _ (root / 4096)); lia.
  - change (2 ^ 44 - 1) with (Z.ones 44). rewrite Z.land_ones by lia. rewrite Z.shiftl_mul_pow2 by lia.
    rewrite <- (Z.mod_unique (2 ^ 44 * 2 ^ 19 + root / 4096) (2 ^ 44) (2 ^ 19) (root / 4096)) by lia. change (2 ^ 12) with 4096. lia.
Qed.

Section Trap_frame.
Context {L : Linker} {Sy : Symbols} (Hlink : linker_ok) (Htr : trampoline_ok) (Hal : page_aligned trampoline).

(** The trampoline is mapped where the code runs. *)
Definition fetch_tramp (h : hart) : bool := bool_decide (xl h PTE_X TRAMPOLINE = Some trampoline).

Section Space.
Context (k : kmem) (l : list Z) (root tf sz : Z) (A : aspace k l root tf sz) (Ft : foreign k root l TRAPFRAME 0 tf).

Lemma xlate_root m satp va pte perm : Z.shiftr satp 60 = 8 -> satp_root satp = root -> within tf PGSIZE (kmem_mem k) m -> 0 <= va < MAXVA ->
  lookup_pte (kmem_mem k) root va = pte -> pte_has pte PTE_V = true -> pte_has pte perm = true -> pte_has pte PTE_U = false ->
  xlate m satp perm va = Some (PTE2PA pte + va mod PGSIZE).
Proof.
  intros H8 Hr Hw Hva Hp Hv Hperm Hu. unfold xlate. rewrite H8, Hr. change (8 =? 0) with false. cbv iota. rewrite (proj2 (in_range_true 0 MAXVA va)) by lia.
  destruct (lookup_pte_ext (kmem_mem k) m root) as [_ Hlk].
  { intros p t Hpath Et x Hx. apply Hw. intros Hx'. destruct (aspace_table k l root tf sz t A) as [Hkt _]; [by exists p|].
    destruct Ft as (Hkf & _ & Hnt & _). apply Hnt. rewrite (page_of_byte Hlink tf t x) by done. by exists p. }
  by rewrite Hlk, Hp, Hv, Hperm, Hu.
Qed.

Lemma root_ok : page_aligned root /\ 0 <= root < 2 ^ 56.
Proof.
  destruct (aspace_table k l root tf sz root A) as [Hk _]; [by exists []; split; [apply path_ok_nil|]|]. split; [apply Hk|].
  pose proof (kpage_map Hlink root Hk). unfold PGSIZE in *. lia.
Qed.

Lemma frame_xlate m perm o : within tf PGSIZE (kmem_mem k) m -> perm = PTE_R \/ perm = PTE_W -> 0 <= o -> o + 8 <= PGSIZE ->
  xlate m (MAKE_SATP root) perm (u64 (TRAPFRAME + o)) = Some (tf + o).
Proof.
  intros Hw Hperm Ho Ho'. destruct root_ok as [Ha Hr]. destruct (satp_bits root Ha Hr) as [H8 Hroot]. pose proof (as_frame _ _ _ _ _ A) as Hkf.
  pose proof (kpage_map Hlink tf Hkf). change TRAPFRAME with (2 ^ 38 - 8192). unfold PGSIZE in *.
  assert (Eu : u64 (2 ^ 38 - 8192 + o) = 2 ^ 38 - 8192 + o) by (apply Z.mod_small; lia). rewrite Eu.
  assert (Hm : (2 ^ 38 - 8192 + o) mod PGSIZE = o) by (change PGSIZE with 4096; symmetry; apply (Z.mod_unique _ _ (2 ^ 26 - 2)); lia).
  rewrite (xlate_root m _ _ (map_pte tf (Z.lor PTE_R PTE_W)) perm H8 Hroot Hw).
  - by rewrite Hm, map_pte_pa by (apply Hkf || lia || by split; apply Z.leb_le || apply Z.ltb_lt).
  - change MAXVA with (2 ^ 38). lia.
  - rewrite <- (as_tf _ _ _ _ _ A). apply lookup_pte_page, (vpn_aligned TRAPFRAME); [done|]. change TRAPFRAME with (2 ^ 38 - 8192). unfold PGSIZE. lia.
  - apply map_pte_valid; [lia|by split; apply Z.leb_le || apply Z.ltb_lt].
  - destruct Hperm as [-> | ->]; [rewrite pte_has_R|rewrite pte_has_W]; by rewrite map_pte_bit by (lia || by split; apply Z.leb_le || apply Z.ltb_lt).
  - rewrite pte_has_U. by rewrite map_pte_bit by (lia || by split; apply Z.leb_le || apply Z.ltb_lt).
Qed.

Lemma code_xlate m : within tf PGSIZE (kmem_mem k) m -> xlate m (MAKE_SATP root) PTE_X TRAMPOLINE = Some trampoline.
Proof.
  intros Hw. destruct root_ok as [Ha Hr]. destruct (satp_bits root Ha Hr) as [H8 Hroot]. destruct Htr as [Ht Ht']. unfold PGSIZE in *.
  assert (Hx : forall v, pte_has v PTE_X = Z.testbit v 3) by (intros v; apply (truth_land_bit v 3); lia).
  rewrite (xlate_root m _ _ (map_pte trampoline (Z.lor PTE_R PTE_X)) PTE_X H8 Hroot Hw).
  - rewrite map_pte_pa by (done || lia || by split; apply Z.leb_le || apply Z.ltb_lt). change (TRAMPOLINE mod PGSIZE) with 0. f_equal. lia.
  - by split; apply Z.leb_le || apply Z.ltb_lt.
  - apply A.
  - apply map_pte_valid; [lia|by split; apply Z.leb_le || apply Z.ltb_lt].
  - rewrite Hx. by rewrite map_pte_bit by (lia || by split; apply Z.leb_le || apply Z.ltb_lt).
  - rewrite pte_has_U. by rewrite map_pte_bit by (lia || by split; apply Z.leb_le || apply Z.ltb_lt).
Qed.
End Space.

Definition full_block : list (reg * Z) := trap_block ++ [(x_a0, tf_off x_a0)].

Lemma full_block_ok : block sizeof_trapframe full_block.
Proof.
  split; [|split; apply (bool_decide_unpack _); vm_compute; exact I]. unfold full_block, trap_block, sizeof_trapframe. cbn.
  repeat (apply Forall_cons_2; [cbn; split_and!; [lia|lia|reflexivity|discriminate]|]). apply Forall_nil_2.
Qed.

Lemma trap_block_ok : block sizeof_trapframe trap_block.
Proof.
  destruct full_block_ok as (H1 & H2 & H3). unfold full_block in *. rewrite fmap_app in H2. rewrite fmap_app in H3. apply Forall_app in H1 as [H1 _].
  apply NoDup_app in H2 as [H2 _]. apply NoDup_app in H3 as [H3 _]. done.
Qed.

Lemma full_block_in r : r <> x_zero -> (r, tf_off r) ∈ full_block.
Proof. destruct r; [done|..]; intros _; apply (bool_decide_unpack _); vm_compute; exact I. Qed.

Lemma frame_within tf m m' : within tf sizeof_trapframe m m' -> within tf PGSIZE m m'.
Proof. intros H x Hx. apply H. unfold sizeof_trapframe, PGSIZE in *. lia. Qed.

(** The state in which [uservec] leaves for [usertrap] *)
Record entered (h : hart) (tf : Z) (h' : hart) : Prop := {
  en_sp : h_regs h' x_sp = load64 (h_mem h) (tf + tf_kernel_sp);
  en_tp : h_regs h' x_tp = load64 (h_mem h) (tf + tf_kernel_hartid);
  en_pc : h_pc h' = load64 (h_mem h) (tf + tf_kernel_trap);
  en_ra : h_regs h' x_ra = TRAMPOLINE + (userret - trampoline);
  en_satp : h_csr h' C_SATP = load64 (h_mem h) (tf + tf_kernel_satp);
  en_regs : forall r, r <> x_zero -> load64 (h_mem h') (tf + tf_off r) = u64 (h_regs h r);
  en_mem : forall x, ~ (tf + 40 <= x < tf + sizeof_trapframe) -> h_mem h' x = h_mem h x
}.

Lemma saved_byte f pa l x : forall m, Forall (fun y => ~ (pa + snd y <= x < pa + snd y + 8)) l -> saved f pa m l x = m x.
Proof.
  induction l as [|[r o] l IH]; intros m Hl; [done|]. apply Forall_cons in Hl as [Ho Hl]. cbn in *. change (foldl _ ?m0 l) with (saved f pa m0 l).
  rewrite IH by done. apply store_out. lia.
Qed.

Lemma frame_bytes f tf m x : ~ (tf + 40 <= x < tf + sizeof_trapframe) -> saved f tf m full_block x = m x.
Proof.
  intros Hx. apply saved_byte. unfold full_block, trap_block, sizeof_trapframe in *. cbn.
  repeat (apply Forall_cons_2; [cbn; lia|]). apply Forall_nil_2.
Qed.

(** [uservec] after the registers but a0 are saved *)
Definition uservec_tail : list instr := drop 32 uservec_code.

Lemma uservec_tail_run f g m1 pc u k l root tf sz f1 : aspace k l root tf sz -> foreign k root l TRAPFRAME 0 tf -> within tf PGSIZE (kmem_mem k) m1 ->
  g C_SATP = MAKE_SATP root ->
  (forall m, within tf PGSIZE (kmem_mem k) m -> xlate m (load64 (kmem_mem k) (tf + tf_kernel_satp)) PTE_X TRAMPOLINE = Some trampoline) ->
  load64 m1 (tf + tf_kernel_satp) = load64 (kmem_mem k) (tf + tf_kernel_satp) -> g SSCRATCH = f x_a0 -> f1 x_a0 = TRAPFRAME ->
  exists h', run_code fetch_tramp uservec_tail (Hart f1 g m1 pc u) = Some h' /\ h_mem h' = store64 m1 (tf + tf_off x_a0) (f x_a0) /\
    h_regs h' x_sp = load64 m1 (tf + tf_kernel_sp) /\ h_regs h' x_tp = load64 m1 (tf + tf_kernel_hartid) /\ h_pc h' = load64 m1 (tf + tf_kernel_trap) /\
    h_regs h' x_ra = TRAMPOLINE + (userret - trampoline) /\ h_csr h' C_SATP = load64 m1 (tf + tf_kernel_satp).
Proof.
  intros A Ft W1 Hg Hk Hks Hsc Ha0. set (m := kmem_mem k) in *.
  assert (Hfetch : forall f m', within tf PGSIZE m m' -> fetch_tramp (Hart f g m' pc u) = true).
  { intros f' m' Hw. unfold fetch_tramp. apply bool_decide_eq_true_2. unfold xl. cbn. rewrite Hg. by apply (code_xlate k l root tf sz A Ft). }
  change uservec_tail with [Csrr x_t0 SSCRATCH; Sd x_t0 112 x_a0; Ld x_sp 8 x_a0; Ld x_tp 32 x_a0; Ld x_t0 16 x_a0; Ld x_t1 0 x_a0;
    Sfence_vma; Csrw C_SATP x_t1; Sfence_vma; Jalr x_t0 (TRAMPOLINE + (userret - trampoline))].
  rewrite (st_set _ _ _ _ _ _ _ ltac:(by apply Hfetch) (Csrr x_t0 SSCRATCH) x_t0 (g SSCRATCH)) by done. rewrite Hsc.
  assert (Hx : forall m' perm o (f' : reg -> Z), within tf PGSIZE m m' -> perm = PTE_R \/ perm = PTE_W -> f' x_a0 = TRAPFRAME -> 0 <= o -> o + 8 <= 288 ->
    xlate m' (g C_SATP) perm (u64 (f' x_a0 + o)) = Some (tf + o)).
  { intros m' perm o f' Hw Hp Hf' Ho Ho'. rewrite Hg, Hf'. apply (frame_xlate k l root tf sz A Ft); [done|done|done|unfold PGSIZE; lia]. }
  rewrite (st_sd _ _ _ _ _ _ _ ltac:(by apply Hfetch) x_t0 112 x_a0 (tf + 112)) by (apply Hx; [done|by right|by rewrite upd_other|lia|lia]). rewrite upd_same.
  set (m2 := store64 m1 (tf + 112) (f x_a0)). assert (W2 : within tf PGSIZE m m2) by (apply within_store; [done|lia|unfold PGSIZE; lia]).
  rewrite (st_ld _ _ _ _ _ _ _ ltac:(by apply Hfetch) x_sp 8 x_a0 (tf + 8)) by (done || (apply Hx; [done|by left|by rewrite !upd_other|lia|lia])).
  rewrite (st_ld _ _ _ _ _ _ _ ltac:(by apply Hfetch) x_tp 32 x_a0 (tf + 32)) by (done || (apply Hx; [done|by left|by rewrite !upd_other|lia|lia])).
  rewrite (st_ld _ _ _ _ _ _ _ ltac:(by apply Hfetch) x_t0 16 x_a0 (tf + 16)) by (done || (apply Hx; [done|by left|by rewrite !upd_other|lia|lia])).
  rewrite (st_ld _ _ _ _ _ _ _ ltac:(by apply Hfetch) x_t1 0 x_a0 (tf + 0)) by (done || (apply Hx; [done|by left|by rewrite !upd_other|lia|lia])).
  rewrite st_sfence by (by apply Hfetch). rewrite st_csrw by (by apply Hfetch). rewrite upd_same.
  assert (L2 : forall o, 0 <= o -> o + 8 <= 40 -> load64 m2 (tf + o) = load64 m1 (tf + o)) by (intros; apply load_store_other; lia).
  assert (Hfetch2 : forall f, fetch_tramp (Hart f (csr_upd C_SATP (load64 m2 (tf + 0)) g) m2 pc u) = true).
  { intros f'. unfold fetch_tramp. apply bool_decide_eq_true_2. unfold xl. cbn [h_mem h_csr]. change (csr_upd C_SATP ?v g C_SATP) with v.
    rewrite L2 by lia. change (tf + 0) with (tf + tf_kernel_satp). rewrite Hks. by apply Hk. }
  rewrite st_sfence by apply Hfetch2. erewrite exec_step by (apply Hfetch2 || reflexivity).
  eexists. split; [reflexivity|]. cbn [h_mem h_regs h_pc h_csr set_hpc set_reg set_hregs]. unfold set_reg. rewrite decide_False by done. cbn [h_mem h_regs h_pc h_csr set_hregs].
  rewrite !upd_same, !(upd_other x_ra), !(upd_other x_t1), !(upd_other x_t0), !(upd_other x_tp), !upd_same by done.
  split; [done|]. split; [apply (L2 8); lia|]. split; [apply (L2 32); lia|]. split; [apply (L2 16); lia|]. split; [done|]. apply (L2 0); lia.
Qed.

Lemma uservec_run h k l root tf sz : aspace k l root tf sz -> foreign k root l TRAPFRAME 0 tf -> h_mem h = kmem_mem k -> h_csr h C_SATP = MAKE_SATP root ->
  (forall m, within tf PGSIZE (kmem_mem k) m -> xlate m (load64 (kmem_mem k) (tf + tf_kernel_satp)) PTE_X TRAMPOLINE = Some trampoline) ->
  exists h', run_code fetch_tramp uservec_code h = Some h' /\ entered h tf h'.
Proof.
  intros A Ft Hm Hs Hk. destruct h as [f g m pc u]. cbn in Hm, Hs. subst m. set (m := kmem_mem k) in *.
  assert (Hfetch : forall f g m' pc u, g C_SATP = MAKE_SATP root -> within tf PGSIZE m m' -> fetch_tramp (Hart f g m' pc u) = true).
  { intros f' g' m' pc' u' Hg Hw. unfold fetch_tramp. apply bool_decide_eq_true_2. unfold xl. cbn. rewrite Hg. by apply (code_xlate k l root tf sz A Ft). }
  change uservec_code with ([Csrw SSCRATCH x_a0; Li x_a0 TRAPFRAME] ++ stores x_a0 trap_block ++ drop 32 uservec_code).
  cbn [app]. rewrite st_csrw by (by apply Hfetch; [|apply within_refl]). set (g1 := csr_upd SSCRATCH (f x_a0) g). assert (Hg1 : g1 C_SATP = MAKE_SATP root) by done.
  rewrite (st_set _ _ _ _ _ _ _ ltac:(by apply Hfetch; [|apply within_refl]) (Li x_a0 TRAPFRAME) x_a0 TRAPFRAME) by done. rewrite exec_app.
  rewrite (exec_stores _ _ tf sizeof_trapframe); [|apply trap_block_ok|].
  2: { intros m' Hw. apply frame_within in Hw. cbn in *. split; [by apply Hfetch|]. intros o Ho Ho'. rewrite Hg1, upd_same. apply (frame_xlate k l root tf sz A Ft); [done|by right|done|].
       unfold sizeof_trapframe, PGSIZE in *. lia. }
  unfold set_hmem. cbn [h_regs h_csr h_mem h_pc h_user]. set (m1 := saved _ tf m trap_block).
  assert (W1 : within tf PGSIZE m m1) by (apply frame_within, saved_within; [apply trap_block_ok|apply within_refl]). change (drop 32 uservec_code) with uservec_tail.
  assert (Hlow : forall o, 0 <= o -> o + 8 <= 40 -> load64 m1 (tf + o) = load64 m (tf + o)).
  { intros o Ho Ho'. apply saved_out. unfold trap_block. cbn. repeat (apply Forall_cons_2; [cbn; lia|]). apply Forall_nil_2. }
  destruct (uservec_tail_run f g1 m1 pc u k l root tf sz (upd x_a0 TRAPFRAME f) A Ft W1 Hg1 Hk) as (h' & E & Em & Esp & Etp & Epc & Era & Es); [apply (Hlow 0); lia|done|apply upd_same|].
  exists h'. split; [exact E|]. assert (M : h_mem h' = saved f tf m full_block).
  { rewrite Em. unfold full_block, saved. rewrite foldl_app. cbn [foldl fst snd]. fold (saved f tf m trap_block). f_equal. }
  split; cbn [h_mem h_regs]; [rewrite Esp|rewrite Etp|rewrite Epc|done|rewrite Es| |].
  1-4: apply Hlow; unfold tf_kernel_sp, tf_kernel_hartid, tf_kernel_trap, tf_kernel_satp; lia.
  - intros r Hr. rewrite M. by apply (saved_in f tf sizeof_trapframe full_block r (tf_off r) m full_block_ok), full_block_in.
  - intros x Hx. rewrite M. by apply frame_bytes.
Qed.

(** The state in which [userret] leaves for user code *)
Record returned (h : hart) (root tf : Z) (h' : hart) : Prop := {
  rt_regs : forall r, r <> x_zero -> h_regs h' r = load64 (h_mem h) (tf + tf_off r);
  rt_satp : h_csr h' C_SATP = MAKE_SATP root;
  rt_pc : h_pc h' = h_csr h C_SEPC;
  rt_mode : h_user h' = negb (Z.testbit (h_csr h C_SSTATUS) 8);
  rt_mem : h_mem h' = h_mem h
}.

Lemma userret_run h k l root tf sz : aspace k l root tf sz -> foreign k root l TRAPFRAME 0 tf -> h_mem h = kmem_mem k ->
  xl h PTE_X TRAMPOLINE = Some trampoline -> h_regs h x_a0 = MAKE_SATP root ->
  exists h', run_code fetch_tramp userret_code h = Some h' /\ returned h root tf h'.
Proof.
  intros A Ft Hm Hx Ha0. destruct h as [f g m pc u]. cbn in Hm, Hx, Ha0. subst m. set (m := kmem_mem k) in *.
  change userret_code with ([Sfence_vma; Csrw C_SATP x_a0; Sfence_vma; Li x_a0 TRAPFRAME] ++ loads x_a0 trap_block ++ [Ld x_a0 112 x_a0; Sret]). cbn [app].
  assert (Hf0 : fetch_tramp (Hart f g m pc u) = true) by (by apply bool_decide_eq_true_2). rewrite st_sfence, st_csrw by done. rewrite Ha0.
  set (g1 := csr_upd C_SATP (MAKE_SATP root) g). assert (Hfetch : forall f, fetch_tramp (Hart f g1 m pc u) = true).
  { intros f'. apply bool_decide_eq_true_2. apply (code_xlate k l root tf sz A Ft), within_refl. }
  assert (Hxl : forall o, 0 <= o -> o + 8 <= sizeof_trapframe -> xlate m (MAKE_SATP root) PTE_R (u64 (TRAPFRAME + o)) = Some (tf + o)).
  { intros o Ho Ho'. apply (frame_xlate k l root tf sz A Ft); [apply within_refl|by left|done|unfold sizeof_trapframe, PGSIZE in *; lia]. }
  rewrite st_sfence by done. rewrite (st_set _ _ _ _ _ _ _ (Hfetch _) (Li x_a0 TRAPFRAME) x_a0 TRAPFRAME) by done. rewrite exec_app.
  assert (Ha : x_a0 ∉ (fst <$> trap_block)) by (apply (bool_decide_unpack _); vm_compute; exact I).
  rewrite (exec_loads _ _ tf sizeof_trapframe); [|apply trap_block_ok|done|intros; apply Hfetch|]. 2: { intros o Ho Ho'. cbn [h_regs]. rewrite upd_same. by apply Hxl. }
  unfold set_hregs. cbn [h_regs h_csr h_mem h_pc h_user].
  rewrite (st_ld _ _ _ _ _ _ _ (Hfetch _) x_a0 112 x_a0 (tf + 112)); [|done|rewrite loaded_out, upd_same by done; apply Hxl; unfold sizeof_trapframe; lia].
  erewrite exec_step by (apply Hfetch || reflexivity). eexists. split; [reflexivity|]. split; [|done|done|done|done].
  intros r Hr. cbn [h_regs h_mem]. destruct (decide (r = x_a0)) as [->|Hne]; [by rewrite upd_same|]. rewrite upd_other by done.
  apply loaded_in; [apply trap_block_ok|]. pose proof (full_block_in r Hr) as Hin. unfold full_block in Hin. apply elem_of_app in Hin as [|Hin]; [done|].
  apply list_elem_of_singleton in Hin. by injection Hin.
Qed.
End Trap_frame.

(** ** Entry *)

(** Each hart starts C code with a stack page of its own. *)
Lemma entry_run h stack0 start next : 0 <= stack0 -> 0 <= h_csr h C_MHARTID -> stack0 + (h_csr h C_MHARTID + 1) * 4096 < 2 ^ 64 ->
  exists h', run_code (fun _ => true) (entry_code stack0 start next) h = Some h' /\ h_pc h' = start /\ h_regs h' x_sp = stack0 + (h_csr h C_MHARTID + 1) * 4096 /\
    h_mem h' = h_mem h.
Proof.
  intros H0 H1 H2. destruct h as [f g m pc u]. cbn [h_csr] in *. unfold entry_code.
  rewrite (st_set _ _ _ _ _ _ _ eq_refl _ x_sp stack0) by done. rewrite (st_set _ _ _ _ _ _ _ eq_refl _ x_a0 (1024 * 4)) by done.
  rewrite (st_set _ _ _ _ _ _ _ eq_refl _ x_a1 (g C_MHARTID)) by done.
  rewrite (st_set _ _ _ _ _ _ _ eq_refl _ x_a1 (u64 (g C_MHARTID + 1))) by (done || (cbn [step h_regs]; by rewrite upd_same)).
  rewrite (st_set _ _ _ _ _ _ _ eq_refl _ x_a0 (u64 (1024 * 4 * u64 (g C_MHARTID + 1)))) by (done || (cbn [step h_regs]; by rewrite upd_same, !(upd_other x_a1), upd_same)).
  rewrite (st_set _ _ _ _ _ _ _ eq_refl _ x_sp (u64 (stack0 + u64 (1024 * 4 * u64 (g C_MHARTID + 1))))) by (done || (cbn [step h_regs]; by rewrite upd_same, !(upd_other x_a0), !(upd_other x_a1), !(upd_other x_a0), upd_same)).
  eexists. split; [reflexivity|]. unfold set_reg. rewrite decide_False by done. cbn [h_regs h_mem h_pc set_hregs set_hpc]. split; [done|]. split; [|done].
  rewrite upd_other, upd_same by done. unfold u64, uint_wrap. rewrite (Z.mod_small (g C_MHARTID + 1)) by lia. rewrite (Z.mod_small (1024 * 4 * _)) by lia. rewrite Z.mod_small by lia. lia.
Qed.

(** ** The context switch *)

Lemma context_block : block 112 context_regs.
Proof.
  split; [|split; apply (bool_decide_unpack _); vm_compute; exact I]. unfold context_regs.
  repeat (apply Forall_cons_2; [cbn; split_and!; [lia|lia|reflexivity|discriminate]|]). apply Forall_nil_2.
Qed.

(** [n] bytes at the virtual address [va] lie at [pa], whatever is written to [w, w + n). *)
Definition mapped_at (h : hart) (perm va pa w n : Z) : Prop :=
  forall m, within w n (h_mem h) m -> forall o, 0 <= o -> o + 8 <= n -> xlate m (h_csr h C_SATP) perm (u64 (va + o)) = Some (pa + o).

Lemma swtch_run h po pn : mapped_at h PTE_W (h_regs h x_a0) po po 112 -> mapped_at h PTE_R (h_regs h x_a1) pn po 112 ->
  po + 112 <= pn \/ pn + 112 <= po ->
  exists h', run_code (fun _ => true) swtch_code h = Some h' /\
    (forall r o, (r, o) ∈ context_regs -> h_regs h' r = load64 (h_mem h) (pn + o) /\ load64 (h_mem h') (po + o) = u64 (h_regs h r)) /\
    (forall r, r ∉ (fst <$> context_regs) -> h_regs h' r = h_regs h r) /\ h_pc h' = load64 (h_mem h) pn /\
    (forall x, ~ (po <= x < po + 112) -> h_mem h' x = h_mem h x) /\ h_csr h' = h_csr h.
Proof.
  intros Ho Hn Hd. change swtch_code with (stores x_a0 context_regs ++ loads x_a1 context_regs ++ [Ret_]). rewrite exec_app.
  rewrite (exec_stores _ _ po 112); [|apply context_block|intros m Hm; split; [done|by apply Ho]]. set (m1 := saved _ po _ context_regs).
  assert (W : within po 112 (h_mem h) m1) by (apply saved_within; [apply context_block|apply within_refl]). rewrite exec_app.
  rewrite (exec_loads _ _ pn 112); [|apply context_block|apply (bool_decide_unpack _); vm_compute; exact I|done|intros o H0 H1; by apply Hn].
  assert (E : forall r o, (r, o) ∈ context_regs -> loaded m1 pn (h_regs h) context_regs r = load64 (h_mem h) (pn + o)).
  { intros r o Hr. rewrite (loaded_in _ _ _ r o) by (done || apply context_block). apply (proj1 (Forall_forall _ _) (proj1 context_block)) in Hr as (? & ? & _). cbn in *.
    apply load_ext. intros x Hx. apply W. lia. }
  eexists. split; [reflexivity|]. cbn [h_regs h_mem h_pc h_csr set_hregs set_hmem set_hpc]. split; [|split; [|split; [|split; [|done]]]].
  - intros r o Hr. split; [by apply E|]. by apply (saved_in _ _ 112); [apply context_block|].
  - intros r Hr. by apply loaded_out.
  - rewrite (E x_ra 0); [f_equal; lia|left].
  - exact W.
Qed.

(** ... and back *)
Theorem swtch_roundtrip h po pn : mapped_at h PTE_W (h_regs h x_a0) po po 112 -> mapped_at h PTE_R (h_regs h x_a1) pn po 112 ->
  po + 112 <= pn \/ pn + 112 <= po -> (forall r, 0 <= h_regs h r < 2 ^ 64) ->
  exists h1, run_code (fun _ => true) swtch_code h = Some h1 /\ h_pc h1 = load64 (h_mem h) pn /\ h_regs h1 x_sp = load64 (h_mem h) (pn + 8) /\
    (forall x, ~ (po <= x < po + 112) -> h_mem h1 x = h_mem h x) /\
    forall h2 pq, mapped_at h2 PTE_W (h_regs h2 x_a0) pq pq 112 -> mapped_at h2 PTE_R (h_regs h2 x_a1) po pq 112 -> pq + 112 <= po \/ po + 112 <= pq ->
      (forall x, po <= x < po + 112 -> h_mem h2 x = h_mem h1 x) ->
      exists h3, run_code (fun _ => true) swtch_code h2 = Some h3 /\ h_pc h3 = h_regs h x_ra /\ forall r, r ∈ (fst <$> context_regs) -> h_regs h3 r = h_regs h r.
Proof.
  intros Ho Hn Hd Hr. destruct (swtch_run h po pn Ho Hn Hd) as (h1 & E1 & R1 & _ & P1 & M1 & _). exists h1. split; [done|]. split; [done|].
  split; [by apply (R1 x_sp 8); right; left|]. split; [done|]. intros h2 pq Ho2 Hn2 Hd2 Hw. destruct (swtch_run h2 pq po Ho2 Hn2 Hd2) as (h3 & E3 & R3 & _ & P3 & _).
  assert (B : forall r o, (r, o) ∈ context_regs -> load64 (h_mem h2) (po + o) = h_regs h r).
  { intros r o Hin. rewrite <- (Z.mod_small (h_regs h r) (2 ^ 64)) by apply Hr. change (h_regs h r mod 2 ^ 64) with (u64 (h_regs h r)). rewrite <- (proj2 (R1 r o Hin)).
    apply (proj1 (Forall_forall _ _) (proj1 context_block)) in Hin as (? & ? & _). cbn in *. apply load_ext. intros x Hx. apply Hw. lia. }
  exists h3. split; [done|]. split; [rewrite P3; rewrite <- (Z.add_0_r po); apply B; left|].
  intros r ([r' o] & -> & Hin)%list_elem_of_fmap. cbn. rewrite (proj1 (R3 r' o Hin)). by apply B.
Qed.

(** ** Kernel traps *)

(** The registers [kernelvec] gives back, and those it saves *)
Definition vec_regs : list (reg * Z) :=
  [(x_ra, 0); (x_gp, 16); (x_t0, 32); (x_t1, 40); (x_t2, 48); (x_a0, 72); (x_a1, 80); (x_a2, 88); (x_a3, 96); (x_a4, 104); (x_a5, 112);
   (x_a6, 120); (x_a7, 128); (x_t3, 216); (x_t4, 224); (x_t5, 232); (x_t6, 240)].
Definition vec_saved : list (reg * Z) := take 2 vec_regs ++ [(x_tp, 24)] ++ drop 2 vec_regs.

Lemma vec_block : block 256 vec_saved /\ block 256 vec_regs.
Proof.
  split; (split; [|split; apply (bool_decide_unpack _); vm_compute; exact I]; unfold vec_saved, vec_regs; cbn [take drop app];
  repeat (apply Forall_cons_2; [cbn; split_and!; [lia|lia|reflexivity|discriminate]|]); apply Forall_nil_2).
Qed.

Lemma vec_sub x : x ∈ vec_regs -> x ∈ vec_saved.
Proof. unfold vec_saved. rewrite <- (take_drop 2 vec_regs) at 1. rewrite !elem_of_app. tauto. Qed.

(** A trap taken in the kernel: [kernelvec] pushes a frame, and when [kerneltrap]
    comes back with the stack pointer and the frame as they were, every register it
    saved but tp has its value again and the interrupted code goes on. *)
Theorem kernelvec_roundtrip h kerneltrap next pa : 
  mapped_at h PTE_W (u64 (h_regs h x_sp - 256)) pa pa 256 -> (forall r, 0 <= h_regs h r < 2 ^ 64) ->
  exists h1, run_code (fun _ => true) (kernelvec_code kerneltrap next) h = Some h1 /\ h_pc h1 = kerneltrap /\ h_regs h1 x_ra = next /\
    (forall r, r <> x_ra -> r <> x_sp -> h_regs h1 r = h_regs h r) /\ (forall x, ~ (pa <= x < pa + 256) -> h_mem h1 x = h_mem h x) /\
    forall h2, h_regs h2 x_sp = h_regs h1 x_sp -> mapped_at h2 PTE_R (h_regs h2 x_sp) pa pa 256 -> (forall x, pa <= x < pa + 256 -> h_mem h2 x = h_mem h1 x) ->
      exists h3, run_code (fun _ => true) kernelvec_return h2 = Some h3 /\ h_pc h3 = h_csr h2 C_SEPC /\ h_mem h3 = h_mem h2 /\ h_regs h3 x_sp = h_regs h x_sp /\
        (forall r, r ∈ (fst <$> vec_regs) -> h_regs h3 r = h_regs h r) /\ forall r, r ∉ (fst <$> vec_regs) -> r <> x_sp -> h_regs h3 r = h_regs h2 r.
Proof.
  intros Hw Hr. destruct h as [f g m pc u]. cbn [h_regs h_mem h_csr] in *.
  change (kernelvec_code kerneltrap next) with (Addi x_sp x_sp (-256) :: stores x_sp vec_saved ++ [Call kerneltrap next]).
  rewrite (st_set _ _ _ _ _ _ _ eq_refl _ x_sp (u64 (f x_sp - 256))) by done. rewrite exec_app.
  rewrite (exec_stores _ _ pa 256); [|apply vec_block|intros m' Hm; split; [done|]; cbn [h_regs]; rewrite upd_same; by apply Hw].
  unfold set_hmem. cbn [h_regs h_csr h_mem h_pc h_user]. set (m1 := saved _ pa m vec_saved).
  eexists. split; [reflexivity|]. unfold set_reg. rewrite decide_False by done. cbn [h_regs h_mem h_pc h_csr set_hregs set_hpc].
  split; [done|]. split; [apply upd_same|]. split; [intros r H1 H2; by rewrite !upd_other|].
  split; [by apply saved_within; [apply vec_block|apply within_refl]|]. rewrite upd_other, upd_same by done.
  intros h2 Hsp Hx Hm. destruct h2 as [f2 g2 m2 pc2 u2]. cbn [h_regs h_mem h_csr] in *.
  change kernelvec_return with (loads x_sp vec_regs ++ [Addi x_sp x_sp 256; Sret]). rewrite exec_app.
  rewrite (exec_loads _ _ pa 256); [|apply vec_block|apply (bool_decide_unpack _); vm_compute; exact I|done|intros o H0 H1; by apply Hx; [apply within_refl|..]].
  unfold set_hregs. cbn [h_regs h_csr h_mem h_pc h_user]. assert (Hns : x_sp ∉ (fst <$> vec_regs)) by (apply (bool_decide_unpack _); vm_compute; exact I).
  rewrite (st_set _ _ _ _ _ _ _ eq_refl _ x_sp (u64 (u64 (f x_sp - 256) + 256))) by (done || (cbn [step h_regs]; by rewrite loaded_out, Hsp by done)).
  eexists. split; [reflexivity|]. cbn [h_regs h_mem h_pc h_csr]. split; [done|]. split; [done|]. rewrite upd_same. split; [|split].
  - unfold u64, uint_wrap. rewrite Zplus_mod_idemp_l. rewrite Z.sub_add. apply Z.mod_small, Hr.
  - intros r Hin. rewrite upd_other by (intros ->; done). apply list_elem_of_fmap in Hin as ([r' o] & -> & Hin). cbn [fst].
    rewrite (loaded_in _ _ _ r' o) by (done || apply vec_block). rewrite <- (Z.mod_small (f r') (2 ^ 64)) by apply Hr.
    pose proof (vec_sub _ Hin) as Hin'. pose proof (saved_in (upd x_sp (u64 (f x_sp - 256)) f) pa 256 vec_saved r' o m (proj1 vec_block) Hin') as E.
    rewrite upd_other in E by (intros ->; apply Hns; by apply (list_elem_of_fmap_2 fst _ (x_sp, o))). change (f r' mod 2 ^ 64) with (u64 (f r')). rewrite <- E.
    apply (proj1 (Forall_forall _ _) (proj1 (proj2 vec_block))) in Hin as (? & ? & _). cbn in *. apply load_ext. intros x Hx'. apply Hm. lia.
  - intros r Hnr Hne. rewrite upd_other by done. by apply loaded_out.
Qed.

(** C4 A trap is invisible to the registers of user code.  [uservec], entered with
    the page table of a process, stores every register in the trapframe page of
    that process, changes no other memory, and arrives at the kernel's trap handler
    with the kernel's stack, hart number and page table that the trapframe names; it
    can be fetched throughout, also after the change of the page table.  [userret],
    run later in any memory where the process still has its address space and the
    register words of the trapframe are as [uservec] left them, gives every register
    its value back and goes to user code at [sepc] under the page table of the
    process. *)
Theorem trampoline_roundtrip {L : Linker} {Sy : Symbols} (Hlink : linker_ok) (Htr : trampoline_ok) (Hal : page_aligned trampoline) h k l root tf sz :
  aspace k l root tf sz -> frame_page k l root tf -> h_mem h = kmem_mem k -> h_csr h C_SATP = MAKE_SATP root -> (forall r, 0 <= h_regs h r < 2 ^ 64) ->
  (forall m, within tf PGSIZE (kmem_mem k) m -> xlate m (load64 (kmem_mem k) (tf + tf_kernel_satp)) PTE_X TRAMPOLINE = Some trampoline) ->
  exists h1, run_code fetch_tramp uservec_code h = Some h1 /\ entered h tf h1 /\
    forall h2 k2 l2 sz2, aspace k2 l2 root tf sz2 -> frame_page k2 l2 root tf -> h_mem h2 = kmem_mem k2 -> xl h2 PTE_X TRAMPOLINE = Some trampoline ->
      h_regs h2 x_a0 = MAKE_SATP root -> (forall r, r <> x_zero -> load64 (h_mem h2) (tf + tf_off r) = load64 (h_mem h1) (tf + tf_off r)) ->
      exists h3, run_code fetch_tramp userret_code h2 = Some h3 /\ returned h2 root tf h3 /\ forall r, r <> x_zero -> h_regs h3 r = h_regs h r.
Proof.
  intros A [Ft _] Hm Hs Hr Hk. destruct (uservec_run Hlink Htr Hal h k l root tf sz A Ft Hm Hs Hk) as (h1 & E1 & En). exists h1. split; [done|]. split; [done|].
  intros h2 k2 l2 sz2 A2 [Ft2 _] Hm2 Hx Ha0 Hw. destruct (userret_run Hlink Htr Hal h2 k2 l2 root tf sz2 A2 Ft2 Hm2 Hx Ha0) as (h3 & E3 & R).
  exists h3. split; [done|]. split; [done|]. intros r Hz. rewrite (rt_regs _ _ _ _ R r Hz), Hw by done. rewrite (en_regs _ _ _ En r Hz). apply Z.mod_small, Hr.
Qed.

(** ** An example *)

#[local] Existing Instance demo_linker.
#[local] Instance demo_asm_symbols : Symbols := {| kernelvec := KERNBASE; uservec := KERNBASE; userret := KERNBASE + 156; usertrap_addr := KERNBASE + 4096 |}.

(** Writing the trapframe of a process *)
Lemma demo_write k l m : kinv k l -> aspace k l (demo_page 1) (demo_page 9) 0 -> frame_page k l (demo_page 1) (demo_page 9) ->
  within (demo_page 9) PGSIZE (kmem_mem k) m -> bytes_ok m ->
  kinv (set_mem k m) l /\ aspace (set_mem k m) l (demo_page 1) (demo_page 9) 0 /\ frame_page (set_mem k m) l (demo_page 1) (demo_page 9).
Proof.
  intros Hk A Fp Hw Hm. pose proof Fp as [Ft C]. pose proof Ft as (Hq & Hl & _).
  assert (Hk' : kinv (set_mem k m) l) by (apply (kinv_write_page demo_linker_ok k l (demo_page 9)); [exact Hk|exact Hm|exact Hq|exact Hl|exact Hw]).
  assert (Kp : keeps_but (demo_page 9) k l (set_mem k m) l).
  { intros q Hkq Hql Hne. split; [exact Hql|]. split; [reflexivity|]. intros x Hx. apply Hw. intros Hx'. apply Hne. exact (page_of_byte demo_linker_ok q (demo_page 9) x Hkq Hq Hx Hx'). }
  destruct (aspace_keeps_but demo_linker_ok (demo_page 9) k l (set_mem k m) l _ _ _ A Hk' Kp (or_intror Ft)) as (A' & Hlk & Hist).
  split; [exact Hk'|]. split; [exact A'|]. split; [|exact C]. destruct Ft as (H1 & H2 & H3 & H4 & H5). split; [exact H1|]. split; [exact H2|]. split; [by rewrite Hist|].
  split; [exact H4|]. intros va Hva. unfold valid_at, page_at. rewrite Hlk. by apply H5.
Qed.

(** The memory of a new process whose trapframe names a kernel page table *)
Lemma demo_trapframe : exists k l, kinv k l /\ aspace k l (demo_page 1) (demo_page 9) 0 /\ frame_page k l (demo_page 1) (demo_page 9) /\
  load64 (kmem_mem k) (demo_page 9 + tf_kernel_satp) = MAKE_SATP (demo_page 1).
Proof.
  destruct demo_aspace as (k & l & _ & Hk & _ & _ & A & Fp). set (m := store64 (kmem_mem k) (demo_page 9 + tf_kernel_satp) (MAKE_SATP (demo_page 1))).
  destruct (demo_write k l m Hk A Fp) as (Hk' & A' & Fp').
  - intros x Hx. apply store_out. unfold tf_kernel_satp, PGSIZE in *. lia.
  - apply store_ok, (kinv_bytes _ _ Hk).
  - exists (set_mem k m), l. split; [exact Hk'|]. split; [exact A'|]. split; [exact Fp'|]. cbn [kmem_mem set_mem]. unfold m. rewrite load_store. vm_compute. reflexivity.
Qed.

Lemma saved_ok f pa l : forall m, bytes_ok m -> bytes_ok (saved f pa m l).
Proof. induction l as [|[r o] l IH]; intros m Hm; [exact Hm|]. apply IH, store_ok, Hm. Qed.

Definition demo_hart (m : mem) : hart := Hart (fun r => reg_num r * 3) (fun c => if decide (c = C_SATP) then MAKE_SATP (demo_page 1) else 0) m 0 false.

Lemma trampoline_roundtrip_witness : exists k h1 h2 h3,
  run_code fetch_tramp uservec_code (demo_hart (kmem_mem k)) = Some h1 /\ entered (demo_hart (kmem_mem k)) (demo_page 9) h1 /\
  h_regs h2 x_t6 = MAKE_SATP (demo_page 1) /\ run_code fetch_tramp userret_code h2 = Some h3 /\ forall r, r <> x_zero -> h_regs h3 r = reg_num r * 3.
Proof.
  destruct demo_trapframe as (k & l & Hk & A & Fp & Es). exists k.
  assert (Hal : page_aligned trampoline) by reflexivity.
  assert (Hc : forall m, within (demo_page 9) PGSIZE (kmem_mem k) m -> xlate m (load64 (kmem_mem k) (demo_page 9 + tf_kernel_satp)) PTE_X TRAMPOLINE = Some trampoline).
  { intros m Hm. rewrite Es. exact (code_xlate demo_linker_ok demo_trampoline Hal k l (demo_page 1) (demo_page 9) 0 A (proj1 Fp) m Hm). }
  destruct (trampoline_roundtrip demo_linker_ok demo_trampoline Hal (demo_hart (kmem_mem k)) k l (demo_page 1) (demo_page 9) 0 A Fp eq_refl eq_refl) as (h1 & E1 & En & H);
    [intros r; destruct r; cbn; lia|exact Hc|]. set (m2 := saved (h_regs (demo_hart (kmem_mem k))) (demo_page 9) (kmem_mem k) full_block).
  assert (Hw : within (demo_page 9) PGSIZE (kmem_mem k) m2) by (apply frame_within, saved_within; [apply full_block_ok|apply within_refl]).
  destruct (demo_write k l m2 Hk A Fp Hw (saved_ok _ _ _ _ (kinv_bytes _ _ Hk))) as (_ & A2 & Fp2).
  set (h2 := Hart (fun _ => MAKE_SATP (demo_page 1)) (h_csr (demo_hart m2)) m2 0 false).
  destruct (H h2 (set_mem k m2) l 0 A2 Fp2 eq_refl) as (h3 & E3 & _ & R3); [|reflexivity| |].
  - rewrite <- (Hc m2 Hw), Es. reflexivity.
  - intros r Hr. rewrite (en_regs _ _ _ En r Hr). exact (saved_in _ _ _ _ _ _ _ full_block_ok (full_block_in r Hr)).
  - exists h1, h2, h3. split; [exact E1|]. split; [exact En|]. split; [reflexivity|]. split; [exact E3|exact R3].
Defined.
