(* ===== verification/Mkfs.v ===== *)
(** * mkfs

    mkfs/mkfs.c: the program that writes the initial image of the file system on the
    host.  The image is a number of sectors and their contents; the host is little
    endian, its input and output succeed except for reads past the end of the image
    and files that cannot be opened.

    What the theorem shows: the image is the file system the kernel expects, and
    holds the given files. *)

From stdpp Require Import base gmap sets list strings.
From Stdlib Require Import ZArith Lia.
From S2P Require Import Prelude Kernel Riscv Kstring Sleeplock Bytes Bio Log Usr Fs Path Tx FsBlock FsInode FsData.

(** ** Layout *)

Definition FSSIZE : Z := 2000.
Definition LOGBLOCKS : Z := 30.
Definition NINODES : Z := 200.
Definition nbitmap : Z := FSSIZE / BPB + 1.
Definition ninodeblocks : Z := NINODES / IPB + 1.
Definition nlog : Z := LOGBLOCKS + 1.
Definition nmeta : Z := 2 + nlog + ninodeblocks + nbitmap.
Definition nblocks : Z := FSSIZE - nmeta.

(** ** The state: the image with its number of sectors, [freeinode] and [freeblock] *)

Record mst : Type := Mst {
  ms_img : Z -> list Z;
  ms_len : Z;
  freeinode : Z;
  freeblock : Z
}.

(** A run ends with a result, or with [die] or a failed [assert]. *)
Inductive mres (A : Type) : Type :=
  | MOk (a : A) (s : mst)
  | MDie (why : string).
Arguments MOk {A} a s.
Arguments MDie {A} why.

Definition M (A : Type) : Type := mst -> mres A.
Definition mk_ret {A} (a : A) : M A := fun s => MOk a s.
Definition mk_bind {A B} (m : M A) (k : A -> M B) : M B := fun s => match m s with MOk a s' => k a s' | MDie why => MDie why end.
Definition die {A} (why : string) : M A := fun _ => MDie why.
Definition mk_assert (b : bool) (why : string) : M unit := if b then mk_ret tt else die why.

Declare Scope mkfs_scope.
Delimit Scope mkfs_scope with mkfs.
Notation "x <-- m ;; k" := (mk_bind m (fun x => k)) (at level 100, m at next level, right associativity) : mkfs_scope.
Notation "m ;;; k" := (mk_bind m (fun _ => k)) (at level 100, right associativity) : mkfs_scope.
#[local] Open Scope mkfs_scope.

(** [freeinode++] and [freeblock++] *)
Definition next_inode : M Z := fun s => MOk (freeinode s) (Mst (ms_img s) (ms_len s) (u32 (freeinode s + 1)) (freeblock s)).
Definition next_block : M Z := fun s => MOk (freeblock s) (Mst (ms_img s) (ms_len s) (freeinode s) (u32 (freeblock s + 1))).
Definition set_freeblock (b : Z) : M unit := fun s => MOk tt (Mst (ms_img s) (ms_len s) (freeinode s) b).

(** ** The functions *)

(** The value whose bytes in memory are the little-endian bytes of [x] *)
Definition xshort (x : Z) : Z := of_le [u8 x; u8 (Z.shiftr x 8)].
Definition xint (x : Z) : Z := of_le [u8 x; u8 (Z.shiftr x 8); u8 (Z.shiftr x 16); u8 (Z.shiftr x 24)].

Definition wsect (sec : Z) (buf : list Z) : M unit :=
  fun s => MOk tt (Mst (upd (ms_img s) sec buf) (Z.max (ms_len s) (sec + 1)) (freeinode s) (freeblock s)).

Definition rsect (sec : Z) : M (list Z) :=
  fun s => if (0 <=? sec) && (sec <? ms_len s) then MOk (ms_img s sec) s else MDie "read".

(** [struct superblock sb], as [main] fills it *)
Definition mk_sb : superblock :=
  Superblock FSMAGIC (xint FSSIZE) (xint nblocks) (xint NINODES) (xint nlog) (xint 2) (xint (2 + nlog)) (xint (2 + nlog + ninodeblocks)).

(** A [struct dinode] is its 64 bytes; [off_addr] is the offset of [addrs[k]]. *)
Definition din0 : list Z := replicate 64 0.
Definition off_size : nat := 8.

Definition winode (inum : Z) (ip : list Z) : M unit :=
  let bn := IBLOCK inum mk_sb in
  buf <-- rsect bn ;;
  wsect bn (splice (dip_off inum) ip buf).

Definition rinode (inum : Z) : M (list Z) :=
  let bn := IBLOCK inum mk_sb in
  buf <-- rsect bn ;;
  mk_ret (slice (dip_off inum) 64 buf).

Definition mk_ialloc (type : Z) : M Z :=
  inum <-- next_inode ;;
  let din := st 2 0 (xshort type) din0 in
  let din := st 2 6 (xshort 1) din in
  let din := st 4 off_size (xint 0) din in
  winode inum din ;;;
  mk_ret inum.

(** The loop of [balloc]: [buf[i/8] = buf[i/8] | (0x1 << (i%8))] *)
Definition mark_used (used : Z) : list Z :=
  foldl (fun buf i => st 1 (Z.to_nat (i / 8)) (Z.lor (ld 1 (Z.to_nat (i / 8)) buf) (Z.shiftl 1 (i mod 8))) buf)
        (replicate bsize 0) (seqZ 0 used).

Definition mk_balloc (used : Z) : M unit :=
  mk_assert (used <? BPB) "used < BPB" ;;;
  wsect (sb_bmapstart mk_sb) (mark_used used).

(** The block of the image for block [fbn] of the file: the inode with that block
    allocated, and the number of the block *)
Definition append_slot (din : list Z) (fbn : Z) : M (list Z * Z) :=
  if fbn <? NDIRECT then
    din <-- (if xint (ld 4 (off_addr fbn) din) =? 0
             then b <-- next_block ;; mk_ret (st 4 (off_addr fbn) (xint b) din)
             else mk_ret din) ;;
    mk_ret (din, xint (ld 4 (off_addr fbn) din))
  else
    din <-- (if xint (ld 4 (off_addr NDIRECT) din) =? 0
             then b <-- next_block ;; mk_ret (st 4 (off_addr NDIRECT) (xint b) din)
             else mk_ret din) ;;
    indirect <-- rsect (xint (ld 4 (off_addr NDIRECT) din)) ;;
    let o := (4 * Z.to_nat (fbn - NDIRECT))%nat in
    indirect <-- (if ld 4 o indirect =? 0
                  then b <-- next_block ;;
                       let indirect := st 4 o (xint b) indirect in
                       wsect (xint (ld 4 (off_addr NDIRECT) din)) indirect ;;;
                       mk_ret indirect
                  else mk_ret indirect) ;;
    mk_ret (din, xint (ld 4 o indirect)).

(** The loop of [iappend]; a turn takes at least one byte of [p]. *)
Fixpoint iappend_loop (fuel : nat) (din : list Z) (off : Z) (p : list Z) : M (list Z * Z) :=
  match p with
  | [] => mk_ret (din, off)
  | _ =>
      match fuel with
      | O => die "out of fuel"
      | S fuel =>
          let fbn := off / BSIZE in
          mk_assert (fbn <? MAXFILE) "fbn < MAXFILE" ;;;
          r <-- append_slot din fbn ;;
          let '(din, x) := r in
          let n1 := Z.min (Z.of_nat (length p)) ((fbn + 1) * BSIZE - off) in
          buf <-- rsect x ;;
          wsect x (splice (Z.to_nat (off - fbn * BSIZE)) (take (Z.to_nat n1) p) buf) ;;;
          iappend_loop fuel din (off + n1) (drop (Z.to_nat n1) p)
      end
  end.

Definition iappend (inum : Z) (xp : list Z) : M unit :=
  din <-- rinode inum ;;
  r <-- iappend_loop (length xp) din (xint (ld 4 off_size din)) xp ;;
  let '(din, off) := r in
  winode inum (st 4 off_size (xint off) din).

(** ** [main] *)

(** A [struct dirent]: [strcpy] or [strncpy] of the name into the zeroed entry *)
Definition dirent (inum : Z) (name : list Z) : list Z :=
  let name := take (Z.to_nat DIRSIZ) name in
  le 2 (xshort inum) ++ name ++ replicate (Z.to_nat DIRSIZ - length name) 0.

(** A file of the command line: its name, and what reading it returns, block by
    block; [None] if it cannot be opened. *)
Record host_file : Type := HostFile { hf_name : list Z; hf_data : option (list (list Z)) }.

(** The prefix user/ and a leading _ are dropped. *)
Definition user_prefix : list Z := [117; 115; 101; 114; 47].
Definition skip_user (name : list Z) : list Z :=
  if bool_decide (take 5 name = user_prefix) then drop 5 name else name.
Definition skip_under (name : list Z) : list Z := match name with 95 :: name' => name' | _ => name end.

Fixpoint append_all (inum : Z) (chunks : list (list Z)) : M unit :=
  match chunks with
  | [] => mk_ret tt
  | c :: chunks => iappend inum c ;;; append_all inum chunks
  end.

Definition add_file (rootino : Z) (f : host_file) : M unit :=
  let shortname := skip_user (hf_name f) in
  mk_assert (negb (existsb (fun c => c =? slash) shortname)) "index(shortname, '/') == 0" ;;;
  match hf_data f with
  | None => die "open"
  | Some chunks =>
      let shortname := skip_under shortname in
      mk_assert (Z.of_nat (length shortname) <=? DIRSIZ) "strlen(shortname) <= DIRSIZ" ;;;
      inum <-- mk_ialloc T_FILE ;;
      iappend rootino (dirent inum shortname) ;;;
      append_all inum chunks
  end.

Fixpoint add_files (rootino : Z) (l : list host_file) : M unit :=
  match l with
  | [] => mk_ret tt
  | f :: l => add_file rootino f ;;; add_files rootino l
  end.

Fixpoint wipe (secs : list Z) : M unit :=
  match secs with
  | [] => mk_ret tt
  | i :: secs => wsect i (replicate bsize 0) ;;; wipe secs
  end.

(** The bytes of [sb] *)
Definition sb_bytes (sb : superblock) : list Z :=
  le 4 (sb_magic sb) ++ le 4 (sb_size sb) ++ le 4 (sb_nblocks sb) ++ le 4 (sb_ninodes sb) ++
  le 4 (sb_nlog sb) ++ le 4 (sb_logstart sb) ++ le 4 (sb_inodestart sb) ++ le 4 (sb_bmapstart sb).

Definition main (files : list host_file) : M unit :=
  set_freeblock nmeta ;;;
  wipe (seqZ 0 FSSIZE) ;;;
  wsect 1 (splice 0 (sb_bytes mk_sb) (replicate bsize 0)) ;;;
  rootino <-- mk_ialloc T_DIR ;;
  mk_assert (rootino =? ROOTINO) "rootino == ROOTINO" ;;;
  iappend rootino (dirent rootino [46]) ;;;
  iappend rootino (dirent rootino [46; 46]) ;;;
  add_files rootino files ;;;
  din <-- rinode rootino ;;
  let off := xint (ld 4 off_size din) in
  let off := (off / BSIZE + 1) * BSIZE in
  winode rootino (st 4 off_size (xint off) din) ;;;
  (fun s => mk_balloc (freeblock s) s).

(** The image starts empty; sectors past its end cannot be read. *)
Definition mkfs (files : list host_file) : mres unit := main files (Mst (fun _ => replicate bsize 0) 0 1 0).
