(* ===== verification/MkfsOk.v ===== *)
(** * The image of mkfs

    The files of the image are read with the definitions of the kernel's file
    system (Fs.v, FsInode.v, FsData.v): inodes with [dinode_load], blocks with
    [slot], bytes with [fbyte]. *)

From stdpp Require Import base gmap sets list strings.
From Stdlib Require Import ZArith Lia.
From S2P Require Import Prelude Kernel Riscv Kstring Sleeplock Bytes Bio Log Usr Fs Path Tx FsBlock FsInode FsData FsDir Mkfs.

(** ** A file under construction *)

(** The file [x] has the [nb] first blocks, and holds [d]; all its blocks are below [fb]. *)
Record wf (x : inode) (img : Z -> list Z) (fb : Z) (d : list Z) (nb : Z) : Prop := {
  wf_len : length (i_addrs x) = 13%nat;
  wf_alloc : forall k, 0 <= k < IND -> slot x img k <> 0 <-> k < nb;
  wf_range : forall k, 0 <= k <= IND -> slot x img k <> 0 -> nmeta <= slot x img k < fb;
  wf_inj : forall j k, 0 <= j <= IND -> 0 <= k <= IND -> slot x img j <> 0 -> slot x img j = slot x img k -> j = k;
  wf_nb : Z.of_nat (length d) <= nb * BSIZE;
  wf_data : forall j, 0 <= j < IND * BSIZE -> slot x img (j / BSIZE) <> 0 -> fbyte x img j = default 0 (d !! Z.to_nat j)
}.

(** The image: its blocks, and zeros from [fb] on *)
Record img_ok (img : Z -> list Z) (fb : Z) : Prop := {
  im_size : forall b, length (img b) = bsize;
  im_zero : forall b, fb <= b -> img b = zeros
}.

(** What adding to a file leaves alone *)
Record extends (x : inode) (img : Z -> list Z) (fb : Z) (x' : inode) (img' : Z -> list Z) (fb' : Z) : Prop := {
  ex_fb : fb <= fb';
  ex_same : same_file x x';
  ex_frame : forall b, b < fb -> (forall k, 0 <= k <= IND -> slot x img k <> 0 -> slot x img k <> b) -> img' b = img b;
  ex_slots : forall k, 0 <= k <= IND -> slot x' img' k <> 0 -> slot x' img' k = slot x img k \/ fb <= slot x' img' k
}.

Lemma extends_refl x img fb : extends x img fb x img fb.
Proof. split; [lia|by destruct x|done|by left]. Qed.

Lemma extends_trans x img fb x1 img1 fb1 x2 img2 fb2 : extends x img fb x1 img1 fb1 -> extends x1 img1 fb1 x2 img2 fb2 -> extends x img fb x2 img2 fb2.
Proof.
  intros [F1 S1 M1 K1] [F2 S2 M2 K2]. split; [lia|unfold same_file in *; destruct x, x1, x2; cbn in *; congruence| |].
  - intros b Hb Hn. rewrite M2; [by apply M1|lia|]. intros k Hk H0 E. destruct (K1 k Hk H0) as [H|H]; [apply (Hn k Hk); congruence|lia].
  - intros k Hk H0. destruct (K2 k Hk H0) as [H|H]; [|right; lia]. rewrite H in *. by apply K1.
Qed.

Lemma zeros_ld n o : (o + n <= bsize)%nat -> ld n o zeros = 0.
Proof.
  intros H. unfold ld, slice, zeros. rewrite drop_replicate, take_replicate. generalize (n `min` (bsize - o))%nat as m. induction m as [|m IH]; [done|]. cbn. lia.
Qed.

Lemma nmeta_pos : 0 < nmeta.
Proof. done. Qed.

(** A direct block is added. *)
Lemma add_direct x img fb d k : wf x img fb d k -> img_ok img fb -> 0 <= k < NDIRECT -> nmeta <= fb ->
  wf (set_i_addr k fb x) img (fb + 1) d (k + 1) /\ extends x img fb (set_i_addr k fb x) img (fb + 1) /\ slot (set_i_addr k fb x) img k = fb.
Proof.
  intros W G Hk Hfb. pose proof nmeta_pos as Hm. pose proof (wf_len _ _ _ _ _ W) as Hl. assert (HI : NDIRECT < IND) by done. assert (HN : NDIRECT = 12) by done.
  assert (Ha : addr (set_i_addr k fb x) NDIRECT = addr x NDIRECT) by (rewrite addr_set by lia; by rewrite (proj2 (Z.eqb_neq NDIRECT k)) by lia).
  assert (Hs : forall j, 0 <= j <= IND -> slot (set_i_addr k fb x) img j = if j =? k then fb else slot x img j).
  { intros j Hj. unfold slot. rewrite Ha. destruct (Z.ltb_spec j NDIRECT); [by rewrite addr_set by lia|]. by rewrite (proj2 (Z.eqb_neq j k)) by lia. }
  assert (Hk0 : slot x img k = 0). { destruct (decide (slot x img k = 0)) as [|H0]; [done|]. apply (wf_alloc _ _ _ _ _ W) in H0; lia. }
  split; [split|split; [split|]].
  - by rewrite addrs_length.
  - intros j Hj. rewrite Hs by lia. destruct (Z.eqb_spec j k); [lia|]. rewrite (wf_alloc _ _ _ _ _ W) by lia. lia.
  - intros j Hj. rewrite Hs by lia. destruct (Z.eqb_spec j k); [lia|]. intros H0. pose proof (wf_range _ _ _ _ _ W j Hj H0). lia.
  - intros i j Hi Hj. rewrite !Hs by lia. destruct (Z.eqb_spec i k), (Z.eqb_spec j k); intros H0 E; subst; try done; try lia.
    + assert (H1 : slot x img j <> 0) by lia. pose proof (wf_range _ _ _ _ _ W j Hj H1). lia.
    + pose proof (wf_range _ _ _ _ _ W i Hi H0). lia.
    + by apply (wf_inj _ _ _ _ _ W).
  - pose proof (wf_nb _ _ _ _ _ W). unfold BSIZE in *. lia.
  - intros j Hj H0. assert (Hji : 0 <= j / BSIZE < IND) by (by apply block_index). rewrite Hs in H0 by lia. unfold fbyte. rewrite Hs by lia. destruct (Z.eqb_spec (j / BSIZE) k) as [E|Hne].
    + rewrite (im_zero _ _ G fb) by lia. pose proof (Z.mod_pos_bound j BSIZE eq_refl). unfold zeros. rewrite lookup_replicate_2 by (unfold BSIZE in *; lia).
      rewrite lookup_ge_None_2; [done|]. pose proof (wf_nb _ _ _ _ _ W). pose proof (Z.div_mod j BSIZE). unfold BSIZE in *. lia.
    + by apply (wf_data _ _ _ _ _ W).
  - lia.
  - apply same_file_addr.
  - done.
  - intros j Hj. rewrite Hs by lia. destruct (Z.eqb_spec j k); [right; lia|by left].
  - rewrite Hs by lia. by rewrite Z.eqb_refl.
Qed.

(** The indirect block is added; it is empty. *)
Lemma add_ind x img fb d : wf x img fb d NDIRECT -> img_ok img fb -> addr x NDIRECT = 0 -> nmeta <= fb ->
  wf (set_i_addr NDIRECT fb x) img (fb + 1) d NDIRECT /\ extends x img fb (set_i_addr NDIRECT fb x) img (fb + 1).
Proof.
  intros W G Ha0 Hfb. pose proof nmeta_pos as Hm. pose proof (wf_len _ _ _ _ _ W) as Hl. assert (HI : NDIRECT < IND) by done. assert (HN : NDIRECT = 12) by done.
  assert (Ha : addr (set_i_addr NDIRECT fb x) NDIRECT = fb) by (rewrite addr_set by lia; by rewrite Z.eqb_refl).
  assert (Hs : forall j, 0 <= j <= IND -> slot (set_i_addr NDIRECT fb x) img j = if j =? IND then fb else slot x img j).
  { intros j Hj. unfold slot. rewrite Ha, Ha0. destruct (Z.ltb_spec j NDIRECT).
    - rewrite (proj2 (Z.eqb_neq j IND)) by lia. rewrite addr_set by lia. by rewrite (proj2 (Z.eqb_neq j NDIRECT)) by lia.
    - destruct (Z.eqb_spec j IND); [done|]. change (0 =? 0) with true. cbv iota. rewrite (proj2 (Z.eqb_neq fb 0)) by lia. unfold ind_entry. rewrite (im_zero _ _ G) by lia.
      apply zeros_ld. unfold IND, NINDIRECT, BSIZE in *. change (1024 / 4) with 256 in *. lia. }
  assert (Hi0 : slot x img IND = 0) by (by rewrite slot_IND). split; split.
  - by rewrite addrs_length.
  - intros j Hj. rewrite Hs by lia. rewrite (proj2 (Z.eqb_neq j IND)) by lia. by apply (wf_alloc _ _ _ _ _ W).
  - intros j Hj. rewrite Hs by lia. destruct (Z.eqb_spec j IND); [lia|]. intros H0. pose proof (wf_range _ _ _ _ _ W j Hj H0). lia.
  - intros i j Hi Hj. rewrite !Hs by lia. destruct (Z.eqb_spec i IND), (Z.eqb_spec j IND); intros H0 E; subst; try done; try lia.
    + assert (H1 : slot x img j <> 0) by lia. pose proof (wf_range _ _ _ _ _ W j Hj H1). lia.
    + pose proof (wf_range _ _ _ _ _ W i Hi H0). lia.
    + by apply (wf_inj _ _ _ _ _ W).
  - apply (wf_nb _ _ _ _ _ W).
  - intros j Hj. assert (Hji : 0 <= j / BSIZE < IND) by (by apply block_index). unfold fbyte. rewrite Hs by lia. rewrite (proj2 (Z.eqb_neq _ IND)) by lia. by apply (wf_data _ _ _ _ _ W).
  - lia.
  - apply same_file_addr.
  - done.
  - intros j Hj. rewrite Hs by lia. destruct (Z.eqb_spec j IND); [right; lia|by left].
Qed.

(** A block is entered in the indirect block. *)
Lemma add_entry x img fb d k : wf x img fb d k -> img_ok img fb -> addr x NDIRECT <> 0 -> NDIRECT <= k < IND -> nmeta <= fb < 2 ^ 32 ->
  let img' := upd img (addr x NDIRECT) (st 4 (4 * Z.to_nat (k - NDIRECT)) fb (img (addr x NDIRECT))) in
  wf x img' (fb + 1) d (k + 1) /\ extends x img fb x img' (fb + 1) /\ slot x img' k = fb /\ img_ok img' (fb + 1).
Proof.
  intros W G Ha Hk Hfb img'. pose proof nmeta_pos as Hm. assert (HI : IND = NDIRECT + 256) by done. assert (HN : NDIRECT = 12) by done. set (ia := addr x NDIRECT) in *.
  assert (Hia : nmeta <= ia < fb) by (apply (wf_range _ _ _ _ _ W IND); [lia|by rewrite slot_IND]). pose proof (im_size _ _ G ia) as Hsz.
  assert (Hs : forall j, 0 <= j <= IND -> slot x img' j = if j =? k then fb else slot x img j).
  { intros j Hj. unfold slot. fold ia. destruct (Z.ltb_spec j NDIRECT); [by rewrite (proj2 (Z.eqb_neq j k)) by lia|].
    destruct (Z.eqb_spec j IND); [by rewrite (proj2 (Z.eqb_neq j k)) by lia|]. rewrite (proj2 (Z.eqb_neq ia 0)) by lia. unfold ind_entry, img'. rewrite upd_at.
    destruct (Z.eqb_spec j k) as [->|Hne]; [rewrite ld_st by lia; apply Z.mod_small; lia|by rewrite ld_st_ne by lia]. }
  assert (Hd : forall j, 0 <= j < IND -> slot x img j <> 0 -> slot x img j <> ia) by (intros j Hj H0 E; assert (j = IND) by (apply (wf_inj _ _ _ _ _ W); [lia|lia|done|exact E]); lia).
  assert (Hk0 : slot x img k = 0). { destruct (decide (slot x img k = 0)) as [|H0]; [done|]. apply (wf_alloc _ _ _ _ _ W) in H0; lia. }
  split; [split|split; [split|split]].
  - apply W.
  - intros j Hj. rewrite Hs by lia. destruct (Z.eqb_spec j k); [lia|]. rewrite (wf_alloc _ _ _ _ _ W) by lia. lia.
  - intros j Hj. rewrite Hs by lia. destruct (Z.eqb_spec j k); [lia|]. intros H0. pose proof (wf_range _ _ _ _ _ W j Hj H0). lia.
  - intros i j Hi Hj. rewrite !Hs by lia. destruct (Z.eqb_spec i k), (Z.eqb_spec j k); intros H0 E; subst; try done; try lia.
    + assert (H1 : slot x img j <> 0) by lia. pose proof (wf_range _ _ _ _ _ W j Hj H1). lia.
    + pose proof (wf_range _ _ _ _ _ W i Hi H0). lia.
    + by apply (wf_inj _ _ _ _ _ W).
  - pose proof (wf_nb _ _ _ _ _ W). unfold BSIZE in *. lia.
  - intros j Hj H0. assert (Hji : 0 <= j / BSIZE < IND) by (by apply block_index). rewrite Hs in H0 by lia. unfold fbyte. rewrite Hs by lia. destruct (Z.eqb_spec (j / BSIZE) k) as [E|Hne].
    + unfold img'. rewrite upd_ne by lia. rewrite (im_zero _ _ G fb) by lia. pose proof (Z.mod_pos_bound j BSIZE eq_refl). unfold zeros. rewrite lookup_replicate_2 by (unfold BSIZE in *; lia).
      rewrite lookup_ge_None_2; [done|]. pose proof (wf_nb _ _ _ _ _ W). pose proof (Z.div_mod j BSIZE). unfold BSIZE in *. lia.
    + unfold img'. rewrite upd_ne by (by apply Hd). by apply (wf_data _ _ _ _ _ W).
  - lia.
  - by destruct x.
  - intros b Hb Hn. apply upd_ne. intros ->. apply (Hn IND); [lia|by rewrite slot_IND|by rewrite slot_IND].
  - intros j Hj. rewrite Hs by lia. destruct (Z.eqb_spec j k); [right; lia|by left].
  - rewrite Hs by lia. by rewrite Z.eqb_refl.
  - split; intros b; unfold img', upd; destruct (Z.eqb_spec b ia); [rewrite length_st; [done|lia]|intros; apply G|intros; lia|intros; apply G; lia].
Qed.

(** Bytes are written behind the end. *)
Lemma put_bytes x img fb d nb c : wf x img fb d nb -> img_ok img fb ->
  let off := Z.of_nat (length d) in off / BSIZE < nb -> 0 <= off / BSIZE < IND -> off mod BSIZE + Z.of_nat (length c) <= BSIZE ->
  let a := slot x img (off / BSIZE) in
  let img' := upd img a (splice (Z.to_nat (off mod BSIZE)) c (img a)) in
  wf x img' fb (d ++ c) nb /\ extends x img fb x img' fb /\ img_ok img' fb.
Proof.
  intros W G off Hnb Hbi Hc a img'. pose proof nmeta_pos as Hm. assert (Ha : a <> 0) by (by apply (wf_alloc _ _ _ _ _ W)).
  assert (Hia : a <> addr x NDIRECT).
  { intros E. assert (off / BSIZE = IND) by (apply (wf_inj _ _ _ _ _ W); [lia|lia|done|exact E]). lia. }
  assert (Hs : forall j, slot x img' j = slot x img j) by (intros j; by apply store_slot). pose proof (im_size _ _ G a) as Hsz.
  pose proof (Z.mod_pos_bound off BSIZE eq_refl) as Hmod. pose proof (Z.div_mod off BSIZE ltac:(done)) as Hdm.
  pose proof (wf_range _ _ _ _ _ W (off / BSIZE) ltac:(lia) Ha) as Hra. fold a in Hra. split; [split|split; [split|]].
  - apply W.
  - intros j Hj. rewrite Hs. by apply (wf_alloc _ _ _ _ _ W).
  - intros j Hj. rewrite Hs. by apply (wf_range _ _ _ _ _ W).
  - intros i j. rewrite !Hs. apply (wf_inj _ _ _ _ _ W).
  - rewrite length_app. unfold BSIZE in *. lia.
  - intros j Hj. assert (Hji : 0 <= j / BSIZE < IND) by (by apply block_index). rewrite Hs. intros H0. unfold fbyte. rewrite Hs.
    pose proof (Z.mod_pos_bound j BSIZE eq_refl). pose proof (Z.div_mod j BSIZE ltac:(done)) as Hdj. destruct (decide (j / BSIZE = off / BSIZE)) as [E|Hne].
    + rewrite E. fold a. unfold img'. rewrite upd_at. rewrite lookup_splice by (unfold BSIZE in *; lia). case_decide as Hd.
      * rewrite lookup_app_r by lia. do 2 f_equal. unfold BSIZE in *. lia.
      * pose proof (wf_data _ _ _ _ _ W j Hj H0) as Hf. unfold fbyte in Hf. rewrite E in Hf. fold a in Hf. rewrite Hf.
        destruct (decide (j < off)); [by rewrite lookup_app_l by lia|]. rewrite !lookup_ge_None_2; [done|rewrite length_app; unfold BSIZE in *; lia|lia].
    + assert (Hsa : slot x img (j / BSIZE) <> a) by (intros Es; apply Hne; apply (wf_inj _ _ _ _ _ W); [lia|lia|done|done]).
      unfold img'. rewrite upd_ne by done. change (default 0 (img (slot x img (j / BSIZE)) !! Z.to_nat (j mod BSIZE))) with (fbyte x img j).
      rewrite (wf_data _ _ _ _ _ W) by done. destruct (decide (j < off)); [by rewrite lookup_app_l by lia|].
      rewrite !lookup_ge_None_2; [done|rewrite length_app; unfold BSIZE in *; lia|lia].
  - lia.
  - by destruct x.
  - intros b Hb Hn. apply upd_ne. intros ->. by apply (Hn (off / BSIZE)); [lia|..].
  - intros j Hj H0. left. apply Hs.
  - split; intros b; unfold img', upd; destruct (Z.eqb_spec b a) as [->|]; [rewrite length_splice; [done|unfold BSIZE in *; lia]|intros; apply G|intros; lia|intros; by apply G].
Qed.

(** ** Runs *)

(** A run does what [Q] says, unless it dies; it does not run out of fuel. *)
Definition ends {A} (r : mres A) (Q : A -> mst -> Prop) : Prop :=
  match r with MOk a s => Q a s | MDie why => why <> "out of fuel"%string end.

Lemma ends_bind {A B} (m : M A) (k : A -> M B) s (Q : A -> mst -> Prop) R : ends (m s) Q -> (forall a s', Q a s' -> ends (k a s') R) -> ends (mk_bind m k s) R.
Proof. unfold mk_bind. destruct (m s); cbn; auto. Qed.

Lemma ends_assert {B} b why (k : unit -> M B) s R : why <> "out of fuel"%string -> (b = true -> ends (k tt s) R) -> ends (mk_bind (mk_assert b why) k s) R.
Proof. unfold mk_bind, mk_assert. destruct b; cbn; auto. Qed.

Lemma ends_rsect {B} sec (k : list Z -> M B) s R : (0 <= sec < ms_len s -> ends (k (ms_img s sec) s) R) -> ends (mk_bind (rsect sec) k s) R.
Proof. intros H. unfold mk_bind, rsect. destruct ((0 <=? sec) && (sec <? ms_len s)) eqn:E; [|done]. apply andb_true_iff in E as [E1 E2]. apply H. lia. Qed.

Lemma xint_spec x : 0 <= x < 2 ^ 32 -> xint x = x.
Proof.
  intros H. unfold xint. rewrite !Z.shiftr_div_pow2 by lia.
  replace [u8 x; u8 (x / 2 ^ 8); u8 (x / 2 ^ 16); u8 (x / 2 ^ 24)] with (le 4 x).
  - rewrite of_le_le. by apply Z.mod_small.
  - cbn [le]. unfold uint_wrap. rewrite !Z.div_div by lia. reflexivity.
Qed.

(** *** The inode in memory *)

Definition di (din : list Z) (y : inode) : inode := dinode_load din 0 y.

Lemma addr_slot_at k : 0 <= k < 13 -> addr_slots !! Z.to_nat k = Some k.
Proof. intros Hk. apply lookup_seqZ. unfold NDIRECT. lia. Qed.

Lemma di_addr din y k : 0 <= k < 13 -> addr (di din y) k = ld 4 (off_addr k) din.
Proof.
  intros Hk. unfold addr, di, dinode_load. cbn [i_addrs]. rewrite list_lookup_fmap.
  rewrite addr_slot_at by done. done.
Qed.

Lemma di_len din y : length (i_addrs (di din y)) = 13%nat.
Proof. unfold di, dinode_load. cbn [i_addrs]. by rewrite length_fmap. Qed.

Lemma di_set din y k v : length din = 64%nat -> 0 <= k < 13 -> 0 <= v < 2 ^ 32 -> di (st 4 (off_addr k) v din) y = set_i_addr k v (di din y).
Proof.
  intros Hl Hk Hv. unfold di, dinode_load, set_i_addr, ld_short. cbn [i_dev i_inum i_ref i_valid i_type i_major i_minor i_nlink i_size i_addrs].
  rewrite !(ld_st_ne _ _ 4 (off_addr k)) by (unfold off_addr; lia). f_equal. apply list_eq. intros i.
  rewrite list_lookup_fmap. destruct (decide (i = Z.to_nat k)) as [->|Hne].
  - rewrite list_lookup_insert_eq by (rewrite length_fmap; change (length addr_slots) with 13%nat; lia). rewrite addr_slot_at by done.
    cbn [fmap option_fmap option_map]. rewrite ld_st by (unfold off_addr; lia). f_equal. by apply Z.mod_small.
  - rewrite list_lookup_insert_ne by done. rewrite list_lookup_fmap. destruct (addr_slots !! i) as [j|] eqn:Ej; [|done]. apply lookup_seqZ in Ej as [-> Hj].
    cbn [fmap option_fmap option_map]. f_equal. unfold NDIRECT in *. rewrite ld_st_ne; [done|unfold off_addr; lia..].
Qed.

(** *** [append_slot] *)

Record slotted (din : list Z) (y : inode) (d : list Z) (fbn : Z) (s : mst) (r : list Z * Z) (s' : mst) : Prop := {
  sl_len : length (fst r) = 64%nat;
  sl_wf : wf (di (fst r) y) (ms_img s') (freeblock s') d (fbn + 1);
  sl_img : img_ok (ms_img s') (freeblock s');
  sl_ext : extends (di din y) (ms_img s) (freeblock s) (di (fst r) y) (ms_img s') (freeblock s');
  sl_slot : snd r = slot (di (fst r) y) (ms_img s') fbn;
  sl_fb : freeblock s' <= FSSIZE \/ freeblock s' = snd r + 1;
  sl_rest : ms_len s' = ms_len s /\ freeinode s' = freeinode s
}.

Lemma wf_small x img fb d nb k : wf x img fb d nb -> fb <= FSSIZE + 2 -> 0 <= k <= IND -> xint (slot x img k) = slot x img k.
Proof.
  intros W Hf Hk. destruct (decide (slot x img k = 0)) as [->|H0]; [done|]. pose proof (wf_range _ _ _ _ _ W k Hk H0). pose proof nmeta_pos. apply xint_spec. unfold FSSIZE in *. lia.
Qed.

Lemma append_slot_direct din y d fbn nb s : length din = 64%nat -> wf (di din y) (ms_img s) (freeblock s) d nb -> img_ok (ms_img s) (freeblock s) ->
  nmeta <= freeblock s <= FSSIZE -> 0 <= fbn < NDIRECT -> nb = fbn \/ nb = fbn + 1 -> ends (append_slot din fbn s) (slotted din y d fbn s).
Proof.
  intros Hl W G Hfb Hk Hnb. assert (HI : NDIRECT < IND) by done. assert (HN : NDIRECT = 12) by done. pose proof nmeta_pos as Hm.
  assert (Ha : forall din y img, ld 4 (off_addr fbn) din = slot (di din y) img fbn) by (intros; by rewrite slot_direct, di_addr by lia).
  unfold append_slot. rewrite (proj2 (Z.ltb_lt _ _)) by lia. rewrite (Ha din y (ms_img s)). rewrite (wf_small _ _ _ _ _ fbn W) by lia.
  destruct (Z.eqb_spec (slot (di din y) (ms_img s) fbn) 0) as [E0|H0].
  - assert (nb = fbn) as -> by (destruct Hnb as [|E]; [done|]; exfalso; by apply (wf_alloc _ _ _ _ _ W fbn ltac:(lia)); [lia|]).
    destruct s as [img len fi fb]. cbn [ms_img freeblock ms_len freeinode] in *. unfold mk_bind, next_block, mk_ret. cbn [ms_img freeblock ms_len freeinode].
    rewrite (xint_spec fb) by (unfold FSSIZE in *; lia). assert (Hw : u32 (fb + 1) = fb + 1) by (apply uint_wrap_small; unfold FSSIZE in *; lia). rewrite Hw.
    destruct (add_direct _ _ _ _ _ W G Hk ltac:(lia)) as (W' & X & Es). rewrite <- di_set in W', X, Es by (done || unfold FSSIZE in *; lia). cbn [ends].
    assert (Er : xint (ld 4 (off_addr fbn) (st 4 (off_addr fbn) fb din)) = slot (di (st 4 (off_addr fbn) fb din) y) img fbn) by (rewrite (Ha _ y img); apply (wf_small _ _ _ _ _ fbn W'); lia).
    split; cbn [fst snd ms_img freeblock ms_len freeinode]; [rewrite length_st; [done|unfold off_addr; lia]|done| |done|done|right; rewrite Er, Es; done|done].
    split; [apply G|]. intros b Hb. apply G. lia.
  - assert (nb = fbn + 1) as -> by (apply (wf_alloc _ _ _ _ _ W) in H0; lia). unfold mk_bind, mk_ret. cbn [ends].
    split; cbn [fst snd]; [done|done|done|apply extends_refl| |left; lia|done]. rewrite (Ha din y (ms_img s)). apply (wf_small _ _ _ _ _ fbn W); lia.
Qed.

(** The part of [append_slot] that uses the indirect block *)
Definition append_entry (din : list Z) (fbn : Z) : M (list Z * Z) :=
  mk_bind (rsect (xint (ld 4 (off_addr NDIRECT) din))) (fun indirect =>
  let o := (4 * Z.to_nat (fbn - NDIRECT))%nat in
  mk_bind (if ld 4 o indirect =? 0
           then mk_bind next_block (fun b => let indirect := st 4 o (xint b) indirect in
                  mk_bind (wsect (xint (ld 4 (off_addr NDIRECT) din)) indirect) (fun _ => mk_ret indirect))
           else mk_ret indirect) (fun indirect =>
  mk_ret (din, xint (ld 4 o indirect)))).

Lemma append_entry_ok din y d fbn nb s : length din = 64%nat -> wf (di din y) (ms_img s) (freeblock s) d nb -> img_ok (ms_img s) (freeblock s) ->
  nmeta <= freeblock s <= FSSIZE + 1 -> ms_len s = FSSIZE -> NDIRECT <= fbn < IND -> addr (di din y) NDIRECT <> 0 -> nb = fbn \/ nb = fbn + 1 ->
  (freeblock s <= FSSIZE \/ freeblock s = addr (di din y) NDIRECT + 1) ->
  ends (append_entry din fbn s) (slotted din y d fbn s).
Proof.
  intros Hl W G Hfb Hlen Hk Hne Hnb Hfb2. assert (HI : IND = NDIRECT + 256) by done. assert (HN : NDIRECT = 12) by done. pose proof nmeta_pos as Hm. set (x := di din y) in *.
  assert (Hia : nmeta <= addr x NDIRECT < freeblock s) by (rewrite <- (slot_IND x (ms_img s)); apply (wf_range _ _ _ _ _ W); [lia|by rewrite slot_IND]).
  assert (Ei : xint (ld 4 (off_addr NDIRECT) din) = addr x NDIRECT) by (rewrite <- (di_addr din y) by lia; apply xint_spec; unfold FSSIZE in *; lia).
  assert (Ee : forall img, ld 4 (4 * Z.to_nat (fbn - NDIRECT)) (img (addr x NDIRECT)) = slot x img fbn).
  { intros img. rewrite slot_indirect by lia. by rewrite (proj2 (Z.eqb_neq _ 0)). }
  unfold append_entry. rewrite Ei. apply ends_rsect. intros Hr. cbv zeta. rewrite Ee. rewrite Hlen in Hr.
  destruct (Z.eqb_spec (slot x (ms_img s) fbn) 0) as [E0|H0].
  - assert (nb = fbn) as -> by (destruct Hnb as [|E]; [done|]; exfalso; by apply (wf_alloc _ _ _ _ _ W fbn ltac:(lia)); [lia|]).
    destruct s as [img len fi fb]. cbn [ms_img freeblock ms_len freeinode] in *. unfold mk_bind, next_block, wsect, mk_ret. cbn [ms_img freeblock ms_len freeinode ends].
    rewrite (xint_spec fb) by (unfold FSSIZE in *; lia). assert (Hw : u32 (fb + 1) = fb + 1) by (apply uint_wrap_small; unfold FSSIZE in *; lia). rewrite Hw.
    destruct (add_entry _ _ _ _ _ W G Hne Hk ltac:(unfold FSSIZE in *; lia)) as (W' & X & Es & G'). set (img' := upd img _ _) in *.
    assert (Er : xint (ld 4 (4 * Z.to_nat (fbn - NDIRECT)) (st 4 (4 * Z.to_nat (fbn - NDIRECT)) fb (img (addr x NDIRECT)))) = fb).
    { rewrite ld_st by (rewrite (im_size _ _ G); lia). change (256 ^ Z.of_nat 4) with (2 ^ 32). rewrite Z.mod_small by (unfold FSSIZE in *; lia). apply xint_spec. unfold FSSIZE in *; lia. }
    split; cbn [fst snd ms_img freeblock ms_len freeinode]; [done|done|done|done|by rewrite Er|right; by rewrite Er|]. split; [rewrite Hlen; unfold FSSIZE in *; lia|done].
  - assert (nb = fbn + 1) as -> by (apply (wf_alloc _ _ _ _ _ W) in H0; lia). unfold mk_bind, mk_ret. cbn [ends].
    split; cbn [fst snd]; [done|done|done|apply extends_refl| |left; destruct Hfb2; lia|done]. rewrite Ee. apply (wf_small _ _ _ _ _ fbn W); lia.
Qed.

Lemma append_slot_ok din y d fbn nb s : length din = 64%nat -> wf (di din y) (ms_img s) (freeblock s) d nb -> img_ok (ms_img s) (freeblock s) ->
  nmeta <= freeblock s <= FSSIZE -> ms_len s = FSSIZE -> 0 <= fbn < IND -> nb = fbn \/ nb = fbn + 1 -> ends (append_slot din fbn s) (slotted din y d fbn s).
Proof.
  intros Hl W G Hfb Hlen Hk Hnb. assert (HI : NDIRECT < IND) by done. assert (HN : NDIRECT = 12) by done. pose proof nmeta_pos as Hm.
  destruct (Z.lt_ge_cases fbn NDIRECT) as [Hd|Hd]; [apply (append_slot_direct din y d fbn nb); done || lia|].
  unfold append_slot. rewrite (proj2 (Z.ltb_ge _ _)) by lia.
  assert (Ei : xint (ld 4 (off_addr NDIRECT) din) = addr (di din y) NDIRECT).
  { rewrite <- (di_addr din y) by lia. rewrite <- (slot_IND (di din y) (ms_img s)). apply (wf_small _ _ _ _ _ IND W); lia. }
  rewrite Ei. destruct (Z.eqb_spec (addr (di din y) NDIRECT) 0) as [E0|H0]; [|apply (append_entry_ok din y d fbn nb); done || lia].
  assert (Hs0 : forall k, NDIRECT <= k < IND -> slot (di din y) (ms_img s) k = 0) by (intros k Hk'; rewrite slot_indirect by lia; by rewrite E0).
  assert (nb = NDIRECT /\ fbn = NDIRECT) as [-> ->].
  { assert (Hn : nb <= NDIRECT). { destruct (Z.lt_ge_cases NDIRECT nb) as [Hlt|]; [|done]. exfalso. by apply (wf_alloc _ _ _ _ _ W NDIRECT ltac:(lia)); [|apply Hs0; lia]. } lia. }
  destruct s as [img len fi fb]. cbn [ms_img freeblock ms_len freeinode] in *.
  destruct (add_ind _ _ _ _ W G E0 ltac:(lia)) as (W' & X). rewrite <- di_set in W', X by (done || unfold FSSIZE in *; lia). set (din1 := st 4 (off_addr NDIRECT) fb din) in *.
  assert (Hl1 : length din1 = 64%nat) by (unfold din1; rewrite length_st; [done|unfold off_addr; lia]).
  assert (Ha1 : addr (di din1 y) NDIRECT = fb) by (unfold din1; rewrite di_set by (done || unfold FSSIZE in *; lia); rewrite addr_set by (rewrite ?di_len; done || lia); by rewrite Z.eqb_refl).
  assert (G' : img_ok img (fb + 1)) by (split; [apply G|]; intros b Hb; apply G; lia).
  unfold mk_bind at 1 2. unfold next_block, mk_ret. cbn [ms_img freeblock ms_len freeinode]. rewrite (xint_spec fb) by (unfold FSSIZE in *; lia).
  assert (Hw : u32 (fb + 1) = fb + 1) by (apply uint_wrap_small; unfold FSSIZE in *; lia). rewrite Hw. fold din1.
  change (ends (append_entry din1 NDIRECT (Mst img len fi (fb + 1))) (slotted din y d NDIRECT (Mst img len fi fb))).
  pose proof (append_entry_ok din1 y d NDIRECT NDIRECT (Mst img len fi (fb + 1)) Hl1 W' G' ltac:(cbn [freeblock]; lia) Hlen ltac:(lia) ltac:(rewrite Ha1; lia) ltac:(by left) ltac:(right; cbn [freeblock]; by rewrite Ha1)) as H.
  destruct (append_entry din1 NDIRECT (Mst img len fi (fb + 1))) as [r s'|why]; [|exact H]. destruct H as [H1 H2 H3 H4 H5 H6 H7]. split; try done. by apply (extends_trans _ _ _ _ _ _ _ _ _ X).
Qed.

(** *** [iappend] *)

(** The number of blocks of [n] bytes *)
Definition nblks (d : list Z) : Z := (Z.of_nat (length d) + BSIZE - 1) / BSIZE.

Lemma nblks_spec d k : k * BSIZE < Z.of_nat (length d) <= (k + 1) * BSIZE -> nblks d = k + 1.
Proof. intros H. unfold nblks. symmetry. apply (Z.div_unique_pos _ _ _ (Z.of_nat (length d) + BSIZE - 1 - BSIZE * (k + 1))); unfold BSIZE in *; lia. Qed.

Lemma nblks_cases d : let off := Z.of_nat (length d) in nblks d = off / BSIZE \/ nblks d = off / BSIZE + 1.
Proof.
  intros off. pose proof (Z.mod_pos_bound off BSIZE eq_refl). pose proof (Z.div_mod off BSIZE ltac:(done)). destruct (decide (off mod BSIZE = 0)) as [E|E].
  - left. unfold nblks. fold off. symmetry. apply (Z.div_unique_pos _ _ _ (BSIZE - 1)); unfold BSIZE in *; lia.
  - right. apply nblks_spec. fold off. unfold BSIZE in *. lia.
Qed.

(** The state in which work on the file starts and ends *)
Record steady (x : inode) (d : list Z) (s : mst) : Prop := {
  sd_wf : wf x (ms_img s) (freeblock s) d (nblks d);
  sd_img : img_ok (ms_img s) (freeblock s);
  sd_fb : nmeta <= freeblock s <= FSSIZE;
  sd_len : ms_len s = FSSIZE
}.

Record appended (din : list Z) (y : inode) (d : list Z) (s : mst) (r : list Z * Z) (s' : mst) : Prop := {
  ap_din : length (fst r) = 64%nat;
  ap_off : snd r = Z.of_nat (length d);
  ap_max : Z.of_nat (length d) <= MAXBYTES;
  ap_steady : steady (di (fst r) y) d s';
  ap_ext : extends (di din y) (ms_img s) (freeblock s) (di (fst r) y) (ms_img s') (freeblock s');
  ap_ino : freeinode s' = freeinode s
}.

Lemma iappend_loop_ok y fuel : forall din d p s, (length p <= fuel)%nat -> length din = 64%nat -> steady (di din y) d s -> Z.of_nat (length d) <= MAXBYTES ->
  ends (iappend_loop fuel din (Z.of_nat (length d)) p s) (appended din y (d ++ p) s).
Proof.
  induction fuel as [|fuel IH]; intros din d p s Hf Hl S Hmax; (destruct p as [|b p]; [cbn; rewrite app_nil_r; split; [done|done|done|done|apply extends_refl|done]|]); [cbn in Hf; lia|].
  cbn [iappend_loop]. set (q := b :: p) in *. set (off := Z.of_nat (length d)) in *. destruct S as [W G Hfb Hlen]. assert (Hq : (1 <= length q)%nat) by (cbn; lia).
  apply ends_assert; [done|]. intros HI. apply Z.ltb_lt in HI. change MAXFILE with IND in HI.
  assert (Hk : 0 <= off / BSIZE < IND) by (split; [apply Z.div_pos; [lia|done]|done]).
  pose proof (Z.mod_pos_bound off BSIZE eq_refl) as Hmod. pose proof (Z.div_mod off BSIZE ltac:(done)) as Hdm.
  eapply ends_bind; [by apply (append_slot_ok din y d (off / BSIZE) (nblks d) s); [..|apply nblks_cases]|].
  intros [din1 a] s1 [H1 W1 G1 X1 Ea F1 [L1 I1]]. cbn [fst snd] in *. set (n1 := Z.min (Z.of_nat (length q)) ((off / BSIZE + 1) * BSIZE - off)).
  assert (Hn1 : 0 < n1 <= Z.of_nat (length q) /\ off mod BSIZE + n1 <= BSIZE) by (unfold n1, BSIZE in *; lia).
  apply ends_rsect. intros Ha. assert (Hfb1 : freeblock s1 <= FSSIZE) by lia.
  assert (Lc : length (take (Z.to_nat n1) q) = Z.to_nat n1) by (rewrite length_take; lia).
  replace (off - off / BSIZE * BSIZE) with (off mod BSIZE) by lia.
  destruct (put_bytes _ _ _ _ _ (take (Z.to_nat n1) q) W1 G1 ltac:(cbv zeta; fold off; lia) Hk ltac:(cbv zeta; rewrite Lc; fold off; lia)) as (W2 & X2 & G2). fold off in W2, X2, G2. rewrite <- Ea in W2, X2, G2.
  unfold mk_bind, wsect. set (s2 := Mst _ _ _ _). set (d2 := d ++ take (Z.to_nat n1) q) in *.
  assert (Ed : off + n1 = Z.of_nat (length d2)) by (unfold d2; rewrite length_app, Lc; lia).
  assert (Enb : nblks d2 = off / BSIZE + 1) by (apply nblks_spec; rewrite <- Ed; unfold BSIZE in *; lia).
  pose proof (ex_fb _ _ _ _ _ _ X1). assert (S2 : steady (di din1 y) d2 s2) by (split; [rewrite Enb; exact W2|exact G2|cbn; lia|cbn; lia]).
  rewrite Ed. pose proof (IH din1 d2 (drop (Z.to_nat n1) q) s2 ltac:(rewrite length_drop; lia) H1 S2 ltac:(rewrite <- Ed; unfold MAXBYTES, BSIZE in *; lia)) as H2.
  unfold d2 in H2 at 2. rewrite <- app_assoc, take_drop in H2. unfold ends in *. destruct (iappend_loop _ _ _ _ _) as [r s'|why]; [|exact H2].
  destruct H2 as [A1 A2 A3 A4 A5 A6]. split; [done|done|done|done| |cbn in A6; congruence].
  apply (extends_trans _ _ _ _ _ _ _ _ _ X1). exact (extends_trans _ _ _ _ _ _ _ _ _ X2 A5).
Qed.

(** ** Inodes on the image *)

Definition ino0 (i : Z) : inode := Inode ROOTDEV i 0 0 0 0 0 0 0 [].
Definition ino (img : Z -> list Z) (i : Z) : inode := dinode_load (img (IBLOCK i mk_sb)) (dip_off i) (ino0 i).

Lemma iblock_spec i : 0 <= i < NINODES -> IBLOCK i mk_sb = 33 + i / 16 /\ 33 <= IBLOCK i mk_sb < 46 /\ (dip_off i + 64 <= bsize)%nat /\ dip_off i = Z.to_nat (i mod 16 * 64).
Proof.
  intros Hi. unfold NINODES in Hi. assert (H : 0 <= i / 16 < 13) by (split; [apply Z.div_pos; lia|apply Z.div_lt_upper_bound; lia]).
  pose proof (Z.mod_pos_bound i 16 eq_refl). assert (E : IBLOCK i mk_sb = 33 + i / 16).
  { unfold IBLOCK. change IPB with 16. change (sb_inodestart mk_sb) with 33. rewrite uint_wrap_small by lia. lia. }
  split; [done|]. split; [lia|]. unfold dip_off. change IPB with 16. change sizeof_dinode with 64. split; [lia|done].
Qed.

Lemma ld_slice n a o d : (o + 64 <= length d)%nat -> (a + n <= 64)%nat -> ld n a (slice o 64 d) = ld n (o + a) d.
Proof.
  intros Hd Ha. unfold ld, slice. f_equal. apply list_eq. intros i. destruct (decide (i < n)%nat) as [Hi|Hi].
  - rewrite !lookup_take_lt, !lookup_drop by done. rewrite lookup_take_lt, lookup_drop by lia. f_equal. lia.
  - rewrite !lookup_ge_None_2; [done|rewrite length_take; lia|rewrite length_take; lia].
Qed.

Lemma load_slice o d y : (o + 64 <= length d)%nat -> di (slice o 64 d) y = dinode_load d o y.
Proof.
  intros Hd. unfold di, dinode_load, ld_short. rewrite !ld_slice by (done || lia). rewrite !Nat.add_0_r. f_equal.
  apply list_fmap_ext. intros i k Hk. apply list_elem_of_lookup_2, (proj1 (Forall_forall _ _) addr_slots_ok) in Hk. unfold slot_idx in Hk.
  rewrite ld_slice; [done|done|unfold off_addr; lia].
Qed.

Lemma load_splice o d din y : (o + 64 <= length d)%nat -> length din = 64%nat -> dinode_load (splice o din d) o y = di din y.
Proof.
  intros Hd Hl. rewrite <- load_slice by (rewrite length_splice; lia). rewrite <- Hl, slice_splice by lia. done.
Qed.

Lemma load_splice_ne o o' d din y : (o + 64 <= length d)%nat -> (o' + 64 <= length d)%nat -> length din = 64%nat -> (o + 64 <= o' \/ o' + 64 <= o)%nat ->
  dinode_load (splice o din d) o' y = dinode_load d o' y.
Proof.
  intros H1 H2 Hl Hap. rewrite <- !load_slice by (rewrite ?length_splice; lia). by rewrite slice_splice_ne by lia.
Qed.

(** The image after [winode] *)
Definition wrote_ino (img : Z -> list Z) (i : Z) (din : list Z) : Z -> list Z :=
  upd img (IBLOCK i mk_sb) (splice (dip_off i) din (img (IBLOCK i mk_sb))).

Lemma wrote_ino_at img i din : 0 <= i < NINODES -> (forall b, length (img b) = bsize) -> length din = 64%nat -> ino (wrote_ino img i din) i = di din (ino0 i).
Proof. intros Hi Hs Hl. destruct (iblock_spec i Hi) as (_ & _ & Hd & _). unfold ino, wrote_ino. rewrite upd_at. apply load_splice; [by rewrite Hs|done]. Qed.

Lemma wrote_ino_ne img i j din : 0 <= i < NINODES -> 0 <= j < NINODES -> i <> j -> (forall b, length (img b) = bsize) -> length din = 64%nat -> ino (wrote_ino img i din) j = ino img j.
Proof.
  intros Hi Hj Hne Hs Hl. destruct (iblock_spec i Hi) as (Ei & _ & Hd & Oi). destruct (iblock_spec j Hj) as (Ej & _ & Hd' & Oj). unfold ino, wrote_ino.
  destruct (decide (IBLOCK j mk_sb = IBLOCK i mk_sb)) as [E|E]; [|by rewrite upd_ne]. rewrite E, upd_at. apply load_splice_ne; [by rewrite Hs|by rewrite Hs|done|].
  rewrite Ei, Ej in E. pose proof (Z.div_mod i 16). pose proof (Z.div_mod j 16). rewrite Oi, Oj. pose proof (Z.mod_pos_bound i 16 eq_refl). pose proof (Z.mod_pos_bound j 16 eq_refl). lia.
Qed.

(** A file does not depend on the other blocks. *)
Lemma slot_ext x x' img img' k : i_addrs x' = i_addrs x -> (addr x NDIRECT <> 0 -> img' (addr x NDIRECT) = img (addr x NDIRECT)) -> slot x' img' k = slot x img k.
Proof. intros Ha Hb. rewrite <- (slot_blk x img img' k Hb). unfold slot, addr. by rewrite Ha. Qed.

Lemma wf_ext x x' img img' fb fb' d nb : wf x img fb d nb -> i_addrs x' = i_addrs x -> fb <= fb' ->
  (forall k, 0 <= k <= IND -> slot x img k <> 0 -> img' (slot x img k) = img (slot x img k)) ->
  wf x' img' fb' d nb /\ forall k, slot x' img' k = slot x img k.
Proof.
  intros W Ha Hfb Hb. assert (HI : 0 <= IND <= IND) by done. assert (Hs : forall k, slot x' img' k = slot x img k).
  { intros k. apply slot_ext; [done|]. intros H0. by apply (Hb IND HI). }
  split; [|done]. split.
  - rewrite Ha. apply W.
  - intros k Hk. rewrite Hs. by apply (wf_alloc _ _ _ _ _ W).
  - intros k Hk. rewrite Hs. intros H0. pose proof (wf_range _ _ _ _ _ W k Hk H0). lia.
  - intros j k. rewrite !Hs. apply (wf_inj _ _ _ _ _ W).
  - apply W.
  - intros j Hj. rewrite Hs. intros H0. rewrite <- (wf_data _ _ _ _ _ W j Hj H0). unfold fbyte. rewrite Hs. rewrite Hb; [done| |done]. pose proof (block_index j Hj). lia.
Qed.

(** ** The invariant *)

(** An inode on the image: of type [t], with one link, holding [d] *)
Record holds (img : Z -> list Z) (fb i t : Z) (d : list Z) : Prop := {
  ho_type : i_type (ino img i) = t;
  ho_link : i_nlink (ino img i) = 1;
  ho_dev : i_major (ino img i) = 0 /\ i_minor (ino img i) = 0;
  ho_size : i_size (ino img i) = Z.of_nat (length d);
  ho_max : Z.of_nat (length d) <= MAXBYTES;
  ho_wf : wf (ino img i) img fb d (nblks d)
}.

Definition sb_block : list Z := splice 0 (sb_bytes mk_sb) zeros.

(** The inodes from 1 on hold [ents]. *)
Record inv (s : mst) (ents : list (Z * list Z)) : Prop := {
  in_fi : freeinode s = 1 + Z.of_nat (length ents);
  in_max : Z.of_nat (length ents) < NINODES;
  in_img : img_ok (ms_img s) (freeblock s);
  in_fb : nmeta <= freeblock s <= FSSIZE;
  in_len : ms_len s = FSSIZE;
  in_low : forall b, 0 <= b < 33 -> ms_img s b = if b =? 1 then sb_block else zeros;
  in_ino : forall i t d, ents !! i = Some (t, d) -> holds (ms_img s) (freeblock s) (1 + Z.of_nat i) t d;
  in_apart : forall i j k k', (i < length ents)%nat -> (j < length ents)%nat -> i <> j -> 0 <= k <= IND -> 0 <= k' <= IND ->
    slot (ino (ms_img s) (1 + Z.of_nat i)) (ms_img s) k <> 0 ->
    slot (ino (ms_img s) (1 + Z.of_nat i)) (ms_img s) k <> slot (ino (ms_img s) (1 + Z.of_nat j)) (ms_img s) k'
}.

Lemma inv_num s ents i : inv s ents -> (i < length ents)%nat -> 0 <= 1 + Z.of_nat i < NINODES.
Proof. intros H Hi. pose proof (in_max _ _ H). lia. Qed.

Lemma wrote_ino_img img fb i din : img_ok img fb -> 0 <= i < NINODES -> length din = 64%nat -> nmeta <= fb -> img_ok (wrote_ino img i din) fb.
Proof.
  intros G Hi Hl Hfb. assert (HM : nmeta = 47) by done. destruct (iblock_spec _ Hi) as (_ & Hb & Hdo & _). split; intros b; unfold wrote_ino, upd; destruct (Z.eqb_spec b (IBLOCK i mk_sb)); [|apply G|lia|apply G].
  rewrite length_splice; rewrite (im_size _ _ G); lia || done.
Qed.

(** An inode whose blocks are left alone *)
Lemma holds_ext s ents j t d im fb' : inv s ents -> ents !! j = Some (t, d) -> freeblock s <= fb' ->
  let x := ino (ms_img s) (1 + Z.of_nat j) in
  ino im (1 + Z.of_nat j) = x -> (forall k, 0 <= k <= IND -> slot x (ms_img s) k <> 0 -> nmeta <= slot x (ms_img s) k < freeblock s -> im (slot x (ms_img s) k) = ms_img s (slot x (ms_img s) k)) ->
  holds im fb' (1 + Z.of_nat j) t d /\ forall k, slot (ino im (1 + Z.of_nat j)) im k = slot x (ms_img s) k.
Proof.
  intros H Hj Hfb x Ex Hk. destruct (in_ino _ _ H j t d Hj) as [H1 H2 H3 H4 H5 H6]. fold x in H1, H2, H3, H4, H6.
  destruct (wf_ext x x (ms_img s) im (freeblock s) fb' d (nblks d) H6 eq_refl Hfb) as [W Hs]; [intros k Hk0 H0; apply Hk; [done|done|by apply (wf_range _ _ _ _ _ H6)]|].
  split; [|by rewrite Ex]. split; rewrite ?Ex; done.
Qed.

(** The inode [i] is replaced, and its file extended. *)
Lemma inv_update s ents i t d x img' fb' fi' din d' : inv s ents -> ents !! i = Some (t, d) -> x = ino (ms_img s) (1 + Z.of_nat i) ->
  let x' := di din (ino0 (1 + Z.of_nat i)) in
  length din = 64%nat -> img_ok img' fb' -> nmeta <= fb' <= FSSIZE -> fi' = freeinode s ->
  extends x (ms_img s) (freeblock s) (set_i_size (i_size x) x') img' fb' ->
  wf x' img' fb' d' (nblks d') -> i_size x' = Z.of_nat (length d') -> Z.of_nat (length d') <= MAXBYTES ->
  inv (Mst (wrote_ino img' (1 + Z.of_nat i) din) FSSIZE fi' fb') (<[i := (t, d')]> ents).
Proof.
  intros H Hi Ex x' Hl G' Hfb' Efi X W' Hsz Hmax. pose proof (in_fb _ _ H) as Hfb. assert (Hil : (i < length ents)%nat) by (by eapply lookup_lt_Some).
  pose proof (inv_num _ _ _ H Hil) as Hn. destruct (iblock_spec _ Hn) as (_ & Hb & Hdo & _). assert (HM : nmeta = 47) by done. assert (HI : 0 <= IND <= IND) by done.
  pose proof (in_ino _ _ H i t d Hi) as Ho. rewrite Ex in X. pose proof (ho_wf _ _ _ _ _ Ho) as Wo. set (im := wrote_ino img' (1 + Z.of_nat i) din) in *.
  assert (Hup : forall b, ~ (33 <= b < 46) -> im b = img' b) by (intros b Hb'; apply upd_ne; lia).
  assert (Hlow : forall b, b < nmeta -> img' b = ms_img s b).
  { intros b Hb'. apply (ex_frame _ _ _ _ _ _ X); [lia|]. intros k Hk H0 E. pose proof (wf_range _ _ _ _ _ Wo k Hk H0). lia. }
  assert (Hnew : ino im (1 + Z.of_nat i) = x') by (apply wrote_ino_at; [done|apply G'|done]).
  assert (Hold : forall j, (j < length ents)%nat -> j <> i -> ino im (1 + Z.of_nat j) = ino (ms_img s) (1 + Z.of_nat j)).
  { intros j Hj Hne. pose proof (inv_num _ _ _ H Hj) as Hn'. unfold im. rewrite wrote_ino_ne; [|done|done|lia|apply G'|done]. unfold ino. rewrite Hlow; [done|].
    destruct (iblock_spec _ Hn') as (_ & ? & _). lia. }
  destruct (wf_ext x' x' img' im fb' fb' d' (nblks d') W' eq_refl ltac:(lia)) as [W2 Hs2].
  { intros k Hk H0. apply Hup. pose proof (wf_range _ _ _ _ _ W' k Hk H0). lia. }
  assert (Hj : forall j tj dj, ents !! j = Some (tj, dj) -> j <> i -> holds im fb' (1 + Z.of_nat j) tj dj /\
    forall k, slot (ino im (1 + Z.of_nat j)) im k = slot (ino (ms_img s) (1 + Z.of_nat j)) (ms_img s) k).
  { intros j tj dj Hj Hne. assert (Hjl : (j < length ents)%nat) by (by eapply lookup_lt_Some). apply (holds_ext s ents j tj dj im fb' H Hj); [apply X|by apply Hold|].
    intros k Hk H0 Hr. rewrite Hup by lia. apply (ex_frame _ _ _ _ _ _ X); [lia|]. intros k' Hk' H0' E. by apply (in_apart _ _ H i j k' k). }
  assert (Hsl : forall k, 0 <= k <= IND -> slot x' img' k <> 0 -> slot x' img' k = slot (ino (ms_img s) (1 + Z.of_nat i)) (ms_img s) k \/ freeblock s <= slot x' img' k).
  { intros k Hk H0. apply (ex_slots _ _ _ _ _ _ X k Hk). exact H0. }
  split; cbn [ms_img ms_len freeinode freeblock].
  - rewrite length_insert, Efi. apply (in_fi _ _ H).
  - rewrite length_insert. apply (in_max _ _ H).
  - apply wrote_ino_img; lia || done.
  - done.
  - done.
  - intros b Hb'. rewrite Hup, Hlow by lia. by apply (in_low _ _ H).
  - intros j tj dj Hjj. destruct (decide (j = i)) as [->|Hne].
    + rewrite list_lookup_insert_eq in Hjj by done. injection Hjj as <- <-. pose proof (ex_same _ _ _ _ _ _ X) as Sm. unfold same_file in Sm. cbn in Sm.
      injection Sm as Et Ej En El. split; rewrite ?Hnew; [etrans; [exact Et|apply Ho]|etrans; [exact El|apply Ho]|split; [etrans; [exact Ej|apply Ho]|etrans; [exact En|apply Ho]]|exact Hsz|exact Hmax|exact W2].
    + rewrite list_lookup_insert_ne in Hjj by done. by apply Hj.
  - intros j1 j2 k1 k2 H1 H2 Hne Hk1 Hk2. rewrite length_insert in H1, H2. destruct (lookup_lt_is_Some_2 _ _ H1) as [[t1 d1] L1]. destruct (lookup_lt_is_Some_2 _ _ H2) as [[t2 d2] L2].
    destruct (decide (j1 = i)) as [->|N1], (decide (j2 = i)) as [->|N2]; [done|..].
    + rewrite Hnew, Hs2. rewrite (proj2 (Hj j2 t2 d2 L2 N2)). intros H0 E. destruct (Hsl k1 Hk1 H0) as [E'|Hge].
      * apply (in_apart _ _ H i j2 k1 k2); [done|done|done|done|done|congruence|congruence].
      * assert (H0' : slot (ino (ms_img s) (1 + Z.of_nat j2)) (ms_img s) k2 <> 0) by congruence. pose proof (wf_range _ _ _ _ _ (ho_wf _ _ _ _ _ (in_ino _ _ H j2 t2 d2 L2)) k2 Hk2 H0'). lia.
    + rewrite Hnew, Hs2. rewrite (proj2 (Hj j1 t1 d1 L1 N1)). intros H0 E. pose proof (wf_range _ _ _ _ _ (ho_wf _ _ _ _ _ (in_ino _ _ H j1 t1 d1 L1)) k1 Hk1 H0).
      destruct (Hsl k2 Hk2 ltac:(congruence)) as [E'|Hge]; [|lia]. apply (in_apart _ _ H j1 i k1 k2); [done|done|done|done|done|done|congruence].
    + rewrite (proj2 (Hj j1 t1 d1 L1 N1)), (proj2 (Hj j2 t2 d2 L2 N2)). by apply (in_apart _ _ H).
Qed.

(** ** The operations *)

Lemma rinode_run i s : 0 <= i < NINODES -> ms_len s = FSSIZE -> rinode i s = MOk (slice (dip_off i) 64 (ms_img s (IBLOCK i mk_sb))) s.
Proof.
  intros Hi Hl. destruct (iblock_spec i Hi) as (_ & Hb & _). unfold rinode, mk_bind, rsect. rewrite Hl.
  rewrite (proj2 (Z.leb_le _ _)), (proj2 (Z.ltb_lt _ _)) by (unfold FSSIZE; lia). done.
Qed.

Lemma winode_run i din s : 0 <= i < NINODES -> ms_len s = FSSIZE -> winode i din s = MOk tt (Mst (wrote_ino (ms_img s) i din) FSSIZE (freeinode s) (freeblock s)).
Proof.
  intros Hi Hl. destruct (iblock_spec i Hi) as (_ & Hb & _). unfold winode, mk_bind, rsect, wsect. rewrite Hl.
  rewrite (proj2 (Z.leb_le _ _)), (proj2 (Z.ltb_lt _ _)) by (unfold FSSIZE; lia). cbn [andb]. by rewrite Hl, Z.max_l by (unfold FSSIZE; lia).
Qed.

Lemma di_size din y v : length din = 64%nat -> 0 <= v < 2 ^ 32 -> di (st 4 off_size v din) y = set_i_size v (di din y).
Proof.
  intros Hl Hv. unfold di, dinode_load, set_i_size, ld_short, off_size. cbn [i_dev i_inum i_ref i_valid i_type i_major i_minor i_nlink i_size i_addrs].
  rewrite !(ld_st_ne _ _ 4 8) by lia. rewrite (ld_st 4) by lia. change (256 ^ Z.of_nat 4) with (2 ^ 32). rewrite Z.mod_small by done. f_equal.
  apply list_fmap_ext. intros i k Hk. apply list_elem_of_lookup_2, (proj1 (Forall_forall _ _) addr_slots_ok) in Hk. unfold slot_idx in Hk. rewrite ld_st_ne; [done|unfold off_addr; lia..].
Qed.

Lemma max_small n : 0 <= n <= MAXBYTES -> xint n = n /\ 0 <= n < 2 ^ 32.
Proof. intros H. change MAXBYTES with 274432 in H. split; [apply xint_spec|]; lia. Qed.

Lemma iappend_ok s ents i t d p : inv s ents -> ents !! i = Some (t, d) ->
  ends (iappend (1 + Z.of_nat i) p s) (fun _ s' => inv s' (<[i := (t, d ++ p)]> ents)).
Proof.
  intros H Hi. assert (Hil : (i < length ents)%nat) by (by eapply lookup_lt_Some). pose proof (inv_num _ _ _ H Hil) as Hn. destruct (iblock_spec _ Hn) as (_ & _ & Hdo & _).
  destruct (in_ino _ _ H i t d Hi) as [H1 H2 H3 H4 H5 H6]. pose proof (in_img _ _ H) as G. set (n := 1 + Z.of_nat i) in *.
  unfold iappend. unfold mk_bind at 1. rewrite (rinode_run n s Hn (in_len _ _ H)). set (din := slice _ 64 _).
  assert (Ed : di din (ino0 n) = ino (ms_img s) n) by (apply load_slice; rewrite (im_size _ _ G); lia).
  assert (Hld : length din = 64%nat) by (apply length_slice; rewrite (im_size _ _ G); lia).
  assert (Es : xint (ld 4 off_size din) = Z.of_nat (length d)). { change (ld 4 off_size din) with (i_size (di din (ino0 n))). rewrite Ed, H4. apply max_small. lia. }
  rewrite Es. eapply ends_bind; [apply (iappend_loop_ok (ino0 n) (length p) din d p s); [done|done| |done]|].
  - rewrite Ed. split; [done|done|apply H|apply H].
  - intros [din' off] s' [A1 A2 A3 [W' G' Fb' Ln'] X A6]. cbn [fst snd] in *. rewrite Ed in X. subst off. destruct (max_small (Z.of_nat (length (d ++ p))) ltac:(lia)) as [-> Hr].
    rewrite (winode_run n _ s' Hn Ln'). cbn [ends]. pose proof (di_size din' (ino0 n) _ A1 Hr) as Ez. set (din2 := st 4 off_size _ din') in *.
    destruct (wf_ext (di din' (ino0 n)) (di din2 (ino0 n)) (ms_img s') (ms_img s') (freeblock s') (freeblock s') _ _ W' ltac:(by rewrite Ez) ltac:(lia) ltac:(done)) as [W2 _].
    apply (inv_update s ents i t d (ino (ms_img s) n)); try done.
    + unfold din2. rewrite length_st; [done|unfold off_size; lia].
    + fold n. rewrite Ez. replace (set_i_size _ (set_i_size _ (di din' (ino0 n)))) with (di din' (ino0 n)); [exact X|].
      pose proof (ex_same _ _ _ _ _ _ X) as Sm. unfold same_file in Sm. rewrite Sm. done.
    + fold n. by rewrite Ez.
Qed.

Lemma empty_slot x img k : (forall j, 0 <= j < 13 -> addr x j = 0) -> 0 <= k <= IND -> slot x img k = 0.
Proof.
  intros Ha Hk. assert (HN : NDIRECT = 12) by done. unfold slot. rewrite (Ha NDIRECT) by lia. destruct (Z.ltb_spec k NDIRECT); [apply Ha; lia|]. by destruct (k =? IND).
Qed.

Lemma wf_empty x img fb : length (i_addrs x) = 13%nat -> (forall j, 0 <= j < 13 -> addr x j = 0) -> wf x img fb [] 0.
Proof.
  intros Hl Ha. assert (Hs : forall k, 0 <= k <= IND -> slot x img k = 0) by (intros; by apply empty_slot). split; [done|..].
  - intros k Hk. rewrite Hs by lia. lia.
  - intros k Hk H0. by rewrite Hs in H0.
  - intros j k Hj Hk H0. by rewrite Hs in H0.
  - done.
  - intros j Hj H0. rewrite Hs in H0; [done|]. pose proof (block_index j Hj). lia.
Qed.

(** A new inode *)
Lemma inv_new s ents t din : inv s ents -> Z.of_nat (length ents) + 1 < NINODES -> length din = 64%nat ->
  let n := 1 + Z.of_nat (length ents) in let x := di din (ino0 n) in
  i_type x = t -> i_nlink x = 1 -> i_major x = 0 -> i_minor x = 0 -> i_size x = 0 -> (forall j, 0 <= j < 13 -> addr x j = 0) ->
  inv (Mst (wrote_ino (ms_img s) n din) FSSIZE (n + 1) (freeblock s)) (ents ++ [(t, [])]).
Proof.
  intros H Hmax Hl n x Et En Ej Em Ez Ha. pose proof (in_img _ _ H) as G. assert (Hn : 0 <= n < NINODES) by lia. destruct (iblock_spec n Hn) as (_ & Hb & Hdo & _). assert (HM : nmeta = 47) by done.
  pose proof (in_fb _ _ H) as Hfb. set (im := wrote_ino (ms_img s) n din) in *. assert (Hup : forall b, ~ (33 <= b < 46) -> im b = ms_img s b) by (intros b Hb'; apply upd_ne; lia).
  assert (Hnew : ino im n = x) by (apply wrote_ino_at; [done|apply G|done]).
  assert (Hold : forall j, (j < length ents)%nat -> ino im (1 + Z.of_nat j) = ino (ms_img s) (1 + Z.of_nat j)).
  { intros j Hj. pose proof (inv_num _ _ _ H Hj). unfold im. by rewrite wrote_ino_ne by (done || lia || apply G). }
  assert (Hs0 : forall k, 0 <= k <= IND -> slot x im k = 0) by (intros; by apply empty_slot).
  assert (Hj : forall j tj dj, ents !! j = Some (tj, dj) -> holds im (freeblock s) (1 + Z.of_nat j) tj dj /\
    forall k, slot (ino im (1 + Z.of_nat j)) im k = slot (ino (ms_img s) (1 + Z.of_nat j)) (ms_img s) k).
  { intros j tj dj Hjj. apply (holds_ext s ents j tj dj im _ H Hjj); [lia|apply Hold; by eapply lookup_lt_Some|]. intros k Hk H0 Hr. apply Hup. lia. }
  split; cbn [ms_img ms_len freeinode freeblock].
  - rewrite length_app. cbn. unfold n. lia.
  - rewrite length_app. cbn. lia.
  - apply wrote_ino_img; lia || done.
  - done.
  - done.
  - intros b Hb'. rewrite Hup by lia. by apply (in_low _ _ H).
  - intros j tj dj [Hjj|[Hge Hjj]]%lookup_app_Some.
    + by apply Hj.
    + apply list_lookup_singleton_Some in Hjj as [Hj0 [= <- <-]]. replace j with (length ents) by lia. fold n. split; rewrite ?Hnew; [done|done|done|done|done|].
      apply wf_empty; [apply di_len|done].
  - intros j1 j2 k1 k2 H1 H2 Hne Hk1 Hk2. rewrite length_app in H1, H2. cbn in H1, H2. destruct (decide (j1 = length ents)) as [->|N1]; [fold n; rewrite Hnew, Hs0 by done; done|].
    destruct (lookup_lt_is_Some_2 ents j1 ltac:(lia)) as [[t1 d1] L1]. rewrite (proj2 (Hj j1 t1 d1 L1)). intros H0.
    destruct (decide (j2 = length ents)) as [->|N2]; [fold n; rewrite Hnew, Hs0 by done; done|].
    destruct (lookup_lt_is_Some_2 ents j2 ltac:(lia)) as [[t2 d2] L2]. rewrite (proj2 (Hj j2 t2 d2 L2)). apply (in_apart _ _ H); done || lia.
Qed.

Lemma xshort_spec x : 0 <= x < 2 ^ 16 -> xshort x = x.
Proof. intros H. unfold xshort. rewrite Z.shiftr_div_pow2 by lia. replace [u8 x; u8 (x / 2 ^ 8)] with (le 2 x) by reflexivity. rewrite of_le_le. by apply Z.mod_small. Qed.

Lemma ialloc_ok s ents t : inv s ents -> Z.of_nat (length ents) + 1 < NINODES -> 0 <= t < 2 ^ 15 ->
  ends (mk_ialloc t s) (fun r s' => r = 1 + Z.of_nat (length ents) /\ inv s' (ents ++ [(t, [])])).
Proof.
  intros H Hmax Ht. unfold mk_ialloc, mk_bind at 1, next_inode. rewrite (in_fi _ _ H). set (n := 1 + Z.of_nat (length ents)).
  assert (Hw : u32 (n + 1) = n + 1) by (apply uint_wrap_small; unfold NINODES in *; lia). rewrite Hw. unfold mk_bind. cbv zeta.
  rewrite winode_run; [|unfold NINODES in *; lia|apply (in_len _ _ H)]. cbn [ends mk_ret ms_img freeinode freeblock]. split; [done|].
  rewrite (xshort_spec t) by lia. change (xshort 1) with 1. change (xint 0) with 0. unfold off_size. set (din := st 4 8 0 (st 2 6 1 (st 2 0 t din0))). assert (L0 : length din0 = 64%nat) by done.
  assert (Hz : forall m o, (o + m <= 64)%nat -> ld m o din0 = 0).
  { intros m o Hm. unfold ld, slice, din0. rewrite drop_replicate, take_replicate. generalize (m `min` (64 - o))%nat as q. induction q as [|q IH]; [done|]. cbn. lia. }
  assert (L1 : length (st 2 0 t din0) = 64%nat) by (rewrite length_st; [done|lia]). assert (L2 : length (st 2 6 1 (st 2 0 t din0)) = 64%nat) by (rewrite length_st; [done|lia]).
  apply inv_new; [done|done|unfold din; rewrite length_st; lia|..]; unfold di, dinode_load, ld_short; cbn [i_type i_nlink i_major i_minor i_size].
  - unfold din. rewrite !(ld_st_ne 2 0) by lia. rewrite ld_st by lia. change (256 ^ Z.of_nat 2) with (2 ^ 16). rewrite Z.mod_small by lia. apply sint_wrap_small; cbn; lia.
  - unfold din. rewrite (ld_st_ne 2 (0 + 6)) by lia. rewrite ld_st by lia. done.
  - unfold din. rewrite !(ld_st_ne 2 (0 + 2)), Hz by lia. done.
  - unfold din. rewrite !(ld_st_ne 2 (0 + 4)), Hz by lia. done.
  - unfold din. rewrite ld_st by lia. done.
  - intros j Hj. change (addr (di din (ino0 n)) j = 0). rewrite di_addr by done. unfold din. rewrite !(ld_st_ne 4 (off_addr j)) by (unfold off_addr; lia). apply Hz. unfold off_addr. lia.
Qed.

Lemma append_all_ok chunks : forall s ents i t d, inv s ents -> ents !! i = Some (t, d) ->
  ends (append_all (1 + Z.of_nat i) chunks s) (fun _ s' => inv s' (<[i := (t, d ++ concat chunks)]> ents)).
Proof.
  induction chunks as [|c chunks IH]; intros s ents i t d H Hi; cbn [append_all concat].
  - rewrite app_nil_r, list_insert_id by done. done.
  - eapply ends_bind; [by apply (iappend_ok s ents i t d c)|]. intros u1 s1 H1. rewrite app_assoc. assert (Hl : (i < length ents)%nat) by (by eapply lookup_lt_Some).
    pose proof (IH s1 _ i t (d ++ c) H1 ltac:(by rewrite list_lookup_insert_eq)) as H2. by rewrite list_insert_insert_eq in H2.
Qed.

(** *** The command line *)

Definition shortname (f : host_file) : list Z := skip_under (skip_user (hf_name f)).
Definition file_data (f : host_file) : list Z := concat (default [] (hf_data f)).
Definition file_good (f : host_file) : Prop := is_Some (hf_data f) /\ slash ∉ skip_user (hf_name f) /\ Z.of_nat (length (shortname f)) <= DIRSIZ.

(** The directory entries of the files, the first of which has number [n] *)
Fixpoint entries (n : Z) (l : list host_file) : list Z :=
  match l with [] => [] | f :: l => dirent n (shortname f) ++ entries (n + 1) l end.

Lemma add_file_ok s dd fs f : inv s ((T_DIR, dd) :: fs) -> Z.of_nat (length fs) + 2 < NINODES ->
  ends (add_file 1 f s) (fun _ s' => file_good f /\ inv s' ((T_DIR, dd ++ dirent (Z.of_nat (length fs) + 2) (shortname f)) :: fs ++ [(T_FILE, file_data f)])).
Proof.
  intros H Hmax. unfold add_file. apply ends_assert; [done|]. intros Hs. destruct (hf_data f) as [chunks|] eqn:Ef; [|done]. apply ends_assert; [done|]. intros Hn. apply Z.leb_le in Hn.
  eapply ends_bind; [apply (ialloc_ok s _ T_FILE H); [cbn; lia|done]|]. intros n s1 [-> H1]. cbn [length app] in H1 |- *.
  eapply ends_bind; [exact (iappend_ok s1 _ 0 T_DIR dd _ H1 eq_refl)|]. intros u2 s2 H2. cbn [insert list_insert] in H2.
  assert (El : (fs ++ [(T_FILE, [] : list Z)]) !! length fs = Some (T_FILE, [])) by (by rewrite lookup_app_r, Nat.sub_diag by lia).
  pose proof (append_all_ok chunks s2 _ (S (length fs)) T_FILE [] H2 El) as H3.
  unfold ends in *. destruct (append_all _ chunks s2) as [a s3|why]; [|exact H3]. split.
  - split; [by rewrite Ef|]. split; [|done]. intros Hin. rewrite negb_true_iff in Hs. apply list_elem_of_In in Hin. assert (Hex : existsb (fun c => c =? slash) (skip_user (hf_name f)) = true) by (apply existsb_exists; exists slash; by split).
    congruence.
  - unfold file_data. rewrite Ef. change (concat (default [] (Some chunks))) with (concat chunks). replace (Z.of_nat (length fs) + 2) with (1 + Z.of_nat (S (length fs))) by lia.
    assert (E : <[length fs := (T_FILE, concat chunks)]> (fs ++ [(T_FILE, [])]) = fs ++ [(T_FILE, concat chunks)]) by (rewrite insert_app_r_alt by lia; by rewrite Nat.sub_diag).
    rewrite <- E. exact H3.
Qed.

Lemma add_files_ok l : forall s dd fs, inv s ((T_DIR, dd) :: fs) -> Z.of_nat (length fs + length l) + 1 < NINODES ->
  ends (add_files 1 l s) (fun _ s' => Forall file_good l /\ inv s' ((T_DIR, dd ++ entries (Z.of_nat (length fs) + 2) l) :: fs ++ map (fun f => (T_FILE, file_data f)) l)).
Proof.
  induction l as [|f l IH]; intros s dd fs H Hmax; cbn [add_files entries map].
  - rewrite !app_nil_r. by split.
  - cbn [length] in Hmax. eapply ends_bind; [apply (add_file_ok s dd fs f H); lia|]. intros u1 s1 [Hf H1].
    pose proof (IH s1 _ _ H1 ltac:(rewrite length_app; cbn; lia)) as H2. unfold ends in *. destruct (add_files 1 l s1) as [a s2|why]; [|exact H2]. destruct H2 as [H2 H3].
    split; [by constructor|]. rewrite <- !app_assoc in H3. rewrite length_app in H3. cbn [app length] in H3.
    replace (Z.of_nat (length fs + 1) + 2) with (Z.of_nat (length fs) + 2 + 1) in H3 by lia. exact H3.
Qed.

(** *** The bitmap *)

Lemma mark_used_ok n : 0 <= n <= BPB -> length (mark_used n) = bsize /\ forall bj, 0 <= bj < BPB -> bit_clear (mark_used n) bj = negb (bj <? n).
Proof.
  intros Hn. rewrite <- (Z2Nat.id n) in * by lia. induction (Z.to_nat n) as [|k IH].
  - split; [done|]. intros bj Hj. rewrite (proj2 (Z.ltb_ge _ _)) by lia. unfold mark_used. cbn [foldl seqZ]. rewrite bit_clear_test by lia. unfold bit_byte. change (replicate bsize 0) with zeros.
    pose proof (bit_index bj Hj). rewrite zeros_ld by lia. by rewrite Z.bits_0.
  - destruct IH as [L C]; [lia|]. assert (E : mark_used (Z.of_nat (S k)) = set_bit (Z.of_nat k) (mark_used (Z.of_nat k))).
    { unfold mark_used. replace (Z.of_nat (S k)) with (Z.of_nat k + 1) by lia. rewrite seqZ_app, foldl_app by lia. done. }
    rewrite E. split; [by apply set_bit_length; [|lia]|]. intros bj Hj. rewrite set_bit_clear by (done || lia). rewrite C by done.
    destruct (Z.ltb_spec bj (Z.of_nat k)), (Z.ltb_spec bj (Z.of_nat (S k))), (Z.eqb_spec (Z.of_nat k) bj); done || lia.
Qed.

(** *** The last steps *)

(** The image when the size of the root directory is rounded up and the bitmap written *)
Definition sealed (img : Z -> list Z) (fb : Z) (din : list Z) : Z -> list Z := upd (wrote_ino img ROOTINO din) 46 (mark_used fb).

Section Seal.
Context (s : mst) (ents : list (Z * list Z)) (din : list Z) (v : Z).
Hypothesis (H : inv s ents) (Hne : ents <> []) (Hl : length din = 64%nat) (Hdi : di din (ino0 ROOTINO) = set_i_size v (ino (ms_img s) ROOTINO)).
#[local] Notation img := (ms_img s).
#[local] Notation fb := (freeblock s).
#[local] Notation img' := (sealed (ms_img s) (freeblock s) din).

Lemma seal_up b : ~ (33 <= b <= 46) -> img' b = img b.
Proof.
  intros Hb. unfold sealed. rewrite upd_ne by lia. apply upd_ne. pose proof (iblock_spec ROOTINO ltac:(done)) as (_ & ? & _). lia.
Qed.

Lemma seal_bits : 0 <= fb <= BPB.
Proof. pose proof (in_fb _ _ H). assert (nmeta = 47) by done. assert (FSSIZE = 2000) by done. assert (BPB = 8192) by done. lia. Qed.

Lemma seal_size b : length (img' b) = bsize.
Proof.
  pose proof (in_img _ _ H) as G. pose proof (iblock_spec ROOTINO ltac:(done)) as (_ & _ & Hd & _). unfold sealed, upd at 1. destruct (b =? 46); [apply mark_used_ok, seal_bits|].
  unfold wrote_ino, upd. destruct (b =? _); [rewrite length_splice|]; rewrite ?(im_size _ _ G); lia || done.
Qed.

Lemma seal_ino i : 0 <= i < NINODES -> ino img' i = if i =? ROOTINO then set_i_size v (ino img ROOTINO) else ino img i.
Proof.
  intros Hi. pose proof (in_img _ _ H) as G. destruct (iblock_spec i Hi) as (_ & Hb & _). assert (E : ino img' i = ino (wrote_ino img ROOTINO din) i) by (unfold ino, sealed; by rewrite upd_ne by lia).
  rewrite E. destruct (Z.eqb_spec i ROOTINO) as [->|Hn]; [|by rewrite wrote_ino_ne by (done || apply G || congruence)]. rewrite wrote_ino_at by (done || apply G). exact Hdi.
Qed.

Lemma seal_wf j t d : ents !! j = Some (t, d) -> wf (ino img' (1 + Z.of_nat j)) img' fb d (nblks d) /\
  forall k, slot (ino img' (1 + Z.of_nat j)) img' k = slot (ino img (1 + Z.of_nat j)) img k.
Proof.
  intros Hj. assert (Hjl : (j < length ents)%nat) by (by eapply lookup_lt_Some). pose proof (inv_num _ _ _ H Hjl) as Hn. pose proof (ho_wf _ _ _ _ _ (in_ino _ _ H j t d Hj)) as W.
  apply (wf_ext _ _ _ _ _ _ _ _ W); [|lia|].
  - rewrite seal_ino by done. destruct (Z.eqb_spec (1 + Z.of_nat j) ROOTINO) as [->|]; done.
  - intros k Hk H0. pose proof (wf_range _ _ _ _ _ W k Hk H0). assert (nmeta = 47) by done. apply seal_up. lia.
Qed.

Lemma seal_free b : is_free mk_sb img' b <-> fb <= b < FSSIZE.
Proof.
  pose proof seal_bits as Hfb. pose proof (in_fb _ _ H). assert (nmeta = 47) by done. unfold is_free. change (sb_size mk_sb) with FSSIZE. assert (HB : FSSIZE = 2000) by done. assert (HP : BPB = 8192) by done.
  split.
  - intros [Hb Hc]. assert (EB : BBLOCK b mk_sb = 46) by (unfold BBLOCK; rewrite Z.div_small by lia; reflexivity). rewrite EB in Hc. unfold sealed in Hc. rewrite upd_at in Hc.
    rewrite Z.mod_small in Hc by lia. rewrite (proj2 (mark_used_ok fb Hfb)) in Hc by lia. apply negb_true_iff, Z.ltb_ge in Hc. lia.
  - intros Hb. assert (EB : BBLOCK b mk_sb = 46) by (unfold BBLOCK; rewrite Z.div_small by lia; reflexivity). split; [lia|]. rewrite EB. unfold sealed. rewrite upd_at.
    rewrite Z.mod_small by lia. rewrite (proj2 (mark_used_ok fb Hfb)) by lia. apply negb_true_iff, Z.ltb_ge. lia.
Qed.
Lemma seal_bmap b : 0 <= b < sb_size mk_sb -> BBLOCK b mk_sb = 46.
Proof. change (sb_size mk_sb) with 2000. intros Hb. assert (BPB = 8192) by done. unfold BBLOCK. rewrite Z.div_small by lia. reflexivity. Qed.

Lemma seal_map : map_ok 2 mk_sb img' ∅.
Proof.
  pose proof (in_fb _ _ H) as Hfb. assert (HM : nmeta = 47) by done. assert (HL : LOGSIZE = 30) by done. assert (HF : FSSIZE = 2000) by done. assert (HP : 2 ^ 31 = 2147483648) by done. split; [done|..].
  - intros b Hb. rewrite seal_bmap by done. split; [unfold is_data; lia|set_solver].
  - intros b Hb%seal_free. split; [unfold is_data; lia|]. split; [set_solver|]. intros b' Hb'. rewrite seal_bmap by done. lia.
Qed.

Lemma seal_file j t d : ents !! j = Some (t, d) -> file_ok 2 mk_sb img' (ino img' (1 + Z.of_nat j)) /\ ino_home 2 mk_sb img' (ino img' (1 + Z.of_nat j)).
Proof.
  intros Hj. assert (Hjl : (j < length ents)%nat) by (by eapply lookup_lt_Some). pose proof (inv_num _ _ _ H Hjl) as Hn. destruct (iblock_spec _ Hn) as (_ & Hb & _).
  pose proof (in_fb _ _ H) as Hfb. assert (HM : nmeta = 47) by done. assert (HL : LOGSIZE = 30) by done. assert (HF : FSSIZE = 2000) by done. assert (HP : 2 ^ 31 = 2147483648) by done.
  destruct (seal_wf j t d Hj) as [W _]. set (x := ino img' (1 + Z.of_nat j)) in *. change (i_inum x) with (1 + Z.of_nat j). split; split.
  - apply W.
  - done.
  - apply seal_map.
  - rewrite seal_free. lia.
  - apply seal_size.
  - intros k Hk H0. pose proof (wf_range _ _ _ _ _ W k Hk H0) as Hr. split; [change (sb_size mk_sb) with FSSIZE; lia|]. split; [unfold is_data; lia|]. split; [rewrite seal_free; lia|].
    intros b Hb'. rewrite seal_bmap by done. lia.
  - apply W.
  - change (i_inum x) with (1 + Z.of_nat j). lia.
  - change (i_inum x) with (1 + Z.of_nat j). unfold is_data. lia.
  - intros b Hb'. change (i_inum x) with (1 + Z.of_nat j). rewrite seal_bmap by done. lia.
  - change (i_inum x) with (1 + Z.of_nat j). rewrite seal_free. lia.
  - intros k Hk. change (i_inum x) with (1 + Z.of_nat j). destruct (decide (slot x img' k = 0)) as [->|H0]; [lia|]. pose proof (wf_range _ _ _ _ _ W k Hk H0). lia.
Qed.

(** Bytes past the blocks of a file read as zero. *)
Lemma seal_bytes j t d i : ents !! j = Some (t, d) -> 0 <= i < MAXBYTES -> fbyte (ino img' (1 + Z.of_nat j)) img' i = default 0 (d !! Z.to_nat i).
Proof.
  intros Hj Hi. destruct (seal_wf j t d Hj) as [W _]. set (x := ino img' (1 + Z.of_nat j)) in *. destruct (decide (slot x img' (i / BSIZE) = 0)) as [E|H0]; [|by apply (wf_data _ _ _ _ _ W)].
  unfold fbyte. rewrite E, seal_up, (in_low _ _ H) by lia. cbn [Z.eqb]. pose proof (Z.mod_pos_bound i BSIZE eq_refl). unfold zeros. rewrite lookup_replicate_2 by (unfold BSIZE in *; lia).
  assert (Hk : ~ i / BSIZE < nblks d) by (rewrite <- (wf_alloc _ _ _ _ _ W) by (by apply block_index); lia).
  pose proof (wf_nb _ _ _ _ _ W). pose proof (Z.div_mod i BSIZE ltac:(done)). rewrite lookup_ge_None_2; [done|]. unfold BSIZE in *. lia.
Qed.

Lemma seal_durable : durable 2 [] img' img'.
Proof.
  split; [|rewrite seal_up by lia; rewrite (in_low _ _ H) by lia; apply hdr_empty; by vm_compute|done|done|apply seal_size].
  split; [constructor|]. split; [done|constructor].
Qed.
End Seal.

(** *** The first steps *)

Lemma wipe_ok secs : forall s, (forall b, ms_img s b = zeros) ->
  exists img, wipe secs s = MOk tt (Mst img (foldl (fun n i => Z.max n (i + 1)) (ms_len s) secs) (freeinode s) (freeblock s)) /\ forall b, img b = zeros.
Proof.
  induction secs as [|i secs IH]; intros s Hz; cbn [wipe foldl]; [exists (ms_img s); by destruct s|].
  unfold mk_bind, wsect. apply (IH (Mst _ _ _ _)). intros b. cbn. unfold upd. by destruct (b =? i).
Qed.

Lemma inv_start img : (forall b, img b = zeros) -> inv (Mst (upd img 1 sb_block) FSSIZE 1 nmeta) [].
Proof.
  intros Hz. assert (HM : nmeta = 47) by done. split; cbn [ms_img ms_len freeinode freeblock length]; try done.
  - split; intros b; unfold upd; destruct (Z.eqb_spec b 1); rewrite ?Hz; try done. intros. lia.
  - intros b Hb. unfold upd. by destruct (b =? 1).
  - intros i j k k' Hi. cbn in Hi. lia.
Qed.

Lemma dirent_len n name : length (dirent n name) = 16%nat.
Proof. unfold dirent. rewrite !length_app, length_replicate, length_take. change (Z.to_nat DIRSIZ) with 14%nat. change (length (le 2 (xshort n))) with 2%nat. lia. Qed.

Lemma entries_len l : forall n, length (entries n l) = (16 * length l)%nat.
Proof. induction l as [|f l IH]; intros n; [done|]. cbn [entries length]. rewrite length_app, dirent_len, IH. lia. Qed.

(** The root directory *)
Definition directory (files : list host_file) : list Z := dirent ROOTINO [46] ++ dirent ROOTINO [46; 46] ++ entries (ROOTINO + 1) files.

Lemma directory_len files : length (directory files) = (16 * (length files + 2))%nat.
Proof. unfold directory. rewrite !length_app, !dirent_len, entries_len. lia. Qed.

#[local] Open Scope mkfs_scope.

(** *** The names in the root directory *)

Lemma dirent_inum n name : 0 <= n < 2 ^ 16 -> de_inum (dirent n name) = n.
Proof.
  intros H. unfold de_inum, dirent, ld, slice. rewrite drop_0. cbv zeta. rewrite xshort_spec by done. change 2%nat with (length (le 2 n)) at 1. rewrite take_app_length, of_le_le. by apply Z.mod_small.
Qed.

Lemma dirent_name n name : dname (de_name (dirent n name)) = dname name.
Proof.
  unfold dname, de_name, dirent. cbv zeta. change (Z.to_nat DIRSIZ) with 14%nat. set (a := take 14 name). unfold slice.
  match goal with |- context [drop 2 (le 2 (xshort n) ++ ?r)] => change (drop 2 (le 2 (xshort n) ++ r)) with r end. rewrite take_take, Nat.min_id.
  assert (La : (length a <= 14)%nat) by (unfold a; rewrite length_take; lia). unfold a in *. rewrite <- (upto0_padded 14 name). unfold padded. f_equal.
  destruct (Nat.le_gt_cases 14 (length name)) as [Hl|Hl].
  - rewrite take_app_le by (rewrite length_take; lia). rewrite take_take, Nat.min_id. by rewrite take_app_le by lia.
  - rewrite (take_ge name) by lia. rewrite take_ge by (rewrite length_app, length_replicate; lia). rewrite take_app_ge, take_replicate by lia. do 2 f_equal. lia.
Qed.

Lemma has_dirent name n name' : 0 < n < 2 ^ 16 -> has_name name' (dirent n name) = bool_decide (dname name' = dname name).
Proof. intros H. unfold has_name. rewrite dirent_inum, dirent_name by lia. by rewrite (proj2 (Z.eqb_neq n 0)) by lia. Qed.

Lemma dent_app l d k : (length l = 16)%nat -> dent (l ++ d) (S k) = dent d k.
Proof. intros Hl. unfold dent, slice. f_equal. rewrite drop_app_ge by lia. f_equal. lia. Qed.

Lemma dent_here l d : (length l = 16)%nat -> dent (l ++ d) 0 = l.
Proof. intros Hl. unfold dent, slice. rewrite drop_0. rewrite take_app_le by lia. by rewrite take_ge by lia. Qed.

Lemma entries_dent l d : forall n i f, l !! i = Some f -> dent (entries n l ++ d) i = dirent (n + Z.of_nat i) (shortname f).
Proof.
  induction l as [|g l IH]; intros n i f Hi; [done|]. cbn [entries]. rewrite <- app_assoc. destruct i as [|i].
  - injection Hi as <-. rewrite dent_here by apply dirent_len. f_equal. lia.
  - rewrite dent_app by apply dirent_len. rewrite (IH (n + 1) i f Hi). f_equal. lia.
Qed.

(** The directory as the kernel reads it: the last block is filled up with zeros. *)
Lemma root_dent files m k : dent (directory files ++ replicate m 0) k =
  match k with O => dirent ROOTINO [46] | 1%nat => dirent ROOTINO [46; 46] | S (S i) => dent (entries (ROOTINO + 1) files ++ replicate m 0) i end.
Proof.
  unfold directory. rewrite <- !app_assoc. destruct k as [|[|i]]; [apply dent_here, dirent_len|..]; rewrite dent_app by apply dirent_len; [apply dent_here, dirent_len|apply dent_app, dirent_len].
Qed.

(** The name stands for the file if no entry before has it. *)
Definition first_named (files : list host_file) (i : nat) (name : list Z) : Prop :=
  dname name <> [46] /\ dname name <> [46; 46] /\ forall j g, (j < i)%nat -> files !! j = Some g -> dname (shortname g) <> dname name.

Lemma root_lookup files m i f : Z.of_nat (length files) + 1 < NINODES -> files !! i = Some f -> first_named files i (shortname f) ->
  dir_lookup (shortname f) (directory files ++ replicate m 0) = Some (ROOTINO + 1 + Z.of_nat i).
Proof.
  intros Hn Hi (H1 & H2 & H3). change NINODES with 200 in Hn. assert (Hil : (i < length files)%nat) by (by eapply lookup_lt_Some). set (d := directory files ++ replicate m 0).
  assert (He : forall j g, files !! j = Some g -> dent d (S (S j)) = dirent (ROOTINO + 1 + Z.of_nat j) (shortname g)) by (intros j g Hj; unfold d; rewrite root_dent; by apply entries_dent).
  assert (Hb : forall j, (j < length files)%nat -> 0 < ROOTINO + 1 + Z.of_nat j < 2 ^ 16) by (unfold ROOTINO; lia).
  assert (Hf : dir_find (shortname f) d = Some (S (S i))).
  { apply first_hit_intro.
    - assert (Hd : (length files + 2 <= dcount d)%nat); [|lia]. unfold dcount, d. rewrite length_app, directory_len. apply Nat.div_le_lower_bound; lia.
    - rewrite (He i f Hi), has_dirent by (by apply Hb). by rewrite bool_decide_eq_true_2.
    - intros k Hk. destruct k as [|[|j]].
      + unfold d. rewrite root_dent, has_dirent by done. by apply bool_decide_eq_false_2.
      + unfold d. rewrite root_dent, has_dirent by done. by apply bool_decide_eq_false_2.
      + destruct (lookup_lt_is_Some_2 files j ltac:(lia)) as [g Hg]. rewrite (He j g Hg), has_dirent by (apply Hb; lia). apply bool_decide_eq_false_2. apply not_eq_sym. by apply (H3 j g); [lia|]. }
  unfold dir_lookup. rewrite Hf. cbn [fmap option_fmap option_map]. f_equal. rewrite (He i f Hi). apply dirent_inum. specialize (Hb i Hil). lia.
Qed.

Lemma root_dots files m : dir_lookup [46] (directory files ++ replicate m 0) = Some ROOTINO /\ dir_lookup [46; 46] (directory files ++ replicate m 0) = Some ROOTINO.
Proof.
  set (d := directory files ++ replicate m 0). assert (Hd : (2 <= dcount d)%nat) by (unfold dcount, d; rewrite length_app, directory_len; apply Nat.div_le_lower_bound; lia).
  assert (F0 : dir_find [46] d = Some 0%nat) by (apply first_hit_intro; [lia|unfold d; by rewrite root_dent, has_dirent|lia]).
  assert (F1 : dir_find [46; 46] d = Some 1%nat). { apply first_hit_intro; [lia|unfold d; by rewrite root_dent, has_dirent|]. intros k Hk. replace k with 0%nat by lia. unfold d. by rewrite root_dent, has_dirent. }
  unfold dir_lookup. rewrite F0, F1. cbn [fmap option_fmap option_map]. unfold d. rewrite !root_dent, !dirent_inum by done. done.
Qed.

(** What [main] does up to the rounding of the root directory *)
Definition fill (files : list host_file) : M unit :=
  set_freeblock nmeta ;;;
  wipe (seqZ 0 FSSIZE) ;;;
  wsect 1 sb_block ;;;
  rootino <-- mk_ialloc T_DIR ;;
  mk_assert (rootino =? ROOTINO) "rootino == ROOTINO" ;;;
  iappend rootino (dirent rootino [46]) ;;;
  iappend rootino (dirent rootino [46; 46]) ;;;
  add_files rootino files.

Lemma fill_ok files : Z.of_nat (length files) + 1 < NINODES ->
  ends (fill files (Mst (fun _ => zeros) 0 1 0)) (fun _ s => Forall file_good files /\ inv s ((T_DIR, directory files) :: map (fun f => (T_FILE, file_data f)) files)).
Proof.
  intros Hn. unfold fill. unfold mk_bind at 1, set_freeblock. cbn [ms_img ms_len freeinode freeblock]. unfold mk_bind at 1.
  destruct (wipe_ok (seqZ 0 FSSIZE) (Mst (fun _ => zeros) 0 1 nmeta) ltac:(done)) as (img & -> & Hz). unfold mk_bind at 1. unfold wsect at 1. cbn [ms_img ms_len freeinode freeblock].
  assert (Elen : Z.max (foldl (fun n i => Z.max n (i + 1)) 0 (seqZ 0 FSSIZE)) (1 + 1) = FSSIZE) by (vm_compute; reflexivity). rewrite Elen.
  eapply ends_bind; [exact (ialloc_ok _ [] T_DIR (inv_start img Hz) eq_refl ltac:(unfold T_DIR; lia))|]. intros r s1 [-> H1].
  change (1 + Z.of_nat (length [])) with ROOTINO. apply ends_assert; [done|]. intros _. cbn [app] in H1. eapply ends_bind; [exact (iappend_ok s1 _ 0 T_DIR [] _ H1 eq_refl)|]. intros u2 s2 H2.
  eapply ends_bind; [exact (iappend_ok s2 _ 0 T_DIR _ _ H2 eq_refl)|]. intros u3 s3 H3. pose proof (add_files_ok files s3 _ [] H3 ltac:(cbn [length]; lia)) as H4.
  unfold ends in *. destruct (add_files _ files s3) as [a s4|why] eqn:E; [|exact H4]. destruct H4 as [Hg H4]. split; [exact Hg|]. unfold directory. rewrite !app_assoc. exact H4.
Qed.

(** ** The image *)

(** Inode [i] is the one for the bytes [d]. *)
Definition stored (files : list host_file) (i : Z) (d : list Z) : Prop :=
  i = ROOTINO /\ d = directory files \/ exists k f, files !! k = Some f /\ i = ROOTINO + 1 + Z.of_nat k /\ d = file_data f.

Record image (files : list host_file) (s : mst) : Prop := {
  im_sb : sb_of (ms_img s 1) = mk_sb;
  im_length : ms_len s = FSSIZE;
  im_log : durable 2 [] (ms_img s) (ms_img s);
  im_free : forall b, is_free mk_sb (ms_img s) b <-> freeblock s <= b < FSSIZE;
  im_good : Forall file_good files;
  im_root : let x := ino (ms_img s) ROOTINO in
    i_type x = T_DIR /\ i_nlink x = 1 /\
    i_size x = (Z.of_nat (length (directory files)) / BSIZE + 1) * BSIZE /\
    forall j, 0 <= j < i_size x -> fbyte x (ms_img s) j = default 0 (directory files !! Z.to_nat j);
  im_names : forall i f, files !! i = Some f -> first_named files i (shortname f) ->
    dir_lookup (shortname f) (contents (ino (ms_img s) ROOTINO) (ms_img s)) = Some (ROOTINO + 1 + Z.of_nat i);
  im_dots : forall name, name = [46] \/ name = [46; 46] -> dir_lookup name (contents (ino (ms_img s) ROOTINO) (ms_img s)) = Some ROOTINO;
  im_files : forall i f, files !! i = Some f -> let x := ino (ms_img s) (ROOTINO + 1 + Z.of_nat i) in
    i_type x = T_FILE /\ i_nlink x = 1 /\ contents x (ms_img s) = file_data f;
  im_max : forall i, ROOTINO <= i <= ROOTINO + Z.of_nat (length files) -> 0 <= i_size (ino (ms_img s) i) <= MAXBYTES;
  im_backed : forall i d k, stored files i d -> 0 <= k -> k * BSIZE < Z.of_nat (length d) -> slot (ino (ms_img s) i) (ms_img s) k <> 0;
  im_ok : forall i, ROOTINO <= i <= ROOTINO + Z.of_nat (length files) ->
    file_ok 2 mk_sb (ms_img s) (ino (ms_img s) i) /\ ino_home 2 mk_sb (ms_img s) (ino (ms_img s) i);
  im_apart : forall i j k k', ROOTINO <= i <= ROOTINO + Z.of_nat (length files) -> ROOTINO <= j <= ROOTINO + Z.of_nat (length files) -> i <> j ->
    0 <= k <= IND -> 0 <= k' <= IND -> slot (ino (ms_img s) i) (ms_img s) k <> 0 ->
    slot (ino (ms_img s) i) (ms_img s) k <> slot (ino (ms_img s) j) (ms_img s) k'
}.

Lemma contents_eq x img d : i_size x = Z.of_nat (length d) -> (forall j, 0 <= j < Z.of_nat (length d) -> fbyte x img j = default 0 (d !! Z.to_nat j)) -> contents x img = d.
Proof.
  intros Hs Hb. unfold contents. rewrite Hs. apply list_eq. intros i. destruct (decide (i < length d)%nat) as [Hi|Hi].
  - rewrite lookup_fbytes by lia. rewrite Hb by lia. rewrite Z.add_0_l, Nat2Z.id. by destruct (lookup_lt_is_Some_2 d i Hi) as [z ->].
  - rewrite !lookup_ge_None_2; [done|lia|rewrite length_fbytes; lia].
Qed.

Lemma root_contents x img files : i_size x = (Z.of_nat (length (directory files)) / BSIZE + 1) * BSIZE ->
  (forall j, 0 <= j < i_size x -> fbyte x img j = default 0 (directory files !! Z.to_nat j)) -> exists m, contents x img = directory files ++ replicate m 0.
Proof.
  intros Hs Hb. assert (Hle : Z.of_nat (length (directory files)) <= i_size x).
  { rewrite Hs. change BSIZE with 1024. set (a := Z.of_nat _). pose proof (Z.div_mod a 1024 ltac:(lia)). pose proof (Z.mod_pos_bound a 1024 ltac:(lia)). lia. }
  exists (Z.to_nat (i_size x) - length (directory files))%nat. clear Hs. apply contents_eq; rewrite length_app, length_replicate; [lia|].
  intros j Hj. rewrite Hb by lia.  destruct (decide (Z.to_nat j < length (directory files))%nat) as [Hd|Hd]; [by rewrite lookup_app_l|].
  rewrite lookup_app_r, lookup_replicate_2, (lookup_ge_None_2 (directory files)) by lia. done.
Qed.

Lemma seal_root s ents din v files : inv s ents -> ents !! 0%nat = Some (T_DIR, directory files) -> length din = 64%nat -> 0 <= v <= MAXBYTES -> v = (Z.of_nat (length (directory files)) / BSIZE + 1) * BSIZE ->
  di din (ino0 ROOTINO) = set_i_size v (ino (ms_img s) ROOTINO) -> let x := ino (sealed (ms_img s) (freeblock s) din) ROOTINO in
  i_type x = T_DIR /\ i_nlink x = 1 /\ i_size x = v /\ forall j, 0 <= j < i_size x -> fbyte x (sealed (ms_img s) (freeblock s) din) j = default 0 (directory files !! Z.to_nat j).
Proof.
  intros H R0 Hl Hm Hv Hdi. pose proof (in_ino _ _ H 0%nat _ _ R0) as Ho. cbn zeta. rewrite (seal_ino s ents din v H Hl Hdi ROOTINO) by done. rewrite Z.eqb_refl.
  split; [apply Ho|]. split; [apply Ho|]. split; [done|]. intros j Hj. change (0 <= j < v) in Hj.
  rewrite <- (seal_bytes s ents din v H Hl Hdi 0%nat _ _ j R0) by lia. change (1 + Z.of_nat 0) with ROOTINO. rewrite (seal_ino s ents din v H Hl Hdi ROOTINO) by done. done.
Qed.

Lemma seal_image files s din v : inv s ((T_DIR, directory files) :: map (fun f => (T_FILE, file_data f)) files) -> Forall file_good files -> length din = 64%nat ->
  v = (Z.of_nat (length (directory files)) / BSIZE + 1) * BSIZE -> di din (ino0 ROOTINO) = set_i_size v (ino (ms_img s) ROOTINO) ->
  image files (Mst (sealed (ms_img s) (freeblock s) din) FSSIZE (freeinode s) (freeblock s)).
Proof.
  intros H Hg Hl Hv Hdi. set (ents := _ :: _) in H. assert (Hlen : length ents = S (length files)) by (unfold ents; cbn; by rewrite length_map).
  assert (Hmax : Z.of_nat (length files) + 1 < NINODES) by (pose proof (in_max _ _ H); lia). change NINODES with 200 in Hmax.
  assert (Hex : forall i, ROOTINO <= i <= ROOTINO + Z.of_nat (length files) -> exists j t d, i = 1 + Z.of_nat j /\ ents !! j = Some (t, d)).
  { unfold ROOTINO. intros i Hi. destruct (lookup_lt_is_Some_2 ents (Z.to_nat (i - 1)) ltac:(lia)) as [[t d] E]. exists (Z.to_nat (i - 1)), t, d. split; [lia|done]. }
  assert (Hv' : 0 <= v <= MAXBYTES). { rewrite Hv, directory_len. change MAXBYTES with 274432. change BSIZE with 1024. set (a := Z.of_nat _).
    assert (Ha : 0 <= a <= 3200) by (unfold a; lia). pose proof (Z.div_mod a 1024 ltac:(lia)). pose proof (Z.mod_pos_bound a 1024 ltac:(lia)). lia. }
  assert (R0 : ents !! 0%nat = Some (T_DIR, directory files)) by done.
  pose proof (seal_root s ents din v files H R0 Hl Hv' Hv Hdi) as R. destruct (root_contents _ _ files (eq_trans (proj1 (proj2 (proj2 R))) Hv) (proj2 (proj2 (proj2 R)))) as [m Hm].
  split; cbn [ms_img ms_len freeinode freeblock].
  - rewrite (seal_up s din) by lia. rewrite (in_low _ _ H) by lia. by vm_compute.
  - done.
  - by eapply seal_durable.
  - by apply (seal_free s ents).
  - done.
  - rewrite <- Hv. exact R.
  - intros i f Hi Hn. rewrite Hm. by apply root_lookup.
  - intros name Hn. rewrite Hm. destruct Hn as [-> | ->]; apply root_dots.
  - intros i f Hi. assert (Ri : ents !! S i = Some (T_FILE, file_data f)) by (change (((fun f => (T_FILE, file_data f)) <$> files) !! i = Some (T_FILE, file_data f)); by rewrite list_lookup_fmap, Hi).
    pose proof (in_ino _ _ H _ _ _ Ri) as Ho. assert (Hil : (i < length files)%nat) by (by eapply lookup_lt_Some).
    pose proof (fun k => seal_bytes s ents din v H Hl Hdi (S i) _ _ k Ri) as Hb. replace (1 + Z.of_nat (S i)) with (ROOTINO + 1 + Z.of_nat i) in * by (unfold ROOTINO; lia).
    assert (E : ino (sealed (ms_img s) (freeblock s) din) (ROOTINO + 1 + Z.of_nat i) = ino (ms_img s) (ROOTINO + 1 + Z.of_nat i)).
    { rewrite (seal_ino s ents din v H Hl Hdi) by (unfold ROOTINO, NINODES; lia). by rewrite (proj2 (Z.eqb_neq _ _)) by (unfold ROOTINO; lia). }
    rewrite E in *. split; [apply Ho|]. split; [apply Ho|]. apply contents_eq; [apply Ho|]. intros k Hk. apply Hb. pose proof (ho_max _ _ _ _ _ Ho). lia.
  - intros i (j & t & d & -> & E)%Hex. rewrite (seal_ino s ents din v H Hl Hdi) by (pose proof (lookup_lt_Some _ _ _ E); unfold NINODES; lia).
    pose proof (in_ino _ _ H _ _ _ E) as Ho. destruct (Z.eqb_spec (1 + Z.of_nat j) ROOTINO); [exact Hv'|]. rewrite (ho_size _ _ _ _ _ Ho). pose proof (ho_max _ _ _ _ _ Ho). lia.
  - intros i d k Hst Hk Hd. assert (exists j t, i = 1 + Z.of_nat j /\ ents !! j = Some (t, d)) as (j & t & -> & E).
    { destruct Hst as [[-> ->]|(j & f & Hj & -> & ->)]; [by exists 0%nat, T_DIR|]. exists (S j), T_FILE. split; [unfold ROOTINO; lia|].
      change (((fun f => (T_FILE, file_data f)) <$> files) !! j = Some (T_FILE, file_data f)). by rewrite list_lookup_fmap, Hj. }
    pose proof (proj1 (seal_wf s ents din v H Hl Hdi j t d E)) as W. pose proof (wf_nb _ _ _ _ _ W) as Hnb. pose proof (ho_max _ _ _ _ _ (in_ino _ _ H _ _ _ E)) as Hmx.
    unfold MAXBYTES, BSIZE in *. apply (wf_alloc _ _ _ _ _ W); lia.
  - intros i (j & t & d & -> & E)%Hex. by eapply seal_file.
  - intros i j k k' (i' & t & d & -> & E)%Hex (j' & t' & d' & -> & E')%Hex Hne Hk Hk'. rewrite (proj2 (seal_wf s ents din v H Hl Hdi i' t d E)), (proj2 (seal_wf s ents din v H Hl Hdi j' t' d' E')).
    apply (in_apart _ _ H); [by eapply lookup_lt_Some..|lia|done|done].
Qed.

Lemma main_split files s : main files s = mk_bind (fill files) (fun _ =>
  din <-- rinode ROOTINO ;;
  winode ROOTINO (st 4 off_size (xint ((xint (ld 4 off_size din) / BSIZE + 1) * BSIZE)) din) ;;;
  (fun s => mk_balloc (freeblock s) s)) s.
Proof.
  unfold main, fill, mk_bind, set_freeblock. change (replicate bsize 0) with zeros. fold sb_block. destruct (wipe _ _) as [u1 s1|]; [|done]. destruct (wsect _ _ _) as [u2 s2|]; [|done].
  destruct (mk_ialloc _ _) as [r s3|]; [|done]. unfold mk_assert. destruct (Z.eqb_spec r ROOTINO) as [->|]; [|done]. cbn [mk_ret]. destruct (iappend _ _ _) as [u4 s4|]; [|done].
  destruct (iappend _ _ _) as [u5 s5|]; [|done]. by destruct (add_files _ _ _).
Qed.

Lemma mkfs_image files : Z.of_nat (length files) + 1 < NINODES -> ends (mkfs files) (fun _ s => image files s).
Proof.
  intros Hn. unfold mkfs. rewrite main_split. eapply ends_bind; [exact (fill_ok files Hn)|]. intros u s [Hg H]. assert (R : 0 <= ROOTINO < NINODES) by done.
  destruct (iblock_spec _ R) as (_ & _ & Hdo & _). pose proof (in_img _ _ H) as G. unfold mk_bind at 1. rewrite (rinode_run ROOTINO s R (in_len _ _ H)). set (din := slice _ 64 _).
  assert (Ed : di din (ino0 ROOTINO) = ino (ms_img s) ROOTINO) by (apply load_slice; rewrite (im_size _ _ G); lia).
  assert (Hld : length din = 64%nat) by (apply length_slice; rewrite (im_size _ _ G); lia). destruct (in_ino _ _ H 0%nat _ _ eq_refl) as [_ _ _ Hs Hm _].
  assert (Es : xint (ld 4 off_size din) = Z.of_nat (length (directory files))). { change (ld 4 off_size din) with (i_size (di din (ino0 ROOTINO))). rewrite Ed. etrans; [|apply max_small; split; [lia|exact Hm]]. f_equal. exact Hs. }
  rewrite Es. set (v := _ * BSIZE). assert (Hv : xint v = v /\ 0 <= v < 2 ^ 32).
  { assert (0 <= v < 2 ^ 32) as Hr; [|split; [by apply xint_spec|done]]. unfold v. change MAXBYTES with 274432 in Hm. change BSIZE with 1024. pose proof (Z.div_mod (Z.of_nat (length (directory files))) 1024 ltac:(lia)).
    pose proof (Z.mod_pos_bound (Z.of_nat (length (directory files))) 1024 ltac:(lia)). lia. }
  destruct Hv as [-> Hv]. unfold mk_bind at 1. rewrite (winode_run ROOTINO _ s R (in_len _ _ H)). cbn [freeblock]. unfold mk_balloc. apply ends_assert; [done|]. intros _.
  unfold wsect. cbn [ms_img ms_len freeinode freeblock ends]. change (sb_bmapstart mk_sb) with 46. change (Z.max FSSIZE (46 + 1)) with FSSIZE.
  apply (seal_image files s _ v); [done|done|rewrite length_st; [done|unfold off_size; lia]|done|]. by rewrite di_size, Ed.
Qed.

(** C10 Given up to 198 files, mkfs stops on a failed read or assertion (a file that cannot be opened, a bad name,
    no space left) or writes an image that is a file system for the kernel: the kernel reads the same superblock, the
    log is empty and the image is its own settled state, the bitmap is clear exactly for the blocks never handed out,
    the root directory holds the entries of the files after dot and dot-dot, the kernel's lookup of the name of file
    [i] in it gives inode [i + 2] when no earlier entry has that name, inode [i + 2] holds the bytes of file
    [i], and every inode meets the conditions ([file_ok], [ino_home]) under which the kernel's reads and writes are
    proved correct, with no block shared. *)
Theorem mkfs_correct files : Z.of_nat (length files) + 1 < NINODES -> ends (mkfs files) (fun _ s => image files s).
Proof. apply mkfs_image. Qed.

(** user/_cat with 13 blocks, the last of which is short, and README *)
Definition demo_files : list host_file :=
  [HostFile [117; 115; 101; 114; 47; 95; 99; 97; 116] (Some (replicate 12 (replicate bsize 7) ++ [[1; 2; 3]]));
   HostFile [82; 69; 65; 68; 77; 69] (Some [[104; 105; 10]])].

Lemma mkfs_correct_witness : exists s, mkfs demo_files = MOk tt s /\ freeblock s = 63 /\ image demo_files s.
Proof.
  pose proof (mkfs_correct demo_files eq_refl) as H.
  assert (E : match mkfs demo_files with MOk _ s => freeblock s =? 63 | MDie _ => false end = true) by (vm_compute; reflexivity).
  destruct (mkfs demo_files) as [[] s|why]; [|discriminate E]. exists s. split; [reflexivity|]. split; [apply Z.eqb_eq, E|exact H].
Defined.
