(* ===== verification/FsBoot.v ===== *)
(** * The kernel on the image of mkfs

    The file system from its initialisation to the bytes of a file: the cache and the
    inode table are set up, [fsinit] reads the super block and recovers the log, a
    transaction looks up a path and reads.

    What the theorem shows: a kernel that boots on the image of mkfs finds every file
    given to mkfs under its name, and reads from it what mkfs was given. *)

From stdpp Require Import base gmap sets list strings.
From Stdlib Require Import ZArith Lia.
From S2P Require Import Prelude Kernel Riscv Kalloc Vm Sched Sleeplock Bytes Bio Log Usr Fs Path Tx FsBlock FsInode FsData FsDir FsLock Mkfs MkfsOk.

(** ** Definitions *)

Definition inode0 : inode := Inode 0 0 0 0 0 0 0 0 0 (replicate 13 0).
Definition sb0 : superblock := Superblock 0 0 0 0 0 0 0 0.

(** The file system before its initialisation, on the disk [d] *)
Definition fs0 (u : usr) (d : disk) : fs := Fs u (log0 d) sb0 (replicate NINODE inode0) ∅.

(** [main] calls [binit] and [iinit]; the first process calls [fsinit]. *)
Definition mount : K fs unit :=
  on_bio binit ;;
  iinit ;;
  fsinit ROOTDEV.

Section Read.
Context {K : Linker}.

(** How [exec] starts: [n] bytes from [off] on of the file of the path *)
Definition read_path (path : list Z) (off n : Z) : Kernel.K fs (option (Z * list Z)) :=
  zoom begin_op ;;
  ip <- namei path ;;
  match ip with
  | None => ret None
  | Some i =>
      ilock (Some i) ;;
      r <- readi i ToKernel off n ;;
      ret (Some r)
  end.

End Read.

(** ** Initialisation *)

Lemma on_bio_run {A} (m : K bio A) e s a t : m e (fbio s) = Ret a e t -> on_bio m e s = Ret a e (with_log s (with_bio (fs_log s) t)).
Proof. intros H. unfold on_bio, zoom at 1. cbn [part_get fs_log_part]. by rewrite (zoom_bio m e (fs_log s) a t H). Qed.

Definition with_locks (s : fs) (lk : sleeplocks) : fs := Fs (fs_usr s) (fs_log s) (fs_sb s) (fs_inode s) lk.

Definition unlocked (lk : sleeplocks) : Prop := forall i, sl_locked (slock lk (InodeLock i)) = 0.

Section Boot.
Context (e : env) (p : nat) (pid : Z) (E : ienv e p pid).

Let L : lenv e p pid := ie_log _ _ _ E.
Let B : benv e p pid := le_benv _ _ _ L.

Lemma iinit_loop l s : unlocked (fs_locks s) ->
  exists lk, for_each l (fun i => zoom (initsleeplock (InodeLock i))) e s = Ret tt e (with_locks s lk) /\ unlocked lk.
Proof.
  revert s. induction l as [|i l IH]; intros s Hs; [exists (fs_locks s); by destruct s|]. cbn [for_each].
  assert (Ei : initsleeplock (InodeLock i) e (fs_locks s) = Ret tt e (<[InodeLock i := Sleeplock 0 0]> (fs_locks s)))
    by (unfold initsleeplock; by rewrite (bind_step _ _ _ _ _ _ _ (initlock_free _ e _ (ie_lock _ _ _ E i)))).
  rewrite (bind_step _ _ _ _ _ _ _ (zoom_Ret _ e s tt e _ Ei)). destruct (IH (part_put (<[InodeLock i := Sleeplock 0 0]> (fs_locks s)) s)) as (lk & El & Hl); [|by exists lk].
  intros j. cbn. destruct (decide (j = i)) as [->|Hj]; [by rewrite slock_insert|]. rewrite slock_insert_ne by congruence. apply Hs.
Qed.

(** The super block is read through the cache. *)
Lemma readsb_run s c : brep pid (fbio s) c -> c_ref c = ∅ -> c_held c = ∅ ->
  exists t c', readsb ROOTDEV e s = Ret tt e (set_sb (sb_of (c_blk c 1)) (with_log s (with_bio (fs_log s) t))) /\
    brep pid t c' /\ c_ref c' = ∅ /\ c_held c' = ∅ /\ c_disk c' = c_disk c.
Proof.
  intros R Hr Hh. assert (Hg : can_get c 1) by (split; [set_solver|]; unfold ref_of; rewrite Hr; split; [done|right; rewrite map_size_empty; unfold NBUF; lia]).
  destruct (bread_run e p pid (fbio s) c 1 B R Hg) as (i & t1 & E1 & H1 & R1 & _). assert (Hin : 1 ∈ c_held (c_got c 1)) by (cbn; set_solver).
  destruct (handle_locked e p pid t1 _ i 1 B R1 H1 Hin) as (x & Hx & _ & _ & _ & Hd & _).
  destruct (brelse_run e p pid t1 _ i 1 B R1 H1 Hin) as (t2 & E2 & _ & R2 & _); [intros _; cbn; apply (br_clean _ _ _ R); by rewrite Hr|].
  assert (Ec : dropped (c_got c 1) 1 = ∅).
  { unfold dropped, ref_of, c_got. cbn [c_ref]. rewrite lookup_insert_eq. unfold ref_of. rewrite Hr. cbn [default]. by rewrite lookup_empty, delete_insert_eq. }
  exists t2, (c_put (c_got c 1) 1). split; [|split; [done|split; [exact Ec|split; [cbn; rewrite Hh; set_solver|done]]]].
  unfold readsb, fs_bread. change (u32 ROOTDEV) with ROOTDEV. change (u32 1) with 1. rewrite (bind_step _ _ _ _ _ _ _ (on_bio_run _ e s _ _ E1)). set (s1 := with_log s _).
  assert (Eb : buf_data i e s1 = Ret (c_blk c 1) e s1) by (unfold buf_data, on_bio, bind, zoom; cbn; by rewrite (getb_run i x _ _ Hx), Hd).
  rewrite (bind_step _ _ _ _ _ _ _ Eb). kstep. unfold fs_brelse. by rewrite (on_bio_run _ e _ _ _ (E2 : brelse i e (fbio (set_sb (sb_of (c_blk c 1)) s1)) = _)).
Qed.

(** Booting on any disk that durably holds the contents [new] *)
Lemma mount_run u d bl new sb : sb_of (disk_get d 1) = sb -> sb_magic sb = FSMAGIC -> geometry_ok (sb_logstart sb) -> LOGSIZE < sb_nlog sb < 2 ^ 31 ->
  durable (sb_logstart sb) bl new (disk_get d) ->
  exists s1 s2 blk dsk lk, mount e (fs0 u d) = Ret tt e s1 /\ zoom begin_op e s1 = Ret tt e s2 /\
    istate pid s2 [] blk dsk (sb_logstart sb) sb (replicate NINODE inode0) lk u /\ unlocked lk /\
    (forall b, length (blk b) = bsize) /\ (forall b, is_data (sb_logstart sb) b -> blk b = new b).
Proof.
  intros Hsb Hm Hg Hn D. destruct (binit_run e pid d (be_cache _ _ _ B) (be_sleep _ _ _ B) (du_size _ _ _ _ D)) as (t0 & E0 & _ & R0).
  unfold mount. rewrite (bind_step _ _ _ _ _ _ _ (on_bio_run binit e (fs0 u d) _ _ E0)). set (s0 := with_log _ _).
  destruct (iinit_loop (seq 0 NINODE) s0) as (lk & Ei & Hlk); [by intros i|].
  assert (Ei' : iinit e s0 = Ret tt e (with_locks s0 lk)) by (unfold iinit; rewrite (bind_step _ _ _ _ _ _ _ (initlock_free _ e _ (ie_table _ _ _ E))); exact Ei).
  rewrite (bind_step _ _ _ _ _ _ _ Ei'). destruct (readsb_run (with_locks s0 lk) (cache0 d) R0 eq_refl eq_refl) as (t1 & c1 & E1 & R1 & Hr1 & Hh1 & Hd1).
  unfold fsinit. rewrite (bind_step _ _ _ _ _ _ _ E1). cbn [cache0 c_blk]. rewrite Hsb. set (s1 := set_sb _ _). kstep. change (fs_sb s1) with sb. rewrite Hm. change (negb (FSMAGIC =? FSMAGIC)) with false. cbv iota.
  set (l1 := set_geometry (i32 (sb_logstart sb)) (i32 (sb_nlog sb)) ROOTDEV (fs_log s1)).
  assert (Hst : l_start l1 = sb_logstart sb) by (destruct Hg; unfold LOGSIZE, MAXOPBLOCKS in *; change (i32 (sb_logstart sb) = sb_logstart sb); apply sint_wrap_small; lia).
  assert (Hsz : l_size l1 = sb_nlog sb) by (unfold LOGSIZE, MAXOPBLOCKS in *; change (i32 (sb_nlog sb) = sb_nlog sb); apply sint_wrap_small; lia).
  destruct (recover_run e p pid l1 c1 bl new L) as (t2 & c2 & lb & E2 & S2 & (Hr2 & Hl2 & Hi2) & _).
  { split; [exact R1|done|done|done|by rewrite Hst|done|apply Forall_replicate; lia|]. rewrite Hst, Hd1. exact D. }
  set (l2 := set_n 0 (set_block lb (with_bio l1 t2))) in *. rewrite Hst in S2. exists (with_log s1 l2), (with_log s1 (set_outstanding 1 l2)), (c_blk c2), (c_disk c2), lk. split; [|split; [|split; [|split; [done|]]]].
  - assert (Eg : initlog ROOTDEV sb e (fs_log s1) = Ret tt e l2); [|exact (zoom_Ret _ e s1 tt e _ Eg)].
    unfold initlog. change (BSIZE <=? sizeof_logheader) with false. cbv iota. rewrite (bind_step _ _ _ _ _ _ _ (initlock_free _ e _ (le_lock _ _ _ L))). kstep. exact E2.
  - exact (zoom_Ret begin_op e (with_log s1 l2) tt e _ (begin_op_admits e p pid l2 L eq_refl ltac:(done))).
  - split; [|exact Hst|done..]. pose proof (se_rep _ _ _ _ _ S2) as R2. pose proof (se_held _ _ _ _ _ S2) as Hh2.
    assert (R3 : brep pid t2 (Cache (refs [] ∅) (c_blk c2) (c_disk c2) ∅)) by (destruct c2 as [r ? ? h]; cbn [c_ref c_held] in Hr2, Hh2; by rewrite Hr2, Hh2 in R2).
    assert (Hg' : geometry_ok (l_start l1)) by (by rewrite Hst). assert (Hh : hdr_n (c_disk c2 (l_start l1)) = 0) by (rewrite Hst; apply S2).
    split; [exact R3|reflexivity|reflexivity|reflexivity|exact Hl2|exact Hi2|exact Hg'|apply blocks_ok_nil|exact (eq_ind_r (fun z => LOGSIZE < z) (proj1 Hn) Hsz)|apply Z.le_refl|exact Hh| |apply empty_subseteq|intros x _; apply not_elem_of_empty].
    intros b _ _. apply (br_clean _ _ _ R2). by rewrite Hr2.
  - split; [intros b; apply (br_size _ _ _ (se_rep _ _ _ _ _ S2))|]. intros b Hb. by apply S2.
Qed.

End Boot.

(** ** The files of the image *)

Section Image.
Context (files : list host_file) (m : mst) (I : image files m).

Let img := ms_img m.

Lemma ino_in_range i : ROOTINO <= i <= ROOTINO + Z.of_nat (length files) -> ino_range (ino img i).
Proof.
  intros Hi. pose proof (proj1 (im_ok _ _ I i Hi)) as F. pose proof (im_max _ _ I i Hi) as Hs. change MAXBYTES with 274432 in Hs.
  split; [apply (sint_wrap_range 16); done..| |by apply (file_addrs 2 mk_sb img)|apply F]. split; [apply Hs|]. eapply Z.le_lt_trans; [apply Hs|done].
Qed.

Lemma stored_on_disk i d : stored files i d -> ROOTINO <= i <= ROOTINO + Z.of_nat (length files) ->
  (forall j, 0 <= j < i_size (ino img i) -> j / BSIZE * BSIZE < Z.of_nat (length d)) -> on_disk 2 mk_sb img (ino img i).
Proof.
  intros Hst Hi Hb. destruct (im_ok _ _ I i Hi) as [F H]. split; [done|done|by apply ino_in_range|by apply (im_max _ _ I)|].
  intros j Hj. apply (im_backed _ _ I i d); [done|apply Z.div_pos; unfold BSIZE; lia|]. by apply Hb.
Qed.

Lemma file_on_disk k f (i := ROOTINO + 1 + Z.of_nat k) : files !! k = Some f ->
  on_disk 2 mk_sb img (ino img i) /\ i_type (ino img i) = T_FILE /\ i_size (ino img i) = Z.of_nat (length (file_data f)) /\ contents (ino img i) img = file_data f.
Proof.
  intros Hk. pose proof (lookup_lt_Some _ _ _ Hk) as Hl. assert (Hi : ROOTINO <= i <= ROOTINO + Z.of_nat (length files)) by (unfold i, ROOTINO; lia).
  destruct (im_files _ _ I k f Hk) as (Ht & _ & Hc). fold i in Ht, Hc. fold img in Ht, Hc. pose proof (im_max _ _ I i Hi) as Hm. fold img in Hm.
  assert (Hs : i_size (ino img i) = Z.of_nat (length (file_data f))) by (rewrite <- Hc; unfold contents; rewrite length_fbytes; lia).
  split; [|done]. apply (stored_on_disk i (file_data f)); [right; by exists k, f|done|]. intros j Hj. rewrite <- Hs.
  pose proof (Z.div_mod j BSIZE ltac:(done)). pose proof (Z.mod_pos_bound j BSIZE ltac:(done)). lia.
Qed.

(** The directory has no block for its last bytes if it ends with a block. *)
Lemma root_on_disk : (Z.of_nat (length files) + 2) mod 64 <> 0 -> on_disk 2 mk_sb img (ino img ROOTINO) /\ i_size (ino img ROOTINO) mod sizeof_dirent = 0.
Proof.
  intros Hn. destruct (im_root _ _ I) as (_ & _ & Hs & _). fold img in Hs. rewrite directory_len in Hs. change BSIZE with 1024 in Hs. set (n := length files) in *.
  assert (Hz : Z.of_nat (16 * (n + 2)) = 16 * (Z.of_nat n + 2)) by lia. pose proof (Z.div_mod (Z.of_nat n + 2) 64 ltac:(lia)) as Hd. pose proof (Z.mod_pos_bound (Z.of_nat n + 2) 64 ltac:(lia)) as Hb.
  assert (Hq : Z.of_nat (16 * (n + 2)) / 1024 = (Z.of_nat n + 2) / 64) by (rewrite Hz; symmetry; apply (Z.div_unique _ _ _ (16 * ((Z.of_nat n + 2) mod 64))); lia).
  rewrite Hq in Hs. split; [|rewrite Hs; unfold sizeof_dirent; replace (_ * 1024) with (((Z.of_nat n + 2) / 64 + 1) * 64 * 16) by lia; apply Z.mod_mul; lia].
  apply (stored_on_disk ROOTINO (directory files)); [by left|unfold ROOTINO; lia|]. intros j Hj. rewrite directory_len. fold n. rewrite Hz. change BSIZE with 1024. rewrite Hs in Hj.
  assert (j / 1024 <= (Z.of_nat n + 2) / 64) by (apply Z.lt_succ_r, Z.div_lt_upper_bound; lia). lia.
Qed.

End Image.

(** ** Reading *)

Lemma skip_under_sub l c : c ∈ skip_under l -> c ∈ l.
Proof. intros H. destruct l as [|x l]; [done|]. destruct x as [|q|q]; [done| |done]. do 7 (destruct q as [q|q|]; [|try exact H..]; try exact H). all: first [exact H|by right]. Qed.

Lemma short_name_ok files m k f : image files m -> files !! k = Some f -> shortname f <> [] -> name_ok (shortname f).
Proof.
  intros I Hk Hne. destruct (proj1 (Forall_lookup _ _) (im_good _ _ I) k f Hk) as (_ & Hs & Hl). split; [done|]. split; [lia|].
  apply Forall_forall. intros c Hc ->. apply Hs. by apply skip_under_sub.
Qed.

Lemma loaded_ino img blk i z : blk (IBLOCK i mk_sb) = img (IBLOCK i mk_sb) ->
  loaded mk_sb blk (set_i_ident ROOTDEV i z) = set_i_ref 1 (set_i_valid 1 (ino img i)).
Proof. intros H. unfold loaded, ino. cbn [i_inum set_i_ident]. by rewrite H. Qed.

Section Reads.
Context {K : Linker}.
Context (e : env) (p : nat) (pid : Z) (E : ienv e p pid).
Context (files : list host_file) (m : mst) (I : image files m) (Hfit : (Z.of_nat (length files) + 2) mod 64 <> 0).
Context (blk dsk : Z -> list Z) (u : usr) (Hu : is_Some (u_pd u !! p)) (Hl : forall b, length (blk b) = bsize) (Hb : forall b, is_data 2 b -> blk b = ms_img m b).

Let img := ms_img m.

(** An inode of the image, in memory *)
Lemma kept i z : on_disk 2 mk_sb img (ino img i) -> let x := loaded mk_sb blk (set_i_ident ROOTDEV i z) in
  x = set_i_ref 1 (set_i_valid 1 (ino img i)) /\ on_disk 2 mk_sb blk x /\ contents x blk = contents (ino img i) img.
Proof.
  intros D x. assert (Ex : x = set_i_ref 1 (set_i_valid 1 (ino img i))) by (apply loaded_ino, Hb, (ih_data _ _ _ _ (od_home _ _ _ _ D))).
  split; [done|]. rewrite Ex. split; [by apply on_disk_refs, (ext_on_disk 2 mk_sb img blk Hb)|]. by rewrite <- (ext_contents 2 mk_sb img blk Hb _ D).
Qed.

(** The path of one name *)
Lemma namei_file s lk k f : istate pid s [] blk dsk 2 mk_sb (replicate NINODE inode0) lk u -> unlocked lk ->
  files !! k = Some f -> first_named files k (shortname f) -> shortname f <> [] ->
  exists j s' l lk', namei (slash :: shortname f) e s = Ret (Some j) e s' /\ istate pid s' [] blk dsk 2 mk_sb l lk' u /\ unlocked lk' /\
    l !! j = Some (set_i_ident ROOTDEV (ROOTINO + 1 + Z.of_nat k) inode0).
Proof.
  intros H Hlk Hk Hf Hne. set (inum := ROOTINO + 1 + Z.of_nat k). set (l0 := replicate NINODE inode0) in *. destruct (root_on_disk files m I Hfit) as [D Hmod]. fold img in D, Hmod.
  assert (H0 : forall j z, l0 !! j = Some z -> z = inode0) by (by intros j z [-> _]%lookup_replicate_1).
  destruct (iget_new e p pid E [] blk dsk 2 mk_sb u s l0 lk ROOTINO H) as (i & z & s1 & E1 & Hi & _ & H1); [by apply Forall_replicate|by exists 0%nat, inode0|].
  pose proof (H0 i z Hi) as ->. pose proof (lookup_lt_Some _ _ _ Hi) as Hil. set (y := set_i_ident ROOTDEV ROOTINO inode0) in *.
  destruct (kept ROOTINO inode0 D) as (Ex & Dx & Cx). fold y in Ex, Dx, Cx. destruct (im_root _ _ I) as (Ht & Hn & _).
  destruct (resolve_one e p pid E [] blk dsk 2 mk_sb u Hu ltac:(unfold NBUF; cbn; lia) s1 _ lk i y (shortname f) [] inum H1)
    as (j & z & s2 & E2 & Hji & Hj & _ & H2); [by rewrite list_lookup_insert_eq|done|done|done|apply Hlk|done|by rewrite Ex|by rewrite Ex; cbn -[ino]; fold img in Hn; rewrite Hn|by rewrite Ex|rewrite Cx; by apply (im_names _ _ I)|..].
  - rewrite list_insert_insert_eq, Ex. apply Forall_insert; [by apply Forall_replicate|]. unfold iget_match. cbn -[Z.eqb inum]. rewrite (proj2 (Z.eqb_neq ROOTINO inum)) by (unfold inum; lia). apply andb_false_r.
  - exists (if decide (i = 0%nat) then 1%nat else 0%nat), inode0. destruct (decide (i = 0%nat)) as [->|Hi0]; (split; [done|]); by rewrite list_lookup_insert_ne.
  - rewrite list_lookup_insert_ne in Hj by done. pose proof (H0 j z Hj) as ->. eexists j, s2, _, _. split; [|split; [exact H2|split]].
    + unfold namei, namex. rewrite bool_decide_eq_true_2 by done. unfold bind at 1. rewrite (bind_step _ _ _ _ _ _ _ E1). rewrite namex_loop_resolve by lia.
      pose proof (elems_join [shortname f] ltac:(apply Forall_singleton; by apply (short_name_ok files m k f))) as Ep.
      unfold join_path in Ep. cbn [fmap list_fmap concat] in Ep. rewrite app_nil_r in Ep. by rewrite Ep, E2.
    + intros q. destruct (decide (q = i)) as [->|Hq]; [by rewrite slock_insert|]. rewrite !slock_insert_ne by congruence. apply Hlk.
    + rewrite list_lookup_insert_ne by done. rewrite list_lookup_insert_eq; [done|]. rewrite length_insert. by eapply lookup_lt_Some.
Qed.

(** The bytes of the file, through the path *)
Lemma read_run s lk k f off n : istate pid s [] blk dsk 2 mk_sb (replicate NINODE inode0) lk u -> unlocked lk ->
  files !! k = Some f -> first_named files k (shortname f) -> shortname f <> [] -> 0 <= off <= Z.of_nat (length (file_data f)) -> 0 <= n -> off + n < 2 ^ 32 ->
  exists s', (ip <- namei (slash :: shortname f) ;;
              match ip with None => ret None | Some i => ilock (Some i) ;; r <- readi i ToKernel off n ;; ret (Some r) end) e s =
    Ret (Some (Z.min n (Z.of_nat (length (file_data f)) - off), take (Z.to_nat n) (drop (Z.to_nat off) (file_data f)))) e s'.
Proof.
  intros H Hlk Hk Hf Hne Ho Hn Hon. destruct (file_on_disk files m I k f Hk) as (D & Ht & Hs & Hc). fold img in D, Ht, Hs, Hc.
  destruct (namei_file s lk k f H Hlk Hk Hf Hne) as (j & s1 & l & lk1 & E1 & H1 & Hlk1 & Hj). set (inum := ROOTINO + 1 + Z.of_nat k) in *. rewrite (bind_step _ _ _ _ _ _ _ E1).
  destruct (kept inum inode0 D) as (Ex & Dx & Cx). set (x := loaded mk_sb blk (set_i_ident ROOTDEV inum inode0)) in *.
  destruct (ilock_run e p pid E [] blk dsk 2 mk_sb u s1 l lk1 j _ H1 Hj) as (s2 & E2 & H2); [done|done|done|apply Hlk1|apply (ih_data _ _ _ _ (od_home _ _ _ _ Dx))|unfold NBUF; cbn; lia|fold x; rewrite Ex; change (i_type (ino img inum) <> 0); by rewrite Ht|].
  rewrite (bind_step _ _ _ _ _ _ _ E2). fold x in H2. assert (Hx : <[j := x]> l !! j = Some x) by (rewrite list_lookup_insert_eq; [done|by eapply lookup_lt_Some]).
  destruct (readi_file e p pid (ie_log _ _ _ E) j s2 [] blk dsk x off n) as (s3 & E3 & _ & _);
    [eapply istate_file; [exact H2|exact Hx|exact Dx]|unfold has_proc; by rewrite (is_usr _ _ _ _ _ _ _ _ _ _ H2)|unfold NBUF; cbn; lia|lia|lia|].
  assert (Hsx : i_size x = Z.of_nat (length (file_data f))) by (by rewrite Ex). exists s3. rewrite (bind_step _ _ _ _ _ _ _ E3), Cx, Hc.
  assert (Er : read_count x off n = Z.min n (Z.of_nat (length (file_data f)) - off)) by (unfold read_count; rewrite Hsx, (proj2 (Z.ltb_ge _ _)), (proj2 (Z.leb_gt _ _)) by lia; done).
  rewrite Er. unfold ret. do 3 f_equal. destruct (Z.min_spec n (Z.of_nat (length (file_data f)) - off)) as [[_ ->]|[Hm ->]]; [done|]. rewrite !take_ge; [done|rewrite length_drop; lia..].
Qed.

End Reads.

(** C9 What mkfs was given, the kernel reads.  On the image mkfs writes for fewer than 199 files, whose directory does not
    end with a block, the kernel boots: the cache and the inode table are set up, the super block is read and the log
    recovered.  A transaction that then looks up the path of a file, a slash and its name, finds the inode, if no earlier
    file has that name, and reads from any offset of the file the bytes mkfs was given. *)
Theorem mkfs_boot_read {K : Linker} files m d u e p pid k f off n : Z.of_nat (length files) + 1 < NINODES -> (Z.of_nat (length files) + 2) mod 64 <> 0 ->
  mkfs files = MOk tt m -> (forall b, disk_get d b = ms_img m b) -> ienv e p pid -> is_Some (u_pd u !! p) ->
  files !! k = Some f -> first_named files k (shortname f) -> shortname f <> [] -> 0 <= off <= Z.of_nat (length (file_data f)) -> 0 <= n -> off + n < 2 ^ 32 ->
  exists s s', mount e (fs0 u d) = Ret tt e s /\
    read_path (slash :: shortname f) off n e s =
      Ret (Some (Z.min n (Z.of_nat (length (file_data f)) - off), take (Z.to_nat n) (drop (Z.to_nat off) (file_data f)))) e s'.
Proof.
  intros Hn Hfit Em Hd E Hu Hk Hf Hne Ho Hn0 Hon. pose proof (mkfs_image files Hn) as I. rewrite Em in I. cbn [ends] in I.
  assert (Hsb : sb_of (disk_get d 1) = mk_sb) by (rewrite Hd; apply (im_sb _ _ I)). assert (Hst : sb_logstart mk_sb = 2) by done. assert (Hnl : sb_nlog mk_sb = 31) by done.
  destruct (mount_run e p pid E u d [] (ms_img m) mk_sb Hsb) as (s1 & s2 & blk & dsk & lk & E1 & E2 & H & Hlk & Hl & Hb);
    [done|rewrite Hst; unfold geometry_ok, LOGSIZE, MAXOPBLOCKS; lia|rewrite Hnl; unfold LOGSIZE, MAXOPBLOCKS; lia| |].
  { rewrite Hst. apply (durable_ext _ _ _ (ms_img m)); [done|]. apply (im_log _ _ I). }
  rewrite Hst in H, Hb. destruct (read_run e p pid E files m I Hfit blk dsk u Hu Hl Hb s2 lk k f off n) as (s3 & E3); [done..|].
  exists s1, s3. split; [done|]. unfold read_path. by rewrite (bind_step _ _ _ _ _ _ _ E2).
Qed.

(** ** Witness *)

Definition demo_busr : usr := Usr (Kmem (fun _ => 0) 0 (fun _ => 0)) [Pdata 0 0 0 0 CodeNull 0 [] None []].
#[local] Instance demo_blinker : Linker := {| kend := 0x80021000; etext := 0x80008000; trampoline := 0x80007000 |}.

Definition demo_cat : host_file := HostFile [117; 115; 101; 114; 47; 95; 99; 97; 116] (Some (replicate 12 (replicate bsize 7) ++ [[1; 2; 3]])).

Lemma demo_ienv : ienv demo_kenv 0 7.
Proof. split; [apply demo_lenv|apply not_elem_of_empty|intros; apply not_elem_of_empty|intros; apply demo_no_waiter]. Qed.

(** The last three bytes of the first file, and no more *)
Lemma mkfs_boot_read_witness : exists m s s', mkfs demo_files = MOk tt m /\ mount demo_kenv (fs0 demo_busr (Disk (ms_img m) [])) = Ret tt demo_kenv s /\
  read_path [47; 99; 97; 116] 12288 10 demo_kenv s = Ret (Some (3, [1; 2; 3])) demo_kenv s'.
Proof.
  assert (Ok : match mkfs demo_files with MOk _ _ => true | MDie _ => false end = true) by (vm_compute; reflexivity).
  destruct (mkfs demo_files) as [[] m|why] eqn:Em; [|discriminate Ok].
  destruct (mkfs_boot_read demo_files m (Disk (ms_img m) []) demo_busr demo_kenv 0 7 0 demo_cat 12288 10) as (s & s' & E1 & E2).
  - reflexivity.
  - vm_compute. discriminate.
  - exact Em.
  - intros b. reflexivity.
  - exact demo_ienv.
  - eexists. reflexivity.
  - reflexivity.
  - split; [vm_compute; discriminate|]. split; [vm_compute; discriminate|]. intros j g Hj. lia.
  - discriminate.
  - vm_compute. split; discriminate.
  - lia.
  - lia.
  - exists m, s, s'. split; [reflexivity|]. split; [exact E1|].
    assert (Ev : (Z.min 10 (Z.of_nat (length (file_data demo_cat)) - 12288), take (Z.to_nat 10) (drop (Z.to_nat 12288) (file_data demo_cat))) = (3, [1; 2; 3])) by (vm_compute; reflexivity).
    rewrite Ev in E2. exact E2.
Defined.
