(* ===== verification/User.v ===== *)
(** * User programs

    A user program computes on its own memory and talks to the kernel through the
    system calls of user/user.h only.  It is modelled as the tree of its calls: a
    node holds a call and a continuation for each answer of the kernel.  The stubs
    that user/usys.pl generates are the functions named [sys_...] here: pointer
    arguments are replaced by the bytes behind them, and what the kernel stores
    through a pointer is part of its answer.

    A kernel is a class [Os] that answers calls from a state; [run] runs a program
    against it.  The memory is byte addressed; [char] is unsigned, as on RISC-V. *)

From stdpp Require Import base list strings.
From Stdlib Require Import ZArith Lia.
From S2P Require Import Prelude.

Declare Scope user_scope.
Delimit Scope user_scope with user.
Open Scope user_scope.

(** ** Calls *)

Inductive call : Type :=
| SysFork
| SysWait
| SysPipe
| SysWrite (fd : Z) (bytes : list Z)
| SysRead (fd n : Z)
| SysClose (fd : Z)
| SysKill (pid : Z)
| SysExec (path : list Z) (argv : list (list Z))
| SysOpen (path : list Z) (mode : Z)
| SysMknod (path : list Z) (major minor : Z)
| SysUnlink (path : list Z)
| SysFstat (fd : Z)
| SysLink (old new : list Z)
| SysMkdir (path : list Z)
| SysChdir (path : list Z)
| SysDup (fd : Z)
| SysGetpid
| SysSbrk (n : Z)
| SysSleep (n : Z)
| SysUptime
| SysSemInit (id value : Z)
| SysSemDown (id : Z)
| SysSemUp (id : Z)
| SysShmGet (key : Z).

(** ** Programs *)

(** [Call] continues with the result of the call and the bytes the kernel stored. *)
Inductive prog (A : Type) : Type :=
| Done (a : A)
| Exit (status : Z)
| Stuck (why : string)
| Call (c : call) (k : Z -> list Z -> prog A).
Arguments Done {A} a.
Arguments Exit {A} status.
Arguments Stuck {A} why.
Arguments Call {A} c k.

Fixpoint pbind {A B} (p : prog A) (f : A -> prog B) : prog B :=
  match p with
  | Done a => f a
  | Exit n => Exit n
  | Stuck w => Stuck w
  | Call c k => Call c (fun r d => pbind (k r d) f)
  end.

(** A computation of a program: its memory is passed along. *)
Definition U (A : Type) : Type := mem -> prog (A * mem).

Definition uret {A} (a : A) : U A := fun m => Done (a, m).
Definition ubind {A B} (x : U A) (f : A -> U B) : U B := fun m => pbind (x m) (fun r => f (fst r) (snd r)).
Definition uexit {A} (status : Z) : U A := fun _ => Exit status.
Definition stuck {A} (why : string) : U A := fun _ => Stuck why.
Definition ucall (c : call) : U (Z * list Z) := fun m => Call c (fun r d => Done ((r, d), m)).
Definition umem : U mem := fun m => Done (m, m).
Definition uput (m : mem) : U unit := fun _ => Done (tt, m).

Notation "x <- c1 ;; c2" := (ubind c1 (fun x => c2)) (at level 100, c1 at next level, right associativity) : user_scope.
Notation "e1 ;; e2" := (ubind e1 (fun _ => e2)) (at level 100, right associativity) : user_scope.

(** The loop and string bounds: C loops take a fuel, [None] means it ran out. *)
Definition of_opt {A} (o : option A) : U A := match o with Some a => uret a | None => stuck "fuel" end.

Definition uwhen (b : bool) (x : U unit) : U unit := if b then x else uret tt.

Definition uload8 (a : Z) : U Z := m <- umem ;; uret (m a).
Definition uload32 (a : Z) : U Z := m <- umem ;; uret (load32 m a).
Definition uload64 (a : Z) : U Z := m <- umem ;; uret (load64 m a).
Definition ustore8 (a v : Z) : U unit := m <- umem ;; uput (store8 m a v).
Definition ustore32 (a v : Z) : U unit := m <- umem ;; uput (store32 m a v).
Definition ustore64 (a v : Z) : U unit := m <- umem ;; uput (store64 m a v).

(** ** System call stubs *)

(** A call whose answer is its result *)
Definition sys (c : call) : U Z := r <- ucall c ;; uret (fst r).

(** A call that stores at [p] *)
Definition sys_into (c : call) (p : Z) : U Z :=
  r <- ucall c ;;
  m <- umem ;;
  uput (mem_write m p (snd r)) ;;
  uret (fst r).

Definition sys_write (fd p n : Z) : U Z := m <- umem ;; sys (SysWrite fd (bytes_at m p (Z.to_nat n))).
Definition sys_read (fd p n : Z) : U Z := sys_into (SysRead fd n) p.
Definition sys_fstat (fd p : Z) : U Z := sys_into (SysFstat fd) p.
Definition sys_pipe (p : Z) : U Z := sys_into SysPipe p.

(** The string at [a], of at most [fuel] bytes *)
Fixpoint get_str (fuel : nat) (m : mem) (a : Z) : option (list Z) :=
  match fuel with
  | O => None
  | S f => if m a =? 0 then Some [] else cons (m a) <$> get_str f m (a + 1)
  end.

Definition ustr (fuel : nat) (a : Z) : U (list Z) := m <- umem ;; of_opt (get_str fuel m a).

Definition sys_open (fuel : nat) (path mode : Z) : U Z := s <- ustr fuel path ;; sys (SysOpen s mode).
Definition sys_unlink (fuel : nat) (path : Z) : U Z := s <- ustr fuel path ;; sys (SysUnlink s).
Definition sys_mkdir (fuel : nat) (path : Z) : U Z := s <- ustr fuel path ;; sys (SysMkdir s).
Definition sys_chdir (fuel : nat) (path : Z) : U Z := s <- ustr fuel path ;; sys (SysChdir s).
Definition sys_link (fuel : nat) (old new : Z) : U Z :=
  s <- ustr fuel old ;; t <- ustr fuel new ;; sys (SysLink s t).

(** ** Running a program *)

Class Os (W : Type) : Type := os_answer : call -> W -> Z * list Z * W.

Inductive result (A W : Type) : Type :=
| Returns (a : A) (m : mem) (w : W)
| Exits (status : Z) (w : W)
| Fails (why : string).
Arguments Returns {A W} a m w.
Arguments Exits {A W} status w.
Arguments Fails {A W} why.

Section Run.
Context {W : Type} `{!Os W} {A : Type}.

Fixpoint run_prog (p : prog (A * mem)) (w : W) : result A W :=
  match p with
  | Done a => Returns (fst a) (snd a) w
  | Exit n => Exits n w
  | Stuck s => Fails s
  | Call c k => let '(r, d, w') := os_answer c w in run_prog (k r d) w'
  end.

Definition run (x : U A) (m : mem) (w : W) : result A W := run_prog (x m) w.
End Run.

(** ** Lemmas *)

Section RunLemmas.
Context {W : Type} `{!Os W}.

Lemma run_prog_bind {A B} (p : prog (A * mem)) (f : A * mem -> prog (B * mem)) w :
  run_prog (pbind p f) w =
  match run_prog p w with
  | Returns a m w' => run_prog (f (a, m)) w'
  | Exits n w' => Exits n w'
  | Fails s => Fails s
  end.
Proof.
  revert w. induction p as [[a m]|n|s|c k IH]; intros w; try done. cbn. destruct (os_answer c w) as [[r d] w']. apply IH.
Qed.

Lemma run_bind {A B} (x : U A) (f : A -> U B) m w :
  run (ubind x f) m w =
  match run x m w with
  | Returns a m' w' => run (f a) m' w'
  | Exits n w' => Exits n w'
  | Fails s => Fails s
  end.
Proof. unfold run, ubind. rewrite run_prog_bind. by destruct (run_prog (x m) w). Qed.

Lemma run_ret {A} (a : A) m w : run (uret a) m w = Returns a m w.
Proof. done. Qed.

Lemma run_step {A B} (x : U A) (f : A -> U B) m w a m' w' :
  run x m w = Returns a m' w' -> run (ubind x f) m w = run (f a) m' w'.
Proof. intros H. by rewrite run_bind, H. Qed.

Lemma run_umem m w : run umem m w = Returns m m w.
Proof. done. Qed.

Lemma run_uput m' m w : run (uput m') m w = Returns tt m' w.
Proof. done. Qed.

Lemma run_load8 a m w : run (uload8 a) m w = Returns (m a) m w.
Proof. done. Qed.

Lemma run_store8 a v m w : run (ustore8 a v) m w = Returns tt (store8 m a v) w.
Proof. done. Qed.

Lemma run_opt {A} (o : option A) a m w : o = Some a -> run (of_opt o) m w = Returns a m w.
Proof. by intros ->. Qed.

Lemma run_sys c r d w' m w : os_answer c w = (r, d, w') -> run (sys c) m w = Returns r m w'.
Proof. intros H. unfold sys. rewrite run_bind. unfold run, ucall. cbn. by rewrite H. Qed.

Lemma run_sys_into c p r d w' m w : os_answer c w = (r, d, w') -> run (sys_into c p) m w = Returns r (mem_write m p d) w'.
Proof. intros H. unfold sys_into. rewrite run_bind. unfold run, ucall. cbn. by rewrite H. Qed.
End RunLemmas.

(** One step of a run that does not call the kernel *)
Ltac ustep := rewrite run_bind, ?run_umem, ?run_uput, ?run_load8, ?run_store8, ?run_ret.
