(* ===== verification/Ulib.v ===== *)
(** * user/ulib.c: the C library of user programs

    The string and memory routines as loops over the memory of the program, with a
    bound on the number of bytes a string routine examines; [gets] and [stat] make
    system calls. *)

From stdpp Require Import base list strings.
From Stdlib Require Import ZArith Lia.
From S2P Require Import Prelude Kstring User.

(** ** Definitions *)

(** [while(( *s++ = *t++ ) != 0) ;] *)
Fixpoint strcpy_loop (fuel : nat) (m : mem) (s t : Z) : option mem :=
  match fuel with
  | O => None
  | S f => let c := m t in
           let m := store8 m s c in
           if c =? 0 then Some m else strcpy_loop f m (s + 1) (t + 1)
  end.

Definition strcpy (fuel : nat) (m : mem) (s t : Z) : option mem := strcpy_loop fuel m s t.

(** [while( *p && *p == *q ) p++, q++; return ( uchar )*p - ( uchar )*q;] *)
Fixpoint strcmp (fuel : nat) (m : mem) (p q : Z) : option Z :=
  match fuel with
  | O => None
  | S f => if truth (m p) && (m p =? m q) then strcmp f m (p + 1) (q + 1) else Some (m p - m q)
  end.

(** [for(n = 0; s[n]; n++) ;] *)
Fixpoint strlen_from (fuel : nat) (m : mem) (s n : Z) : option Z :=
  match fuel with
  | O => None
  | S f => if m (s + n) =? 0 then Some n else strlen_from f m s (n + 1)
  end.

Definition strlen (fuel : nat) (m : mem) (s : Z) : option Z := strlen_from fuel m s 0.

(** [for(i = 0; i < n; i++) cdst[i] = c;] *)
Fixpoint memset_from (k : nat) (m : mem) (dst c i : Z) : mem :=
  match k with
  | O => m
  | S k => memset_from k (store8 m (dst + i) c) dst c (i + 1)
  end.

Definition memset (m : mem) (dst c n : Z) : mem := memset_from (Z.to_nat n) m dst c 0.

(** [for(; *s; s++) if( *s == c ) return s; return 0;] *)
Fixpoint strchr (fuel : nat) (m : mem) (s c : Z) : option Z :=
  match fuel with
  | O => None
  | S f => if m s =? 0 then Some 0 else if m s =? c then Some s else strchr f m (s + 1) c
  end.

(** [while('0' <= *s && *s <= '9') n = n*10 + *s++ - '0';] with [int] arithmetic *)
Fixpoint atoi_loop (fuel : nat) (m : mem) (s n : Z) : option Z :=
  match fuel with
  | O => None
  | S f => if (48 <=? m s) && (m s <=? 57) then atoi_loop f m (s + 1) (i32 (n * 10 + m s - 48)) else Some n
  end.

Definition atoi (fuel : nat) (m : mem) (s : Z) : option Z := atoi_loop fuel m s 0.

(** [while(n-- > 0) *dst++ = *src++;] *)
Fixpoint move_up (k : nat) (m : mem) (dst src : Z) : mem :=
  match k with
  | O => m
  | S k => move_up k (store8 m dst (m src)) (dst + 1) (src + 1)
  end.

(** [while(n-- > 0) *--dst = *--src;] *)
Fixpoint move_down (k : nat) (m : mem) (dst src : Z) : mem :=
  match k with
  | O => m
  | S k => move_down k (store8 m (dst - 1) (m (src - 1))) (dst - 1) (src - 1)
  end.

Definition memmove (m : mem) (vdst vsrc n : Z) : mem :=
  if vdst <? vsrc then move_up (Z.to_nat n) m vdst vsrc
  else move_down (Z.to_nat n) m (vdst + n) (vsrc + n).

(** [while(n-- > 0) { if( *p1 != *p2 ) return *p1 - *p2; p1++; p2++; } return 0;] *)
Fixpoint memcmp_from (k : nat) (m : mem) (p1 p2 : Z) : Z :=
  match k with
  | O => 0
  | S k => if negb (m p1 =? m p2) then m p1 - m p2 else memcmp_from k m (p1 + 1) (p2 + 1)
  end.

Definition memcmp (m : mem) (s1 s2 n : Z) : Z := memcmp_from (Z.to_nat n) m s1 s2.

Definition memcpy (m : mem) (dst src n : Z) : mem := memmove m dst src (i32 n).

(** [start]: the entry point of a program *)
Definition start (main : U Z) : U unit :=
  main ;;
  uexit 0.

(** The loop of [gets]; [c] is the address of its local variable. *)
Fixpoint gets_loop (fuel : nat) (buf max c i : Z) : U Z :=
  if i + 1 <? max then
    match fuel with
    | O => stuck "fuel"
    | S f =>
        cc <- sys_read 0 c 1 ;;
        if cc <? 1 then uret i
        else
          x <- uload8 c ;;
          ustore8 (buf + i) x ;;
          if (x =? 10) || (x =? 13) then uret (i + 1) else gets_loop f buf max c (i + 1)
    end
  else uret i.

Definition gets (c buf max : Z) : U Z :=
  i <- gets_loop (Z.to_nat max) buf max c 0 ;;
  ustore8 (buf + i) 0 ;;
  uret buf.

Definition O_RDONLY : Z := 0.

Definition stat (fuel : nat) (n st : Z) : U Z :=
  fd <- sys_open fuel n O_RDONLY ;;
  if fd <? 0 then uret (-1)
  else
    r <- sys_fstat fd st ;;
    sys (SysClose fd) ;;
    uret r.

(** ** Specifications *)

(** [strchr] finds the first occurrence of [c] in the string [l]. *)
Definition index_of (c : Z) (l : list Z) : option nat := fst <$> list_find (fun b => b = c) l.

(** ** Lemmas *)

(** Reading a string *)
Lemma get_str_cstring l : forall fuel m a, cstring m a l -> (length l < fuel)%nat -> get_str fuel m a = Some l.
Proof.
  induction l as [|b l IH]; intros fuel m a H Hf; (destruct fuel as [|f]; [cbn in Hf; lia|]); cbn [get_str].
  - apply cstring_nil in H. by rewrite H.
  - apply cstring_cons in H as (Hb & H0 & H). rewrite Hb, (proj2 (Z.eqb_neq _ _)) by done.
    rewrite (IH f) by (done || cbn in Hf; lia). done.
Qed.

Lemma strchr_spec c l : forall fuel m a, cstring m a l -> (length l < fuel)%nat ->
  strchr fuel m a c = Some (match index_of c l with Some i => a + Z.of_nat i | None => 0 end).
Proof.
  unfold index_of. induction l as [|b l IH]; intros fuel m a H Hf; (destruct fuel as [|f]; [cbn in Hf; lia|]); cbn [strchr].
  - apply cstring_nil in H. by rewrite H.
  - apply cstring_cons in H as (Hb & H0 & H). rewrite Hb, (proj2 (Z.eqb_neq _ _)) by done. cbn [list_find].
    destruct (Z.eqb_spec b c) as [->|Hne].
    + rewrite decide_True by done. cbn. by rewrite Z.add_0_r.
    + rewrite decide_False by done. rewrite (IH f) by (done || cbn in Hf; lia).
      destruct (list_find _ l) as [[i x]|]; cbn; f_equal; lia.
Qed.

Lemma strlen_from_spec l : forall fuel m s n, cstring m (s + n) l -> (length l < fuel)%nat ->
  strlen_from fuel m s n = Some (n + Z.of_nat (length l)).
Proof.
  induction l as [|b l IH]; intros fuel m s n H Hf; (destruct fuel as [|f]; [cbn in Hf; lia|]); cbn [strlen_from].
  - apply cstring_nil in H. rewrite H. cbn. f_equal. lia.
  - apply cstring_cons in H as (Hb & H0 & H). rewrite Hb, (proj2 (Z.eqb_neq _ _)) by done.
    rewrite (IH f); [cbn; f_equal; lia| |cbn in Hf; lia]. by replace (s + (n + 1)) with (s + n + 1) by lia.
Qed.

(** The two loops of [memmove], for bytes *)
Lemma move_up_spec k : forall m d s x, bytes_ok m -> (d <= s \/ s + Z.of_nat k <= d) ->
  move_up k m d s x = if in_range d (Z.of_nat k) x then m (s + (x - d)) else m x.
Proof.
  induction k as [|k IH]; intros m d s x Hm H; cbn [move_up].
  - rewrite (proj2 (in_range_false _ _ _)) by lia. done.
  - rewrite IH; [|by apply store_ok|lia]. destruct (in_range (d + 1) (Z.of_nat k) x) eqn:Ei.
    + apply in_range_true in Ei. rewrite (proj2 (in_range_true _ _ _)) by lia. rewrite store8_ne by lia. f_equal. lia.
    + apply in_range_false in Ei. destruct (decide (x = d)) as [->|Hne].
      * rewrite store8_at, (proj2 (in_range_true _ _ _)), Z.sub_diag, Z.add_0_r by lia. apply uint_wrap_small, Hm.
      * rewrite store8_ne by done. rewrite (proj2 (in_range_false _ _ _)) by lia. done.
Qed.

Lemma move_down_spec k : forall m d s x, bytes_ok m -> s <= d ->
  move_down k m d s x = if in_range (d - Z.of_nat k) (Z.of_nat k) x then m (s - (d - x)) else m x.
Proof.
  induction k as [|k IH]; intros m d s x Hm H; cbn [move_down].
  - rewrite (proj2 (in_range_false _ _ _)) by lia. done.
  - rewrite IH; [|by apply store_ok|lia]. destruct (in_range (d - 1 - Z.of_nat k) (Z.of_nat k) x) eqn:Ei.
    + apply in_range_true in Ei. rewrite (proj2 (in_range_true _ _ _)) by lia. rewrite store8_ne by lia. f_equal. lia.
    + apply in_range_false in Ei. destruct (decide (x = d - 1)) as [->|Hne].
      * rewrite store8_at, (proj2 (in_range_true _ _ _)) by lia. rewrite uint_wrap_small by apply Hm. f_equal. lia.
      * rewrite store8_ne by done. rewrite (proj2 (in_range_false _ _ _)) by lia. done.
Qed.

(** [memmove] copies the source as it was, whatever the overlap. *)
Lemma memmove_spec m d s n x : bytes_ok m -> 0 <= n -> memmove m d s n x = mem_copy m d s n x.
Proof.
  intros Hm Hn. unfold memmove. destruct (Z.ltb_spec d s).
  - rewrite move_up_spec by (done || lia). unfold mem_copy. by rewrite Z2Nat.id.
  - rewrite move_down_spec by (done || lia). unfold mem_copy. rewrite Z2Nat.id by done.
    replace (d + n - n) with d by lia. destruct (in_range d n x); [|done]. f_equal. lia.
Qed.
