(* ===== verification/Uprintf.v ===== *)
(** * user/printf.c: formatted output of user programs

    Characters are written one by one.  The variadic arguments are a list of
    machine words, converted by [va_arg] to the type the call names; a [%s]
    argument is a pointer. *)

From stdpp Require Import base list strings.
From Stdlib Require Import ZArith Lia.
From S2P Require Import Prelude User.

(** ** Definitions *)

Definition digits : list Z := [48; 49; 50; 51; 52; 53; 54; 55; 56; 57; 65; 66; 67; 68; 69; 70].
Definition digit (d : Z) : Z := default 0 (digits !! Z.to_nat d).

Definition putc (fd c : Z) : U unit := sys (SysWrite fd [u8 c]) ;; uret tt.

Fixpoint putcs (fd : Z) (l : list Z) : U unit :=
  match l with
  | [] => uret tt
  | c :: l => putc fd c ;; putcs fd l
  end.

(** [do { buf[i++] = digits[x % base]; } while((x /= base) != 0);] *)
Fixpoint printint_digits (fuel : nat) (x base : Z) (buf : list Z) : option (list Z) :=
  match fuel with
  | O => None
  | S f =>
      let buf := buf ++ [digit (x mod base)] in
      let x := x / base in
      if x =? 0 then Some buf else printint_digits f x base buf
  end.

(** [x] has type [uint]; the digits are in [char buf[20]]. *)
Definition printint (fd xx base : Z) (sgn : bool) : U unit :=
  let neg := sgn && (xx <? 0) in
  let x := if neg then u32 (- xx) else u32 xx in
  buf <- of_opt (printint_digits 32 x base []) ;;
  let buf := if neg then buf ++ [45] else buf in
  if (20 <? length buf)%nat then stuck "printint: buf" else putcs fd (reverse buf).

(** [for (i = 0; i < 16; i++, x <<= 4) putc(fd, digits[x >> 60]);] *)
Fixpoint printptr_digits (k : nat) (fd x : Z) : U unit :=
  match k with
  | O => uret tt
  | S k => putc fd (digit (Z.shiftr x 60)) ;; printptr_digits k fd (u64 (Z.shiftl x 4))
  end.

Definition printptr (fd x : Z) : U unit :=
  putc fd 48 ;;
  putc fd 120 ;;
  printptr_digits 16 fd x.

(** [va_arg] *)
Definition va_arg (ap : list Z) : U (Z * list Z) :=
  match ap with
  | v :: ap => uret (v, ap)
  | [] => stuck "va_arg"
  end.

Definition null_str : list Z := [40; 110; 117; 108; 108; 41].

(** The conversion at [fmt] after a [%]: how many more bytes of the format it takes *)
Definition conversion (fuel : nat) (fd : Z) (fmt : list Z) (ap : list Z) : U (nat * list Z) :=
  let c0 := default 0 (fmt !! 0%nat) in
  let c1 := if truth c0 then default 0 (fmt !! 1%nat) else 0 in
  let c2 := if truth c1 then default 0 (fmt !! 2%nat) else 0 in
  if c0 =? 100 then
    v <- va_arg ap ;; printint fd (i32 (fst v)) 10 true ;; uret (0%nat, snd v)
  else if (c0 =? 108) && (c1 =? 100) then
    v <- va_arg ap ;; printint fd (i64 (fst v)) 10 true ;; uret (1%nat, snd v)
  else if (c0 =? 108) && (c1 =? 108) && (c2 =? 100) then
    v <- va_arg ap ;; printint fd (i64 (fst v)) 10 true ;; uret (2%nat, snd v)
  else if c0 =? 117 then
    v <- va_arg ap ;; printint fd (u32 (fst v)) 10 false ;; uret (0%nat, snd v)
  else if (c0 =? 108) && (c1 =? 117) then
    v <- va_arg ap ;; printint fd (i64 (fst v)) 10 false ;; uret (1%nat, snd v)
  else if (c0 =? 108) && (c1 =? 108) && (c2 =? 117) then
    v <- va_arg ap ;; printint fd (i64 (fst v)) 10 false ;; uret (2%nat, snd v)
  else if c0 =? 120 then
    v <- va_arg ap ;; printint fd (u32 (fst v)) 16 false ;; uret (0%nat, snd v)
  else if (c0 =? 108) && (c1 =? 120) then
    v <- va_arg ap ;; printint fd (i64 (fst v)) 16 false ;; uret (1%nat, snd v)
  else if (c0 =? 108) && (c1 =? 108) && (c2 =? 120) then
    v <- va_arg ap ;; printint fd (i64 (fst v)) 16 false ;; uret (2%nat, snd v)
  else if c0 =? 112 then
    v <- va_arg ap ;; printptr fd (u64 (fst v)) ;; uret (0%nat, snd v)
  else if c0 =? 99 then
    v <- va_arg ap ;; putc fd (u32 (fst v)) ;; uret (0%nat, snd v)
  else if c0 =? 115 then
    v <- va_arg ap ;;
    s <- (if fst v =? 0 then uret null_str else ustr fuel (fst v)) ;;
    putcs fd s ;;
    uret (0%nat, snd v)
  else if c0 =? 37 then
    putc fd 37 ;; uret (0%nat, ap)
  else
    putc fd 37 ;; putc fd c0 ;; uret (0%nat, ap).

(** The loop over [fmt]; [pct] is the state ['%'], [skip] the bytes a conversion took. *)
Fixpoint vprintf_loop (fuel : nat) (fd : Z) (pct : bool) (skip : nat) (fmt : list Z) (ap : list Z) : U unit :=
  match fmt with
  | [] => uret tt
  | c :: rest =>
      match skip with
      | S k => vprintf_loop fuel fd false k rest ap
      | O =>
          if pct then
            r <- conversion fuel fd fmt ap ;;
            vprintf_loop fuel fd false (fst r) rest (snd r)
          else if c =? 37 then vprintf_loop fuel fd true 0 rest ap
          else putc fd c ;; vprintf_loop fuel fd false 0 rest ap
      end
  end.

Definition vprintf (fuel : nat) (fd : Z) (fmt : list Z) (ap : list Z) : U unit := vprintf_loop fuel fd false 0 fmt ap.

Definition fprintf (fuel : nat) (fd : Z) (fmt : list Z) (ap : list Z) : U unit := vprintf fuel fd fmt ap.
Definition printf (fuel : nat) (fmt : list Z) (ap : list Z) : U unit := vprintf fuel 1 fmt ap.

(** String literals *)
Fixpoint lit (s : string) : list Z :=
  match s with
  | EmptyString => []
  | String c s => Z.of_N (Ascii.N_of_ascii c) :: lit s
  end.
Definition litn (s : string) : list Z := lit s ++ [10].
