(* ===== verification/Grep.v ===== *)
(** * user/grep.c: searching lines for a pattern

    [match] on the strings in memory, the loop of [grep] over a buffer that is
    filled by [read], and [main].  The specification is the meaning of a pattern
    as a relation between a pattern and a text, and the list of the lines of the
    input that match. *)

From stdpp Require Import base list strings.
From Stdlib Require Import ZArith Lia.
From S2P Require Import Prelude Kstring User Ulib Uprintf.

(** ** Definitions *)

Definition CARET : Z := 94.
Definition DOLLAR : Z := 36.
Definition STAR : Z := 42.
Definition DOT : Z := 46.
Definition NL : Z := 10.

(** [matchhere], and the [do ... while] of [matchstar]; [None] when the fuel ran out *)
Fixpoint matchhere (fuel : nat) (m : mem) (re text : Z) : option bool :=
  match fuel with
  | O => None
  | S f =>
      if m re =? 0 then Some true
      else if m (re + 1) =? STAR then matchstar f m (m re) (re + 2) text
      else if (m re =? DOLLAR) && (m (re + 1) =? 0) then Some (m text =? 0)
      else if truth (m text) && ((m re =? DOT) || (m re =? m text)) then matchhere f m (re + 1) (text + 1)
      else Some false
  end
with matchstar (fuel : nat) (m : mem) (c re text : Z) : option bool :=
  match fuel with
  | O => None
  | S f =>
      match matchhere f m re text with
      | None => None
      | Some true => Some true
      | Some false =>
          if truth (m text) && ((m text =? c) || (c =? DOT)) then matchstar f m c re (text + 1)
          else Some false
      end
  end.

(** The [do ... while] of [match] *)
Fixpoint match_loop (fuel : nat) (m : mem) (re text : Z) : option bool :=
  match fuel with
  | O => None
  | S f =>
      match matchhere f m re text with
      | None => None
      | Some true => Some true
      | Some false => if truth (m text) then match_loop f m re (text + 1) else Some false
      end
  end.

Definition match_ (fuel : nat) (m : mem) (re text : Z) : option bool :=
  if m re =? CARET then matchhere fuel m (re + 1) text else match_loop fuel m re text.

Section Grep.
(** The address of [buf], and a bound on strings and loops *)
Context (buf : Z) (fuel : nat).

Definition BUFSZ : Z := 1024.

(** The inner loop: the lines of the buffer; returns the final [p]. *)
Fixpoint grep_lines (f : nat) (pattern p : Z) : U Z :=
  match f with
  | O => stuck "fuel"
  | S f =>
      m <- umem ;;
      q <- of_opt (strchr fuel m p NL) ;;
      if q =? 0 then uret p
      else
        ustore8 q 0 ;;
        m <- umem ;;
        b <- of_opt (match_ fuel m pattern p) ;;
        uwhen b (ustore8 q NL ;; sys_write 1 p (q + 1 - p) ;; uret tt) ;;
        grep_lines f pattern (q + 1)
  end.

Fixpoint grep_loop (f : nat) (pattern fd m : Z) : U unit :=
  match f with
  | O => stuck "fuel"
  | S f =>
      n <- sys_read fd (buf + m) (BUFSZ - m - 1) ;;
      if n <=? 0 then uret tt
      else
        let m := m + n in
        ustore8 (buf + m) 0 ;;
        p <- grep_lines fuel pattern buf ;;
        if 0 <? m then
          let m := m - (p - buf) in
          mm <- umem ;;
          uput (memmove mm buf p m) ;;
          grep_loop f pattern fd m
        else grep_loop f pattern fd m
  end.

Definition grep (pattern fd : Z) : U unit := grep_loop fuel pattern fd 0.
End Grep.

(** ** [main] *)

Section Main.
Context (buf : Z) (fuel : nat).

Definition argv_at (argv i : Z) : U Z := uload64 (argv + 8 * i).

(** [for(i = 2; i < argc; i++)] *)
Fixpoint grep_files (f : nat) (pattern argc argv i : Z) : U unit :=
  if i <? argc then
    match f with
    | O => stuck "fuel"
    | S f =>
        a <- argv_at argv i ;;
        fd <- sys_open fuel a O_RDONLY ;;
        if fd <? 0 then
          printf fuel (litn "grep: cannot open %s") [a] ;;
          uexit 1
        else
          grep buf fuel pattern fd ;;
          sys (SysClose fd) ;;
          grep_files f pattern argc argv (i + 1)
    end
  else uret tt.

Definition grep_main (argc argv : Z) : U Z :=
  if argc <=? 1 then
    fprintf fuel 2 (litn "usage: grep pattern [file ...]") [] ;;
    uexit 1
  else
    pattern <- argv_at argv 1 ;;
    if argc <=? 2 then
      grep buf fuel pattern 0 ;;
      uexit 0
    else
      grep_files (Z.to_nat argc) pattern argc argv 2 ;;
      uexit 0.
End Main.

(** ** Specification *)

(** Pattern [re] matches a prefix of a text. *)
Inductive here : list Z -> list Z -> Prop :=
| here_nil t : here [] t
| here_star c re run t : Forall (fun b => c = DOT \/ b = c) run -> here re t -> here (c :: STAR :: re) (run ++ t)
| here_end : here [DOLLAR] []
| here_char c re b t : head re <> Some STAR -> ~ (c = DOLLAR /\ re = []) -> c = DOT \/ c = b -> here re t ->
    here (c :: re) (b :: t).

(** Pattern [re] matches somewhere in the text, at its start after a [^]. *)
Definition matches (re text : list Z) : Prop :=
  match re with
  | c :: re' => if c =? CARET then here re' text else exists pre t, text = pre ++ t /\ here re t
  | [] => True
  end.

(** The complete lines of a text, and what is left after the last newline *)
Fixpoint lines (l : list Z) : list (list Z) * list Z :=
  match l with
  | [] => ([], [])
  | b :: l =>
      let '(ls, r) := lines l in
      if b =? NL then ([] :: ls, r)
      else match ls with
           | [] => ([], b :: r)
           | x :: ls => ((b :: x) :: ls, r)
           end
  end.

(** ** The matcher on strings *)

Fixpoint mstar (h : list Z -> bool) (c : Z) (text : list Z) : bool :=
  h text ||
  match text with
  | [] => false
  | t :: text => ((t =? c) || (c =? DOT)) && mstar h c text
  end.

(** [c] is a single character of the pattern, [h] matches the rest of it. *)
Definition mchar (c : Z) (last : bool) (h : list Z -> bool) (text : list Z) : bool :=
  if (c =? DOLLAR) && last then bool_decide (text = [])
  else match text with
       | [] => false
       | t :: text => ((c =? DOT) || (c =? t)) && h text
       end.

Fixpoint mhere (re text : list Z) : bool :=
  match re with
  | [] => true
  | c :: re1 =>
      match re1 with
      | [] => mchar c true (mhere re1) text
      | d :: re2 => if d =? STAR then mstar (mhere re2) c text else mchar c false (mhere re1) text
      end
  end.

Fixpoint msearch (re text : list Z) : bool :=
  mhere re text || match text with [] => false | _ :: text => msearch re text end.

Definition mmatch (re text : list Z) : bool :=
  match re with
  | c :: re' => if c =? CARET then mhere re' text else msearch re text
  | [] => msearch re text
  end.

Lemma mstar_here h c re text : (forall t, h t = true <-> here re t) ->
  mstar h c text = true <-> exists run t, text = run ++ t /\ Forall (fun b => c = DOT \/ b = c) run /\ here re t.
Proof.
  intros Hh. induction text as [|b text IH]; cbn [mstar].
  - rewrite orb_false_r, Hh. split.
    + intros H. exists [], []. done.
    + intros (run & t & Hrt & _ & H). symmetry in Hrt. by apply app_eq_nil in Hrt as [_ ->].
  - rewrite orb_true_iff, andb_true_iff, orb_true_iff, !Z.eqb_eq, IH, Hh. split.
    + intros [H|[Hb (run & t & -> & Hr & H)]]; [by exists [], (b :: text)|].
      exists (b :: run), t. split; [done|]. split; [|done]. apply Forall_cons. split; [tauto|done].
    + intros ([|b' run] & t & Hrt & Hr & H); cbn in Hrt; [left; by subst t|].
      injection Hrt as -> ->. apply Forall_cons in Hr as [Hb Hr]. right. split; [tauto|]. by exists run, t.
Qed.

Lemma mchar_here c re text h : (forall t, h t = true <-> here re t) -> head re <> Some STAR ->
  mchar c (bool_decide (re = [])) h text = true <-> here (c :: re) text.
Proof.
  intros Hh Hs. unfold mchar. destruct ((c =? DOLLAR) && bool_decide (re = [])) eqn:El.
  - apply andb_true_iff in El as [->%Z.eqb_eq ->%bool_decide_eq_true]. rewrite bool_decide_eq_true. split.
    + intros ->. apply here_end.
    + intros H. inversion H; subst; [done|]. naive_solver.
  - assert (Hne : ~ (c = DOLLAR /\ re = [])).
    { intros [-> ->]. done. }
    destruct text as [|b text].
    + split; [done|]. intros H. inversion H; subst; [done|naive_solver].
    + rewrite andb_true_iff, orb_true_iff, !Z.eqb_eq, Hh. split.
      * intros [Hc H]. by apply here_char.
      * intros H. inversion H; subst; [done|done].
Qed.

Lemma mhere_here_n n : forall re, (length re <= n)%nat -> forall text, mhere re text = true <-> here re text.
Proof.
  induction n as [|n IH]; intros re Hn text; (destruct re as [|c re]; [split; [intros _; apply here_nil|done]|]); cbn in Hn; [lia|].
  cbn [mhere]. destruct re as [|d re].
  - apply (mchar_here c []); [|done]. intros t. apply IH. cbn. lia.
  - destruct (Z.eqb_spec d STAR) as [->|Hd].
    + rewrite (mstar_here _ c re) by (intros t; apply IH; cbn in Hn; lia). split.
      * intros (run & t & -> & Hr & H). by apply here_star.
      * intros H. inversion H; subst; [by eexists _, _|done].
    + apply (mchar_here c (d :: re)); [|cbn; congruence]. intros t. apply IH. lia.
Qed.

Lemma mhere_here re text : mhere re text = true <-> here re text.
Proof. by apply (mhere_here_n (length re)). Qed.

Lemma msearch_here re text : msearch re text = true <-> exists pre t, text = pre ++ t /\ here re t.
Proof.
  induction text as [|b text IH]; cbn [msearch].
  - rewrite orb_false_r, mhere_here. split.
    + intros H. by exists [], [].
    + intros (pre & t & Hpt & H). symmetry in Hpt. by apply app_eq_nil in Hpt as [_ ->].
  - rewrite orb_true_iff, mhere_here, IH. split.
    + intros [H|(pre & t & -> & H)]; [by exists [], (b :: text)|by exists (b :: pre), t].
    + intros ([|b' pre] & t & Hpt & H); cbn in Hpt; [left; by subst t|]. injection Hpt as -> ->. right. by exists pre, t.
Qed.

(** The matcher decides the relation. *)
Lemma mmatch_matches re text : mmatch re text = true <-> matches re text.
Proof.
  unfold mmatch, matches. destruct re as [|c re].
  - split; [done|]. intros _. by destruct text.
  - destruct (c =? CARET); [apply mhere_here|apply msearch_here].
Qed.

(** ** The matcher in memory *)

(** The first two bytes of a string *)
Lemma cstring_head m a l : cstring m a l -> m a = default 0 (head l).
Proof. destruct l as [|b l]; intros H; [by apply cstring_nil in H|]. by apply cstring_cons in H as (-> & _). Qed.

Lemma cstring_tail m a b l : cstring m a (b :: l) -> cstring m (a + 1) l /\ b <> 0.
Proof. intros H. by apply cstring_cons in H as (_ & ? & ?). Qed.

Definition need (r t : list Z) : nat := 2 * length r + length t.

Lemma matchstar_spec m c re r : (forall f text t, cstring m text t -> (need r t < f)%nat -> matchhere f m re text = Some (mhere r t)) ->
  forall t f text, cstring m text t -> (S (need r t) < f)%nat -> matchstar f m c re text = Some (mstar (mhere r) c t).
Proof.
  intros Hh. induction t as [|b t IH]; intros f text H Hf; (destruct f as [|f]; [lia|]); cbn [matchstar mstar].
  - rewrite (Hh f text []) by (done || lia). rewrite (cstring_head _ _ _ H). cbn. by destruct (mhere r []).
  - rewrite (Hh f text (b :: t)) by (done || lia). rewrite (cstring_head _ _ _ H). cbn [head from_option id].
    destruct (cstring_tail _ _ _ _ H) as [H' Hb]. rewrite (proj2 (truth_true b)) by done. cbn [andb].
    destruct (mhere r (b :: t)); [done|]. cbn [orb]. destruct ((b =? c) || (c =? DOT)); [|done].
    apply IH; [done|]. unfold need in *. cbn in Hf. lia.
Qed.

Lemma matchhere_spec_n n m : forall r re f text t, (length r <= n)%nat -> cstring m re r -> cstring m text t -> (need r t < f)%nat ->
  matchhere f m re text = Some (mhere r t).
Proof.
  induction n as [|n IH]; intros r re f text t Hn Hr Ht Hf; (destruct f as [|f]; [lia|]); cbn [matchhere];
    rewrite (cstring_head _ _ _ Hr); (destruct r as [|c r]; [done|]); cbn in Hn; [lia|].
  destruct (cstring_tail _ _ _ _ Hr) as [Hr1 Hc]. cbn [head from_option id]. rewrite (proj2 (Z.eqb_neq c 0)) by done.
  rewrite (cstring_head _ _ _ Hr1). cbn [mhere].
  assert (Hsingle : (if truth (m text) && ((c =? DOT) || (c =? m text)) then matchhere f m (re + 1) (text + 1) else Some false) =
    Some (match t with [] => false | b :: t => ((c =? DOT) || (c =? b)) && mhere r t end)).
  { rewrite (cstring_head _ _ _ Ht). destruct t as [|b t]; [done|]. destruct (cstring_tail _ _ _ _ Ht) as [Ht1 Hb].
    cbn [head from_option id]. rewrite (proj2 (truth_true b)) by done. cbn [andb]. destruct ((c =? DOT) || (c =? b)); [|done].
    apply IH; [lia|done|done|]. unfold need in *. cbn in Hf. lia. }
  destruct r as [|d r]; cbn [head from_option id].
  - change (0 =? STAR) with false. change (0 =? 0) with true. unfold mchar. cbv iota.
    destruct (c =? DOLLAR); cbn [andb]; [|exact Hsingle]. rewrite (cstring_head _ _ _ Ht). f_equal.
    destruct t as [|b t]; [done|]. destruct (cstring_tail _ _ _ _ Ht) as [_ Hb]. cbn. by apply Z.eqb_neq.
  - destruct (cstring_tail _ _ _ _ Hr1) as [Hr2 Hd]. destruct (Z.eqb_spec d STAR) as [->|Hs].
    + apply matchstar_spec; [|done|unfold need in *; cbn in Hf; lia].
      intros f' text' t' Ht' Hf'. apply IH; [cbn in Hn; lia|by replace (re + 2) with (re + 1 + 1) by lia|done|done].
    + rewrite (proj2 (Z.eqb_neq d 0)) by done. unfold mchar. rewrite !andb_false_r. exact Hsingle.
Qed.

Lemma matchhere_spec m r re f text t : cstring m re r -> cstring m text t -> (need r t < f)%nat ->
  matchhere f m re text = Some (mhere r t).
Proof. by apply (matchhere_spec_n (length r)). Qed.

Lemma match_loop_spec m re r : cstring m re r -> forall t f text, cstring m text t -> (S (need r t) < f)%nat ->
  match_loop f m re text = Some (msearch r t).
Proof.
  intros Hr. induction t as [|b t IH]; intros f text H Hf; (destruct f as [|f]; [lia|]); cbn [match_loop msearch];
    rewrite (matchhere_spec m r re f text _ Hr H) by lia; rewrite (cstring_head _ _ _ H).
  - by destruct (mhere r []).
  - destruct (cstring_tail _ _ _ _ H) as [H' Hb]. cbn [head from_option id]. rewrite (proj2 (truth_true b)) by done.
    destruct (mhere r (b :: t)); [done|]. apply IH; [done|]. unfold need in *. cbn in Hf. lia.
Qed.

Lemma match_spec m re r text t f : cstring m re r -> cstring m text t -> (S (need r t) < f)%nat ->
  match_ f m re text = Some (mmatch r t).
Proof.
  intros Hr Ht Hf. unfold match_. rewrite (cstring_head _ _ _ Hr). destruct r as [|c r].
  - change (default 0 (head []) =? CARET) with false. by apply match_loop_spec.
  - cbn [head from_option id mmatch]. destruct (c =? CARET); [|by apply match_loop_spec].
    apply matchhere_spec; [by apply (cstring_tail _ _ _ _ Hr)|done|]. unfold need in *. cbn in Hf. lia.
Qed.

(** ** Lines *)

Lemma lines_none l : NL ∉ l -> lines l = ([], l).
Proof.
  induction l as [|b l IH]; intros H; [done|]. apply not_elem_of_cons in H as [Hb H]. cbn. rewrite IH by done.
  by rewrite (proj2 (Z.eqb_neq b NL)) by congruence.
Qed.

Lemma lines_cons pre l : NL ∉ pre -> lines (pre ++ NL :: l) = (pre :: fst (lines l), snd (lines l)).
Proof.
  induction pre as [|b pre IH]; intros H; cbn.
  - by destruct (lines l).
  - apply not_elem_of_cons in H as [Hb H]. rewrite IH by done. by rewrite (proj2 (Z.eqb_neq b NL)) by congruence.
Qed.

Lemma index_none c l : index_of c l = None -> c ∉ l.
Proof.
  unfold index_of. destruct (list_find _ l) as [[i x]|] eqn:E; [done|]. intros _ Hc.
  apply list_find_None in E. by apply (proj1 (Forall_forall _ _) E c Hc).
Qed.

Lemma index_some c l i : index_of c l = Some i -> l = take i l ++ c :: drop (S i) l /\ c ∉ take i l /\ (i < length l)%nat.
Proof.
  unfold index_of. destruct (list_find _ l) as [[j x]|] eqn:E; [|done]. cbn. intros [= ->].
  apply list_find_Some in E as (Hi & -> & Hlt). split; [|split].
  - by rewrite take_drop_middle.
  - intros Hc. apply list_elem_of_lookup in Hc as [j Hj]. apply lookup_take_Some in Hj as [Hj Hji]. by apply (Hlt j c).
  - by apply lookup_lt_Some in Hi.
Qed.

(** Cutting the text at any point cuts the list of lines. *)
Lemma lines_app a b : lines (a ++ b) = (fst (lines a) ++ fst (lines (snd (lines a) ++ b)), snd (lines (snd (lines a) ++ b))).
Proof.
  induction a as [|x a IH]; cbn; [by destruct (lines b)|]. rewrite IH. destruct (lines a) as [la ra]. cbn [fst snd].
  destruct (x =? NL) eqn:Ex; [done|]. destruct la as [|y la]; [|done]. cbn [fst snd app].
  cbn [lines]. rewrite Ex. by destruct (lines (ra ++ b)) as [[|y lb] rb].
Qed.

Lemma lines_rest l : NL ∉ snd (lines l).
Proof.
  induction l as [|b l IH]; cbn; [apply not_elem_of_nil|]. destruct (lines l) as [ls r]. cbn in *.
  destruct (Z.eqb_spec b NL); [done|]. destruct ls; [|done]. cbn. apply not_elem_of_cons. by split; [congruence|].
Qed.

Lemma lines_rest_length l : (length (snd (lines l)) <= length l)%nat.
Proof.
  induction l as [|b l IH]; cbn; [done|]. destruct (lines l) as [ls r]. cbn in *. destruct (b =? NL); [cbn; lia|].
  destruct ls; cbn; lia.
Qed.

Lemma lines_prefix pend t : NL ∉ pend ->
  lines (pend ++ t) = match lines t with ([], r) => ([], pend ++ r) | (x :: ls, r) => ((pend ++ x) :: ls, r) end.
Proof.
  induction pend as [|b pend IH]; intros H; cbn; [by destruct (lines t) as [[|x ls] r]|].
  apply not_elem_of_cons in H as [Hb H]. rewrite IH by done. rewrite (proj2 (Z.eqb_neq b NL)) by congruence.
  by destruct (lines t) as [[|x ls] r].
Qed.

Lemma lines_nil l : fst (lines l) = [] -> snd (lines l) = l.
Proof.
  induction l as [|b l IH]; cbn; [done|]. destruct (lines l) as [[|x ls] r]; cbn in *; destruct (b =? NL); try done.
  intros _. cbn. by rewrite IH.
Qed.

Lemma lines_suffix l : exists pre, l = pre ++ snd (lines l).
Proof.
  induction l as [|b l [pre IH]]; [by exists []|]. destruct (fst (lines (b :: l))) eqn:E.
  - exists []. by rewrite lines_nil.
  - exists (b :: pre). cbn in *. destruct (lines l) as [ls r]. cbn in *.
    destruct (b =? NL); [by rewrite IH at 1|]. destruct ls; [done|]. cbn. by rewrite IH at 1.
Qed.

(** The input a program reads and the output it writes *)
Class Stdio (W : Type) `{!Os W} (fd : Z) (input output : W -> list Z) : Prop := {
  io_read w n : 0 < n -> exists k w', os_answer (SysRead fd n) w = (Z.of_nat k, take k (input w), w') /\
    Z.of_nat k <= n /\ (k <= length (input w))%nat /\ (input w <> [] -> (0 < k)%nat) /\
    input w' = drop k (input w) /\ output w' = output w;
  io_write w l : exists r d w', os_answer (SysWrite 1 l) w = (r, d, w') /\ input w' = input w /\ output w' = output w ++ l
}.

(** The lines a pattern selects, with their newlines *)
Definition selected (re : list Z) (ls : list (list Z)) : list Z := concat ((fun l => l ++ [NL]) <$> filter (fun l => mmatch re l = true) ls).

Lemma selected_app re a b : selected re (a ++ b) = selected re a ++ selected re b.
Proof. unfold selected. by rewrite filter_app, fmap_app, concat_app. Qed.

(** ** [grep] *)

Lemma cstring_app m p a b : cstring m p (a ++ b) -> cstring m (p + Z.of_nat (length a)) b /\ Forall (fun b => b <> 0) a /\ bytes_at m p (length a) = a.
Proof.
  revert p. induction a as [|x a IH]; intros p H.
  - cbn. rewrite Z.add_0_r. done.
  - cbn [app] in H. apply cstring_cons in H as (Hx & H0 & H). destruct (IH _ H) as (H1 & H2 & H3). split; [|split].
    + cbn [length]. by replace (p + Z.of_nat (S (length a))) with (p + 1 + Z.of_nat (length a)) by lia.
    + by apply Forall_cons.
    + cbn [length]. by rewrite bytes_at_S, Hx, H3.
Qed.

(** Ending the string early *)
Lemma cstring_cut m p a b : cstring m p (a ++ b) -> b <> [] -> cstring (store8 m (p + Z.of_nat (length a)) 0) p a.
Proof.
  intros H Hb. destruct (cstring_app m p a b H) as (_ & H2 & H3). split; [|split; [done|]].
  - transitivity (bytes_at m p (length a)); [|done]. apply bytes_at_ext. intros i Hi. rewrite store8_ne by lia. done.
  - by rewrite store8_at.
Qed.

Section GrepProof.
Context {W : Type} `{!Os W} (fd : Z) (input output : W -> list Z) `{!Stdio W fd input output}.
Context (buf pattern : Z) (re : list Z) (fuel : nat).

(** The pattern is apart from the bytes from [a] to [b]. *)
Definition apart (a b : Z) : Prop := forall x, pattern <= x <= pattern + Z.of_nat (length re) -> ~ (a <= x <= b).

Lemma pattern_kept m m' a b : apart a b -> (forall x, ~ (a <= x <= b) -> m' x = m x) -> cstring m pattern re -> cstring m' pattern re.
Proof. intros Ha Hm. apply cstring_ext. intros x Hx. symmetry. by apply Hm, Ha. Qed.

Lemma write_run p n m w : exists r w', run (sys_write 1 p n) m w = Returns r m w' /\ input w' = input w /\
  output w' = output w ++ bytes_at m p (Z.to_nat n).
Proof.
  destruct (io_write w (bytes_at m p (Z.to_nat n))) as (r & d & w' & E & H). exists r, w'. split; [|done].
  unfold sys_write. ustep. by apply (run_sys _ _ d).
Qed.

(** One line: it is written if it matches, with its newline put back. *)
Lemma line_run line l p m w : cstring m p (line ++ NL :: l) -> cstring m pattern re -> apart p (p + Z.of_nat (length line)) ->
  (S (need re line) < fuel)%nat -> bytes_ok m ->
  let q := p + Z.of_nat (length line) in
  exists m' w', run (ustore8 q 0 ;; m <- umem ;; b <- of_opt (match_ fuel m pattern p) ;;
      uwhen b (ustore8 q NL ;; sys_write 1 p (q + 1 - p) ;; uret tt)) m w = Returns tt m' w' /\
    input w' = input w /\ output w' = output w ++ selected re [line] /\ bytes_ok m' /\ (forall x, x <> q -> m' x = m x).
Proof.
  intros H Hre Ha Hf Hm q. assert (Hc : cstring (store8 m q 0) p line) by (by apply (cstring_cut m p line (NL :: l))).
  assert (Hre' : cstring (store8 m q 0) pattern re).
  { apply (pattern_kept m _ p q); [done| |done]. intros x Hx. apply store8_ne. lia. }
  ustep. ustep. rewrite run_bind, (run_opt _ _ _ _ (match_spec _ _ _ _ _ _ Hre' Hc Hf)).
  unfold selected. rewrite filter_cons, filter_nil. unfold uwhen. destruct (mmatch re line) eqn:Em.
  - rewrite decide_True by done. ustep. rewrite run_bind.
    destruct (write_run p (q + 1 - p) (store8 (store8 m q 0) q NL) w) as (r & w' & E & Hi & Ho). rewrite E, run_ret.
    eexists _, w'. split; [done|]. split; [done|]. split; [|split; [by apply store_ok, store_ok|]].
    + rewrite Ho. cbn. rewrite app_nil_r. f_equal.
      replace (Z.to_nat (q + 1 - p)) with (length (line ++ [NL])) by (rewrite length_app; cbn; unfold q; lia).
      assert (Hl : bytes_at m p (length (line ++ [NL])) = line ++ [NL]).
      { replace (line ++ NL :: l) with ((line ++ [NL]) ++ l) in H by (by rewrite <- app_assoc). by apply cstring_app in H as (_ & _ & ?). }
      transitivity (bytes_at m p (length (line ++ [NL]))); [|done]. apply bytes_at_ext. intros i Hi'. destruct (decide (p + i = q)) as [->|Hne].
      * rewrite store8_at. apply cstring_app in H as (H & _). fold q in H. rewrite (cstring_head _ _ _ H). done.
      * by rewrite !store8_ne.
    + intros x Hx. by rewrite !store8_ne.
  - rewrite decide_False by done. rewrite run_ret. eexists _, w. split; [done|]. split; [done|].
    split; [by rewrite app_nil_r|]. split; [by apply store_ok|]. intros x Hx. by apply store8_ne.
Qed.

(** The fuel covers a pattern, a full buffer and a loop. *)
Definition enough (n : nat) : Prop := (2 * length re + n + 2 < fuel)%nat.

Lemma run_assoc {A B C} (x : U A) (f : A -> U B) (g : B -> U C) m w :
  run (ubind x (fun a => ubind (f a) g)) m w = run (ubind (ubind x f) g) m w.
Proof. rewrite !run_bind. destruct (run x m w); [|done|done]. by rewrite run_bind. Qed.

Lemma grep_lines_run f : forall l p m w, cstring m p l -> cstring m pattern re -> 0 < p -> apart p (p + Z.of_nat (length l)) ->
  bytes_ok m -> (length l < f)%nat -> enough (length l) ->
  exists m' w', run (grep_lines fuel f pattern p) m w = Returns (p + Z.of_nat (length l) - Z.of_nat (length (snd (lines l)))) m' w' /\
    input w' = input w /\ output w' = output w ++ selected re (fst (lines l)) /\ bytes_ok m' /\
    (forall x, ~ (p <= x < p + Z.of_nat (length l) - Z.of_nat (length (snd (lines l)))) -> m' x = m x).
Proof.
  induction f as [|f IH]; intros l p m w H Hre Hp Ha Hm Hf He; [lia|]. cbn [grep_lines].
  rewrite (run_step _ _ _ _ _ _ _ (run_umem m w)).
  rewrite (run_step _ _ _ _ _ _ _ (run_opt _ _ _ _ (strchr_spec NL l fuel m p H ltac:(unfold enough in He; lia)))).
  destruct (index_of NL l) as [i|] eqn:Ei.
  - apply index_some in Ei as (Hl & Hi & Hil). set (line := take i l) in *. set (rest := drop (S i) l) in *.
    assert (Hlen : length line = i) by (unfold line; rewrite length_take; lia).
    assert (Hll : length l = (i + S (length rest))%nat) by (rewrite Hl, length_app, Hlen; done).
    rewrite Hl in H |- *. rewrite (lines_cons line rest Hi). cbn [fst snd]. rewrite (proj2 (Z.eqb_neq _ 0)) by lia.
    destruct (line_run line rest p m w H Hre) as (m1 & w1 & E1 & Hi1 & Ho1 & Hm1 & Hx1); [|unfold need, enough in *; lia|done|].
    { intros x Hx Hr. apply (Ha x Hx). lia. }
    rewrite Hlen in E1, Hx1.
    rewrite !run_assoc. rewrite (run_step _ _ _ _ _ _ _ E1).
    destruct (IH rest (p + Z.of_nat i + 1) m1 w1) as (m2 & w2 & E2 & Hi2 & Ho2 & Hm2 & Hx2); [| |lia| |done|lia|unfold enough in *; lia|].
    + replace (p + Z.of_nat i + 1) with (p + Z.of_nat (length (line ++ [NL]))) by (rewrite length_app; cbn; lia).
      apply (cstring_ext m); [intros x Hx; rewrite Hx1; [done|]; rewrite length_app in Hx; cbn in Hx; lia|].
      replace (line ++ NL :: rest) with ((line ++ [NL]) ++ rest) in H by (by rewrite <- app_assoc). by apply cstring_app in H as [? _].
    + apply (pattern_kept m _ p (p + Z.of_nat (length l))); [done| |done]. intros x Hx. apply Hx1. lia.
    + intros x Hx Hr. apply (Ha x Hx). lia.
    + exists m2, w2. rewrite E2. rewrite length_app, Hlen. cbn [length].
      assert (length (snd (lines rest)) <= length rest)%nat as Hle by apply lines_rest_length.
      split; [f_equal; lia|]. split; [congruence|]. split; [|split; [done|]].
      * rewrite Ho2, Ho1, <- app_assoc. f_equal. symmetry. apply (selected_app re [line]).
      * intros x Hx. rewrite Hx2 by lia. apply Hx1. lia.
  - apply index_none in Ei. rewrite (lines_none l Ei). cbn [fst snd]. change (0 =? 0) with true. cbv iota.
    rewrite run_ret. exists m, w. split; [f_equal; lia|]. split; [done|]. by split; [rewrite app_nil_r|].
Qed.

(** No line is too long for the buffer. *)
Definition short (l : list Z) : Prop := Forall (fun x => Z.of_nat (length x) < BUFSZ - 1) (fst (lines l)) /\ Z.of_nat (length (snd (lines l))) < BUFSZ - 1.
Definition text_byte (b : Z) : Prop := 0 < b < 256.

Lemma short_pending pend t : NL ∉ pend -> short (pend ++ t) -> Z.of_nat (length pend) < BUFSZ - 1.
Proof.
  intros Hn [H1 H2]. rewrite lines_prefix in H1, H2 by done. destruct (lines t) as [[|x ls] r]; cbn in H1, H2.
  - rewrite length_app in H2. lia.
  - apply Forall_cons in H1 as [H1 _]. rewrite length_app in H1. lia.
Qed.

Lemma short_app a b : short (a ++ b) -> short (snd (lines a) ++ b).
Proof. unfold short. rewrite lines_app. cbn [fst snd]. intros [H1 H2]. apply Forall_app in H1 as [_ H1]. by split. Qed.

(** The buffer after a [read]: a string *)
Lemma buffer_string m a pend d : bytes_at m a (length pend) = pend -> Forall text_byte (pend ++ d) ->
  cstring (store8 (mem_write m (a + Z.of_nat (length pend)) d) (a + Z.of_nat (length pend) + Z.of_nat (length d)) 0) a (pend ++ d).
Proof.
  intros Hp Ht. split; [|split].
  - rewrite length_app, bytes_at_app. f_equal.
    + transitivity (bytes_at m a (length pend)); [|done]. apply bytes_at_ext. intros i Hi.
      rewrite store8_ne, mem_write_out by lia. done.
    + transitivity (bytes_at (mem_write m (a + Z.of_nat (length pend)) d) (a + Z.of_nat (length pend)) (length d)); [|apply mem_write_bytes].
      apply bytes_at_ext. intros i Hi. by rewrite store8_ne by lia.
  - eapply Forall_impl; [exact Ht|]. unfold text_byte. lia.
  - rewrite length_app. replace (a + Z.of_nat (length pend + length d)) with (a + Z.of_nat (length pend) + Z.of_nat (length d)) by lia.
    by rewrite store8_at.
Qed.

Lemma write_ok m a d : bytes_ok m -> Forall text_byte d -> bytes_ok (mem_write m a d).
Proof.
  intros Hm Hd x. destruct (decide (a <= x < a + Z.of_nat (length d))) as [Hx|Hx]; [|rewrite mem_write_out by done; apply Hm].
  destruct (lookup_lt_is_Some_2 d (Z.to_nat (x - a))) as [b Hb]; [lia|].
  rewrite mem_write_in, Hb by done. cbn. pose proof (proj1 (Forall_lookup _ _) Hd _ _ Hb). unfold text_byte in *. lia.
Qed.

(** What is left of the buffer is moved to its start. *)
Lemma moved_pending m p l : bytes_ok m -> cstring m p l -> bytes_at (memmove m buf p (Z.of_nat (length l))) buf (length l) = l.
Proof.
  intros Hm (H & _ & _). transitivity (bytes_at m p (length l)); [|done]. apply bytes_at_ext. intros i Hi.
  rewrite memmove_spec by (done || lia). rewrite mem_copy_in by lia. f_equal. lia.
Qed.

Lemma memmove_ok m d s n : bytes_ok m -> 0 <= n -> bytes_ok (memmove m d s n).
Proof. intros Hm Hn x. rewrite memmove_spec by done. by apply mem_copy_ok. Qed.

(** The lines of a buffer that holds [pend] and the new bytes [d] *)
Lemma fill_run pend d m w : let l := pend ++ d in
  let p' := buf + Z.of_nat (length l) - Z.of_nat (length (snd (lines l))) in
  bytes_at m buf (length pend) = pend -> Forall text_byte l -> Z.of_nat (length l) < BUFSZ -> cstring m pattern re -> bytes_ok m ->
  0 < buf -> apart buf (buf + BUFSZ - 1) -> enough (Z.to_nat BUFSZ) ->
  exists m' w', run (grep_lines fuel fuel pattern buf)
      (store8 (mem_write m (buf + Z.of_nat (length pend)) d) (buf + Z.of_nat (length pend) + Z.of_nat (length d)) 0) w = Returns p' m' w' /\
    input w' = input w /\ output w' = output w ++ selected re (fst (lines l)) /\ bytes_ok m' /\
    cstring m' p' (snd (lines l)) /\ cstring m' pattern re.
Proof.
  intros l p' Hp Ht Hl Hre Hm Hb Ha He. set (m2 := store8 _ _ 0).
  assert (Hll : length l = (length pend + length d)%nat) by (unfold l; apply length_app).
  assert (Hc : cstring m2 buf l) by (by apply buffer_string).
  assert (Hm2 : bytes_ok m2) by (apply store_ok, write_ok; [done|by apply Forall_app in Ht as [_ ?]]).
  assert (Hre2 : cstring m2 pattern re).
  { apply (pattern_kept m _ buf (buf + BUFSZ - 1)); [done| |done]. intros x Hx. unfold m2.
    rewrite store8_ne by lia. apply mem_write_out. lia. }
  destruct (grep_lines_run fuel l buf m2 w Hc Hre2 Hb) as (m3 & w3 & E3 & Hi3 & Ho3 & Hm3 & Hx3);
    [intros x Hx Hr; apply (Ha x Hx); lia|done|unfold enough in He; lia|unfold enough in *; lia|].
  exists m3, w3. split; [done|]. split; [done|]. split; [done|]. split; [done|]. split.
  - destruct (lines_suffix l) as [pre Hpre]. assert (Hlp : length l = (length pre + length (snd (lines l)))%nat) by (rewrite Hpre at 1; apply length_app).
    rewrite Hpre in Hc. apply cstring_app in Hc as [Hc _]. replace (buf + Z.of_nat (length pre)) with p' in Hc by (unfold p'; lia).
    apply (cstring_ext m2); [|done]. intros x Hx. symmetry. apply Hx3. lia.
  - apply (pattern_kept m2 _ buf (buf + BUFSZ - 1)); [done| |done]. intros x Hx. apply Hx3. lia.
Qed.

Lemma grep_loop_run f : forall pend m w, (length (input w) < f)%nat -> short (pend ++ input w) -> NL ∉ pend ->
  bytes_at m buf (length pend) = pend -> Forall text_byte (pend ++ input w) -> cstring m pattern re -> bytes_ok m ->
  0 < buf -> apart buf (buf + BUFSZ - 1) -> enough (Z.to_nat BUFSZ) ->
  exists m' w', run (grep_loop buf fuel f pattern fd (Z.of_nat (length pend))) m w = Returns tt m' w' /\
    output w' = output w ++ selected re (fst (lines (pend ++ input w))) /\ input w' = [].
Proof.
  induction f as [|f IH]; intros pend m w Hf Hs Hn Hp Ht Hre Hm Hb Ha He; [lia|]. cbn [grep_loop].
  pose proof (short_pending pend (input w) Hn Hs) as Hpl.
  destruct (io_read w (BUFSZ - Z.of_nat (length pend) - 1)) as (k & w1 & Er & Hk & Hki & Hk0 & Hi1 & Ho1); [lia|].
  unfold sys_read at 1. rewrite (run_step _ _ _ _ _ _ _ (run_sys_into _ _ _ _ _ m _ Er)).
  destruct (Z.leb_spec (Z.of_nat k) 0) as [Hz|Hpos].
  - assert (Hi0 : input w = []) by (destruct (input w) eqn:Ei; [done|]; assert (0 < k)%nat by (by apply Hk0); lia).
    rewrite run_ret. eexists _, w1. split; [done|]. rewrite Hi0, app_nil_r, lines_none by done. cbn.
    rewrite app_nil_r. split; [done|]. by rewrite Hi1, Hi0, drop_nil.
  - set (d := take k (input w)) in *. assert (Hd : length d = k) by (unfold d; rewrite length_take; lia).
    assert (Hin : input w = d ++ input w1) by (rewrite Hi1; unfold d; by rewrite take_drop).
    rewrite Hin, app_assoc in Hs, Ht. apply Forall_app in Ht as [Htd Ht1].
    rewrite (run_step _ _ _ _ _ _ _ (run_store8 _ _ _ _)). cbv zeta. rewrite Z.add_assoc, <- Hd.
    assert (Hll : length (pend ++ d) = (length pend + k)%nat) by (rewrite length_app; lia).
    destruct (fill_run pend d m w1 Hp Htd) as (m3 & w3 & E3 & Hi3 & Ho3 & Hm3 & Hc3 & Hre3); try done; [lia|].
    rewrite (run_step _ _ _ _ _ _ _ E3). rewrite (proj2 (Z.ltb_lt 0 _)) by lia.
    rewrite (run_step _ _ _ _ _ _ _ (run_umem _ _)), (run_step _ _ _ _ _ _ _ (run_uput _ _ _)).
    set (l := pend ++ d) in *. set (pend' := snd (lines l)) in *. pose proof (lines_rest_length l) as Hle. fold pend' in Hle.
    replace (Z.of_nat (length pend) + Z.of_nat (length d) - (buf + Z.of_nat (length l) - Z.of_nat (length pend') - buf))
      with (Z.of_nat (length pend')) by lia.
    destruct (IH pend' (memmove m3 buf (buf + Z.of_nat (length l) - Z.of_nat (length pend')) (Z.of_nat (length pend'))) w3)
      as (m' & w' & E' & Ho' & Hi'); try done.
    + rewrite Hi3, Hi1, length_drop. lia.
    + rewrite Hi3. by apply short_app.
    + apply lines_rest.
    + by apply moved_pending.
    + rewrite Hi3. apply Forall_app. split; [|done]. destruct (lines_suffix l) as [pre Hpre]. rewrite Hpre in Htd. by apply Forall_app in Htd as [_ ?].
    + apply (pattern_kept m3 _ buf (buf + BUFSZ - 1)); [done| |done]. intros x Hx.
      rewrite memmove_spec, mem_copy_out by (done || lia). done.
    + apply memmove_ok; [done|lia].
    + exists m', w'. split; [done|]. split; [|done]. rewrite Ho', Ho3, Ho1, Hi3, <- app_assoc. f_equal.
      rewrite <- selected_app, Hin, app_assoc. fold l. rewrite (lines_app l). done.
Qed.

End GrepProof.

#[export] Instance matches_dec re text : Decision (matches re text).
Proof. refine (cast_if (decide (mmatch re text = true))); by rewrite <- mmatch_matches. Defined.

(** C33 [grep] writes exactly the lines of its input that match the pattern, in
    order and with their newlines, however the input is cut into pieces by [read],
    and reads the input to its end; bytes after the last newline are not searched.
    A line matches in the sense of the relation [matches], which [match] decides.
    The input has no zero byte and no line of 1023 bytes or more. *)
Theorem grep_correct {W : Type} `{!Os W} (fd : Z) (input output : W -> list Z) `{!Stdio W fd input output}
    (buf pattern : Z) (re : list Z) (fuel : nat) (m : mem) (w : W) :
  cstring m pattern re -> bytes_ok m -> Forall text_byte (input w) -> short (input w) -> 0 < buf ->
  apart pattern re buf (buf + BUFSZ - 1) -> (2 * length re + Z.to_nat BUFSZ + 2 < fuel)%nat -> (length (input w) < fuel)%nat ->
  exists m' w', run (grep buf fuel pattern fd) m w = Returns tt m' w' /\ input w' = [] /\
    output w' = output w ++ concat ((fun l => l ++ [NL]) <$> filter (matches re) (fst (lines (input w)))).
Proof.
  intros Hre Hm Ht Hs Hb Ha Hf Hl. unfold grep.
  destruct (grep_loop_run fd input output buf pattern re fuel fuel [] m w) as (m' & w' & E & Ho & Hi); try done;
    [apply not_elem_of_nil|].
  exists m', w'. split; [exact E|]. split; [done|]. rewrite Ho. cbn [app]. unfold selected. do 3 f_equal.
  apply list_filter_iff. intros l. apply mmatch_matches.
Qed.

(** ** Witness *)

(** A kernel that delivers the input three bytes at a time *)
#[local] Instance demo_os : Os (list Z * list Z) := fun c w =>
  match c with
  | SysRead _ n => let k := Nat.min 3 (Nat.min (Z.to_nat n) (length (fst w))) in (Z.of_nat k, take k (fst w), (drop k (fst w), snd w))
  | SysWrite _ l => (Z.of_nat (length l), [], (fst w, snd w ++ l))
  | _ => (-1, [], w)
  end.

#[local] Instance demo_stdio : Stdio (list Z * list Z) 0 fst snd.
Proof.
  split.
  - intros [i o] n Hn. eexists _, _. split; [reflexivity|]. cbn [fst snd]. split; [lia|]. split; [lia|]. split; [|done].
    intros Hi. destruct i; [done|]. cbn [length]. lia.
  - intros [i o] l. by eexists _, _, _.
Qed.

(** The pattern [a*b$], and three lines of text *)
Definition demo_re : list Z := lit "a*b$".
Definition demo_text : list Z := litn "aab" ++ litn "abc" ++ litn "cab" ++ lit "b".
Definition demo_gmem : mem := mem_write (fun _ => 0) 5000 demo_re.

Lemma grep_correct_witness : exists m' w', run (grep 1000 2000 5000 0) demo_gmem (demo_text, []) = Returns tt m' w' /\
  snd w' = litn "aab" ++ litn "cab".
Proof.
  destruct (grep_correct 0 fst snd 1000 5000 demo_re 2000 demo_gmem (demo_text, [])) as (m' & w' & E & _ & Ho).
  - split; [vm_compute; reflexivity|]. split; [|vm_compute; reflexivity]. by repeat (apply Forall_cons; split; [done|]).
  - intros x. unfold demo_gmem, mem_write. destruct (in_range _ _ _); [|lia].
    destruct (demo_re !! _) as [b|] eqn:Eb; cbn; [|lia].
    assert (Hall : Forall (fun b => 0 <= b < 256) demo_re) by (by repeat (apply Forall_cons; split; [done|])).
    by apply (proj1 (Forall_lookup _ _) Hall _ _ Eb).
  - by repeat (apply Forall_cons; split; [done|]).
  - split; [|done]. by repeat (apply Forall_cons; split; [done|]).
  - done.
  - intros x Hx Hr. cbn in Hx. unfold BUFSZ in Hr. lia.
  - apply Nat.ltb_lt. reflexivity.
  - apply Nat.ltb_lt. reflexivity.
  - exists m', w'. split; [exact E|]. rewrite Ho. vm_compute. reflexivity.
Defined.
