(* ===== verification/Umalloc.v ===== *)
(** * user/umalloc.c: the memory allocator of user programs

    The free blocks are a ring of headers in memory, in address order, with the
    static header [base] of size 0 as its lowest member.  A block is described by
    its address and its size in units of a header. *)

From stdpp Require Import base list sorting strings.
From Stdlib Require Import ZArith Lia Sorting.Sorted.
From S2P Require Import Prelude User.

(** ** Definitions *)

(** [sizeof(Header)] *)
Definition UNIT : Z := 16.

(** [p->s.ptr] and [p->s.size] *)
Definition hptr (m : mem) (p : Z) : Z := load64 m p.
Definition hsize (m : mem) (p : Z) : Z := load32 m (p + 8).
Definition set_hptr (m : mem) (p v : Z) : mem := store64 m p v.
Definition set_hsize (m : mem) (p v : Z) : mem := store32 m (p + 8) v.

Section Umalloc.
(** The addresses of the static variables [base] and [freep] *)
Context (base freep : Z).

(** [for(p = freep; !(bp > p && bp < p->s.ptr); p = p->s.ptr)
       if(p >= p->s.ptr && (bp > p || bp < p->s.ptr)) break;] *)
Fixpoint free_loop (fuel : nat) (m : mem) (bp p : Z) : option Z :=
  match fuel with
  | O => None
  | S f =>
      let q := hptr m p in
      if (p <? bp) && (bp <? q) then Some p
      else if (q <=? p) && ((p <? bp) || (bp <? q)) then Some p
      else free_loop f m bp q
  end.

Definition free (fuel : nat) (m : mem) (ap : Z) : option mem :=
  let bp := ap - UNIT in
  match free_loop fuel m bp (load64 m freep) with
  | None => None
  | Some p =>
      let m :=
        if bp + UNIT * hsize m bp =? hptr m p then
          let m := set_hsize m bp (hsize m bp + hsize m (hptr m p)) in
          set_hptr m bp (hptr m (hptr m p))
        else set_hptr m bp (hptr m p) in
      let m :=
        if p + UNIT * hsize m p =? bp then
          let m := set_hsize m p (hsize m p + hsize m bp) in
          set_hptr m p (hptr m bp)
        else set_hptr m p bp in
      Some (store64 m freep p)
  end.

(** [morecore]; the argument of [sbrk] is an [int]. *)
Definition morecore (fuel : nat) (nu : Z) : U Z :=
  let nu := if nu <? 4096 then 4096 else nu in
  p <- sys (SysSbrk (i32 (nu * UNIT))) ;;
  if p =? -1 then uret 0
  else
    m <- umem ;;
    m <- of_opt (free fuel (set_hsize m p nu) (p + UNIT)) ;;
    uput m ;;
    uload64 freep.

(** Taking [nunits] from the block [p]: the memory and the result *)
Definition take_units (m : mem) (prevp p nunits : Z) : mem * Z :=
  if hsize m p =? nunits then
    let m := set_hptr m prevp (hptr m p) in
    (store64 m freep prevp, p + UNIT)
  else
    let m := set_hsize m p (hsize m p - nunits) in
    let p := p + UNIT * hsize m p in
    let m := set_hsize m p nunits in
    (store64 m freep prevp, p + UNIT).

(** [for(p = prevp->s.ptr; ; prevp = p, p = p->s.ptr)] *)
Fixpoint malloc_loop (fuel : nat) (nunits prevp p : Z) : U Z :=
  match fuel with
  | O => stuck "fuel"
  | S f =>
      m <- umem ;;
      if nunits <=? hsize m p then
        let '(m, r) := take_units m prevp p nunits in
        uput m ;;
        uret r
      else if p =? load64 m freep then
        p <- morecore f nunits ;;
        if p =? 0 then uret 0
        else
          m <- umem ;;
          malloc_loop f nunits p (hptr m p)
      else malloc_loop f nunits p (hptr m p)
  end.

Definition malloc (fuel : nat) (nbytes : Z) : U Z :=
  let nunits := u32 ((nbytes + UNIT - 1) / UNIT + 1) in
  m <- umem ;;
  uput (if load64 m freep =? 0
        then set_hsize (store64 (set_hptr m base base) freep base) base 0 else m) ;;
  m <- umem ;;
  let prevp := load64 m freep in
  malloc_loop fuel nunits prevp (hptr m prevp).
End Umalloc.

(** ** Specification *)

Abbreviation block := (Z * Z)%type.
Definition bend (b : block) : Z := fst b + UNIT * snd b.
Definition inside (b : block) (x : Z) : Prop := fst b <= x < bend b.
Definition covers (l : list block) (x : Z) : Prop := exists b, b ∈ l /\ inside b x.

(** [b] is before [c] and the two are not adjacent. *)
Definition before (b c : block) : Prop := bend b < fst c /\ fst b + UNIT <= fst c.

(** The ring: each header holds its size and the address of the next one. *)
Definition next_addr (l : list block) (last : Z) : Z := match l with [] => last | b :: _ => fst b end.
Fixpoint segment (m : mem) (l : list block) (last : Z) : Prop :=
  match l with
  | [] => True
  | b :: l => hptr m (fst b) = next_addr l last /\ hsize m (fst b) = snd b /\ segment m l last
  end.

(** Joining a block with the one after it when they are adjacent *)
Definition join (b : block) (l : list block) : list block :=
  match l with
  | c :: l' => if bend b =? fst c then (fst b, snd b + snd c) :: l' else b :: l
  | [] => [b]
  end.

(** The memory of the program: statics, then the heap up to [top]. *)
Record layout (base freep heap top : Z) : Prop := {
  la_base : 0 < base;
  la_freep : 0 < freep;
  la_heap : base + UNIT <= heap;
  la_heap' : freep + 8 <= heap;
  la_apart : freep + 8 <= base \/ base + UNIT <= freep;
  la_top : top < 2 ^ 35
}.

Definition in_heap (heap top : Z) (b : block) : Prop := heap <= fst b /\ 0 < snd b /\ bend b <= top.

(** The blocks [fl] are the free list. *)
Record freelist (base freep heap top : Z) (m : mem) (fl : list block) : Prop := {
  fl_sorted : StronglySorted before ((base, 0) :: fl);
  fl_heap : Forall (in_heap heap top) fl;
  fl_ring : segment m ((base, 0) :: fl) base;
  fl_freep : exists b, b ∈ (base, 0) :: fl /\ load64 m freep = fst b
}.

(** ** Memory *)

(** Headers *)
Definition header (p x : Z) : Prop := p <= x < p + UNIT.

Lemma hptr_ext m m' p : (forall x, header p x -> m' x = m x) -> hptr m' p = hptr m p.
Proof. intros H. apply load_ext. intros x Hx. apply H. unfold header, UNIT. lia. Qed.

Lemma hsize_ext m m' p : (forall x, header p x -> m' x = m x) -> hsize m' p = hsize m p.
Proof. intros H. apply load_ext. intros x Hx. apply H. unfold header, UNIT. lia. Qed.

Lemma set_hptr_out m p v x : ~ header p x -> set_hptr m p v x = m x.
Proof. intros H. apply store_out. unfold header, UNIT in H. lia. Qed.

Lemma set_hsize_out m p v x : ~ header p x -> set_hsize m p v x = m x.
Proof. intros H. apply store_out. unfold header, UNIT in H. lia. Qed.

Lemma hptr_set m p v : 0 <= v < 2 ^ 64 -> hptr (set_hptr m p v) p = v.
Proof. intros H. unfold hptr, set_hptr. rewrite load_store. by apply Z.mod_small. Qed.

Lemma hsize_set m p v : 0 <= v < 2 ^ 32 -> hsize (set_hsize m p v) p = v.
Proof. intros H. unfold hsize, set_hsize. rewrite load_store. by apply Z.mod_small. Qed.

Lemma hsize_set_hptr m p v : hsize (set_hptr m p v) p = hsize m p.
Proof. unfold hsize, set_hptr. apply load_store_other. lia. Qed.

Lemma hptr_set_hsize m p v : hptr (set_hsize m p v) p = hptr m p.
Proof. unfold hptr, set_hsize. apply load_store_other. lia. Qed.

(** ** Segments *)

Lemma segment_app m l1 l2 last : segment m (l1 ++ l2) last <-> segment m l1 (next_addr l2 last) /\ segment m l2 last.
Proof.
  induction l1 as [|b l1 IH]; cbn [segment app]; [tauto|]. rewrite IH.
  assert (next_addr (l1 ++ l2) last = next_addr l1 (next_addr l2 last)) as -> by (by destruct l1). tauto.
Qed.

Lemma segment_ext m m' l last : (forall b, b ∈ l -> forall x, header (fst b) x -> m' x = m x) -> segment m l last -> segment m' l last.
Proof.
  induction l as [|b l IH]; cbn [segment]; [done|]. intros H (H1 & H2 & H3).
  rewrite (hptr_ext m m'), (hsize_ext m m') by (intros x Hx; apply (H b); [by left|done]).
  split; [done|]. split; [done|]. apply IH; [|done]. intros c Hc. apply H. by right.
Qed.

Lemma before_header b c x : before b c -> header (fst b) x -> ~ header (fst c) x.
Proof. unfold before, header. lia. Qed.

(** [join] on memory: the header of [b] gets the size of both and the next pointer of the second. *)
Lemma segment_join m m' b l last : segment m l last -> 
  (forall c, c ∈ l -> forall x, header (fst c) x -> m' x = m x) ->
  (match l with
   | c :: l' => if bend b =? fst c then hsize m' (fst b) = snd b + snd c /\ hptr m' (fst b) = hptr m (fst c)
                else hsize m' (fst b) = snd b /\ hptr m' (fst b) = fst c
   | [] => hsize m' (fst b) = snd b /\ hptr m' (fst b) = last
   end) -> segment m' (join b l) last.
Proof.
  intros H Hx Hb. unfold join. destruct l as [|c l].
  - destruct Hb as [H1 H2]. by cbn.
  - pose proof (segment_ext m m' (c :: l) last Hx H) as H'. destruct H as (Hc1 & Hc2 & _).
    destruct (bend b =? fst c); destruct Hb as [H1 H2]; cbn [segment fst snd].
    + split; [by rewrite H2|]. split; [done|]. apply H'.
    + done.
Qed.

(** Sortedness *)
Lemma sorted_app (l1 l2 : list block) : StronglySorted before (l1 ++ l2) <->
  StronglySorted before l1 /\ (forall x y, x ∈ l1 -> y ∈ l2 -> before x y) /\ StronglySorted before l2.
Proof.
  split.
  - intros H. split; [by eapply StronglySorted_app_1_l|]. split; [|by eapply StronglySorted_app_1_r].
    intros x y. by apply StronglySorted_app_1_elem_of.
  - intros (H1 & H & H2). induction l1 as [|b l1 IH]; cbn; [done|]. apply StronglySorted_inv in H1 as [H1 Hb].
    constructor; [apply IH; [done|]; intros x y Hx; apply H; by right|]. apply Forall_app. split; [done|].
    apply Forall_forall. intros y Hy. apply H; [by left|done].
Qed.

Lemma join_bound P b l : P (fst b) -> Forall (fun c => P (fst c)) l -> Forall (fun c => P (fst c)) (join b l).
Proof.
  intros Hb Hl. unfold join. destruct l as [|c l]; [by apply Forall_cons|].
  apply Forall_cons in Hl as [Hc Hl]. destruct (_ =? _); by repeat (apply Forall_cons; split).
Qed.

Definition touches (b c : block) : Prop := bend b <= fst c /\ fst b + UNIT <= fst c.

Lemma join_sorted b l : StronglySorted before l -> Forall (fun c => 0 <= snd c) l -> Forall (touches b) l -> StronglySorted before (join b l).
Proof.
  intros Hs H0 Ht. unfold join. destruct l as [|c l]; [by repeat constructor|].
  apply Forall_cons in Ht as [Hbc Ht]. apply Forall_cons in H0 as [Hc0 H0]. apply StronglySorted_inv in Hs as [Hs Hcl].
  destruct (Z.eqb_spec (bend b) (fst c)) as [He|Hne].
  - constructor; [done|]. eapply Forall_impl; [exact Hcl|]. intros d [H1 H2]. unfold before, bend, touches, UNIT in *. cbn. lia.
  - constructor; [by constructor|]. apply Forall_cons. split; [unfold before, touches in *; lia|].
    apply Forall_forall. intros d Hd. pose proof (proj1 (Forall_forall _ _) Hcl d Hd) as [H1 H2].
    unfold before, touches, bend, UNIT in *. lia.
Qed.

Lemma join_covers b l x : 0 <= snd b -> Forall (fun c => 0 <= snd c) l -> covers (join b l) x <-> inside b x \/ covers l x.
Proof.
  intros Hb Hl. unfold join, covers. destruct l as [|c l].
  - split; [intros (d & Hd & Hx); apply list_elem_of_singleton in Hd as ->; by left|].
    intros [H|(d & Hd & _)]; [exists b; split; [by left|done]|by apply not_elem_of_nil in Hd].
  - apply Forall_cons in Hl as [Hc _]. destruct (Z.eqb_spec (bend b) (fst c)) as [He|Hne].
    + assert (Hj : inside (fst b, snd b + snd c) x <-> inside b x \/ inside c x) by (unfold inside, bend, UNIT in *; cbn; lia).
      split.
      * intros (d & [->|Hd]%elem_of_cons & Hx).
        -- apply Hj in Hx as [Hx|Hx]; [by left|right]. exists c. split; [by left|done].
        -- right. exists d. split; [by right|done].
      * intros [Hx|(d & [->|Hd]%elem_of_cons & Hx)].
        -- eexists. split; [by left|]. apply Hj. by left.
        -- eexists. split; [by left|]. apply Hj. by right.
        -- exists d. split; [by right|done].
    + split.
      * intros (d & [->|Hd]%elem_of_cons & Hx); [by left|]. right. by exists d.
      * intros [Hx|(d & Hd & Hx)]; [exists b; split; [by left|done]|]. exists d. split; [by right|done].
Qed.

Lemma covers_app l1 l2 x : covers (l1 ++ l2) x <-> covers l1 x \/ covers l2 x.
Proof.
  unfold covers. split.
  - intros (b & [Hb|Hb]%elem_of_app & Hx); [left|right]; by exists b.
  - intros [(b & Hb & Hx)|(b & Hb & Hx)]; exists b; (split; [apply elem_of_app; tauto|done]).
Qed.

Lemma covers_cons b l x : covers (b :: l) x <-> inside b x \/ covers l x.
Proof.
  rewrite (covers_app [b] l). assert (covers [b] x <-> inside b x); [|tauto]. split.
  - by intros (c & ->%list_elem_of_singleton & Hx).
  - intros Hx. exists b. split; [by left|done].
Qed.

(** ** [free] *)

Section Free.
Context (base freep heap top : Z) (La : layout base freep heap top).

(** The place of the address [bp] in the ring: [q] is the last header below it. *)
Record place (m : mem) (bp : Z) (P : list block) (q : block) (B : list block) : Prop := {
  pl_sorted : StronglySorted before (P ++ q :: B);
  pl_size : Forall (fun c => 0 <= snd c) (P ++ q :: B);
  pl_low : Forall (fun c => base <= fst c) (P ++ q :: B);
  pl_head : next_addr (P ++ q :: B) base = base;
  pl_seg : segment m (P ++ q :: B) base;
  pl_lower : Forall (fun c => fst c < bp) (P ++ [q]);
  pl_upper : Forall (fun c => bp < fst c) B
}.

Lemma free_loop_at m bp P q B f : place m bp P q B -> free_loop (S f) m bp (fst q) = Some (fst q).
Proof.
  intros [_ _ Hb _ Hs Hl Hu]. cbn [free_loop]. apply segment_app in Hs as [_ (Hq & _)]. rewrite Hq.
  apply Forall_app in Hl as [_ [Hl _]%Forall_cons]. apply Forall_app in Hb as [_ [Hb _]%Forall_cons].
  rewrite (proj2 (Z.ltb_lt (fst q) bp)) by done. cbn [andb orb]. destruct B as [|c B]; cbn [next_addr].
  - rewrite (proj2 (Z.leb_le base (fst q))) by done. by destruct (bp <? base).
  - apply Forall_cons in Hu as [Hu _]. by rewrite (proj2 (Z.ltb_lt bp (fst c))).
Qed.

(** From a header up to [q] *)
Lemma free_loop_up m bp q B b P2 : forall P1 f, place m bp (P1 ++ b :: P2) q B -> (length P2 + 2 < f)%nat ->
  free_loop f m bp (fst b) = Some (fst q).
Proof.
  revert b. induction P2 as [|c P2 IH]; intros b P1 f Hp Hf; (destruct f as [|f]; [lia|]); cbn [free_loop].
  - assert (Hpl := Hp). destruct Hpl as [Hs _ _ _ Hg Hl _]. rewrite <- app_assoc in Hg, Hs. cbn in Hg, Hs.
    apply segment_app in Hg as [_ (Hb & _)]. cbn in Hb. rewrite Hb.
    apply sorted_app in Hs as (_ & _ & [_ [[H1 H2] _]%Forall_cons]%StronglySorted_inv).
    apply Forall_app in Hl as [_ [Hq _]%Forall_cons].
    rewrite (proj2 (Z.ltb_ge bp (fst q))), (proj2 (Z.leb_gt (fst q) (fst b))) by (unfold UNIT in *; lia).
    rewrite andb_false_r. cbn [andb]. destruct f as [|f]; [cbn in Hf; lia|]. by apply (free_loop_at _ _ (P1 ++ [b]) _ B).
  - assert (Hpl := Hp). destruct Hpl as [Hs _ _ _ Hg Hl _]. rewrite <- app_assoc in Hg, Hs. cbn in Hg, Hs.
    apply segment_app in Hg as [_ (Hb & _)]. cbn in Hb. rewrite Hb.
    apply sorted_app in Hs as (_ & _ & [_ [[H1 H2] _]%Forall_cons]%StronglySorted_inv).
    rewrite <- app_assoc in Hl. cbn in Hl. apply Forall_app in Hl as [_ [_ [Hc _]%Forall_cons]%Forall_cons].
    rewrite (proj2 (Z.ltb_ge bp (fst c))), (proj2 (Z.leb_gt (fst c) (fst b))) by (unfold UNIT in *; lia).
    rewrite andb_false_r. cbn [andb]. apply (IH c (P1 ++ [b])); [by rewrite <- app_assoc|cbn in Hf; lia].
Qed.

(** From any header of the part above, through [base] *)
Lemma free_loop_wrap m bp P q B1 b B2 : forall f, place m bp P q (B1 ++ b :: B2) -> base < bp -> (length B2 + length P + 3 < f)%nat ->
  free_loop f m bp (fst b) = Some (fst q).
Proof.
  revert B1 b. induction B2 as [|c B2 IH]; intros B1 b f Hp Hb Hf; (destruct f as [|f]; [lia|]); cbn [free_loop];
    assert (Hpl := Hp); destruct Hpl as [Hs Hz Hlo Hh Hg _ Hu]; rewrite app_comm_cons, app_assoc in Hg, Hs, Hlo;
    apply segment_app in Hg as [_ (Hg & _)]; cbn in Hg; rewrite Hg;
    apply Forall_app in Hlo as [_ [Hlb _]%Forall_cons]; apply Forall_app in Hu as [_ [Hub _]%Forall_cons].
  - rewrite (proj2 (Z.ltb_ge (fst b) bp)), (proj2 (Z.ltb_ge bp base)) by lia. cbn [andb orb]. rewrite andb_false_r.
    destruct P as [|c P].
    + cbn in Hh. rewrite <- Hh. destruct f as [|f]; [cbn in Hf; lia|]. by apply (free_loop_at _ _ [] _ (B1 ++ [b])).
    + cbn in Hh. rewrite <- Hh. apply (free_loop_up m bp q (B1 ++ [b]) c P []); [done|cbn in Hf; lia].
  - apply sorted_app in Hs as (_ & _ & [_ [[H1 H2] _]%Forall_cons]%StronglySorted_inv).
    rewrite (proj2 (Z.ltb_ge (fst b) bp)), (proj2 (Z.leb_gt (fst c) (fst b))) by (unfold UNIT in *; lia). cbn [andb].
    apply (IH (B1 ++ [b]) c); [by rewrite <- app_assoc|done|cbn in Hf; lia].
Qed.

Lemma free_loop_run m bp P q B b f : place m bp P q B -> base < bp -> b ∈ P ++ q :: B -> (length (P ++ q :: B) + 3 < f)%nat ->
  free_loop f m bp (fst b) = Some (fst q).
Proof.
  intros Hp Hb Hin Hf. rewrite length_app in Hf. cbn [length] in Hf. apply elem_of_app in Hin as [Hin|[->|Hin]%elem_of_cons].
  - apply list_elem_of_split in Hin as (P1 & P2 & ->). apply (free_loop_up m bp q B b P2 P1); [done|]. rewrite length_app in Hf. cbn [length] in Hf. lia.
  - destruct f as [|f]; [lia|]. by apply (free_loop_at m bp P q B).
  - apply list_elem_of_split in Hin as (B1 & B2 & ->). apply (free_loop_wrap m bp P q B1 b B2); [done|done|].
    rewrite length_app in Hf. cbn [length] in Hf. lia.
Qed.

(** Both halves of [free] link a header to the next one, joining the two if they are adjacent. *)
Definition link (m : mem) (b nxt : Z) : mem :=
  if b + UNIT * hsize m b =? nxt then
    let m := set_hsize m b (hsize m b + hsize m nxt) in
    set_hptr m b (hptr m nxt)
  else set_hptr m b nxt.

Lemma link_out m b nxt x : ~ header b x -> link m b nxt x = m x.
Proof. intros H. unfold link. destruct (_ =? _); by rewrite ?set_hptr_out, ?set_hsize_out. Qed.

Definition sane (b : block) : Prop := 0 <= fst b < 2 ^ 64 /\ 0 <= snd b < 2 ^ 31.

Lemma link_segment m b l last : segment m l last -> hsize m (fst b) = snd b -> Forall (touches b) l -> (l = [] -> bend b <> last) ->
  0 <= last < 2 ^ 64 -> sane b -> Forall sane l -> segment (link m (fst b) (next_addr l last)) (join b l) last.
Proof.
  intros Hs Hb Ht Hl Hr [Hb1 Hb2] Hsl. apply (segment_join m); [done| |].
  - intros c Hc x Hx. apply link_out. pose proof (proj1 (Forall_forall _ _) Ht c Hc) as [_ H2]. unfold header in *. lia.
  - unfold link. rewrite Hb. destruct l as [|c l]; cbn [next_addr].
    + rewrite (proj2 (Z.eqb_neq _ last)) by (by apply Hl). by rewrite hsize_set_hptr, hptr_set.
    + change (fst b + UNIT * snd b) with (bend b). apply Forall_cons in Hsl as [[Hc1 Hc2] Hsl]. destruct Hs as (Hcp & Hcs & _).
      destruct (Z.eqb_spec (bend b) (fst c)) as [He|Hne]; [|by rewrite hsize_set_hptr, hptr_set].
      apply Forall_cons in Ht as [[_ Ht] _]. rewrite hsize_set_hptr, hsize_set, Hcs by (rewrite Hcs; lia). split; [done|].
      assert (Hp : hptr (set_hsize m (fst b) (snd b + hsize m (fst c))) (fst c) = hptr m (fst c)).
      { apply hptr_ext. intros x Hx. apply set_hsize_out. unfold header in *. lia. }
      rewrite Hcs in Hp. rewrite hptr_set; rewrite Hp; [done|]. rewrite Hcp. destruct l as [|d l]; [done|].
      by apply Forall_cons in Hsl as [[? _] _].
Qed.

Lemma free_link m fuel ap p : free_loop fuel m (ap - UNIT) (load64 m freep) = Some p ->
  (forall x, header p x -> ~ header (ap - UNIT) x) ->
  free freep fuel m ap = Some (store64 (link (link m (ap - UNIT) (hptr m p)) p (ap - UNIT)) freep p).
Proof.
  intros Hl Hx. unfold free. rewrite Hl. unfold link at 2.
  assert (Hp : forall v, hptr (set_hsize m (ap - UNIT) v) p = hptr m p).
  { intros v. apply hptr_ext. intros x Hhx. apply set_hsize_out. by apply Hx. }
  cbv zeta. by rewrite Hp.
Qed.

(** [b] does not overlap [c]. *)
Definition apart_from (b c : block) : Prop := bend c <= fst b \/ bend b <= fst c.

Lemma split_block b fl : StronglySorted before fl -> Forall (fun c => 0 < snd c) fl -> Forall (apart_from b) fl -> 0 < snd b ->
  exists A B, fl = A ++ B /\ Forall (fun c => bend c <= fst b) A /\ Forall (fun c => bend b <= fst c) B.
Proof.
  intros Hs Hp Ha Hb. induction fl as [|c fl IH]; [by exists [], []|].
  apply StronglySorted_inv in Hs as [Hs Hc]. apply Forall_cons in Hp as [Hp0 Hp]. apply Forall_cons in Ha as [Ha0 Ha].
  destruct Ha0 as [Hlo|Hhi].
  - destruct (IH Hs Hp Ha) as (A & B & -> & HA & HB). exists (c :: A), B. by split; [|split; [apply Forall_cons|]].
  - exists [], (c :: fl). split; [done|]. split; [done|]. apply Forall_cons. split; [done|].
    eapply Forall_impl; [exact Hc|]. intros d [H1 H2]. unfold bend, UNIT in *. lia.
Qed.

Lemma snoc_split {A} (x : A) (l : list A) : exists P q, x :: l = P ++ [q].
Proof. induction l as [|y l (P & q & IH)] using rev_ind; [by exists [], x|]. exists (x :: l), y. done. Qed.

(** The place of a block in the free list *)
Lemma find_place m fl b : freelist base freep heap top m fl -> in_heap heap top b -> Forall (apart_from b) fl ->
  exists P q B, (base, 0) :: fl = P ++ q :: B /\ place m (fst b) P q B /\
    Forall (fun c => touches c b) (P ++ [q]) /\ Forall (fun c => bend b <= fst c) B.
Proof.
  intros [Hs Hh Hr _] (Hb1 & Hb2 & Hb3) Ha. assert (Hs' := Hs). apply StronglySorted_inv in Hs' as [Hsf Hbf].
  assert (Hpos : Forall (fun c => 0 < snd c) fl) by (eapply Forall_impl; [exact Hh|]; by intros c (_ & ? & _)).
  destruct (split_block b fl Hsf Hpos Ha Hb2) as (A & B & -> & HA & HB).
  destruct (snoc_split (base, 0) A) as (P & q & Hq).
  assert (HN : (base, 0) :: A ++ B = P ++ q :: B) by (rewrite app_comm_cons, Hq, <- app_assoc; done).
  assert (Hlow : Forall (fun c => base <= fst c) (A ++ B)).
  { eapply Forall_impl; [exact Hbf|]. intros c [H1 H2]. cbn in H2. unfold UNIT in *. lia. }
  assert (Htc : Forall (fun c => touches c b) (P ++ [q])).
  { rewrite <- Hq. apply Forall_cons. split; [destruct La; unfold touches, bend, UNIT in *; cbn; lia|].
    apply Forall_app in Hpos as [Hpos _]. apply Forall_forall. intros c Hc.
    pose proof (proj1 (Forall_forall _ _) HA c Hc). pose proof (proj1 (Forall_forall _ _) Hpos c Hc) as Hc0. cbn in Hc0.
    unfold touches, bend, UNIT in *. lia. }
  exists P, q, B. split; [done|]. split; [|done]. split.
  - by rewrite <- HN.
  - rewrite <- HN. apply Forall_cons. split; [done|]. eapply Forall_impl; [exact Hpos|]. intros c Hc. cbn in Hc. lia.
  - rewrite <- HN. by apply Forall_cons.
  - by rewrite <- HN.
  - by rewrite <- HN.
  - eapply Forall_impl; [exact Htc|]. intros c [_ Hc]. unfold UNIT in *. lia.
  - eapply Forall_impl; [exact HB|]. intros c Hc. unfold bend, UNIT in *. lia.
Qed.

Lemma join_in b l c : c ∈ join b l -> fst c = fst b \/ c ∈ l.
Proof.
  unfold join. destruct l as [|d l]; [intros ->%list_elem_of_singleton; by left|].
  destruct (_ =? _); intros [->|H]%elem_of_cons; [by left|right; by right|by left|by right].
Qed.

Lemma join_heap b l : in_heap heap top b -> Forall (in_heap heap top) l -> Forall (in_heap heap top) (join b l).
Proof.
  intros (H1 & H2 & H3) Hl. unfold join. destruct l as [|c l]; [by apply Forall_cons|].
  apply Forall_cons in Hl as [(H4 & H5 & H6) Hl]. destruct (Z.eqb_spec (bend b) (fst c)); repeat (apply Forall_cons; split); try done.
  split; [done|]. unfold bend, UNIT in *. cbn. lia.
Qed.

Lemma in_heap_sane c : in_heap heap top c -> sane c.
Proof. destruct La. intros (H1 & H2 & H3). unfold sane, bend, UNIT in *. lia. Qed.

(** The ring after [b] was put in its place *)
Definition put_block (P : list block) (q b : block) (B : list block) : list block := P ++ join q (join b B).

Lemma put_base P q b B fl : (base, 0) :: fl = P ++ q :: B -> heap <= fst b -> exists fl', put_block P q b B = (base, 0) :: fl'.
Proof.
  intros H Hb. unfold put_block. destruct P as [|c P]; cbn in H; injection H as <- _; [|by eexists].
  assert (exists d l, join b B = d :: l /\ fst d = fst b) as (d & l & -> & Hd).
  { unfold join. destruct B as [|c B]; [by eexists _, _|]. destruct (_ =? _); by eexists _, _. }
  unfold join. rewrite Hd. rewrite (proj2 (Z.eqb_neq _ _)); [by eexists|]. destruct La. unfold bend, UNIT in *. cbn. lia.
Qed.

Lemma store_freep m p x : ~ (freep <= x < freep + 8) -> store64 m freep p x = m x.
Proof. intros H. apply store_out. exact H. Qed.

Lemma freep_not_header m p (c : block) : heap <= fst c \/ fst c = base -> forall x, header (fst c) x -> store64 m freep p x = m x.
Proof. intros Hc x Hx. apply store_freep. destruct La. unfold header, UNIT in *. lia. Qed.

Lemma join_fst q l c : c ∈ join q l -> exists d, d ∈ q :: l /\ fst c = fst d.
Proof.
  intros [H|H]%join_in; [exists q; split; [by left|done]|]. exists c. split; [by right|done].
Qed.

Section Put.
Context (m : mem) (P : list block) (q b : block) (B : list block) (fl : list block).
Context (HN : (base, 0) :: fl = P ++ q :: B) (Pl : place m (fst b) P q B) (Hb : in_heap heap top b) (Hfl : Forall (in_heap heap top) fl).
Context (HP : Forall (fun c => touches c b) (P ++ [q])) (HB : Forall (fun c => bend b <= fst c) B).

Lemma put_tail : forall c, c ∈ B -> c ∈ fl.
Proof.
  intros c Hc. destruct P as [|d P']; cbn in HN; injection HN as _ ->; [done|]. apply elem_of_app. right. by right.
Qed.

Lemma put_B_heap : Forall (in_heap heap top) B.
Proof. apply Forall_forall. intros c Hc%put_tail. by apply (proj1 (Forall_forall _ _) Hfl). Qed.

Lemma put_touch_b : Forall (touches b) B.
Proof. eapply Forall_impl; [exact HB|]. intros c Hc. destruct Hb as (_ & ? & _). unfold touches, bend, UNIT in *. lia. Qed.

Lemma put_q : touches q b.
Proof. by apply Forall_app in HP as [_ [? _]%Forall_cons]. Qed.

Lemma put_q_size : 0 <= snd q.
Proof. destruct Pl as [_ Hz _ _ _ _ _]. by apply Forall_app in Hz as [_ [? _]%Forall_cons]. Qed.

Lemma put_inner : Forall (in_heap heap top) (join b B).
Proof. apply join_heap; [done|apply put_B_heap]. Qed.

Lemma put_touch_q : Forall (touches q) (join b B).
Proof.
  pose proof put_q as [Hq1 Hq2]. destruct Hb as (_ & Hs & _). apply Forall_forall. intros c [Hc|Hc]%join_in.
  - unfold touches. rewrite Hc. lia.
  - pose proof (proj1 (Forall_forall _ _) HB c Hc) as H. cbn in H. unfold touches, bend, UNIT in *. lia.
Qed.

Lemma put_sorted : StronglySorted before (put_block P q b B).
Proof.
  destruct Pl as [Hs Hz _ _ _ _ _]. apply sorted_app in Hs as (HsP & HPq & [HsB HqB]%StronglySorted_inv).
  assert (Hnn : forall l, Forall (in_heap heap top) l -> Forall (fun c => 0 <= snd c) l)
    by (intros l Hl; eapply Forall_impl; [exact Hl|]; intros c (_ & ? & _); lia).
  apply sorted_app. split; [done|]. split.
  - intros x y Hx Hy. assert (Hq : before x q) by (apply HPq; [done|by left]). destruct Hq as [H1 H2].
    assert (fst q <= fst y); [|unfold before in *; lia].
    apply join_in in Hy as [->|Hy]; [done|]. pose proof (proj1 (Forall_forall _ _) put_touch_q y Hy) as [_ H]. unfold UNIT in *. lia.
  - apply join_sorted; [|apply Hnn, put_inner|apply put_touch_q].
    apply join_sorted; [done|apply Hnn, put_B_heap|apply put_touch_b].
Qed.

Lemma put_covers x : covers (put_block P q b B) x <-> covers ((base, 0) :: fl) x \/ inside b x.
Proof.
  destruct Hb as (_ & Hs & _). pose proof put_q_size.
  assert (Hnn : forall l, Forall (in_heap heap top) l -> Forall (fun c => 0 <= snd c) l)
    by (intros l Hl; eapply Forall_impl; [exact Hl|]; intros c (_ & ? & _); lia).
  rewrite HN. unfold put_block. rewrite !covers_app, (join_covers q) by (done || apply Hnn, put_inner).
  rewrite (join_covers b), covers_cons by (lia || apply Hnn, put_B_heap). tauto.
Qed.

Lemma put_segment m' : (forall x, ~ header (fst b) x -> ~ header (fst q) x -> m' x = m x) ->
  segment m' (join q (join b B)) base -> segment m' (put_block P q b B) base.
Proof.
  intros Hx Hs. destruct Pl as [Hso _ _ _ Hg _ _]. apply sorted_app in Hso as (_ & HPq & _).
  apply segment_app in Hg as [HgP _]. apply segment_app. split; [|done].
  assert (next_addr (join q (join b B)) base = fst q) as ->.
  { unfold join at 1. destruct (join b B) as [|c l]; [done|]. by destruct (_ =? _). }
  apply (segment_ext m); [|done]. intros c Hc x Hxc. apply Hx.
  - apply Forall_app in HP as [HP' _]. pose proof (proj1 (Forall_forall _ _) HP' c Hc) as [_ H]. unfold header in *. lia.
  - apply (before_header c); [|done]. apply HPq; [done|by left].
Qed.

(** The headers written by [free] *)
Lemma put_ring : hsize m (fst b) = snd b ->
  let m' := store64 (link (link m (fst b) (hptr m (fst q))) (fst q) (fst b)) freep (fst q) in
  segment m' (put_block P q b B) base /\
  (forall x, ~ header (fst b) x -> ~ header (fst q) x -> ~ (freep <= x < freep + 8) -> m' x = m x).
Proof.
  intros Hsz. set (m1 := link m (fst b) (hptr m (fst q))). set (m2 := link m1 (fst q) (fst b)). cbv zeta.
  pose proof put_q as Hq. pose proof put_q_size as Hqs0. pose proof put_inner as Hin.
  pose proof (pl_seg _ _ _ _ _ Pl) as Hseg. apply segment_app in Hseg as [_ (Hqp & Hqs & HsB)].
  assert (Hsane : forall l, Forall (in_heap heap top) l -> Forall sane l) by (intros l Hl; eapply Forall_impl; [exact Hl|apply in_heap_sane]).
  assert (Hb' := Hb). destruct Hb' as (Hb1 & Hb2 & Hb3). destruct La as [L1 L2 L3 L4 L5 L6].
  assert (Hlow : base <= fst q) by (pose proof (pl_low _ _ _ _ _ Pl) as Hl; by apply Forall_app in Hl as [_ [? _]%Forall_cons]).
  assert (S1 : segment m1 (join b B) base).
  { unfold m1. rewrite Hqp. apply link_segment; [done|done|apply put_touch_b| | |by apply in_heap_sane|apply Hsane, put_B_heap];
      [intros _|]; unfold bend, UNIT in *; lia. }
  assert (Hnext : next_addr (join b B) base = fst b) by (unfold join; destruct B as [|c l]; [done|]; by destruct (_ =? _)).
  assert (S2 : segment m2 (join q (join b B)) base).
  { unfold m2. rewrite <- Hnext at 1. apply link_segment; [done| |apply put_touch_q| | | |by apply Hsane].
    - rewrite <- Hqs. apply hsize_ext. intros x Hx. apply link_out. destruct Hq. unfold header in *. lia.
    - intros Hj. rewrite Hj in Hnext. cbn in Hnext. unfold UNIT in *. lia.
    - unfold bend, UNIT in *; lia.
    - destruct Hq as [Hq1 Hq2]. unfold sane, bend, UNIT in *. lia. }
  assert (Hout : forall x, ~ header (fst b) x -> ~ header (fst q) x -> m2 x = m x) by (intros x H1 H2; unfold m2, m1; by rewrite !link_out).
  split.
  - apply (segment_ext m2); [|apply put_segment; [exact Hout|exact S2]].
    intros c Hc. apply freep_not_header. apply elem_of_app in Hc as [Hc|Hc].
    + assert (Hcf : c ∈ (base, 0) :: fl) by (rewrite HN; apply elem_of_app; by left).
      apply elem_of_cons in Hcf as [->|Hcf]; [by right|left]. by apply (proj1 (Forall_forall _ _) Hfl).
    + apply join_fst in Hc as (d & [->|Hd]%elem_of_cons & ->).
      * assert (Hcf : q ∈ (base, 0) :: fl) by (rewrite HN; apply elem_of_app; right; by left).
        apply elem_of_cons in Hcf as [->|Hcf]; [by right|left]. by apply (proj1 (Forall_forall _ _) Hfl).
      * left. by apply (proj1 (Forall_forall _ _) Hin).
  - intros x H1 H2 H3. rewrite store_freep by done. by apply Hout.
Qed.

Lemma put_q_in : q = (base, 0) \/ q ∈ fl.
Proof. assert (H : q ∈ (base, 0) :: fl) by (rewrite HN; apply elem_of_app; right; by left). by apply elem_of_cons in H. Qed.

Lemma join_length (c : block) l : (length (join c l) <= S (length l))%nat /\ exists d, d ∈ join c l /\ fst d = fst c.
Proof.
  unfold join. destruct l as [|d l]; [split; [done|]; eexists; split; [by left|done]|].
  destruct (_ =? _); cbn; (split; [lia|]; eexists; split; [by left|done]).
Qed.

Lemma join_size (c : block) l : Forall (in_heap heap top) l -> exists d, d ∈ join c l /\ snd c <= snd d.
Proof.
  intros Hl. unfold join. destruct l as [|d l]; [exists c; split; [by left|done]|]. apply Forall_cons in Hl as [(_ & ? & _) _].
  destruct (_ =? _); eexists; (split; [by left|cbn; lia]).
Qed.

Lemma join_size_in (c : block) l e : 0 <= snd c -> e ∈ l -> exists d, d ∈ join c l /\ snd e <= snd d.
Proof.
  intros Hc He. unfold join. destruct l as [|d l]; [by apply not_elem_of_nil in He|].
  destruct (_ =? _); [|exists e; split; [by right|done]].
  apply elem_of_cons in He as [->|He]; [eexists; split; [by left|cbn; lia]|]. exists e. split; [by right|done].
Qed.

(** The free list after [b] was put back *)
Lemma put_list fl' : put_block P q b B = (base, 0) :: fl' ->
  Forall (in_heap heap top) fl' /\ (length fl' <= S (length fl))%nat /\ (exists c, c ∈ (base, 0) :: fl' /\ fst c = fst q) /\
  exists c, c ∈ fl' /\ snd b <= snd c.
Proof.
  intros Hput. destruct (join_length b B) as [Hl1 _]. destruct (join_length q (join b B)) as [Hl2 (d & Hd & Hdq)].
  split; [|split; [|split]].
  - pose proof put_inner as Hi. unfold put_block in Hput. destruct P as [|c P']; cbn in Hput, HN.
    + injection HN as <- ->. unfold join at 1 in Hput. destruct (join b B) as [|e l] eqn:Ej; [by injection Hput as <-|].
      destruct (_ =? _); [injection Hput as ? <-|by injection Hput as <-].
      by apply Forall_cons in Hi as [_ ?].
    + injection Hput as -> <-. injection HN as ->. apply Forall_app in Hfl as [HP' [Hq _]%Forall_cons].
      apply Forall_app. split; [done|]. by apply join_heap.
  - apply (f_equal length) in Hput, HN. unfold put_block in Hput. rewrite length_app in Hput, HN. cbn in Hput, HN. lia.
  - exists d. split; [|done]. rewrite <- Hput. apply elem_of_app. by right.
  - destruct (join_size b B) as (c1 & H1 & Hs1); [apply put_B_heap|].
    destruct (join_size_in q (join b B) c1) as (c2 & H2 & Hs2); [apply put_q_size|done|].
    assert (Hin : c2 ∈ (base, 0) :: fl') by (rewrite <- Hput; apply elem_of_app; by right).
    exists c2. split; [|lia]. apply elem_of_cons in Hin as [->|Hin]; [|done]. destruct Hb as (_ & ? & _). cbn in Hs2. lia.
Qed.

End Put.

(** [free] of a block apart from the free blocks *)
Lemma free_run m fl b fuel : freelist base freep heap top m fl -> in_heap heap top b -> Forall (apart_from b) fl ->
  hsize m (fst b) = snd b -> (length fl + 4 < fuel)%nat ->
  exists m' fl', free freep fuel m (fst b + UNIT) = Some m' /\ freelist base freep heap top m' fl' /\
    (forall x, covers fl' x <-> covers fl x \/ inside b x) /\ (length fl' <= S (length fl))%nat /\
    (exists c, c ∈ fl' /\ snd b <= snd c) /\ (forall x, heap <= x -> ~ covers fl x -> ~ inside b x -> m' x = m x).
Proof.
  intros F Hb Ha Hsz Hf. destruct (find_place m fl b F Hb Ha) as (P & q & B & HN & Pl & HP & HB).
  destruct F as [Hs Hh Hr (f0 & Hf0 & Hfp)]. rewrite HN in Hf0. destruct (put_q P q b HP) as [Hq1 Hq2].
  assert (Hlen : length (P ++ q :: B) = S (length fl)) by (rewrite <- HN; done).
  assert (Hbb : base < fst b) by (destruct Hb, La; unfold UNIT in *; lia).
  pose proof (free_loop_run m (fst b) P q B f0 fuel Pl Hbb Hf0 ltac:(lia)) as El. rewrite <- Hfp in El.
  assert (Ef := free_link m fuel (fst b + UNIT) (fst q)). replace (fst b + UNIT - UNIT) with (fst b) in Ef by lia.
  specialize (Ef El ltac:(intros x Hx; unfold header in *; lia)).
  destruct (put_ring m P q b B fl HN Pl Hb Hh HP HB Hsz) as [Hring Hout].
  destruct (put_base P q b B fl HN (proj1 Hb)) as [fl' Hfl'].
  pose proof (put_sorted m P q b B fl HN Pl Hb Hh HP HB) as Hsort. rewrite Hfl' in Hsort, Hring.
  assert (Hcov : forall x, covers fl' x <-> covers fl x \/ inside b x).
  { intros x. pose proof (put_covers m P q b B fl HN Pl Hb Hh HP x) as Hc. rewrite Hfl', !covers_cons in Hc.
    assert (~ inside (base, 0) x) by (unfold inside, bend, UNIT; cbn; lia). tauto. }
  destruct (put_list m P q b B fl HN Pl Hb Hh HP fl' Hfl') as (Hheap & Hlen' & (c & Hc & Hcq) & Hbig).
  eexists _, fl'. split; [exact Ef|]. split; [|split; [done|split; [done|split; [done|]]]].
  - split; [done|done|done|]. exists c. split; [done|]. rewrite load_store, Hcq. apply Z.mod_small.
    destruct (put_q_in P q B fl HN) as [->|Hq]; [destruct La, Hb; unfold bend, UNIT in *; cbn; lia|].
    apply (proj1 (Forall_forall _ _) Hh) in Hq. by destruct (in_heap_sane _ Hq).
  - intros x Hx Hnc Hi. apply Hout.
    + intros Hxb. apply Hi. destruct Hb as (_ & ? & _). unfold inside, header, bend, UNIT in *. lia.
    + intros Hxq. destruct (put_q_in P q B fl HN) as [->|Hq]; [destruct La; unfold header in Hxq; cbn in Hxq; lia|].
      apply Hnc. exists q. split; [done|]. apply (proj1 (Forall_forall _ _) Hh) in Hq as (_ & ? & _).
      unfold inside, header, bend, UNIT in *. lia.
    + destruct La. lia.
Qed.

End Free.

(** ** [malloc] *)

Section Malloc.
Context (base freep heap top : Z) (La : layout base freep heap top).

(** The result of taking [n] units: the block, and the rest of the free list *)
Record taken (m : mem) (fl : list block) (n : Z) (m' : mem) (r : Z) (fl' : list block) : Prop := {
  tk_list : freelist base freep heap top m' fl';
  tk_heap : in_heap heap top (r - UNIT, n);
  tk_size : hsize m' (r - UNIT) = n;
  tk_covers : forall x, covers fl x <-> covers fl' x \/ inside (r - UNIT, n) x;
  tk_apart : forall x, covers fl' x -> inside (r - UNIT, n) x -> False;
  tk_length : (length fl' <= length fl)%nat;
  tk_frame : forall x, heap <= x -> ~ covers fl x -> m' x = m x
}.

Lemma ring_members m fl c : freelist base freep heap top m fl -> c ∈ (base, 0) :: fl -> c = (base, 0) \/ in_heap heap top c.
Proof.
  intros [_ Hh _ _] [->|Hc]%elem_of_cons; [by left|right]. by apply (proj1 (Forall_forall _ _) Hh).
Qed.

(** A header of the ring is in the free list or below the heap. *)
Lemma ring_header m fl c x : freelist base freep heap top m fl -> c ∈ (base, 0) :: fl -> header (fst c) x -> heap <= x -> covers fl x.
Proof.
  intros [_ Hh _ _] Hc Hx Hhx. apply elem_of_cons in Hc as [->|Hc]; [destruct La; unfold header in Hx; cbn in Hx; lia|].
  exists c. split; [done|]. apply (proj1 (Forall_forall _ _) Hh) in Hc as (_ & ? & _). unfold inside, bend, header, UNIT in *. lia.
Qed.

(** Storing [freep] keeps the headers. *)
Lemma set_freep m q l : Forall (fun c => heap <= fst c \/ fst c = base) l -> forall last, segment m l last -> segment (store64 m freep q) l last.
Proof.
  intros Hl last. apply segment_ext. intros c Hc. apply (freep_not_header base freep heap top La).
  by apply (proj1 (Forall_forall _ _) Hl c).
Qed.

Lemma ring_low m fl : freelist base freep heap top m fl -> Forall (fun c => heap <= fst c \/ fst c = base) ((base, 0) :: fl).
Proof.
  intros F. apply Forall_forall. intros c Hc. destruct (ring_members m fl c F Hc) as [->|(H & _)]; [by right|by left].
Qed.

Lemma node_range m fl c : freelist base freep heap top m fl -> in_heap heap top c \/ c = (base, 0) -> heap <= top -> 0 <= fst c < 2 ^ 64.
Proof. intros _ [H| ->] Ht; destruct La; [destruct H; unfold bend, UNIT in *; lia|cbn; unfold UNIT in *; lia]. Qed.

(** The block [b] of the ring is replaced by its first [k] units, or removed when [k] is 0. *)
Definition rest_of (b : block) (k : Z) : list block := if k =? 0 then [] else [(fst b, k)].

Section Shrink.
Context (m : mem) (fl P : list block) (q b : block) (B : list block) (F : freelist base freep heap top m fl).
Context (HN : (base, 0) :: fl = P ++ q :: b :: B) (k : Z) (Hk : 0 <= k < snd b).

Lemma shrink_b : in_heap heap top b.
Proof.
  destruct (ring_members m fl b F) as [->|?]; [rewrite HN; apply elem_of_app; right; right; by left|cbn in Hk; lia|done].
Qed.

Lemma shrink_sorted : StronglySorted before (P ++ q :: rest_of b k ++ B).
Proof.
  pose proof F as [Hs _ _ _]. rewrite HN in Hs. apply sorted_app in Hs as (HsP & HPq & [Hs [Hqb HqB]%Forall_cons]%StronglySorted_inv).
  apply StronglySorted_inv in Hs as [HsB HbB].
  assert (Hrb : forall c, before (fst b, k) c \/ ~ before b c) by (intros c; unfold before, bend, UNIT; cbn; lia).
  apply sorted_app. split; [done|]. split.
  - intros x y Hx Hy. apply elem_of_cons in Hy as [->|Hy]; [apply HPq; [done|by left]|].
    apply elem_of_app in Hy as [Hy|Hy]; [|apply HPq; [done|right; by right]].
    unfold rest_of in Hy. destruct (k =? 0); [by apply not_elem_of_nil in Hy|]. apply list_elem_of_singleton in Hy as ->.
    apply (HPq x b); [done|right; by left].
  - unfold rest_of. destruct (k =? 0); cbn [app]; [by constructor|]. constructor; [constructor; [done|]|].
    + eapply Forall_impl; [exact HbB|]. intros c Hc. destruct (Hrb c); tauto.
    + by apply Forall_cons.
Qed.

Lemma shrink_list : exists fl', (base, 0) :: fl' = P ++ q :: rest_of b k ++ B /\ Forall (in_heap heap top) fl' /\ (length fl' <= length fl)%nat.
Proof.
  pose proof shrink_b as Hb. pose proof F as [_ Hh _ _].
  assert (Hr : Forall (in_heap heap top) (rest_of b k)).
  { unfold rest_of. destruct (Z.eqb_spec k 0); [done|]. apply Forall_cons. split; [|done].
    destruct Hb as (H1 & H2 & H3). split; [done|]. unfold bend, UNIT in *. cbn. lia. }
  assert (Hl : (length (rest_of b k) <= 1)%nat) by (unfold rest_of; destruct (k =? 0); cbn; lia).
  destruct P as [|c P']; cbn in HN |- *; injection HN as <- ->.
  - exists (rest_of b k ++ B). split; [done|]. apply Forall_cons in Hh as [_ Hh]. split; [by apply Forall_app|].
    cbn. rewrite length_app. lia.
  - exists (P' ++ q :: rest_of b k ++ B). split; [done|].
    apply Forall_app in Hh as [Hh1 [Hh2 [_ Hh3]%Forall_cons]%Forall_cons]. split.
    + apply Forall_app. split; [done|]. apply Forall_cons. split; [done|]. by apply Forall_app.
    + rewrite !length_app. cbn. rewrite length_app. lia.
Qed.

(** The bytes of the free list: without the end of [b] *)
Lemma shrink_covers fl' x : (base, 0) :: fl' = P ++ q :: rest_of b k ++ B ->
  (covers fl x <-> covers fl' x \/ inside (fst b + UNIT * k, snd b - k) x) /\
  (covers fl' x -> inside (fst b + UNIT * k, snd b - k) x -> False).
Proof.
  intros HN'. pose proof shrink_b as (Hb1 & Hb2 & Hb3).
  assert (Hbase : ~ inside (base, 0) x) by (unfold inside, bend, UNIT; cbn; lia).
  assert (C1 : covers fl x <-> covers P x \/ inside q x \/ inside b x \/ covers B x).
  { assert (H : covers ((base, 0) :: fl) x <-> covers fl x) by (rewrite covers_cons; tauto). rewrite <- H, HN, covers_app, !covers_cons. tauto. }
  assert (Cr : covers (rest_of b k) x <-> fst b <= x < fst b + UNIT * k).
  { unfold rest_of. destruct (Z.eqb_spec k 0) as [->|].
    - split; [intros (c & Hc & _); by apply not_elem_of_nil in Hc|]. unfold UNIT. lia.
    - rewrite covers_cons. unfold inside, bend. cbn. split; [intros [?|(c & Hc & _)]; [done|by apply not_elem_of_nil in Hc]|by left]. }
  assert (C2 : covers fl' x <-> covers P x \/ inside q x \/ fst b <= x < fst b + UNIT * k \/ covers B x).
  { assert (H : covers ((base, 0) :: fl') x <-> covers fl' x) by (rewrite covers_cons; tauto).
    rewrite <- H, HN', covers_app, covers_cons, covers_app, Cr. tauto. }
  assert (Ib : inside b x <-> fst b <= x < fst b + UNIT * k \/ inside (fst b + UNIT * k, snd b - k) x).
  { unfold inside, bend, UNIT. cbn. lia. }
  split; [tauto|]. intros Hc Hi. apply C2 in Hc. pose proof F as [Hs _ _ _]. rewrite HN in Hs.
  apply sorted_app in Hs as (_ & HPq & [Hs [Hqb HqB]%Forall_cons]%StronglySorted_inv). apply StronglySorted_inv in Hs as [_ HbB].
  assert (Hib : inside b x) by tauto. destruct Hc as [(c & Hc & Hcx)|[Hq|[Hr|(c & Hc & Hcx)]]].
  - assert (before c b) as [? _] by (apply HPq; [done|right; by left]). unfold inside, bend, UNIT in *. lia.
  - destruct Hqb as [? _]. unfold inside, bend, UNIT in *. lia.
  - unfold inside, bend, UNIT in *. cbn in Hi. lia.
  - pose proof (proj1 (Forall_forall _ _) HbB c Hc) as [? _]. unfold inside, bend, UNIT in *. lia.
Qed.

(** The new ring in memory: the headers of [q] and of the rest of [b] were set. *)
Lemma shrink_ring m' : (forall x, ~ header (fst q) x -> ~ inside b x -> ~ (freep <= x < freep + 8) -> m' x = m x) ->
  hptr m' (fst q) = (if k =? 0 then next_addr B base else fst b) -> hsize m' (fst q) = snd q ->
  (k <> 0 -> hsize m' (fst b) = k /\ hptr m' (fst b) = next_addr B base) -> segment m' (P ++ q :: rest_of b k ++ B) base.
Proof.
  intros Hx Hp Hs Hb. pose proof F as [Hso _ Hr _]. pose proof (ring_low m fl F) as Hlow. rewrite HN in Hso, Hr, Hlow.
  apply sorted_app in Hso as (_ & HPq & [Hso [Hqb HqB]%Forall_cons]%StronglySorted_inv). apply StronglySorted_inv in Hso as [_ HbB].
  apply segment_app in Hr as [HrP (_ & Hqs & _ & _ & HrB)]. apply Forall_app in Hlow as [LP [_ [_ LB]%Forall_cons]%Forall_cons].
  pose proof shrink_b as (_ & Hb2 & _).
  assert (Hext : forall c, before c q /\ before c b \/ before q c /\ before b c -> heap <= fst c \/ fst c = base -> forall x, header (fst c) x -> m' x = m x).
  { intros c Hc Hl x Hxc. apply Hx.
    - unfold before, bend, header, UNIT in *. lia.
    - unfold before, inside, bend, header, UNIT in *. lia.
    - destruct La. unfold header, UNIT in *. lia. }
  apply segment_app. split.
  - apply (segment_ext m); [|done]. intros c Hc. apply Hext; [left|by apply (proj1 (Forall_forall _ _) LP c)].
    split; apply HPq; [done|by left|done|right; by left].
  - assert (HB' : segment m' B base).
    { apply (segment_ext m); [|done]. intros c Hc. apply Hext; [right|by apply (proj1 (Forall_forall _ _) LB c)].
      split; [by apply (proj1 (Forall_forall _ _) HqB)|by apply (proj1 (Forall_forall _ _) HbB)]. }
    unfold rest_of. destruct (Z.eqb_spec k 0) as [->|Hk0]; cbn [app segment next_addr]; [done|]. cbn [fst snd]. destruct (Hb Hk0). done.
Qed.

End Shrink.

Lemma hptr_freep m v c : heap <= c \/ c = base -> hptr (store64 m freep v) c = hptr m c.
Proof. intros Hc. apply hptr_ext. by apply (freep_not_header base freep heap top La m v (c, 0)). Qed.

Lemma hsize_freep m v c : heap <= c \/ c = base -> hsize (store64 m freep v) c = hsize m c.
Proof. intros Hc. apply hsize_ext. by apply (freep_not_header base freep heap top La m v (c, 0)). Qed.

(** Collecting the parts *)
Lemma take_done m fl P q b B n m' : freelist base freep heap top m fl -> (base, 0) :: fl = P ++ q :: b :: B -> 0 < n <= snd b ->
  let k := snd b - n in let a := fst b + UNIT * k in
  (forall x, ~ header (fst q) x -> ~ inside b x -> ~ (freep <= x < freep + 8) -> m' x = m x) ->
  hptr m' (fst q) = (if k =? 0 then next_addr B base else fst b) -> hsize m' (fst q) = snd q ->
  (k <> 0 -> hsize m' (fst b) = k /\ hptr m' (fst b) = next_addr B base) -> hsize m' a = n -> load64 m' freep = fst q ->
  exists fl', taken m fl n m' (a + UNIT) fl'.
Proof.
  intros F HN Hn k a Hx Hp Hs Hb Ha Hf. assert (Hk : 0 <= k < snd b) by lia.
  destruct (shrink_list m fl P q b B F HN k Hk) as (fl' & HN' & Hh & Hl). exists fl'.
  pose proof (fun x => shrink_covers m fl P q b B F HN k Hk fl' x HN') as Hc.
  pose proof (shrink_b m fl P q b B F HN k Hk) as (H1 & H2 & H3).
  assert (Hq : q ∈ (base, 0) :: fl) by (rewrite HN; apply elem_of_app; right; by left).
  replace (snd b - k) with n in Hc by lia. fold a in Hc.
  split; replace (a + UNIT - UNIT) with a by lia; try done.
  - split; [|done| |].
    + rewrite HN'. by apply (shrink_sorted m fl).
    + rewrite HN'. by apply (shrink_ring m fl).
    + exists q. split; [|done]. rewrite HN'. apply elem_of_app. right. by left.
  - split; [|split; [cbn; lia|]]; unfold bend, a, k, UNIT in *; cbn; lia.
  - intros x. apply Hc.
  - intros x. apply Hc.
  - intros x Hhx Hnc. apply Hx.
    + intros Hxq. apply Hnc. by apply (ring_header m fl q).
    + intros Hi. apply Hnc. assert (Hin : covers ((base, 0) :: fl) x).
      { rewrite HN. apply covers_app. right. rewrite !covers_cons. tauto. }
      apply covers_cons in Hin as [Hin|?]; [|done]. unfold inside, bend, UNIT in Hin. cbn in Hin. lia.
    + destruct La. lia.
Qed.

Lemma take_run m fl P q b B n : freelist base freep heap top m fl -> (base, 0) :: fl = P ++ q :: b :: B -> 0 < n <= snd b ->
  exists fl', taken m fl n (fst (take_units freep m (fst q) (fst b) n)) (snd (take_units freep m (fst q) (fst b) n)) fl'.
Proof.
  intros F HN Hn. pose proof F as [Hs Hh Hr _]. rewrite HN in Hs, Hr.
  apply sorted_app in Hs as (_ & _ & [Hs [[Hqb1 Hqb2] HqB]%Forall_cons]%StronglySorted_inv). apply StronglySorted_inv in Hs as [_ HbB].
  apply segment_app in Hr as [_ (Hq1 & Hq2 & Hb1 & Hb2 & _)]. cbn [next_addr] in Hq1.
  assert (Hb : in_heap heap top b) by (apply (shrink_b m fl P q b B F HN 0); lia). assert (Hbs := in_heap_sane base freep heap top La b Hb).
  pose proof (ring_low m fl F) as Hlow. rewrite HN in Hlow. apply Forall_app in Hlow as [_ [Lq [Lb LB]%Forall_cons]%Forall_cons].
  assert (Hfq : 0 <= fst q < 2 ^ 64) by (destruct La, Hb, Lq; unfold bend, UNIT in *; lia).
  assert (Hfp : forall m', load64 (store64 m' freep (fst q)) freep = fst q) by (intros m'; rewrite load_store; by apply Z.mod_small).
  assert (Hnr : 0 <= next_addr B base < 2 ^ 64).
  { destruct B as [|c B']; cbn; [destruct La, Hb; unfold bend, UNIT in *; lia|].
    assert (Hcf : c ∈ (base, 0) :: fl) by (rewrite HN; apply elem_of_app; right; right; right; by left).
    destruct (ring_members m fl c F Hcf) as [->|Hc]; [destruct La, Hb; unfold bend, UNIT in *; cbn; lia|].
    by destruct (in_heap_sane base freep heap top La c Hc). }
  unfold take_units. rewrite Hb2. destruct (Z.eqb_spec (snd b) n) as [He|Hne]; cbn [fst snd].
  - replace (fst b + UNIT) with (fst b + UNIT * (snd b - n) + UNIT) by lia.
    apply (take_done m fl P q b B n); [done|done|done| | | | | |apply Hfp].
    + intros x H1 H2 H3. rewrite store_freep by done. by apply set_hptr_out.
    + rewrite (proj2 (Z.eqb_eq _ 0)) by lia. rewrite hptr_freep by done. rewrite hptr_set; rewrite Hb1; done.
    + rewrite hsize_freep by done. by rewrite hsize_set_hptr.
    + lia.
    + replace (fst b + UNIT * (snd b - n)) with (fst b) by lia. rewrite hsize_freep by done. rewrite <- He, <- Hb2.
      apply hsize_ext. intros x Hx. apply set_hptr_out. unfold header in *. lia.
  - destruct Hbs as [Hbs1 Hbs2]. rewrite hsize_set by lia. set (a := fst b + UNIT * (snd b - n)).
    assert (Hab : fst b + UNIT <= a /\ a + UNIT <= bend b) by (unfold a, bend, UNIT; lia).
    assert (Hha : heap <= a) by (destruct Hb; unfold UNIT in *; lia).
    apply (take_done m fl P q b B n); [done|done|done| | | | | |apply Hfp].
    + intros x H1 H2 H3. rewrite store_freep, !set_hsize_out; [done|..|done]; intros Hx; apply H2; unfold header, inside, UNIT in *; lia.
    + rewrite (proj2 (Z.eqb_neq _ 0)) by lia. rewrite hptr_freep, <- Hq1 by done. apply hptr_ext.
      intros x Hx. rewrite !set_hsize_out; [done|..]; unfold header, UNIT in *; lia.
    + rewrite hsize_freep, <- Hq2 by done. apply hsize_ext. intros x Hx. rewrite !set_hsize_out; [done|..]; unfold header, UNIT in *; lia.
    + intros _. rewrite hsize_freep, hptr_freep by done. split.
      * transitivity (hsize (set_hsize m (fst b) (snd b - n)) (fst b)); [|apply hsize_set; lia]. apply hsize_ext. intros x Hx. apply set_hsize_out. unfold header, UNIT in *. lia.
      * rewrite <- Hb1, <- (hptr_set_hsize m (fst b) (snd b - n)). apply hptr_ext. intros x Hx. apply set_hsize_out. unfold header, UNIT in *. lia.
    + fold a. rewrite hsize_freep by (by left). apply hsize_set. lia.
Qed.

Context {W : Type} `{!Os W}.

Lemma last_cons {A} (l : list A) (c q : A) : List.last (c :: l) q = List.last l c.
Proof.
  revert c q. induction l as [|d l IH]; intros c q; [done|]. change (List.last (d :: l) q = List.last (d :: l) c). by rewrite !IH.
Qed.

(** Blocks that do not fit and are not [*freep] are passed. *)
Lemma scan m n w : forall l q L R f, segment m (L ++ q :: l ++ R) base -> Forall (fun c => snd c < n /\ fst c <> load64 m freep) l ->
  run (malloc_loop freep (length l + f) n (fst q) (next_addr (l ++ R) base)) m w =
  run (malloc_loop freep f n (fst (List.last l q)) (next_addr R base)) m w.
Proof.
  induction l as [|c l IH]; intros q L R f Hs Hl; [done|]. apply Forall_cons in Hl as [[Hc1 Hc2] Hl].
  assert (Hseg := Hs). cbn [app] in Hseg. apply segment_app in Hseg as [_ (_ & _ & Hcp & Hcs & _)].
  cbn [length Nat.add malloc_loop app next_addr]. rewrite (run_step _ _ _ _ _ _ _ (run_umem m w)).
  rewrite Hcs, (proj2 (Z.leb_gt _ _)), (proj2 (Z.eqb_neq _ _)) by (done || lia). rewrite Hcp.
  rewrite (IH c (L ++ [q]) R f) by (done || by rewrite <- app_assoc). by rewrite last_cons.
Qed.

Lemma first_fit n (l : list block) : Forall (fun c => snd c < n) l \/
  exists l1 b l2, l = l1 ++ b :: l2 /\ Forall (fun c => snd c < n) l1 /\ n <= snd b.
Proof.
  induction l as [|c l IH]; [by left|]. destruct (Z.lt_ge_cases (snd c) n) as [Hc|Hc]; [|right; by exists [], c, l].
  destruct IH as [IH|(l1 & b & l2 & -> & H1 & H2)]; [left; by apply Forall_cons|]. right. exists (c :: l1), b, l2. by split; [|split; [apply Forall_cons|]].
Qed.

(** The result of a successful search *)
Definition found (m : mem) (fl : list block) (n : Z) (w : W) (x : U Z) : Prop :=
  exists m' r fl', run x m w = Returns r m' w /\ taken m fl n m' r fl'.

Lemma fit_run m fl P q b B n w f : freelist base freep heap top m fl -> (base, 0) :: fl = P ++ q :: b :: B -> 0 < n <= snd b ->
  found m fl n w (malloc_loop freep (S f) n (fst q) (fst b)).
Proof.
  intros F HN Hn. destruct (take_run m fl P q b B n F HN Hn) as (fl' & T). pose proof F as [_ _ Hr _]. rewrite HN in Hr.
  apply segment_app in Hr as [_ (_ & _ & _ & Hb2 & _)].
  eexists _, _, fl'. split; [|exact T]. cbn [malloc_loop]. rewrite (run_step _ _ _ _ _ _ _ (run_umem m w)).
  rewrite Hb2, (proj2 (Z.leb_le _ _)) by lia. destruct (take_units freep m (fst q) (fst b) n) as [m' r]. cbn [fst snd].
  by rewrite (run_step _ _ _ _ _ _ _ (run_uput _ _ _)).
Qed.

Lemma last_split {A} (l : list A) (q : A) : exists P, q :: l = P ++ [List.last l q].
Proof.
  revert q. induction l as [|c l IH]; intros q; [by exists []|]. destruct (IH c) as [P HP]. exists (q :: P). rewrite last_cons. cbn [app]. by rewrite <- HP.
Qed.

(** A part of the ring is searched. *)
Lemma scan_fit m fl L q l R n w f : freelist base freep heap top m fl -> (base, 0) :: fl = L ++ q :: l ++ R -> 0 < n ->
  Forall (fun c => fst c <> load64 m freep) l -> (length l < f)%nat ->
  found m fl n w (malloc_loop freep f n (fst q) (next_addr (l ++ R) base)) \/
  Forall (fun c => snd c < n) l /\
  run (malloc_loop freep f n (fst q) (next_addr (l ++ R) base)) m w =
  run (malloc_loop freep (f - length l) n (fst (List.last l q)) (next_addr R base)) m w.
Proof.
  intros F HN Hn Hne Hf. pose proof F as [_ _ Hr _]. rewrite HN in Hr. destruct (first_fit n l) as [Hall|(l1 & b & l2 & -> & H1 & H2)].
  - right. split; [done|]. replace f with (length l + (f - length l))%nat at 1 by lia. apply (scan m n w l q L); [done|].
    apply Forall_and. by split.
  - left. rewrite <- app_assoc in *. cbn [app] in *. rewrite length_app in Hf. cbn in Hf.
    destruct (last_split l1 q) as [P HP].
    assert (Hsc : run (malloc_loop freep f n (fst q) (next_addr (l1 ++ b :: l2 ++ R) base)) m w =
      run (malloc_loop freep (S (f - length l1 - 1)) n (fst (List.last l1 q)) (fst b)) m w).
    { replace f with (length l1 + S (f - length l1 - 1))%nat at 1 by lia. rewrite (scan m n w l1 q L (b :: l2 ++ R)); [done|done|].
      apply Forall_and. split; [done|]. by apply Forall_app in Hne as [? _]. }
    destruct (fit_run m fl (L ++ P) (List.last l1 q) b (l2 ++ R) n w (f - length l1 - 1) F) as (m' & r & fl' & E & T); [|lia|].
    { rewrite HN. rewrite app_comm_cons, HP, <- !app_assoc. done. }
    exists m', r, fl'. rewrite Hsc. by split.
Qed.

Lemma ring_unique m fl X k0 Y c : freelist base freep heap top m fl -> (base, 0) :: fl = X ++ k0 :: Y -> c ∈ X \/ c ∈ Y -> fst c <> fst k0.
Proof.
  intros [Hs _ _ _] HN Hc. rewrite HN in Hs. apply sorted_app in Hs as (_ & HX & [_ HY]%StronglySorted_inv). destruct Hc as [Hc|Hc].
  - destruct (HX c k0 Hc) as [_ H]; [by left|]. unfold UNIT in H. lia.
  - pose proof (proj1 (Forall_forall _ _) HY c Hc) as [_ H]. unfold UNIT in H. lia.
Qed.

(** The whole ring is searched from [*freep] on. *)
Lemma search m fl n w f : freelist base freep heap top m fl -> 0 < n -> (length fl + 3 < f)%nat ->
  let p := load64 m freep in
  found m fl n w (malloc_loop freep f n p (hptr m p)) \/
  Forall (fun c => snd c < n) fl /\ exists q f', (f - length fl - 2 <= S f')%nat /\
    run (malloc_loop freep f n p (hptr m p)) m w = run (malloc_loop freep (S f') n q p) m w /\ hsize m p < n.
Proof.
  intros F Hn Hf p. pose proof F as [_ _ Hr (k0 & Hk0 & Hp)]. fold p in Hp.
  apply list_elem_of_split in Hk0 as (X & Y & HN). assert (Hlen : length fl = (length X + length Y)%nat).
  { apply (f_equal length) in HN. rewrite length_app in HN. cbn in HN. lia. }
  rewrite HN in Hr. assert (Hr' := Hr). apply segment_app in Hr' as [_ (Hk1 & Hk2 & _)]. rewrite Hp, Hk1.
  assert (HuX : Forall (fun c => fst c <> load64 m freep) X /\ Forall (fun c => fst c <> load64 m freep) Y).
  { split; apply Forall_forall; intros c Hc; fold p; rewrite Hp; apply (ring_unique m fl X k0 Y); try done; tauto. }
  destruct HuX as [HuX HuY]. assert (HY := scan_fit m fl X k0 Y [] n w f F). rewrite app_nil_r in HY.
  destruct (HY HN Hn HuY ltac:(lia)) as [Hfound|[HnY EY]]; [by left|]. cbn [next_addr] in EY. clear HY.
  destruct X as [|c X].
  - cbn in HN. injection HN as <- <-. right. split; [done|]. destruct (f - length fl)%nat as [|g] eqn:Eg; [lia|]. eexists _, g. split; [lia|].
    rewrite EY. cbn [fst snd] in *. rewrite Hk2. done.
  - cbn in HN. injection HN as <- HX. cbn in Hlen. destruct (f - length Y)%nat as [|g] eqn:Eg; [lia|].
    assert (HN : (base, 0) :: fl = [] ++ (base, 0) :: X ++ k0 :: Y) by (by rewrite HX).
    apply Forall_cons in HuX as [Hb HuX]. destruct Hr as (Hb1 & Hb2 & _). cbn [fst snd] in *.
    assert (Eb : run (malloc_loop freep (S g) n (fst (List.last Y k0)) base) m w =
      run (malloc_loop freep g n base (next_addr (X ++ k0 :: Y) base)) m w).
    { cbn [malloc_loop]. rewrite (run_step _ _ _ _ _ _ _ (run_umem m w)).
      rewrite Hb2, (proj2 (Z.leb_gt _ _)), (proj2 (Z.eqb_neq _ _)), Hb1 by done. done. }
    destruct (scan_fit m fl [] (base, 0) X (k0 :: Y) n w g F HN Hn HuX ltac:(lia)) as [(m' & r & fl' & E & T)|[HnX EX]].
    + left. exists m', r, fl'. by rewrite EY, Eb.
    + cbn [fst next_addr] in EX. destruct (g - length X)%nat as [|g'] eqn:Eg'; [lia|].
      destruct (last_split X (base, 0)) as [P HP]. destruct (Z.lt_ge_cases (snd k0) n) as [Hlt|Hge].
      * right. split; [rewrite HX; apply Forall_app; split; [done|]; by apply Forall_cons|].
        eexists _, g'. split; [lia|]. rewrite EY, Eb, EX, Hk2. done.
      * left. destruct (fit_run m fl P (List.last X (base, 0)) k0 Y n w g' F) as (m' & r & fl' & E & T); [|lia|].
        { rewrite HX, app_comm_cons, HP, <- app_assoc. done. }
        exists m', r, fl'. by rewrite EY, Eb, EX.
Qed.

End Malloc.

Lemma freelist_grow base freep heap top top' m fl : freelist base freep heap top m fl -> top <= top' -> freelist base freep heap top' m fl.
Proof.
  intros [H1 H2 H3 H4] Ht. split; try done. eapply Forall_impl; [exact H2|]. intros c (? & ? & ?). split; [done|]. split; [done|lia].
Qed.

(** What [sbrk] promises: it refuses, or moves the end of the memory. *)
Class Sbrk (W : Type) `{!Os W} (brk : W -> Z) : Prop :=
  sbrk_answer : forall w n, 0 < n < 2 ^ 31 -> exists d w',
    (os_answer (SysSbrk n) w = (-1, d, w') /\ brk w' = brk w) \/ (os_answer (SysSbrk n) w = (brk w, d, w') /\ brk w' = brk w + n).

Section Heap.
Context {W : Type} `{!Os W} (brk : W -> Z) `{!Sbrk W brk} (base freep heap : Z).

(** The units [morecore] asks for *)
Definition core_units (n : Z) : Z := if n <? 4096 then 4096 else n.

Lemma morecore_run m w fl n fuel : layout base freep heap (brk w + UNIT * core_units n) -> heap <= brk w ->
  freelist base freep heap (brk w) m fl -> 0 < n -> UNIT * core_units n < 2 ^ 31 -> (length fl + 4 < fuel)%nat ->
  exists r m' w', run (morecore freep fuel n) m w = Returns r m' w' /\
    ((r = 0 /\ m' = m /\ brk w' = brk w /\ fst (fst (os_answer (SysSbrk (UNIT * core_units n)) w)) = -1) \/
     exists fl', r <> 0 /\ r = load64 m' freep /\ brk w' = brk w + UNIT * core_units n /\ freelist base freep heap (brk w') m' fl' /\
       (forall x, covers fl' x <-> covers fl x \/ brk w <= x < brk w') /\ (length fl' <= S (length fl))%nat /\
       (exists c, c ∈ fl' /\ n <= snd c) /\ (forall x, heap <= x < brk w -> ~ covers fl x -> m' x = m x)).
Proof.
  intros La Hhb F Hn Hu Hf. assert (Hnu : n <= core_units n /\ 0 < core_units n) by (unfold core_units; destruct (Z.ltb_spec n 4096); lia).
  unfold morecore. fold (core_units n). rewrite (Z.mul_comm (core_units n) UNIT).
  rewrite sint_wrap_small by (cbn; unfold UNIT in *; lia).
  destruct (sbrk_answer w (UNIT * core_units n) ltac:(unfold UNIT in *; lia)) as (d & w' & [[E Hb]|[E Hb]]).
  - rewrite (run_step _ _ _ _ _ _ _ (run_sys _ _ _ _ m _ E)). change (-1 =? -1) with true. cbv iota. rewrite run_ret. eexists _, _, _. split; [done|]. left. by rewrite E.
  - rewrite (run_step _ _ _ _ _ _ _ (run_sys _ _ _ _ m _ E)). destruct La as [L1 L2 L3 L4 L5 L6].
    assert (La : layout base freep heap (brk w')) by (rewrite Hb; by split).
    rewrite (proj2 (Z.eqb_neq _ _)) by (unfold UNIT in *; lia). rewrite (run_step _ _ _ _ _ _ _ (run_umem m w')).
    set (b := (brk w, core_units n)). set (m1 := set_hsize m (brk w) (core_units n)).
    assert (Hm1 : forall x, x < brk w -> m1 x = m x) by (intros x Hx; apply set_hsize_out; unfold header; lia).
    pose proof F as [Hs Hh Hr Hfp]. assert (Hfb : Forall (fun c => bend c <= brk w) fl) by (eapply Forall_impl; [exact Hh|]; by intros c (_ & _ & ?)).
    assert (F1 : freelist base freep heap (brk w') m1 fl).
    { apply (freelist_grow _ _ _ (brk w)); [|rewrite Hb; unfold UNIT in *; lia]. split; [done|done| |].
      - apply (segment_ext m); [|done]. intros c Hc x Hx. apply Hm1. destruct (ring_members base freep heap (brk w) m fl c F Hc) as [->|(? & ? & ?)];
          unfold header, bend, UNIT in *; cbn in *; lia.
      - destruct Hfp as (c & Hc & Hp). exists c. split; [done|]. rewrite <- Hp. apply load_ext. intros x Hx. apply Hm1. lia. }
    destruct (free_run base freep heap (brk w') La m1 fl b fuel F1) as (m' & fl' & Ef & F' & Hc & Hl & (c & Hcin & Hcs) & Hx);
      [split; [done|]; unfold b, bend; cbn [fst snd]; rewrite Hb; lia| | |done|].
    { eapply Forall_impl; [exact Hfb|]. intros c Hc. by left. }
    { apply hsize_set. cbn [snd]. unfold b, UNIT in *. cbn [snd] in *. lia. }
    unfold b in Ef. cbn [fst] in Ef. rewrite (run_step _ _ _ _ _ _ _ (run_opt _ _ _ _ Ef)), (run_step _ _ _ _ _ _ _ (run_uput _ _ _)).
    exists (load64 m' freep), m', w'. split; [done|]. right. exists fl'. assert (Hin : forall x, inside b x <-> brk w <= x < brk w') by (intros x; unfold inside, b, bend; cbn [fst snd]; rewrite Hb; lia).
    split; [|split; [done|split; [done|split; [done|split; [|split; [done|split; [exists c; split; [done|unfold b in Hcs; cbn [snd] in Hcs; lia]|]]]]]]].
    + destruct (fl_freep _ _ _ _ _ _ F') as (c' & Hc' & ->). destruct (ring_members base freep heap (brk w') m' fl' c' F' Hc') as [->|(? & _)]; cbn; unfold UNIT in *; lia.
    + intros x. by rewrite Hc, Hin.
    + intros x Hx1 Hx2. rewrite Hx; [apply Hm1; lia|lia|done|]. rewrite Hin. lia.
Qed.

(** The state of the allocator: free blocks [fl], blocks [al] in use.  Before the
    first call of [malloc] the list is not initialised. *)
Record heap_ok (m : mem) (w : W) (fl al : list block) : Prop := {
  ho_layout : layout base freep heap (brk w);
  ho_brk : heap <= brk w;
  ho_free : (load64 m freep = 0 /\ fl = [] /\ al = []) \/ freelist base freep heap (brk w) m fl;
  ho_used : Forall (fun b => in_heap heap (brk w) b /\ hsize m (fst b) = snd b) al;
  ho_apart : ForallOrdPairs apart_from al;
  ho_free_apart : forall b x, b ∈ al -> inside b x -> ~ covers fl x
}.

Definition units_of (nbytes : Z) : Z := (nbytes + UNIT - 1) / UNIT + 1.

(** Disjoint blocks are apart. *)
Lemma disjoint_apart b c : 0 < snd b -> 0 < snd c -> (forall x, inside b x -> inside c x -> False) -> apart_from b c.
Proof.
  intros Hb Hc H. unfold apart_from. destruct (Z.le_gt_cases (bend c) (fst b)) as [|H1]; [by left|].
  destruct (Z.le_gt_cases (bend b) (fst c)) as [|H2]; [by right|]. destruct (H (Z.max (fst b) (fst c))); unfold inside, bend, UNIT in *; lia.
Qed.

(** The first call sets up the ring. *)
Definition first_call (m : mem) : mem :=
  if load64 m freep =? 0 then set_hsize (store64 (set_hptr m base base) freep base) base 0 else m.

Lemma first_call_run m w fl al : heap_ok m w fl al ->
  freelist base freep heap (brk w) (first_call m) fl /\ (forall x, heap <= x -> first_call m x = m x).
Proof.
  intros [La Hb Hf _ _ _]. unfold first_call. destruct (Z.eqb_spec (load64 m freep) 0) as [H0|H0].
  - destruct Hf as [(_ & -> & _)|F].
    + destruct La as [L1 L2 L3 L4 L5 L6]. assert (Hbr : 0 <= base < 2 ^ 64) by (unfold UNIT in *; lia).
      assert (La : layout base freep heap (brk w)) by (by split). split; [split|].
      * by repeat constructor.
      * constructor.
      * cbn [segment next_addr fst snd]. split; [|split; [|done]].
        -- rewrite hptr_set_hsize, (hptr_freep base freep heap (brk w) La) by (by right). by apply hptr_set.
        -- by apply hsize_set.
      * exists (base, 0). split; [by left|]. cbn [fst]. unfold set_hsize. rewrite load_store_other by (unfold UNIT in *; lia).
        rewrite load_store. by apply Z.mod_small.
      * intros x Hx. rewrite set_hsize_out, store_freep, set_hptr_out; [done|..]; unfold header, UNIT in *; lia.
    + exfalso. destruct F as [_ Hh _ (c & Hc & Hp)]. rewrite H0 in Hp. apply elem_of_cons in Hc as [->|Hc]; cbn in Hp; [destruct La; lia|].
      apply (proj1 (Forall_forall _ _) Hh) in Hc as (? & _). destruct La. unfold UNIT in *. lia.
  - split; [|done]. by destruct Hf as [(? & _)|].
Qed.

(** Blocks in use are kept when only free memory changes. *)
Lemma used_kept (m m' : mem) w fl b : in_heap heap (brk w) b -> (forall x, inside b x -> ~ covers fl x) ->
  (forall x, heap <= x < brk w -> ~ covers fl x -> m' x = m x) -> forall x, inside b x -> m' x = m x.
Proof. intros (H1 & _ & H3) Hd Hx x Hi. apply Hx; [unfold inside in Hi; lia|by apply Hd]. Qed.

Lemma used_size (m m' : mem) b : 0 < snd b -> (forall x, inside b x -> m' x = m x) -> hsize m' (fst b) = hsize m (fst b).
Proof. intros Hb Hx. apply hsize_ext. intros x Hh. apply Hx. unfold inside, header, bend, UNIT in *. lia. Qed.

(** The state after [taken] *)
Lemma taken_ok m w fl al n m' r fl' : layout base freep heap (brk w) -> heap <= brk w ->
  Forall (fun b => in_heap heap (brk w) b /\ hsize m (fst b) = snd b) al -> ForallOrdPairs apart_from al ->
  (forall b x, b ∈ al -> inside b x -> ~ covers fl x) -> taken base freep heap (brk w) m fl n m' r fl' ->
  heap_ok m' w fl' ((r - UNIT, n) :: al) /\ (forall b x, b ∈ al -> inside b x -> m' x = m x).
Proof.
  intros La Hb Hu Ha Hd [T1 T2 T3 T4 T5 T6 T7].
  assert (Hk : forall b x, b ∈ al -> inside b x -> m' x = m x).
  { intros b x Hbin. apply (used_kept m m' w fl); [by apply (proj1 (Forall_forall _ _) Hu b)|by intros; apply (Hd b)|].
    intros y Hy. apply T7. lia. }
  split; [|done]. split; [done|done|by right| | |].
  - apply Forall_cons. split; [done|]. apply Forall_forall. intros b Hbin.
    pose proof (proj1 (Forall_forall _ _) Hu b Hbin) as [Hh Hs]. split; [done|]. rewrite <- Hs. apply used_size; [apply Hh|]. by intros; apply (Hk b).
  - constructor; [|done]. apply Forall_forall. intros b Hbin. pose proof (proj1 (Forall_forall _ _) Hu b Hbin) as [Hh _].
    apply disjoint_apart; [apply T2|apply Hh|]. intros x Hx Hbx. apply (Hd b x Hbin Hbx), T4. by right.
  - intros b x [->|Hbin]%elem_of_cons Hx Hc; [by apply (T5 x)|]. apply (Hd b x Hbin Hx), T4. by left.
Qed.

(** What [malloc] of [n] units gives: 0 when [sbrk] refused, or a block that was free or is new *)
Definition allocated (m : mem) (w : W) (fl al : list block) (n r : Z) (m' : mem) (w' : W) : Prop :=
  (forall b x, b ∈ al -> inside b x -> m' x = m x) /\
  ((r = 0 /\ brk w' = brk w /\ fst (fst (os_answer (SysSbrk (UNIT * core_units n)) w)) = -1 /\ heap_ok m' w' fl al) \/
   (exists fl', heap_ok m' w' fl' ((r - UNIT, n) :: al) /\
      forall x, covers fl' x \/ inside (r - UNIT, n) x <-> covers fl x \/ brk w <= x < brk w')).

Lemma found_allocated m m1 w fl al n m' r fl' : heap_ok m w fl al -> (forall x, heap <= x -> m1 x = m x) ->
  taken base freep heap (brk w) m1 fl n m' r fl' -> allocated m w fl al n r m' w.
Proof.
  intros [La Hb _ Hu Ha Hd] Hm1 T.
  destruct (taken_ok m1 w fl al n m' r fl') as [Hok Hk]; try done.
  - apply Forall_forall. intros b Hbin. pose proof (proj1 (Forall_forall _ _) Hu b Hbin) as [Hh Hs]. split; [done|]. rewrite <- Hs.
    apply used_size; [apply Hh|]. intros x Hx. apply Hm1. destruct Hh as (? & _). unfold inside in Hx. lia.
  - split.
    + intros b x Hbin Hx. rewrite (Hk b) by done. apply Hm1. pose proof (proj1 (Forall_forall _ _) Hu b Hbin) as [(? & _) _]. unfold inside in Hx. lia.
    + right. exists fl'. split; [done|]. intros x. rewrite (tk_covers _ _ _ _ _ _ _ _ _ _ T x). assert (~ brk w <= x < brk w) by lia. tauto.
Qed.

(** More memory was obtained before the search succeeded. *)
Lemma grown_allocated m m1 m2 w w2 fl fl2 al n m' r fl' : heap_ok m w fl al -> layout base freep heap (brk w2) -> brk w <= brk w2 ->
  (forall x, heap <= x -> m1 x = m x) -> (forall x, heap <= x < brk w -> ~ covers fl x -> m2 x = m1 x) ->
  (forall x, covers fl2 x <-> covers fl x \/ brk w <= x < brk w2) ->
  taken base freep heap (brk w2) m2 fl2 n m' r fl' -> allocated m w fl al n r m' w2.
Proof.
  intros [_ Hb _ Hu Ha Hd] La Hbb Hm1 Hm2 Hc T.
  assert (Hk2 : forall b x, b ∈ al -> inside b x -> m2 x = m x).
  { intros b x Hbin Hx. pose proof (proj1 (Forall_forall _ _) Hu b Hbin) as [(? & ? & ?) _]. unfold inside in Hx.
    rewrite Hm2 by (lia || by apply (Hd b)). apply Hm1. lia. }
  destruct (taken_ok m2 w2 fl2 al n m' r fl') as [Hok Hk]; try done; [lia| | |].
  - apply Forall_forall. intros b Hbin. pose proof (proj1 (Forall_forall _ _) Hu b Hbin) as [(H1 & H2 & H3) Hs].
    split; [split; [done|]; split; [done|lia]|]. rewrite <- Hs. apply used_size; [done|]. by intros; apply (Hk2 b).
  - intros b x Hbin Hx Hcx. apply Hc in Hcx as [Hcx|Hcx]; [by apply (Hd b x)|].
    pose proof (proj1 (Forall_forall _ _) Hu b Hbin) as [(_ & _ & ?) _]. unfold inside in Hx. lia.
  - split.
    + intros b x Hbin Hx. rewrite (Hk b) by done. by apply (Hk2 b).
    + right. exists fl'. split; [done|]. intros x. rewrite <- (tk_covers _ _ _ _ _ _ _ _ _ _ T x). apply Hc.
Qed.

Lemma refused_allocated m m1 w w' fl al n : heap_ok m w fl al -> (forall x, heap <= x -> m1 x = m x) -> freelist base freep heap (brk w) m1 fl ->
  brk w' = brk w -> fst (fst (os_answer (SysSbrk (UNIT * core_units n)) w)) = -1 -> allocated m w fl al n 0 m1 w'.
Proof.
  intros [La Hb _ Hu Ha Hd] Hm1 F Hbr Hr.
  assert (Hk : forall b x, b ∈ al -> inside b x -> m1 x = m x).
  { intros b x Hbin Hx. apply Hm1. pose proof (proj1 (Forall_forall _ _) Hu b Hbin) as [(? & _) _]. unfold inside in Hx. lia. }
  split; [done|]. left. split; [done|]. split; [done|]. split; [done|]. split; rewrite ?Hbr; try done; [by right|].
  apply Forall_forall. intros b Hbin. pose proof (proj1 (Forall_forall _ _) Hu b Hbin) as [Hh Hs].
  split; [done|]. rewrite <- Hs. apply used_size; [apply Hh|]. by intros; apply (Hk b).
Qed.

Lemma malloc_run m w fl al nbytes fuel : heap_ok m w fl al -> 0 <= nbytes -> UNIT * core_units (units_of nbytes) < 2 ^ 31 ->
  brk w + UNIT * core_units (units_of nbytes) < 2 ^ 35 -> (2 * length fl + 12 < fuel)%nat ->
  exists r m' w', run (malloc base freep fuel nbytes) m w = Returns r m' w' /\ allocated m w fl al (units_of nbytes) r m' w'.
Proof.
  intros H Hnb Hu Hbr Hf. destruct (first_call_run m w fl al H) as [F Hm1]. pose proof H as [La Hb _ _ _ _].
  assert (Hn : 0 < units_of nbytes) by (unfold units_of, UNIT; pose proof (Z.div_pos (nbytes + 16 - 1) 16); lia).
  assert (Hcu : units_of nbytes <= core_units (units_of nbytes) /\ 0 < core_units (units_of nbytes)) by (unfold core_units; destruct (Z.ltb_spec (units_of nbytes) 4096); lia).
  unfold malloc. fold (units_of nbytes). rewrite uint_wrap_small by (unfold UNIT in *; lia). set (n := units_of nbytes) in *. cbv zeta.
  rewrite (run_step _ _ _ _ _ _ _ (run_umem _ _)), (run_step _ _ _ _ _ _ _ (run_uput _ _ _)), (run_step _ _ _ _ _ _ _ (run_umem _ _)).
  fold (first_call m). set (m1 := first_call m) in *.
  destruct (search base freep heap (brk w) La m1 fl n w fuel F Hn ltac:(lia)) as [(m' & r & fl' & E & T)|(Hno & q & f' & Hf' & E & Hsz)].
  - exists r, m', w. split; [done|]. by apply (found_allocated m m1 w fl al n m' r fl').
  - cbv zeta in E. rewrite E. cbn [malloc_loop]. rewrite (run_step _ _ _ _ _ _ _ (run_umem _ _)).
    rewrite (proj2 (Z.leb_gt _ _)), Z.eqb_refl by done.
    assert (La2 : layout base freep heap (brk w + UNIT * core_units n)) by (destruct La; by split).
    destruct (morecore_run m1 w fl n f' La2 Hb F Hn Hu ltac:(lia)) as (r & m2 & w2 & E2 & [(-> & -> & Hbw & Hr)|(fl2 & Hr0 & -> & Hbw & F2 & Hc2 & Hl2 & (c & Hcin & Hcn) & Hx2)]).
    + rewrite (run_step _ _ _ _ _ _ _ E2). change (0 =? 0) with true. cbv iota. rewrite run_ret. eexists _, _, _. split; [done|].
      by apply (refused_allocated m m1 w w2).
    + rewrite (run_step _ _ _ _ _ _ _ E2), (proj2 (Z.eqb_neq _ 0)) by done. rewrite (run_step _ _ _ _ _ _ _ (run_umem _ _)).
      assert (La3 : layout base freep heap (brk w2)) by (by rewrite Hbw).
      destruct (search base freep heap (brk w2) La3 m2 fl2 n w2 f' F2 Hn ltac:(lia)) as [(m' & r & fl' & E3 & T)|(Hno2 & _)].
      * exists r, m', w2. split; [done|]. apply (grown_allocated m m1 m2 w w2 fl fl2 al n m' r fl'); try done. rewrite Hbw. unfold UNIT in *. lia.
      * exfalso. pose proof (proj1 (Forall_forall _ _) Hno2 c Hcin) as Hlt. cbn in Hlt. lia.
Qed.

(** [free] of a block in use *)
Definition freed (m : mem) (w : W) (fl al1 : list block) (b : block) (al2 : list block) (m' : mem) : Prop :=
  exists fl', heap_ok m' w fl' (al1 ++ al2) /\ (forall x, covers fl' x <-> covers fl x \/ inside b x) /\
    forall c x, c ∈ al1 ++ al2 -> inside c x -> m' x = m x.

Lemma ord_pairs_app (l1 l2 : list block) b : ForallOrdPairs apart_from (l1 ++ b :: l2) ->
  ForallOrdPairs apart_from (l1 ++ l2) /\ Forall (fun c => apart_from b c \/ apart_from c b) (l1 ++ l2).
Proof.
  induction l1 as [|c l1 IH]; cbn.
  - intros H. inversion H as [|? ? Hb Hl]; subst. split; [done|]. eapply Forall_impl; [exact Hb|]. by left.
  - intros H. inversion H as [|? ? Hc Hl]; subst. destruct (IH Hl) as [H1 H2]. apply Forall_app in Hc as [Hc1 [Hcb Hc2]%Forall_cons].
    split; [constructor; [by apply Forall_app|done]|]. apply Forall_cons. split; [by right|done].
Qed.

Lemma free_used m w fl al1 b al2 fuel : heap_ok m w fl (al1 ++ b :: al2) -> (length fl + 4 < fuel)%nat ->
  exists m', free freep fuel m (fst b + UNIT) = Some m' /\ freed m w fl al1 b al2 m'.
Proof.
  intros [La Hb Hf Hu Ha Hd] Hfu. assert (Hbin : b ∈ al1 ++ b :: al2) by (apply elem_of_app; right; by left).
  pose proof (proj1 (Forall_forall _ _) Hu b Hbin) as [Hbh Hbs]. destruct Hf as [(_ & _ & Hnil)|F]; [by destruct al1|].
  destruct (free_run base freep heap (brk w) La m fl b fuel F Hbh) as (m' & fl' & E & F' & Hc & _ & _ & Hx); [|done|done|].
  { apply Forall_forall. intros c Hcin. pose proof (proj1 (Forall_forall _ _) (fl_heap _ _ _ _ _ _ F) c Hcin) as (_ & ? & _).
    apply disjoint_apart; [apply Hbh|done|]. intros x Hi Hci. apply (Hd b x Hbin Hi). by exists c. }
  destruct (ord_pairs_app al1 al2 b Ha) as [Ha' Hab].
  assert (Hsub : forall c, c ∈ al1 ++ al2 -> c ∈ al1 ++ b :: al2).
  { intros c [Hc'|Hc']%elem_of_app; apply elem_of_app; [by left|right; by right]. }
  assert (Hdis : forall c x, c ∈ al1 ++ al2 -> inside c x -> ~ inside b x).
  { intros c x Hcin Hci Hbi. destruct (proj1 (Forall_forall _ _) Hab c Hcin) as [[?|?]|[?|?]]; unfold inside, bend in *; lia. }
  assert (Hk : forall c x, c ∈ al1 ++ al2 -> inside c x -> m' x = m x).
  { intros c x Hcin Hci. pose proof (proj1 (Forall_forall _ _) Hu c (Hsub c Hcin)) as [(? & _) _]. apply Hx.
    - unfold inside in Hci. lia.
    - by apply (Hd c x (Hsub c Hcin)).
    - by apply (Hdis c). }
  exists m'. split; [done|]. exists fl'. split; [|split; [done|done]]. split; [done|done|by right| |done|].
  - apply Forall_forall. intros c Hcin. pose proof (proj1 (Forall_forall _ _) Hu c (Hsub c Hcin)) as [Hh Hs].
    split; [done|]. rewrite <- Hs. apply used_size; [apply Hh|]. by intros; apply (Hk c).
  - intros c x Hcin Hci Hcx. apply Hc in Hcx as [Hcx|Hcx]; [by apply (Hd c x (Hsub c Hcin) Hci)|]. by apply (Hdis c x).
Qed.

End Heap.

(** C32 The user memory allocator.  In every state of the allocator [malloc] returns:
    the result is 0, only if [sbrk] refused more memory, or the address after the
    header of a block of [units_of nbytes] units, with room for [nbytes] bytes, that
    overlaps no block in use; the block comes from the free blocks and from what
    [sbrk] added, and exactly the rest stays free.  [free] of any block in use
    returns: exactly its bytes become free.  Neither changes a byte of another
    block in use, and both keep the state in order: the free blocks form a ring in
    address order in which no two blocks touch. *)
Theorem malloc_free_correct {W : Type} `{!Os W} (brk : W -> Z) `{!Sbrk W brk} (base freep heap : Z) (m : mem) (w : W) (fl al : list block) :
  heap_ok brk base freep heap m w fl al ->
  (forall nbytes fuel, 0 <= nbytes -> UNIT * core_units (units_of nbytes) < 2 ^ 31 ->
     brk w + UNIT * core_units (units_of nbytes) < 2 ^ 35 -> (2 * length fl + 12 < fuel)%nat ->
     nbytes <= UNIT * (units_of nbytes - 1) /\
     exists r m' w', run (malloc base freep fuel nbytes) m w = Returns r m' w' /\
       allocated brk base freep heap m w fl al (units_of nbytes) r m' w') /\
  (forall al1 b al2 fuel, al = al1 ++ b :: al2 -> (length fl + 4 < fuel)%nat ->
     exists m', free freep fuel m (fst b + UNIT) = Some m' /\ freed brk base freep heap m w fl al1 b al2 m').
Proof.
  intros H. split.
  - intros nbytes fuel Hn H1 H2 H3. split; [|by apply malloc_run].
    unfold units_of, UNIT. pose proof (Z.div_mod (nbytes + 16 - 1) 16). pose proof (Z.mod_pos_bound (nbytes + 16 - 1) 16). lia.
  - intros al1 b al2 fuel -> Hf. by apply free_used.
Qed.

(** ** Witness *)

(** A kernel that always grants memory; the state is the end of it. *)
#[local] Instance demo_brk_os : Os Z := fun c w => match c with SysSbrk n => (w, [], w + n) | _ => (-1, [], w) end.
#[local] Instance demo_sbrk : Sbrk Z id.
Proof. intros w n Hn. exists [], (w + n). right. done. Qed.

Lemma malloc_free_correct_witness : exists r m' w', run (malloc 4096 4112 100 40) (fun _ => 0) 8192 = Returns r m' w' /\
  allocated id 4096 4112 4120 (fun _ => 0) 8192 [] [] 4 r m' w'.
Proof.
  destruct (malloc_free_correct id 4096 4112 4120 (fun _ => 0) 8192 [] []) as [H _].
  - split; [by split; try (unfold UNIT; cbn; lia); right|cbn; lia|left; done|constructor|constructor|].
    intros b x Hb. by apply not_elem_of_nil in Hb.
  - destruct (H 40 100%nat) as [_ (r & m' & w' & E & A)]; [lia|reflexivity|reflexivity|apply Nat.ltb_lt; reflexivity|].
    exists r, m', w'. split; [exact E|exact A].
Defined.
