(* ===== verification/Sh.v ===== *)
(** * user/sh.c: the shell

    The parser works on the line in memory; the commands it allocates are nodes of
    a table, and a pointer to a command is an index into it ([malloc] is taken to
    succeed: the constructors do not test its result).  [argv] and [eargv] of a
    command hold the addresses of the first and after the last byte of each word;
    [nulterminate] writes the zeros that end the words after the parse. *)

From stdpp Require Import base list strings.
From Stdlib Require Import ZArith Lia.
From S2P Require Import Prelude Kstring User Ulib Uprintf.

(** ** Commands *)

Definition MAXARGS : nat := 10.

Inductive cnode : Type :=
| NExec (argv eargv : list Z)
| NRedir (cmd : nat) (file efile mode fd : Z)
| NPipe (lc rc : nat)
| NList (lc rc : nat)
| NBack (cmd : nat).

(** The state of the parser: [*ps] and the commands *)
Record pst : Type := Pst { p_pos : Z; p_cmds : list cnode }.

Inductive pres (A : Type) : Type :=
| POk (a : A) (s : pst)
| PPanic (why : string)
| PStuck (why : string).
Arguments POk {A} a s.
Arguments PPanic {A} why.
Arguments PStuck {A} why.

Definition P (A : Type) : Type := pst -> pres A.
Definition pret {A} (a : A) : P A := fun s => POk a s.
Definition pbind' {A B} (x : P A) (f : A -> P B) : P B := fun s =>
  match x s with POk a s' => f a s' | PPanic w => PPanic w | PStuck w => PStuck w end.
Definition ppanic {A} (why : string) : P A := fun _ => PPanic why.

Declare Scope parse_scope.
Delimit Scope parse_scope with parse.
Notation "x <- c1 ;; c2" := (pbind' c1 (fun x => c2)) (at level 100, c1 at next level, right associativity) : parse_scope.
Notation "e1 ;; e2" := (pbind' e1 (fun _ => e2)) (at level 100, right associativity) : parse_scope.

(** Allocation: the new node is last in the table. *)
Definition new_cmd (n : cnode) : P nat := fun s => POk (length (p_cmds s)) (Pst (p_pos s) (p_cmds s ++ [n])).

Definition execcmd : P nat := new_cmd (NExec (replicate MAXARGS 0) (replicate MAXARGS 0)).
Definition redircmd (subcmd : nat) (file efile mode fd : Z) : P nat := new_cmd (NRedir subcmd file efile mode fd).
Definition pipecmd (lc rc : nat) : P nat := new_cmd (NPipe lc rc).
Definition listcmd (lc rc : nat) : P nat := new_cmd (NList lc rc).
Definition backcmd (subcmd : nat) : P nat := new_cmd (NBack subcmd).

(** [cmd->argv[argc] = q; cmd->eargv[argc] = eq;] *)
Definition set_arg (cmd : nat) (argc : nat) (q eq : Z) : P unit := fun s =>
  match p_cmds s !! cmd with
  | Some (NExec argv eargv) =>
      if (argc <? MAXARGS)%nat
      then POk tt (Pst (p_pos s) (<[cmd := NExec (<[argc := q]> argv) (<[argc := eq]> eargv)]> (p_cmds s)))
      else PStuck "argv"
  | _ => PStuck "cmd"
  end.

(** ** Tokens *)

Definition whitespace : list Z := [32; 9; 13; 10; 11].
Definition symbols : list Z := [60; 124; 62; 38; 59; 40; 41].
Definition O_WRONLY : Z := 1.
Definition O_RDWR : Z := 2.
Definition O_CREATE : Z := 512.
Definition O_TRUNC : Z := 1024.

(** [strchr(l, c) != 0] for a constant string *)
Definition has (l : list Z) (c : Z) : bool := existsb (Z.eqb c) l.

Section Parse.
(** The memory, the end of the line, and a bound on the length of a token *)
Context (m : mem) (es : Z) (fuel : nat).
Local Open Scope parse_scope.

(** [while(s < es && p( *s )) s++;] *)
Fixpoint skip (k : nat) (p : Z -> bool) (s : Z) : option Z :=
  if (s <? es) && p (m s) then
    match k with
    | O => None
    | S k => skip k p (s + 1)
    end
  else Some s.

Definition pskip (p : Z -> bool) (s : Z) : P Z := fun st =>
  match skip fuel p s with Some s' => POk s' st | None => PStuck "fuel" end.

Definition get_pos : P Z := fun s => POk (p_pos s) s.
Definition set_pos (a : Z) : P unit := fun s => POk tt (Pst a (p_cmds s)).

(** The token, and where it starts and ends *)
Definition gettoken : P (Z * Z * Z) :=
  s <- get_pos ;;
  s <- pskip (has whitespace) s ;;
  let q := s in
  let c := m s in
  r <- (if c =? 0 then pret (c, s)
        else if has [124; 40; 41; 59; 38; 60] c then pret (c, s + 1)
        else if c =? 62 then (if m (s + 1) =? 62 then pret (43, s + 2) else pret (c, s + 1))
        else
          s <- pskip (fun c => negb (has whitespace c) && negb (has symbols c)) s ;;
          pret (97, s)) ;;
  let '(ret, s) := r in
  let eq := s in
  s <- pskip (has whitespace) s ;;
  set_pos s ;;
  pret (ret, q, eq).

Definition peek (toks : list Z) : P bool :=
  s <- get_pos ;;
  s <- pskip (has whitespace) s ;;
  set_pos s ;;
  pret (truth (m s) && has toks (m s)).

(** ** Parsing *)

Fixpoint parseredirs (k : nat) (cmd : nat) : P nat :=
  b <- peek [60; 62] ;;
  if b then
    match k with
    | O => fun _ => PStuck "fuel"
    | S k =>
        t <- gettoken ;;
        let '(tok, _, _) := t in
        t <- gettoken ;;
        let '(tok2, q, eq) := t in
        if negb (tok2 =? 97) then ppanic "missing file for redirection"
        else
          cmd <- (if tok =? 60 then redircmd cmd q eq O_RDONLY 0
                  else if tok =? 62 then redircmd cmd q eq (Z.lor (Z.lor O_WRONLY O_CREATE) O_TRUNC) 1
                  else if tok =? 43 then redircmd cmd q eq (Z.lor O_WRONLY O_CREATE) 1
                  else pret cmd) ;;
          parseredirs k cmd
    end
  else pret cmd.

(** The loop of [parseexec]: [argc] and [ret] at its end *)
Fixpoint parseargs (k : nat) (cmd ret argc : nat) : P (nat * nat) :=
  b <- peek [124; 41; 38; 59] ;;
  if b then pret (argc, ret)
  else
    match k with
    | O => fun _ => PStuck "fuel"
    | S k =>
        t <- gettoken ;;
        let '(tok, q, eq) := t in
        if tok =? 0 then pret (argc, ret)
        else if negb (tok =? 97) then ppanic "syntax"
        else
          set_arg cmd argc q eq ;;
          let argc := S argc in
          if (MAXARGS <=? argc)%nat then ppanic "too many args"
          else
            ret <- parseredirs fuel ret ;;
            parseargs k cmd ret argc
    end.

(** [while(peek(ps, es, "&")) { gettoken(ps, es, 0, 0); cmd = backcmd(cmd); }] *)
Fixpoint parseback (k : nat) (cmd : nat) : P nat :=
  b <- peek [38] ;;
  if b then
    match k with
    | O => fun _ => PStuck "fuel"
    | S k =>
        gettoken ;;
        cmd <- backcmd cmd ;;
        parseback k cmd
    end
  else pret cmd.

(** The rest of [parseexec], without the block *)
Definition parsesimple : P nat :=
  ret <- execcmd ;;
  let cmd := ret in
  ret <- parseredirs fuel ret ;;
  r <- parseargs fuel cmd ret 0 ;;
  let '(argc, ret) := r in
  set_arg cmd argc 0 0 ;;
  pret ret.

Fixpoint parseline (k : nat) : P nat :=
  match k with
  | O => fun _ => PStuck "fuel"
  | S k =>
      cmd <- parsepipe k ;;
      cmd <- parseback fuel cmd ;;
      b <- peek [59] ;;
      if b then
        gettoken ;;
        rc <- parseline k ;;
        listcmd cmd rc
      else pret cmd
  end
with parsepipe (k : nat) : P nat :=
  match k with
  | O => fun _ => PStuck "fuel"
  | S k =>
      cmd <- parseexec k ;;
      b <- peek [124] ;;
      if b then
        gettoken ;;
        rc <- parsepipe k ;;
        pipecmd cmd rc
      else pret cmd
  end
with parseexec (k : nat) : P nat :=
  match k with
  | O => fun _ => PStuck "fuel"
  | S k =>
      b <- peek [40] ;;
      if b then parseblock k else parsesimple
  end
with parseblock (k : nat) : P nat :=
  match k with
  | O => fun _ => PStuck "fuel"
  | S k =>
      b <- peek [40] ;;
      if negb b then ppanic "parseblock"
      else
        gettoken ;;
        cmd <- parseline k ;;
        b <- peek [41] ;;
        if negb b then ppanic "syntax - missing )"
        else
          gettoken ;;
          parseredirs fuel cmd
  end.
End Parse.

(** [for(i=0; argv[i]; i++) *eargv[i] = 0;] *)
Fixpoint end_words (argv eargv : list Z) (m : mem) : mem :=
  match argv, eargv with
  | a :: argv, e :: eargv => if a =? 0 then m else end_words argv eargv (store8 m e 0)
  | _, _ => m
  end.

Fixpoint nulterminate (k : nat) (cmds : list cnode) (cmd : nat) (m : mem) : option mem :=
  match k with
  | O => None
  | S k =>
      match cmds !! cmd with
      | None => None
      | Some (NExec argv eargv) => Some (end_words argv eargv m)
      | Some (NRedir cmd file efile mode fd) =>
          m ← nulterminate k cmds cmd m ;
          Some (store8 m efile 0)
      | Some (NPipe lc rc) => m ← nulterminate k cmds lc m ; nulterminate k cmds rc m
      | Some (NList lc rc) => m ← nulterminate k cmds lc m ; nulterminate k cmds rc m
      | Some (NBack cmd) => nulterminate k cmds cmd m
      end
  end.

(** ** Running commands *)

Section Shell.
(** A bound on strings and loops, and the addresses of [buf] and of local variables *)
Context (fuel : nat) (buf c_local p_local : Z).

(** [fprintf(2, "%s\n", s); exit(1);] for a constant message *)
Definition panic {A} (s : string) : U A :=
  putcs 2 (litn s) ;;
  uexit 1.

Definition fork1 : U Z :=
  pid <- sys SysFork ;;
  if pid =? -1 then panic "fork" else uret pid.

(** The arguments of [exec]: the strings up to the null pointer *)
Fixpoint get_args (l : list Z) : U (list (list Z)) :=
  match l with
  | [] => stuck "argv"
  | a :: l =>
      if a =? 0 then uret []
      else
        s <- ustr fuel a ;;
        r <- get_args l ;;
        uret (s :: r)
  end.

Fixpoint runcmd (k : nat) (cmds : list cnode) (cmd : nat) : U unit :=
  match k with
  | O => stuck "fuel"
  | S k =>
      match cmds !! cmd with
      | None => stuck "cmd"
      | Some (NExec argv _) =>
          let a0 := default 0 (head argv) in
          if a0 =? 0 then uexit 1
          else
            path <- ustr fuel a0 ;;
            args <- get_args argv ;;
            sys (SysExec path args) ;;
            fprintf fuel 2 (litn "exec %s failed") [a0] ;;
            uexit 0
      | Some (NRedir cmd file _ mode fd) =>
          sys (SysClose fd) ;;
          r <- sys_open fuel file mode ;;
          if r <? 0 then
            fprintf fuel 2 (litn "open %s failed") [file] ;;
            uexit 1
          else
            runcmd k cmds cmd ;;
            uexit 0
      | Some (NList lc rc) =>
          pid <- fork1 ;;
          uwhen (pid =? 0) (runcmd k cmds lc) ;;
          sys SysWait ;;
          runcmd k cmds rc ;;
          uexit 0
      | Some (NPipe lc rc) =>
          r <- sys_pipe p_local ;;
          if r <? 0 then panic "pipe"
          else
            p0 <- uload32 p_local ;;
            p1 <- uload32 (p_local + 4) ;;
            pid <- fork1 ;;
            uwhen (pid =? 0)
              (sys (SysClose 1) ;;
               sys (SysDup p1) ;;
               sys (SysClose p0) ;;
               sys (SysClose p1) ;;
               runcmd k cmds lc) ;;
            pid <- fork1 ;;
            uwhen (pid =? 0)
              (sys (SysClose 0) ;;
               sys (SysDup p0) ;;
               sys (SysClose p0) ;;
               sys (SysClose p1) ;;
               runcmd k cmds rc) ;;
            sys (SysClose p0) ;;
            sys (SysClose p1) ;;
            sys SysWait ;;
            sys SysWait ;;
            uexit 0
      | Some (NBack cmd) =>
          pid <- fork1 ;;
          uwhen (pid =? 0) (runcmd k cmds cmd) ;;
          uexit 0
      end
  end.

(** The commands of the line at [s], and its root *)
Definition parsecmd (s : Z) : U (list cnode * nat) :=
  m <- umem ;;
  n <- of_opt (strlen fuel m s) ;;
  let es := s + n in
  match pbind' (parseline m es fuel fuel) (fun cmd => pbind' (peek m es fuel []) (fun _ => pret cmd)) (Pst s []) with
  | PPanic w => panic w
  | PStuck w => stuck w
  | POk cmd st =>
      if negb (p_pos st =? es) then
        fprintf fuel 2 (litn "leftovers: %s") [p_pos st] ;;
        panic "syntax"
      else
        m <- of_opt (nulterminate (S (length (p_cmds st))) (p_cmds st) cmd m) ;;
        uput m ;;
        uret (p_cmds st, cmd)
  end.

Definition getcmd (nbuf : Z) : U Z :=
  sys (SysWrite 2 (lit "$ ")) ;;
  m <- umem ;;
  uput (memset m buf 0 nbuf) ;;
  gets c_local buf nbuf ;;
  b <- uload8 buf ;;
  uret (if b =? 0 then -1 else 0).

(** [while((fd = open("console", O_RDWR)) >= 0) if(fd >= 3) { close(fd); break; }] *)
Fixpoint open_console (k : nat) : U unit :=
  match k with
  | O => stuck "fuel"
  | S k =>
      fd <- sys (SysOpen (lit "console") O_RDWR) ;;
      if fd <? 0 then uret tt
      else if 3 <=? fd then sys (SysClose fd) ;; uret tt
      else open_console k
  end.

(** [while( *cmd == ' ' || *cmd == '\t' ) cmd++;] *)
Fixpoint skip_blanks (k : nat) (m : mem) (cmd : Z) : option Z :=
  if (m cmd =? 32) || (m cmd =? 9) then
    match k with
    | O => None
    | S k => skip_blanks k m (cmd + 1)
    end
  else Some cmd.

(** One line: [cd] is run by the shell, other commands by a child. *)
Definition run_line : U unit :=
  m <- umem ;;
  cmd <- of_opt (skip_blanks fuel m buf) ;;
  if m cmd =? 10 then uret tt
  else if (m cmd =? 99) && (m (cmd + 1) =? 100) && (m (cmd + 2) =? 32) then
    n <- of_opt (strlen fuel m cmd) ;;
    ustore8 (cmd + n - 1) 0 ;;
    r <- sys_chdir fuel (cmd + 3) ;;
    uwhen (r <? 0) (fprintf fuel 2 (litn "cannot cd %s") [cmd + 3])
  else
    pid <- fork1 ;;
    uwhen (pid =? 0)
      (c <- parsecmd cmd ;;
       runcmd (S (length (fst c))) (fst c) (snd c)) ;;
    sys SysWait ;;
    uret tt.

Fixpoint sh_loop (k : nat) : U unit :=
  match k with
  | O => stuck "fuel"
  | S k =>
      r <- getcmd 100 ;;
      if r <? 0 then uexit 0
      else
        run_line ;;
        sh_loop k
  end.

Definition sh_main : U unit :=
  open_console fuel ;;
  sh_loop fuel.
End Shell.
