(* ===== verification/ShParse.v ===== *)
(** * The parser of user/sh.c

    Command trees are printed as lines of the shell, with parentheses where the
    grammar needs them, and the parser reads every such line back as its tree. *)

From stdpp Require Import base list strings.
From Stdlib Require Import ZArith Lia.
From S2P Require Import Prelude Kstring User Ulib Uprintf Sh.

(** ** Command trees *)

Inductive rkind : Type := RIn | ROut | RApp.

Inductive ctree : Type :=
| TExec (args : list (list Z))
| TRedir (t : ctree) (file : list Z) (k : rkind)
| TPipe (l r : ctree)
| TList (l r : ctree)
| TBack (t : ctree).

Definition rmode (k : rkind) : Z :=
  match k with
  | RIn => O_RDONLY
  | ROut => Z.lor (Z.lor O_WRONLY O_CREATE) O_TRUNC
  | RApp => Z.lor O_WRONLY O_CREATE
  end.
Definition rfd (k : rkind) : Z := match k with RIn => 0 | _ => 1 end.

(** Words: no blank, no symbol, no zero byte, not empty *)
Definition word_char (c : Z) : Prop := 0 < c < 256 /\ c ∉ whitespace /\ c ∉ symbols.
Definition word (w : list Z) : Prop := w <> [] /\ Forall word_char w.

Fixpoint wf_tree (t : ctree) : Prop :=
  match t with
  | TExec args => (length args < MAXARGS)%nat /\ Forall word args
  | TRedir t f _ => wf_tree t /\ word f
  | TPipe l r => wf_tree l /\ wf_tree r
  | TList l r => wf_tree l /\ wf_tree r
  | TBack t => wf_tree t
  end.

(** ** Tokens *)

Inductive token : Type :=
| TkWord (w : list Z)
| TkSym (c : Z)
| TkApp.

Definition chars (t : token) : list Z := match t with TkWord w => w | TkSym c => [c] | TkApp => [62; 62] end.
Definition code (t : token) : Z := match t with TkWord _ => 97 | TkSym c => c | TkApp => 43 end.
Definition tok_ok (t : token) : Prop :=
  match t with TkWord w => word w | TkSym c => c ∈ symbols | TkApp => True end.

Definition rtok (k : rkind) : token := match k with RIn => TkSym 60 | ROut => TkSym 62 | RApp => TkApp end.

(** A line: each token is followed by a blank. *)
Definition flat (l : list token) : list Z := concat ((fun t => chars t ++ [32]) <$> l).

(** ** Printing *)

Definition paren (l : list token) : list token := TkSym 40 :: l ++ [TkSym 41].

(** Levels: 0 a line, 1 a pipe followed by [&], 2 a pipe, 3 a command *)
Fixpoint print (lvl : nat) (t : ctree) : list token :=
  match t with
  | TExec args => TkWord <$> args
  | TRedir t f k => print 3 t ++ [rtok k; TkWord f]
  | TPipe l r => let p := print 3 l ++ TkSym 124 :: print 2 r in if (lvl <=? 2)%nat then p else paren p
  | TBack t => let p := print 1 t ++ [TkSym 38] in if (lvl <=? 1)%nat then p else paren p
  | TList l r => let p := print 1 l ++ TkSym 59 :: print 0 r in if (lvl =? 0)%nat then p else paren p
  end.

(** ** What a parse gives *)

(** The word [w] is between [a] and [e]. *)
Definition word_at (m : mem) (w : list Z) (a e : Z) : Prop :=
  0 < a /\ e = a + Z.of_nat (length w) /\ bytes_at m a (length w) = w /\ m e = 32.

Inductive denotes (m : mem) (cmds : list cnode) : nat -> ctree -> Prop :=
| den_exec i args starts ends :
    cmds !! i = Some (NExec (starts ++ replicate (MAXARGS - length args) 0) (ends ++ replicate (MAXARGS - length args) 0)) ->
    Forall3 (word_at m) args starts ends ->
    denotes m cmds i (TExec args)
| den_redir i j t f k a e : cmds !! i = Some (NRedir j a e (rmode k) (rfd k)) -> (j < i)%nat -> word_at m f a e ->
    denotes m cmds j t -> denotes m cmds i (TRedir t f k)
| den_pipe i l r tl tr : cmds !! i = Some (NPipe l r) -> (l < i)%nat -> (r < i)%nat ->
    denotes m cmds l tl -> denotes m cmds r tr -> denotes m cmds i (TPipe tl tr)
| den_list i l r tl tr : cmds !! i = Some (NList l r) -> (l < i)%nat -> (r < i)%nat ->
    denotes m cmds l tl -> denotes m cmds r tr -> denotes m cmds i (TList tl tr)
| den_back i j t : cmds !! i = Some (NBack j) -> (j < i)%nat -> denotes m cmds j t -> denotes m cmds i (TBack t).

Lemma denotes_app m cmds l i t : denotes m cmds i t -> denotes m (cmds ++ l) i t.
Proof.
  induction 1 as [i args st en H1 H2|i j t f k a e H|i c d tl tr H|i c d tl tr H|i j t H].
  - by eapply den_exec; [apply lookup_app_l_Some|..].
  - by eapply den_redir; [apply lookup_app_l_Some|..].
  - by eapply den_pipe; [apply lookup_app_l_Some|..].
  - by eapply den_list; [apply lookup_app_l_Some|..].
  - by eapply den_back; [apply lookup_app_l_Some|..].
Qed.

(** ** Scanning *)

Lemma has_false l c : c ∉ l -> has l c = false.
Proof.
  intros H. unfold has. destruct (existsb (Z.eqb c) l) eqn:E; [|done]. apply existsb_exists in E as (d & Hd & ->%Z.eqb_eq).
  by apply list_elem_of_In in Hd.
Qed.

Lemma flat_cons t l : flat (t :: l) = chars t ++ 32 :: flat l.
Proof. unfold flat. cbn. by rewrite <- app_assoc. Qed.

Lemma flat_app l1 l2 : flat (l1 ++ l2) = flat l1 ++ flat l2.
Proof. unfold flat. by rewrite fmap_app, concat_app. Qed.

Lemma sym_not_blank c : c ∈ symbols -> c ∉ whitespace.
Proof.
  intros H%list_elem_of_In Hw%list_elem_of_In. cbn in H, Hw. destruct_or! H; destruct_or! Hw; subst; done.
Qed.

Lemma chars_first t : tok_ok t -> exists c l, chars t = c :: l /\ c ∉ whitespace /\ c <> 0.
Proof.
  destruct t as [w|c|]; cbn.
  - intros [Hn Hw]. destruct w as [|c w]; [done|]. apply Forall_cons in Hw as [(H0 & H1 & _) _]. exists c, w. split; [done|]. split; [done|lia].
  - intros Hc. exists c, []. split; [done|]. split; [by apply sym_not_blank|]. intros ->. apply list_elem_of_In in Hc. cbn in Hc. destruct_or! Hc; done.
  - intros _. exists 62, [62]. split; [done|]. split; [|done]. intros H%list_elem_of_In. cbn in H. destruct_or! H; done.
Qed.

Lemma pbind_ok {A B} (x : P A) (f : A -> P B) s a s' : x s = POk a s' -> pbind' x f s = f a s'.
Proof. intros E. unfold pbind'. by rewrite E. Qed.

(** Runs the next step of a parse with the equation given for it. *)
Ltac pstep E := erewrite pbind_ok by (apply E; first [done | lia]); cbv beta iota zeta.

Section Scan.
Context (m : mem) (es : Z) (fuel : nat).

(** The rest of the line from [p] on *)
Definition line_at (p : Z) (l : list Z) : Prop := cstring m p l /\ es = p + Z.of_nat (length l) /\ (length l < fuel)%nat /\ 0 < p.

Lemma line_head p l : line_at p l -> m p = default 0 (head l).
Proof. intros [H _]. destruct l as [|b l]; [by apply cstring_nil in H|]. by apply cstring_cons in H as (-> & _). Qed.

Lemma line_tail p a l : line_at p (a ++ l) -> line_at (p + Z.of_nat (length a)) l.
Proof.
  intros (H & Hes & Hf & Hp). rewrite length_app in Hes, Hf. split; [|split_and!; lia]. clear Hp. revert p H Hes. induction a as [|b a IH]; intros p H Hes.
  - cbn. by rewrite Z.add_0_r.
  - cbn [app] in H. apply cstring_cons in H as (_ & _ & H). cbn [length]. replace (p + Z.of_nat (S (length a))) with (p + 1 + Z.of_nat (length a)) by lia.
    apply IH; [cbn in Hf; lia|done|cbn [length] in Hes; lia].
Qed.

Lemma skip_run (f : Z -> bool) a : forall k p l, line_at p (a ++ l) -> Forall (fun c => f c = true) a ->
  (match l with [] => True | c :: _ => f c = false end) -> (length a <= k)%nat -> skip m es k f p = Some (p + Z.of_nat (length a)).
Proof.
  induction a as [|c a IH]; intros k p l H Ha Hl Hk.
  - cbn [app length] in *. rewrite Z.add_0_r.
    assert (Hstop : (p <? es) && f (m p) = false).
    { destruct l as [|c l]; [destruct H as (_ & Hes & _); cbn in Hes; by rewrite (proj2 (Z.ltb_ge _ _)) by lia|].
      rewrite (line_head _ _ H). cbn [head from_option id]. by rewrite Hl, andb_false_r. }
    destruct k; cbn [skip]; by rewrite Hstop.
  - apply Forall_cons in Ha as [Hc Ha]. pose proof H as (_ & Hes & _). cbn [app length] in Hes.
    destruct k as [|k]; [cbn in Hk; lia|]. cbn [skip]. rewrite (line_head _ _ H). cbn [app head from_option id]. rewrite Hc.
    rewrite (proj2 (Z.ltb_lt _ _)) by lia. cbn [andb]. rewrite (IH k (p + 1) l); [cbn [length]; f_equal; lia| |done|done|cbn in Hk; lia].
    apply (line_tail p [c] (a ++ l)). done.
Qed.

Definition toks_at (p : Z) (l : list token) : Prop := line_at p (flat l) /\ Forall tok_ok l.

Lemma toks_next p t l : toks_at p (t :: l) -> toks_at (p + Z.of_nat (length (chars t)) + 1) l.
Proof.
  intros [H Hok]. apply Forall_cons in Hok as [_ Hok]. split; [|done]. rewrite flat_cons in H.
  replace (p + Z.of_nat (length (chars t)) + 1) with (p + Z.of_nat (length (chars t ++ [32]))) by (rewrite length_app; cbn; lia).
  apply line_tail. by rewrite <- app_assoc.
Qed.

(** No blank is skipped at a token or at the end. *)
Lemma skip_none p l : toks_at p l -> skip m es fuel (has whitespace) p = Some p.
Proof.
  intros [H Hok]. rewrite (skip_run _ [] _ _ (flat l)); [cbn; f_equal; lia|done|constructor| |cbn; lia].
  destruct l as [|t l]; [done|]. apply Forall_cons in Hok as [Ht _]. destruct (chars_first t Ht) as (c & r & Hc & Hw & _).
  rewrite flat_cons, Hc. cbn [app]. by apply has_false.
Qed.

Lemma peek_run p l cmds set : toks_at p l ->
  peek m es fuel set (Pst p cmds) = POk (match l with [] => false | t :: _ => has set (default 0 (head (chars t))) end) (Pst p cmds).
Proof.
  intros H. unfold peek, pbind', pskip, get_pos, set_pos, pret. cbn [p_pos p_cmds]. rewrite (skip_none p l H). cbn [p_pos p_cmds].
  rewrite (line_head p (flat l) (proj1 H)). f_equal. destruct l as [|t l]; [done|].
  destruct H as [_ [Ht _]%Forall_cons]. destruct (chars_first t Ht) as (c & r & Hc & _ & Hc0). rewrite flat_cons, Hc. cbn [app head from_option id].
  by rewrite (proj2 (truth_true c)).
Qed.

(** The blank after a token is skipped. *)
Lemma skip_blank p t l : toks_at p (t :: l) ->
  skip m es fuel (has whitespace) (p + Z.of_nat (length (chars t))) = Some (p + Z.of_nat (length (chars t)) + 1).
Proof.
  intros H. pose proof (toks_next p t l H) as [Hn Hok]. destruct H as [H _]. rewrite flat_cons in H.
  rewrite (skip_run _ [32] _ _ (flat l)); [done|by apply line_tail|by repeat constructor| |].
  - destruct l as [|t' l]; [done|]. apply Forall_cons in Hok as [Ht _]. destruct (chars_first t' Ht) as (c & r & Hc & Hw & _).
    rewrite flat_cons, Hc. cbn [app]. by apply has_false.
  - destruct H as (_ & _ & Hf & _). rewrite length_app in Hf. cbn in *. lia.
Qed.

Lemma word_run p w l : toks_at p (TkWord w :: l) ->
  skip m es fuel (fun c => negb (has whitespace c) && negb (has symbols c)) p = Some (p + Z.of_nat (length w)).
Proof.
  intros [H [[_ Hw] _]%Forall_cons]. rewrite flat_cons in H. pose proof H as (_ & _ & Hf & _). rewrite length_app in Hf.
  apply (skip_run _ w _ _ (32 :: flat l)); [done| |done|cbn in *; lia].
  eapply Forall_impl; [exact Hw|]. intros c (_ & H1 & H2). by rewrite !has_false.
Qed.

Lemma gettoken_run p t l cmds : toks_at p (t :: l) ->
  gettoken m es fuel (Pst p cmds) =
  POk (code t, p, p + Z.of_nat (length (chars t))) (Pst (p + Z.of_nat (length (chars t)) + 1) cmds).
Proof.
  intros H. pose proof (skip_blank p t l H) as Hsb. unfold gettoken, pbind', pskip, get_pos, set_pos, pret. cbn [p_pos p_cmds].
  rewrite (skip_none p (t :: l) H). pose proof (line_head p _ (proj1 H)) as Hm. rewrite flat_cons in Hm.
  pose proof H as [Hl [Ht _]%Forall_cons]. destruct t as [w|c|]; cbn [chars code] in *.
  - destruct (chars_first (TkWord w) Ht) as (c & r & Hc & Hw & Hc0). cbn in Hc.
    assert (Hmp : m p = c) by (by rewrite Hm, Hc). rewrite Hmp.
    destruct Ht as [_ Hall]. rewrite Hc in Hall. apply Forall_cons in Hall as [(_ & _ & Hs) _].
    rewrite (proj2 (Z.eqb_neq c 0)) by done. assert (has [124; 40; 41; 59; 38; 60] c = false) as ->.
    { apply has_false. intros Hin. apply Hs. apply list_elem_of_In. apply list_elem_of_In in Hin. cbn in *. tauto. }
    rewrite (proj2 (Z.eqb_neq c 62)) by (intros ->; apply Hs, list_elem_of_In; cbn; tauto).
    rewrite (word_run p w l H). cbn [p_pos p_cmds]. by rewrite Hsb.
  - cbn [app head from_option id] in Hm. rewrite Hm. cbn [length] in Hsb. change (Z.of_nat 1) with 1 in *.
    assert (Hn : m (p + 1) = 32).
    { rewrite flat_cons in Hl. exact (line_head _ _ (line_tail p [c] (32 :: flat l) Hl)). }
    apply list_elem_of_In in Ht. cbn in Ht. rewrite Hn.
    clear Hm. destruct_or! Ht; subst c; try done; cbn; cbn in Hsb; by rewrite Hsb.
  - cbn [app head from_option id] in Hm. rewrite Hm. cbn [length] in Hsb. change (Z.of_nat 2) with 2 in *.
    assert (Hn : m (p + 1) = 62).
    { rewrite flat_cons in Hl. exact (line_head _ _ (line_tail p [62] (62 :: 32 :: flat l) Hl)). }
    rewrite Hn. change (62 =? 0) with false. change (62 =? 62) with true. cbn. cbn in Hsb. by rewrite Hsb.
Qed.

Lemma gettoken_end p cmds : toks_at p [] -> gettoken m es fuel (Pst p cmds) = POk (0, p, p) (Pst p cmds).
Proof.
  intros H. unfold gettoken, pbind', pskip, get_pos, set_pos, pret. cbn [p_pos p_cmds]. rewrite (skip_none p [] H).
  rewrite (line_head p _ (proj1 H)). cbn. by rewrite (skip_none p [] H).
Qed.

Lemma word_here p w l : toks_at p (TkWord w :: l) -> word_at m w p (p + Z.of_nat (length w)).
Proof.
  intros [H _]. rewrite flat_cons in H. pose proof (line_head _ _ (line_tail p w (32 :: flat l) H)) as Hn. destruct H as (H & _ & _ & Hp).
  split; [done|]. split; [done|]. split; [|done]. cbn [chars] in H. clear Hn Hp. revert p H. induction w as [|c w IH]; intros p H; [done|].
  cbn [app] in H. apply cstring_cons in H as (Hc & _ & H). cbn [length]. by rewrite bytes_at_S, Hc, IH.
Qed.

(** ** Redirections *)

Definition redir_toks (rs : list (list Z * rkind)) : list token := concat ((fun r => [rtok (snd r); TkWord (fst r)]) <$> rs).
Definition redirs (t : ctree) (rs : list (list Z * rkind)) : ctree := foldl (fun t r => TRedir t (fst r) (snd r)) t rs.

(** The first byte of what follows *)
Definition first_char (l : list token) : Z := match l with [] => 0 | t :: _ => default 0 (head (chars t)) end.
Definition follows (set : list Z) (l : list token) : Prop := l = [] \/ has set (first_char l) = true.

Lemma peek_first p l cmds set : has set 0 = false -> toks_at p l -> peek m es fuel set (Pst p cmds) = POk (has set (first_char l)) (Pst p cmds).
Proof. intros H0 H. rewrite (peek_run p l cmds set H). destruct l; [|done]. cbn [first_char]. by rewrite H0. Qed.

Lemma parseredirs_run rs : forall k p rest i cmds, toks_at p (redir_toks rs ++ rest) -> has [60; 62] (first_char rest) = false ->
  (length rs <= k)%nat -> (i < length cmds)%nat ->
  exists j new p', parseredirs m es fuel k i (Pst p cmds) = POk j (Pst p' (cmds ++ new)) /\ toks_at p' rest /\
    (j < length (cmds ++ new))%nat /\ (rs = [] -> j = i /\ new = []) /\
    forall t, denotes m cmds i t -> denotes m (cmds ++ new) j (redirs t rs).
Proof.
  induction rs as [|[f kd] rs IH]; intros k p rest i cmds H Hr Hk Hi.
  - exists i, [], p. cbn [redir_toks app] in H. change (redir_toks [] ++ rest) with rest in H. rewrite app_nil_r.
    split; [|done]. destruct k; cbn [parseredirs]; unfold pbind'; rewrite (peek_first p rest cmds) by done; by rewrite Hr.
  - destruct k as [|k]; [cbn in Hk; lia|]. change (redir_toks ((f, kd) :: rs) ++ rest) with (rtok kd :: TkWord f :: redir_toks rs ++ rest) in H.
    pose proof (toks_next _ _ _ H) as H1. pose proof (toks_next _ _ _ H1) as H2. cbn [chars] in H2. pose proof (word_here _ _ _ H1) as Hw.
    set (p1 := p + Z.of_nat (length (chars (rtok kd))) + 1) in *. set (e1 := p1 + Z.of_nat (length f)) in *.
    destruct (IH k (e1 + 1) rest (length cmds) (cmds ++ [NRedir i p1 e1 (rmode kd) (rfd kd)])) as (j & new & p' & E & Ht & Hj & _ & Hd);
      [done|done|cbn in Hk; lia|rewrite length_app; cbn; lia|].
    exists j, (NRedir i p1 e1 (rmode kd) (rfd kd) :: new), p'. rewrite <- app_assoc in E, Hj, Hd. cbn [app] in E, Hj, Hd.
    split; [|split; [done|split; [done|split; [done|]]]].
    + cbn [parseredirs]. unfold pbind'. rewrite (peek_first p _ cmds) by done.
      assert (has [60; 62] (first_char (rtok kd :: TkWord f :: redir_toks rs ++ rest)) = true) as -> by (by destruct kd).
      rewrite (gettoken_run _ _ _ cmds H). fold p1. rewrite (gettoken_run _ _ _ cmds H1). cbn [code chars]. fold e1. change (negb (97 =? 97)) with false. cbv iota.
      rewrite <- E. by destruct kd.
    + intros t Hden. apply Hd. eapply den_redir; [by rewrite lookup_app_r, Nat.sub_diag by done|done|exact Hw|]. by apply denotes_app.
Qed.

(** ** Words of a command *)

Definition args_node (starts ends : list Z) : cnode :=
  NExec (starts ++ replicate (MAXARGS - length starts) 0) (ends ++ replicate (MAXARGS - length starts) 0).

Lemma insert_next (l : list Z) n q : <[length l := q]> (l ++ replicate (S n) 0) = (l ++ [q]) ++ replicate n 0.
Proof. rewrite <- (Nat.add_0_r (length l)), insert_app_r. cbn. by rewrite <- app_assoc. Qed.

Lemma set_arg_run pre starts ends new p q e : length starts = length ends -> (length starts < MAXARGS)%nat ->
  set_arg (length pre) (length starts) q e (Pst p (pre ++ args_node starts ends :: new)) =
  POk tt (Pst p (pre ++ args_node (starts ++ [q]) (ends ++ [e]) :: new)).
Proof.
  intros Hl Hn. unfold set_arg. cbn [p_cmds p_pos]. rewrite lookup_app_r, Nat.sub_diag by done. cbn [lookup list_lookup].
  unfold args_node at 1. rewrite (proj2 (Nat.ltb_lt _ _)) by done. do 2 f_equal.
  rewrite <- (Nat.add_0_r (length pre)) at 1. rewrite insert_app_r. cbn [insert list_insert]. do 2 f_equal. unfold args_node.
  rewrite length_app. cbn [length]. destruct (MAXARGS - length starts)%nat as [|n] eqn:En; [lia|].
  replace (MAXARGS - (length starts + 1))%nat with n by lia. rewrite insert_next. f_equal. rewrite Hl. apply insert_next.
Qed.

(** The final [argv[argc] = 0] changes nothing. *)
Lemma set_arg_end pre starts ends new p : length starts = length ends -> (length starts < MAXARGS)%nat ->
  set_arg (length pre) (length starts) 0 0 (Pst p (pre ++ args_node starts ends :: new)) = POk tt (Pst p (pre ++ args_node starts ends :: new)).
Proof.
  intros Hl Hn. rewrite set_arg_run by done. do 3 f_equal. f_equal. unfold args_node. rewrite length_app. cbn [length].
  destruct (MAXARGS - length starts)%nat as [|n] eqn:En; [lia|]. replace (MAXARGS - (length starts + 1))%nat with n by lia.
  by rewrite <- !app_assoc.
Qed.

Lemma denotes_args cmds i args starts ends : cmds !! i = Some (args_node starts ends) -> Forall3 (word_at m) args starts ends ->
  denotes m cmds i (TExec args).
Proof.
  intros H F. eapply den_exec; [|exact F]. rewrite H. unfold args_node. by rewrite (Forall3_length_lm _ _ _ _ F).
Qed.

(** What may follow a command *)
Definition stops : list Z := [124; 41; 38; 59].

Lemma parseargs_stop k c ret argc p rest cmds : toks_at p rest -> follows stops rest -> (0 < k)%nat ->
  parseargs m es fuel k c ret argc (Pst p cmds) = POk (argc, ret) (Pst p cmds).
Proof.
  unfold stops. intros H Hf Hk. destruct k as [|k]; [lia|]. cbn [parseargs]. pstep (peek_first p rest cmds).
  destruct Hf as [->|Hf]; [|by rewrite Hf]. change (has [124; 41; 38; 59] (first_char [])) with false. cbv iota.
  by pstep (gettoken_end p cmds).
Qed.

Lemma has_elem l c : has l c = true <-> In c l.
Proof.
  unfold has. rewrite existsb_exists. split; [by intros (d & H & ->%Z.eqb_eq)|]. intros H. exists c. split; [done|apply Z.eqb_refl].
Qed.

Lemma follows_not set other rest : follows set rest -> forallb (fun c => negb (has other c)) (0 :: set) = true ->
  has other (first_char rest) = false.
Proof.
  rewrite forallb_forall. intros H Hd. apply negb_true_iff. destruct H as [->|H]; apply Hd; [by left|]. right. by apply has_elem.
Qed.

Lemma follows_incl set other rest : follows set rest -> forallb (has other) set = true -> follows other rest.
Proof. rewrite forallb_forall. intros [->|H] Hi; [by left|]. right. by apply Hi, has_elem. Qed.

Lemma follows_not_redir rest : follows stops rest -> has [60; 62] (first_char rest) = false.
Proof. intros H. by apply (follows_not stops). Qed.

Lemma word_first w l set : word w -> incl set symbols -> has set (first_char (TkWord w :: l)) = false.
Proof.
  intros [Hn Hw] Hs. destruct w as [|c w]; [done|]. apply Forall_cons in Hw as [(_ & _ & Hc) _]. apply has_false.
  intros Hin. apply Hc, list_elem_of_In, Hs. by apply list_elem_of_In.
Qed.

Lemma parseargs_words w ws rs rest : forall k p pre starts ends,
  toks_at p (TkWord w :: (TkWord <$> ws) ++ redir_toks rs ++ rest) -> follows stops rest ->
  length starts = length ends -> (length starts + length ws + 1 < MAXARGS)%nat -> (length ws + 2 <= k)%nat ->
  (length rs <= fuel)%nat ->
  exists starts' ends' new j p',
    parseargs m es fuel k (length pre) (length pre) (length starts) (Pst p (pre ++ [args_node starts ends])) =
      POk (length (starts ++ starts'), j) (Pst p' (pre ++ args_node (starts ++ starts') (ends ++ ends') :: new)) /\
    Forall3 (word_at m) (w :: ws) starts' ends' /\ toks_at p' rest /\ (j < length (pre ++ args_node (starts ++ starts') (ends ++ ends') :: new))%nat /\
    forall t, denotes m (pre ++ [args_node (starts ++ starts') (ends ++ ends')]) (length pre) t ->
      denotes m (pre ++ args_node (starts ++ starts') (ends ++ ends') :: new) j (redirs t rs).
Proof.
  revert w. induction ws as [|w' ws IH]; intros w k p pre starts ends H Hf Hl Hn Hk Hrs; (destruct k as [|k]; [lia|]);
    pose proof (word_here _ _ _ H) as Hw; pose proof (toks_next _ _ _ H) as H1; pose proof (proj1 (proj1 (Forall_cons _ _ _) (proj2 H))) as Hword;
    cbn [parseargs]; pstep (peek_first p _ (pre ++ [args_node starts ends]) [124; 41; 38; 59] eq_refl H);
    rewrite (word_first w _ [124; 41; 38; 59]) by (done || (intros c Hc; cbn in *; tauto));
    pstep (gettoken_run _ _ _ (pre ++ [args_node starts ends]) H); cbn [code chars]; change (97 =? 0) with false; change (97 =? 97) with true; cbn [negb];
    cbv iota; pstep set_arg_run; rewrite (proj2 (Nat.leb_gt _ _)) by lia.
  - cbn [fmap list_fmap app] in H1.
    destruct (parseredirs_run rs fuel _ rest (length pre) (pre ++ [args_node (starts ++ [p]) (ends ++ [p + Z.of_nat (length w)])]) H1)
      as (j & new & p' & E & Ht & Hj & _ & Hd); [by apply follows_not_redir|done|rewrite length_app; cbn; lia|].
    rewrite <- app_assoc in E, Hj, Hd. cbn [app] in E, Hj, Hd. cbn [chars] in E. pstep E. rewrite (parseargs_stop k _ _ _ p' rest) by (done || lia).
    exists [p], [p + Z.of_nat (length w)], new, j, p'. rewrite length_app. cbn [length]. rewrite Nat.add_1_r.
    split_and!; try done. constructor; [done|constructor].
  - cbn [fmap list_fmap app] in H1. cbn [length] in Hn, Hk.
    destruct (parseredirs_run [] fuel _ (TkWord w' :: (TkWord <$> ws) ++ redir_toks rs ++ rest) (length pre)
      (pre ++ [args_node (starts ++ [p]) (ends ++ [p + Z.of_nat (length w)])]) H1) as (j & new & p1 & E & Ht & _ & Hnil & _);
      [apply word_first; [by apply (proj1 (proj1 (Forall_cons _ _ _) (proj2 H1)))|intros c Hc; cbn in *; tauto]|cbn; lia|rewrite length_app; cbn; lia|].
    destruct (Hnil eq_refl) as [-> ->]. rewrite app_nil_r in E. cbn [chars] in E. pstep E.
    destruct (IH w' k p1 pre (starts ++ [p]) (ends ++ [p + Z.of_nat (length w)]) Ht Hf) as (st & en & new & j & p' & E2 & H3 & H4 & Hj & Hd);
      [rewrite !length_app; cbn; lia|rewrite length_app; cbn; lia|lia|done|].
    rewrite <- !app_assoc in E2, Hj, Hd. cbn [app] in E2, Hj, Hd.
    exists (p :: st), ((p + Z.of_nat (length w)) :: en), new, j, p'. rewrite length_app in E2. cbn [length] in E2. rewrite Nat.add_1_r in E2.
    split_and!; try done. by constructor.
Qed.

(** ** The levels of the grammar *)

(** [x] reads the tokens [l], before one of [set] or the end of the line, as [t]. *)
Definition parses (x : P nat) (t : ctree) (l : list token) (set : list Z) : Prop :=
  forall p cmds rest, toks_at p (l ++ rest) -> follows set rest ->
  exists j new p', x (Pst p cmds) = POk j (Pst p' (cmds ++ new)) /\ toks_at p' rest /\
    (j < length (cmds ++ new))%nat /\ denotes m (cmds ++ new) j t.

Lemma redir_count rs l p : toks_at p (redir_toks rs ++ l) -> (length rs <= fuel)%nat.
Proof.
  intros [(_ & _ & Hf & _) _]. rewrite flat_app, length_app in Hf. enough (length rs <= length (flat (redir_toks rs)))%nat by lia.
  clear. induction rs as [|r rs IH]; [done|]. change (redir_toks (r :: rs)) with ([rtok (snd r); TkWord (fst r)] ++ redir_toks rs).
  rewrite flat_app, length_app, flat_cons, length_app. cbn [length]. lia.
Qed.

Lemma flat_length l : (length l <= length (flat l))%nat.
Proof. induction l as [|t l IH]; [done|]. rewrite flat_cons, length_app. cbn [length]. lia. Qed.

Lemma word_count ws l p : toks_at p ((TkWord <$> ws) ++ l) -> (length ws < fuel)%nat /\ exists q, toks_at q l.
Proof.
  intros [(H & He & Hf & Hp) Hok]. split.
  - rewrite flat_app, length_app in Hf. pose proof (flat_length (TkWord <$> ws)) as Hl. rewrite length_fmap in Hl. lia.
  - exists (p + Z.of_nat (length (flat (TkWord <$> ws)))). apply Forall_app in Hok as [_ Hok]. split; [|done]. apply line_tail.
    rewrite flat_app in H, He, Hf. done.
Qed.

Lemma args_node_nil : NExec (replicate MAXARGS 0) (replicate MAXARGS 0) = args_node [] [].
Proof. done. Qed.

Lemma parsesimple_run args rs : (length args < MAXARGS)%nat -> parses (parsesimple m es fuel) (redirs (TExec args) rs) ((TkWord <$> args) ++ redir_toks rs) stops.
Proof.
  intros Hn p cmds rest H Hf. rewrite <- app_assoc in H. destruct (word_count _ _ _ H) as [Hws [q Hq]]. pose proof (redir_count _ _ _ Hq) as Hrs.
  unfold parsesimple. erewrite pbind_ok by reflexivity. cbv beta zeta. cbn [p_cmds p_pos]. rewrite args_node_nil. destruct args as [|w ws].
  - cbn [fmap list_fmap app] in H. destruct (parseredirs_run rs fuel p rest (length cmds) (cmds ++ [args_node [] []]) H)
      as (j & new & p' & E & Ht & Hj & _ & Hd); [by apply follows_not_redir|done|rewrite length_app; cbn; lia|].
    pstep E. pstep (parseargs_stop fuel (length cmds) j 0 p' rest). rewrite <- app_assoc in *. cbn [app] in *.
    pstep (set_arg_end cmds [] []). exists j, (args_node [] [] :: new), p'. split_and!; [done..|]. apply Hd.
    apply (denotes_args _ _ _ [] []); [by rewrite lookup_app_r, Nat.sub_diag|constructor].
  - rewrite fmap_cons in H. cbn [app] in H.
    destruct (parseredirs_run [] fuel p (TkWord w :: (TkWord <$> ws) ++ redir_toks rs ++ rest) (length cmds) (cmds ++ [args_node [] []]) H)
      as (j0 & new0 & p0 & E & Ht & _ & Hnil & _);
      [apply word_first; [exact (proj1 (proj1 (Forall_cons _ _ _) (proj2 H)))|intros c Hc; cbn in *; tauto]|cbn; lia|rewrite length_app; cbn; lia|].
    destruct (Hnil eq_refl) as [-> ->]. rewrite app_nil_r in E. pstep E. cbn [length] in Hn, Hws.
    destruct (parseargs_words w ws rs rest fuel p0 cmds [] [] Ht Hf eq_refl) as (st & en & new & j & p' & E2 & H3 & H4 & Hj & Hd);
      [cbn [length]; lia| |done|].
    { destruct Ht as [(_ & _ & Hfu & _) _]. rewrite flat_cons, flat_app, !length_app in Hfu. cbn [length] in Hfu.
      pose proof (flat_length (TkWord <$> ws)) as Hl. rewrite length_fmap in Hl. lia. }
    cbn [length app] in E2. pstep E2. cbn [app] in *. pose proof (Forall3_length_lm _ _ _ _ H3) as L1. pose proof (Forall3_length_lr _ _ _ _ H3) as L2.
    cbn [length] in L1, L2. pstep (set_arg_end cmds st en new p'). exists j, (args_node st en :: new), p'. split_and!; [done..|]. apply Hd.
    apply (denotes_args _ _ _ st en); [by rewrite lookup_app_r, Nat.sub_diag|done].
Qed.

Lemma parseexec_simple args rs k : (length args < MAXARGS)%nat -> (0 < k)%nat ->
  parses (parseexec m es fuel k) (redirs (TExec args) rs) ((TkWord <$> args) ++ redir_toks rs) stops.
Proof.
  intros Hn Hk p cmds rest H Hf. destruct k as [|k]; [lia|]. cbn [parseexec]. pstep (peek_first p _ cmds [40] eq_refl H).
  assert (has [40] (first_char (((TkWord <$> args) ++ redir_toks rs) ++ rest)) = false) as ->; [|by apply parsesimple_run].
  destruct args as [|w ws]; [destruct rs as [|[f kd] rs]; [by apply (follows_not stops)|by destruct kd]|].
  apply word_first; [|intros c Hc; cbn in *; tauto]. exact (proj1 (proj1 (Forall_cons _ _ _) (proj2 H))).
Qed.

Lemma parseexec_block t rs l k : parses (parseline m es fuel k) t l [41] ->
  parses (parseexec m es fuel (S (S k))) (redirs t rs) (paren l ++ redir_toks rs) stops.
Proof.
  intros IH p cmds rest H Hf. unfold paren in H. cbn [app] in H. rewrite <- !app_assoc in H. cbn [app] in H. cbn [parseexec].
  pstep (peek_first p _ cmds [40] eq_refl H). cbn [first_char chars head from_option id]. change (has [40] 40) with true. cbv iota. cbn [parseblock].
  pstep (peek_first p _ cmds [40] eq_refl H). cbn [first_char chars head from_option id]. change (has [40] 40) with true. cbn [negb]. cbv iota.
  pstep (gettoken_run p _ _ cmds H). apply toks_next in H. destruct (IH _ cmds _ H) as (j & new & p1 & E & H1 & Hj & Hd); [by right|]. pstep E.
  pstep (peek_first p1 _ (cmds ++ new) [41] eq_refl H1). cbn [first_char chars head from_option id]. change (has [41] 41) with true. cbn [negb]. cbv iota.
  pstep (gettoken_run p1 _ _ (cmds ++ new) H1). apply toks_next in H1.
  destruct (parseredirs_run rs fuel _ rest j (cmds ++ new) H1) as (j' & new' & p' & E' & H' & Hj' & _ & Hd');
    [by apply follows_not_redir|by eapply redir_count|done|].
  exists j', (new ++ new'), p'. rewrite app_assoc. split_and!; [done..|]. by apply Hd'.
Qed.

(** *** Pipes *)

Lemma parsepipe_one t l k : parses (parseexec m es fuel k) t l stops -> parses (parsepipe m es fuel (S k)) t l [41; 38; 59].
Proof.
  intros IH p cmds rest H Hf. cbn [parsepipe]. destruct (IH p cmds rest H) as (j & new & p' & E & H1 & Hj & Hd);
    [by eapply follows_incl; [exact Hf|]|]. pstep E. pstep (peek_first p' rest (cmds ++ new) [124] eq_refl H1).
  rewrite (follows_not [41; 38; 59] [124] rest Hf eq_refl). by exists j, new, p'.
Qed.

Lemma parsepipe_two tl tr l r k : parses (parseexec m es fuel k) tl l stops -> parses (parsepipe m es fuel k) tr r [41; 38; 59] ->
  parses (parsepipe m es fuel (S k)) (TPipe tl tr) (l ++ TkSym 124 :: r) [41; 38; 59].
Proof.
  intros IHl IHr p cmds rest H Hf. rewrite <- app_assoc in H. cbn [app] in H. cbn [parsepipe].
  destruct (IHl p cmds _ H) as (j & new & p1 & E & H1 & Hj & Hd); [by right|]. pstep E.
  pstep (peek_first p1 _ (cmds ++ new) [124] eq_refl H1). cbn [first_char chars head from_option id]. change (has [124] 124) with true. cbv iota.
  pstep (gettoken_run p1 _ _ (cmds ++ new) H1). apply toks_next in H1.
  destruct (IHr _ (cmds ++ new) rest H1 Hf) as (j' & new' & p' & E' & H' & Hj' & Hd'). pstep E'. rewrite <- app_assoc in Hj', Hd', E' |- *.
  exists (length (cmds ++ new ++ new')), (new ++ new' ++ [NPipe j j']), p'.
  replace (cmds ++ new ++ new' ++ [NPipe j j']) with ((cmds ++ new ++ new') ++ [NPipe j j']) by (by rewrite <- !app_assoc).
  split; [done|]. split; [done|]. split; [rewrite (length_app (cmds ++ new ++ new')); cbn; lia|].
  apply (den_pipe _ _ _ j j'); [by rewrite lookup_app_r, Nat.sub_diag|rewrite !length_app in *; lia|done| |by apply denotes_app].
  apply denotes_app. rewrite app_assoc. by apply denotes_app.
Qed.

(** *** Lines *)

Definition backs (t : ctree) (n : nat) : ctree := Nat.iter n TBack t.

Lemma backs_S t n : backs t (S n) = backs (TBack t) n.
Proof. unfold backs. induction n as [|n IH]; [done|]. cbn in *. by rewrite IH. Qed.

Lemma parseback_run n : forall k p rest i cmds, toks_at p (replicate n (TkSym 38) ++ rest) -> has [38] (first_char rest) = false ->
  (n <= k)%nat -> (i < length cmds)%nat ->
  exists j new p', parseback m es fuel k i (Pst p cmds) = POk j (Pst p' (cmds ++ new)) /\ toks_at p' rest /\
    (j < length (cmds ++ new))%nat /\ forall t, denotes m cmds i t -> denotes m (cmds ++ new) j (backs t n).
Proof.
  induction n as [|n IH]; intros k p rest i cmds H Hr Hk Hi.
  - exists i, [], p. rewrite app_nil_r. cbn [replicate app] in H. split; [|done].
    destruct k; cbn [parseback]; pstep (peek_first p rest cmds [38] eq_refl H); by rewrite Hr.
  - destruct k as [|k]; [lia|]. cbn [replicate app] in H. cbn [parseback]. pstep (peek_first p _ cmds [38] eq_refl H).
    cbn [first_char chars head from_option id]. change (has [38] 38) with true. cbv iota. pstep (gettoken_run p _ _ cmds H). apply toks_next in H.
    erewrite pbind_ok by reflexivity. cbn [p_pos p_cmds].
    destruct (IH k _ rest (length cmds) (cmds ++ [NBack i]) H Hr) as (j & new & p' & E & H' & Hj & Hd); [lia|rewrite length_app; cbn; lia|].
    rewrite <- app_assoc in *. cbn [app] in *. exists j, (NBack i :: new), p'. split_and!; [done..|]. intros t Ht. rewrite backs_S. apply Hd.
    apply (den_back _ _ _ i); [by rewrite lookup_app_r, Nat.sub_diag|done|by apply denotes_app].
Qed.

Lemma back_count n l p : toks_at p (replicate n (TkSym 38) ++ l) -> (n <= fuel)%nat.
Proof.
  intros [(_ & _ & Hf & _) _]. rewrite flat_app, length_app in Hf. pose proof (flat_length (replicate n (TkSym 38))) as Hl.
  rewrite length_replicate in Hl. lia.
Qed.

Definition amps (n : nat) : list token := replicate n (TkSym 38).

Lemma parseline_one t l n k : parses (parsepipe m es fuel k) t l [41; 38; 59] -> parses (parseline m es fuel (S k)) (backs t n) (l ++ amps n) [41].
Proof.
  intros IH p cmds rest H Hf. rewrite <- app_assoc in H. cbn [parseline].
  destruct (IH p cmds _ H) as (j & new & p1 & E & H1 & Hj & Hd).
  { destruct n; [by eapply follows_incl; [exact Hf|]|by right]. }
  pstep E. destruct (parseback_run n fuel p1 rest j (cmds ++ new) H1) as (j' & new' & p' & E' & H' & Hj' & Hd');
    [by apply (follows_not [41])|by eapply back_count|done|]. pstep E'. pstep (peek_first p' rest ((cmds ++ new) ++ new') [59] eq_refl H').
  rewrite (follows_not [41] [59] rest Hf eq_refl). exists j', (new ++ new'), p'. rewrite app_assoc. split_and!; [done..|]. by apply Hd'.
Qed.

Lemma parseline_two tl tr l r n k : parses (parsepipe m es fuel k) tl l [41; 38; 59] -> parses (parseline m es fuel k) tr r [41] ->
  parses (parseline m es fuel (S k)) (TList (backs tl n) tr) ((l ++ amps n) ++ TkSym 59 :: r) [41].
Proof.
  intros IHl IHr p cmds rest H Hf. rewrite <- !app_assoc in H. cbn [app] in H. cbn [parseline].
  destruct (IHl p cmds _ H) as (j & new & p1 & E & H1 & Hj & Hd); [destruct n; by right|].
  pstep E. destruct (parseback_run n fuel p1 (TkSym 59 :: r ++ rest) j (cmds ++ new) H1) as (i & new1 & p2 & E1 & H2 & Hi & Hd1);
    [done|by eapply back_count|done|]. pstep E1. pstep (peek_first p2 _ ((cmds ++ new) ++ new1) [59] eq_refl H2).
  cbn [first_char chars head from_option id]. change (has [59] 59) with true. cbv iota. specialize (Hd1 _ Hd).
  pstep (gettoken_run p2 _ _ ((cmds ++ new) ++ new1) H2). apply toks_next in H2. rewrite <- app_assoc in *. set (new2 := new ++ new1) in *.
  destruct (IHr _ (cmds ++ new2) rest H2 Hf) as (j' & new' & p' & E' & H' & Hj' & Hd'). pstep E'. rewrite <- app_assoc in Hj', Hd', E' |- *.
  exists (length (cmds ++ new2 ++ new')), (new2 ++ new' ++ [NList i j']), p'.
  replace (cmds ++ new2 ++ new' ++ [NList i j']) with ((cmds ++ new2 ++ new') ++ [NList i j']) by (by rewrite <- !app_assoc).
  split; [done|]. split; [done|]. split; [rewrite (length_app (cmds ++ new2 ++ new')); cbn; lia|].
  apply (den_list _ _ _ i j'); [by rewrite lookup_app_r, Nat.sub_diag|rewrite !length_app in *; lia|done| |by apply denotes_app].
  apply denotes_app. rewrite app_assoc. by apply denotes_app.
Qed.

(** *** All trees *)

Fixpoint size (t : ctree) : nat :=
  match t with
  | TExec _ => 1
  | TRedir t _ _ | TBack t => S (size t)
  | TPipe l r | TList l r => S (size l + size r)
  end.

Lemma size_pos t : (0 < size t)%nat.
Proof. destruct t; cbn; lia. Qed.

Definition is_redir (t : ctree) : bool := match t with TRedir _ _ _ => true | _ => false end.
Definition is_back (t : ctree) : bool := match t with TBack _ => true | _ => false end.

Lemma redirs_split t : wf_tree t -> exists b rs, t = redirs b rs /\ is_redir b = false /\ print 3 t = print 3 b ++ redir_toks rs /\
  (size b <= size t)%nat /\ wf_tree b.
Proof.
  induction t as [args|t IH f k|l _ r _|l _ r _|t _]; intros Hw; try (eexists _, []; rewrite app_nil_r; by split_and!).
  destruct (IH (proj1 Hw)) as (b & rs & -> & Hb & Hp & Hs & Hwb). exists b, (rs ++ [(f, k)]).
  assert (redirs b (rs ++ [(f, k)]) = TRedir (redirs b rs) f k) as -> by (unfold redirs; by rewrite foldl_app).
  unfold redir_toks. rewrite fmap_app, concat_app. cbn [print]. rewrite Hp, <- app_assoc. split_and!; [done..|cbn; lia|done].
Qed.

Lemma backs_split t : wf_tree t -> exists b n, t = backs b n /\ is_back b = false /\ print 1 t = print 2 b ++ amps n /\
  (size b <= size t)%nat /\ wf_tree b.
Proof.
  induction t as [args|t _ f k|l _ r _|l _ r _|t IH]; intros Hw; try (eexists _, 0%nat; cbn [amps replicate]; rewrite app_nil_r; by split_and!).
  destruct (IH Hw) as (b & n & -> & Hb & Hp & Hs & Hwb). exists b, (S n). split; [done|]. split; [done|]. cbn [print Nat.leb]. rewrite Hp.
  split; [|split; [cbn; lia|done]]. unfold amps. by rewrite (replicate_S_end n), app_assoc.
Qed.

Definition levels_ok (t : ctree) : Prop :=
  (forall k, (8 * size t <= k)%nat -> parses (parseexec m es fuel k) t (print 3 t) stops) /\
  (forall k, (8 * size t + 1 <= k)%nat -> parses (parsepipe m es fuel k) t (print 2 t) [41; 38; 59]) /\
  (forall k, (8 * size t + 2 <= k)%nat -> parses (parseline m es fuel k) t (print 0 t) [41]).

Lemma backs_ok t k : wf_tree t -> (forall u, (size u <= size t)%nat -> wf_tree u -> levels_ok u) -> (8 * size t + 1 <= k)%nat ->
  exists b n, t = backs b n /\ print 1 t = print 2 b ++ amps n /\ parses (parsepipe m es fuel k) b (print 2 b) [41; 38; 59].
Proof.
  intros Hw IH Hk. destruct (backs_split t Hw) as (b & n & E & _ & Hp & Hs & Hwb). exists b, n. split; [done|]. split; [done|].
  apply (IH b Hs Hwb). lia.
Qed.

(** The trees that need parentheses as commands *)
Lemma compound_line t k : wf_tree t -> (forall u, (size u < size t)%nat -> wf_tree u -> levels_ok u) -> (8 * size t <= k + 3)%nat ->
  match t with TExec _ | TRedir _ _ _ => True | _ => parses (parseline m es fuel k) t (print 0 t) [41] end.
Proof.
  intros Hw IH Hk. destruct t as [args|t f kd|l r|l r|t]; [done|done|..]; cbn [size] in *;
    (destruct k as [|k]; [lia|]).
  - destruct k as [|k]; [lia|]. destruct Hw as [Hwl Hwr]. pose proof (size_pos l). pose proof (size_pos r).
    rewrite <- (app_nil_r (print 0 _)). apply (parseline_one _ _ 0). apply parsepipe_two; [apply (IH l)|apply (IH r)]; done || lia.
  - destruct Hw as [Hwl Hwr]. pose proof (size_pos l). pose proof (size_pos r).
    destruct (backs_ok l k Hwl) as (b & n & -> & Hp & Hb); [intros u Hu; apply IH; lia|lia|].
    cbn [print Nat.eqb]. rewrite Hp. apply parseline_two; [done|]. apply (IH r); done || lia.
  - destruct (backs_ok t k Hw) as (b & n & -> & Hp & Hb); [intros u Hu; apply IH; lia|lia|].
    cbn [print Nat.leb]. rewrite Hp, <- app_assoc. change [TkSym 38] with (amps 1). unfold amps. rewrite <- replicate_add, Nat.add_1_r.
    by apply (parseline_one b _ (S n)).
Qed.

Lemma parseexec_tree t k : wf_tree t -> (forall u, (size u < size t)%nat -> wf_tree u -> levels_ok u) -> (8 * size t <= k)%nat ->
  parses (parseexec m es fuel k) t (print 3 t) stops.
Proof.
  intros Hw IH Hk. destruct (redirs_split t Hw) as (b & rs & -> & Hb & -> & Hs & Hwb). pose proof (size_pos b) as Hp.
  destruct b as [args|b f kd|l r|l r|b]; [|done|..]; [apply parseexec_simple; [apply Hwb|lia]|..];
    (destruct k as [|[|k]]; [lia|lia|]);
    (match goal with |- parses _ (redirs ?b _) _ _ => change (print 3 b) with (paren (print 0 b)); pose proof (compound_line b k Hwb) as C end);
    apply parseexec_block, C; try lia; intros u Hu; apply IH; lia.
Qed.

Lemma levels_tree t : wf_tree t -> levels_ok t.
Proof.
  remember (size t) as n eqn:En. revert t En. induction (lt_wf n) as [n _ IHn]. intros t -> Hw.
  assert (IH : forall u, (size u < size t)%nat -> wf_tree u -> levels_ok u) by (intros u Hu; by apply (IHn _ Hu)). clear IHn.
  assert (H3 : forall k, (8 * size t <= k)%nat -> parses (parseexec m es fuel k) t (print 3 t) stops) by (intros k; by apply parseexec_tree).
  assert (H2 : forall k, (8 * size t + 1 <= k)%nat -> parses (parsepipe m es fuel k) t (print 2 t) [41; 38; 59]).
  { intros k Hk. destruct k as [|k]; [lia|].
    destruct t as [args|t f kd|l r|l r|t]; try (apply parsepipe_one, H3; lia). cbn [size] in *. destruct Hw as [Hwl Hwr].
    pose proof (size_pos l). pose proof (size_pos r). apply parsepipe_two; [apply (IH l)|apply (IH r)]; done || lia. }
  split; [done|]. split; [done|]. intros k Hk. pose proof (compound_line t k Hw IH) as C.
  destruct t as [args|t f kd|l r|l r|t]; try (apply C; lia); (destruct k as [|k]; [lia|]); rewrite <- (app_nil_r (print 0 _));
    apply (parseline_one _ _ 0), H2; lia.
Qed.

End Scan.

(** ** The zero bytes after the words *)

(** [m'] is [m] with some blanks set to zero. *)
Definition zeroed (m m' : mem) : Prop := forall x, m' x = m x \/ (m x = 32 /\ m' x = 0).

(** What the running of a command reads: [w] is a string at [a]. *)
Definition arg_at (m : mem) (w : list Z) (a : Z) : Prop := a <> 0 /\ cstring m a w.

(** The tree of the commands in [cmds] from [i] on, with its strings in [m] *)
Inductive represents (m : mem) (cmds : list cnode) : nat -> ctree -> Prop :=
| rep_exec i args starts ends : cmds !! i = Some (NExec (starts ++ replicate (MAXARGS - length args) 0) ends) ->
    Forall2 (arg_at m) args starts -> represents m cmds i (TExec args)
| rep_redir i j t f k a e : cmds !! i = Some (NRedir j a e (rmode k) (rfd k)) -> arg_at m f a ->
    represents m cmds j t -> represents m cmds i (TRedir t f k)
| rep_pipe i l r tl tr : cmds !! i = Some (NPipe l r) -> represents m cmds l tl -> represents m cmds r tr ->
    represents m cmds i (TPipe tl tr)
| rep_list i l r tl tr : cmds !! i = Some (NList l r) -> represents m cmds l tl -> represents m cmds r tr ->
    represents m cmds i (TList tl tr)
| rep_back i j t : cmds !! i = Some (NBack j) -> represents m cmds j t -> represents m cmds i (TBack t).

Section Terminate.
Context (m0 : mem) (cmds : list cnode).

(** A further memory: zeros stay. *)
Definition later (m m' : mem) : Prop := zeroed m0 m' /\ forall x, m x = 0 -> m' x = 0.

Lemma later_trans m1 m2 m3 : later m1 m2 -> later m2 m3 -> later m1 m3.
Proof. intros [_ H1] [Hz H2]. split; [done|]. intros x Hx. by apply H2, H1. Qed.

Lemma later_store m e : zeroed m0 m -> m0 e = 32 -> later m (store8 m e 0).
Proof.
  intros H He. split; intros x.
  - destruct (decide (x = e)) as [->|Hx]; [right; by rewrite store8_at|rewrite store8_ne by done; apply H].
  - intros Hx. destruct (decide (x = e)) as [->|Hn]; [by rewrite store8_at|by rewrite store8_ne].
Qed.

Lemma word_cstring m w a e : word w -> word_at m0 w a e -> zeroed m0 m -> m e = 0 -> arg_at m w a.
Proof.
  intros [_ Hw] (Ha & -> & Hb & _) Hz He. split; [lia|]. clear Ha. revert a Hb He. induction w as [|c w IH]; intros a Hb He.
  - apply cstring_nil. cbn in He. by rewrite Z.add_0_r in He.
  - apply Forall_cons in Hw as [(Hc & Hsp & _) Hw]. cbn [length] in Hb, He. rewrite bytes_at_S in Hb. injection Hb as Hc0 Hb.
    apply cstring_cons. split; [|split; [lia|]].
    + destruct (Hz a) as [E|[E _]]; [congruence|]. exfalso. apply Hsp. rewrite <- Hc0, E. apply list_elem_of_In. cbn. tauto.
    + apply IH; [done|done|]. rewrite <- He. f_equal. lia.
Qed.

Lemma end_words_run args starts ends n : Forall3 (word_at m0) args starts ends -> Forall word args ->
  forall m, zeroed m0 m ->
  later m (end_words (starts ++ replicate n 0) (ends ++ replicate n 0) m) /\
  forall m', later (end_words (starts ++ replicate n 0) (ends ++ replicate n 0) m) m' -> Forall2 (arg_at m') args starts.
Proof.
  induction 1 as [|w a e args starts ends Hw _ IH]; intros Hws m Hz.
  - split; [|by constructor]. destruct n; by split.
  - apply Forall_cons in Hws as [Hww Hws]. pose proof Hw as (Ha & _ & _ & He). cbn [app end_words].
    rewrite (proj2 (Z.eqb_neq a 0)) by lia. pose proof (later_store m e Hz He) as Hl. destruct (IH Hws _ (proj1 Hl)) as [H1 H2].
    split; [by eapply later_trans|]. intros m' Hm'. constructor; [|by apply H2].
    apply (word_cstring m' w a e Hww Hw (proj1 Hm')). apply (proj2 Hm'), (proj2 H1). apply store8_at.
Qed.

Lemma nulterminate_run i t : denotes m0 cmds i t -> wf_tree t -> forall k m, (i < k)%nat -> zeroed m0 m ->
  exists m1, nulterminate k cmds i m = Some m1 /\ later m m1 /\ forall m', later m1 m' -> represents m' cmds i t.
Proof.
  induction 1 as [i args st en H1 H2|i j t f kd a e H Hj Hw _ IH|i l r tl tr H Hl Hr _ IHl _ IHr|i l r tl tr H Hl Hr _ IHl _ IHr|i j t H Hj _ IH];
    intros Hwf k m Hk Hz; (destruct k as [|k]; [lia|]); cbn [nulterminate].
  - rewrite H1. destruct Hwf as [_ Hwf]. destruct (end_words_run args st en (MAXARGS - length args) H2 Hwf m Hz) as [Ha Hb].
    eexists. split; [done|]. split; [done|]. intros m' Hm'. eapply rep_exec; [done|by apply Hb].
  - rewrite H. destruct Hwf as [Hwf Hwd]. destruct (IH Hwf k m) as (m1 & -> & Hl1 & Hm1); [lia|done|]. cbn [mbind option_bind].
    pose proof Hw as (_ & _ & _ & He). pose proof (later_store m1 e (proj1 Hl1) He) as Hs. eexists. split; [done|]. split; [by eapply later_trans|].
    intros m' Hm'. eapply rep_redir; [done| |apply Hm1; by eapply later_trans].
    apply (word_cstring m' f a e Hwd Hw (proj1 Hm')). apply (proj2 Hm'). apply store8_at.
  - rewrite H. destruct Hwf as [Hwl Hwr]. destruct (IHl Hwl k m) as (m1 & -> & Hl1 & Hm1); [lia|done|]. cbn [mbind option_bind].
    destruct (IHr Hwr k m1) as (m2 & -> & Hl2 & Hm2); [lia|apply Hl1|]. eexists. split; [done|]. split; [by eapply later_trans|].
    intros m' Hm'. eapply rep_pipe; [done|apply Hm1; by eapply later_trans|by apply Hm2].
  - rewrite H. destruct Hwf as [Hwl Hwr]. destruct (IHl Hwl k m) as (m1 & -> & Hl1 & Hm1); [lia|done|]. cbn [mbind option_bind].
    destruct (IHr Hwr k m1) as (m2 & -> & Hl2 & Hm2); [lia|apply Hl1|]. eexists. split; [done|]. split; [by eapply later_trans|].
    intros m' Hm'. eapply rep_list; [done|apply Hm1; by eapply later_trans|by apply Hm2].
  - rewrite H. destruct (IH Hwf k m) as (m1 & -> & Hl1 & Hm1); [lia|done|]. exists m1. split; [done|]. split; [done|].
    intros m' Hm'. eapply rep_back; [done|by apply Hm1].
Qed.
End Terminate.

(** ** Printing and parsing *)

Lemma print_ok t : wf_tree t -> forall lvl, Forall tok_ok (print lvl t).
Proof.
  assert (S1 : forall c, has symbols c = true -> tok_ok (TkSym c)) by (intros c H; by apply list_elem_of_In, has_elem).
  assert (Hp : forall b l, Forall tok_ok l -> Forall tok_ok (if b : bool then l else paren l)).
  { intros [|] l Hl; [done|]. apply Forall_cons_2; [by apply S1|]. apply Forall_app_2; [done|]. by repeat constructor; apply S1. }
  induction t as [args|t IH f k|l IHl r IHr|l IHl r IHr|t IH]; intros Hw lvl; cbn [print].
  - apply Forall_fmap. apply Hw.
  - destruct Hw as [Hw Hf]. apply Forall_app_2; [by apply IH|]. apply Forall_cons_2; [destruct k; [by apply S1|by apply S1|done]|]. by apply Forall_cons_2.
  - destruct Hw as [Hl Hr]. apply Hp, Forall_app_2; [by apply IHl|]. apply Forall_cons_2; [by apply S1|by apply IHr].
  - destruct Hw as [Hl Hr]. apply Hp, Forall_app_2; [by apply IHl|]. apply Forall_cons_2; [by apply S1|by apply IHr].
  - apply Hp, Forall_app_2; [by apply IH|]. apply Forall_cons_2; [by apply S1|done].
Qed.

Lemma print_size t : forall lvl, (size t <= 2 * length (print lvl t) + 1)%nat.
Proof.
  assert (Hp : forall (b : bool) l, (length l <= length (if b then l else paren l))%nat).
  { intros [|] l; [done|]. unfold paren. cbn [length]. rewrite length_app. lia. }
  induction t as [args|t IH f k|l IHl r IHr|l IHl r IHr|t IH]; intros lvl; cbn [print size].
  - lia.
  - specialize (IH 3%nat). rewrite length_app. cbn [length]. lia.
  - etransitivity; [|apply Nat.add_le_mono_r, Nat.mul_le_mono_l, Hp]. specialize (IHl 3%nat). specialize (IHr 2%nat). rewrite length_app. cbn [length]. lia.
  - etransitivity; [|apply Nat.add_le_mono_r, Nat.mul_le_mono_l, Hp]. specialize (IHl 1%nat). specialize (IHr 0%nat). rewrite length_app. cbn [length]. lia.
  - etransitivity; [|apply Nat.add_le_mono_r, Nat.mul_le_mono_l, Hp]. specialize (IH 1%nat). rewrite length_app. cbn [length]. lia.
Qed.

(** C31 The shell reads a command line as the tree it spells: for every tree of
    commands (arguments, redirections, pipes, lists, background jobs, nested in
    any way with parentheses where the grammar needs them), [parsecmd] on the
    line that prints the tree returns nodes that represent exactly that tree,
    each argument and file name a zero terminated string in the buffer. Only
    blanks of the buffer are changed. *)
Theorem parsecmd_print {W} `{!Os W} fuel s t m (w : W) :
  wf_tree t -> 0 < s -> cstring m s (flat (print 0 t)) -> (16 * length (flat (print 0 t)) + 16 <= fuel)%nat ->
  exists cmds root m', run (parsecmd fuel s) m w = Returns (cmds, root) m' w /\ represents m' cmds root t /\ zeroed m m'.
Proof.
  intros Hw Hs Hc Hf. pose proof (flat_length (print 0 t)) as Hfl. pose proof (print_size t 0) as Hsz.
  set (es := s + Z.of_nat (length (flat (print 0 t)))). unfold parsecmd. ustep. erewrite run_step; [|apply run_opt; apply (strlen_from_spec (flat (print 0 t)));
    [by rewrite Z.add_0_r|lia]]. rewrite Z.add_0_l. fold es.
  assert (Ht : toks_at m es fuel s (print 0 t ++ [])) by (rewrite app_nil_r; split; [split_and!; [done|done|lia|done]|by apply print_ok]).
  destruct (proj2 (proj2 (levels_tree m es fuel t Hw)) fuel) with (p := s) (cmds := @nil cnode) (rest := @nil token) as (root & cmds & p' & E & H1 & Hj & Hd);
    [lia|done|by left|]. cbn [app] in *. rewrite (pbind_ok _ _ _ _ _ E). rewrite (pbind_ok _ _ _ _ _ (peek_run m es fuel p' [] cmds [] H1)). cbn [pret p_pos p_cmds].
  assert (p' = es) as -> by (destruct H1 as [(_ & He & _) _]; cbn in He; lia). rewrite Z.eqb_refl. cbn [negb].
  destruct (nulterminate_run m cmds root t Hd Hw (S (length cmds)) m) as (m' & E' & Hl & Hm); [lia|intros x; by left|].
  erewrite run_step by (apply run_opt; exact E'). ustep. exists cmds, root, m'. split; [done|]. split; [apply Hm|apply Hl]. split; [apply Hl|done].
Qed.

(** The line [( ls ; cat f > g ) | wc &] at address 4096 *)
Lemma parsecmd_print_witness :
  let t := TBack (TPipe (TList (TExec [lit "ls"]) (TRedir (TExec [lit "cat"; lit "f"]) (lit "g") ROut)) (TExec [lit "wc"])) in
  let m := mem_write (fun _ => 0) 4096 (lit "( ls ; cat f > g ) | wc & ") in
  let os : Os unit := fun _ w => (-1, [], w) in
  exists cmds root m', run (parsecmd 1000 4096) m tt = Returns (cmds, root) m' tt /\ represents m' cmds root t /\ zeroed m m'.
Proof.
  intros t m os. apply (parsecmd_print 1000 4096 t m tt).
  - assert (Hw : forall w, forallb (fun c => (0 <? c) && (c <? 256) && negb (has whitespace c) && negb (has symbols c)) w = true -> w <> [] -> word w).
    { intros w Hall Hn. split; [done|]. apply Forall_forall. intros c Hc%list_elem_of_In. eapply forallb_forall in Hall; [|exact Hc].
      rewrite !andb_true_iff, !negb_true_iff in Hall. destruct Hall as [[[H1 H2] H3] H4].
      split; [lia|]. split; intros Hin%list_elem_of_In%has_elem; congruence. }
    unfold t. cbn [wf_tree]. repeat match goal with
      | |- _ /\ _ => split
      | |- (_ < _)%nat => apply Nat.ltb_lt; reflexivity
      | |- Forall word (_ :: _) => apply Forall_cons_2
      | |- Forall word [] => apply Forall_nil_2
      | |- word _ => apply Hw; vm_compute; congruence
      end.
  - done.
  - unfold cstring. split; [vm_compute; reflexivity|]. split; [|vm_compute; reflexivity].
    apply (bool_decide_unpack _). vm_compute. exact I.
  - apply Nat.leb_le. vm_compute. reflexivity.
Defined.
