(* ===== verification/ShTotal.v ===== *)
(** * The parser of user/sh.c terminates

    On every line, well formed or not, the parser either returns a command whose
    tree [nulterminate] can walk, or panics with a message: no loop and no
    recursion goes on for ever, and no store is outside [argv] and [eargv]. *)

From stdpp Require Import base list strings.
From Stdlib Require Import ZArith Lia.
From S2P Require Import Prelude Kstring User Ulib Uprintf Sh.

(** ** Safe parses *)

(** [x] does not get stuck, and what it returns satisfies [Q]. *)
Definition safe {A} (x : P A) (st : pst) (Q : A -> pst -> Prop) : Prop :=
  match x st with POk a st' => Q a st' | PPanic _ => True | PStuck _ => False end.

Lemma safe_bind {A B} (x : P A) (f : A -> P B) st Q R :
  safe x st R -> (forall a st', R a st' -> safe (f a) st' Q) -> safe (pbind' x f) st Q.
Proof. unfold safe, pbind'. destruct (x st); [|done..]. intros H Hf. by apply Hf. Qed.

Lemma safe_mono {A} (x : P A) st (Q R : A -> pst -> Prop) : safe x st R -> (forall a st', R a st' -> Q a st') -> safe x st Q.
Proof. unfold safe. destruct (x st); [|done..]. intros H Hf. by apply Hf. Qed.

(** The commands a node points to come before it. *)
Definition node_ok (i : nat) (n : cnode) : Prop :=
  match n with
  | NExec _ _ => True
  | NRedir c _ _ _ _ | NBack c => (c < i)%nat
  | NPipe l r | NList l r => (l < i)%nat /\ (r < i)%nat
  end.
Definition nodes_ok (cmds : list cnode) : Prop := forall i n, cmds !! i = Some n -> node_ok i n.
Definition is_exec (cmds : list cnode) (i : nat) : Prop := exists a e, cmds !! i = Some (NExec a e).

Lemma nodes_snoc cmds n : nodes_ok cmds -> node_ok (length cmds) n -> nodes_ok (cmds ++ [n]).
Proof.
  intros H Hn i x [Hx|[Hl Hx]]%lookup_app_Some; [by apply H|]. apply list_lookup_singleton_Some in Hx as [Hi <-].
  by replace i with (length cmds) by lia.
Qed.

Section Total.
Context (m : mem) (s0 es : Z) (fuel : nat).
(** The line is between [s0] and [es]. *)
Context (Hend : m es = 0) (Hline : forall x, s0 <= x < es -> m x <> 0) (Hfuel : (Z.to_nat (es - s0) < fuel)%nat).

Definition inv (st : pst) : Prop := s0 <= p_pos st <= es /\ nodes_ok (p_cmds st).
Definition rem (st : pst) : nat := Z.to_nat (es - p_pos st).

(** How the state changes *)
Definition adv (st st' : pst) : Prop :=
  inv st' /\ (rem st' <= rem st)%nat /\ (length (p_cmds st) <= length (p_cmds st'))%nat /\
  forall i, is_exec (p_cmds st) i -> is_exec (p_cmds st') i.

Lemma adv_refl st : inv st -> adv st st.
Proof. intros H. unfold adv. by split_and!. Qed.

Lemma adv_trans s1 s2 s3 : adv s1 s2 -> adv s2 s3 -> adv s1 s3.
Proof. intros (_ & H2 & H3 & H4) (G1 & G2 & G3 & G4). unfold adv. split_and!; [done|lia|lia|]. intros i Hi. by apply G4, H4. Qed.

Lemma adv_move st p : inv st -> p_pos st <= p <= es -> adv st (Pst p (p_cmds st)).
Proof. intros [H1 H2] Hp. unfold adv, inv, rem. cbn. split_and!; try done; lia. Qed.

Lemma skip_safe f : forall k s, s <= es -> (Z.to_nat (es - s) <= k)%nat ->
  exists s', skip m es k f s = Some s' /\ s <= s' <= es /\ (f (m s) = true -> s < es -> s < s').
Proof.
  induction k as [|k IH]; intros s Hs Hk; cbn [skip].
  - rewrite (proj2 (Z.ltb_ge s es)) by lia. exists s. cbn. split_and!; [done|lia|lia|lia].
  - destruct ((s <? es) && f (m s)) eqn:E.
    + apply andb_true_iff in E as [E%Z.ltb_lt _]. destruct (IH (s + 1)) as (s' & -> & Hs' & _); [lia..|]. exists s'. split_and!; [done|lia|lia|lia].
    + exists s. split_and!; [done|lia|lia|]. intros Hf Hl. rewrite Hf in E. apply Z.ltb_lt in Hl. by rewrite Hl in E.
Qed.

(** A position of the line *)
Definition here (s : Z) : Prop := s0 <= s <= es.

Lemma here_nonzero s : here s -> m s <> 0 -> s < es.
Proof. intros H Hm. destruct (decide (s = es)) as [->|]; [done|unfold here in H; lia]. Qed.

Lemma pskip_safe f s st : here s -> safe (pskip m es fuel f s) st (fun s' st' => st' = st /\ s <= s' <= es /\ (f (m s) = true -> s < es -> s < s')).
Proof.
  intros H. unfold safe, pskip. destruct (skip_safe f fuel s) as (s' & -> & H1); [unfold here in H; lia..|]. by split.
Qed.

Lemma peek_safe set st : inv st -> safe (peek m es fuel set) st (fun b st' => adv st st' /\ p_cmds st' = p_cmds st /\ (b = true -> 0 < rem st')%nat).
Proof.
  intros H. unfold peek. eapply (safe_bind _ _ _ _ (fun s st' => s = p_pos st /\ st' = st)); [done|]. intros ? ? [-> ->].
  eapply safe_bind; [apply pskip_safe, H|]. intros s' ? (-> & Hs & _). cbn. split; [apply adv_move; [done|lia]|]. split; [done|].
  intros [Ht _]%andb_true_iff. apply truth_true in Ht. assert (here s') as Hh by (destruct H as [H _]; unfold here; lia).
  pose proof (here_nonzero s' Hh Ht). unfold rem. cbn. lia.
Qed.

Lemma not_symbol c : has [124; 40; 41; 59; 38; 60] c = false -> c <> 62 -> has symbols c = false.
Proof.
  unfold has, symbols. cbn. rewrite !orb_false_iff, !Z.eqb_neq. tauto.
Qed.

Lemma gettoken_safe st : inv st -> safe (gettoken m es fuel) st (fun t st' => adv st st' /\ p_cmds st' = p_cmds st /\
  (0 < rem st -> rem st' < rem st)%nat /\ (fst (fst t) <> 0 -> (0 < rem st)%nat)).
Proof.
  intros H. unfold gettoken. eapply (safe_bind _ _ _ _ (fun s st' => s = p_pos st /\ st' = st)); [done|]. intros ? ? [-> ->].
  eapply safe_bind; [apply pskip_safe, H|]. intros s1 ? (-> & Hs1 & Hb). assert (Hh : here s1) by (destruct H as [H _]; unfold here; lia).
  cbv zeta. eapply (safe_bind _ _ _ _ (fun r st' => st' = st /\ s1 <= snd r <= es /\ (m s1 <> 0 -> has whitespace (m s1) = false -> s1 < snd r) /\
    (fst r <> 0 -> m s1 <> 0))).
  { destruct (Z.eqb_spec (m s1) 0) as [E0|E0]; [unfold safe, pret; cbn; split_and!; (lia || done)|]. pose proof (here_nonzero s1 Hh E0) as Hlt.
    destruct (has [124; 40; 41; 59; 38; 60] (m s1)) eqn:E1; [unfold safe, pret; cbn; split_and!; (lia || done)|].
    destruct (Z.eqb_spec (m s1) 62) as [E2|E2].
    - destruct (Z.eqb_spec (m (s1 + 1)) 62) as [E3|E3]; [|unfold safe, pret; cbn; split_and!; (lia || done)].
      assert (Hlt2 : s1 + 1 < es) by (apply here_nonzero; [unfold here in *; lia|lia]). unfold safe, pret; cbn; split_and!; (lia || done).
    - eapply safe_bind; [by apply pskip_safe|]. intros s2 ? (-> & Hs2 & Hw). unfold safe, pret. cbn [fst snd]. split_and!; [done|lia|lia| |done].
      intros _ Hnb. apply Hw; [|done]. by rewrite Hnb, (not_symbol _ E1 E2). }
  intros [ret s2] ? (-> & Hs2 & Hadv & Hret). cbn [fst snd] in *. eapply safe_bind; [apply pskip_safe; destruct H as [H _]; unfold here in *; lia|].
  intros s3 ? (-> & Hs3 & _). cbn. split; [apply adv_move; [done|lia]|]. split; [done|]. split.
  - unfold rem. cbn. intros Hr. assert (Hpos : m (p_pos st) <> 0) by (apply Hline; destruct H as [H _]; lia).
    destruct (has whitespace (m (p_pos st))) eqn:Ew; [specialize (Hb eq_refl); lia|]. destruct (decide (s1 = p_pos st)) as [->|]; [specialize (Hadv Hpos Ew)|]; lia.
  - intros Hr%Hret. pose proof (here_nonzero s1 Hh Hr). unfold rem. lia.
Qed.

(** ** Commands *)

Lemma new_cmd_safe n st : inv st -> node_ok (length (p_cmds st)) n ->
  safe (new_cmd n) st (fun c st' => adv st st' /\ (c < length (p_cmds st'))%nat /\ rem st' = rem st /\ p_cmds st' = p_cmds st ++ [n] /\ c = length (p_cmds st)).
Proof.
  intros [H1 H2] Hn. unfold safe, new_cmd, adv, inv, rem. cbn [p_pos p_cmds]. rewrite length_app. cbn [length].
  split_and!; try done; try lia; [by apply nodes_snoc|]. intros i (a & e & Hi). exists a, e. by apply lookup_app_l_Some.
Qed.

Lemma set_arg_safe c argc q e st : inv st -> is_exec (p_cmds st) c -> (argc < MAXARGS)%nat ->
  safe (set_arg c argc q e) st (fun _ st' => adv st st' /\ rem st' = rem st).
Proof.
  intros [H1 H2] (a & b & Hc) Hargc. unfold safe, set_arg, adv, inv, rem. rewrite Hc, (proj2 (Nat.ltb_lt _ _)) by done. cbn [p_pos p_cmds].
  rewrite length_insert. split_and!; try done; try lia.
  - intros i n [(_ & <- & _)|[_ Hi]]%list_lookup_insert_Some; [done|by apply H2].
  - intros i (a' & b' & Hi). unfold is_exec. destruct (decide (i = c)) as [->|Hne].
    + rewrite list_lookup_insert_eq by (by eapply lookup_lt_Some). by eexists _, _.
    + rewrite list_lookup_insert_ne by done. by exists a', b'.
Qed.

(** ** The loops *)

Lemma redir_or_not (tok : Z) c q e st : inv st -> (c < length (p_cmds st))%nat ->
  safe (if tok =? 60 then redircmd c q e O_RDONLY 0
        else if tok =? 62 then redircmd c q e (Z.lor (Z.lor O_WRONLY O_CREATE) O_TRUNC) 1
        else if tok =? 43 then redircmd c q e (Z.lor O_WRONLY O_CREATE) 1
        else pret c) st (fun c' st' => adv st st' /\ (c' < length (p_cmds st'))%nat).
Proof.
  intros H Hc. destruct (tok =? 60), (tok =? 62), (tok =? 43); try (eapply safe_mono; [by apply new_cmd_safe|]; cbn; by intros ? ? (? & ? & _));
    (split; [by apply adv_refl|done]).
Qed.

Lemma parseredirs_safe k : forall c st, inv st -> (rem st <= k)%nat -> (c < length (p_cmds st))%nat ->
  safe (parseredirs m es fuel k c) st (fun c' st' => adv st st' /\ (c' < length (p_cmds st'))%nat).
Proof.
  induction k as [|k IH]; intros c st H Hk Hc; cbn [parseredirs]; (eapply safe_bind; [by apply peek_safe|]); intros [|] st1 (H1 & E1 & Hr1).
  - specialize (Hr1 eq_refl). destruct H1 as (_ & H1 & _). lia.
  - split; [done|by rewrite E1].
  - specialize (Hr1 eq_refl). eapply safe_bind; [apply gettoken_safe, H1|]. intros [[tok q] e] st2 (H2 & E2 & Hr2 & _). specialize (Hr2 Hr1).
    eapply safe_bind; [apply gettoken_safe, H2|]. intros [[tok2 q2] e2] st3 (H3 & E3 & _). destruct (negb (tok2 =? 97)); [done|].
    eapply safe_bind; [apply redir_or_not; [apply H3|by rewrite E3, E2, E1]|]. intros c' st4 [H4 Hc'].
    pose proof (adv_trans _ _ _ (adv_trans _ _ _ H1 H2) (adv_trans _ _ _ H3 H4)) as H14.
    eapply safe_mono; [apply IH; [apply H4| |done]|]; [destruct H1 as (_ & ? & _), H3 as (_ & ? & _), H4 as (_ & ? & _); lia|].
    intros c'' st5 [H5 Hc5]. split; [by eapply adv_trans|done].
  - split; [done|by rewrite E1].
Qed.

Lemma parseargs_safe k : forall c ret argc st, inv st -> (rem st < k)%nat -> is_exec (p_cmds st) c -> (argc < MAXARGS)%nat -> (ret < length (p_cmds st))%nat ->
  safe (parseargs m es fuel k c ret argc) st (fun r st' => adv st st' /\ (fst r < MAXARGS)%nat /\ (snd r < length (p_cmds st'))%nat).
Proof.
  induction k as [|k IH]; intros c ret argc st H Hk Hc Ha Hret; [lia|]; cbn [parseargs].
  eapply safe_bind; [by apply peek_safe|]; intros [|] st1 (H1 & E1 & _); [split_and!; [done|done|by rewrite E1]|].
  eapply safe_bind; [apply gettoken_safe, H1|]. intros [[tok q] e] st2 (H2 & E2 & Hr2 & Ht2). pose proof (adv_trans _ _ _ H1 H2) as H12. cbv beta iota zeta.
  destruct (Z.eqb_spec tok 0) as [_|Ht]; [split_and!; [done|done|by rewrite E2, E1]|]. destruct (negb (tok =? 97)); [done|].
  specialize (Hr2 (Ht2 Ht)). eapply safe_bind; [apply set_arg_safe; [apply H2|by rewrite E2, E1|done]|]. intros _ st3 [H3 Hr3].
  destruct (Nat.leb_spec MAXARGS (S argc)) as [_|Hmax]; [done|]. pose proof (adv_trans _ _ _ H12 H3) as H13.
  assert (Hr1 : (rem st1 <= rem st)%nat) by apply H1.
  eapply safe_bind; [apply parseredirs_safe; [apply H3|destruct H as [H _]; unfold rem in *; lia|destruct H13 as (_ & _ & ? & _); lia]|].
  intros ret' st4 [H4 Hret4]. pose proof (adv_trans _ _ _ H13 H4) as H14. assert (Hr4 : (rem st4 <= rem st3)%nat) by apply H4.
  eapply safe_mono; [apply IH; [apply H4|lia|by apply H14|done|done]|]. intros r st5 [H5 Hr5]. split; [by eapply adv_trans|done].
Qed.

Lemma parseback_safe k : forall c st, inv st -> (rem st <= k)%nat -> (c < length (p_cmds st))%nat ->
  safe (parseback m es fuel k c) st (fun c' st' => adv st st' /\ (c' < length (p_cmds st'))%nat).
Proof.
  induction k as [|k IH]; intros c st H Hk Hc; cbn [parseback]; (eapply safe_bind; [by apply peek_safe|]); intros [|] st1 (H1 & E1 & Hr1).
  - specialize (Hr1 eq_refl). destruct H1 as (_ & H1 & _). lia.
  - split; [done|by rewrite E1].
  - specialize (Hr1 eq_refl). eapply safe_bind; [apply gettoken_safe, H1|]. intros t st2 (H2 & E2 & Hr2 & _). specialize (Hr2 Hr1).
    eapply safe_bind; [apply new_cmd_safe; [apply H2|by rewrite E2, E1]|]. intros c' st3 (H3 & Hc' & Hr3 & _).
    pose proof (adv_trans _ _ _ (adv_trans _ _ _ H1 H2) H3) as H13. assert (Hr : (rem st1 <= rem st)%nat) by apply H1.
    eapply safe_mono; [apply IH; [apply H3|lia|done]|]. intros c'' st4 [H4 Hc4]. split; [by eapply adv_trans|done].
  - split; [done|by rewrite E1].
Qed.

(** ** The grammar *)

Definition gives (st : pst) (c : nat) (st' : pst) : Prop := adv st st' /\ (c < length (p_cmds st'))%nat.

Lemma rem_fuel st : inv st -> (rem st < fuel)%nat.
Proof. intros [H _]. unfold rem. lia. Qed.

Lemma parsesimple_safe st : inv st -> safe (parsesimple m es fuel) st (gives st).
Proof.
  intros H. unfold parsesimple. eapply safe_bind; [by apply new_cmd_safe|]. intros c st1 (H1 & Hc1 & _ & E1 & Ec). cbv zeta.
  assert (Hex : is_exec (p_cmds st1) c) by (subst c; rewrite E1; eexists _, _; by rewrite lookup_app_r, Nat.sub_diag).
  eapply safe_bind; [apply parseredirs_safe; [apply H1|apply Nat.lt_le_incl, rem_fuel, H1|done]|]. intros r st2 [H2 Hr2].
  eapply safe_bind; [apply parseargs_safe; [apply H2|apply rem_fuel, H2|by apply H2|unfold MAXARGS; lia|done]|].
  intros [argc ret] st3 (H3 & Hargc & Hret). cbn [fst snd] in *. pose proof (adv_trans _ _ _ H2 H3) as H23.
  eapply safe_bind; [apply set_arg_safe; [apply H3|by apply H23|done]|]. intros _ st4 [H4 _].
  split; [by eapply adv_trans; [|eapply adv_trans; [exact H23|]]|]. destruct H4 as (_ & _ & ? & _). lia.
Qed.

(** The right hand side of a list or a pipe *)
Lemma rhs_safe (x : P nat) (f : nat -> nat -> cnode) c st st1 : adv st st1 -> (c < length (p_cmds st1))%nat -> (0 < rem st1)%nat ->
  (forall l r i, (l < i)%nat -> (r < i)%nat -> node_ok i (f l r)) ->
  (forall st2, inv st2 -> (rem st2 < rem st1)%nat -> safe x st2 (gives st2)) ->
  safe (pbind' (gettoken m es fuel) (fun _ => pbind' x (fun rc => new_cmd (f c rc)))) st1 (gives st).
Proof.
  intros H1 Hc Hr Hf Hx. eapply safe_bind; [apply gettoken_safe, H1|]. intros _ st2 (H2 & _ & Hr2 & _).
  eapply safe_bind; [apply Hx; [apply H2|by apply Hr2]|]. intros rc st3 [H3 Hrc]. pose proof (adv_trans _ _ _ H2 H3) as H23.
  eapply safe_mono; [apply new_cmd_safe; [apply H3|apply Hf; [destruct H23 as (_ & _ & ? & _); lia|done]]|].
  intros i st4 (H4 & Hi & _). split; [|done]. by eapply adv_trans; [|eapply adv_trans; [exact H23|]].
Qed.

Definition all_safe (k : nat) : Prop := forall st, inv st ->
  ((4 * rem st + 4 <= k)%nat -> safe (parseline m es fuel k) st (gives st)) /\
  ((4 * rem st + 3 <= k)%nat -> safe (parsepipe m es fuel k) st (gives st)) /\
  ((4 * rem st + 2 <= k)%nat -> safe (parseexec m es fuel k) st (gives st)) /\
  ((4 * rem st + 1 <= k)%nat -> safe (parseblock m es fuel k) st (gives st)).

Lemma parseline_safe k st : all_safe k -> inv st -> (4 * rem st + 4 <= S k)%nat -> safe (parseline m es fuel (S k)) st (gives st).
Proof.
  intros IH H Hk. cbn [parseline]. eapply safe_bind; [apply (proj1 (proj2 (IH st H))); lia|]. intros c st1 [H1 Hc1].
  eapply safe_bind; [apply parseback_safe; [apply H1|apply Nat.lt_le_incl, rem_fuel, H1|done]|]. intros c2 st2 [H2 Hc2].
  eapply safe_bind; [apply peek_safe, H2|]. intros b st3 (H3 & E3 & Hr3). pose proof (adv_trans _ _ _ (adv_trans _ _ _ H1 H2) H3) as H13.
  destruct b; [|split; [done|by rewrite E3]]. apply (rhs_safe _ NList); [done|by rewrite E3|by apply Hr3|done|].
  intros st4 H4 Hr4. apply (IH st4 H4). assert (rem st3 <= rem st)%nat by apply H13. lia.
Qed.

Lemma parsepipe_safe k st : all_safe k -> inv st -> (4 * rem st + 3 <= S k)%nat -> safe (parsepipe m es fuel (S k)) st (gives st).
Proof.
  intros IH H Hk. cbn [parsepipe]. eapply safe_bind; [apply (IH st H); lia|]. intros c st1 [H1 Hc1].
  eapply safe_bind; [apply peek_safe, H1|]. intros b st3 (H3 & E3 & Hr3). pose proof (adv_trans _ _ _ H1 H3) as H13.
  destruct b; [|split; [done|by rewrite E3]]. apply (rhs_safe _ NPipe); [done|by rewrite E3|by apply Hr3|done|].
  intros st4 H4 Hr4. apply (IH st4 H4). assert (rem st3 <= rem st)%nat by apply H13. lia.
Qed.

Lemma parseblock_safe k st : all_safe k -> inv st -> (4 * rem st + 1 <= S k)%nat -> safe (parseblock m es fuel (S k)) st (gives st).
Proof.
  intros IH H Hk. cbn [parseblock]. eapply safe_bind; [by apply peek_safe|]. intros [|] st1 (H1 & E1 & Hr1); cbn [negb]; [|done].
  eapply safe_bind; [apply gettoken_safe, H1|]. intros _ st2 (H2 & _ & Hr2 & _). specialize (Hr2 (Hr1 eq_refl)). assert (rem st1 <= rem st)%nat by apply H1.
  eapply safe_bind; [apply (IH st2 (proj1 H2)); lia|]. intros c st3 [H3 Hc3].
  eapply safe_bind; [apply peek_safe, H3|]. intros [|] st4 (H4 & E4 & _); cbn [negb]; [|done].
  eapply safe_bind; [apply gettoken_safe, H4|]. intros _ st5 (H5 & E5 & _).
  pose proof (adv_trans _ _ _ (adv_trans _ _ _ (adv_trans _ _ _ H1 H2) (adv_trans _ _ _ H3 H4)) H5) as H15.
  eapply safe_mono; [apply parseredirs_safe; [apply H5|apply Nat.lt_le_incl, rem_fuel, H5|by rewrite E5, E4]|].
  intros c' st6 [H6 Hc6]. split; [by eapply adv_trans|done].
Qed.

Lemma parseexec_safe k st : all_safe k -> inv st -> (4 * rem st + 2 <= S k)%nat -> safe (parseexec m es fuel (S k)) st (gives st).
Proof.
  intros IH H Hk. cbn [parseexec]. eapply safe_bind; [by apply peek_safe|]. intros b st1 (H1 & _). assert (rem st1 <= rem st)%nat by apply H1.
  eapply safe_mono with (R := gives st1); [|intros c st2 [H2 Hc]; split; [by eapply adv_trans|done]].
  destruct b; [apply (IH st1 (proj1 H1)); lia|apply parsesimple_safe, H1].
Qed.

Lemma parse_safe k : all_safe k.
Proof.
  induction k as [|k IH]; intros st H; [split_and!; lia|].
  split_and!; intros Hk; [by apply parseline_safe|by apply parsepipe_safe|by apply parseexec_safe|by apply parseblock_safe].
Qed.
End Total.

(** ** Walking the tree *)

Lemma nulterminate_total cmds : nodes_ok cmds -> forall k i m, (i < k)%nat -> (i < length cmds)%nat -> exists m', nulterminate k cmds i m = Some m'.
Proof.
  intros Hok. induction k as [|k IH]; intros i m Hk Hi; [lia|]. cbn [nulterminate]. destruct (lookup_lt_is_Some_2 _ _ Hi) as [n Hn]. rewrite Hn.
  pose proof (Hok i n Hn) as Hc. destruct n as [a e|c a e md fd|l r|l r|c]; cbn in Hc.
  - by eexists.
  - destruct (IH c m) as [m' ->]; [lia|lia|]. by eexists.
  - destruct (IH l m) as [m' ->]; [lia|lia|]. apply IH; lia.
  - destruct (IH l m) as [m' ->]; [lia|lia|]. apply IH; lia.
  - apply IH; lia.
Qed.

(** C35 The parser of the shell terminates on every line: whatever zero
    terminated string [parsecmd] is given, a fuel linear in its length is enough
    for [parseline] to return a command or to panic with a message, each word
    stored inside [argv]; the tree of the commands it returns has no cycle and no
    dangling pointer, so [nulterminate] comes to an end too. *)
Theorem parser_total m s l fuel : cstring m s l -> (4 * length l + 4 <= fuel)%nat ->
  (exists why, parseline m (s + Z.of_nat (length l)) fuel fuel (Pst s []) = PPanic why) \/
  (exists root st m', parseline m (s + Z.of_nat (length l)) fuel fuel (Pst s []) = POk root st /\ s <= p_pos st <= s + Z.of_nat (length l) /\
     nulterminate (S (length (p_cmds st))) (p_cmds st) root m = Some m').
Proof.
  intros (Hb & Hnz & Hend) Hf. set (es := s + Z.of_nat (length l)) in *.
  assert (Hline : forall x, s <= x < es -> m x <> 0).
  { intros x Hx E. eapply Forall_lookup_1 in Hnz; [apply Hnz, E|]. rewrite <- Hb. rewrite (bytes_at_lookup m s (length l) (Z.to_nat (x - s))) by lia. f_equal. f_equal. lia. }
  assert (Hi : inv s es (Pst s [])) by (split; [cbn; lia|done]).
  assert (Hr : rem es (Pst s []) = length l) by (unfold rem; cbn; lia).
  destruct (parse_safe m s es fuel Hend Hline ltac:(lia) fuel (Pst s []) Hi) as [Hp _]. specialize (Hp ltac:(lia)). unfold safe in Hp.
  destruct (parseline m es fuel fuel (Pst s [])) as [root st|why|why]; [right|left; by exists why|done].
  destruct Hp as [[[Hpos Hnodes] _] Hroot]. destruct (nulterminate_total _ Hnodes (S (length (p_cmds st))) root m) as [m' Hm']; [lia|done|].
  by exists root, st, m'.
Qed.

(** The line [((a|b>] at address 64, which has no command *)
Lemma parser_total_witness :
  let m := mem_write (fun _ => 0) 64 (lit "((a|b>") in
  (exists why, parseline m 70 40 40 (Pst 64 []) = PPanic why) \/
  (exists root st m', parseline m 70 40 40 (Pst 64 []) = POk root st /\ 64 <= p_pos st <= 70 /\
     nulterminate (S (length (p_cmds st))) (p_cmds st) root m = Some m').
Proof.
  intros m. apply (parser_total m 64 (lit "((a|b>") 40).
  - unfold cstring. split; [vm_compute; reflexivity|]. split; [|vm_compute; reflexivity].
    apply (bool_decide_unpack _). vm_compute. exact I.
  - apply Nat.leb_le. vm_compute. reflexivity.
Defined.
