(* ===== verification/Utils.v ===== *)
(** * The small user programs

    cat, echo, forktest, init, kill, ln, ls, mkdir, rm, semtest, stressfs, wc
    and zombie of user/, one section each.  [fuel] bounds strings and loops that
    depend on the answers of the kernel; the other parameters are the addresses of
    buffers. *)

From stdpp Require Import base list strings.
From Stdlib Require Import ZArith Lia.
From S2P Require Import Prelude Kstring User Ulib Uprintf Grep Sh.

Section Args.
Context (fuel : nat).

(** [for(i = first; i < argc; i++) body(argv[i])], where the body says whether the loop goes on *)
Fixpoint each_arg (f : nat) (body : Z -> U bool) (argc argv i : Z) : U unit :=
  if i <? argc then
    match f with
    | O => stuck "fuel"
    | S f =>
        a <- argv_at argv i ;;
        go <- body a ;;
        if go : bool then each_arg f body argc argv (i + 1) else uret tt
    end
  else uret tt.

(** ** cat.c *)

Definition CATBUF : Z := 512.

Fixpoint cat_loop (f : nat) (buf fd : Z) : U Z :=
  match f with
  | O => stuck "fuel"
  | S f =>
      n <- sys_read fd buf CATBUF ;;
      if 0 <? n then
        r <- sys_write 1 buf n ;;
        if negb (r =? n) then
          fprintf fuel 2 (litn "cat: write error") [] ;;
          uexit 1
        else cat_loop f buf fd
      else uret n
  end.

Definition cat (buf fd : Z) : U unit :=
  n <- cat_loop fuel buf fd ;;
  uwhen (n <? 0)
    (fprintf fuel 2 (litn "cat: read error") [] ;;
     uexit 1).

Definition cat_main (buf argc argv : Z) : U Z :=
  if argc <=? 1 then
    cat buf 0 ;;
    uexit 0
  else
    each_arg (Z.to_nat argc) (fun a =>
      fd <- sys_open fuel a O_RDONLY ;;
      if fd <? 0 then
        fprintf fuel 2 (litn "cat: cannot open %s") [a] ;;
        uexit 1
      else
        cat buf fd ;;
        sys (SysClose fd) ;;
        uret true) argc argv 1 ;;
    uexit 0.

(** ** echo.c *)

Fixpoint echo_loop (f : nat) (argc argv i : Z) : U unit :=
  if i <? argc then
    match f with
    | O => stuck "fuel"
    | S f =>
        a <- argv_at argv i ;;
        m <- umem ;;
        n <- of_opt (strlen fuel m a) ;;
        sys_write 1 a n ;;
        sys (SysWrite 1 (if i + 1 <? argc then lit " " else [10])) ;;
        echo_loop f argc argv (i + 1)
    end
  else uret tt.

Definition echo_main (argc argv : Z) : U Z :=
  echo_loop (Z.to_nat argc) argc argv 1 ;;
  uexit 0.

(** ** kill.c *)

Definition kill_main (argc argv : Z) : U Z :=
  if argc <? 2 then
    fprintf fuel 2 (litn "usage: kill pid...") [] ;;
    uexit 1
  else
    each_arg (Z.to_nat argc) (fun a =>
      m <- umem ;;
      pid <- of_opt (atoi fuel m a) ;;
      sys (SysKill pid) ;;
      uret true) argc argv 1 ;;
    uexit 0.

(** ** ln.c *)

Definition ln_main (argc argv : Z) : U Z :=
  if negb (argc =? 3) then
    fprintf fuel 2 (litn "Usage: ln old new") [] ;;
    uexit 1
  else
    old <- argv_at argv 1 ;;
    new <- argv_at argv 2 ;;
    r <- sys_link fuel old new ;;
    uwhen (r <? 0) (fprintf fuel 2 (litn "link %s %s: failed") [old; new]) ;;
    uexit 0.

(** ** mkdir.c and rm.c *)

Definition mkdir_main (argc argv : Z) : U Z :=
  if argc <? 2 then
    fprintf fuel 2 (litn "Usage: mkdir files...") [] ;;
    uexit 1
  else
    each_arg (Z.to_nat argc) (fun a =>
      r <- sys_mkdir fuel a ;;
      if r <? 0 then
        fprintf fuel 2 (litn "mkdir: %s failed to create") [a] ;;
        uret false
      else uret true) argc argv 1 ;;
    uexit 0.

Definition rm_main (argc argv : Z) : U Z :=
  if argc <? 2 then
    fprintf fuel 2 (litn "Usage: rm files...") [] ;;
    uexit 1
  else
    each_arg (Z.to_nat argc) (fun a =>
      r <- sys_unlink fuel a ;;
      if r <? 0 then
        fprintf fuel 2 (litn "rm: %s failed to delete") [a] ;;
        uret false
      else uret true) argc argv 1 ;;
    uexit 0.

(** ** wc.c *)

Definition WCBUF : Z := 512.

(** The counters [l], [w], [c] and [inword] *)
Record counts : Type := Counts { c_l : Z; c_w : Z; c_c : Z; c_in : bool }.

Definition wc_byte (k : counts) (b : Z) : counts :=
  let c := i32 (c_c k + 1) in
  let l := if b =? 10 then i32 (c_l k + 1) else c_l k in
  if has [32; 13; 9; 10; 11] b then Counts l (c_w k) c false
  else if negb (c_in k) then Counts l (i32 (c_w k + 1)) c true
  else Counts l (c_w k) c (c_in k).

Fixpoint wc_bytes (n : nat) (m : mem) (p : Z) (k : counts) : counts :=
  match n with
  | O => k
  | S n => wc_bytes n m (p + 1) (wc_byte k (m p))
  end.

Fixpoint wc_loop (f : nat) (buf fd : Z) (k : counts) : U (Z * counts) :=
  match f with
  | O => stuck "fuel"
  | S f =>
      n <- sys_read fd buf WCBUF ;;
      if 0 <? n then
        m <- umem ;;
        wc_loop f buf fd (wc_bytes (Z.to_nat n) m buf k)
      else uret (n, k)
  end.

Definition wc (buf fd name : Z) : U unit :=
  r <- wc_loop fuel buf fd (Counts 0 0 0 false) ;;
  let '(n, k) := r in
  if n <? 0 then
    printf fuel (litn "wc: read error") [] ;;
    uexit 1
  else printf fuel (litn "%d %d %d %s") [c_l k; c_w k; c_c k; name].

(** [empty] is the address of the literal [""]. *)
Definition wc_main (buf empty argc argv : Z) : U Z :=
  if argc <=? 1 then
    wc buf 0 empty ;;
    uexit 0
  else
    each_arg (Z.to_nat argc) (fun a =>
      fd <- sys_open fuel a O_RDONLY ;;
      if fd <? 0 then
        printf fuel (litn "wc: cannot open %s") [a] ;;
        uexit 1
      else
        wc buf fd a ;;
        sys (SysClose fd) ;;
        uret true) argc argv 1 ;;
    uexit 0.
End Args.

(** ** ls.c *)

Section Ls.
(** [fuel], the [buf] of [fmtname], and the locals [buf], [de] and [st] of [ls] *)
Context (fuel : nat) (namebuf pathbuf de st : Z).

Definition DIRSIZ : Z := 14.
Definition T_DIR : Z := 1.
Definition T_FILE : Z := 2.
Definition T_DEVICE : Z := 3.
Definition sizeof_de : Z := 16.

(** [for(p=path+strlen(path); p >= path && *p != '/'; p--) ;] *)
Fixpoint last_slash (f : nat) (m : mem) (path p : Z) : option Z :=
  if (path <=? p) && negb (m p =? 47) then
    match f with
    | O => None
    | S f => last_slash f m path (p - 1)
    end
  else Some p.

Definition fmtname (path : Z) : U Z :=
  m <- umem ;;
  n <- of_opt (strlen fuel m path) ;;
  p <- of_opt (last_slash fuel m path (path + n)) ;;
  let p := p + 1 in
  k <- of_opt (strlen fuel m p) ;;
  if DIRSIZ <=? k then uret p
  else
    uput (memmove m namebuf p k) ;;
    m <- umem ;;
    k <- of_opt (strlen fuel m p) ;;
    uput (memset m (namebuf + k) 32 (DIRSIZ - k)) ;;
    uret namebuf.

(** The fields of [st] as arguments of [printf] *)
Definition st_type : U Z := m <- umem ;; uret (i16 (load 2 m (st + 8))).
Definition st_ino : U Z := m <- umem ;; uret (load32 m (st + 4)).
Definition st_size : U Z := m <- umem ;; uret (i32 (load64 m (st + 16))).

Definition print_entry (path : Z) : U unit :=
  name <- fmtname path ;;
  ty <- st_type ;;
  ino <- st_ino ;;
  sz <- st_size ;;
  printf fuel (litn "%s %d %d %d") [name; ty; ino; sz].

(** [while(read(fd, &de, sizeof(de)) == sizeof(de))]; [p] is where the names go *)
Fixpoint ls_entries (f : nat) (fd p : Z) : U unit :=
  match f with
  | O => stuck "fuel"
  | S f =>
      r <- sys_read fd de sizeof_de ;;
      if negb (r =? sizeof_de) then uret tt
      else
        m <- umem ;;
        if load 2 m de =? 0 then ls_entries f fd p
        else
          uput (memmove m p (de + 2) DIRSIZ) ;;
          ustore8 (p + DIRSIZ) 0 ;;
          r <- stat fuel pathbuf st ;;
          if r <? 0 then
            printf fuel (litn "ls: cannot stat %s") [pathbuf] ;;
            ls_entries f fd p
          else
            print_entry pathbuf ;;
            ls_entries f fd p
  end.

Definition ls (path : Z) : U unit :=
  fd <- sys_open fuel path O_RDONLY ;;
  if fd <? 0 then fprintf fuel 2 (litn "ls: cannot open %s") [path]
  else
    r <- sys_fstat fd st ;;
    if r <? 0 then
      fprintf fuel 2 (litn "ls: cannot stat %s") [path] ;;
      sys (SysClose fd) ;;
      uret tt
    else
      ty <- st_type ;;
      (if (ty =? T_DEVICE) || (ty =? T_FILE) then print_entry path
       else if ty =? T_DIR then
         m <- umem ;;
         n <- of_opt (strlen fuel m path) ;;
         if 512 <? n + 1 + DIRSIZ + 1 then printf fuel (litn "ls: path too long") []
         else
           m <- of_opt (strcpy fuel m pathbuf path) ;;
           uput m ;;
           n <- of_opt (strlen fuel m pathbuf) ;;
           ustore8 (pathbuf + n) 47 ;;
           ls_entries fuel fd (pathbuf + n + 1)
       else uret tt) ;;
      sys (SysClose fd) ;;
      uret tt.

(** [dot] is the address of the literal ["."]. *)
Definition ls_main (dot argc argv : Z) : U Z :=
  if argc <? 2 then
    ls dot ;;
    uexit 0
  else
    each_arg (Z.to_nat argc) (fun a => ls a ;; uret true) argc argv 1 ;;
    uexit 0.
End Ls.

(** ** init.c *)

Definition CONSOLE : Z := 1.

(** [for(;;) { wpid = wait(0); ... }] until the shell exits *)
Fixpoint init_wait (fuel f : nat) (pid : Z) : U unit :=
  match f with
  | O => stuck "fuel"
  | S f =>
      wpid <- sys SysWait ;;
      if wpid =? pid then uret tt
      else if wpid <? 0 then
        printf fuel (litn "init: wait returned an error") [] ;;
        uexit 1
      else init_wait fuel f pid
  end.

Fixpoint init_loop (fuel f : nat) : U unit :=
  match f with
  | O => stuck "fuel"
  | S f =>
      printf fuel (litn "init: starting sh") [] ;;
      pid <- sys SysFork ;;
      if pid <? 0 then
        printf fuel (litn "init: fork failed") [] ;;
        uexit 1
      else if pid =? 0 then
        sys (SysExec (lit "sh") [lit "sh"]) ;;
        printf fuel (litn "init: exec sh failed") [] ;;
        uexit 1
      else
        init_wait fuel fuel pid ;;
        init_loop fuel f
  end.

Definition init_main (fuel : nat) : U Z :=
  r <- sys (SysOpen (lit "console") O_RDWR) ;;
  uwhen (r <? 0)
    (sys (SysMknod (lit "console") CONSOLE 0) ;;
     sys (SysOpen (lit "console") O_RDWR) ;;
     uret tt) ;;
  sys (SysDup 0) ;;
  sys (SysDup 0) ;;
  init_loop fuel fuel ;;
  uret 0.

(** ** forktest.c *)

Definition FORKS : nat := 1000.
Definition print (s : list Z) : U unit := sys (SysWrite 1 s) ;; uret tt.

(** [for(n=0; n<N; n++)] with [k] rounds to go; returns [n] *)
Fixpoint fork_loop (k : nat) (n : Z) : U Z :=
  match k with
  | O => uret n
  | S k =>
      pid <- sys SysFork ;;
      if pid <? 0 then uret n
      else if pid =? 0 then uexit 0
      else fork_loop k (n + 1)
  end.

(** [for(; n > 0; n--)] *)
Fixpoint reap_loop (n : nat) : U unit :=
  match n with
  | O => uret tt
  | S n =>
      r <- sys SysWait ;;
      if r <? 0 then
        print (litn "wait stopped early") ;;
        uexit 1
      else reap_loop n
  end.

Definition forktest : U unit :=
  print (litn "fork test") ;;
  n <- fork_loop FORKS 0 ;;
  if n =? Z.of_nat FORKS then
    print (litn "fork claimed to work N times!") ;;
    uexit 1
  else
    reap_loop (Z.to_nat n) ;;
    r <- sys SysWait ;;
    if negb (r =? -1) then
      print (litn "wait got too many") ;;
      uexit 1
    else print (litn "fork test OK").

Definition forktest_main : U Z :=
  forktest ;;
  uexit 0.

(** ** zombie.c *)

Definition zombie_main : U Z :=
  pid <- sys SysFork ;;
  uwhen (0 <? pid) (sys (SysSleep 5) ;; uret tt) ;;
  uexit 0.

(** ** stressfs.c *)

(** [for(i = 0; i < 4; i++) if(fork() > 0) break;] *)
Fixpoint stress_fork (k : nat) (i : Z) : U Z :=
  match k with
  | O => uret i
  | S k =>
      pid <- sys SysFork ;;
      if 0 <? pid then uret i else stress_fork k (i + 1)
  end.

Fixpoint repeat_call (k : nat) (x : U Z) : U unit :=
  match k with
  | O => uret tt
  | S k => x ;; repeat_call k x
  end.

(** [path] and [data] are the addresses of the local arrays. *)
Definition stressfs_main (fuel : nat) (path data : Z) : U Z :=
  m <- umem ;;
  uput (mem_write m path (lit "stressfs0" ++ [0])) ;;
  printf fuel (litn "stressfs starting") [] ;;
  m <- umem ;;
  uput (memset m data 97 512) ;;
  i <- stress_fork 4 0 ;;
  printf fuel (litn "write %d") [i] ;;
  b <- uload8 (path + 8) ;;
  ustore8 (path + 8) (b + i) ;;
  fd <- sys_open fuel path (Z.lor O_CREATE O_RDWR) ;;
  repeat_call 20 (sys_write fd data 512) ;;
  sys (SysClose fd) ;;
  printf fuel (litn "read") [] ;;
  fd <- sys_open fuel path O_RDONLY ;;
  repeat_call 20 (sys_read fd data 512) ;;
  sys (SysClose fd) ;;
  sys SysWait ;;
  uexit 0.

(** ** semtest.c *)

Definition sem_id : Z := 0.

(** [for(int i=0; i<5; i++)] of [producer] and [consumer], with [k] rounds to go *)
Fixpoint sem_rounds (fuel k : nat) (who : string) (i : Z) : U unit :=
  match k with
  | O => uret tt
  | S k =>
      sys (SysSemDown sem_id) ;;
      printf fuel (lit who ++ litn " %d") [i] ;;
      sys (SysSemUp sem_id) ;;
      sem_rounds fuel k who (i + 1)
  end.

Definition producer (fuel : nat) : U unit := sem_rounds fuel 5 "producer" 0 ;; uexit 0.
Definition consumer (fuel : nat) : U unit := sem_rounds fuel 5 "consumer" 0 ;; uexit 0.

Definition semtest_main (fuel : nat) : U Z :=
  r <- sys (SysSemInit sem_id 1) ;;
  if r <? 0 then
    printf fuel (litn "Failed to init semaphore") [] ;;
    uexit 1
  else
    pid <- sys SysFork ;;
    if pid <? 0 then
      printf fuel (litn "Fork failed") [] ;;
      uexit 1
    else
      (if pid =? 0 then producer fuel
       else
         consumer fuel ;;
         sys SysWait ;;
         uret tt) ;;
      uexit 0.
