(* ===== verification/Grind.v ===== *)
(** * grind and shmtest

    user/grind.c and user/shmtest.c.  [fuel] bounds strings and the loops, which do
    not end in grind; the other parameters are the addresses of variables.

    What the theorem shows: [do_rand] is the generator its comment describes, computed
    without overflow, and has the full period. *)

From stdpp Require Import base list strings.
From Stdlib Require Import ZArith Lia Znumtheory Zpow_facts.
From S2P Require Import Prelude Kstring User Ulib Uprintf Sh Utils.

(** ** grind.c *)

(** What [do_rand] makes of [*ctx] *)
Definition rand_value (ctx : Z) : Z :=
  let x := i64 (ctx mod 0x7ffffffe + 1) in
  let hi := Z.quot x 127773 in
  let lo := Z.rem x 127773 in
  let x := i64 (i64 (16807 * lo) - i64 (2836 * hi)) in
  let x := if x <? 0 then i64 (x + 0x7fffffff) else x in
  i64 (x - 1).

Definition do_rand (ctx : Z) : U Z :=
  v <- uload64 ctx ;;
  let x := rand_value v in
  ustore64 ctx (u64 x) ;;
  uret (i32 x).

(** [printf(msg); exit(status)] *)
Definition quit {A} (fuel : nat) (fd : Z) (msg : string) (status : Z) : U A :=
  fprintf fuel fd (litn msg) [] ;;
  uexit status.

Section Grind.
Context (fuel : nat).
(** The addresses of [rand_next], of the static [buf], of the local variables, and of
    the constant string that ends the pipeline test *)
Context (rand_next buf fds c st aa bb buf4 st1 st2 hi_nl : Z).

Definition rand : U Z := do_rand rand_next.

(** [close(open(path, O_CREATE|O_RDWR))] *)
Definition touch (path : string) : U unit :=
  fd <- sys (SysOpen (lit path) (Z.lor O_CREATE O_RDWR)) ;;
  sys (SysClose fd) ;;
  uret tt.

Definition unlink (path : string) : U unit := sys (SysUnlink (lit path)) ;; uret tt.
Definition mkdir (path : string) : U unit := sys (SysMkdir (lit path)) ;; uret tt.
Definition chdir (path : string) : U unit := sys (SysChdir (lit path)) ;; uret tt.
Definition link (old new : string) : U unit := sys (SysLink (lit old) (lit new)) ;; uret tt.

(** [int pid = fork(); if(pid == 0){ child; exit(0); } else if(pid < 0){ ...; exit(1); }] *)
Definition fork_child (child : U unit) : U Z :=
  pid <- sys SysFork ;;
  if pid =? 0 then
    child ;;
    uexit 0
  else if pid <? 0 then quit fuel 1 "grind: fork failed" 1
  else uret pid.

(** [what] from 1 to 12: files; returns [fd] *)
Definition go_files (what fd : Z) : U Z :=
  match what with
  | 1 => touch "grindir/../a" ;; uret fd
  | 2 => touch "grindir/../grindir/../b" ;; uret fd
  | 3 => unlink "grindir/../a" ;; uret fd
  | 4 =>
      r <- sys (SysChdir (lit "grindir")) ;;
      if negb (r =? 0) then quit fuel 1 "grind: chdir grindir failed" 1
      else
        unlink "../b" ;;
        chdir "/" ;;
        uret fd
  | 5 =>
      sys (SysClose fd) ;;
      sys (SysOpen (lit "/grindir/../a") (Z.lor O_CREATE O_RDWR))
  | 6 =>
      sys (SysClose fd) ;;
      sys (SysOpen (lit "/./grindir/./../b") (Z.lor O_CREATE O_RDWR))
  | 7 => sys_write fd buf 999 ;; uret fd
  | 8 => sys_read fd buf 999 ;; uret fd
  | 9 =>
      mkdir "grindir/../a" ;;
      touch "a/../a/./a" ;;
      unlink "a/a" ;;
      uret fd
  | 10 =>
      mkdir "/../b" ;;
      touch "grindir/../b/b" ;;
      unlink "b/b" ;;
      uret fd
  | 11 =>
      unlink "b" ;;
      link "../grindir/./../a" "../b" ;;
      uret fd
  | 12 =>
      unlink "../grindir/../a" ;;
      link ".././b" "/grindir/../a" ;;
      uret fd
  | _ => uret fd
  end.

(** [what] from 13 to 18: processes and memory *)
Definition go_procs (what break0 : Z) : U unit :=
  match what with
  | 13 => fork_child (uret tt) ;; sys SysWait ;; uret tt
  | 14 =>
      fork_child (sys SysFork ;; sys SysFork ;; uret tt) ;;
      sys SysWait ;;
      uret tt
  | 15 => sys (SysSbrk 6011) ;; uret tt
  | 16 =>
      b <- sys (SysSbrk 0) ;;
      uwhen (u64 break0 <? u64 b)
        (b <- sys (SysSbrk 0) ;;
         sys (SysSbrk (i32 (- (b - break0)))) ;;
         uret tt)
  | 17 =>
      pid <- fork_child (touch "a") ;;
      r <- sys (SysChdir (lit "../grindir/..")) ;;
      if negb (r =? 0) then quit fuel 1 "grind: chdir failed" 1
      else
        sys (SysKill pid) ;;
        sys SysWait ;;
        uret tt
  | 18 =>
      fork_child (pid <- sys SysGetpid ;; sys (SysKill pid) ;; uret tt) ;;
      sys SysWait ;;
      uret tt
  | _ => uret tt
  end.

(** [what == 19]: a pipe between relatives *)
Definition go_pipe : U unit :=
  r <- sys_pipe fds ;;
  if r <? 0 then quit fuel 1 "grind: pipe failed" 1
  else
    fork_child
      (sys SysFork ;;
       sys SysFork ;;
       fd1 <- uload32 (fds + 4) ;;
       n <- sys (SysWrite fd1 (lit "x")) ;;
       uwhen (negb (n =? 1)) (printf fuel (litn "grind: pipe write failed") []) ;;
       fd0 <- uload32 fds ;;
       n <- sys_read fd0 c 1 ;;
       uwhen (negb (n =? 1)) (printf fuel (litn "grind: pipe read failed") [])) ;;
    fd0 <- uload32 fds ;;
    sys (SysClose fd0) ;;
    fd1 <- uload32 (fds + 4) ;;
    sys (SysClose fd1) ;;
    sys SysWait ;;
    uret tt.

(** [what == 20]: a removed working directory *)
Definition go_lost_dir : U unit :=
  fork_child
    (unlink "a" ;;
     mkdir "a" ;;
     chdir "a" ;;
     unlink "../a" ;;
     sys (SysOpen (lit "x") (Z.lor O_CREATE O_RDWR)) ;;
     unlink "x") ;;
  sys SysWait ;;
  uret tt.

(** [what == 21]: a new file has its size and a proper number *)
Definition go_create : U unit :=
  unlink "c" ;;
  fd1 <- sys (SysOpen (lit "c") (Z.lor O_CREATE O_RDWR)) ;;
  if fd1 <? 0 then quit fuel 1 "grind: create c failed" 1
  else
    n <- sys (SysWrite fd1 (lit "x")) ;;
    if negb (n =? 1) then quit fuel 1 "grind: write c failed" 1
    else
      r <- sys_fstat fd1 st ;;
      if negb (r =? 0) then quit fuel 1 "grind: fstat failed" 1
      else
        size <- uload64 (st + 16) ;;
        if negb (size =? 1) then
          printf fuel (litn "grind: fstat reports wrong size %d") [i32 size] ;;
          uexit 1
        else
          ino <- uload32 (st + 4) ;;
          if 200 <? ino then
            printf fuel (litn "grind: fstat reports crazy i-number %d") [ino] ;;
            uexit 1
          else
            sys (SysClose fd1) ;;
            unlink "c".

(** [close(from); if(dup(fd) != from) exit(status); close(fd)] *)
Definition redirect (from fd status : Z) : U unit :=
  sys (SysClose from) ;;
  r <- sys (SysDup fd) ;;
  if negb (r =? from) then quit fuel 2 "grind: dup failed" status
  else
    sys (SysClose fd) ;;
    uret tt.

(** The two children of [what == 22] *)
Definition go_echo : U unit :=
  a0 <- uload32 aa ;; a1 <- uload32 (aa + 4) ;; b0 <- uload32 bb ;; b1 <- uload32 (bb + 4) ;;
  sys (SysClose b0) ;;
  sys (SysClose b1) ;;
  sys (SysClose a0) ;;
  redirect 1 a1 1 ;;
  sys (SysExec (lit "grindir/../echo") [lit "echo"; lit "hi"]) ;;
  quit fuel 2 "grind: echo: not found" 2.

Definition go_cat : U unit :=
  a0 <- uload32 aa ;; a1 <- uload32 (aa + 4) ;; b0 <- uload32 bb ;; b1 <- uload32 (bb + 4) ;;
  sys (SysClose a1) ;;
  sys (SysClose b0) ;;
  redirect 0 a0 4 ;;
  redirect 1 b1 5 ;;
  sys (SysExec (lit "/cat") [lit "cat"]) ;;
  quit fuel 2 "grind: cat: not found" 6.

(** [what == 22]: echo hi | cat *)
Definition go_pipeline : U unit :=
  r <- sys_pipe aa ;;
  if r <? 0 then quit fuel 2 "grind: pipe failed" 1
  else
    r <- sys_pipe bb ;;
    if r <? 0 then quit fuel 2 "grind: pipe failed" 1
    else
      pid1 <- sys SysFork ;;
      (if pid1 =? 0 then go_echo
       else if pid1 <? 0 then quit fuel 2 "grind: fork failed" 3
       else uret tt) ;;
      pid2 <- sys SysFork ;;
      (if pid2 =? 0 then go_cat
       else if pid2 <? 0 then quit fuel 2 "grind: fork failed" 7
       else uret tt) ;;
      a0 <- uload32 aa ;; a1 <- uload32 (aa + 4) ;; b0 <- uload32 bb ;; b1 <- uload32 (bb + 4) ;;
      sys (SysClose a0) ;;
      sys (SysClose a1) ;;
      sys (SysClose b1) ;;
      m <- umem ;;
      uput (mem_write m buf4 [0; 0; 0; 0]) ;;
      sys_read b0 buf4 1 ;;
      sys_read b0 (buf4 + 1) 1 ;;
      sys_read b0 (buf4 + 2) 1 ;;
      sys (SysClose b0) ;;
      sys_into SysWait st1 ;;
      sys_into SysWait st2 ;;
      v1 <- uload32 st1 ;;
      v2 <- uload32 st2 ;;
      m <- umem ;;
      d <- (if (v1 =? 0) && (v2 =? 0) then of_opt (strcmp fuel m buf4 hi_nl) else uret 0) ;;
      uwhen (negb (v1 =? 0) || negb (v2 =? 0) || negb (d =? 0))
        (printf fuel (lit "grind: exec pipeline failed %d %d " ++ [34] ++ lit "%s" ++ [34; 10]) [v1; v2; buf4] ;;
         uexit 1).

(** A turn of the loop of [go] *)
Definition go_step (what break0 fd : Z) : U Z :=
  if what <? 13 then go_files what fd
  else
    (if what <? 19 then go_procs what break0
     else
       match what with
       | 19 => go_pipe
       | 20 => go_lost_dir
       | 21 => go_create
       | 22 => go_pipeline
       | _ => uret tt
       end) ;;
    uret fd.

Fixpoint go_loop (f : nat) (which_child break0 iters fd : Z) : U unit :=
  match f with
  | O => stuck "fuel"
  | S f =>
      let iters := u64 (iters + 1) in
      uwhen (iters mod 500 =? 0)
        (sys (SysWrite 1 (lit (if truth which_child then "B" else "A"))) ;; uret tt) ;;
      r <- rand ;;
      fd <- go_step (Z.rem r 23) break0 fd ;;
      go_loop f which_child break0 iters fd
  end.

Definition go (which_child : Z) : U unit :=
  break0 <- sys (SysSbrk 0) ;;
  mkdir "grindir" ;;
  r <- sys (SysChdir (lit "grindir")) ;;
  if negb (r =? 0) then quit fuel 1 "grind: chdir grindir failed" 1
  else
    chdir "/" ;;
    go_loop fuel which_child break0 0 (-1).

(** [pid = fork(); if(pid < 0) exit(1); if(pid == 0){ rand_next ^= seed; go(which); exit(0); }] *)
Definition start_child (seed which : Z) : U Z :=
  pid <- sys SysFork ;;
  if pid <? 0 then quit fuel 1 "grind: fork failed" 1
  else if pid =? 0 then
    v <- uload64 rand_next ;;
    ustore64 rand_next (Z.lxor v seed) ;;
    go which ;;
    uexit 0
  else uret pid.

Definition iter : U unit :=
  unlink "a" ;;
  unlink "b" ;;
  pid1 <- start_child 31 0 ;;
  pid2 <- start_child 7177 1 ;;
  ustore32 st1 (u32 (-1)) ;;
  sys_into SysWait st1 ;;
  v1 <- uload32 st1 ;;
  uwhen (negb (v1 =? 0))
    (sys (SysKill pid1) ;;
     sys (SysKill pid2) ;;
     uret tt) ;;
  ustore32 st2 (u32 (-1)) ;;
  sys_into SysWait st2 ;;
  uexit 0.

Fixpoint grind_loop (f : nat) : U Z :=
  match f with
  | O => stuck "fuel"
  | S f =>
      pid <- sys SysFork ;;
      (if pid =? 0 then
         iter ;;
         uexit 0
       else uret tt) ;;
      uwhen (0 <? pid) (sys SysWait ;; uret tt) ;;
      sys (SysSleep 20) ;;
      v <- uload64 rand_next ;;
      ustore64 rand_next (u64 (v + 1)) ;;
      grind_loop f
  end.

Definition grind_main : U Z := grind_loop fuel.
End Grind.

(** ** shmtest.c *)

Section Shmtest.
Context (fuel : nat).

(** [for(int i=0;i<10;i++) shm[i]='A'+i;] with [k] rounds to go *)
Fixpoint shm_fill (k : nat) (shm i : Z) : U unit :=
  match k with
  | O => uret tt
  | S k =>
      ustore8 (shm + i) (65 + i) ;;
      shm_fill k shm (i + 1)
  end.

(** The page is shared: what others stored there while the program waits is part of
    the answer of [wait(0)]. *)
Definition shmtest_main : U Z :=
  shm <- sys (SysShmGet 0) ;;
  if shm =? 0 then
    printf fuel (litn "Failed to get shared memory") [] ;;
    uexit 1
  else
    pid <- sys SysFork ;;
    if pid <? 0 then
      printf fuel (litn "Fork failed") [] ;;
      uexit 1
    else if pid =? 0 then
      shm_fill 10 shm 0 ;;
      ustore8 (shm + 10) 0 ;;
      printf fuel (litn "Child wrote to shared memory: %s") [shm] ;;
      uexit 0
    else
      sys_into SysWait shm ;;
      printf fuel (litn "Parent reads from shared memory: %s") [shm] ;;
      uexit 0.
End Shmtest.

(** ** The generator *)

Definition RM : Z := 2 ^ 31 - 1.
Definition RA : Z := 7 ^ 5.

Lemma rand_coprime x : 0 < x < RM -> RA * x mod RM <> 0.
Proof.
  intros Hx E. apply Z.mod_divide in E; [|done]. apply Gauss in E; [|apply Zgcd_1_rel_prime; by vm_compute].
  apply Z.divide_pos_le in E; lia.
Qed.

(** Schrage's method: the product modulo [RM] in 32 bits *)
Lemma schrage x : 0 < x < RM -> let d := 16807 * (x mod 127773) - 2836 * (x / 127773) in
  - RM < d < RM /\ RA * x mod RM = if d <? 0 then d + RM else d.
Proof.
  intros Hx d. change RM with 2147483647 in *. change RA with 16807. pose proof (Z.div_mod x 127773 ltac:(done)) as E. pose proof (Z.mod_pos_bound x 127773 eq_refl) as Hm.
  assert (Hq : 0 <= x / 127773 < 16808) by (split; [apply Z.div_pos; lia|apply Z.div_lt_upper_bound; lia]).
  assert (Hd : - 2147483647 < d < 2147483647) by (unfold d; lia). split; [done|].
  assert (Ex : 16807 * x = d + x / 127773 * 2147483647) by (unfold d; lia). rewrite Ex, Z_mod_plus_full.
  destruct (Z.ltb_spec d 0); [|apply Z.mod_small; lia]. rewrite <- (Z_mod_plus_full d 1). apply Z.mod_small. lia.
Qed.

Lemma i64_small x : - 2 ^ 63 <= x < 2 ^ 63 -> i64 x = x.
Proof. intros H. apply sint_wrap_small; [lia|]. cbn. lia. Qed.

(** The state [v] stands for [v + 1]. *)
Lemma rand_value_spec v : let x := v mod (RM - 1) + 1 in rand_value v = RA * x mod RM - 1 /\ 0 <= rand_value v < RM - 1.
Proof.
  intros x. pose proof (Z.mod_pos_bound v (RM - 1) eq_refl) as Hm. assert (Hx : 0 < x < RM) by (unfold x; lia). change RM with 2147483647 in Hx. pose proof (schrage x Hx) as [Hd Es].
  pose proof (rand_coprime x Hx) as H0. pose proof (Z.mod_pos_bound (RA * x) RM eq_refl) as Hb. change RM with 2147483647 in Hd, Hb.
  pose proof (Z.mod_pos_bound x 127773 eq_refl). assert (0 <= x / 127773 < 16808) by (split; [apply Z.div_pos; lia|apply Z.div_lt_upper_bound; lia]).
  assert (E : rand_value v = RA * x mod RM - 1).
  { unfold rand_value. change 0x7ffffffe with (RM - 1). fold x. rewrite (i64_small x) by lia. rewrite Z.quot_div_nonneg, Z.rem_mod_nonneg by lia.
    rewrite (i64_small (16807 * _)), (i64_small (2836 * _)) by lia. set (d := 16807 * _ - _) in *. rewrite (i64_small d) by lia.
    rewrite Es in *. change RM with 2147483647 in *. destruct (Z.ltb_spec d 0); rewrite ?(i64_small (d + _)) by lia; apply i64_small; lia. }
  split; [done|]. rewrite E. change RM with 2147483647 in *. lia.
Qed.

(** *** The period *)

(** [a ^ p mod m] by squaring *)
Fixpoint pow_mod (a m : Z) (p : positive) : Z :=
  match p with
  | xH => a mod m
  | xO p => let y := pow_mod a m p in y * y mod m
  | xI p => let y := pow_mod a m p in a * (y * y mod m) mod m
  end.

Lemma pow_mod_spec a m p : pow_mod a m p = a ^ Zpos p mod m.
Proof.
  induction p as [p IH|p IH|]; cbn [pow_mod]; [| |by rewrite Z.pow_1_r]; rewrite IH.
  - rewrite Pos2Z.inj_xI, Z.pow_add_r, Z.pow_1_r, Z.pow_twice_r by lia. rewrite <- Zmult_mod, Zmult_mod_idemp_r. f_equal. ring.
  - rewrite Pos2Z.inj_xO, Z.pow_twice_r by lia. by rewrite <- Zmult_mod.
Qed.

(** Trial division *)
Fixpoint no_divisor (fuel : nat) (d n : Z) : bool :=
  match fuel with
  | O => n <? d * d
  | S fuel => negb (n mod d =? 0) && no_divisor fuel (d + 1) n
  end.

Lemma no_divisor_spec fuel : forall d n e, 1 < d -> no_divisor fuel d n = true -> d <= e -> e * e <= n -> ~ (e | n).
Proof.
  induction fuel as [|fuel IH]; intros d n e Hd H He Hs; cbn in H.
  - apply Z.ltb_lt in H. nia.
  - apply andb_true_iff in H as [H1 H2]. apply negb_true_iff, Z.eqb_neq in H1. destruct (decide (e = d)) as [->|Hne]; [|by apply (IH (d + 1)); [lia|done|lia|]].
    intros Hdiv. apply H1, Z.mod_divide; [lia|done].
Qed.

Lemma trial_prime n : 1 < n -> no_divisor (Z.to_nat (Z.sqrt n)) 2 n = true -> prime n.
Proof.
  intros Hn H. apply prime_alt. split; [done|]. intros e He [k E]. assert (Hk : 1 < k < n) by nia.
  destruct (Z.le_ge_cases (e * e) n) as [Hs|Hs]; [by apply (no_divisor_spec (Z.to_nat (Z.sqrt n)) 2 n e); [lia|done|lia|done|exists k]|].
  assert (k * k <= n) by nia. apply (no_divisor_spec (Z.to_nat (Z.sqrt n)) 2 n k); [lia|done|lia|done|]. exists e. lia.
Qed.

Lemma RM_prime : prime RM.
Proof. apply trial_prime; [done|by vm_compute]. Qed.

(** A divisor of [RM - 1] that misses all its prime factors is 1. *)
Definition factors : list Z := [2; 3; 7; 11; 31; 151; 331].

Lemma factors_prime q : q ∈ factors -> prime q.
Proof. intros H%list_elem_of_In. cbn in H. destruct_or?; subst; try done; [apply prime_2|..]; apply trial_prime; done || by vm_compute. Qed.

Lemma missed_factors h : (h | RM - 1) -> 0 < h -> (forall q, q ∈ factors -> ~ (q | h)) -> h = 1.
Proof.
  intros Hd Hh Hq. assert (Hr : forall q, q ∈ factors -> rel_prime h q) by (intros q E; apply rel_prime_sym, prime_rel_prime; [by apply factors_prime|by apply Hq]).
  assert (R : rel_prime h (RM - 1)).
  { change (RM - 1) with (2 * (3 * (3 * (7 * (11 * (31 * (151 * 331))))))). repeat (apply rel_prime_mult; [apply Hr, list_elem_of_In; cbn; tauto|]). apply Hr, list_elem_of_In. cbn. tauto. }
  apply Zgcd_1_rel_prime in R. assert (E : (h | 1)) by (rewrite <- R; by apply Z.gcd_greatest). apply Z.divide_1_r_nonneg in E; lia.
Qed.

(** The exponents that give 1 *)
Definition unity (k : Z) : Prop := RA ^ k mod RM = 1.

Lemma unity_mul n j : 0 <= n -> 0 <= j -> unity n -> unity (n * j).
Proof. intros Hn Hj H. unfold unity. rewrite Z.pow_mul_r, Zpower_mod, H, Z.pow_1_l by done. done. Qed.

Lemma unity_add a b : 0 <= a -> 0 <= b -> unity b -> unity (a + b) -> unity a.
Proof. intros Ha Hb Ub U. unfold unity in *. rewrite Z.pow_add_r, <- Zmult_mod_idemp_r, Ub, Z.mul_1_r in U by done. done. Qed.

Lemma unity_gcd b : 0 <= b -> forall a, 0 <= a -> unity a -> unity b -> unity (Z.gcd a b).
Proof.
  revert b. apply (Zlt_0_ind (fun b => forall a, 0 <= a -> unity a -> unity b -> unity (Z.gcd a b))). intros b IH Hb a Ha Ua Ub.
  destruct (decide (b = 0)) as [->|Hn]; [by rewrite Z.gcd_0_r, Z.abs_eq|]. pose proof (Z.mod_pos_bound a b ltac:(lia)) as Hm. rewrite (Z.gcd_comm a b), <- (Z.gcd_mod a b Hn), (Z.gcd_comm _ b).
  apply IH; [lia|lia|done|].
  apply (unity_add _ (b * (a / b))); [lia|pose proof (Z.div_pos a b); nia|apply unity_mul; [lia|apply Z.div_pos; lia|done]|].
  rewrite Z.add_comm, <- Z.div_mod by done. done.
Qed.

Lemma unity_full : unity (RM - 1).
Proof. unfold unity. change (RM - 1) with (Zpos 2147483646). rewrite <- pow_mod_spec. vm_compute. reflexivity. Qed.

Lemma unity_factor q : q ∈ factors -> ~ unity ((RM - 1) / q).
Proof.
  intros H%list_elem_of_In. cbn in H. unfold unity. destruct H as [<-|[<-|[<-|[<-|[<-|[<-|[<-|[]]]]]]]];
    match goal with |- ~ (RA ^ ?e mod RM = 1) => let p := eval vm_compute in (Z.to_pos e) in change e with (Zpos p) end; rewrite <- pow_mod_spec; vm_compute; discriminate.
Qed.

(** 16807 generates all residues. *)
Lemma order k : 0 < k -> unity k -> (RM - 1 | k).
Proof.
  intros Hk U. pose proof (unity_gcd (RM - 1) ltac:(done) k ltac:(lia) U unity_full) as Ug. set (g := Z.gcd k (RM - 1)) in *. assert (Hg : 0 < g) by (pose proof (Z.gcd_nonneg k (RM - 1)); pose proof (Z.gcd_eq_0_l k (RM - 1)); lia).
  destruct (Z.gcd_divide_r k (RM - 1)) as [h E]. fold g in E. assert (Hh : 0 < h) by (change RM with 2147483647 in E; nia).
  assert (h = 1) as ->; [|rewrite Z.mul_1_l in E; rewrite E; apply Z.gcd_divide_l]. apply missed_factors; [exists g; lia|done|]. intros q Hq [j Ej].
  assert (Hq0 : 0 < q) by (apply factors_prime, prime_ge_2 in Hq; lia). apply (unity_factor q Hq). assert (Hj : 0 < j) by nia.
  replace ((RM - 1) / q) with (g * j); [apply unity_mul; [lia|lia|done]|]. rewrite E, Ej. replace (j * q * g) with (g * j * q) by ring. by rewrite Z.div_mul by lia.
Qed.

Lemma rand_iter k v : 0 <= v < RM - 1 -> Nat.iter k rand_value v + 1 = RA ^ Z.of_nat k * (v + 1) mod RM /\ 0 <= Nat.iter k rand_value v < RM - 1.
Proof.
  intros Hv. induction k as [|k [E B]]; [change (Nat.iter 0 rand_value v) with v; rewrite Z.pow_0_r, Z.mul_1_l, Z.mod_small by lia; done|].
  change (Nat.iter (S k) rand_value v) with (rand_value (Nat.iter k rand_value v)). destruct (rand_value_spec (Nat.iter k rand_value v)) as [E1 B1]. split; [|done]. rewrite E1. cbv zeta. rewrite (Z.mod_small (Nat.iter k rand_value v)), E by done.
  rewrite Zmult_mod_idemp_r, Nat2Z.inj_succ, Z.pow_succ_r by lia. rewrite <- Z.mul_assoc. lia.
Qed.

Lemma no_return r k : 0 <= r < RM - 1 -> 0 < k < RM - 1 -> r + 1 = RA ^ k * (r + 1) mod RM -> False.
Proof.
  intros B Hk E. assert (Hd : (RM | (RA ^ k - 1) * (r + 1))).
  { exists (RA ^ k * (r + 1) / RM). pose proof (Z.div_mod (RA ^ k * (r + 1)) RM ltac:(done)). lia. }
  apply prime_mult in Hd; [|apply RM_prime]. destruct Hd as [[j Ej]|Hd]; [|apply Z.divide_pos_le in Hd; lia].
  assert (U : unity k) by (unfold unity; replace (RA ^ k) with (1 + j * RM) by lia; by rewrite Z_mod_plus_full). apply order in U; [|lia]. apply Z.divide_pos_le in U; lia.
Qed.

Lemma rand_back n r : Z.of_nat n = RM - 1 -> 0 <= r < RM - 1 -> Nat.iter n rand_value r = r.
Proof. intros Hn B. destruct (rand_iter n r B) as [E _]. rewrite Hn, <- Zmult_mod_idemp_l, unity_full, Z.mul_1_l, Z.mod_small in E by lia. lia. Qed.

(** C34 The random numbers of grind: [do_rand] replaces its state by the next value of the generator the comment
    describes, x = 7^5 x mod (2^31 - 1) for the state x - 1, computed without overflow; the value returned and stored
    is between 0 and 2^31 - 3; and the generator has the full period: from every such state it comes back after
    2^31 - 2 turns, and not before. *)
Theorem do_rand_correct {W} `{!Os W} ctx m (w : W) : let v := load64 m ctx in let r := rand_value v in
  run (do_rand ctx) m w = Returns r (store64 m ctx r) w /\
  r + 1 = 7 ^ 5 * (v mod (2 ^ 31 - 2) + 1) mod (2 ^ 31 - 1) /\ 0 <= r <= 2 ^ 31 - 3 /\
  Nat.iter (Z.to_nat (2 ^ 31 - 2)) rand_value r = r /\
  forall k, 0 < k < 2 ^ 31 - 2 -> Nat.iter (Z.to_nat k) rand_value r <> r.
Proof.
  intros v r. destruct (rand_value_spec v) as [E B]. fold r in E, B. change (2 ^ 31 - 2) with (RM - 1). change (2 ^ 31 - 1) with RM. change (7 ^ 5) with RA. change (2 ^ 31 - 3) with (RM - 2).
  split; [|split; [lia|split; [lia|split]]].
  - change (run (do_rand ctx) m w) with (Returns (i32 r) (store64 m ctx (u64 r)) w). change RM with 2147483647 in B.
    rewrite uint_wrap_small by lia. f_equal. apply sint_wrap_small; [lia|]. cbn. lia.
  - apply rand_back; [apply Z2Nat.id; discriminate|exact B].
  - intros k Hk Ek. destruct (rand_iter (Z.to_nat k) r B) as [E' _]. rewrite Z2Nat.id, Ek in E' by lia. apply (no_return r k B); done.
Qed.
